(* ===== verification/_CoqProject ===== *)
-Q . S2P
Prelude.v
PyString.v
PyOrder.v
PyNum.v
PyInt.v
PyDate.v
PyRegex.v
PyVal.v
PyRepr.v
PyDict.v
PyLiteral.v
PyJson.v
Effects.v
CloudCalls.v
TriggerVersions.v
Versions.v
TriggerConfig.v
TriggerResolution.v
JenkinsClient.v
TriggerMatrix.v
Retry.v
Replication.v
CidrPool.v
CapacityGuards.v
Events.v
EventFilters.v
EventsDevice.v
ContinuousEvents.v
EventConsumers.v
EventFiles.v
HealthChecks.v
ProvisionPlan.v
NodeAllocator.v
Selector.v
NemesisRegistry.v
NemesisSelection.v
NemesisRunner.v
RegionFallback.v
GceCapacity.v
GceZones.v
GceFallback.v
SpotScores.v
AwsZones.v
Placement.v
AwsFallback.v
AwsReservations.v
Cleanup.v
RunnerCleanup.v
InstanceMatcher.v
RunCost.v
Sizing.v
ConfigLoading.v
KeyStore.v
Bisect.v
Issues.v
Timeouts.v
AwsProvisioner.v
AwsCluster.v
InstancesProvider.v
