(* ===== verification/Prelude.v ===== *)
(** * Scylla Cluster Tests: verification library

    Scylla Cluster Tests (SCT) is a Python framework that provisions a database cluster in a
    cloud, loads it, disturbs it with _nemeses_, and judges the test by the _events_ its
    parts publish. This library models the parts of SCT that decide something by their own
    logic and proves what makes them correct. Paths below are relative to [src/].

    ** How the code is translated

    Pure code is a function. Code that can raise returns an [outcome] ([Ok] or [Err], this
    file). Code that changes state and raises is an action of [Effects] (a state and
    exception monad that keeps the changes made before an exception), or a function on the
    component's state record. A Python [dict] whose order matters is an insertion-ordered
    association list ([PyDict]), other dictionaries and sets are [gmap] and [gset]. Strings
    and their methods are in [PyString], [int] of a text in [PyInt], dynamically typed
    configuration values in [PyVal], [repr] in [PyRepr], comparisons and [sorted] in [PyOrder],
    dates in [PyDate]. Three readers are modelled as far as
    the code uses them: [ast.literal_eval] in [PyLiteral], [json.loads] in [PyJson], and
    regular expressions in [PyRegex], by derivatives that are proved to decide the language.
    Python's [float] is an integer count of ticks for points in time and an exact rational for
    weights and scores and, in [PyNum], for amounts of memory, prices and costs: rounding is
    not modelled. Python's [int] is unbounded, hence [Z] or [nat]. A cloud API,
    Jenkins, a database session, the clock, the random generator, ZMQ, [ast.parse], regular
    expressions that come from a configuration, pydantic's checks, [anyconfig.merge], and the
    disruptions themselves are arguments, and so are [ast.literal_eval] and [yaml.safe_load]
    where configurations are loaded.
    Where code is judged by the calls it makes, the cloud is a function from the calls made
    so far to the next answer ([CloudCalls]), and the calls are part of the state.
    What the theorems need of them is a named hypothesis, and each such
    theorem has a witness that instantiates them. Log lines and the text of messages are
    left out unless code reads them.

    ** The event system

    An event object is published to the events device. The device sends it to every consumer
    process. A consumer drops what a filter suppresses, limits severities and passes the rest
    on.
    - [Events]: [sdcm/sct_events/base.py] and the severities of [sct_events/__init__.py]. The
      registry of event classes is a state that class declarations extend; [max_severity] is
      total on every class declared through it, an event is sent at most once, and a log line
      becomes the first event whose pattern matches.
    - [EventFilters]: the filters of [sct_events/base.py] and [filters.py], their evaluation,
      cancellation and expiry.
    - [EventsDevice]: [events_device.py]. [run] is the sending loop, one [run_round] per
      iteration, and [outbound_events] the generator of a consumer with its dictionary of
      filters. A filter suppresses what it matches while it is open and, until the device
      drops it, what happened up to its expiry; what comes out is a
      subsequence of what came in that differs at most in severity; messages are sent in
      order, none is lost or invented, and the loop stops by its deadline.
    - [ContinuousEvents]: [continuous_event.py] and the status of [nemesis.py]. Events are
      shared objects, so there is a store of them and the registry holds references. The
      registry holds the events that have begun and not ended, after any sequence of
      operations.
    - [EventConsumers]: [events_analyzer.py], [event_handler.py], [event_counter.py], the
      pipes of [events_processes.py], and the aggregators of [grafana.py] and [argus.py].
      The analyzer kills the test once and for the first critical event, the counters count
      every event of their classes, pipes deliver everything, aggregators keep their rates.
    - [EventFiles]: [file_logger.py], the logs of events and the report that is read from them:
      it lists the events that were written, up to its limit, and the summary counts those
      that were handled.

    ** Nemeses

    - [NodeAllocator]: [sdcm/nemesis/utils/node_allocator.py]. Methods hold one lock, so they
      are atomic steps and threads are interleavings. No two nemeses hold one node, a
      selection meets its criteria or raises the exception that says why not, and every
      context manager gives back what it took on every path. The allocator refines a table
      of node locks: every operation is a sequence of acquisitions of free nodes and of
      releases of the nemesis's own.
    - [Selector]: [sdcm/utils/ast_utils.py], the evaluator of selection phrases, with a
      grammar, a parser for the fragment the phrases use and the equivalence of the two.
    - [NemesisRegistry]: [sdcm/nemesis/registry.py]. What Python reflects about classes is
      the interface [ClassGraph]. The search finds exactly the concrete descendants, once
      each.
    - [NemesisSelection]: the selection of [sdcm/nemesis/__init__.py] and of
      [sdcm/nemesis/monkey/runners.py]: which classes a selector or a list of names gives,
      what the precheck removes, what weights remain; a theorem shows that on Kubernetes only
      the last part of a disjunction is restricted.
    - [NemesisRunner]: [execute_nemesis] and [run] of [sdcm/nemesis/__init__.py], on the
      allocator of [NodeAllocator]. An execution releases its nodes and leaves the nodes of
      others alone whatever the disruption does; the loop ends within its cycles or at the
      termination event; a lone unsupported nemesis stops the loop after three skips.

    ** Placement and capacity fallback

    - [RegionFallback]: the two generic loops of [sdcm/provision/common/region_fallback.py]
      and the gates of [fallback.py]. Backends are records of operations with the laws they
      promise; against these the loops terminate and restore the original placement.
    - [GceCapacity], [GceZones]: [capacity_errors.py], [capacity_advisor.py] and
      [zone_resolver.py] of [sdcm/provision/gce/], with the zone queries of
      [sdcm/utils/gce_utils.py]. Rankings permute or restrict their input, resolved zones
      offer every requested machine type.
    - [GceFallback]: [sdcm/provision/gce/region_fallback.py]. It discharges the laws of
      [RegionFallback], so a failed run leaves region, zone and environment as they were.
    - [SpotScores], [AwsZones]: [spot_placement_score.py] and [az_resolver.py] of
      [sdcm/provision/aws/]. Candidates have the requested shape and only usable letters, and
      relocation targets are free, peered and support the instance types.
    - [AwsFallback]: [sdcm/provision/aws/region_fallback.py] and [capacity_errors.py], the
      loops of [sdcm/sct_provision/aws/layout.py] and [resolve_amis] of
      [sdcm/sct_config/config.py]. The loops terminate, and whatever Exception ends them
      the placement is restored, unless a clean-up or, after a spot relocation, the listing of
      candidates fails; theorems show errors that strand it, and that images are not put back.

    ** Provisioning

    - [Retry]: [retrying] of [sdcm/utils/decorators.py], [forever_wait_for] and
      [wait_for_log_lines] of [sdcm/wait.py]. The clock is the class [Clock]; the loops end
      by their number of tries or by their deadline.
    - [CapacityGuards]: [skip_on_capacity_issues], [critical_on_capacity_issues] and
      [optional_stage] of [decorators.py], with [check_cluster_layout] of
      [sdcm/utils/cluster_tools.py]. A failed topology change is skipped only while the
      cluster has its configured layout.
    - [ProvisionPlan]: [spot_outcome.py], [provision_plan.py] and
      [provision_plan_builder.py] of [sdcm/provision/common/], and the spot fallback of
      [sdcm/cluster_aws.py]. Every downgrade from spot to on-demand is recorded.
    - [AwsProvisioner]: [provisioner.py] and [utils.py] of [sdcm/provision/aws/]. Tag
      dictionaries are shared objects in a store. A request for any number of instances is
      split into requests within the limits of EC2 that add up to it, and an answered spot
      request names the instances of all of its parts.
    - [AwsCluster]: [sdcm/sct_provision/aws/cluster.py]. The batches of a cluster name every
      node once; those of zero-token nodes need not fit, as a theorem shows.
    - [Placement]: the handoff of the resolved placement between the process that provisions
      and the one that tests ([sdcm/test_config.py], [_apply_resolved_placement] of
      [sdcm/sct_config/config.py]). What was written is what the test run uses.
    - [InstancesProvider]: [sdcm/sct_provision/instances_provider.py], on [GceFallback],
      [Retry], [ProvisionPlan] and [Placement]. The price paid is the price recorded; GCE
      provisioning gives up with the configuration it started from; and a test run that
      applies the handoff is on the datacenters, and on the zones if there are any, that the
      provisioning ended with.

    ** Reservations and cleanup

    - [AwsReservations]: [capacity_reservation.py] and [dedicated_host.py] of
      [sdcm/provision/aws/]. The reservations of a run are all of one zone or none are held: a
      zone that cannot give all of them is asked to take back the ones it gave.
    - [Cleanup]: [sdcm/utils/resources_cleanup.py] with the listings of [common.py] and
      [oci_utils.py] in [sdcm/utils/]. No node of a type that the post behavior keeps is
      deleted, every step of a backend runs whichever others fail, and a dry
      run makes no destructive call but for capacity reservations, which it cancels.
    - [RunnerCleanup]: the cleanup of [sdcm/sct_runner.py]. Without force, only runners
      that are due are terminated, and for the address of a run only one whose logs were
      collected; one whose logs were not is kept for longer first.

    ** Configuration

    - [ConfigLoading]: the converters of [sdcm/sct_config/types.py], the variables of the
      environment ([sdcm/utils/nested_env_key.py], [_load_environment_variables] of
      [config.py]), the merge of [helpers.py], the layers of [SCTConfiguration.__init__] and
      the keystore variables it exports. Converted values have the type of their field, a field
      is given a value only by its own variables, what the user sets goes before the defaults
      and the environment, when it decides, before the files, and a variable that the user set
      is never overwritten.

    - [KeyStore]: [sdcm/keystore.py]. Bytes from the cache of the process are those of the service
      they are asked of; a copy on disk is of the version noted next to it; the file of an SSH
      key is gone after its use.

    ** Sizes and costs

    - [InstanceMatcher]: [instance_matcher.py] and the catalog of [instance_catalog.py] in
      [sdcm/utils/cloud_catalog/]. The chosen entry matches every constraint and is first
      in the order of preference, and there is one unless nothing matches; the memory of a
      flexible shape is settled within its constraint where this is not strict.
    - [Sizing]: [_resolve_instance_sizes] and [_apply_duration_based_provision_policy] of
      [sdcm/sct_config/config.py], on [InstanceMatcher]. Every role stands as asked after the
      resolution, up to what the key of its cache tells apart; a theorem shows constraints it
      does not. Provisioning follows the duration of the test.
    - [RunCost]: [cost.py] and [pricing.py] of [sdcm/utils/cloud_catalog/]. An estimate
      lists every role the run has nodes in, with their number, and asks for spot prices once.

    ** Databases, versions and networks

    - [Replication]: [sdcm/utils/replication_strategy_utils.py] and [cql_utils.py]. A
      database is a record of operations with the class [CqlServer] of its laws. Strategies
      survive printing and reading, the temporary setter restores them, and replication
      factors lowered before a node leaves are given back; a theorem shows a failure after which
      one is not.
    - [Versions]: the comparable versions of [sdcm/utils/version_utils.py]. The spellings of a
      build in packages and images are one version, and the implementation of a method is the
      one whose range of versions it lies in.
    - [CidrPool]: [sdcm/utils/cidr_pool.py] with the route lists of [aws_region.py] and
      [gce_region.py]. Addresses are integers below 2^32; an allocated network has the
      configured size, lies in the base range and is neither reserved nor in use.

    ** Running and judging a test

    - [HealthChecks]: [sdcm/utils/health_checker.py], [RaftFeature] of
      [sdcm/utils/raft/__init__.py], and what [sdcm/cluster.py] makes of them for a node. A node
      is found healthy exactly if status, gossip, peers and group 0 show one cluster; removing
      what is left in group 0 ends with all of it removed or after three failures.
    - [Timeouts]: [sdcm/utils/adaptive_timeouts/__init__.py]. An operation gets the timeout
      computed for it, or is not run when that raises, and exceeding it is reported, at most
      once for each limit while it runs, and at its end.
    - [Issues]: [sdcm/utils/issues.py]. The spellings of a reference to an issue agree, and a
      test is skipped exactly for its open or labelled issues.
    - [Bisect]: [sdcm/utils/parallel_object.py] (Module [ParallelObject]) and
      [sdcm/utils/bisect_test.py] (Module [Bisect]). Every task in parallel has a result; the
      bisection ends with neighbouring builds of which one is good and the next bad.

    ** The trigger matrix

    [sdcm/utils/trigger_matrix/] starts the Jenkins jobs of a test matrix for a version of
    Scylla, each with a build that exists where the job runs.
    - [TriggerVersions]: [versions.py], and the version forms of [version_utils.py] and
      [common.py] it uses. A version maps to the folder of its branch, a GCE label and the
      build it stands for determine each other.
    - [TriggerConfig]: [models.py], [config.py] and [filters.py]. Field validation of
      pydantic is the class [ModelValidate]. A matrix that loads has scalar parameters, and
      one version never selects a job under two architectures.
    - [TriggerResolution]: [resolution.py], [backends.py] and the lookups of [images.py]. The
      published images are the class [ImageCatalog]. Each strategy gives a target only builds
      that are published for it.
    - [JenkinsClient]: [groovy.py] and [jenkins_client.py]. The server with its clock is the
      class [JenkinsServer]. Texts survive the Groovy literal; waiting ends, while the clock is
      steady, with one result for every build or with an exception that is not the library's.
    - [TriggerMatrix]: [parameters.py] and [matrix.py], on the others: the priority of
      parameters, no job twice, none lost, and every job sent a published build.

    ** Fuel

    Loops that are not structural take fuel and have a result of their own for running out.
    - [NemesisRegistry.walk]: the height of the class graph under the base class.
    - [NemesisRunner.run_loop]: more than the cycles left, or the iteration at which the
      termination event is set.
    - [RegionFallback.dc_loop] and [AwsFallback.db_rounds]: more than the candidates left,
      respectively the pairs of a data centre and a supported region, since each round uses
      up one.
    - [InstancesProvider]: four rounds for three tries, and for the region loop one round more
      than four candidates for each data centre; [Replication._resolve_datacenter]: six rounds
      for five tries.
    - [AwsProvisioner.wait_loop] and [Retry]: more rounds than sleeps fit before the deadline.
    - [JenkinsClient.wait_loop]: [2 * (T / poll_interval) + 5] cycles, where [T] is the longest
      timeout, since a build may wait that long in the queue and run as long again.
    - [HealthChecks.clean_loop]: the hosts found and three; each round removes one or fails.
    - [Bisect.search]: one more than the number of builds; each round tests or removes one.
    - [PyJson.read_json]: twice the length of the text.
    - [SpotScores.max_pages] bounds the pages of one request; there the source has no bound.
    - [Events.hasattr_fuel] follows a chain of base classes, at most one per class;
      the helpers on strings ([find_codes], [erase]) consume a character per step.
    - [AwsReservations] gives a host back in ten attempts, [Cleanup] waits for a volume of OCI
      in sixty rounds and retries placement groups thirty times: these are bounds of the code.
    Termination theorems state that such fuel gives a result, not only that a result is
    right.

    ** Not modelled

    Everything that acts on a live machine or service: the cluster classes and backends but for
    the health checks of a node, the remote runners, Kubernetes, the stress threads, log collection, monitoring, the Argus
    client, the bodies of the nemeses, the tests themselves. Of the modelled files: caches
    of API answers, JSON encoding, process start and stop, HTTP posting, the
    e-mail and the audit of the trigger matrix, its lookups of images by id, the creation of
    runners, the generation and reading of the instance catalog, and live on-demand prices.
    The cleaners of bare metal machines and of Scylla Cloud are single calls of [CloudCalls].
    Code with logic of its own that is left for later: histogram merging, the validation of
    loaded configurations, and the parsing of the manager's tables. *)
From stdpp Require Import base decidable option strings numbers gmap sets sorting list.
From Stdlib Require Import ZArith Lia Ascii String.

#[global] Set Default Proof Using "Type".

(** ** Scope of the development's notations *)
Declare Scope py_scope.
Delimit Scope py_scope with py.

(** ** Python's exceptions

    Code that can raise is a function into [outcome E A]: [Ok a] is a normal
    return, [Err e] is a raised exception, [E] the exceptions the component
    distinguishes. *)
Inductive outcome (E A : Type) : Type :=
  | Ok (a : A)
  | Err (e : E).
Arguments Ok {E A} a.
Arguments Err {E A} e.

Definition obind {E A B} (c : outcome E A) (k : A → outcome E B) : outcome E B :=
  match c with
  | Ok a => k a
  | Err e => Err e
  end.

Notation "'try!' x := c 'in' k" := (obind c (λ x, k))
  (at level 10, x pattern, c at level 100, k at level 200) : py_scope.

Definition is_ok {E A} (c : outcome E A) : bool :=
  match c with Ok _ => true | Err _ => false end.

#[export] Instance outcome_eq_dec {E A} `{EqDecision E, EqDecision A} :
  EqDecision (outcome E A).
Proof. solve_decision. Defined.

(** ** Truth values of Python objects *)
Class Truthy (A : Type) := truthy : A → bool.
#[export] Hint Mode Truthy ! : typeclass_instances.

#[export] Instance truthy_bool : Truthy bool := λ b, b.
#[export] Instance truthy_Z : Truthy Z := λ z, negb (Z.eqb z 0).
#[export] Instance truthy_nat : Truthy nat := λ n, negb (Nat.eqb n 0).
#[export] Instance truthy_string : Truthy string :=
  λ s, match s with EmptyString => false | _ => true end.
#[export] Instance truthy_list {A} : Truthy (list A) :=
  λ l, match l with [] => false | _ => true end.
(** [None] is falsy; an optional value that is present has its own truth value. *)
#[export] Instance truthy_option {A} `{Truthy A} : Truthy (option A) :=
  λ o, match o with None => false | Some a => truthy a end.

(** ** Case analysis tactics *)
Ltac case_ifs :=
  repeat match goal with
  | |- context [if ?b then _ else _] => destruct b eqn:?
  | H : context [if ?b then _ else _] |- _ => destruct b eqn:?
  end.

Ltac case_matches :=
  repeat (case_match; simplify_eq/=).

Lemma filter_always {A} (P : A → Prop) `{∀ x, Decision (P x)} (l : list A) :
  (∀ x, x ∈ l → P x) → filter P l = l.
Proof.
  induction l as [|x l IH]; intros Hl; [done|]. rewrite filter_cons_True by (apply Hl; set_solver).
  f_equal. apply IH. set_solver.
Qed.

Lemma filter_never {A} (P : A → Prop) `{∀ x, Decision (P x)} (l : list A) :
  (∀ x, x ∈ l → ¬ P x) → filter P l = [].
Proof.
  induction l as [|x l IH]; intros Hl; [done|]. rewrite filter_cons_False by (apply Hl; set_solver).
  apply IH. set_solver.
Qed.

(** Filtering by predicates that agree on the elements of the list. *)
Lemma list_filter_ext_in {A} (P Q : A → Prop) `{∀ x, Decision (P x)} `{∀ x, Decision (Q x)} (l : list A) :
  (∀ x, x ∈ l → P x ↔ Q x) → filter P l = filter Q l.
Proof.
  induction l as [|x l IH]; intros H1; [done|]. rewrite !filter_cons.
  rewrite IH by (intros y ?; apply H1; by right).
  destruct (H1 x ltac:(by left)) as [H2 H3]. repeat case_decide; tauto.
Qed.
