(* ===== verification/PyString.v ===== *)
(** * Python's [str] methods

    The string methods and the two pattern languages of the standard library
    that the modelled code uses: prefix and substring tests, [split], [strip],
    [join], [lower], [isdigit], [int] of a digit string, and the shell-style
    patterns of [fnmatch].  Strings are Stdlib's [string] (one [ascii] per
    character): the source's identifiers, version tags, AZ letters and log lines
    are ASCII. *)
From stdpp Require Import base decidable option strings numbers list.
From Stdlib Require Import Ascii String.
From S2P Require Import Prelude.

(** ** Characters *)
Definition char_in (lo hi c : ascii) : bool :=
  (nat_of_ascii lo <=? nat_of_ascii c) && (nat_of_ascii c <=? nat_of_ascii hi).

(** [str.isspace] on one ASCII character: [\t \n \v \f \r], [\x1c]-[\x1f], space. *)
Definition is_space (c : ascii) : bool :=
  let n := nat_of_ascii c in
  ((9 <=? n) && (n <=? 13)) || ((28 <=? n) && (n <=? 32)).

Definition is_digit (c : ascii) : bool := char_in "0" "9" c.

Definition lower_char (c : ascii) : ascii :=
  if char_in "A" "Z" c then ascii_of_nat (nat_of_ascii c + 32) else c.

(** ** Predicates *)
Fixpoint startswith (p s : string) : bool :=
  match p, s with
  | EmptyString, _ => true
  | String a p', String b s' => Ascii.eqb a b && startswith p' s'
  | String _ _, EmptyString => false
  end.

Definition str_rev (s : string) : string := string_of_list_ascii (rev (list_ascii_of_string s)).

Definition endswith (p s : string) : bool := startswith (str_rev p) (str_rev s).

(** [sub in s]. *)
Fixpoint contains (sub s : string) : bool :=
  startswith sub s ||
  match s with
  | EmptyString => false
  | String _ s' => contains sub s'
  end.

Fixpoint all_chars (f : ascii → bool) (s : string) : bool :=
  match s with
  | EmptyString => true
  | String c s' => f c && all_chars f s'
  end.

(** [s.isdigit()]: non-empty and made of digits. *)
Definition isdigit (s : string) : bool := truthy s && all_chars is_digit s.

(** ** Transformations *)
Fixpoint map_chars (f : ascii → ascii) (s : string) : string :=
  match s with
  | EmptyString => EmptyString
  | String c s' => String (f c) (map_chars f s')
  end.

Lemma map_chars_app f a b : map_chars f (a +:+ b) = map_chars f a +:+ map_chars f b.
Proof.
  induction a as [|c a IH]; [done|]. change (String c a +:+ b) with (String c (a +:+ b)). cbn [map_chars].
  by rewrite IH.
Qed.
Definition lower (s : string) : string := map_chars lower_char s.

Fixpoint drop_while (f : ascii → bool) (s : string) : string :=
  match s with
  | EmptyString => EmptyString
  | String c s' => if f c then drop_while f s' else s
  end.

Definition lstrip (s : string) : string := drop_while is_space s.
Definition rstrip (s : string) : string := str_rev (drop_while is_space (str_rev s)).
Definition strip (s : string) : string := rstrip (lstrip s).

(** [s.replace(sub, new)] for a non-empty [sub]; [skip] characters of a match remain. *)
Fixpoint str_replace_from (sub new : string) (skip : nat) (s : string) : string :=
  match s with
  | EmptyString => EmptyString
  | String c s' =>
    match skip with
    | S k => str_replace_from sub new k s'
    | O => if startswith sub s then new +:+ str_replace_from sub new (String.length sub - 1) s'
           else String c (str_replace_from sub new 0 s')
    end
  end.
Definition str_replace (s sub new : string) : string := str_replace_from sub new 0 s.

(** The longest prefix of characters [f], and the rest. *)
Fixpoint span_while (f : ascii → bool) (s : string) : string * string :=
  match s with
  | String c s' => if f c then let '(a, b) := span_while f s' in (String c a, b) else (EmptyString, s)
  | EmptyString => (EmptyString, EmptyString)
  end.

(** [s.split(sep)] for a one-character separator: never empty. *)
Fixpoint split_on (sep : ascii) (s : string) : list string :=
  match s with
  | EmptyString => [EmptyString]
  | String c s' =>
    match split_on sep s' with
    | [] => [String c EmptyString]
    | w :: ws => if Ascii.eqb c sep then EmptyString :: w :: ws else String c w :: ws
    end
  end.

(** [s.split()]: maximal runs of non-space characters. *)
Definition split_ws (s : string) : list string :=
  let fix go (s : string) (acc : string) : list string :=
    let flush := match acc with EmptyString => [] | _ => [str_rev acc] end in
    match s with
    | EmptyString => flush
    | String c s' => if is_space c then flush ++ go s' EmptyString else go s' (String c acc)
    end in
  go s EmptyString.

(** [s.split(sep, 1)] for a one-character separator. *)
Fixpoint split_once (sep : ascii) (s : string) : string * option string :=
  match s with
  | EmptyString => (EmptyString, None)
  | String c s' =>
    if Ascii.eqb c sep then (EmptyString, Some s')
    else let '(a, b) := split_once sep s' in (String c a, b)
  end.

(** [sep.join(ws)]. *)
Fixpoint join (sep : string) (ws : list string) : string :=
  match ws with
  | [] => EmptyString
  | [w] => w
  | w :: ws' => w +:+ sep +:+ join sep ws'
  end.

(** [s[n:]]. *)
Fixpoint str_drop (n : nat) (s : string) : string :=
  match n, s with
  | O, _ => s
  | S n', String _ s' => str_drop n' s'
  | S _, EmptyString => EmptyString
  end.

(** [int(s)] of a string of decimal digits. *)
Fixpoint digits_value (acc : Z) (s : string) : Z :=
  match s with
  | EmptyString => acc
  | String c s' => digits_value (10 * acc + (Z.of_nat (nat_of_ascii c) - 48)) s'
  end.
Definition int_of_digits (s : string) : Z := digits_value 0 s.

(** [s.count(sub)]: the number of non-overlapping occurrences, scanned from the
    left; an empty [sub] occurs at every position. *)
Fixpoint count_aux (fuel : nat) (sub s : string) : nat :=
  match fuel with
  | O => 0
  | S fuel' =>
    if startswith sub s then S (count_aux fuel' sub (str_drop (String.length sub) s))
    else match s with
         | EmptyString => 0
         | String _ s' => count_aux fuel' sub s'
         end
  end.
Definition str_count (s sub : string) : nat :=
  match sub with
  | EmptyString => S (String.length s)
  | _ => count_aux (S (String.length s)) sub s
  end.

(** ** [fnmatch]

    A pattern is [*] (any characters), [?] (one character), [[...]] (one
    character of a set, negated by a leading [!], with ranges) or a literal
    character; an unclosed bracket is a literal. *)
Inductive glob_item : Type :=
  | GStar
  | GAny
  | GSet (negated : bool) (ranges : list (ascii * ascii))
  | GLit (c : ascii).

(** Members of a bracket expression, ranges [a-b] read from the left. *)
Fixpoint set_ranges (fuel : nat) (l : list ascii) : list (ascii * ascii) :=
  match fuel with
  | O => []
  | S fuel' =>
    match l with
    | a :: "-"%char :: b :: l' => (a, b) :: set_ranges fuel' l'
    | a :: l' => (a, a) :: set_ranges fuel' l'
    | [] => []
    end
  end.

(** Splits at the [ ] ] that closes a bracket; one directly after the opening
    (and the optional [!]) is a member. *)
Fixpoint until_close (l : list ascii) : option (list ascii * list ascii) :=
  match l with
  | [] => None
  | "]"%char :: l' => Some ([], l')
  | c :: l' => match until_close l' with
               | Some (m, rest) => Some (c :: m, rest)
               | None => None
               end
  end.

Definition bracket (l : list ascii) : option (bool * list ascii * list ascii) :=
  let '(neg, l1) := match l with "!"%char :: l' => (true, l') | _ => (false, l) end in
  match l1 with
  | "]"%char :: l2 =>
    match until_close l2 with
    | Some (m, rest) => Some (neg, "]"%char :: m, rest)
    | None => None
    end
  | _ => match until_close l1 with
         | Some (m, rest) => Some (neg, m, rest)
         | None => None
         end
  end.

Fixpoint glob_items (fuel : nat) (l : list ascii) : list glob_item :=
  match fuel with
  | O => []
  | S fuel' =>
    match l with
    | [] => []
    | "*"%char :: l' => GStar :: glob_items fuel' l'
    | "?"%char :: l' => GAny :: glob_items fuel' l'
    | "["%char :: l' =>
      match bracket l' with
      | Some (neg, m, rest) => GSet neg (set_ranges (List.length m) m) :: glob_items fuel' rest
      | None => GLit "["%char :: glob_items fuel' l'
      end
    | c :: l' => GLit c :: glob_items fuel' l'
    end
  end.

Definition in_set (rs : list (ascii * ascii)) (c : ascii) : bool :=
  existsb (λ r, char_in r.1 r.2 c) rs.

Fixpoint glob_match (p : list glob_item) (s : list ascii) : bool :=
  match p with
  | [] => match s with [] => true | _ => false end
  | GStar :: p' =>
    (fix star (s : list ascii) : bool :=
       glob_match p' s || match s with [] => false | _ :: s' => star s' end) s
  | GAny :: p' => match s with [] => false | _ :: s' => glob_match p' s' end
  | GSet neg rs :: p' =>
    match s with [] => false | c :: s' => xorb neg (in_set rs c) && glob_match p' s' end
  | GLit c :: p' =>
    match s with [] => false | d :: s' => Ascii.eqb c d && glob_match p' s' end
  end.

Definition fnmatch (name pat : string) : bool :=
  let l := list_ascii_of_string pat in
  glob_match (glob_items (List.length l) l) (list_ascii_of_string name).

(** ** Lemmas *)
Lemma startswith_spec p s : startswith p s = true ↔ ∃ t, s = p +:+ t.
Proof.
  revert s. induction p as [|a p IH]; intros s; simpl.
  - split; [eauto|done].
  - destruct s as [|b s]; simpl.
    + split; [done|]. intros [t ?]; discriminate.
    + rewrite andb_true_iff, Ascii.eqb_eq, IH. split.
      * intros [-> [t ->]]. by exists t.
      * intros [t [= -> ->]]. eauto.
Qed.

Lemma startswith_refl s : startswith s s = true.
Proof. induction s as [|c s IH]; simpl; [done|]. by rewrite Ascii.eqb_refl, IH. Qed.

Lemma split_on_nonempty sep s : split_on sep s ≠ [].
Proof. destruct s; simpl; [done|]. case_match; [done|]. by case_match. Qed.

Lemma join_cons sep w ws : ws ≠ [] → join sep (w :: ws) = w +:+ sep +:+ join sep ws.
Proof. by destruct ws. Qed.

(** Joining what [split] gives restores the string. *)
Lemma join_split_on sep s : join (String sep EmptyString) (split_on sep s) = s.
Proof.
  induction s as [|c s IH]; simpl; [done|].
  pose proof (split_on_nonempty sep s) as Hne.
  destruct (split_on sep s) as [|w ws]; [done|].
  destruct (Ascii.eqb c sep) eqn:E.
  - apply Ascii.eqb_eq in E as ->. rewrite join_cons by done. by rewrite IH.
  - destruct ws as [|w' ws]; simpl in *; by rewrite <- IH.
Qed.

Lemma split_on_no_sep sep s : all_chars (λ c, negb (Ascii.eqb c sep)) s = true → split_on sep s = [s].
Proof.
  induction s as [|c s IH]; simpl; [done|].
  intros [Hc Hs]%andb_true_iff. rewrite IH by done.
  apply negb_true_iff in Hc. by rewrite Hc.
Qed.

Lemma split_on_app sep a b :
  all_chars (λ c, negb (Ascii.eqb c sep)) a = true →
  split_on sep (a +:+ String sep b) = a :: split_on sep b.
Proof.
  induction a as [|c a IH]; simpl.
  - intros _. pose proof (split_on_nonempty sep b) as Hne.
    destruct (split_on sep b) eqn:E; [done|]. by rewrite Ascii.eqb_refl.
  - intros [Hc Ha]%andb_true_iff. rewrite IH by done.
    apply negb_true_iff in Hc. by rewrite Hc.
Qed.

Lemma split_on_cat sep a b :
  split_on sep (a +:+ String sep b) = split_on sep a ++ split_on sep b.
Proof.
  induction a as [|c a IH].
  - by apply (split_on_app sep EmptyString b).
  - change (String c a +:+ String sep b) with (String c (a +:+ String sep b)).
    cbn [split_on]. rewrite IH. pose proof (split_on_nonempty sep a) as Hne.
    destruct (split_on sep a) as [|w ws]; [done|]. simpl. by case_match.
Qed.

Lemma split_once_head sep s w ws : split_on sep s = w :: ws → (split_once sep s).1 = w.
Proof.
  revert w ws. induction s as [|c s IH]; simpl; intros w ws H; [by simplify_eq|].
  destruct (split_on sep s) as [|w' ws'] eqn:E.
  - by destruct (split_on_nonempty sep s).
  - destruct (Ascii.eqb c sep); simplify_eq; [done|].
    specialize (IH _ _ eq_refl). destruct (split_once sep s); simpl in *. by subst.
Qed.

(** Words free of the separator survive a [join] and [split]. *)
Lemma split_on_join sep ws :
  ws ≠ [] → Forall (λ w, all_chars (λ c, negb (Ascii.eqb c sep)) w = true) ws →
  split_on sep (join (String sep EmptyString) ws) = ws.
Proof.
  induction ws as [|w ws IH]; [done|]. intros _ [Hw Hws]%Forall_cons.
  destruct ws as [|w' ws]; [by apply split_on_no_sep|].
  rewrite join_cons by done.
  change (String sep "" +:+ ?x) with (String sep x).
  rewrite split_on_app by done. by rewrite IH.
Qed.

(** ** Sanity checks *)
Example split_ws_ex : split_ws "  node-1 10.0.0.1	x " = ["node-1"; "10.0.0.1"; "x"].
Proof. reflexivity. Qed.
Example strip_ex : strip "  a b " = "a b".
Proof. reflexivity. Qed.
Example fnmatch_ex :
  (fnmatch "DatabaseLogEvent.WARNING" "DatabaseLogEvent.*", fnmatch "abc" "a[!x-z]?",
   fnmatch "abc" "[!a-]bc", fnmatch "a-c" "a[b-]c", fnmatch "a[c" "a[c") = (true, true, false, true, true).
Proof. reflexivity. Qed.
Example str_count_ex : (str_count "aXbXc" "X", str_count ".*" ".*", str_count "aaaa" "aa") = (2, 1, 2).
Proof. reflexivity. Qed.

(** *** Words: what [split] without a separator gives *)
Definition no_space (s : string) : bool := all_chars (λ c, negb (is_space c)) s.
Definition word (w : string) : Prop := w ≠ EmptyString ∧ no_space w = true.

Fixpoint split_ws_go (s acc : string) : list string :=
  match s with
  | EmptyString => match acc with EmptyString => [] | _ => [str_rev acc] end
  | String c s' =>
    if is_space c then match acc with EmptyString => [] | _ => [str_rev acc] end ++ split_ws_go s' EmptyString
    else split_ws_go s' (String c acc)
  end.

Lemma split_ws_eq s : split_ws s = split_ws_go s EmptyString.
Proof.
  unfold split_ws. generalize EmptyString at 2 3 as acc. induction s as [|c s IH]; intros acc; simpl; [done|].
  destruct (is_space c); [by rewrite IH|apply IH].
Qed.

Lemma str_rev_cons c s : str_rev (String c s) = str_rev s +:+ String c EmptyString.
Proof.
  unfold str_rev. simpl. induction (rev (list_ascii_of_string s)) as [|a l IH]; simpl; [done|].
  change (String a (string_of_list_ascii (l ++ [c])) =
          String a (string_of_list_ascii l +:+ String c EmptyString)). by rewrite IH.
Qed.

Lemma all_chars_app f s t : all_chars f (s +:+ t) = all_chars f s && all_chars f t.
Proof.
  induction s as [|c s IH]; [done|]. change (String c s +:+ t) with (String c (s +:+ t)). simpl.
  by rewrite IH, andb_assoc.
Qed.

Lemma all_chars_rev f s : all_chars f (str_rev s) = all_chars f s.
Proof.
  induction s as [|c s IH]; [done|]. rewrite str_rev_cons, all_chars_app, IH. simpl.
  rewrite andb_true_r. apply andb_comm.
Qed.

Lemma str_rev_word acc : acc ≠ EmptyString → no_space acc = true → word (str_rev acc).
Proof.
  intros Ha Hs. split; [|unfold no_space; by rewrite all_chars_rev].
  destruct acc as [|c acc]; [done|]. rewrite str_rev_cons. by destruct (str_rev acc).
Qed.

Lemma split_ws_words s : Forall word (split_ws s).
Proof.
  rewrite split_ws_eq. assert (no_space EmptyString = true) as Hacc by done. revert Hacc.
  generalize EmptyString as acc. induction s as [|c s IH]; intros acc Hacc; simpl.
  - destruct acc; [constructor|]. constructor; [by apply str_rev_word|constructor].
  - destruct (is_space c) eqn:Hc.
    + destruct acc; simpl; [by apply IH|]. constructor; [by apply str_rev_word|by apply IH].
    + apply IH. unfold no_space. simpl. by rewrite Hc.
Qed.

Lemma str_app_nil (s : string) : s +:+ EmptyString = s.
Proof. induction s as [|c s IH]; [done|]. change (String c (s +:+ EmptyString) = String c s). by rewrite IH. Qed.

Lemma str_app_assoc (a b c : string) : (a +:+ b) +:+ c = a +:+ (b +:+ c).
Proof.
  induction a as [|x a IH]; [done|].
  change (String x ((a +:+ b) +:+ c) = String x (a +:+ (b +:+ c))). by rewrite IH.
Qed.

Lemma str_rev_involutive s : str_rev (str_rev s) = s.
Proof.
  unfold str_rev. rewrite list_ascii_of_string_of_list_ascii, rev_involutive.
  apply string_of_list_ascii_of_string.
Qed.

Lemma str_rev_app s t : str_rev (s +:+ t) = str_rev t +:+ str_rev s.
Proof.
  induction s as [|c s IH]; [by rewrite str_app_nil|].
  change (String c s +:+ t) with (String c (s +:+ t)). by rewrite !str_rev_cons, IH, str_app_assoc.
Qed.

(** Reading a word moves it into the accumulator. *)
Lemma split_ws_go_word w t acc :
  no_space w = true → split_ws_go (w +:+ t) acc = split_ws_go t (str_rev w +:+ acc).
Proof.
  revert acc. induction w as [|c w IH]; intros acc Hw; [done|]. unfold no_space in Hw. simpl in Hw.
  apply andb_prop in Hw as [Hc Hw]. change (String c w +:+ t) with (String c (w +:+ t)). cbn [split_ws_go].
  destruct (is_space c); [done|]. rewrite IH by done. f_equal. rewrite str_rev_cons, str_app_assoc. done.
Qed.

Lemma split_ws_join ws : Forall word ws → split_ws (join " " ws) = ws.
Proof.
  rewrite split_ws_eq. intros Hws. induction Hws as [|w ws [Hne Hns] Hws IH]; [done|].
  assert (∀ t, match str_rev w with EmptyString => [] | _ => [str_rev (str_rev w)] end ++ t = w :: t) as Hflush.
  { intros t. destruct (str_rev w) eqn:E.
    - destruct (str_rev_word w) as [Hr _]; [done|done|]. congruence.
    - by rewrite <- E, str_rev_involutive. }
  destruct ws as [|w' ws].
  - simpl. rewrite <- (str_app_nil w) at 1. rewrite split_ws_go_word by done. rewrite str_app_nil. simpl.
    specialize (Hflush []). by rewrite app_nil_r in Hflush.
  - change (join " " (w :: w' :: ws)) with (w +:+ String " " (join " " (w' :: ws))).
    rewrite split_ws_go_word by done. rewrite str_app_nil. cbn [split_ws_go]. simpl (is_space " ").
    cbn match. rewrite Hflush. by rewrite IH.
Qed.

(** A substring is found wherever it is. *)
Lemma startswith_app p s : startswith p (p +:+ s) = true.
Proof.
  induction p as [|c p IH]; [done|]. change (String c p +:+ s) with (String c (p +:+ s)). simpl.
  by rewrite Ascii.eqb_refl, IH.
Qed.

Lemma contains_app a p b : contains p (a +:+ p +:+ b) = true.
Proof.
  induction a as [|c a IH].
  - change (EmptyString +:+ p +:+ b) with (p +:+ b). destruct (p +:+ b) eqn:E; simpl; rewrite <- E, startswith_app; done.
  - change (String c a +:+ p +:+ b) with (String c (a +:+ p +:+ b)). cbn [contains]. by rewrite IH, orb_true_r.
Qed.

Create HintDb pystr.
#[export] Hint Resolve startswith_refl split_on_nonempty : pystr.

Lemma split_once_at sep a b :
  all_chars (λ c, negb (Ascii.eqb c sep)) a = true →
  split_once sep (a +:+ String sep b) = (a, Some b).
Proof.
  induction a as [|c a IH]; intros Ha.
  - change (EmptyString +:+ String sep b) with (String sep b). simpl. by rewrite Ascii.eqb_refl.
  - change (String c a +:+ String sep b) with (String c (a +:+ String sep b)).
    simpl in *. apply andb_true_iff in Ha as [Hc Ha]. apply negb_true_iff in Hc.
    by rewrite Hc, IH.
Qed.

Lemma contains_char_false c s :
  contains (String c EmptyString) s = false → all_chars (λ d, negb (Ascii.eqb d c)) s = true.
Proof.
  induction s as [|d s IH]; [done|]. cbn [contains all_chars]. intros [Hd Hs]%orb_false_iff.
  rewrite (IH Hs), andb_true_r. cbn in Hd. rewrite andb_true_r in Hd.
  by rewrite Ascii.eqb_sym, Hd.
Qed.

Lemma contains_char_none c s :
  all_chars (λ d, negb (Ascii.eqb d c)) s = true → contains (String c EmptyString) s = false.
Proof.
  induction s as [|d s IH]; [done|]. cbn [contains all_chars]. intros [Hd Hs]%andb_true_iff.
  rewrite (IH Hs), orb_false_r. cbn. rewrite andb_true_r, Ascii.eqb_sym. by apply negb_true_iff.
Qed.
