(* ===== verification/PyOrder.v ===== *)
(** * Python's comparisons and [sorted]

    [<] and [<=] on integers, on strings (by code point) and on tuples (lexicographic), as one
    three-way comparison with its laws, and [sorted(l, key=...)], which is stable. *)
From Stdlib Require Import Ascii String ZArith Lia.
From stdpp Require Import base decidable option strings numbers list sorting.
From S2P Require Import Prelude.

Class Compare (A : Type) := cmp : A → A → comparison.
#[export] Hint Mode Compare ! : typeclass_instances.

Class CompareLaws (A : Type) `{Compare A} := {
  cmp_eq (x y : A) : cmp x y = Eq ↔ x = y;
  cmp_opp (x y : A) : cmp y x = CompOpp (cmp x y);
  cmp_lt_trans (x y z : A) : cmp x y = Lt → cmp y z = Lt → cmp x z = Lt;
}.

Definition py_lt {A} `{Compare A} (x y : A) : bool := match cmp x y with Lt => true | _ => false end.
Definition py_le {A} `{Compare A} (x y : A) : bool := match cmp x y with Gt => false | _ => true end.

(** ** Instances *)
#[export] Instance compare_Z : Compare Z := Z.compare.
#[export] Instance compare_Z_laws : CompareLaws Z.
Proof.
  split; unfold cmp, compare_Z.
  - apply Z.compare_eq_iff.
  - intros x y. apply Z.compare_antisym.
  - intros x y z. rewrite !Z.compare_lt_iff. lia.
Qed.

#[export] Instance compare_str : Compare string := String.compare.

Lemma ascii_compare_nat a b : Ascii.compare a b = Nat.compare (nat_of_ascii a) (nat_of_ascii b).
Proof. unfold Ascii.compare, nat_of_ascii. rewrite N2Nat.inj_compare. done. Qed.

Lemma str_compare_trans (x y z : string) :
  String.compare x y = Lt → String.compare y z = Lt → String.compare x z = Lt.
Proof.
  revert y z. induction x as [|a x IH]; intros [|b y] [|c z]; simpl; try done.
  rewrite !ascii_compare_nat.
  destruct (Nat.compare_spec (nat_of_ascii a) (nat_of_ascii b)) as [Hab|Hab|Hab]; [| |done];
    destruct (Nat.compare_spec (nat_of_ascii b) (nat_of_ascii c)) as [Hbc|Hbc|Hbc]; try done;
    destruct (Nat.compare_spec (nat_of_ascii a) (nat_of_ascii c)) as [Hac|Hac|Hac]; try done; try lia.
  apply IH.
Qed.

#[export] Instance compare_str_laws : CompareLaws string.
Proof.
  split; unfold cmp, compare_str.
  - intros x y. split; [apply String.compare_eq_iff|]. intros ->.
    pose proof (String.compare_antisym y y) as H. by destruct (String.compare y y).
  - intros x y. apply String.compare_antisym.
  - apply str_compare_trans.
Qed.

(** Tuples. *)
#[export] Instance compare_prod {A B} `{Compare A, Compare B} : Compare (A * B) :=
  λ x y, match cmp x.1 y.1 with Eq => cmp x.2 y.2 | c => c end.
Lemma cmp_pair {A B} `{Compare A, Compare B} (a a' : A) (b b' : B) :
  cmp (a, b) (a', b') = match cmp a a' with Eq => cmp b b' | c => c end.
Proof. done. Qed.

#[export] Instance compare_prod_laws {A B} `{CompareLaws A, CompareLaws B} : CompareLaws (A * B).
Proof.
  split.
  - intros [a b] [a' b']. rewrite cmp_pair. destruct (cmp a a') eqn:E.
    + apply cmp_eq in E as ->. rewrite cmp_eq. split; congruence.
    + split; [done|]. intros [= -> ->]. by rewrite (proj2 (cmp_eq a' a') eq_refl) in E.
    + split; [done|]. intros [= -> ->]. by rewrite (proj2 (cmp_eq a' a') eq_refl) in E.
  - intros [a b] [a' b']. rewrite !cmp_pair, (cmp_opp a a'). destruct (cmp a a'); simpl; [apply cmp_opp|done|done].
  - intros [a b] [a' b'] [a'' b'']. rewrite !cmp_pair.
    destruct (cmp a a') eqn:E1; [| |done]; destruct (cmp a' a'') eqn:E2; try done.
    + apply cmp_eq in E1 as ->. rewrite E2. by apply cmp_lt_trans.
    + apply cmp_eq in E1 as ->. by rewrite E2.
    + apply cmp_eq in E2 as ->. by rewrite E1.
    + by rewrite (cmp_lt_trans _ _ _ E1 E2).
Qed.

(** ** The laws of [<] and [<=] *)
Section laws.
Context {A : Type} `{CompareLaws A}.

Lemma cmp_refl (x : A) : cmp x x = Eq.
Proof using Type*. by apply cmp_eq. Qed.

Lemma py_le_refl (x : A) : py_le x x = true.
Proof using Type*. unfold py_le. by rewrite cmp_refl. Qed.

Lemma py_lt_le (x y : A) : py_lt x y = negb (py_le y x).
Proof using Type*. unfold py_lt, py_le. rewrite (cmp_opp x y). by destruct (cmp x y). Qed.

Lemma py_le_lt_eq (x y : A) : py_le x y = true ↔ py_lt x y = true ∨ x = y.
Proof using Type*.
  unfold py_le, py_lt. rewrite <- cmp_eq. destruct (cmp x y); intuition done.
Qed.

Lemma py_le_trans (x y z : A) : py_le x y = true → py_le y z = true → py_le x z = true.
Proof using Type*.
  rewrite !py_le_lt_eq. intros [Hx| ->] [Hy| ->]; [|by left|by left|by right].
  left. unfold py_lt in *. destruct (cmp x y) eqn:E1; [done| |done]. destruct (cmp y z) eqn:E2; [done| |done].
  by rewrite (cmp_lt_trans _ _ _ E1 E2).
Qed.

Lemma py_le_total (x y : A) : py_le x y = true ∨ py_le y x = true.
Proof using Type*. unfold py_le. rewrite (cmp_opp x y). destruct (cmp x y); simpl; auto. Qed.

Lemma py_le_antisym (x y : A) : py_le x y = true → py_le y x = true → x = y.
Proof using Type*. unfold py_le. rewrite (cmp_opp x y), <- cmp_eq. by destruct (cmp x y). Qed.
End laws.

(** ** [sorted] *)
Section sorted.
Context {A K : Type} `{Compare K} (key : A → K).

Fixpoint insert_sorted (x : A) (l : list A) : list A :=
  match l with
  | [] => [x]
  | y :: l' => if py_le (key x) (key y) then x :: l else y :: insert_sorted x l'
  end.
Definition sorted (l : list A) : list A := foldr insert_sorted [] l.

Definition key_le (x y : A) : Prop := py_le (key x) (key y) = true.

Lemma insert_sorted_perm x l : insert_sorted x l ≡ₚ x :: l.
Proof.
  induction l as [|y l IH]; simpl; [done|]. case_ifs; [done|]. rewrite IH. apply Permutation_swap.
Qed.

Lemma sorted_perm l : sorted l ≡ₚ l.
Proof. induction l as [|x l IH]; simpl; [done|]. by rewrite insert_sorted_perm, IH. Qed.

Context `{!CompareLaws K}.

Lemma insert_sorted_sorted x l : StronglySorted key_le l → StronglySorted key_le (insert_sorted x l).
Proof using Type*.
  induction 1 as [|y l Hl IH Hy]; simpl; [repeat constructor|].
  destruct (py_le (key x) (key y)) eqn:Hc.
  - constructor; [by constructor|]. constructor; [done|].
    eapply Forall_impl; [exact Hy|]. intros z Hz. unfold key_le in *. by eapply py_le_trans.
  - constructor; [done|]. apply Forall_forall. intros z. rewrite insert_sorted_perm.
    intros [->|Hz]%elem_of_cons; [|by eapply Forall_forall in Hy].
    destruct (py_le_total (key x) (key y)) as [Ht|Ht]; [by rewrite Ht in Hc|done].
Qed.

Lemma sorted_sorted l : StronglySorted key_le (sorted l).
Proof using Type*. induction l; simpl; [constructor|]. by apply insert_sorted_sorted. Qed.

(** The first element of the sorted list is a least one. *)
Lemma sorted_head_least l x rest : sorted l = x :: rest → x ∈ l ∧ ∀ y, y ∈ l → py_le (key x) (key y) = true.
Proof using Type*.
  intros E. split; [rewrite <- (sorted_perm l), E; left|].
  intros y Hy. rewrite <- (sorted_perm l), E in Hy. apply elem_of_cons in Hy as [->|Hy]; [apply py_le_refl|].
  pose proof (sorted_sorted l) as Hs. rewrite E in Hs. inversion Hs as [|? ? _ Hall]; subst.
  by eapply Forall_forall in Hall.
Qed.

Lemma sorted_nil l : sorted l = [] ↔ l = [].
Proof using Type*. split; [intros E; apply Permutation_nil_r; by rewrite <- E, sorted_perm|by intros ->]. Qed.
End sorted.
#[export] Hint Resolve py_le_refl : core.
