(* ===== verification/PyNum.v ===== *)
(** * Python's numbers, as exact rationals

    The amounts of memory and disk, prices and costs that the source keeps in floats are exact
    rationals here: a decimal text is its value, products and sums are not rounded. Comparisons
    are those of [PyOrder], [inf] is above every number. *)
From Stdlib Require Import Ascii String ZArith Lia QArith Qcanon Qround Lqa.
From stdpp Require Import base decidable option strings numbers list.
From S2P Require Import Prelude.
From S2P Require Import PyString.
From S2P Require Import PyOrder.
Local Open Scope Z_scope.

Abbreviation num := Qc.

Definition num_of_Z (z : Z) : num := Q2Qc (inject_Z z).
Definition num_mul (x y : num) : num := (x * y)%Qc.
Definition num_add (x y : num) : num := (x + y)%Qc.
Definition num_ceil (x : num) : Z := Qceiling x.

#[export] Instance compare_num : Compare num := Qccompare.
#[export] Instance compare_num_laws : CompareLaws num.
Proof.
  split; unfold cmp, compare_num.
  - intros x y. symmetry. apply Qceq_alt.
  - intros x y. unfold Qccompare. symmetry. apply Qcompare_antisym.
  - intros x y z. rewrite <- !Qclt_alt. apply Qclt_trans.
Qed.

Lemma num_le_iff (x y : num) : py_le x y = true ↔ (this x <= this y)%Q.
Proof.
  unfold py_le, cmp, compare_num. pose proof (Qcle_alt x y) as H. unfold Qcle in H. rewrite H. by destruct (Qccompare x y).
Qed.
Lemma num_lt_iff (x y : num) : py_lt x y = true ↔ (this x < this y)%Q.
Proof.
  unfold py_lt, cmp, compare_num. pose proof (Qclt_alt x y) as H. unfold Qclt in H. rewrite H. by destruct (Qccompare x y).
Qed.
Lemma num_of_Z_this z : (this (num_of_Z z) == inject_Z z)%Q.
Proof. apply Qred_correct. Qed.

Lemma num_mul_this x y : (this (num_mul x y) == this x * this y)%Q.
Proof. apply Qred_correct. Qed.
Lemma num_add_this x y : (this (num_add x y) == this x + this y)%Q.
Proof. apply Qred_correct. Qed.

(** [min(x, y)] and [max(x, y)], which keep the first of equals. *)
Definition py_min (x y : num) : num := if py_lt y x then y else x.
Definition py_max (x y : num) : num := if py_lt x y then y else x.

Lemma py_min_spec x y : (this (py_min x y) <= this x ∧ this (py_min x y) <= this y)%Q ∧ (py_min x y = x ∨ py_min x y = y).
Proof.
  unfold py_min. destruct (py_lt y x) eqn:E.
  - apply num_lt_iff in E. split; [split; lra|auto].
  - rewrite py_lt_le in E. apply negb_false_iff, num_le_iff in E. split; [split; lra|auto].
Qed.
Lemma py_max_spec x y : (this x <= this (py_max x y) ∧ this y <= this (py_max x y))%Q ∧ (py_max x y = x ∨ py_max x y = y).
Proof.
  unfold py_max. destruct (py_lt x y) eqn:E.
  - apply num_lt_iff in E. split; [split; lra|auto].
  - rewrite py_lt_le in E. apply negb_false_iff, num_le_iff in E. split; [split; lra|auto].
Qed.

Lemma num_ceil_spec x : (this x <= inject_Z (num_ceil x) ∧ inject_Z (num_ceil x) < this x + 1)%Q.
Proof.
  unfold num_ceil. split; [apply Qle_ceiling|]. pose proof (Qceiling_lt x) as H.
  unfold Z.sub in H. rewrite inject_Z_plus in H. change (inject_Z (- (1))) with (-(1))%Q in H. lra.
Qed.
Lemma num_ceil_of_Z z : num_ceil (num_of_Z z) = z.
Proof. unfold num_ceil. rewrite num_of_Z_this. apply Qceiling_Z. Qed.

Lemma num_ceil_le x z : (this x <= inject_Z z)%Q → num_ceil x <= z.
Proof. intros H%Qceiling_resp_le. by rewrite Qceiling_Z in H. Qed.
Lemma num_le_ceil x z : (inject_Z z <= this x)%Q → z <= num_ceil x.
Proof. intros H. rewrite Zle_Qle. pose proof (num_ceil_spec x) as [? _]. lra. Qed.

Lemma num_le_of_Z a b : py_le (num_of_Z a) (num_of_Z b) = true ↔ a <= b.
Proof. rewrite num_le_iff, !num_of_Z_this. by rewrite <- Zle_Qle. Qed.
Lemma num_of_Z_inj a b : num_of_Z a = num_of_Z b ↔ a = b.
Proof. split; [|by intros ->]. intros H. apply (f_equal num_ceil) in H. by rewrite !num_ceil_of_Z in H. Qed.

(** ** Decimals *)

(** [\d+(?:\.\d+)?] at the start of a text, and its value. *)
Definition decimal (whole frac : string) : num :=
  Q2Qc (Qmake (int_of_digits (whole +:+ frac)) (Pos.pow 10 (Pos.of_nat (String.length frac)))).
Definition read_decimal (s : string) : option (num * string) :=
  let '(whole, rest) := span_while is_digit s in
  if truthy whole then
    match rest with
    | String c rest' =>
      if Ascii.eqb c "." then
        let '(frac, rest'') := span_while is_digit rest' in
        if truthy frac then Some (decimal whole frac, rest'') else Some (num_of_Z (int_of_digits whole), rest)
      else Some (num_of_Z (int_of_digits whole), rest)
    | EmptyString => Some (num_of_Z (int_of_digits whole), rest)
    end
  else None.

(** ** Numbers with infinity *)
Inductive extnum : Type := Fin (q : num) | Inf.
#[export] Instance compare_extnum : Compare extnum :=
  λ x y, match x, y with
         | Fin a, Fin b => cmp a b
         | Fin _, Inf => Lt
         | Inf, Fin _ => Gt
         | Inf, Inf => Eq
         end.
#[export] Instance compare_extnum_laws : CompareLaws extnum.
Proof.
  split.
  - intros [a|] [b|]; unfold cmp, compare_extnum; try done. rewrite cmp_eq. split; congruence.
  - intros [a|] [b|]; unfold cmp, compare_extnum; try done. apply cmp_opp.
  - intros [a|] [b|] [c|]; unfold cmp, compare_extnum; try done. apply cmp_lt_trans.
Qed.

(** ** Tuples of any length *)
#[export] Instance compare_list {A} `{Compare A} : Compare (list A) :=
  fix go x y := match x, y with
                | [], [] => Eq
                | [], _ :: _ => Lt
                | _ :: _, [] => Gt
                | a :: x', b :: y' => match cmp a b with Eq => go x' y' | c => c end
                end.
#[export] Instance compare_list_laws {A} `{CompareLaws A} : CompareLaws (list A).
Proof.
  split.
  - intros x. induction x as [|a x IH]; intros [|b y]; try done. unfold cmp. simpl. fold (cmp x y). destruct (cmp a b) eqn:E.
    + apply cmp_eq in E as ->. rewrite IH. split; congruence.
    + split; [done|]. intros [= -> ->]. by rewrite cmp_refl in E.
    + split; [done|]. intros [= -> ->]. by rewrite cmp_refl in E.
  - intros x. induction x as [|a x IH]; intros [|b y]; try done. unfold cmp. simpl. fold (cmp x y) (cmp y x).
    rewrite (cmp_opp a b). destruct (cmp a b); simpl; [apply IH|done|done].
  - intros x. induction x as [|a x IH]; intros [|b y] [|c z]; try done. unfold cmp. simpl. fold (cmp x y) (cmp y z) (cmp x z).
    destruct (cmp a b) eqn:E1; [| |done]; destruct (cmp b c) eqn:E2; try done.
    + apply cmp_eq in E1 as ->. rewrite E2. apply IH.
    + apply cmp_eq in E1 as ->. by rewrite E2.
    + apply cmp_eq in E2 as ->. by rewrite E1.
    + by rewrite (cmp_lt_trans _ _ _ E1 E2).
Qed.
