(* ===== verification/PyInt.v ===== *)
(** * Python's integers as text

    [str(z)] is stdpp's decimal [pretty]; [py_int] is [int(s)]: white space around the
    numeral, one sign, and single underscores between digits are accepted, anything else is
    a [ValueError] ([None] here). *)
From Stdlib Require Import Ascii String ZArith Lia.
From stdpp Require Import base decidable option strings numbers pretty list.
From S2P Require Import Prelude.
From S2P Require Import PyString.
Local Open Scope Z_scope.

Definition str_Z (z : Z) : string := pretty z.

Definition digit_value (c : ascii) : Z := Z.of_nat (nat_of_ascii c) - 48.

Fixpoint int_rest (acc : Z) (s : string) : option Z :=
  match s with
  | EmptyString => Some acc
  | String c s' =>
    if is_digit c then int_rest (10 * acc + digit_value c) s'
    else if Ascii.eqb c "_" then
      match s' with
      | String d s'' => if is_digit d then int_rest (10 * acc + digit_value d) s'' else None
      | EmptyString => None
      end
    else None
  end.

Definition int_body (s : string) : option Z :=
  match s with
  | String c s' => if is_digit c then int_rest (digit_value c) s' else None
  | EmptyString => None
  end.

Definition py_int (s : string) : option Z :=
  match strip s with
  | String c s' =>
    if Ascii.eqb c "-" then Z.opp <$> int_body s'
    else if Ascii.eqb c "+" then int_body s'
    else int_body (String c s')
  | EmptyString => None
  end.

(** ** Printing and reading back *)
Lemma pretty_N_char_digit x : is_digit (pretty_N_char x) = true.
Proof. unfold pretty_N_char. by repeat case_match. Qed.

Lemma pretty_N_char_value x : (x < 10)%N → digit_value (pretty_N_char x) = Z.of_N x.
Proof.
  intros Hx. assert (x = 0 ∨ x = 1 ∨ x = 2 ∨ x = 3 ∨ x = 4 ∨ x = 5 ∨ x = 6 ∨ x = 7 ∨ x = 8 ∨ x = 9)%N as H by lia.
  repeat (destruct H as [->|H]; [done|]). by subst.
Qed.

Lemma pretty_N_go_digits x s :
  all_chars is_digit s = true → all_chars is_digit (pretty_N_go x s) = true.
Proof.
  revert s. induction (N.lt_wf_0 x) as [x _ IH]; intros s Hs.
  destruct (decide (0 < x)%N) as [Hx|Hx]; [|by replace x with 0%N by lia].
  rewrite pretty_N_go_step by done. apply IH; [by apply N.div_lt|]. simpl. by rewrite pretty_N_char_digit.
Qed.

(** Reading the digits of [x] from an accumulator: its digits are shifted in front of the rest. *)
Lemma pretty_N_go_read x acc s :
  all_chars is_digit s = true →
  ∃ k, int_rest acc (pretty_N_go x s) = int_rest (10 ^ k * acc + Z.of_N x) s ∧ 0 <= k ∧
       (acc = 0 → (0 < x)%N → 0 < k).
Proof.
  revert acc s. induction (N.lt_wf_0 x) as [x _ IH]; intros acc s Hs.
  destruct (decide (0 < x)%N) as [Hx|Hx].
  2:{ replace x with 0%N by lia. exists 0. rewrite pretty_N_go_0. split; [f_equal; lia|lia]. }
  rewrite pretty_N_go_step by done.
  destruct (IH (x `div` 10)%N (N.div_lt x 10 Hx eq_refl) acc (String (pretty_N_char (x `mod` 10)) s))
    as (k & -> & Hk & _); [simpl; by rewrite pretty_N_char_digit|].
  exists (k + 1). cbn [int_rest]. rewrite pretty_N_char_digit, pretty_N_char_value by (apply N.mod_lt; done).
  split; [|lia]. f_equal. rewrite Z.pow_add_r by lia.
  pose proof (N.div_mod x 10 ltac:(done)) as Hd. lia.
Qed.

Lemma pretty_N_nonempty (x : N) : ∃ c s, pretty x = String c s ∧ is_digit c = true ∧ all_chars is_digit s = true.
Proof.
  unfold pretty, pretty_N. case_decide as Hx; [by exists "0"%char, EmptyString|].
  pose proof (pretty_N_go_digits x EmptyString eq_refl) as Hd.
  destruct (pretty_N_go x EmptyString) as [|c s] eqn:E.
  - destruct (pretty_N_go_read x 7 EmptyString eq_refl) as (k & H & Hk & _). rewrite E in H. simpl in H.
    injection H as H. assert (0 < Z.of_N x) by lia. assert (1 <= 10 ^ k) by (apply (Z.pow_le_mono_r 10 0 k); lia).
    lia.
  - simpl in Hd. apply andb_true_iff in Hd as [??]. by exists c, s.
Qed.

Lemma int_body_pretty_N (x : N) : int_body (pretty x) = Some (Z.of_N x).
Proof.
  destruct (pretty_N_nonempty x) as (c & s & E & Hc & Hs).
  assert (int_rest 0 (pretty x) = Some (Z.of_N x)) as H.
  { clear. unfold pretty, pretty_N. case_decide as Hx; [by subst|].
    destruct (pretty_N_go_read x 0 EmptyString eq_refl) as (k & -> & _). simpl. f_equal. lia. }
  rewrite E in *. cbn [int_rest int_body] in *. by rewrite Hc in *.
Qed.

Lemma digit_not_space c : is_digit c = true → is_space c = false.
Proof.
  unfold is_digit, char_in, is_space. rewrite andb_true_iff, !Nat.leb_le.
  change (nat_of_ascii "0") with 48%nat. change (nat_of_ascii "9") with 57%nat. intros [??].
  apply orb_false_iff; split; apply andb_false_iff; [right|right]; apply Nat.leb_gt; lia.
Qed.

Lemma digits_no_space s : all_chars is_digit s = true → no_space s = true.
Proof.
  unfold no_space. induction s as [|c s IH]; [done|]. simpl. intros [H ?]%andb_true_iff.
  rewrite digit_not_space by done. simpl. auto.
Qed.

Lemma drop_while_none f s : all_chars (λ c, negb (f c)) s = true → drop_while f s = s.
Proof. destruct s as [|c s]; [done|]. simpl. by destruct (f c). Qed.

Lemma strip_no_space s : no_space s = true → strip s = s.
Proof.
  intros H. unfold strip, rstrip, lstrip. rewrite (drop_while_none is_space s) by done.
  rewrite drop_while_none by (by rewrite all_chars_rev). apply str_rev_involutive.
Qed.

Lemma pretty_N_no_space (x : N) : no_space (pretty x) = true.
Proof.
  apply digits_no_space. destruct (pretty_N_nonempty x) as (c & s & -> & Hc & Hs). simpl. by rewrite Hc.
Qed.

(** The text of a non-negative integer is a run of digits. *)
Lemma str_Z_digits z : 0 <= z → isdigit (str_Z z) = true.
Proof.
  intros Hz. unfold str_Z, isdigit. assert (pretty z = pretty (Z.to_N z)) as ->.
  { destruct z; [done|done|lia]. }
  destruct (pretty_N_nonempty (Z.to_N z)) as (c & s & -> & Hc & Hs). simpl. by rewrite Hc.
Qed.

(** [int(str(z)) == z]. *)
Lemma py_int_str_Z z : py_int (str_Z z) = Some z.
Proof.
  unfold py_int, str_Z. destruct z as [|p|p]; [done| |].
  - change (pretty (Z.pos p)) with (pretty (N.pos p)). rewrite strip_no_space by apply pretty_N_no_space.
    pose proof (int_body_pretty_N (N.pos p)) as H.
    destruct (pretty_N_nonempty (N.pos p)) as (c & s & E & Hc & Hs). rewrite E in *.
    destruct (Ascii.eqb_spec c "-") as [->|_]; [done|]. by destruct (Ascii.eqb_spec c "+") as [->|_].
  - change (pretty (Z.neg p)) with ("-" +:+ pretty (N.pos p)). rewrite strip_no_space.
    2:{ unfold no_space. simpl. apply pretty_N_no_space. }
    transitivity (Z.opp <$> int_body (pretty (N.pos p))); [reflexivity|]. by rewrite int_body_pretty_N.
Qed.

#[export] Instance str_Z_inj : Inj (=) (=) str_Z.
Proof. intros x y H. apply (inj Some). by rewrite <-(py_int_str_Z x), <-(py_int_str_Z y), H. Qed.

(** A numeral of digits is not negative. *)
Lemma int_rest_nonneg acc s z : 0 <= acc → all_chars is_digit s = true → int_rest acc s = Some z → 0 <= z.
Proof.
  revert acc. induction s as [|c s IH]; intros acc Ha; cbn [all_chars int_rest]; [by intros _ [= <-]|].
  intros [Hc Hs]%andb_true_iff. rewrite Hc. apply IH; [|done].
  assert (0 <= digit_value c) by (destruct c as [[] [] [] [] [] [] [] []]; vm_compute in Hc |- *; done). lia.
Qed.

Lemma py_int_nonneg s z : isdigit s = true → py_int s = Some z → 0 <= z.
Proof.
  intros [Hne Hd]%andb_true_iff. unfold py_int. rewrite strip_no_space by (by apply digits_no_space).
  destruct s as [|c s]; [done|]. cbn [all_chars] in Hd. apply andb_true_iff in Hd as [Hc Hd].
  assert (Ascii.eqb c "-" = false ∧ Ascii.eqb c "+" = false ∧ 0 <= digit_value c) as (-> & -> & Hv)
    by (destruct c as [[] [] [] [] [] [] [] []]; vm_compute in Hc |- *; done).
  cbn [int_body]. rewrite Hc. by apply int_rest_nonneg.
Qed.

(** [int] of a run of digits. *)
Lemma int_rest_digits acc s : all_chars is_digit s = true → int_rest acc s = Some (digits_value acc s).
Proof.
  revert acc. induction s as [|c s IH]; intros acc; cbn [all_chars int_rest digits_value]; [done|].
  intros [Hc Hs]%andb_true_iff. rewrite Hc. by apply IH.
Qed.

Lemma digits_value_nonneg acc s : 0 <= acc → all_chars is_digit s = true → 0 <= digits_value acc s.
Proof. intros Ha Hs. by apply (int_rest_nonneg acc s); [| |apply int_rest_digits]. Qed.

Lemma int_of_digits_str z : 0 <= z → int_of_digits (str_Z z) = z.
Proof.
  intros Hz. pose proof (py_int_str_Z z) as H. pose proof (str_Z_digits z Hz) as [Hne Hd]%andb_true_iff.
  unfold py_int in H. rewrite strip_no_space in H by (by apply digits_no_space).
  destruct (str_Z z) as [|c s]; [done|]. cbn [all_chars] in Hd. apply andb_true_iff in Hd as [Hc Hs].
  assert (Ascii.eqb c "-" = false ∧ Ascii.eqb c "+" = false) as [E1 E2]
    by (destruct c as [[] [] [] [] [] [] [] []]; vm_compute in Hc |- *; done).
  rewrite E1, E2 in H. unfold int_body in H. rewrite Hc, int_rest_digits in H by done.
  injection H as H. unfold int_of_digits. cbn [digits_value]. exact H.
Qed.
