(* ===== verification/PyDate.v ===== *)
(** * Python's dates

    The proleptic Gregorian calendar of Python's [datetime]: [ymd_to_ord] and [ord_to_ymd]
    are its ordinals, a [datetime] in UTC is read and printed to the second with the format
    [%B %d, %Y, %H:%M:%S], as [strftime] and [strptime] do it in the C locale. *)
From Stdlib Require Import Ascii String ZArith Lia.
From stdpp Require Import base decidable option strings numbers list.
From S2P Require Import Prelude.
From S2P Require Import PyString.
From S2P Require Import PyInt.
Local Open Scope Z_scope.

Module Date.
(** ** The calendar *)
Definition is_leap (y : Z) : bool := (y mod 4 =? 0) && (negb (y mod 100 =? 0) || (y mod 400 =? 0)).
Definition month_lengths (leap : bool) : list Z := [31; if leap then 29 else 28; 31; 30; 31; 30; 31; 31; 30; 31; 30; 31].

Definition days_before_year (y : Z) : Z := (y - 1) * 365 + (y - 1) / 4 - (y - 1) / 100 + (y - 1) / 400.
Definition days_before_month (leap : bool) (m : Z) : Z := foldr Z.add 0 (take (Z.to_nat (m - 1)) (month_lengths leap)).
Definition days_in_month (leap : bool) (m : Z) : Z := default 0 (month_lengths leap !! Z.to_nat (m - 1)).
Definition ymd_to_ord (y m d : Z) : Z := days_before_year y + days_before_month (is_leap y) m + d.

(** The month and day of the [n]-th day of the year, from 0. *)
Fixpoint month_day (m : Z) (lengths : list Z) (n : Z) : Z * Z :=
  match lengths with
  | [] => (m, n + 1)
  | l :: lengths' => if n <? l then (m, n + 1) else month_day (m + 1) lengths' (n - l)
  end.

Definition ord_to_ymd (ordinal : Z) : Z * Z * Z :=
  let n := ordinal - 1 in
  let n400 := n / 146097 in let n := n mod 146097 in
  let n100 := n / 36524 in let n := n mod 36524 in
  let n4 := n / 1461 in let n := n mod 1461 in
  let n1 := n / 365 in let n := n mod 365 in
  let y := n400 * 400 + 1 + n100 * 100 + n4 * 4 + n1 in
  if (n1 =? 4) || (n100 =? 4) then (y - 1, 12, 31)
  else let '(m, d) := month_day 1 (month_lengths (is_leap y)) n in (y, m, d).

(** ** Dates and times *)
Record datetime := DateTime { year : Z; month : Z; day : Z; hour : Z; minute : Z; second : Z }.

Definition valid (t : datetime) : bool :=
  (1 <=? year t) && (year t <=? 9999) && (1 <=? month t) && (month t <=? 12) &&
  (1 <=? day t) && (day t <=? days_in_month (is_leap (year t)) (month t)) &&
  (0 <=? hour t) && (hour t <=? 23) && (0 <=? minute t) && (minute t <=? 59) && (0 <=? second t) && (second t <=? 59).

(** Seconds since 1970. *)
Definition timestamp (t : datetime) : Z :=
  (ymd_to_ord (year t) (month t) (day t) - 719163) * 86400 + hour t * 3600 + minute t * 60 + second t.
Definition of_timestamp (z : Z) : datetime :=
  let '(y, m, d) := ord_to_ymd (z / 86400 + 719163) in
  let s := z mod 86400 in
  DateTime y m d (s / 3600) (s mod 3600 / 60) (s mod 60).

(** ** The text of a date *)
Definition digit (z : Z) : ascii := ascii_of_nat (Z.to_nat (48 + z)).
Definition two (z : Z) (rest : string) : string := String (digit (z / 10)) (String (digit (z mod 10)) rest).
Definition four (z : Z) (rest : string) : string := two (z / 100) (two (z mod 100) rest).

Definition month_names : list string :=
  ["January"; "February"; "March"; "April"; "May"; "June"; "July"; "August"; "September"; "October"; "November"; "December"]%string.
Definition month_name (m : Z) : string := default EmptyString (month_names !! Z.to_nat (m - 1)).

Definition strftime (t : datetime) : string :=
  month_name (month t) +:+ (" " +:+ two (day t) (", " +:+ four (year t) (", " +:+ two (hour t) (":" +:+
  two (minute t) (":" +:+ two (second t) EmptyString)))))%string.

(** Reading: a literal, white space, one or two digits, four digits, the name of a month. *)
Definition eat (c : ascii) (s : string) : option string :=
  match s with String c' s' => if Ascii.eqb c c' then Some s' else None | EmptyString => None end.
Definition eat_spaces (s : string) : option string :=
  match s with String c s' => if is_space c then Some (drop_while is_space s') else None | EmptyString => None end.
Definition read_digit (s : string) : option (Z * string) :=
  match s with String c s' => if is_digit c then Some (digit_value c, s') else None | EmptyString => None end.
Definition read_two (s : string) : option (Z * string) :=
  '(a, s) ← read_digit s;
  match read_digit s with Some (b, s') => Some (10 * a + b, s') | None => Some (a, s) end.
Definition read_four (s : string) : option (Z * string) :=
  '(a, s) ← read_digit s; '(b, s) ← read_digit s; '(c, s) ← read_digit s; '(d, s) ← read_digit s;
  Some (1000 * a + 100 * b + 10 * c + d, s).
Fixpoint month_number (m : Z) (names : list string) (name : string) : option Z :=
  match names with
  | [] => None
  | n :: names' => if String.eqb (lower n) name then Some m else month_number (m + 1) names' name
  end.
Definition is_letter (c : ascii) : bool := char_in "a" "z" (lower_char c).

Definition strptime (s : string) : option datetime :=
  let '(name, s) := span_while is_letter s in
  m ← month_number 1 month_names (lower name);
  s ← eat_spaces s; '(d, s) ← read_two s;
  s ← eat "," s; s ← eat_spaces s; '(y, s) ← read_four s;
  s ← eat "," s; s ← eat_spaces s; '(h, s) ← read_two s;
  s ← eat ":" s; '(mi, s) ← read_two s;
  s ← eat ":" s; '(sec, s) ← read_two s;
  if negb (truthy s) && valid (DateTime y m d h mi sec) then Some (DateTime y m d h mi sec) else None.

(** ** The calendar is a bijection *)
(** [lia] with quotients and remainders. *)
Ltac dlia := Z.to_euclidean_division_equations; lia.
Ltac eval_indices :=
  repeat match goal with |- context [Z.to_nat ?a] => let k := eval vm_compute in (Z.to_nat a) in progress change (Z.to_nat a) with k end.

Lemma month_day_spec (leap : bool) n :
  0 <= n < (if leap then 366 else 365) →
  let '(m, d) := month_day 1 (month_lengths leap) n in
  1 <= m <= 12 ∧ 1 <= d <= days_in_month leap m ∧ days_before_month leap m + d = n + 1.
Proof.
  intros Hn. unfold month_lengths. destruct leap; cbn beta match in Hn; cbn [month_day];
    repeat (match goal with |- context [?a <? ?b] => destruct (Z.ltb_spec a b) end;
            [cbv beta match; unfold days_in_month, days_before_month; eval_indices; cbn; lia|]); exfalso; lia.
Qed.

Lemma mixed_year a b c d :
  0 <= b < 4 → 0 <= c < 25 → 0 <= d < 4 →
  let y := a * 400 + 1 + b * 100 + c * 4 + d in
  days_before_year y = a * 146097 + b * 36524 + c * 1461 + d * 365 ∧
  is_leap y = (d =? 3) && (negb (c =? 24) || (b =? 3)).
Proof.
  intros Hb Hc Hd y. subst y. unfold days_before_year, is_leap. split.
  - replace ((a * 400 + 1 + b * 100 + c * 4 + d - 1) / 4) with (a * 100 + b * 25 + c) by dlia.
    replace ((a * 400 + 1 + b * 100 + c * 4 + d - 1) / 100) with (a * 4 + b) by dlia.
    replace ((a * 400 + 1 + b * 100 + c * 4 + d - 1) / 400) with a by dlia. lia.
  - replace ((a * 400 + 1 + b * 100 + c * 4 + d) mod 4) with ((d + 1) mod 4) by dlia.
    replace ((a * 400 + 1 + b * 100 + c * 4 + d) mod 100) with ((1 + c * 4 + d) mod 100) by dlia.
    replace ((a * 400 + 1 + b * 100 + c * 4 + d) mod 400) with ((1 + b * 100 + c * 4 + d) mod 400) by dlia.
    destruct (Z.eqb_spec ((d + 1) mod 4) 0), (Z.eqb_spec d 3), (Z.eqb_spec ((1 + c * 4 + d) mod 100) 0),
      (Z.eqb_spec c 24), (Z.eqb_spec ((1 + b * 100 + c * 4 + d) mod 400) 0), (Z.eqb_spec b 3); simpl; try done; exfalso; dlia.
Qed.
(** Names the quotient and the remainder of a division. *)
Ltac divided x k q r :=
  pose proof (Z.div_mod x k ltac:(lia)); assert (0 <= x mod k < k) by (apply Z.mod_pos_bound; lia);
  set (q := x / k) in *; set (r := x mod k) in *; clearbody q r.

Lemma ord_to_ymd_spec n :
  let '(y, m, d) := ord_to_ymd n in
  1 <= m <= 12 ∧ 1 <= d <= days_in_month (is_leap y) m ∧ ymd_to_ord y m d = n.
Proof.
  unfold ord_to_ymd. set (n0 := n - 1).
  divided n0 146097 a r0. divided r0 36524 b r1. divided r1 1461 c r2. divided r2 365 d r3.
  destruct ((d =? 4) || (b =? 4)) eqn:E; [apply orb_true_iff in E|apply orb_false_iff in E];
    rewrite ?Z.eqb_eq, ?Z.eqb_neq in E.
  - (* the last day of a leap year *)
    set (b' := if b =? 4 then 3 else b). set (c' := if b =? 4 then 24 else c).
    assert (b = 4 ∧ b' = 3 ∧ c' = 24 ∨ b ≠ 4 ∧ b' = b ∧ c' = c) as Hbc by (subst b' c'; destruct (Z.eqb_spec b 4); tauto).
    clearbody b' c'. destruct (mixed_year a b' c' 3) as [Hd Hl]; [lia..|].
    replace (a * 400 + 1 + b * 100 + c * 4 + d - 1) with (a * 400 + 1 + b' * 100 + c' * 4 + 3) by lia.
    assert (is_leap (a * 400 + 1 + b' * 100 + c' * 4 + 3) = true) as L.
    { rewrite Hl. destruct (Z.eqb_spec c' 24), (Z.eqb_spec b' 3); simpl; try done. lia. }
    unfold ymd_to_ord. rewrite L, Hd. split; [lia|]. split; [by vm_compute|].
    change (days_before_month true 12) with 335. lia.
  - destruct (mixed_year a b c d) as [Hd Hl]; [lia..|].
    pose proof (month_day_spec (is_leap (a * 400 + 1 + b * 100 + c * 4 + d)) r3) as M.
    destruct month_day as [m dd]. destruct M as (Hm & Hdd & Hs); [destruct is_leap; lia|].
    unfold ymd_to_ord. rewrite Hd. repeat split; lia.
Qed.

Lemma timestamp_of z : timestamp (of_timestamp z) = z.
Proof.
  unfold of_timestamp. pose proof (ord_to_ymd_spec (z / 86400 + 719163)) as H.
  destruct ord_to_ymd as [[y m] d]. destruct H as (_ & _ & H). unfold timestamp. simpl. rewrite H. dlia.
Qed.

(** The years that a [datetime] can have. *)
Lemma of_timestamp_valid z : 1 <= year (of_timestamp z) <= 9999 → valid (of_timestamp z) = true.
Proof.
  unfold of_timestamp. pose proof (ord_to_ymd_spec (z / 86400 + 719163)) as H.
  destruct ord_to_ymd as [[y m] d]. destruct H as (Hm & Hd & _). simpl. intros Hy. unfold valid. simpl.
  rewrite !andb_true_iff, !Z.leb_le. repeat split; try lia; dlia.
Qed.

(** ** Reading back what was printed *)
#[local] Arguments read_digit : simpl never.
#[local] Arguments digit : simpl never.
#[local] Arguments two : simpl never.
#[local] Arguments four : simpl never.
Lemma digit_is_digit z : 0 <= z < 10 → is_digit (digit z) = true ∧ digit_value (digit z) = z.
Proof.
  intros Hz. assert (z = 0 ∨ z = 1 ∨ z = 2 ∨ z = 3 ∨ z = 4 ∨ z = 5 ∨ z = 6 ∨ z = 7 ∨ z = 8 ∨ z = 9) as H by lia.
  repeat (destruct H as [->|H]; [done|]). by subst.
Qed.
Lemma read_digit_digit z s : 0 <= z < 10 → read_digit (String (digit z) s) = Some (z, s).
Proof. intros [Hd Hv]%digit_is_digit. unfold read_digit. by rewrite Hd, Hv. Qed.
Lemma read_two_two z s : 0 <= z < 100 → read_two (two z s) = Some (z, s).
Proof.
  intros Hz. unfold read_two, two. rewrite read_digit_digit by dlia. simpl. rewrite read_digit_digit by dlia. do 2 f_equal. dlia.
Qed.
Lemma read_four_four z s : 0 <= z < 10000 → read_four (four z s) = Some (z, s).
Proof.
  intros Hz. unfold read_four, four, two. do 4 (rewrite read_digit_digit by dlia; simpl). do 2 f_equal. dlia.
Qed.

Lemma month_name_read m rest :
  1 <= m <= 12 → span_while is_letter (month_name m +:+ String " " rest) = (month_name m, String " " rest) ∧
  month_number 1 month_names (lower (month_name m)) = Some m.
Proof.
  intros Hm. assert (m = 1 ∨ m = 2 ∨ m = 3 ∨ m = 4 ∨ m = 5 ∨ m = 6 ∨ m = 7 ∨ m = 8 ∨ m = 9 ∨ m = 10 ∨ m = 11 ∨ m = 12) as H by lia.
  repeat (destruct H as [->|H]; [by split|]). subst. by split.
Qed.

Lemma eat_at c s : eat c (String c s) = Some s.
Proof. unfold eat. by rewrite Ascii.eqb_refl. Qed.
Lemma eat_spaces_two z s : 0 <= z < 100 → eat_spaces (String " " (two z s)) = Some (two z s).
Proof. intros Hz. unfold two. simpl. rewrite digit_not_space; [done|]. apply digit_is_digit. dlia. Qed.
Lemma eat_spaces_four z s : 0 <= z < 10000 → eat_spaces (String " " (four z s)) = Some (four z s).
Proof. intros Hz. apply eat_spaces_two. dlia. Qed.

Lemma strftime_chars t :
  strftime t = (month_name (month t) +:+ String " " (two (day t) (String "," (String " " (four (year t)
    (String "," (String " " (two (hour t) (String ":" (two (minute t) (String ":" (two (second t) EmptyString))))))))))))%string.
Proof. reflexivity. Qed.

Lemma strptime_strftime t : valid t = true → strptime (strftime t) = Some t.
Proof.
  intros Hv. pose proof Hv as H. unfold valid in H. rewrite !andb_true_iff, !Z.leb_le in H.
  assert (day t <= 31) as Hd.
  { etransitivity; [apply H|]. unfold days_in_month. destruct (_ !! _) eqn:E; [|by simpl; lia].
    apply list_elem_of_lookup_2 in E. unfold month_lengths in E. rewrite !elem_of_cons, elem_of_nil in E.
    destruct (is_leap _); simpl; lia. }
  rewrite strftime_chars. unfold strptime.
  match goal with |- context [span_while _ (_ +:+ String _ ?r)] => destruct (month_name_read (month t) r) as [-> ->]; [lia|] end.
  repeat (cbn [mbind option_bind]; rewrite ?eat_at, ?read_two_two, ?read_four_four, ?eat_spaces_two, ?eat_spaces_four by lia).
  destruct t. simpl in *. by rewrite Hv.
Qed.

End Date.
