(* ===== verification/PyRegex.v ===== *)
(** Regular expressions of Python's [re], as far as membership goes.

    [matches r s] tells whether the whole of [s] is in the language of [r]; it runs by
    derivatives, and [matches_lang] relates it to the language. A pattern anchored by [^] and
    [$] is [anchored]: Python's [$] is also satisfied in front of a final newline. *)
From Stdlib Require Import Ascii String.
From stdpp Require Import base decidable option strings numbers list.
From S2P Require Import Prelude.
From S2P Require Import PyString.

Inductive re : Type :=
  | RNone
  | REps
  | RChar (f : ascii → bool)
  | RSeq (a b : re)
  | RAlt (a b : re)
  | RStar (a : re).

Fixpoint nullable (r : re) : bool :=
  match r with
  | RNone | RChar _ => false
  | REps | RStar _ => true
  | RSeq a b => nullable a && nullable b
  | RAlt a b => nullable a || nullable b
  end.

(** Constructors that drop empty parts. *)
Definition seq_ (a b : re) : re :=
  match a, b with
  | RNone, _ | _, RNone => RNone
  | REps, _ => b
  | _, REps => a
  | _, _ => RSeq a b
  end.
Definition alt_ (a b : re) : re :=
  match a, b with
  | RNone, _ => b
  | _, RNone => a
  | _, _ => RAlt a b
  end.

Fixpoint deriv (c : ascii) (r : re) : re :=
  match r with
  | RNone | REps => RNone
  | RChar f => if f c then REps else RNone
  | RSeq a b => if nullable a then alt_ (seq_ (deriv c a) b) (deriv c b) else seq_ (deriv c a) b
  | RAlt a b => alt_ (deriv c a) (deriv c b)
  | RStar a => seq_ (deriv c a) (RStar a)
  end.

Fixpoint matches (r : re) (s : string) : bool :=
  match s with
  | EmptyString => nullable r
  | String c s' => matches (deriv c r) s'
  end.

(** ** The language of an expression *)
Inductive lang : re → string → Prop :=
  | lang_eps : lang REps EmptyString
  | lang_char f c : f c = true → lang (RChar f) (String c EmptyString)
  | lang_seq a b s t : lang a s → lang b t → lang (RSeq a b) (s +:+ t)
  | lang_alt_l a b s : lang a s → lang (RAlt a b) s
  | lang_alt_r a b s : lang b s → lang (RAlt a b) s
  | lang_star_nil a : lang (RStar a) EmptyString
  | lang_star_cons a s t : lang a s → lang (RStar a) t → lang (RStar a) (s +:+ t).

Lemma lang_seq_ a b s : lang (seq_ a b) s ↔ lang (RSeq a b) s.
Proof.
  assert (∀ t, ¬ lang RNone t) as Hn by (intros t H; inversion H).
  assert (∀ b, lang (RSeq REps b) s ↔ lang b s) as Hl.
  { intros b0. split; [intros H; inversion H; subst; by inversion H2; subst|].
    intros H. apply (lang_seq REps b0 EmptyString s); [constructor|done]. }
  assert (∀ a, lang (RSeq a REps) s ↔ lang a s) as Hr.
  { intros a0. split; [intros H; inversion H; subst; inversion H4; subst; by rewrite str_app_nil|].
    intros H. rewrite <-(str_app_nil s). by apply lang_seq; [|constructor]. }
  assert (∀ b, lang (RSeq RNone b) s ↔ lang RNone s) as Hnl
    by (intros b0; split; intros H; inversion H; subst; by edestruct Hn).
  assert (∀ a, lang (RSeq a RNone) s ↔ lang RNone s) as Hnr
    by (intros a0; split; intros H; inversion H; subst; by edestruct Hn).
  destruct a, b; cbn [seq_]; rewrite ?Hl, ?Hr, ?Hnl, ?Hnr; done.
Qed.

Lemma lang_alt_ a b s : lang (alt_ a b) s ↔ lang a s ∨ lang b s.
Proof.
  assert (∀ t, ¬ lang RNone t) as Hn by (intros t H; inversion H).
  assert (lang (RAlt a b) s ↔ lang a s ∨ lang b s) as H.
  { split; [intros H; inversion H; subst; auto|]. intros [?|?]; [by apply lang_alt_l|by apply lang_alt_r]. }
  destruct a, b; cbn [alt_]; try exact H; naive_solver.
Qed.

Lemma nullable_lang r : nullable r = true ↔ lang r EmptyString.
Proof.
  induction r as [| |f|a IHa b IHb|a IHa b IHb|a IHa]; simpl.
  - split; [done|]. intros H. inversion H.
  - split; [constructor|done].
  - split; [done|]. intros H. inversion H.
  - rewrite andb_true_iff, IHa, IHb. split.
    + intros [? ?]. by apply (lang_seq a b EmptyString EmptyString).
    + intros H. remember EmptyString as e eqn:He. inversion H as [| |a' b' s1 t Ha Hb Heq Hs| | | |].
      subst. by destruct s1, t.
  - rewrite orb_true_iff, IHa, IHb. split; [intros [?|?]; [by apply lang_alt_l|by apply lang_alt_r]|].
    intros H. inversion H; subst; auto.
  - split; [constructor|done].
Qed.

Lemma lang_deriv c r s : lang (deriv c r) s ↔ lang r (String c s).
Proof.
  revert s. induction r as [| |f|a IHa b IHb|a IHa b IHb|a IHa]; intros s; cbn [deriv].
  - split; intros H; inversion H.
  - split; intros H; inversion H.
  - destruct (f c) eqn:E; split; intros H; inversion H; subst; [by constructor|constructor|congruence].
  - assert (lang (RSeq (deriv c a) b) s ∨ (nullable a = true ∧ lang (deriv c b) s) ↔ lang (RSeq a b) (String c s)) as Hab.
    { split.
      - intros [H|[Hn H]].
        + inversion H; subst. apply IHa in H2. by apply (lang_seq a b (String c s0) t).
        + apply nullable_lang in Hn. apply IHb in H. by apply (lang_seq a b EmptyString (String c s)).
      - intros H. inversion H as [| |a' b' s1 t Ha Hb Heq Hs| | | |]; subst. destruct s1 as [|c' s1].
        + right. split; [by apply nullable_lang|]. apply IHb. simpl in Hs. by rewrite <-Hs.
        + left. change (String c' s1 +:+ t) with (String c' (s1 +:+ t)) in Hs. injection Hs as -> <-.
          apply lang_seq; [by apply IHa|done]. }
    rewrite <-Hab. destruct (nullable a); rewrite ?lang_alt_, lang_seq_; intuition congruence.
  - rewrite lang_alt_, IHa, IHb. split; [intros [?|?]; [by apply lang_alt_l|by apply lang_alt_r]|].
    intros H. inversion H; subst; auto.
  - rewrite lang_seq_. split.
    + intros H. inversion H; subst. apply IHa in H2. by apply (lang_star_cons a (String c s0) t).
    + intros H. remember (RStar a) as ra eqn:Ea. remember (String c s) as cs eqn:Ec. revert Ea s Ec.
      induction H as [| | | | | |a' s1 t Hs1 _ Ht IHt]; intros Ea s' Ec; try done. injection Ea as ->.
      destruct s1 as [|c' s1]; [by apply IHt|].
      change (String c' s1 +:+ t) with (String c' (s1 +:+ t)) in Ec. injection Ec as -> <-.
      apply lang_seq; [by apply IHa|done].
Qed.

(** Matching decides membership. *)
Lemma matches_lang r s : matches r s = true ↔ lang r s.
Proof.
  revert r. induction s as [|c s IH]; intros r; cbn [matches]; [apply nullable_lang|].
  rewrite IH. apply lang_deriv.
Qed.

(** ** Patterns *)
Definition RPlus (a : re) : re := RSeq a (RStar a).
Definition ROpt (a : re) : re := RAlt REps a.
Fixpoint RTimes (n : nat) (a : re) : re := match n with O => REps | S n' => RSeq a (RTimes n' a) end.
Fixpoint RLit (s : string) : re := match s with EmptyString => REps | String c s' => RSeq (RChar (Ascii.eqb c)) (RLit s') end.
Definition RDigit : re := RChar is_digit.
Definition one_of (s : string) (c : ascii) : bool := existsb (Ascii.eqb c) (list_ascii_of_string s).
Definition is_alnum (c : ascii) : bool := is_digit c || char_in "a" "z" c || char_in "A" "Z" c.
Definition is_hex (c : ascii) : bool := is_digit c || char_in "a" "f" c.
Definition not_newline (c : ascii) : bool := negb (nat_of_ascii c =? 10)%nat.

(** [re.compile("^...$").match(s)]. *)
Definition anchored (r : re) (s : string) : bool := matches (RSeq r (ROpt (RChar (λ c, negb (not_newline c))))) s.

Fixpoint RSeqs (l : list re) : re := match l with [] => REps | [r] => r | r :: l' => RSeq r (RSeqs l') end.

(** ** What the patterns match *)
Lemma lang_seq_iff a b s : lang (RSeq a b) s ↔ ∃ s1 s2, s = s1 +:+ s2 ∧ lang a s1 ∧ lang b s2.
Proof.
  split; [intros H; inversion H; subst; eauto 10|]. intros (s1 & s2 & -> & ? & ?). by apply lang_seq.
Qed.

Lemma lang_alt_iff a b s : lang (RAlt a b) s ↔ lang a s ∨ lang b s.
Proof. split; [intros H; inversion H; subst; auto|]. intros [?|?]; [by apply lang_alt_l|by apply lang_alt_r]. Qed.

Lemma lang_eps_iff s : lang REps s ↔ s = EmptyString.
Proof. split; [intros H; by inversion H|]. intros ->. constructor. Qed.

Lemma lang_opt_iff a s : lang (ROpt a) s ↔ s = EmptyString ∨ lang a s.
Proof. unfold ROpt. by rewrite lang_alt_iff, lang_eps_iff. Qed.

Lemma lang_char_iff f s : lang (RChar f) s ↔ ∃ c, s = String c EmptyString ∧ f c = true.
Proof. split; [intros H; inversion H; subst; eauto|]. intros (c & -> & ?). by constructor. Qed.

Lemma lang_lit_iff t s : lang (RLit t) s ↔ s = t.
Proof.
  revert s. induction t as [|c t IH]; intros s; cbn [RLit]; [apply lang_eps_iff|].
  rewrite lang_seq_iff. split.
  - intros (s1 & s2 & -> & (c' & -> & <-%Ascii.eqb_eq)%lang_char_iff & ->%IH). done.
  - intros ->. exists (String c EmptyString), t. split; [done|]. split; [constructor; apply Ascii.eqb_refl|by apply IH].
Qed.

Lemma lang_star_chars f s : lang (RStar (RChar f)) s ↔ all_chars f s = true.
Proof.
  split.
  - remember (RStar (RChar f)) as r eqn:Er. induction 1 as [| | | | | |a s t Ha _ Ht IHt]; try done.
    injection Er as ->. apply lang_char_iff in Ha as (c & -> & Hc).
    change (String c EmptyString +:+ t) with (String c t). cbn [all_chars]. by rewrite Hc, IHt.
  - induction s as [|c s IH]; intros H; [constructor|]. cbn [all_chars] in H. apply andb_true_iff in H as [Hc H].
    apply (lang_star_cons _ (String c EmptyString) s); [by constructor|by apply IH].
Qed.

Lemma lang_plus_chars f s : lang (RPlus (RChar f)) s ↔ s ≠ EmptyString ∧ all_chars f s = true.
Proof.
  unfold RPlus. rewrite lang_seq_iff. split.
  - intros (s1 & s2 & -> & (c & -> & Hc)%lang_char_iff & H%lang_star_chars).
    change (String c EmptyString +:+ s2) with (String c s2). cbn [all_chars]. by rewrite Hc, H.
  - intros [Hne H]. destruct s as [|c s]; [done|]. cbn [all_chars] in H. apply andb_true_iff in H as [Hc H].
    exists (String c EmptyString), s. split; [done|]. split; [by constructor|by apply lang_star_chars].
Qed.

Lemma lang_times_chars n f s : lang (RTimes n (RChar f)) s ↔ String.length s = n ∧ all_chars f s = true.
Proof.
  revert s. induction n as [|n IH]; intros s; cbn [RTimes].
  - rewrite lang_eps_iff. split; [by intros ->|]. by destruct s; intros [? _].
  - rewrite lang_seq_iff. split.
    + intros (s1 & s2 & -> & (c & -> & Hc)%lang_char_iff & [Hl H]%IH).
      change (String c EmptyString +:+ s2) with (String c s2). cbn [all_chars String.length]. by rewrite Hc, H, Hl.
    + intros [Hl H]. destruct s as [|c s]; [done|]. cbn [all_chars String.length] in *.
      apply andb_true_iff in H as [Hc H]. exists (String c EmptyString), s.
      split; [done|]. split; [by constructor|]. apply IH. split; [congruence|done].
Qed.

(** A pattern that fits the whole text is anchored; an anchored one leaves at most a newline. *)
Lemma anchored_intro r s : lang r s → anchored r s = true.
Proof.
  intros H. apply matches_lang, lang_seq_iff. exists s, EmptyString. rewrite str_app_nil.
  split; [done|]. split; [done|]. apply lang_opt_iff. by left.
Qed.

Lemma anchored_elim r s : anchored r s = true → ∃ s1 s2, s = s1 +:+ s2 ∧ lang r s1.
Proof. intros (s1 & s2 & -> & H & _)%matches_lang%lang_seq_iff. eauto. Qed.

#[export] Hint Rewrite lang_seq_iff lang_alt_iff lang_eps_iff lang_opt_iff lang_lit_iff lang_star_chars lang_plus_chars
  lang_times_chars lang_char_iff : regex.

(** Membership of a text that is given in pieces: [rx_seq x] takes [x] off its front. *)
Ltac rx_seq x :=
  refine (proj2 (lang_seq_iff _ _ _) (ex_intro _ x (ex_intro _ _ (conj eq_refl (conj _ _))))).
Ltac rx_done :=
  first [ by apply lang_plus_chars | by apply lang_times_chars | by apply lang_lit_iff
        | by apply lang_opt_iff; left | by apply lang_star_chars | by apply lang_char_iff; eexists ].
Ltac rx_last x :=
  refine (proj2 (lang_seq_iff _ _ _) (ex_intro _ x (ex_intro _ EmptyString (conj (eq_sym (str_app_nil x)) (conj _ _)))));
  [rx_done|rx_done].
