(* ===== verification/PyVal.v ===== *)
(** Configuration values: what [params.get(key)] of an SCT configuration gives.

    A configuration maps keys to dynamically typed values; a key that is absent
    reads as [None]. *)
From stdpp Require Import base decidable option strings numbers gmap sets list.
From S2P Require Import Prelude.

Inductive pyval : Type :=
  | VNone
  | VBool (b : bool)
  | VInt (z : Z)
  | VStr (s : string)
  | VList (l : list pyval).

(** [bool(v)]. *)
#[export] Instance truthy_pyval : Truthy pyval :=
  λ v, match v with
       | VNone => false
       | VBool b => b
       | VInt z => truthy z
       | VStr s => truthy s
       | VList l => match l with [] => false | _ => true end
       end.

Abbreviation params := (gmap string pyval) (only parsing).

(** [params.get(key)]. *)
Definition pget (k : string) (p : params) : pyval := default VNone (p !! k).

(** [v == s] for a string [s]. *)
Definition is_str (v : pyval) (s : string) : bool :=
  match v with VStr s' => String.eqb s' s | _ => false end.

Definition is_none (v : pyval) : bool := match v with VNone => true | _ => false end.

Lemma pget_insert k k' v p : pget k (<[k' := v]> p) = if decide (k = k') then v else pget k p.
Proof. unfold pget. rewrite lookup_insert. by repeat case_decide; simplify_eq. Qed.

(** [a == b]: booleans are the integers 0 and 1. *)
Fixpoint py_eq (a b : pyval) : bool :=
  match a, b with
  | VNone, VNone => true
  | VStr s, VStr s' => String.eqb s s'
  | VBool x, VBool y => Bool.eqb x y
  | VInt x, VInt y => Z.eqb x y
  | VBool x, VInt y | VInt y, VBool x => Z.eqb (Z.b2z x) y
  | VList l, VList l' =>
    (fix eq_list (l l' : list pyval) : bool :=
       match l, l' with
       | [], [] => true
       | x :: t, y :: t' => py_eq x y && eq_list t t'
       | _, _ => false
       end) l l'
  | _, _ => false
  end.

(** On strings and [None] it is equality. *)
Definition text_or_none (v : pyval) : Prop := v = VNone ∨ ∃ s, v = VStr s.

Lemma py_eq_text a b : text_or_none a → py_eq a b = true ↔ a = b.
Proof.
  intros [->|[s ->]]; destruct b; simpl; try naive_solver.
  rewrite String.eqb_eq. naive_solver.
Qed.
