(* ===== verification/PyRepr.v ===== *)
(** Text of Python values: [repr] of a string and [str] of a configuration value.

    Strings are UTF-8 bytes: a byte outside ASCII belongs to a character that is taken to be
    printable, and is left as it is. *)
From Stdlib Require Import Ascii.
From stdpp Require Import base decidable option strings numbers gmap sets list.
From S2P Require Import Prelude.
From S2P Require Import PyString.
From S2P Require Import PyInt.
From S2P Require Import PyVal.

Definition single_quote : ascii := "'"%char.
Definition double_quote : ascii := ascii_of_nat 34.
Definition backslash : ascii := ascii_of_nat 92.

Definition hex_digit (n : nat) : ascii := ascii_of_nat (if (n <? 10)%nat then 48 + n else 87 + n).

(** One character inside the quotes [q]. *)
Definition repr_char (q c : ascii) : string :=
  let n := nat_of_ascii c in
  if Ascii.eqb c q || Ascii.eqb c backslash then String backslash (String c EmptyString)
  else if (n =? 9)%nat then String backslash "t"
  else if (n =? 10)%nat then String backslash "n"
  else if (n =? 13)%nat then String backslash "r"
  else if (n <? 32)%nat || (n =? 127)%nat
  then String backslash (String "x" (String (hex_digit (n / 16)) (String (hex_digit (n mod 16)) EmptyString)))
  else String c EmptyString.

Fixpoint repr_body (q : ascii) (s : string) : string :=
  match s with
  | EmptyString => EmptyString
  | String c s' => repr_char q c +:+ repr_body q s'
  end.

Fixpoint has_char (c : ascii) (s : string) : bool :=
  match s with
  | EmptyString => false
  | String c' s' => Ascii.eqb c c' || has_char c s'
  end.

Definition repr_quote (s : string) : ascii :=
  if has_char single_quote s && negb (has_char double_quote s) then double_quote else single_quote.

Definition repr_str (s : string) : string :=
  String (repr_quote s) (repr_body (repr_quote s) s +:+ String (repr_quote s) EmptyString).

(** [repr(v)] and [str(v)]. *)
Fixpoint repr_pyval (v : pyval) : string :=
  match v with
  | VNone => "None"
  | VBool b => if b then "True" else "False"
  | VInt z => str_Z z
  | VStr s => repr_str s
  | VList l => "[" +:+ join ", " (repr_pyval <$> l) +:+ "]"
  end.

Definition str_pyval (v : pyval) : string :=
  match v with VStr s => s | _ => repr_pyval v end.

(** A string without quotes, backslashes and control characters is its own body. *)
Definition plain_char (c : ascii) : bool :=
  let n := nat_of_ascii c in
  (32 <=? n)%nat && negb (n =? 127)%nat && negb (Ascii.eqb c single_quote) && negb (Ascii.eqb c double_quote) &&
  negb (Ascii.eqb c backslash).

Fixpoint plain (s : string) : bool :=
  match s with
  | EmptyString => true
  | String c s' => plain_char c && plain s'
  end.
