(* ===== verification/PyDict.v ===== *)
(** Python dictionaries: insertion-ordered association lists.

    Assigning to a key that is present keeps its position, a new key goes to
    the end, deletion keeps the order of the rest. Iteration goes over the list.
    A dictionary is well formed when its keys are distinct, which every
    operation keeps. *)
From stdpp Require Import base decidable option strings numbers gmap sets list.
From S2P Require Import Prelude.

Section Dict.
Context {K V : Type} `{EqDecision K}.
Implicit Types (d : list (K * V)) (k : K) (v : V).

Fixpoint dict_get k d : option V :=
  match d with
  | [] => None
  | (k', v) :: d' => if decide (k = k') then Some v else dict_get k d'
  end.

Fixpoint dict_set k v d : list (K * V) :=
  match d with
  | [] => [(k, v)]
  | (k', v') :: d' => if decide (k = k') then (k', v) :: d' else (k', v') :: dict_set k v d'
  end.

(** [d.pop(k, None)] and [del d[k]], for the dictionary left behind. *)
Definition dict_del k d : list (K * V) := filter (λ p, p.1 ≠ k) d.

Definition dict_in k d : bool := bool_decide (is_Some (dict_get k d)).

Definition dict_wf d : Prop := NoDup d.*1.

Lemma dict_get_set k k' v d :
  dict_get k (dict_set k' v d) = if decide (k = k') then Some v else dict_get k d.
Proof.
  induction d as [|[k1 v1] d IH]; simpl; [done|].
  repeat (case_decide; simplify_eq/=); rewrite ?IH; repeat case_decide; congruence.
Qed.

Lemma dict_get_del k k' d :
  dict_get k (dict_del k' d) = if decide (k = k') then None else dict_get k d.
Proof.
  unfold dict_del. induction d as [|[k1 v1] d IH]; simpl; [by case_decide|].
  rewrite filter_cons. repeat (case_decide; simplify_eq/=); rewrite ?IH; repeat case_decide; congruence.
Qed.

Lemma dict_set_set k v v' d : dict_set k v (dict_set k v' d) = dict_set k v d.
Proof. induction d as [|[k1 v1] d IH]; simpl; repeat (case_decide; simplify_eq/=); congruence. Qed.

Lemma dict_get_elem k v d : dict_get k d = Some v → (k, v) ∈ d.
Proof.
  induction d as [|[k1 v1] d IH]; simpl; [done|]. case_decide; intros; simplify_eq; set_solver.
Qed.

Lemma dict_elem_get k v d : dict_wf d → (k, v) ∈ d → dict_get k d = Some v.
Proof.
  unfold dict_wf. induction d as [|[k1 v1] d IH]; simpl; [by intros ? ?%not_elem_of_nil|].
  intros [Hk Hd]%NoDup_cons [?|Hin]%elem_of_cons; simplify_eq; case_decide; simplify_eq; auto.
  destruct Hk. apply list_elem_of_fmap. by exists (k1, v).
Qed.

Lemma dict_get_None k d : dict_get k d = None ↔ k ∉ d.*1.
Proof.
  induction d as [|[k1 v1] d IH]; simpl; [set_solver|].
  rewrite not_elem_of_cons. case_decide; naive_solver.
Qed.

Lemma dict_set_keys k v d : ∀ k', k' ∈ (dict_set k v d).*1 ↔ k' = k ∨ k' ∈ d.*1.
Proof.
  intros k'. induction d as [|[k1 v1] d IH]; simpl; [set_solver|].
  case_decide; simplify_eq/=; rewrite !elem_of_cons, ?IH; naive_solver.
Qed.

Lemma dict_set_new k v d : dict_get k d = None → dict_set k v d = d ++ [(k, v)].
Proof.
  induction d as [|[k1 v1] d IH]; simpl; [done|]. case_decide; [done|]. intros Hk. by rewrite IH.
Qed.

(** [dict(l)] of pairs with distinct keys. *)
Lemma dict_of_pairs d (l : list (K * V)) :
  NoDup (d.*1 ++ l.*1) → foldl (λ d p, dict_set p.1 p.2 d) d l = d ++ l.
Proof.
  revert d. induction l as [|[k v] l IH]; intros d Hnd; simpl; [by rewrite app_nil_r|].
  assert (dict_get k d = None) as Hk.
  { apply dict_get_None. apply NoDup_app in Hnd as (_ & Hd & _). intros Hi. apply (Hd _ Hi). set_solver. }
  rewrite (dict_set_new _ _ _ Hk), IH.
  - by rewrite <- (assoc_L (++)).
  - rewrite fmap_app, <- (assoc_L (++)). exact Hnd.
Qed.

Lemma dict_set_wf k v d : dict_wf d → dict_wf (dict_set k v d).
Proof.
  unfold dict_wf. induction d as [|[k1 v1] d IH]; simpl; intros Hd.
  - apply NoDup_singleton.
  - apply NoDup_cons in Hd as [Hk Hd]. case_decide; simplify_eq/=; apply NoDup_cons; split; auto.
    rewrite dict_set_keys. naive_solver.
Qed.

Lemma dict_del_wf k d : dict_wf d → dict_wf (dict_del k d).
Proof.
  unfold dict_wf, dict_del. intros Hd. induction d as [|[k1 v1] d IH]; [done|].
  apply NoDup_cons in Hd as [Hk Hd]. rewrite filter_cons. case_decide; [|by apply IH].
  simpl. apply NoDup_cons; split; [|by apply IH]. intros Hin. apply Hk.
  apply list_elem_of_fmap in Hin as (p & Hp1 & Hp). apply list_elem_of_filter in Hp as [_ Hp].
  apply list_elem_of_fmap. by exists p.
Qed.

Lemma dict_del_cons k p d :
  dict_del k (p :: d) = if decide (p.1 = k) then dict_del k d else p :: dict_del k d.
Proof. unfold dict_del. rewrite filter_cons. repeat case_decide; tauto || done. Qed.

Lemma dict_del_comm k k' d : dict_del k (dict_del k' d) = dict_del k' (dict_del k d).
Proof. unfold dict_del. rewrite !list_filter_filter. apply list_filter_iff. intros x. clear. tauto. Qed.

Lemma dict_del_idem k d : dict_del k (dict_del k d) = dict_del k d.
Proof. unfold dict_del. rewrite list_filter_filter. apply list_filter_iff. intros x. clear. tauto. Qed.

Lemma dict_set_Forall (P : K * V → Prop) k v d :
  Forall P d → P (k, v) → Forall P (dict_set k v d).
Proof.
  intros Hd Hv. induction Hd as [|[k' v'] d Hp Hd IH]; simpl; [by repeat constructor|].
  case_decide; subst; constructor; auto.
Qed.

Lemma dict_del_Forall (P : K * V → Prop) k d : Forall P d → Forall P (dict_del k d).
Proof. unfold dict_del. rewrite !Forall_forall. intros Hd p [_ Hp]%list_elem_of_filter. auto. Qed.
End Dict.

Create HintDb pydict.
#[export] Hint Resolve dict_set_wf dict_del_wf : pydict.
#[export] Hint Rewrite @dict_get_set @dict_get_del : pydict.

Lemma dict_filter_wf {K V} (P : K * V → Prop) `{∀ x, Decision (P x)} (d : list (K * V)) : dict_wf d → dict_wf (filter P d).
Proof.
  unfold dict_wf. intros Hd. induction d as [|[k v] d IH]; [done|]. cbn in Hd.
  apply NoDup_cons in Hd as [Hk Hd]. rewrite filter_cons. case_decide; [|by apply IH].
  cbn. apply NoDup_cons. split; [|by apply IH]. intros Hin. apply Hk.
  apply list_elem_of_fmap in Hin as (q & Hq1 & Hq). apply list_elem_of_filter in Hq as [_ Hq].
  apply list_elem_of_fmap. by exists q.
Qed.
