(* ===== verification/PyLiteral.v ===== *)
(** Python literals: the part of [ast.literal_eval] that reads a dictionary from strings to
    strings, integers and lists of strings.

    [None] stands for text outside this part: what [literal_eval] refuses, and literals of
    other types, nested dictionaries, string prefixes, octal and Unicode escapes. *)
From Stdlib Require Import Ascii String ZArith Lia.
From stdpp Require Import base decidable option strings numbers pretty list.
From S2P Require Import Prelude.
From S2P Require Import PyString.
From S2P Require Import PyInt.
From S2P Require Import PyVal.
From S2P Require Import PyRepr.
From S2P Require Import PyDict.
Local Open Scope Z_scope.

Inductive literal : Type :=
  | LInt (z : Z)
  | LStr (s : string)
  | LList (l : list string).

(** White space between tokens, inside brackets. *)
Definition is_blank (c : ascii) : bool :=
  let n := nat_of_ascii c in ((n =? 32) || (n =? 9) || (n =? 10) || (n =? 13) || (n =? 12))%nat.
Definition skip_blanks (s : string) : string := drop_while is_blank s.

Definition hex_value (c : ascii) : option nat :=
  let n := nat_of_ascii c in
  if char_in "0" "9" c then Some (n - 48)%nat
  else if char_in "a" "f" c then Some (n - 87)%nat
  else if char_in "A" "F" c then Some (n - 55)%nat
  else None.

(** After the opening quote [q]: the string and what follows the closing quote. *)
Fixpoint read_str (q : ascii) (s : string) : option (string * string) :=
  match s with
  | EmptyString => None
  | String c s' =>
    if Ascii.eqb c q then Some (EmptyString, s')
    else if (nat_of_ascii c =? 10)%nat then None
    else if Ascii.eqb c backslash then
      match s' with
      | EmptyString => None
      | String e s2 =>
        if Ascii.eqb e backslash || Ascii.eqb e single_quote || Ascii.eqb e double_quote
        then (λ p : string * string, (String e p.1, p.2)) <$> read_str q s2
        else if Ascii.eqb e "n" then (λ p : string * string, (String (ascii_of_nat 10) p.1, p.2)) <$> read_str q s2
        else if Ascii.eqb e "r" then (λ p : string * string, (String (ascii_of_nat 13) p.1, p.2)) <$> read_str q s2
        else if Ascii.eqb e "t" then (λ p : string * string, (String (ascii_of_nat 9) p.1, p.2)) <$> read_str q s2
        else if Ascii.eqb e "x" then
          match s2 with
          | String h (String l s3) =>
            match hex_value h, hex_value l with
            | Some a, Some b => (λ p : string * string, (String (ascii_of_nat (16 * a + b)) p.1, p.2)) <$> read_str q s3
            | _, _ => None
            end
          | _ => None
          end
        else None
      end
    else (λ p : string * string, (String c p.1, p.2)) <$> read_str q s'
  end.

Definition is_quote (c : ascii) : bool := Ascii.eqb c single_quote || Ascii.eqb c double_quote.

(** A string literal. *)
Definition read_string (s : string) : option (string * string) :=
  match s with
  | String q s' => if is_quote q then read_str q s' else None
  | EmptyString => None
  end.

Fixpoint span_digits (s : string) : string * string :=
  match s with
  | String c s' => if is_digit c then let '(a, b) := span_digits s' in (String c a, b) else (EmptyString, s)
  | EmptyString => (EmptyString, EmptyString)
  end.

(** A decimal integer: no zero in front of other digits. *)
Definition read_nat (s : string) : option (Z * string) :=
  let '(ds, rest) := span_digits s in
  match ds with
  | String c ds' =>
    if Ascii.eqb c "0" && negb (all_chars (λ c, Ascii.eqb c "0") ds') then None
    else (λ z, (z, rest)) <$> int_body ds
  | EmptyString => None
  end.

Definition read_int (s : string) : option (Z * string) :=
  match s with
  | String c s' => if Ascii.eqb c "-" then (λ p : Z * string, (- p.1, p.2)) <$> read_nat (skip_blanks s') else read_nat s
  | EmptyString => None
  end.

(** The elements of a list of strings, up to the closing bracket. *)
Fixpoint read_strings (fuel : nat) (s : string) : option (list string * string) :=
  match fuel with
  | O => None
  | S fuel' =>
    match skip_blanks s with
    | EmptyString => None
    | String c s' =>
      if Ascii.eqb c "]" then Some ([], s')
      else
        match read_string (String c s') with
        | None => None
        | Some (x, rest) =>
          match skip_blanks rest with
          | String d rest' =>
            if Ascii.eqb d "," then (λ p : list string * string, (x :: p.1, p.2)) <$> read_strings fuel' rest'
            else if Ascii.eqb d "]" then Some ([x], rest')
            else None
          | EmptyString => None
          end
        end
    end
  end.

Definition read_value (s : string) : option (literal * string) :=
  match skip_blanks s with
  | EmptyString => None
  | String c s' =>
    if is_quote c then (λ p : string * string, (LStr p.1, p.2)) <$> read_str c s'
    else if Ascii.eqb c "[" then (λ p : list string * string, (LList p.1, p.2)) <$> read_strings (String.length s) s'
    else (λ p : Z * string, (LInt p.1, p.2)) <$> read_int (String c s')
  end.

(** The items of a dictionary, up to the closing brace. *)
Fixpoint read_items (fuel : nat) (acc : list (string * literal)) (s : string) : option (list (string * literal) * string) :=
  match fuel with
  | O => None
  | S fuel' =>
    match skip_blanks s with
    | EmptyString => None
    | String c s' =>
      if Ascii.eqb c "}" then Some (acc, s')
      else
        match read_string (String c s') with
        | None => None
        | Some (k, rest) =>
          match skip_blanks rest with
          | String d rest' =>
            if negb (Ascii.eqb d ":") then None
            else
              match read_value rest' with
              | None => None
              | Some (v, rest) =>
                match skip_blanks rest with
                | String e rest' =>
                  if Ascii.eqb e "," then read_items fuel' (dict_set k v acc) rest'
                  else if Ascii.eqb e "}" then Some (dict_set k v acc, rest')
                  else None
                | EmptyString => None
                end
              end
          | EmptyString => None
          end
        end
    end
  end.

(** [ast.literal_eval(s)] for a dictionary. *)
Definition literal_eval_dict (s : string) : option (list (string * literal)) :=
  match skip_blanks s with
  | String c s' =>
    if Ascii.eqb c "{" then
      match read_items (String.length s) [] s' with
      | Some (d, rest) => match skip_blanks rest with EmptyString => Some d | _ => None end
      | None => None
      end
    else None
  | EmptyString => None
  end.

Example literal_eval_ex :
  literal_eval_dict "{'class': 'NetworkTopologyStrategy', 'dc1': '3', 'dc2': 2, 'dc3': ['r1', 'r2']}" =
  Some [("class", LStr "NetworkTopologyStrategy"); ("dc1", LStr "3"); ("dc2", LInt 2); ("dc3", LList ["r1"; "r2"])].
Proof. vm_compute. reflexivity. Qed.

(** ** Reading back what was printed *)
Lemma read_repr_char q c t :
  is_quote q = true →
  read_str q (repr_char q c +:+ t) = (λ p : string * string, (String c p.1, p.2)) <$> read_str q t.
Proof.
  intros Hq. assert (q = single_quote ∨ q = double_quote) as [->| ->].
  { unfold is_quote in Hq. apply orb_true_iff in Hq as [H%Ascii.eqb_eq|H%Ascii.eqb_eq]; auto. }
  all: destruct c as [[] [] [] [] [] [] [] []]; reflexivity.
Qed.

Lemma repr_quote_is_quote s : is_quote (repr_quote s) = true.
Proof. unfold repr_quote. by destruct (_ && _). Qed.

Lemma read_repr_body q s t :
  is_quote q = true → read_str q (repr_body q s +:+ String q t) = Some (s, t).
Proof.
  intros Hq. induction s as [|c s IH]; cbn [repr_body].
  { change (EmptyString +:+ String q t) with (String q t). cbn [read_str]. by rewrite Ascii.eqb_refl. }
  by rewrite str_app_assoc, read_repr_char, IH.
Qed.

(** [repr] of a string reads back as the string, whatever its characters. *)
Lemma read_repr_str s t : read_string (repr_str s +:+ t) = Some (s, t).
Proof.
  unfold repr_str. change (String ?q ?b +:+ t) with (String q (b +:+ t)). cbn [read_string].
  rewrite repr_quote_is_quote, str_app_assoc. apply read_repr_body, repr_quote_is_quote.
Qed.

Lemma plain_char_spec c q :
  plain_char c = true → is_quote q = true →
  Ascii.eqb c q = false ∧ (nat_of_ascii c =? 10)%nat = false ∧ Ascii.eqb c backslash = false ∧ is_quote c = false.
Proof.
  unfold plain_char, is_quote. intros Hp Hq.
  apply andb_true_iff in Hp as [Hp H5]. apply andb_true_iff in Hp as [Hp H4]. apply andb_true_iff in Hp as [Hp H3].
  apply andb_true_iff in Hp as [H1 H2]. apply negb_true_iff in H2, H3, H4, H5. apply Nat.leb_le in H1.
  rewrite H3, H4, H5. split_and!; [|apply Nat.eqb_neq; lia|done|done].
  apply orb_true_iff in Hq as [->%Ascii.eqb_eq| ->%Ascii.eqb_eq]; done.
Qed.

(** Plain text between quotes. *)
Lemma read_plain q s t : is_quote q = true → plain s = true → read_str q (s +:+ String q t) = Some (s, t).
Proof.
  intros Hq. induction s as [|c s IH]; intros Hp.
  { change (EmptyString +:+ String q t) with (String q t). cbn [read_str]. by rewrite Ascii.eqb_refl. }
  cbn [plain] in Hp. apply andb_true_iff in Hp as [Hc Hs]. destruct (plain_char_spec c q Hc Hq) as (E1 & E2 & E3 & _).
  change (String c s +:+ String q t) with (String c (s +:+ String q t)). cbn [read_str].
  rewrite E1, E2, E3, IH by done. done.
Qed.

(** Numbers. *)
Lemma pretty_N_go_first x s : (0 < x)%N → ∃ c t, pretty_N_go x s = String c t ∧ Ascii.eqb c "0" = false.
Proof.
  revert s. induction (N.lt_wf_0 x) as [x _ IH]; intros s Hx. rewrite pretty_N_go_step by done.
  destruct (decide (0 < x / 10)%N) as [Hd|Hd]; [apply IH; [by apply N.div_lt|done]|].
  assert (x < 10)%N as Hlt. { apply N.nle_gt. intros H10. apply Hd. by apply N.div_str_pos. }
  rewrite (N.div_small x 10) by done. rewrite pretty_N_go_0.
  exists (pretty_N_char (x mod 10)), s. split; [done|]. rewrite N.mod_small by done.
  assert (x = 1 ∨ x = 2 ∨ x = 3 ∨ x = 4 ∨ x = 5 ∨ x = 6 ∨ x = 7 ∨ x = 8 ∨ x = 9)%N as H by lia.
  repeat (destruct H as [->|H]; [done|]). by subst.
Qed.

Lemma span_digits_app ds t :
  all_chars is_digit ds = true → (∀ c t', t = String c t' → is_digit c = false) → span_digits (ds +:+ t) = (ds, t).
Proof.
  intros Hd Ht. induction ds as [|c ds IH].
  { change (EmptyString +:+ t) with t. destruct t as [|c t']; [done|]. cbn [span_digits]. by rewrite (Ht c t'). }
  cbn [all_chars] in Hd. apply andb_true_iff in Hd as [Hc Hd].
  change (String c ds +:+ t) with (String c (ds +:+ t)). cbn [span_digits]. by rewrite Hc, IH.
Qed.

Lemma read_nat_str z t :
  0 <= z → (∀ c t', t = String c t' → is_digit c = false) → read_nat (str_Z z +:+ t) = Some (z, t).
Proof.
  intros Hz Ht. pose proof (str_Z_digits z Hz) as Hd. unfold isdigit in Hd. apply andb_true_iff in Hd as [_ Hd].
  unfold read_nat. rewrite span_digits_app by done.
  assert (∃ n : N, z = Z.of_N n) as [n ->] by (exists (Z.to_N z); lia).
  assert (str_Z (Z.of_N n) = pretty n) as E by (by destruct n). rewrite E in *.
  destruct (decide (n = 0%N)) as [->|Hn]; [done|].
  assert (∃ c t, pretty n = String c t ∧ Ascii.eqb c "0" = false) as (c & t' & Ep & Ec).
  { unfold pretty, pretty_N. rewrite decide_False by done. apply pretty_N_go_first. lia. }
  pose proof (int_body_pretty_N n) as Hb. rewrite Ep in *. rewrite Ec. cbn [andb]. by rewrite Hb.
Qed.

(** Text that follows a value in a dictionary. *)
Definition ends_value (t : string) : Prop := ∃ t', t = String "," t' ∨ t = String "}" t'.

(** [t] is read as [v] after the colon of an item. *)
Definition value_text (v : literal) (t : string) : Prop :=
  ∀ rest, ends_value rest → read_value (String " " (t +:+ rest)) = Some (v, rest).

Lemma skip_one_blank s : skip_blanks (String " " s) = skip_blanks s.
Proof. done. Qed.

Lemma skip_none c s : is_blank c = false → skip_blanks (String c s) = String c s.
Proof. intros H. unfold skip_blanks. cbn [drop_while]. by rewrite H. Qed.

Lemma quote_not_blank q : is_quote q = true → is_blank q = false.
Proof. unfold is_quote. intros [->%Ascii.eqb_eq| ->%Ascii.eqb_eq]%orb_true_iff; done. Qed.

Lemma digit_facts c : is_digit c = true → is_blank c = false ∧ is_quote c = false ∧ Ascii.eqb c "[" = false ∧ Ascii.eqb c "-" = false.
Proof. destruct c as [[] [] [] [] [] [] [] []]; vm_compute; try done. Qed.

Lemma value_text_int z : 0 <= z → value_text (LInt z) (str_Z z).
Proof.
  intros Hz rest Hrest. unfold read_value. rewrite skip_one_blank.
  pose proof (read_nat_str z rest Hz) as Hr.
  pose proof (str_Z_digits z Hz) as Hd. unfold isdigit in Hd. apply andb_true_iff in Hd as [Hne Hd].
  destruct (str_Z z) as [|c ds]; [done|]. cbn [all_chars] in Hd. apply andb_true_iff in Hd as [Hc Hd].
  destruct (digit_facts c Hc) as (E1 & E2 & E3 & E4).
  change (String c ds +:+ rest) with (String c (ds +:+ rest)) in *. rewrite (skip_none c) by done.
  rewrite E2, E3. unfold read_int. rewrite E4, Hr; [done|].
  intros c' t'. destruct Hrest as (u & [->| ->]); intros [= <- _]; done.
Qed.

Lemma value_text_repr s : value_text (LStr s) (repr_str s).
Proof.
  intros rest _. unfold read_value. rewrite skip_one_blank. pose proof (read_repr_str s rest) as Hr.
  unfold repr_str in *. change (String ?q ?b +:+ rest) with (String q (b +:+ rest)) in *.
  pose proof (repr_quote_is_quote s) as Hq. cbn [read_string] in Hr. rewrite (skip_none _ _ (quote_not_blank _ Hq)).
  rewrite Hq in *. by rewrite Hr.
Qed.

Lemma read_strings_repr fuel b l t :
  b = EmptyString ∨ b = " " → (length l < fuel)%nat →
  read_strings fuel (b +:+ join ", " (repr_str <$> l) +:+ String "]" t) = Some (l, t).
Proof.
  revert fuel b. induction l as [|x l IH]; intros fuel b Hb Hf; (destruct fuel as [|fuel]; [simpl in Hf; lia|]).
  { destruct Hb as [->| ->]; done. }
  assert (∀ u, skip_blanks (b +:+ repr_str x +:+ u) = repr_str x +:+ u) as Hskip.
  { intros u. assert (skip_blanks (repr_str x +:+ u) = repr_str x +:+ u) as H.
    { unfold repr_str. change (String ?q ?b +:+ u) with (String q (b +:+ u)). by apply skip_none, quote_not_blank, repr_quote_is_quote. }
    destruct Hb as [->| ->]; [done|]. change (" " +:+ ?v) with (String " " v). by rewrite skip_one_blank. }
  assert (∀ u, read_strings (S fuel) (b +:+ repr_str x +:+ u) =
     match skip_blanks u with
     | String d rest' =>
       if Ascii.eqb d "," then (λ p : list string * string, (x :: p.1, p.2)) <$> read_strings fuel rest'
       else if Ascii.eqb d "]" then Some ([x], rest') else None
     | EmptyString => None
     end) as Hstep.
  { intros u. cbn [read_strings]. rewrite Hskip. pose proof (read_repr_str x u) as Hr. pose proof (repr_quote_is_quote x) as Hq.
    unfold repr_str in *. change (String ?q ?b +:+ u) with (String q (b +:+ u)) in *.
    cbv beta iota. assert (Ascii.eqb (repr_quote x) "]" = false) as ->.
    { unfold is_quote in Hq. apply orb_true_iff in Hq as [->%Ascii.eqb_eq| ->%Ascii.eqb_eq]; done. }
    by rewrite Hr. }
  destruct l as [|y l].
  - change (join ", " (repr_str <$> [x])) with (repr_str x). by rewrite Hstep.
  - change (join ", " (repr_str <$> (x :: y :: l))) with (repr_str x +:+ ", " +:+ join ", " (repr_str <$> (y :: l))).
    rewrite !str_app_assoc, Hstep. change (skip_blanks (", " +:+ ?v)) with (String "," (" " +:+ v)). cbn [Ascii.eqb].
    rewrite IH; [done|by right|simpl in *; lia].
Qed.

Lemma str_length_app a b : String.length (a +:+ b) = (String.length a + String.length b)%nat.
Proof. induction a as [|c a IH]; [done|]. change (String c a +:+ b) with (String c (a +:+ b)). simpl. by rewrite IH. Qed.

Lemma join_length sep ws :
  Forall (λ w, w ≠ EmptyString) ws → (length ws <= String.length (join sep ws))%nat.
Proof.
  induction 1 as [|w ws Hw Hws IH]; [done|]. destruct w as [|c w]; [done|].
  destruct ws as [|w' ws]; [simpl; lia|]. rewrite join_cons, !str_length_app by done. cbn [String.length length] in *. lia.
Qed.

Lemma value_text_list l : value_text (LList l) ("[" +:+ join ", " (repr_str <$> l) +:+ "]").
Proof.
  intros rest _. unfold read_value. rewrite skip_one_blank.
  change (("[" +:+ ?v) +:+ rest) with (String "[" (v +:+ rest)). rewrite skip_none by done.
  change (is_quote "[") with false. change (Ascii.eqb "[" "[") with true. cbn iota. rewrite str_app_assoc.
  change ("]" +:+ rest) with (String "]" rest).
  assert (Forall (λ w, w ≠ EmptyString) (repr_str <$> l)) as Hne.
  { apply Forall_fmap, Forall_true. intros x. done. }
  pose proof (join_length ", " _ Hne) as Hl. rewrite length_fmap in Hl.
  pose proof (λ fuel, read_strings_repr fuel EmptyString l rest (or_introl eq_refl)) as Hr.
  change (EmptyString +:+ ?v) with v in Hr. rewrite Hr; [done|].
  cbn [String.length]. rewrite !str_length_app. lia.
Qed.

(** ** Dictionaries *)

(** [{'k1': t1, 'k2': t2, ...}]: keys between single quotes, the values as texts. *)
Definition render_item (p : string * string) : string := "'" +:+ p.1 +:+ "': " +:+ p.2.
Definition render_dict (l : list (string * string)) : string := "{" +:+ join ", " (render_item <$> l) +:+ "}".

(** The items [vs] printed with their texts. *)
Definition printed (vs : list (string * literal)) (ts : list (string * string)) : Prop :=
  Forall2 (λ v t, v.1 = t.1 ∧ plain t.1 = true ∧ value_text v.2 t.2) vs ts.

Lemma read_item fuel acc b k v t u :
  b = EmptyString ∨ b = " " → plain k = true → value_text v t → ends_value u →
  read_items (S fuel) acc (b +:+ render_item (k, t) +:+ u) =
  match u with
  | String e rest' => if Ascii.eqb e "," then read_items fuel (dict_set k v acc) rest' else Some (dict_set k v acc, rest')
  | EmptyString => None
  end.
Proof.
  intros Hb Hk Hv Hu. unfold render_item. cbn [fst snd].
  assert (skip_blanks (b +:+ ("'" +:+ k +:+ "': " +:+ t) +:+ u) = String "'" (k +:+ String "'" (String ":" (String " " (t +:+ u))))) as Hs.
  { rewrite !str_app_assoc. by destruct Hb as [->| ->]. }
  cbn [read_items]. rewrite Hs. change (Ascii.eqb "'" "}") with false. cbn iota. cbn [read_string].
  change (is_quote "'") with true. cbn iota. rewrite (read_plain "'" k) by done.
  rewrite skip_none by done. change (Ascii.eqb ":" ":") with true. cbn [negb]. rewrite (Hv u Hu).
  destruct Hu as (u' & [->| ->]); done.
Qed.

Lemma read_items_render fuel acc b vs ts rest :
  b = EmptyString ∨ b = " " → printed vs ts → ts ≠ [] → (length ts < fuel)%nat →
  read_items fuel acc (b +:+ join ", " (render_item <$> ts) +:+ String "}" rest) =
  Some (foldl (λ d p, dict_set p.1 p.2 d) acc vs, rest).
Proof.
  intros Hb Hp. revert fuel acc b Hb. induction Hp as [|[k v] [k' t] vs ts (Hk & Hpl & Hv) Hp IH]; intros fuel acc b Hb Hne Hf; [done|].
  cbn [fst snd] in Hk, Hpl, Hv. subst k'. destruct fuel as [|fuel]; [simpl in Hf; lia|]. destruct ts as [|t' ts].
  - inversion Hp; subst. change (join ", " (render_item <$> [(k, t)])) with (render_item (k, t)).
    rewrite (read_item fuel acc b k v t) by (done || (exists rest; by right)). done.
  - change (join ", " (render_item <$> ((k, t) :: t' :: ts)))
      with (render_item (k, t) +:+ ", " +:+ join ", " (render_item <$> (t' :: ts))).
    rewrite !str_app_assoc. change (", " +:+ ?u) with (String "," (" " +:+ u)).
    rewrite (read_item fuel acc b k v t) by (done || (eexists; by left)).
    change (Ascii.eqb "," ",") with true. cbn iota. rewrite IH; [done|by right|done|simpl in *; lia].
Qed.

(** Printing a dictionary and reading it back. *)
Lemma literal_eval_render vs ts :
  printed vs ts → ts ≠ [] → NoDup vs.*1 → literal_eval_dict (render_dict ts) = Some vs.
Proof.
  intros Hp Hne Hnd. unfold literal_eval_dict, render_dict.
  change ("{" +:+ ?u) with (String "{" u). rewrite skip_none by done. change (Ascii.eqb "{" "{") with true. cbn iota.
  assert (Forall (λ w, w ≠ EmptyString) (render_item <$> ts)) as Hw by (apply Forall_fmap, Forall_true; done).
  pose proof (join_length ", " _ Hw) as Hl. rewrite length_fmap in Hl.
  pose proof (λ fuel, read_items_render fuel [] EmptyString vs ts EmptyString (or_introl eq_refl) Hp Hne) as Hr.
  change (EmptyString +:+ ?v) with v in Hr. change (String "}" EmptyString) with "}"%string in Hr. rewrite Hr.
  - cbn iota. by rewrite (dict_of_pairs [] vs).
  - cbn [String.length]. rewrite str_length_app. lia.
Qed.
