(* ===== verification/PyJson.v ===== *)
(** [json.loads]: JSON texts as Python reads them, and [str] of what they hold.

    Strings are UTF-8 bytes, so a [\u] escape is read as the bytes of its character. A number
    with a fraction or an exponent keeps its text; what [str] makes of the float is
    [float_text]. The reader is fueled by the length of the text: every value, element and
    member consumes a character. *)
From Stdlib Require Import Ascii String ZArith Lia.
From stdpp Require Import base decidable option strings numbers pretty list.
From S2P Require Import Prelude.
From S2P Require Import PyString.
From S2P Require Import PyInt.
From S2P Require Import PyVal.
From S2P Require Import PyRepr.
From S2P Require Import PyDict.
From S2P Require Import PyLiteral.
Local Open Scope Z_scope.

Inductive json : Type :=
  | JNull
  | JBool (b : bool)
  | JInt (z : Z)
  | JFloat (text : string)
  | JStr (s : string)
  | JList (l : list json)
  | JObj (d : list (string * json)).

(** ** Reading *)
Definition is_json_ws (c : ascii) : bool :=
  let n := nat_of_ascii c in ((n =? 32) || (n =? 9) || (n =? 10) || (n =? 13))%nat.
Definition skip_ws (s : string) : string := drop_while is_json_ws s.

Fixpoint hex4 (n : nat) (acc : nat) (s : string) : option (nat * string) :=
  match n, s with
  | O, _ => Some (acc, s)
  | S n', String c s' => v ← hex_value c; hex4 n' (16 * acc + v) s'
  | _, EmptyString => None
  end.

Definition byte (n : nat) : ascii := ascii_of_nat n.

(** The UTF-8 bytes of a code point, in front of [t]. *)
Definition utf8 (n : nat) (t : string) : string :=
  if (n <? 128)%nat then String (byte n) t
  else if (n <? 2048)%nat then String (byte (192 + n / 64)) (String (byte (128 + n mod 64)) t)
  else if (n <? 65536)%nat
  then String (byte (224 + n / 4096)) (String (byte (128 + n / 64 mod 64)) (String (byte (128 + n mod 64)) t))
  else String (byte (240 + n / 262144)) (String (byte (128 + n / 4096 mod 64))
         (String (byte (128 + n / 64 mod 64)) (String (byte (128 + n mod 64)) t))).

(** A [\u] escape after the [u]; a high surrogate takes a low one that follows it. *)
Definition read_unicode (s : string) : option (nat * string) :=
  p ← hex4 4 0 s;
  if (55296 <=? p.1)%nat && (p.1 <=? 56319)%nat then
    match p.2 with
    | String b (String u s2) =>
      if Ascii.eqb b backslash && Ascii.eqb u "u" then
        match hex4 4 0 s2 with
        | Some (low, s3) =>
          if (56320 <=? low)%nat && (low <=? 57343)%nat
          then Some ((65536 + (p.1 - 55296) * 1024 + (low - 56320))%nat, s3)
          else Some p
        | None => None
        end
      else Some p
    | _ => Some p
    end
  else Some p.

Definition escape_char (c : ascii) : option ascii :=
  if Ascii.eqb c double_quote || Ascii.eqb c backslash || Ascii.eqb c "/" then Some c
  else if Ascii.eqb c "b" then Some (byte 8)
  else if Ascii.eqb c "f" then Some (byte 12)
  else if Ascii.eqb c "n" then Some (byte 10)
  else if Ascii.eqb c "r" then Some (byte 13)
  else if Ascii.eqb c "t" then Some (byte 9)
  else None.

(** After the opening quote: the string and what follows the closing quote. *)
Fixpoint read_jstr (fuel : nat) (s : string) : option (string * string) :=
  match fuel, s with
  | S f, String c s' =>
    if Ascii.eqb c double_quote then Some (EmptyString, s')
    else if (nat_of_ascii c <? 32)%nat then None
    else if Ascii.eqb c backslash then
      match s' with
      | String e s2 =>
        if Ascii.eqb e "u"
        then p ← read_unicode s2; q ← read_jstr f p.2; Some (utf8 p.1 q.1, q.2)
        else c' ← escape_char e; q ← read_jstr f s2; Some (String c' q.1, q.2)
      | EmptyString => None
      end
    else q ← read_jstr f s'; Some (String c q.1, q.2)
  | _, _ => None
  end.

(** The fraction and exponent of a number, when they are there. *)
Definition read_frac (s : string) : string * string :=
  match s with
  | String c s' =>
    if Ascii.eqb c "." then
      let '(d, r) := span_digits s' in if truthy d then (String c d, r) else (EmptyString, s)
    else (EmptyString, s)
  | EmptyString => (EmptyString, s)
  end.
Definition read_exp (s : string) : string * string :=
  match s with
  | String c s' =>
    if Ascii.eqb c "e" || Ascii.eqb c "E" then
      let '(sign, s2) := match s' with
                         | String g s2 => if Ascii.eqb g "+" || Ascii.eqb g "-" then (String g EmptyString, s2) else (EmptyString, s')
                         | EmptyString => (EmptyString, s')
                         end in
      let '(d, r) := span_digits s2 in if truthy d then (String c (sign +:+ d), r) else (EmptyString, s)
    else (EmptyString, s)
  | EmptyString => (EmptyString, s)
  end.

(** [0|[1-9]\d*]: a leading zero stands alone. *)
Definition read_whole (s : string) : option (string * string) :=
  match s with
  | String c s' =>
    if Ascii.eqb c "0" then Some ("0", s')
    else if is_digit c then let '(d, r) := span_digits s' in Some (String c d, r)
    else None
  | EmptyString => None
  end.

Definition read_number (s : string) : option (json * string) :=
  let '(sign, s1) := match s with
                     | String c s' => if Ascii.eqb c "-" then ("-", s') else (EmptyString, s)
                     | EmptyString => (EmptyString, s)
                     end in
  w ← read_whole s1;
  let '(frac, s2) := read_frac w.2 in
  let '(ex, s3) := read_exp s2 in
  if truthy frac || truthy ex then Some (JFloat (sign +:+ w.1 +:+ frac +:+ ex), s3)
  else z ← int_body w.1; Some (JInt (if truthy sign then - z else z), s3).

Definition read_const (s : string) : option (json * string) :=
  if startswith "null" s then Some (JNull, str_drop 4 s)
  else if startswith "true" s then Some (JBool true, str_drop 4 s)
  else if startswith "false" s then Some (JBool false, str_drop 5 s)
  else if startswith "NaN" s then Some (JFloat "NaN", str_drop 3 s)
  else if startswith "Infinity" s then Some (JFloat "Infinity", str_drop 8 s)
  else if startswith "-Infinity" s then Some (JFloat "-Infinity", str_drop 9 s)
  else None.

Fixpoint read_json (fuel : nat) (s : string) {struct fuel} : option (json * string) :=
  match fuel, s with
  | S f, String c s' =>
    if Ascii.eqb c double_quote then p ← read_jstr f s'; Some (JStr p.1, p.2)
    else if Ascii.eqb c "[" then
      match skip_ws s' with
      | String d s2 => if Ascii.eqb d "]" then Some (JList [], s2)
                       else p ← read_elements f (String d s2); Some (JList p.1, p.2)
      | EmptyString => None
      end
    else if Ascii.eqb c "{" then
      match skip_ws s' with
      | String d s2 => if Ascii.eqb d "}" then Some (JObj [], s2)
                       else p ← read_members f [] (String d s2); Some (JObj p.1, p.2)
      | EmptyString => None
      end
    else match read_const s with Some r => Some r | None => read_number s end
  | _, _ => None
  end
with read_elements (fuel : nat) (s : string) {struct fuel} : option (list json * string) :=
  match fuel with
  | O => None
  | S f =>
    v ← read_json f s;
    match skip_ws v.2 with
    | String d s2 =>
      if Ascii.eqb d "]" then Some ([v.1], s2)
      else if Ascii.eqb d "," then p ← read_elements f (skip_ws s2); Some (v.1 :: p.1, p.2)
      else None
    | EmptyString => None
    end
  end
with read_members (fuel : nat) (acc : list (string * json)) (s : string) {struct fuel} : option (list (string * json) * string) :=
  match fuel, s with
  | S f, String q s1 =>
    if Ascii.eqb q double_quote then
      k ← read_jstr f s1;
      match skip_ws k.2 with
      | String d s2 =>
        if Ascii.eqb d ":" then
          v ← read_json f (skip_ws s2);
          let acc' := dict_set k.1 v.1 acc in
          match skip_ws v.2 with
          | String e s3 =>
            if Ascii.eqb e "}" then Some (acc', s3)
            else if Ascii.eqb e "," then read_members f acc' (skip_ws s3)
            else None
          | EmptyString => None
          end
        else None
      | EmptyString => None
      end
    else None
  | _, _ => None
  end.

(** [json.loads(s)]; [None] is [JSONDecodeError]. *)
Definition json_loads (s : string) : option json :=
  p ← read_json (2 * String.length s) (skip_ws s);
  match skip_ws p.2 with EmptyString => Some p.1 | _ => None end.

Example json_loads_ex :
  json_loads " [1, -20, [ ], {}, 1.5e3, true,null] " =
    Some (JList [JInt 1; JInt (-20); JList []; JObj []; JFloat "1.5e3"; JBool true; JNull]).
Proof. vm_compute. reflexivity. Qed.

(** ** [str] of what was read *)
Class PyFloat : Type := {
  float_text : string → string;
  (** [int(x)] ([None]: it raises) and [x == z] of the float a text stands for. *)
  float_int : string → option Z;
  float_eqb : string → Z → bool
}.

Section Text.
Context {FT : PyFloat}.

Fixpoint json_repr (j : json) : string :=
  match j with
  | JNull => "None"
  | JBool b => if b then "True" else "False"
  | JInt z => str_Z z
  | JFloat t => float_text t
  | JStr s => repr_str s
  | JList l => "[" +:+ join ", " (json_repr <$> l) +:+ "]"
  | JObj d => "{" +:+ join ", " ((λ p : string * json, repr_str p.1 +:+ ": " +:+ json_repr p.2) <$> d) +:+ "}"
  end.

Definition json_str (j : json) : string := match j with JStr s => s | _ => json_repr j end.

(** [int(j)] ([None]: it raises) and [j == z]. *)
Definition json_int (j : json) : option Z :=
  match j with
  | JInt z => Some z
  | JBool b => Some (if b then 1 else 0)
  | JFloat t => float_int t
  | JStr s => py_int s
  | _ => None
  end.
Definition json_eqb_int (j : json) (z : Z) : bool :=
  match j with
  | JInt z' => z' =? z
  | JBool b => (if b then 1 else 0) =? z
  | JFloat t => float_eqb t z
  | _ => false
  end.
End Text.

(** [bool(v)] and [d.get(key)]. *)
#[export] Instance truthy_json : Truthy json :=
  λ j, match j with
       | JNull => false
       | JBool b => b
       | JInt z => truthy z
       | JFloat _ => true
       | JStr s => truthy s
       | JList l => match l with [] => false | _ => true end
       | JObj d => match d with [] => false | _ => true end
       end.

(** ** A list of plain strings is read back *)
Definition dquoted (s : string) : string := String double_quote (s +:+ String double_quote EmptyString).

Lemma read_jstr_plain f s t :
  plain s = true → (String.length s < f)%nat → read_jstr f (s +:+ String double_quote t) = Some (s, t).
Proof.
  revert f. induction s as [|c s IH]; intros f Hp Hf; destruct f as [|f]; cbn [String.length] in Hf; try lia; [done|].
  change (String c s +:+ String double_quote t) with (String c (s +:+ String double_quote t)).
  cbn [plain] in Hp. apply andb_true_iff in Hp as [Hc Hp]. unfold plain_char in Hc.
  rewrite !andb_true_iff, !negb_true_iff in Hc. destruct Hc as [[[[H32 _] _] Hd] Hb].
  cbn [read_jstr]. rewrite Hd, Hb. replace (nat_of_ascii c <? 32)%nat with false by (symmetry; apply Nat.ltb_ge; by apply Nat.leb_le).
  rewrite IH by (done || lia). done.
Qed.

Lemma read_elements_plain f ws t :
  ws ≠ [] → Forall (λ w, plain w = true) ws →
  (2 * String.length (join ", " (dquoted <$> ws)) + 1 <= f)%nat →
  read_elements f (join ", " (dquoted <$> ws) +:+ String "]" t) = Some (JStr <$> ws, t).
Proof.
  revert f. induction ws as [|w ws IH]; intros f Hne Hp Hf; [done|].
  apply Forall_cons in Hp as [Hw Hp]. destruct (decide (ws = [])) as [->|Hws].
  - cbn [fmap list_fmap join] in *. unfold dquoted in *. cbn [String.length] in Hf.
    rewrite str_length_app in Hf. cbn [String.length] in Hf. do 2 (destruct f as [|f]; [lia|]).
    cbn [read_elements]. rewrite (str_app_assoc (String double_quote w)) || idtac.
    change (String double_quote (w +:+ String double_quote EmptyString) +:+ String "]" t)
      with (String double_quote ((w +:+ String double_quote EmptyString) +:+ String "]" t)).
    rewrite str_app_assoc. cbn [read_json]. rewrite Ascii.eqb_refl.
    change (String double_quote EmptyString +:+ String "]" t) with (String double_quote (String "]" t)).
    rewrite read_jstr_plain by (done || lia). done.
  - change (dquoted <$> w :: ws) with (dquoted w :: (dquoted <$> ws)) in *.
    rewrite join_cons in * by (by destruct ws). unfold dquoted at 1 in Hf. unfold dquoted at 1.
    rewrite !str_length_app in Hf. cbn [String.length] in Hf. rewrite !str_length_app in Hf.
    cbn [String.length] in Hf. destruct f as [|f]; [lia|]. destruct f as [|f]; [lia|].
    change (String double_quote (w +:+ String double_quote EmptyString) +:+ ", " +:+ join ", " (dquoted <$> ws))
      with (String double_quote ((w +:+ String double_quote EmptyString) +:+ ", " +:+ join ", " (dquoted <$> ws))).
    rewrite !str_app_assoc. set (rest := join ", " (dquoted <$> ws)) in *.
    change (String double_quote (w +:+ String double_quote EmptyString +:+ ", " +:+ rest) +:+ String "]" t)
      with (String double_quote ((w +:+ String double_quote EmptyString +:+ ", " +:+ rest) +:+ String "]" t)).
    rewrite !str_app_assoc.
    change (String double_quote EmptyString +:+ ", " +:+ rest +:+ String "]" t)
      with (String double_quote (", " +:+ rest +:+ String "]" t)).
    remember (S f) as f' eqn:Ef. cbn [read_elements]. rewrite Ef. cbn [read_json]. rewrite Ascii.eqb_refl.
    rewrite read_jstr_plain by (done || lia). cbn [mbind option_bind fst snd].
    change (", " +:+ rest +:+ String "]" t) with (String "," (String " " (rest +:+ String "]" t))).
    assert (skip_ws (String " " (rest +:+ String "]" t)) = rest +:+ String "]" t) as Hskip.
    { unfold rest. destruct ws as [|w' ws']; [done|]. cbn [fmap list_fmap join]. by destruct (dquoted <$> ws'). }
    change (skip_ws (String "," (String " " (rest +:+ String "]" t)))) with (String "," (String " " (rest +:+ String "]" t))).
    cbn [Ascii.eqb Bool.eqb]. cbv iota. rewrite Hskip. rewrite <-Ef, IH by (done || lia). done.
Qed.

(** A JSON list of plain strings is read back as those strings. *)
Lemma json_loads_words ws :
  ws ≠ [] → Forall (λ w, plain w = true) ws →
  json_loads ("[" +:+ join ", " (dquoted <$> ws) +:+ "]") = Some (JList (JStr <$> ws)).
Proof.
  intros Hne Hp. unfold json_loads.
  change ("[" +:+ ?x) with (String "[" x). cbn [String.length].
  set (b := join ", " (dquoted <$> ws)). rewrite str_length_app. cbn [String.length].
  change (skip_ws (String "[" (b +:+ "]"))) with (String "[" (b +:+ "]")).
  assert (∃ b', b +:+ "]" = String double_quote b') as [b' Hb].
  { unfold b. destruct ws as [|w ws']; [done|]. cbn [fmap list_fmap join].
    destruct (dquoted <$> ws'); eexists; reflexivity. }
  replace (2 * S (String.length b + 1))%nat with (S (2 * String.length b + 3)) by lia.
  pose proof (read_elements_plain (2 * String.length b + 3) ws EmptyString Hne Hp ltac:(fold b; lia)) as He.
  fold b in He. change (String "]" EmptyString) with "]" in He. rewrite Hb in *.
  set (f := (2 * String.length b + 3)%nat) in *. cbn [read_json].
  change (skip_ws (String double_quote b')) with (String double_quote b').
  cbn [Ascii.eqb Bool.eqb]. by rewrite He.
Qed.
