(* ===== verification/Effects.v ===== *)
(** Effectful Python code: a state and exception monad.

    An action runs on a state and either returns or raises; an exception keeps
    the state changes made before it, as in Python. [try_except] is [try ... except
    Exception]: exceptions outside [Exception] ([KeyboardInterrupt] and the like)
    pass through it. *)
From stdpp Require Import base decidable option strings numbers gmap sets list.
From S2P Require Import Prelude.

Section Actions.
Context {S E : Type}.

Definition act (A : Type) : Type := S → S * outcome E A.

Definition ret {A} (a : A) : act A := λ s, (s, Ok a).
Definition raise {A} (x : E) : act A := λ s, (s, Err x).
Definition bind {A B} (m : act A) (k : A → act B) : act B :=
  λ s, match m s with
       | (s', Ok a) => k a s'
       | (s', Err x) => (s', Err x)
       end.
Definition modify (f : S → S) : act unit := λ s, (f s, Ok tt).
Definition gets {A} (f : S → A) : act A := λ s, (s, Ok (f s)).

Definition try_except {A} (is_exception : E → bool) (m : act A) (handler : E → act A) : act A :=
  λ s, match m s with
       | (s', Ok a) => (s', Ok a)
       | (s', Err x) => if is_exception x then handler x s' else (s', Err x)
       end.

(** The outcome of [m] as a value, for the clauses of a [try] to look at. *)
Definition caught {A} (m : act A) : act (outcome E A) := λ s, let '(s', r) := m s in (s', Ok r).

(** [try: m finally: f]: [f] runs on every end of [m]; an exception of [f] replaces [m]'s. *)
Definition try_finally {A} (m : act A) (f : act unit) : act A :=
  λ s, match m s with
       | (s', r) => match f s' with
                    | (s'', Ok _) => (s'', r)
                    | (s'', Err x) => (s'', Err x)
                    end
       end.

(** [for x in l: body], a body that returns [true] returns from the function. *)
Fixpoint for_until {A} (l : list A) (body : A → act bool) : act bool :=
  match l with
  | [] => ret false
  | x :: l' => bind (body x) (λ b, if b : bool then ret true else for_until l' body)
  end.

Fixpoint for_each {A} (l : list A) (body : A → act unit) : act unit :=
  match l with
  | [] => ret tt
  | x :: l' => bind (body x) (λ _, for_each l' body)
  end.
End Actions.

Arguments act : clear implicits.

Notation "'let!' x ':=' m 'in' k" := (bind m (λ x, k))
  (at level 10, x pattern, m at level 100, k at level 200, right associativity) : py_scope.
Notation "m ';;;' k" := (bind m (λ _, k)) (at level 100, right associativity) : py_scope.

(** An invariant of the state that an action keeps, whether it returns or raises. *)
Definition keeps_state {S E A} (P : S → Prop) (m : act S E A) : Prop := ∀ s, P s → P (m s).1.

Lemma keeps_state_bind {S E A B} (P : S → Prop) (m : act S E A) (k : A → act S E B) :
  keeps_state P m → (∀ a, keeps_state P (k a)) → keeps_state P (bind m k).
Proof.
  intros Hm Hk s Hs. unfold bind. specialize (Hm s Hs). destruct (m s) as [s' [a|x]]; [by apply Hk|done].
Qed.

Lemma keeps_state_try {S E A} (P : S → Prop) ie (m : act S E A) h :
  keeps_state P m → (∀ x, keeps_state P (h x)) → keeps_state P (try_except ie m h).
Proof.
  intros Hm Hh s Hs. unfold try_except. specialize (Hm s Hs). destruct (m s) as [s' [a|x]]; [done|].
  destruct (ie x); [by apply Hh|done].
Qed.

Lemma keeps_state_finally {S E A} (P : S → Prop) (m : act S E A) f :
  keeps_state P m → keeps_state P f → keeps_state P (try_finally m f).
Proof.
  intros Hm Hf s Hs. unfold try_finally. specialize (Hm s Hs). destruct (m s) as [s' r].
  specialize (Hf s' Hm). by destruct (f s') as [s'' [|]].
Qed.

Lemma keeps_state_ret {S E A} (P : S → Prop) (a : A) : keeps_state (E := E) P (ret a).
Proof. by intros s Hs. Qed.

Lemma keeps_state_raise {S E A} (P : S → Prop) (x : E) : keeps_state (A := A) P (raise x).
Proof. by intros s Hs. Qed.

Lemma keeps_state_for_each {S E A} (P : S → Prop) (l : list A) (b : A → act S E unit) :
  (∀ x, keeps_state P (b x)) → keeps_state P (for_each l b).
Proof.
  intros Hb. induction l as [|x l IH]; simpl; [apply keeps_state_ret|]. apply keeps_state_bind; auto.
Qed.

Create HintDb effects.
#[export] Hint Resolve keeps_state_bind keeps_state_try keeps_state_ret keeps_state_raise
  keeps_state_for_each : effects.
