(* ===== verification/CloudCalls.v ===== *)
(** * Calls to the cloud APIs

    What the reservation and cleanup code asks of AWS, GCE, Azure, OCI, docker and the other
    services it drives. None of these services is part of the repository: a cloud is any
    function that answers a call given the calls made before it and their answers, so answers
    may depend on time and on what the code did, and every call may fail. The calls and their
    answers, in order, are part of the state of an action. *)
From Stdlib Require Import Ascii String ZArith Lia.
From stdpp Require Import base decidable option strings numbers list.
From S2P Require Import Prelude.
From S2P Require Import PyString.
From S2P Require Import PyDict.
From S2P Require Import Effects.
Local Open Scope py_scope.

Module Cloud.
(** ** Tags *)

(** The values of the tags to look for: one value or a list of allowed ones. *)
Inductive tagval : Type := TStr (s : string) | TList (l : list string).
Abbreviation tags_dict := (list (string * tagval)) (only parsing).
(** The tags of a resource. *)
Abbreviation tags := (list (string * string)) (only parsing).

Definition tag_allows (v : tagval) (s : string) : bool :=
  match v with TStr s' => String.eqb s s' | TList l => bool_decide (s ∈ l) end.

#[export] Instance truthy_tagval : Truthy tagval :=
  λ v, match v with TStr s => truthy s | TList l => truthy l end.

(** Values of [NodeType] and the like as a list. *)
Definition tag_values (v : tagval) : list string := match v with TStr s => [s] | TList l => l end.

(** ** Resources *)
Record resource := Resource { r_id : string; r_name : string; r_tags : tags; r_state : string }.
(** An elastic IP and its association. *)
Record address := Address { a_allocation : string; a_association : option string }.
Record reservation := Reservation { cr_zone : string; cr_type : string; cr_id : string }.
Record group := Group { pg_name : string; pg_arn : string; pg_state : string }.
Record host := Host { h_id : string; h_zone : string; h_type : string }.
Record template := Template { lt_name : option string; lt_id : string }.

(** A test runner's instance on its provider: its tags (for GCE its metadata), the labels of a
    GCE instance, its public addresses and when it was created. *)
Inductive provider : Type := Aws | Gce | Azure | Oci.
#[export] Instance provider_eq_dec : EqDecision provider.
Proof. solve_decision. Defined.
Record rinstance := RInstance {
  ri_id : string; ri_name : string; ri_tags : tags; ri_labels : tags; ri_zone : string;
  ri_ips : list string; ri_created : option Z }.

(** A filter of the EC2 API: an attribute and its allowed values. *)
Record ec2_filter := Filter { f_name : string; f_values : list string }.

Inductive cexn : Type :=
  | ClientError | AssertionError | IndexError | KeyError | TypeError | ValueError | TimeoutError | EnvironmentError
  | CapacityReservationError | ParallelObjectException | VolumeAttached | OtherError.
#[export] Instance cexn_eq_dec : EqDecision cexn.
Proof. solve_decision. Defined.

(** ** Calls *)
Inductive call : Type :=
  | Sleep (seconds : Z)
  (* EC2, per region *)
  | DescribeReservations (region : string) (filters : list ec2_filter)
  | CreateReservation (region zone itype : string) (count minutes : Z) (group_arn : option string)
  | CancelReservation (region id : string)
  | DescribeOfferings (region : string) (itypes : list string)
  | DescribeGroups (region : string) (filters : list ec2_filter)
  | DeleteGroup (region name : string)
  | DescribeHosts (region : string) (ids : option (list string)) (filters : list ec2_filter)
  | AllocateHost (region zone itype : string) (quantity : Z) (t : tags)
  | ReleaseHosts (region : string) (ids : list string)
  | DescribeInstances (region : string) (filters : list ec2_filter)
  | TerminateInstance (region id : string)
  | DescribeSpotFleets (region : string)
  | CancelSpotFleets (region : string) (ids : list string)
  | DescribeAddresses (region : string) (filters : list ec2_filter)
  | DisassociateAddress (region association : string)
  | ReleaseAddress (region allocation : string)
  | DescribeSecurityGroups (region : string) (filters : list ec2_filter)
  | DeleteSecurityGroup (region id : string)
  | GetResources (region rtype : string) (filters : list (string * tagval))
  | DeleteLoadBalancer (region name : string)
  | DeleteStack (region name : string)
  | DescribeLaunchTemplates (region : string) (filters : list (string * tagval))
  | DeleteLaunchTemplate (region name_or_id : string)
  | ListEmrClusters (region : string)
  | TerminateJobFlow (region id : string)
  | DeleteKmsAlias (regions : list string) (alias : string)
  (* Kubernetes clusters *)
  | ListEksClusters (region : string)
  | DescribeEksCluster (region name : string)
  | DestroyEksCluster (region name : string)
  | ListGkeClusters (project : string)
  | DestroyGkeCluster (project name : string)
  | ListOrphanedGkeDisks (project : string)
  | DeleteGkeDisks (project zone : string) (names : list string)
  (* GCE *)
  | ListGceInstances (project : string)
  | DeleteGceInstance (project name zone : string)
  (* Azure, per provisioner: a test in a region *)
  | DiscoverAzureRegions (test_id : string) (regions : list string)
  | ListAzureInstances (region : string)
  | CleanupAzureRegion (region : string)
  | TerminateAzureInstance (region name : string)
  (* docker on this machine *)
  | CurrentContainerId
  | DockerInfo
  | ListContainers (labels : list string)
  | ReloadContainer (id : string)
  | RemoveContainer (id : string)
  | ListImages (labels : list string)
  | RemoveImage (id : string)
  (* OCI *)
  | ListOciInstances (region : string)
  | StopOciInstance (region id : string)
  | TerminateOciInstance (region id : string)
  | ListOciVolumes (region : string)
  | DeleteOciVolume (region id : string)
  (* reports and files of the run *)
  | TerminateInArgus (name : string)
  | ReportCosts (names : list string)
  | DeleteResolvedPlacement (test_id : string)
  (* the runners of tests *)
  | ListRunners (p : provider)
  | ReadTimeoutEvents (node : string) (test_id : option string)
  | TagRunner (p : provider) (id : string) (t : tags)
  | TerminateRunner (p : provider) (id : string)
  (* backends whose cleanup is not modelled *)
  | CleanBaremetal (t : tags_dict)
  | CleanScyllaCloud (t : tags_dict).

(** GCE instances have a zone, Azure provisioners are known by their region. *)
Record gce_instance := GceInstance { gi_resource : resource; gi_zone : string }.

Definition resp (c : call) : Type :=
  match c with
  | DescribeReservations _ _ => list reservation
  | CreateReservation _ _ _ _ _ _ => string
  | DescribeOfferings _ _ => list (string * string) (* instance type, zone *)
  | DescribeGroups _ _ => list group
  | DescribeHosts _ _ _ => list host
  | AllocateHost _ _ _ _ _ => list string
  | ReleaseHosts _ _ => bool (* some were not released *)
  | DescribeInstances _ _ | DescribeSpotFleets _ => list resource
  | DescribeAddresses _ _ => list address
  | DescribeSecurityGroups _ _ | GetResources _ _ _ => list string
  | DescribeLaunchTemplates _ _ => list template
  | ListEmrClusters _ => list resource
  | ListEksClusters _ => list string
  | DescribeEksCluster _ _ => resource
  | ListGkeClusters _ => list resource
  | ListOrphanedGkeDisks _ => list (string * list string)
  | ListGceInstances _ => list gce_instance
  | DiscoverAzureRegions _ _ => list string
  | ListAzureInstances _ | ListContainers _ | ListOciInstances _ | ListOciVolumes _ => list resource
  | CurrentContainerId => option string
  | ReloadContainer _ => resource
  | ListImages _ => list string
  | ListRunners _ => list rinstance
  | ReadTimeoutEvents _ _ => option string
  | _ => unit
  end.

Record event := Event { ev_call : call; ev_answer : outcome cexn (resp ev_call) }.

(** ** Actions *)
Section Actions.
Context {P : Type} (cloud : list event → ∀ c : call, outcome cexn (resp c)).

Record cstate := CState { hist : list event; own : P }.
Abbreviation action := (act cstate cexn).

Definition api (c : call) : action (resp c) :=
  λ s, let r := cloud (hist s) c in (CState (hist s ++ [Event c r]) (own s), r).

(** [time.sleep], which does not fail. *)
Definition pause (seconds : Z) : action unit :=
  λ s, (CState (hist s ++ [Event (Sleep seconds) (Ok tt)]) (own s), Ok tt).

Definition get_own {A} (f : P → A) : action A := gets (λ s, f (own s)).
Definition set_own (f : P → P) : action unit := modify (λ s, CState (hist s) (f (own s))).

(** [try: m except Exception: pass], for one exception or all of them. *)
Definition ignoring (which : cexn → bool) (m : action unit) : action unit :=
  try_except which m (λ _, ret tt).

(** [retrying(n=n, sleep_time=seconds, allowed_exceptions=(ClientError,))], which sleeps after
    its last attempt too. *)
Fixpoint retrying (n : nat) (seconds : Z) (m : action unit) : action unit :=
  match n with
  | O => ret tt
  | S n' =>
    try_except (λ x, match x with ClientError => true | _ => false end) m (λ x,
      bind (pause seconds) (λ _, match n' with O => raise x | S _ => retrying n' seconds m end))
  end.

(** A scan of regions that keeps what could be read, by region. *)
Fixpoint by_region {A} (scan : string → action A) (regions : list string) (found : list (string * A))
    : action (list (string * A)) :=
  match regions with
  | [] => ret found
  | region :: regions' =>
    bind (caught (scan region)) (λ r, by_region scan regions' (match r with Ok a => dict_set region a found | Err _ => found end))
  end.

(** What an action adds to the history. *)
Definition emits {A} (Q : event → Prop) (m : action A) : Prop :=
  ∀ s, ∃ new, hist (m s).1 = hist s ++ new ∧ Forall Q new.

Lemma emits_ret {A} Q (a : A) : emits Q (ret a).
Proof. intros s. exists []. by rewrite app_nil_r. Qed.
Lemma emits_raise {A} Q x : emits Q (raise (A := A) x).
Proof. intros s. exists []. by rewrite app_nil_r. Qed.
Lemma emits_get {A} Q (f : P → A) : emits Q (get_own f).
Proof. intros s. exists []. by rewrite app_nil_r. Qed.
Lemma emits_set Q f : emits Q (set_own f).
Proof. intros s. exists []. by rewrite app_nil_r. Qed.
Lemma emits_api (Q : event → Prop) c : (∀ h, Q (Event c (cloud h c))) → emits Q (api c).
Proof. intros H s. eexists. split; [done|]. by repeat constructor. Qed.

Lemma emits_pause (Q : event → Prop) z : Q (Event (Sleep z) (Ok tt)) → emits Q (pause z).
Proof. intros H s. eexists. split; [done|]. by repeat constructor. Qed.

(** A continuation only has to keep to [Q] for the answers that the first action gives. *)
Definition gives {A} (m : action A) (R : A → Prop) : Prop := ∀ s a, (m s).2 = Ok a → R a.

Lemma emits_bind {A B} Q (m : action A) (k : A → action B) R :
  emits Q m → gives m R → (∀ a, R a → emits Q (k a)) → emits Q (bind m k).
Proof.
  intros Hm Hg Hk s. destruct (Hm s) as (n1 & E1 & F1). specialize (Hg s). unfold bind. destruct (m s) as [s' [a|x]]; simpl in *.
  - destruct (Hk a (Hg a eq_refl) s') as (n2 & E2 & F2). exists (n1 ++ n2).
    rewrite E2, E1, <- (assoc_L (++)). split; [done|]. by apply Forall_app.
  - eauto.
Qed.
Lemma emits_bind_all {A B} Q (m : action A) (k : A → action B) :
  emits Q m → (∀ a, emits Q (k a)) → emits Q (bind m k).
Proof. intros Hm Hk. apply (emits_bind _ _ _ (λ _, True)); [done|by intros ?|auto]. Qed.

Lemma emits_for_each {A} Q (l : list A) (body : A → action unit) :
  (∀ x, x ∈ l → emits Q (body x)) → emits Q (for_each l body).
Proof.
  induction l as [|x l IH]; intros H; simpl; [apply emits_ret|].
  apply emits_bind_all; [apply H; left|]. intros _. apply IH. intros y Hy. apply H. by right.
Qed.

Lemma emits_try {A} Q which (m : action A) h : emits Q m → (∀ x, emits Q (h x)) → emits Q (try_except which m h).
Proof.
  intros Hm Hh s. destruct (Hm s) as (n1 & E1 & F1). unfold try_except.
  destruct (m s) as [s' [a|x]]; simpl in *; [eauto|]. destruct (which x); simpl; [|eauto].
  destruct (Hh x s') as (n2 & E2 & F2). exists (n1 ++ n2). rewrite E2, E1, <- (assoc_L (++)). split; [done|]. by apply Forall_app.
Qed.
Lemma emits_ignoring Q which m : emits Q m → emits Q (ignoring which m).
Proof. intros H. apply emits_try; [done|]. intros. apply emits_ret. Qed.
Lemma emits_retrying (Q : event → Prop) n z m : Q (Event (Sleep z) (Ok tt)) → emits Q m → emits Q (retrying n z m).
Proof.
  intros Hz Hm. induction n as [|n IH]; simpl; [apply emits_ret|]. apply emits_try; [done|]. intros x.
  apply emits_bind_all; [by apply emits_pause|]. intros _. destruct n; [apply emits_raise|done].
Qed.
Lemma emits_caught {A} Q (m : action A) : emits Q m → emits Q (caught m).
Proof. intros Hm s. destruct (Hm s) as (n & E & F). unfold caught. destruct (m s). eauto. Qed.
Lemma emits_weaken {A} (Q Q' : event → Prop) (m : action A) : (∀ e, Q e → Q' e) → emits Q m → emits Q' m.
Proof. intros H Hm s. destruct (Hm s) as (n & E & F). exists n. split; [done|]. by eapply Forall_impl. Qed.

Lemma gives_api (c : call) (R : resp c → Prop) : (∀ h a, cloud h c = Ok a → R a) → gives (api c) R.
Proof. intros H s a. apply H. Qed.
Lemma gives_ret {A} (a : A) (R : A → Prop) : R a → gives (ret a) R.
Proof. intros H s a' [= <-]. done. Qed.
Lemma gives_bind {A B} (m : action A) (k : A → action B) R R' :
  gives m R → (∀ a, R a → gives (k a) R') → gives (bind m k) R'.
Proof.
  intros Hm Hk s b. unfold bind. specialize (Hm s). destruct (m s) as [s' [a|x]]; [|done]. apply Hk. by apply Hm.
Qed.
Lemma gives_any {A} (m : action A) : gives m (λ _, True).
Proof. by intros s a. Qed.
Lemma gives_caught {A} (m : action A) R : gives m R → gives (caught m) (λ r, match r with Ok a => R a | Err _ => True end).
Proof. intros Hm s r. unfold caught. specialize (Hm s). destruct (m s) as [s' [a|x]]; intros [= <-]; [by apply Hm|done]. Qed.

Lemma emits_by_region {A} Q (scan : string → action A) regions found :
  (∀ region, emits Q (scan region)) → emits Q (by_region scan regions found).
Proof.
  intros H. revert found. induction regions as [|r regions IH]; intros found; simpl; [apply emits_ret|].
  apply emits_bind_all; [by apply emits_caught|]. intros []; apply IH.
Qed.

Lemma gives_by_region {A} (scan : string → action A) (R : string → A → Prop) regions found :
  (∀ region, gives (scan region) (R region)) → Forall (λ ra, R ra.1 ra.2) found →
  gives (by_region scan regions found) (Forall (λ ra, R ra.1 ra.2)).
Proof.
  intros H. revert found. induction regions as [|r regions IH]; intros found Hf s a; simpl; [by intros [= <-]|].
  unfold bind, caught. specialize (H r s). destruct (scan r s) as [s1 [x|x]]; simpl in *; apply IH; [|done].
  apply dict_set_Forall; [done|by apply H].
Qed.
End Actions.
Arguments cstate : clear implicits.

Create HintDb cloud.
#[export] Hint Resolve emits_ret emits_raise emits_get emits_set emits_bind_all emits_for_each emits_try
  emits_ignoring emits_caught : cloud.
End Cloud.
