(* ===== verification/TriggerVersions.v ===== *)
(** Scylla version strings of the trigger matrix (sdcm/utils/trigger_matrix/versions.py, the
    version patterns of sdcm/utils/version_utils.py, gce_image_version_label of
    sdcm/utils/common.py).

    The patterns are regular expressions of PyRegex. A pattern's named groups are read off the
    matched text: no group of these patterns can end in two ways, except that of
    SCYLLA_VERSION_GROUPED_RE, whose first group is tried from its longest match down.
    [\d] and [\w] are the ASCII classes. *)
From Stdlib Require Import Ascii String ZArith Lia.
From stdpp Require Import base decidable option strings numbers list.
From S2P Require Import Prelude.
From S2P Require Import PyString.
From S2P Require Import PyRegex.
From S2P Require Import PyInt.
From S2P Require Import PyVal.
From S2P Require Import PyRepr.
From S2P Require Import PyDict.
From S2P Require Import PyLiteral.
Local Open Scope py_scope.

Module TriggerVersions.

(** The exceptions of the trigger matrix and of its Jenkins client. [NotFoundException] is a
    [JenkinsException]; [JSONDecodeError] is an answer that is not JSON; [OtherError] stands for
    the rest. *)
Inductive texn : Type :=
  | TriggerMatrixError
  | MatrixValidationError
  | JenkinsTriggerError
  | JenkinsException
  | NotFoundException
  | JSONDecodeError
  | OtherError.
#[export] Instance texn_eq_dec : EqDecision texn.
Proof. solve_decision. Defined.

(** ** Patterns *)
Definition RDigits : re := RPlus RDigit.
Definition RDate : re := RTimes 8 RDigit.
Definition RSha : re := RPlus (RChar is_hex).

Definition FULL_VERSION_TAG_RE : re :=
  RSeqs [RDigits; RLit "."; RDigits; RLit "."; RDigits;
         RAlt (RSeqs [RChar (one_of "~-"); RPlus (RChar (λ c, is_alnum c || one_of "._~" c)); ROpt (RLit "-");
                      RStar RDigit; RLit "."; RDate; RLit "."; RSha; ROpt (RSeq (RLit "-") RDigits)])
              (RSeqs [RLit ".rc"; RDigits; RLit "."; RDigits; RLit "."; RDate; RLit "."; RSha; ROpt (RSeq (RLit ".") RDigits)])].

Definition RC_VERSION_TAG_RE : re :=
  RSeqs [RDigits; RLit "."; RDigits; RLit "."; RDigits; RLit ".rc"; RDigits; RLit "."; RDigits; RLit "."; RDate; RLit "."; RSha].

Definition RELEASE_VERSION_RE : re := RSeqs [RDigits; RLit "."; RDigits; RLit "."; RDigits].

Definition SIMPLE_VERSION_RE : re := RSeqs [RDigits; RLit "."; RDigits; ROpt (RSeq (RLit ".") RDigits)].

Definition BRANCH_VERSION_RE : re :=
  RSeqs [RPlus (RChar (λ c, is_alnum c || one_of "._-" c)); RLit ":"; RPlus (RChar not_newline)].

(** The groups [major] and [minor] of a text that starts with [\d+\.\d+]. *)
Definition major_minor (s : string) : string * string :=
  let '(major, rest) := span_digits s in (major, (span_digits (str_drop 1 rest)).1).

Definition branch_match (s : string) : option string :=
  if anchored BRANCH_VERSION_RE s then Some (split_once ":" s).1 else None.
Definition full_match (s : string) : option (string * string) :=
  if anchored FULL_VERSION_TAG_RE s then Some (major_minor s) else None.
Definition simple_match (s : string) : option (string * string) :=
  if anchored SIMPLE_VERSION_RE s then Some (major_minor s) else None.

(** ** versions.py *)
Definition is_full_version_tag (version : string) : bool := anchored FULL_VERSION_TAG_RE version.

Definition is_resolvable_partial_version (scylla_version : string) : bool :=
  if negb (truthy scylla_version) || is_full_version_tag scylla_version || anchored RELEASE_VERSION_RE scylla_version
  then false
  else anchored BRANCH_VERSION_RE scylla_version || anchored SIMPLE_VERSION_RE scylla_version.

Definition _as_branch_qualifier (scylla_version : string) : string :=
  if anchored BRANCH_VERSION_RE scylla_version then scylla_version
  else match simple_match scylla_version with
       | Some (major, minor) => "branch-" +:+ major +:+ "." +:+ minor +:+ ":latest"
       | None => scylla_version
       end.

Definition _gce_label_to_version (label : string) : string :=
  match split_on "-" label with
  | major :: minor :: patch :: r0 :: rest =>
    let version :=
      if String.eqb r0 "dev" then major +:+ "." +:+ minor +:+ "." +:+ patch +:+ "~dev-" +:+ join "." rest
      else if startswith "rc" r0 then major +:+ "." +:+ minor +:+ "." +:+ patch +:+ "." +:+ join "." (r0 :: rest)
      else major +:+ "." +:+ minor +:+ "." +:+ patch +:+ "-" +:+ join "." (r0 :: rest) in
    if negb (is_full_version_tag version) then EmptyString else version
  | _ => EmptyString
  end.

Definition determine_job_folder (scylla_version : string) (job_folder : option string) : outcome texn string :=
  if truthy job_folder then Ok (default EmptyString job_folder)
  else if negb (truthy scylla_version) then Err TriggerMatrixError
  else match branch_match scylla_version with
  | Some branch => Ok (if String.eqb branch "master" then "scylla-master" else "scylla-" +:+ branch)
  | None =>
    match full_match scylla_version with
    | Some (major, minor) => Ok ("scylla-" +:+ major +:+ "." +:+ minor)
    | None =>
      match simple_match scylla_version with
      | Some (major, minor) => Ok ("scylla-" +:+ major +:+ "." +:+ minor)
      | None => if String.eqb (lower (strip scylla_version)) "master" then Ok "scylla-master" else Err TriggerMatrixError
      end
    end
  end.

Definition _strip_version_qualifier (scylla_version : string) : string :=
  match branch_match scylla_version with Some branch => branch | None => scylla_version end.

Definition _extract_branch_from_version (scylla_version : string) : string :=
  if negb (truthy scylla_version) then EmptyString
  else match branch_match scylla_version with
  | Some branch => branch
  | None =>
    match (match full_match scylla_version with Some m => Some m | None => simple_match scylla_version end) with
    | Some (major, minor) => major +:+ "." +:+ minor
    | None => if String.eqb (lower (strip scylla_version)) "master" then "master" else EmptyString
    end
  end.

(** [re.search(r"[.-](\d{8})[.-]", version)]: the first place the pattern fits. *)
Fixpoint take_digits (n : nat) (s : string) : option (string * string) :=
  match n, s with
  | O, _ => Some (EmptyString, s)
  | S n', String c s' => if is_digit c then p ← take_digits n' s'; Some (String c p.1, p.2) else None
  | _, EmptyString => None
  end.
Definition dot_or_dash (c : ascii) : bool := one_of ".-" c.
Definition date_here (s : string) : option string :=
  match s with
  | String c s' =>
    if dot_or_dash c then
      p ← take_digits 8 s';
      match p.2 with String d _ => if dot_or_dash d then Some p.1 else None | EmptyString => None end
    else None
  | EmptyString => None
  end.
Fixpoint search_date (s : string) : option string :=
  match date_here s with
  | Some d => Some d
  | None => match s with String _ s' => search_date s' | EmptyString => None end
  end.
Definition _version_build_date (version : string) : string := default EmptyString (search_date version).

Definition _branch_directory_id (branch : string) : string :=
  if negb (truthy branch) || String.eqb branch "master" || startswith "branch-" branch || startswith "enterprise-" branch
  then branch
  else "branch-" +:+ branch.

(** ** The label of a GCE image (parse_scylla_version_tag, gce_image_version_label) *)
Record FullVersionTag : Type := { base_version : string; build : string; date : string; commit_id : string }.

(** [(?P<date>[\d]{8})\.(?P<commit_id>[a-f0-9]+)] *)
Definition date_commit (s : string) : option (string * string) :=
  p ← take_digits 8 s;
  match p.2 with
  | String c r =>
    if Ascii.eqb c "." then let commit := (span_while is_hex r).1 in if truthy commit then Some (p.1, commit) else None
    else None
  | EmptyString => None
  end.

(** [(?:(?P<build>0|rc\d+)\.)?] and what follows it: the group is tried first. *)
Definition build_here (s : string) : option (string * string) :=
  if startswith "0." s then Some ("0", str_drop 2 s)
  else if startswith "rc" s then
    let '(d, r) := span_digits (str_drop 2 s) in
    match r with
    | String c r' => if truthy d && Ascii.eqb c "." then Some ("rc" +:+ d, r') else None
    | EmptyString => None
    end
  else None.
Definition after_base (s : string) : option (string * string * string) :=
  match s with
  | String c s' =>
    if one_of "-~" c then
      match (p ← build_here s'; (λ dc : string * string, (p.1, dc.1, dc.2)) <$> date_commit p.2) with
      | Some r => Some r
      | None => (λ dc : string * string, (EmptyString, dc.1, dc.2)) <$> date_commit s'
      end
    else None
  | EmptyString => None
  end.

(** [(?:-(?:dev|enterprise))?] and the rest of the pattern, after a base version [v]. *)
Definition after_version (v s : string) : option FullVersionTag :=
  let tag suffix r := (λ x : string * string * string,
    {| base_version := v +:+ suffix; build := x.1.1; date := x.1.2; commit_id := x.2 |}) <$> after_base r in
  match (if startswith "-dev" s then tag "-dev" (str_drop 4 s)
         else if startswith "-enterprise" s then tag "-enterprise" (str_drop 11 s) else None) with
  | Some t => Some t
  | None => tag EmptyString s
  end.

Definition is_word_char (c : ascii) : bool := is_alnum c || Ascii.eqb c "_".

(** [[\w.~]+] takes as much as it can, and gives characters back one at a time. *)
Fixpoint backtrack (n : nat) (s : string) : option FullVersionTag :=
  match n with
  | O => None
  | S n' => match after_version (String.substring 0 n s) (str_drop n s) with
            | Some t => Some t
            | None => backtrack n' s
            end
  end.
Definition parse_scylla_version_tag (version_tag : string) : option FullVersionTag :=
  backtrack (String.length (span_while (λ c, is_word_char c || one_of ".~" c) version_tag).1) version_tag.

Definition dashes (s : string) : string := map_chars (λ c, if one_of ".~" c then "-"%char else c) s.

Definition gce_image_version_label (version : string) : string :=
  if negb (truthy version) then EmptyString
  else match parse_scylla_version_tag version with
  | Some t => dashes (base_version t +:+ "-" +:+ build t +:+ "-" +:+ date t +:+ "-" +:+ commit_id t)
  | None => if anchored RC_VERSION_TAG_RE version then dashes version else EmptyString
  end.

Example versions_ex :
  _gce_label_to_version "2026-4-0-dev-0-20260804-9a3aba9e452a" = "2026.4.0~dev-0.20260804.9a3aba9e452a" ∧
  _gce_label_to_version "2026-3-0-rc1-0-20260730-726f67a532e2" = "2026.3.0.rc1.0.20260730.726f67a532e2" ∧
  gce_image_version_label "2025.4.10-0.20260609.99f4121cd8e1-1" = "2025-4-10-0-20260609-99f4121cd8e1" ∧
  gce_image_version_label "5.2.0-dev-0.20220829.67c91e8bcd61" = "5-2-0-dev-0-20220829-67c91e8bcd61" ∧
  gce_image_version_label "2025.4" = EmptyString ∧
  determine_job_folder "2024.2.5-0.20250221.cb9e2a54ae6d-1" None = Ok "scylla-2024.2" ∧
  _version_build_date "2024.2.5-0.20250221.cb9e2a54ae6d-1" = "20250221" ∧
  _as_branch_qualifier "2025.4.0" = "branch-2025.4:latest".
Proof. repeat split; vm_compute; reflexivity. Qed.

(** ** Job folders *)
Lemma branch_match_spec s b :
  branch_match s = Some b → b ≠ EmptyString ∧ ∃ q, s = b +:+ ":" +:+ q.
Proof.
  unfold branch_match. destruct (anchored _ s) eqn:E; [|done]. intros [= <-].
  apply anchored_elim in E as (s1 & s2 & -> & H). cbn [BRANCH_VERSION_RE RSeqs] in H.
  apply lang_seq_iff in H as (b & r & -> & [Hne Hb]%lang_plus_chars & H).
  apply lang_seq_iff in H as (col & q & -> & ->%lang_lit_iff & _).
  rewrite str_app_assoc. change ((":" +:+ q) +:+ s2) with (String ":" (q +:+ s2)).
  rewrite split_once_at; [split; [done|by exists (q +:+ s2)]|].
  revert Hb. clear. induction b as [|c b IH]; [done|]. cbn [all_chars]. intros [Hc Hb]%andb_true_iff.
  rewrite IH by done. rewrite andb_true_r. by destruct c as [[] [] [] [] [] [] [] []].
Qed.

(** A version is mapped to a Jenkins folder exactly when a branch can be read from it, and
    the folder is that branch's: [determine_job_folder] and [_extract_branch_from_version],
    which serve the job path and the [{branch}] templates, agree on every version. *)
Theorem job_folder_is_branch scylla_version job_folder :
  truthy job_folder = false →
  determine_job_folder scylla_version job_folder =
    let branch := _extract_branch_from_version scylla_version in
    if truthy branch then Ok ("scylla-" +:+ branch) else Err TriggerMatrixError.
Proof.
  intros Hf. unfold determine_job_folder, _extract_branch_from_version. rewrite Hf.
  destruct (truthy scylla_version); [|done]. cbn [negb]. destruct (branch_match scylla_version) as [b|] eqn:Eb.
  - apply branch_match_spec in Eb as [Hne _]. destruct (String.eqb_spec b "master") as [->|_]; [done|].
    cbv zeta. by destruct b.
  - assert (∀ a b : string, truthy (a +:+ "." +:+ b) = true) as Hdot by (by intros [] b).
    destruct (full_match scylla_version) as [[ma mi]|]; [cbv zeta; by rewrite Hdot|].
    destruct (simple_match scylla_version) as [[ma mi]|]; [cbv zeta; by rewrite Hdot|].
    by destruct (String.eqb _ "master").
Qed.

Lemma job_folder_is_branch_witness :
  truthy (None : option string) = false ∧
  determine_job_folder "branch-2025.4:latest" None =
    (let branch := _extract_branch_from_version "branch-2025.4:latest" in
     if truthy branch then Ok ("scylla-" +:+ branch) else Err TriggerMatrixError) ∧
  determine_job_folder "branch-2025.4:latest" None = Ok "scylla-branch-2025.4".
Proof.
  split; [reflexivity|]. split; [|vm_compute; reflexivity].
  apply (job_folder_is_branch "branch-2025.4:latest" None). reflexivity.
Defined.

(** ** Labels of GCE images *)
Definition digits (s : string) : Prop := s ≠ EmptyString ∧ all_chars is_digit s = true.
Definition date8 (s : string) : Prop := String.length s = 8%nat ∧ all_chars is_digit s = true.
Definition sha (s : string) : Prop := s ≠ EmptyString ∧ all_chars is_hex s = true.

(** The spellings of a build on GCE: a release, a nightly build of a branch, a candidate. *)
Inductive gce_build : string → string → Prop :=
  | gce_release ma mi pa d c :
    digits ma → digits mi → digits pa → date8 d → sha c →
    gce_build (ma +:+ "." +:+ mi +:+ "." +:+ pa +:+ "-0." +:+ d +:+ "." +:+ c)
              (ma +:+ "-" +:+ mi +:+ "-" +:+ pa +:+ "-0-" +:+ d +:+ "-" +:+ c)
  | gce_dev ma mi pa d c :
    digits ma → digits mi → digits pa → date8 d → sha c →
    gce_build (ma +:+ "." +:+ mi +:+ "." +:+ pa +:+ "~dev-0." +:+ d +:+ "." +:+ c)
              (ma +:+ "-" +:+ mi +:+ "-" +:+ pa +:+ "-dev-0-" +:+ d +:+ "-" +:+ c)
  | gce_rc ma mi pa k b d c :
    digits ma → digits mi → digits pa → digits k → digits b → date8 d → sha c →
    gce_build (ma +:+ "." +:+ mi +:+ "." +:+ pa +:+ ".rc" +:+ k +:+ "." +:+ b +:+ "." +:+ d +:+ "." +:+ c)
              (ma +:+ "-" +:+ mi +:+ "-" +:+ pa +:+ "-rc" +:+ k +:+ "-" +:+ b +:+ "-" +:+ d +:+ "-" +:+ c).

Lemma all_chars_impl (f g : ascii → bool) s :
  (∀ c, f c = true → g c = true) → all_chars f s = true → all_chars g s = true.
Proof.
  intros H. induction s as [|c s IH]; [done|]. cbn [all_chars]. intros [Hc Hs]%andb_true_iff.
  by rewrite H, IH.
Qed.

Lemma digit_is c : is_digit c = true →
  negb (Ascii.eqb c "-") = true ∧ one_of ".~" c = false ∧ (is_word_char c || one_of ".~" c) = true ∧ dot_or_dash c = false.
Proof. by destruct c as [[] [] [] [] [] [] [] []]. Qed.
Lemma hex_is c : is_hex c = true → negb (Ascii.eqb c "-") = true ∧ one_of ".~" c = false.
Proof. by destruct c as [[] [] [] [] [] [] [] []]. Qed.

Lemma dashes_app a b : dashes (a +:+ b) = dashes a +:+ dashes b.
Proof.
  induction a as [|c a IH]; [done|]. change (String c a +:+ b) with (String c (a +:+ b)).
  unfold dashes in *. cbn [map_chars]. by rewrite IH.
Qed.
Lemma dashes_none s : all_chars (λ c, negb (one_of ".~" c)) s = true → dashes s = s.
Proof.
  induction s as [|c s IH]; [done|]. cbn [all_chars]. intros [Hc Hs]%andb_true_iff.
  unfold dashes in *. cbn [map_chars]. rewrite negb_true_iff in Hc. by rewrite Hc, IH.
Qed.

Lemma digits_no_dash s : all_chars is_digit s = true → all_chars (λ c, negb (Ascii.eqb c "-")) s = true.
Proof. apply all_chars_impl. intros c H%digit_is. apply H. Qed.
Lemma hex_no_dash s : all_chars is_hex s = true → all_chars (λ c, negb (Ascii.eqb c "-")) s = true.
Proof. apply all_chars_impl. intros c H%hex_is. apply H. Qed.
Lemma digits_dashes s : all_chars is_digit s = true → dashes s = s.
Proof. intros H. apply dashes_none. revert H. apply all_chars_impl. intros c H%digit_is. apply negb_true_iff, H. Qed.
Lemma hex_dashes s : all_chars is_hex s = true → dashes s = s.
Proof. intros H. apply dashes_none. revert H. apply all_chars_impl. intros c H%hex_is. apply negb_true_iff, H. Qed.

Lemma gce_build_is_full v l : gce_build v l → is_full_version_tag v = true.
Proof.
  intros H. apply anchored_intro. unfold FULL_VERSION_TAG_RE. cbn [RSeqs].
  destruct H as [ma mi pa d c ? ? ? ? ?|ma mi pa d c ? ? ? ? ?|ma mi pa k b d c ? ? ? ? ? ? ?];
    (rx_seq ma; [rx_done|]); (rx_seq "."; [rx_done|]); (rx_seq mi; [rx_done|]); (rx_seq "."; [rx_done|]);
    (rx_seq pa; [rx_done|]).
  - apply lang_alt_l. (rx_seq "-"; [rx_done|]). (rx_seq "0"; [rx_done|]). (rx_seq EmptyString; [rx_done|]).
    (rx_seq EmptyString; [rx_done|]). (rx_seq "."; [rx_done|]). (rx_seq d; [rx_done|]). (rx_seq "."; [rx_done|]).
    rx_last c.
  - apply lang_alt_l. (rx_seq "~"; [rx_done|]). (rx_seq "dev"; [rx_done|]). (rx_seq "-"; [by apply lang_opt_iff; right; apply lang_lit_iff|]).
    (rx_seq "0"; [rx_done|]). (rx_seq "."; [rx_done|]). (rx_seq d; [rx_done|]). (rx_seq "."; [rx_done|]).
    rx_last c.
  - apply lang_alt_r. (rx_seq ".rc"; [rx_done|]). (rx_seq k; [rx_done|]). (rx_seq "."; [rx_done|]). (rx_seq b; [rx_done|]).
    (rx_seq "."; [rx_done|]). (rx_seq d; [rx_done|]). (rx_seq "."; [rx_done|]). rx_last c.
Qed.

Lemma gce_build_read v l : gce_build v l → _gce_label_to_version l = v.
Proof.
  intros H. pose proof (gce_build_is_full v l H) as Hfull.
  destruct H as [ma mi pa d c [? ?] [? ?] [? ?] [? ?] [? ?]|ma mi pa d c [? ?] [? ?] [? ?] [? ?] [? ?]
                |ma mi pa k b d c [? ?] [? ?] [? ?] [? ?] [? ?] [? ?] [? ?]]; unfold _gce_label_to_version.
  - change (ma +:+ "-" +:+ mi +:+ "-" +:+ pa +:+ "-0-" +:+ d +:+ "-" +:+ c) with (join "-" [ma; mi; pa; "0"; d; c]).
    rewrite split_on_join by first [done | repeat constructor; auto using digits_no_dash, hex_no_dash].
    change (String.eqb "0" "dev") with false. change (startswith "rc" "0") with false. cbv iota zeta.
    change (join "." ["0"; d; c]) with ("0." +:+ d +:+ "." +:+ c). change ("-" +:+ "0." +:+ d +:+ "." +:+ c) with ("-0." +:+ d +:+ "." +:+ c).
    by rewrite Hfull.
  - change (ma +:+ "-" +:+ mi +:+ "-" +:+ pa +:+ "-dev-0-" +:+ d +:+ "-" +:+ c) with (join "-" [ma; mi; pa; "dev"; "0"; d; c]).
    rewrite split_on_join by first [done | repeat constructor; auto using digits_no_dash, hex_no_dash].
    change (String.eqb "dev" "dev") with true. cbv iota zeta.
    change ("~dev-" +:+ join "." ["0"; d; c]) with ("~dev-0." +:+ d +:+ "." +:+ c).
    by rewrite Hfull.
  - change (ma +:+ "-" +:+ mi +:+ "-" +:+ pa +:+ "-rc" +:+ k +:+ "-" +:+ b +:+ "-" +:+ d +:+ "-" +:+ c)
      with (join "-" [ma; mi; pa; "rc" +:+ k; b; d; c]).
    rewrite split_on_join; [|done|repeat apply Forall_cons_2; auto using digits_no_dash, hex_no_dash; exact (digits_no_dash k H6)].
    change (String.eqb ("rc" +:+ k) "dev") with false. change (startswith "rc" ("rc" +:+ k)) with true. cbv iota zeta.
    change ("." +:+ join "." ["rc" +:+ k; b; d; c]) with (".rc" +:+ k +:+ "." +:+ b +:+ "." +:+ d +:+ "." +:+ c).
    by rewrite Hfull.
Qed.

(** *** The pattern of a tag *)
Lemma span_while_app f a t :
  all_chars f a = true → match t with String c _ => f c = false | EmptyString => True end →
  span_while f (a +:+ t) = (a, t).
Proof.
  intros Ha Ht. induction a as [|c a IH].
  - change (EmptyString +:+ t) with t. destruct t as [|c t]; [done|]. cbn [span_while]. by rewrite Ht.
  - change (String c a +:+ t) with (String c (a +:+ t)). cbn [all_chars] in Ha. apply andb_true_iff in Ha as [Hc Ha].
    cbn [span_while]. by rewrite Hc, IH.
Qed.

Lemma substring_app a t : String.substring 0 (String.length a) (a +:+ t) = a.
Proof.
  induction a as [|c a IH]; [by destruct t|]. change (String c a +:+ t) with (String c (a +:+ t)).
  cbn [String.length String.substring]. by rewrite IH.
Qed.
Lemma str_drop_app a t : str_drop (String.length a) (a +:+ t) = t.
Proof. induction a as [|c a IH]; [by destruct t|exact IH]. Qed.

Lemma take_digits_app n d t :
  String.length d = n → all_chars is_digit d = true → take_digits n (d +:+ t) = Some (d, t).
Proof.
  revert d. induction n as [|n IH]; intros d Hn Hd; destruct d as [|c d]; try done.
  change (String c d +:+ t) with (String c (d +:+ t)). cbn [all_chars String.length] in *.
  apply andb_true_iff in Hd as [Hc Hd]. cbn [take_digits]. rewrite Hc, IH by congruence. done.
Qed.

Lemma date_commit_read d c : date8 d → sha c → date_commit (d +:+ "." +:+ c) = Some (d, c).
Proof.
  intros [Hn Hd] [Hne Hc]. unfold date_commit. rewrite take_digits_app by done. cbn [mbind option_bind snd fst].
  change ("." +:+ c) with (String "." c). cbn [Ascii.eqb Bool.eqb].
  pose proof (span_while_app is_hex c EmptyString Hc I) as Hs. rewrite str_app_nil in Hs. rewrite Hs. cbn [fst].
  by destruct c.
Qed.

Lemma parse_tag_read base d c :
  base ≠ EmptyString → all_chars (λ c, is_word_char c || one_of ".~" c) base = true → date8 d → sha c →
  parse_scylla_version_tag (base +:+ "-0." +:+ d +:+ "." +:+ c) =
    Some {| base_version := base; build := "0"; date := d; commit_id := c |}.
Proof.
  intros Hne Hb Hd Hc. unfold parse_scylla_version_tag.
  rewrite span_while_app by done. cbn [fst]. destruct (String.length base) as [|n] eqn:En; [by destruct base|].
  cbn [backtrack]. rewrite <-En, substring_app, str_drop_app. unfold after_version.
  change (startswith "-dev" ("-0." +:+ ?x)) with false. change (startswith "-enterprise" ("-0." +:+ ?x)) with false.
  cbv iota zeta. change ("-0." +:+ ?x) with (String "-" ("0." +:+ x)). cbn [after_base]. change (one_of "-~" "-") with true.
  cbv iota. unfold build_here. change (startswith "0." ("0." +:+ ?x)) with true. cbv iota.
  change (str_drop 2 ("0." +:+ ?x)) with x. cbn [mbind option_bind snd fst]. rewrite date_commit_read by done.
  cbn. by rewrite str_app_nil.
Qed.

Lemma parse_tag_none s : all_chars (λ c, negb (one_of "-~" c)) s = true → parse_scylla_version_tag s = None.
Proof.
  intros H. unfold parse_scylla_version_tag. generalize (String.length (span_while (λ c, is_word_char c || one_of ".~" c) s).1).
  intros n. induction n as [|n IH]; [done|]. cbn [backtrack].
  assert (all_chars (λ c, negb (one_of "-~" c)) (str_drop (S n) s) = true) as Hd.
  { clear IH. revert s H. generalize (S n). induction n0 as [|m IHm]; intros s H; [done|]. destruct s as [|c s]; [done|].
    cbn [all_chars str_drop] in *. apply andb_true_iff in H as [_ H]. by apply IHm. }
  replace (after_version _ _) with (@None FullVersionTag); [done|].
  destruct (str_drop (S n) s) as [|c r]; [done|]. cbn [all_chars] in Hd. apply andb_true_iff in Hd as [Hc _].
  rewrite negb_true_iff in Hc. unfold after_version. cbn [after_base startswith].
  rewrite Hc. by destruct c as [[] [] [] [] [] [] [] []].
Qed.

Lemma base_class ma mi pa t :
  all_chars is_digit ma = true → all_chars is_digit mi = true → all_chars is_digit pa = true →
  all_chars (λ c, is_word_char c || one_of ".~" c) t = true →
  all_chars (λ c, is_word_char c || one_of ".~" c) (ma +:+ "." +:+ mi +:+ "." +:+ pa +:+ t) = true.
Proof.
  assert (∀ s, all_chars is_digit s = true → all_chars (λ c, is_word_char c || one_of ".~" c) s = true) as Hd
    by (intros s; apply all_chars_impl; intros c H%digit_is; apply H).
  intros Ha%Hd Hi%Hd Hp%Hd Ht. by rewrite !all_chars_app, Ha, Hi, Hp, Ht.
Qed.

Lemma rc_no_dash ma mi pa k b d c :
  digits ma → digits mi → digits pa → digits k → digits b → date8 d → sha c →
  all_chars (λ c, negb (one_of "-~" c)) (ma +:+ "." +:+ mi +:+ "." +:+ pa +:+ ".rc" +:+ k +:+ "." +:+ b +:+ "." +:+ d +:+ "." +:+ c) = true.
Proof.
  intros [_ ?] [_ ?] [_ ?] [_ ?] [_ ?] [_ ?] [_ ?].
  assert (∀ s, all_chars is_digit s = true → all_chars (λ c, negb (one_of "-~" c)) s = true) as Hd
    by (intros s; apply all_chars_impl; by intros [[] [] [] [] [] [] [] []]).
  assert (all_chars (λ c, negb (one_of "-~" c)) c = true) as Hc
    by (apply (all_chars_impl is_hex); [by intros [[] [] [] [] [] [] [] []]|done]).
  rewrite !all_chars_app, Hc, (Hd ma), (Hd mi), (Hd pa), (Hd k), (Hd b), (Hd d) by done. done.
Qed.

Lemma gce_build_label v l : gce_build v l → gce_image_version_label v = l.
Proof.
  intros H. unfold gce_image_version_label.
  assert (truthy v = true) as -> by (by destruct H as [[] ? ? ? ? [? _]|[] ? ? ? ? [? _]|[] ? ? ? ? ? ? [? _]]). cbn [negb].
  destruct H as [ma mi pa d c [Hma ?] [? ?] [? ?] Hd Hc|ma mi pa d c [Hma ?] [? ?] [? ?] Hd Hc
                |ma mi pa k b d c Hma Hmi Hpa Hk Hb Hd Hc].
  - replace (ma +:+ "." +:+ mi +:+ "." +:+ pa +:+ "-0." +:+ d +:+ "." +:+ c)
      with ((ma +:+ "." +:+ mi +:+ "." +:+ pa) +:+ "-0." +:+ d +:+ "." +:+ c) by by rewrite !str_app_assoc.
    rewrite parse_tag_read; [|by destruct ma| |done|done].
    2: { rewrite <-(str_app_nil pa). by apply base_class. }
    cbn [base_version build date commit_id]. destruct Hd, Hc.
    rewrite !dashes_app, (digits_dashes ma), (digits_dashes mi), (digits_dashes pa), (digits_dashes d), (hex_dashes c) by done.
    by rewrite !str_app_assoc.
  - replace (ma +:+ "." +:+ mi +:+ "." +:+ pa +:+ "~dev-0." +:+ d +:+ "." +:+ c)
      with ((ma +:+ "." +:+ mi +:+ "." +:+ pa +:+ "~dev") +:+ "-0." +:+ d +:+ "." +:+ c) by by rewrite !str_app_assoc.
    rewrite parse_tag_read; [|by destruct ma|by apply base_class|done|done].
    cbn [base_version build date commit_id]. destruct Hd, Hc.
    rewrite !dashes_app, (digits_dashes ma), (digits_dashes mi), (digits_dashes pa), (digits_dashes d), (hex_dashes c) by done.
    by rewrite !str_app_assoc.
  - rewrite parse_tag_none by by apply rc_no_dash.
    rewrite anchored_intro.
    + destruct Hma, Hmi, Hpa, Hk, Hb, Hd, Hc.
      by rewrite !dashes_app, (digits_dashes ma), (digits_dashes mi), (digits_dashes pa), (digits_dashes k), (digits_dashes b),
        (digits_dashes d), (hex_dashes c) by done.
    + unfold RC_VERSION_TAG_RE. cbn [RSeqs].
      (rx_seq ma; [rx_done|]); (rx_seq "."; [rx_done|]); (rx_seq mi; [rx_done|]); (rx_seq "."; [rx_done|]);
      (rx_seq pa; [rx_done|]); (rx_seq ".rc"; [rx_done|]); (rx_seq k; [rx_done|]); (rx_seq "."; [rx_done|]);
      (rx_seq b; [rx_done|]); (rx_seq "."; [rx_done|]); (rx_seq d; [rx_done|]); (rx_seq "."; [rx_done|rx_done]).
Qed.

(** The label of a GCE image and the version tag of its build determine each other, in all
    three spellings: [gce_image_version_label], which looks an exact build up, and
    [_gce_label_to_version], which names the build an image holds, are inverse, so the build a
    branch resolves to on GCE is found again on GCE. *)
Theorem gce_label_roundtrip v l :
  gce_build v l → gce_image_version_label v = l ∧ _gce_label_to_version l = v ∧ is_full_version_tag v = true.
Proof. intros H. split; [by apply gce_build_label|]. split; [by apply gce_build_read|by apply (gce_build_is_full v l)]. Qed.

Lemma gce_label_roundtrip_witness :
  gce_build "2026.4.0~dev-0.20260804.9a3aba9e452a" "2026-4-0-dev-0-20260804-9a3aba9e452a" ∧
  gce_image_version_label "2026.4.0~dev-0.20260804.9a3aba9e452a" = "2026-4-0-dev-0-20260804-9a3aba9e452a".
Proof.
  assert (gce_build "2026.4.0~dev-0.20260804.9a3aba9e452a" "2026-4-0-dev-0-20260804-9a3aba9e452a") as H
    by (apply (gce_dev "2026" "4" "0" "20260804" "9a3aba9e452a"); split; done).
  split; [exact H|]. apply (gce_label_roundtrip _ _ H).
Defined.

End TriggerVersions.
