(* ===== verification/Versions.v ===== *)
(** * Comparing Scylla versions

    Model of [ComparableScyllaVersion], [ComparableScyllaOperatorVersion], [scylla_versions]
    and [get_scylla_docker_repo_from_version] of [sdcm/utils/version_utils.py].

    A version string is rewritten step by step into semantic versioning, and versions compare
    by their numbers and the text of their pre-release part. Every search of the source is a
    pattern whose match at a position is unique, so it is a function from the text at the
    position, tried at each position from the left ([search]). [None] as a version string is
    the empty text, as in the source. *)
From Stdlib Require Import Ascii String ZArith Lia.
From stdpp Require Import base decidable option strings numbers list.
From S2P Require Import Prelude.
From S2P Require Import PyString.
From S2P Require Import PyRegex.
From S2P Require Import PyInt.
From S2P Require Import PyOrder.
From S2P Require Import PyDict.
From S2P Require Import PyLiteral.
From S2P Require Import Effects.
From S2P Require Import TriggerVersions.
Local Open Scope py_scope.
Local Open Scope Z_scope.

Module Versions.
Import TriggerVersions.

(** ** Searching *)
Fixpoint search {A} (here : string → option A) (s : string) : option A :=
  match here s with
  | Some a => Some a
  | None => match s with String _ s' => search here s' | EmptyString => None end
  end.

(** A non-empty run of characters [f] followed by the character [sep], and what comes next. *)
Definition run_sep (f : ascii → bool) (sep : ascii) (s : string) : option (string * string) :=
  let '(a, r) := span_while f s in
  match r with
  | String c r' => if truthy a && Ascii.eqb c sep then Some (a, r') else None
  | EmptyString => None
  end.

(** [.*] as far as it goes. *)
Definition line (s : string) : string := (span_while not_newline s).1.

(** [20[0-9]{6}] *)
Definition date_20 (s : string) : option (string * string) :=
  if startswith "20" s then p ← take_digits 6 (str_drop 2 s); Some ("20" +:+ p.1, p.2) else None.

(** ** Parsing *)

(** [re.search(r"(\d+\.\d+\.\d+\.)([a-z0-9]+\.)(.*)", ...)], rewritten. *)
Definition gce_image_here (s : string) : option string :=
  a ← run_sep is_digit "." s; b ← run_sep is_digit "." a.2; c ← run_sep is_digit "." b.2;
  w ← run_sep (λ x, char_in "a" "z" x || is_digit x) "." c.2;
  Some (a.1 +:+ "." +:+ b.1 +:+ "." +:+ c.1 +:+ "-" +:+ w.1 +:+ "-" +:+ line w.2).
Definition gce_image (s : string) : string := default s (search gce_image_here s).

(** Short versions and versions whose third part is not a number. *)
Definition complete (s : string) : option string :=
  match split_on "." s with
  | [major; rest] =>
    if contains "-" rest then
      match split_on "-" rest with
      | [minor; extra] => Some (major +:+ "." +:+ minor +:+ ".0-" +:+ extra)
      | _ => None
      end
    else Some (s +:+ ".0")
  | p0 :: p1 :: p2 :: rest =>
    Some (if negb (all_chars is_digit (split_once "-" p2).1)
          then p0 +:+ "." +:+ p1 +:+ ".0-" +:+ join "." (p2 :: rest)
          else s)
  | _ => Some s
  end.

(** [re.search(r"(\d+\.\d+\.\d+)(\-\d+)(\.20[0-9]{6}.*)", ...)], rewritten. *)
Definition no_dev_here (s : string) : option string :=
  a ← run_sep is_digit "." s; b ← run_sep is_digit "." a.2; c ← run_sep is_digit "-" b.2;
  d ← run_sep is_digit "." c.2; e ← date_20 d.2;
  Some (a.1 +:+ "." +:+ b.1 +:+ "." +:+ c.1 +:+ "-dev-" +:+ d.1 +:+ "." +:+ e.1 +:+ line e.2).
Definition no_dev (s : string) : string := default s (search no_dev_here s).

(** [(\.20[0-9]{6})(\.)([\.\d\w]+)] at a position: the date with its dot, and the build. *)
Definition build_id_here (s : string) : option (string * string) :=
  match s with
  | String c s' =>
    if Ascii.eqb c "." then
      d ← date_20 s';
      match d.2 with
      | String c' r =>
        let id := (span_while (λ x, is_word_char x || Ascii.eqb x ".") r).1 in
        if Ascii.eqb c' "." && truthy id then Some ("." +:+ d.1, id) else None
      | EmptyString => None
      end
    else None
  | EmptyString => None
  end.

(** With [.*] in front, which takes as much as it can. *)
Fixpoint dotted_build_here (s : string) : option (string * string) :=
  match s with
  | EmptyString => None
  | String c s' =>
    match (if not_newline c then dotted_build_here s' else None) with
    | Some (front, id) => Some (String c front, id)
    | None => build_id_here s
    end
  end.
Definition dotted_build (s : string) : string :=
  match search dotted_build_here s with Some (front, id) => front +:+ "+" +:+ id | None => s end.

(** *** Semantic versioning *)
Definition is_ident_char (c : ascii) : bool := is_alnum c || Ascii.eqb c "-".
Definition is_letter (c : ascii) : bool := is_ident_char c && negb (is_digit c).

(** [0|[1-9]\d*] *)
Definition RNumber : re := RAlt (RLit "0") (RSeq (RChar (char_in "1" "9")) (RStar RDigit)).
(** [0|[1-9]\d*|\d*[a-zA-Z-][0-9a-zA-Z-]*] *)
Definition RIdent : re := RAlt RNumber (RSeqs [RStar RDigit; RChar is_letter; RStar (RChar is_ident_char)]).
Definition RBuildIdent : re := RPlus (RChar is_ident_char).

Definition SEMVER_REGEX : re :=
  RSeqs [RNumber; RLit "."; RNumber; RLit "."; RNumber;
         ROpt (RSeqs [RLit "-"; RIdent; RStar (RSeq (RLit ".") RIdent)]);
         ROpt (RSeqs [RLit "+"; RBuildIdent; RStar (RSeq (RLit ".") RBuildIdent)])].

Record version := Version {
  v_major : Z;
  v_minor : Z;
  v_patch : Z;
  v_pre_release : string;
  v_build : string;
}.
#[export] Instance version_eq_dec : EqDecision version.
Proof. solve_decision. Defined.

(** The groups of a match: none of them holds a [+] but the last, and the numbers no [-]. *)
Definition semver_groups (s : string) : option version :=
  if negb (anchored SEMVER_REGEX s) then None
  else
    let '(front, build) := split_once "+" (line s) in
    let '(core, pre) := split_once "-" front in
    match split_on "." core with
    | [major; minor; patch] =>
      Some (Version (int_of_digits major) (int_of_digits minor) (int_of_digits patch)
              (default EmptyString pre) (default EmptyString build))
    | _ => None
    end.

Inductive vexn : Type := ValueError | MethodVersionNotFound.

(** The rewriting steps before the match, those for GCE images, short versions and builds last. *)
Definition to_semver (s : string) : option string :=
  s ← complete (gce_image s);
  Some (map_chars (λ c, if Ascii.eqb c "_" then "."%char else c) (dotted_build (no_dev s))).
Definition normalise (version_string : string) : option string :=
  let s := (split_once " " version_string).1 in
  let s := map_chars (λ c, if Ascii.eqb c "~" then "-"%char else c) s in
  to_semver (str_replace (str_replace s "-aarch64" EmptyString) "-x86_64" EmptyString).

(** [ComparableScyllaVersion(version_string)]. *)
Definition parse (version_string : string) : outcome vexn version :=
  match s ← normalise version_string; semver_groups s with Some v => Ok v | None => Err ValueError end.

Definition __str__ (v : version) : string :=
  str_Z (v_major v) +:+ "." +:+ str_Z (v_minor v) +:+ "." +:+ str_Z (v_patch v) +:+
  (if truthy (v_pre_release v) then "-" +:+ v_pre_release v else EmptyString) +:+
  (if truthy (v_build v) then "+" +:+ v_build v else EmptyString).

Example parse_ex :
  (λ s, match parse s with Ok v => Some (__str__ v) | Err _ => None end) <$>
  ["5.2"; "2022.1~rc8"; "4.4.rc1"; "5.2.0~dev-0.20220829.67c91e8bcd61"; "2024.2.0.dev.0.20231219.c7cdb16538f2.1";
   "4.6.4-0.20220718.b60f14601"; "5.2.0-dev-0.20220829.67c91e8bcd61-aarch64"; "2019.1.4-0.20191217.b59e92dbd with build-id 1";
   "3.5.0-dev_0.20250105+ef3b96816_SNAPSHOT"; "n/a"; "2026.3.0.rc1.0.20260730.726f67a532e2"] =
  [Some "5.2.0"; Some "2022.1.0-rc8"; Some "4.4.0-rc1"; Some "5.2.0-dev-0.20220829+67c91e8bcd61";
   Some "2024.2.0-dev-0.20231219+c7cdb16538f2.1"; Some "4.6.4-dev-0.20220718+b60f14601";
   Some "5.2.0-dev-0.20220829+67c91e8bcd61"; Some "2019.1.4-dev-0.20191217+b59e92dbd";
   Some "3.5.0-dev.0.20250105+ef3b96816.SNAPSHOT"; None; Some "2026.3.0-rc1-0.20260730+726f67a532e2"].
Proof. vm_compute. reflexivity. Qed.

(** ** Scylla Operator versions *)

(** The prefixes come off one after another, in this order. *)
Definition strip_prefix (prefix s : string) : string :=
  if startswith prefix s then str_drop (String.length prefix) s else s.
Definition strip_suffix (suffix s : string) : string :=
  if endswith suffix s then substring 0 (String.length s - String.length suffix) s else s.
Definition operator_normalise (version_string : string) : string :=
  strip_suffix "-nightly"
    (foldl (λ s p, strip_prefix p s) version_string ["scylla-operator-"; "scylla-manager-"; "scylla-"; "v"]).

Definition operator_parse (version_string : string) : outcome vexn version :=
  match semver_groups (operator_normalise version_string) with Some v => Ok v | None => Err ValueError end.

(** [s.zfill(n)] for a text of digits. *)
Fixpoint zeros (n : nat) : string := match n with O => EmptyString | S n' => String "0" (zeros n') end.
Definition zfill (n : nat) (s : string) : string := zeros (n - String.length s) +:+ s.

Definition pad_part (dot_part : string) : string :=
  if all_chars is_digit dot_part then zfill 4 dot_part else dot_part.
Definition padded (pre_release : string) : string :=
  join "-" ((λ dash_part, join "." (pad_part <$> split_on "." dash_part)) <$> split_on "-" pre_release).

(** ** Comparing *)
Inductive vclass : Type := ComparableScyllaVersion | ComparableScyllaOperatorVersion.
#[export] Instance vclass_eq_dec : EqDecision vclass.
Proof. solve_decision. Defined.

Record vobject := VObject { vo_class : vclass; vo_version : version }.

Definition construct (cls : vclass) (s : string) : outcome vexn vobject :=
  try! v := match cls with
            | ComparableScyllaVersion => parse s
            | ComparableScyllaOperatorVersion => operator_parse s
            end in
  Ok (VObject cls v).

(** [isinstance(o, cls)]: the operator's class derives from the other one. *)
Definition isinstance (o : vobject) (cls : vclass) : bool :=
  bool_decide (vo_class o = cls) || bool_decide (cls = ComparableScyllaVersion).

(** What a version is compared with. *)
Inductive comparand : Type := OStr (s : string) | OVersion (o : vobject) | OOther.

Definition _transform_to_comparable (self : vobject) (other : comparand) : outcome vexn vobject :=
  match other with
  | OStr s => construct (vo_class self) s
  | OVersion o => if isinstance o (vo_class self) then Ok o else Err ValueError
  | OOther => Err ValueError
  end.

Definition ckey : Type := Z * Z * Z * string.
Definition as_comparable (o : vobject) : ckey :=
  let v := vo_version o in
  (v_major v, v_minor v, v_patch v,
   if truthy (v_pre_release v) then
     match vo_class o with
     | ComparableScyllaVersion => v_pre_release v
     | ComparableScyllaOperatorVersion => padded (v_pre_release v)
     end
   else "xyz").

Definition isReleaseVersion (v : version) : bool :=
  String.eqb (v_build v) EmptyString && String.eqb (v_pre_release v) EmptyString.

Definition __lt__ (self : vobject) (other : comparand) : outcome vexn bool :=
  try! o := _transform_to_comparable self other in Ok (py_lt (as_comparable self) (as_comparable o)).
Definition __le__ (self : vobject) (other : comparand) : outcome vexn bool :=
  try! o := _transform_to_comparable self other in Ok (py_le (as_comparable self) (as_comparable o)).
Definition __eq__ (self : vobject) (other : comparand) : outcome vexn bool :=
  try! o := _transform_to_comparable self other in Ok (bool_decide (as_comparable self = as_comparable o)).
Definition __ne__ (self : vobject) (other : comparand) : outcome vexn bool :=
  try! b := __eq__ self other in Ok (negb b).
Definition __ge__ (self : vobject) (other : comparand) : outcome vexn bool :=
  try! b := __lt__ self other in Ok (negb b).
Definition __gt__ (self : vobject) (other : comparand) : outcome vexn bool :=
  try! b := __le__ self other in Ok (negb b).

(** ** Versioned methods *)

(** [re.search(r"^20[0-9]{2}.*", scylla_version)] *)
Definition is_enterprise (scylla_version : option string) : bool :=
  match scylla_version with
  | None => false
  | Some s => startswith "20" s && bool_decide (is_Some (take_digits 2 (str_drop 2 s)))
  end.

(** A pair of the decorator with the defaults and the patch of a short upper bound filled in. *)
Definition fill_pair (pair : option string * option string) : string * string :=
  let '(min_v, max_v) := pair in
  let given := filter (λ v, truthy v = true) [min_v; max_v] in
  let enterprise := existsb is_enterprise given in
  let min_v := match min_v with
               | Some m => if truthy m then m else if enterprise then "2019.1.rc0" else "3.0.0"
               | None => if enterprise then "2019.1.rc0" else "3.0.0" end in
  let max_v := match max_v with
               | Some m => if truthy m then m else if enterprise then "2099.99.99" else "99.99.99"
               | None => if enterprise then "2099.99.99" else "99.99.99" end in
  (min_v, if (str_count max_v "." =? 1)%nat then max_v +:+ ".999" else max_v).

(** The registry of one method name of one file: the pairs in registration order. *)
Definition mapping (F : Type) : Type := list ((string * string) * F).

(** [scylla_versions( *pairs )(func)]. *)
Definition register {F} (pairs : list (option string * option string)) (func : F) (m : mapping F) : mapping F :=
  foldl (λ m pair, dict_set (fill_pair pair) func m) m pairs.

(** Whether [min_v <= scylla_version <= max_v]; the upper bound is only read when the first holds. *)
Definition in_range (min_v max_v scylla_version : string) : outcome vexn bool :=
  try! lo := construct ComparableScyllaVersion min_v in
  try! v := construct ComparableScyllaVersion scylla_version in
  try! ge := __le__ lo (OVersion v) in
  if ge then __le__ v (OStr max_v) else Ok false.

(** The loop of [inner]; [call] is what a method does when called with the arguments. A
    [ValueError] of the method itself is caught with those of the parsing. *)
Fixpoint dispatch {F R} (call : F → outcome vexn R) (m : mapping F) (scylla_version : string) : outcome vexn R :=
  match m with
  | [] => Err MethodVersionNotFound
  | ((min_v, max_v), mapped_func) :: m' =>
    match (try! b := in_range min_v max_v scylla_version in
           if b then try! r := call mapped_func in Ok (Some r) else Ok None) with
    | Ok (Some r) => Ok r
    | Ok None | Err ValueError => dispatch call m' scylla_version
    | Err x => Err x
    end
  end.

(** The version [inner] goes by: [scylla_version] of the cluster's [params], or that of its first
    node when it is not set or a moving one. A missing attribute is [None]. *)
Definition running_version (params : option (option string)) (nodes : option (list string)) : string :=
  match params with
  | None => "n/a"
  | Some scylla_version =>
    match scylla_version with
    | Some v => if truthy v && negb (endswith ":latest" v) then v
                else match nodes with Some (n :: _) => n | _ => "n/a" end
    | None => match nodes with Some (n :: _) => n | _ => "n/a" end
    end
  end.
Definition inner {F R} (call : F → outcome vexn R) (m : mapping F)
    (params : option (option string)) (nodes : option (list string)) : outcome vexn R :=
  dispatch call m (running_version params nodes).

(** ** The docker repository of a version *)
Definition old_or_unified (v : vobject) : outcome vexn bool :=
  try! old := __le__ v (OStr "6.2.99") in
  if old then Ok true else __ge__ v (OStr "2025.1.0~dev").

(** ["6.2.99" < v < "2025.1.0~dev"], where the first comparison is the version's [__gt__]. *)
Definition between (v : vobject) : outcome vexn bool :=
  try! gt := __gt__ v (OStr "6.2.99") in
  if gt then __lt__ v (OStr "2025.1.0~dev") else Ok false.

Definition get_scylla_docker_repo_from_version (scylla_version : string) : outcome vexn string :=
  if existsb (String.eqb scylla_version) ["latest"; "master:latest"] then Ok "scylladb/scylla-nightly"
  else
    let full_tag :=
      match parse_scylla_version_tag scylla_version with
      | Some tag =>
        match (try! v := construct ComparableScyllaVersion (base_version tag) in old_or_unified v) with
        | Ok b => b
        | Err _ => true
        end
      | None => false
      end in
    if full_tag then Ok "scylladb/scylla-nightly"
    else
      match construct ComparableScyllaVersion scylla_version with
      | Ok v =>
        match old_or_unified v, between v with
        | Ok true, _ => Ok (if isReleaseVersion (vo_version v) then "scylladb/scylla" else "scylladb/scylla-nightly")
        | Ok false, Ok true => if isReleaseVersion (vo_version v) then Ok "scylladb/scylla-enterprise" else Err ValueError
        | _, _ => Err ValueError
        end
      | Err _ => Err ValueError
      end.

(** [transform_non_semver_scylla_version_to_semver] *)
Definition transform_non_semver_scylla_version_to_semver (scylla_version : string) : outcome vexn string :=
  if anchored SEMVER_REGEX scylla_version then Ok scylla_version
  else match split_on "." scylla_version with
       | p0 :: p1 :: p2 :: rest =>
         let new_scylla_version := p0 +:+ "." +:+ p1 +:+ ".0-" +:+ join "." (p2 :: rest) in
         if anchored SEMVER_REGEX new_scylla_version then Ok new_scylla_version else Err ValueError
       | _ => Err ValueError
       end.

Example repo_ex :
  get_scylla_docker_repo_from_version <$>
  ["latest"; "5.2.1"; "2024.2.0"; "2024.2.5-0.20250221.cb9e2a54ae6d-1"; "2026.1.0~dev-0.20260119.4cde34f6f20b"; "2025.1.0"; "2024.1.0~rc1"] =
  [Ok "scylladb/scylla-nightly"; Ok "scylladb/scylla"; Ok "scylladb/scylla-enterprise"; Err ValueError;
   Ok "scylladb/scylla-nightly"; Ok "scylladb/scylla"; Err ValueError].
Proof. vm_compute. reflexivity. Qed.

(** ** The order *)

Lemma transform_same cls a b : _transform_to_comparable (VObject cls a) (OVersion (VObject cls b)) = Ok (VObject cls b).
Proof. unfold _transform_to_comparable, isinstance. by rewrite bool_decide_true. Qed.

(** The six comparisons of two version objects of a class describe one order of their keys:
    exactly one of [<], [==], [>] holds, [<=] and [>=] are their negations, [<=] is transitive
    and total, and versions that are equal have equal hashes, whatever their build part. *)
Theorem comparisons_agree cls (a b c : version) :
  let A := VObject cls a in let B := VObject cls b in let C := VObject cls c in
  let cmps := (__lt__ A (OVersion B), __eq__ A (OVersion B), __gt__ A (OVersion B)) in
  (cmps = (Ok true, Ok false, Ok false) ∨ cmps = (Ok false, Ok true, Ok false) ∨ cmps = (Ok false, Ok false, Ok true)) ∧
  __lt__ A (OVersion B) = __gt__ B (OVersion A) ∧
  __ge__ A (OVersion B) = __le__ B (OVersion A) ∧
  (__le__ A (OVersion B) = Ok true → __le__ B (OVersion C) = Ok true → __le__ A (OVersion C) = Ok true) ∧
  (__eq__ A (OVersion B) = Ok true ↔ as_comparable A = as_comparable B) ∧
  (__ne__ A (OVersion B) = Ok true ↔ as_comparable A ≠ as_comparable B).
Proof.
  intros A B C cmps.
  subst cmps. unfold __ne__, __ge__, __gt__, __lt__, __le__, __eq__. unfold A, B, C. rewrite !transform_same. cbn [obind]. fold A B C.
  generalize (as_comparable A) (as_comparable B) (as_comparable C). intros x y z.
  repeat split; try (rewrite ?(py_lt_le x y), ?negb_involutive; done).
  - unfold py_lt, py_le. destruct (cmp x y) eqn:E; [right; left|left|right; right].
    + by rewrite bool_decide_true by (by apply cmp_eq).
    + rewrite bool_decide_false; [done|]. intros ->. by rewrite cmp_refl in E.
    + rewrite bool_decide_false; [done|]. intros ->. by rewrite cmp_refl in E.
  - intros [= H1] [= H2]. f_equal. by apply (py_le_trans x y z).
  - intros [= H]. by apply bool_decide_eq_true in H.
  - intros ->. by rewrite bool_decide_true.
  - intros [= H]. apply negb_true_iff, bool_decide_eq_false in H. done.
  - intros H. by rewrite bool_decide_false.
Qed.

(** ** The spellings of a build *)

(** A search fails when it fails at every text whose dotted parts after the first are among the
    last ones of the text searched. *)
Lemma search_none {A} (here : string → option A) s :
  (∀ t, tail (split_on "." t) `suffix_of` tail (split_on "." s) → here t = None) → search here s = None.
Proof.
  induction s as [|c s IH]; intros H; cbn [search]; rewrite H by done; [done|].
  apply IH. intros t Ht. apply H. etrans; [exact Ht|]. cbn [split_on].
  destruct (split_on "." s) as [|w ws] eqn:E; [by apply split_on_nonempty in E|].
  case_ifs; simpl; [by exists [w]|done].
Qed.

Lemma span_while_spec f s : s = (span_while f s).1 +:+ (span_while f s).2 ∧ all_chars f (span_while f s).1 = true.
Proof.
  induction s as [|c s [IH1 IH2]]; [done|]. simpl. destruct (f c) eqn:E; [|done].
  destruct (span_while f s) as [a b]. simpl in *. rewrite E, IH2. split; [|done].
  change (String c a +:+ b) with (String c (a +:+ b)). by rewrite <- IH1.
Qed.

Lemma run_sep_spec f sep s a r : run_sep f sep s = Some (a, r) → s = a +:+ String sep r ∧ all_chars f a = true ∧ a ≠ EmptyString.
Proof.
  unfold run_sep. pose proof (span_while_spec f s) as [H1 H2]. destruct (span_while f s) as [x y]. simpl in *.
  destruct y as [|c y]; [done|]. destruct (truthy x && Ascii.eqb c sep) eqn:E; [|done].
  apply andb_true_iff in E as [Ex Ec%Ascii.eqb_eq]. intros [= -> ->]. subst. repeat split; [done|]. by intros ->.
Qed.

Lemma digits_no_dot a : all_chars is_digit a = true → all_chars (λ c, negb (Ascii.eqb c ".")) a = true.
Proof. apply all_chars_impl. intros c. by destruct c as [[] [] [] [] [] [] [] []]. Qed.

Lemma run_sep_split s a r : run_sep is_digit "." s = Some (a, r) → split_on "." s = a :: split_on "." r.
Proof. intros (-> & Ha & _)%run_sep_spec. rewrite split_on_app by by apply digits_no_dot. done. Qed.

Lemma run_sep_at f sep a r :
  all_chars f a = true → a ≠ EmptyString → f sep = false → run_sep f sep (a +:+ String sep r) = Some (a, r).
Proof.
  intros Ha Hne Hs. assert (span_while f (a +:+ String sep r) = (a, String sep r)) as E.
  { clear Hne. induction a as [|c a IH].
    - change (EmptyString +:+ String sep r) with (String sep r). simpl. by rewrite Hs.
    - change (String c a +:+ String sep r) with (String c (a +:+ String sep r)). simpl in *.
      apply andb_true_iff in Ha as [Hc Ha]. by rewrite Hc, IH. }
  unfold run_sep. rewrite E, Ascii.eqb_refl. by destruct a.
Qed.

Lemma run_dot f a r :
  all_chars f a = true → a ≠ EmptyString → f "."%char = false → run_sep f "." (a +:+ "." +:+ r) = Some (a, r).
Proof. apply (run_sep_at f "."). Qed.

Lemma span_while_all f s : all_chars f s = true → span_while f s = (s, EmptyString).
Proof. induction s as [|c s IH]; [done|]. simpl. intros [-> Hs]%andb_true_iff. by rewrite (IH Hs). Qed.

Lemma line_all s : all_chars not_newline s = true → line s = s.
Proof. intros H. unfold line. by rewrite span_while_all. Qed.

Lemma gce_image_here_parts t i :
  gce_image_here t = Some i → ∃ a b c w r rest, split_on "." t = a :: b :: c :: w :: r :: rest ∧ all_chars is_digit c = true.
Proof.
  unfold gce_image_here. intros H.
  apply bind_Some in H as ([a r1] & H1 & H). apply bind_Some in H as ([b r2] & H2 & H).
  apply bind_Some in H as ([c r3] & H3 & H). apply bind_Some in H as ([w r4] & H4 & _). simpl in *.
  apply run_sep_split in H1 as ->. apply run_sep_split in H2 as ->.
  pose proof (run_sep_spec _ _ _ _ _ H3) as (_ & Hc & _). apply run_sep_split in H3 as ->.
  apply run_sep_spec in H4 as (-> & Hw & _). rewrite split_on_app.
  2:{ revert Hw. apply all_chars_impl. intros x. by destruct x as [[] [] [] [] [] [] [] []]. }
  destruct (split_on "." r4) as [|r rest] eqn:E; [by apply split_on_nonempty in E|]. eauto 10.
Qed.

Lemma no_dev_here_parts t i :
  no_dev_here t = Some i →
  ∃ a b c d rest, split_on "." t = a :: b :: (c +:+ "-" +:+ d) :: rest ∧
    all_chars is_digit b = true ∧ all_chars is_digit c = true ∧ all_chars is_digit d = true.
Proof.
  unfold no_dev_here. intros H.
  apply bind_Some in H as ([a r1] & H1 & H). apply bind_Some in H as ([b r2] & H2 & H).
  apply bind_Some in H as ([c r3] & H3 & H). apply bind_Some in H as ([d r4] & H4 & _). simpl in *.
  pose proof (run_sep_spec _ _ _ _ _ H2) as (_ & Hb & _).
  apply run_sep_split in H1 as ->. apply run_sep_split in H2 as ->.
  apply run_sep_spec in H3 as (-> & Hc & _). apply run_sep_spec in H4 as (-> & Hd & _).
  exists a, b, c, d, (split_on "." r4). repeat split; [|done..]. do 2 f_equal.
  change (String "-" (d +:+ String "." r4)) with ("-" +:+ (d +:+ String "." r4)).
  rewrite <- !str_app_assoc. apply split_on_app.
  by rewrite !all_chars_app, (digits_no_dot c Hc), (digits_no_dot d Hd).
Qed.

(** A build: the kind of build between the numbers and the build's number, date and commit. *)
Inductive build_kind : string → Prop :=
  | kind_dev : build_kind "dev"
  | kind_rc n : digits n → build_kind ("rc" +:+ n).

Lemma number_digits w : lang RNumber w → digits w.
Proof.
  unfold RNumber. rewrite lang_alt_iff, lang_lit_iff, lang_seq_iff. intros [->|(a & b & -> & Ha & Hb)]; [by split|].
  apply lang_char_iff in Ha as (c & -> & Hc). apply lang_star_chars in Hb. split; [done|].
  change (String c EmptyString +:+ b) with (String c b). cbn [all_chars]. rewrite Hb, andb_true_r.
  revert Hc. by destruct c as [[] [] [] [] [] [] [] []].
Qed.

Lemma kind_chars k : build_kind k →
  (∃ c k', k = String c k' ∧ (c = "d" ∨ c = "r")%char) ∧ all_chars (λ c, char_in "a" "z" c || is_digit c) k = true.
Proof.
  intros [|n [_ Hn]]; [eauto 6|]. split; [change ("rc" +:+ n) with (String "r" (String "c" n)); eauto 6|].
  rewrite all_chars_app. apply andb_true_iff. split; [done|]. revert Hn. apply all_chars_impl.
  intros c ->. by rewrite orb_true_r.
Qed.

Lemma alnum_plain c : char_in "a" "z" c || is_digit c = true →
  negb (Ascii.eqb c ".") = true ∧ negb (Ascii.eqb c "-") = true ∧ negb (Ascii.eqb c "_") = true ∧
  negb (Ascii.eqb c "~") = true ∧ negb (Ascii.eqb c " ") = true ∧ negb (Ascii.eqb c "+") = true ∧
  not_newline c = true ∧ is_ident_char c = true ∧ is_word_char c || Ascii.eqb c "." = true.
Proof. by destruct c as [[] [] [] [] [] [] [] []]. Qed.
Lemma digit_alnum c : is_digit c = true → char_in "a" "z" c || is_digit c = true.
Proof. intros ->. apply orb_true_r. Qed.
Lemma hex_alnum c : is_hex c = true → char_in "a" "z" c || is_digit c = true.
Proof. by destruct c as [[] [] [] [] [] [] [] []]. Qed.
(** The characters of a build's parts. *)
Definition plain (s : string) : Prop := all_chars (λ c, char_in "a" "z" c || is_digit c) s = true.

Lemma plain_impl (f : ascii → bool) s :
  (∀ c, char_in "a" "z" c || is_digit c = true → f c = true) → plain s → all_chars f s = true.
Proof. apply all_chars_impl. Qed.

(** The characters of a build's parts and of the dots between them. *)
Definition dotted (s : string) : Prop := all_chars (λ c, (char_in "a" "z" c || is_digit c) || Ascii.eqb c ".") s = true.

Lemma dotted_impl (f : ascii → bool) s :
  f "."%char = true → (∀ c, char_in "a" "z" c || is_digit c = true → f c = true) → dotted s → all_chars f s = true.
Proof. intros Hd Hf. apply all_chars_impl. intros c [?|E%Ascii.eqb_eq]%orb_true_iff; [auto|by rewrite E]. Qed.

Ltac plain_chars :=
  repeat rewrite all_chars_app; repeat (apply andb_true_iff; split); try done;
  try (eapply plain_impl; [|eassumption]; by intros ? (? & ? & ? & ? & ? & ? & ? & ? & ?)%alnum_plain);
  try (eapply dotted_impl; [reflexivity| |eassumption]; by intros ? (? & ? & ? & ? & ? & ? & ? & ? & ?)%alnum_plain).

(** A dotted build starts with a dot. *)
Lemma dotted_none s : (∀ t, tail (split_on "." t) `suffix_of` tail (split_on "." s) → build_id_here t = None) →
  dotted_build_here s = None.
Proof.
  induction s as [|c s IH]; intros H; [done|]. cbn [dotted_build_here]. rewrite (H (String c s)) by done.
  case_ifs; [|done]. rewrite IH; [done|]. intros t Ht. apply H. etrans; [exact Ht|]. cbn [split_on].
  destruct (split_on "." s) as [|w ws] eqn:E; [by apply split_on_nonempty in E|].
  case_ifs; simpl; [by exists [w]|done].
Qed.

Lemma dotted_front p t f i : all_chars not_newline p = true → dotted_build_here t = Some (f, i) →
  dotted_build_here (p +:+ t) = Some (p +:+ f, i).
Proof.
  intros Hp Ht. induction p as [|c p IH]; [done|]. cbn [all_chars] in Hp. apply andb_true_iff in Hp as [Hc Hp].
  change (String c p +:+ t) with (String c (p +:+ t)). cbn [dotted_build_here]. by rewrite Hc, IH.
Qed.

Lemma take_digits_spec m s a r : take_digits m s = Some (a, r) → s = a +:+ r ∧ all_chars is_digit a = true ∧ String.length a = m.
Proof.
  revert s a r. induction m as [|m IH]; intros s a r; simpl; [by intros [= <- <-]|].
  destruct s as [|c s]; [done|]. destruct (is_digit c) eqn:Hc; [|done].
  intros ([a' r'] & (-> & Ha & <-)%IH & [= <- <-])%bind_Some. simpl. by rewrite Hc.
Qed.

Lemma build_id_here_parts t i : build_id_here t = Some i → ∃ a b c rest, split_on "." t = a :: b :: c :: rest ∧ String.length b = 8%nat.
Proof.
  unfold build_id_here. destruct t as [|c t]; [done|]. destruct (Ascii.eqb c ".") eqn:Ec; [|done].
  apply Ascii.eqb_eq in Ec as ->. intros ([a r] & Hd & H)%bind_Some. simpl in H.
  destruct r as [|c' r]; [done|]. destruct (Ascii.eqb c' ".") eqn:Ec'; [|done]. apply Ascii.eqb_eq in Ec' as ->. clear H.
  unfold date_20 in Hd. destruct (startswith "20" t) eqn:H20; [|done]. apply startswith_spec in H20 as [u ->].
  apply bind_Some in Hd as ([a' r'] & (Hu & Ha & Hl)%take_digits_spec & [= <- ->]).
  change (str_drop 2 ("20" +:+ u)) with u in Hu. subst u. simpl in Ha. simpl (a', _).1. simpl (a', _).2.
  change (String "." ("20" +:+ a' +:+ String "." r)) with (EmptyString +:+ String "." (("20" +:+ a') +:+ String "." r)).
  rewrite split_on_app by done. rewrite split_on_app.
  2:{ apply digits_no_dot. by rewrite all_chars_app, Ha. }
  destruct (split_on "." r) as [|w ws] eqn:E; [by apply split_on_nonempty in E|].
  do 4 eexists. split; [done|].
  change (String.length ("20" +:+ a')) with (S (S (String.length a'))). by rewrite Hl.
Qed.

Definition char_to (a b : ascii) (c : ascii) : ascii := if Ascii.eqb c a then b else c.

Lemma map_char_none a b s : all_chars (λ c, negb (Ascii.eqb c a)) s = true → map_chars (λ c, if Ascii.eqb c a then b else c) s = s.
Proof.
  induction s as [|c s IH]; [done|]. simpl. intros [Hc%negb_true_iff Hs]%andb_true_iff. by rewrite Hc, IH.
Qed.

(** [replace] passes over a text without the first character of what it replaces. *)
Lemma str_replace_skip c sub new a t :
  all_chars (λ x, negb (Ascii.eqb x c)) a = true →
  str_replace (a +:+ t) (String c sub) new = a +:+ str_replace t (String c sub) new.
Proof.
  unfold str_replace. intros Ha. induction a as [|x a IH]; [done|]. cbn [all_chars] in Ha.
  apply andb_true_iff in Ha as [Hx Ha]. change (String x a +:+ t) with (String x (a +:+ t)).
  cbn [str_replace_from startswith]. rewrite Ascii.eqb_sym. apply negb_true_iff in Hx. rewrite Hx. simpl. by rewrite IH.
Qed.
Lemma str_replace_step c t sub new : startswith sub (String c t) = false → str_replace (String c t) sub new = String c (str_replace t sub new).
Proof. intros H. unfold str_replace. cbn [str_replace_from]. by rewrite H. Qed.

(** The build part [h] is a commit, after which images have a serial number. *)
Section spellings.
Context (x y z k n d h : string).
Context (Hx : lang RNumber x) (Hy : lang RNumber y) (Hz : lang RNumber z).
Context (Hk : build_kind k) (Hn : digits n) (Hd : date8 d) (Hd20 : startswith "20" d = true).
Context (commit : string) (serial : list string) (Hh : h = join "." (commit :: serial)) (Hcommit : sha commit).
Context (Hserial : serial = [] ∨ ∃ m, serial = [m] ∧ digits m ∧ String.length commit ≠ 8%nat).

Lemma Px : plain x. Proof using Hx. eapply all_chars_impl; [apply digit_alnum|]. by apply number_digits. Qed.
Lemma Py : plain y. Proof using Hy. eapply all_chars_impl; [apply digit_alnum|]. by apply number_digits. Qed.
Lemma Pz : plain z. Proof using Hz. eapply all_chars_impl; [apply digit_alnum|]. by apply number_digits. Qed.
Lemma Pk : plain k. Proof using Hk. by apply kind_chars. Qed.
Lemma Pn : plain n. Proof using Hn. eapply all_chars_impl; [apply digit_alnum|]. apply Hn. Qed.
Lemma Pd : plain d. Proof using Hd. eapply all_chars_impl; [apply digit_alnum|]. apply Hd. Qed.
Lemma Pc : plain commit. Proof using Hcommit. eapply all_chars_impl; [apply hex_alnum|]. apply Hcommit. Qed.
Lemma Pserial : Forall plain serial.
Proof using Hserial.
  destruct Hserial as [Es|(m & Es & [_ Hm] & _)]; rewrite Es; [constructor|]. apply Forall_singleton.
  eapply all_chars_impl; [apply digit_alnum|exact Hm].
Qed.
Lemma Ph : dotted h.
Proof using Hh Hcommit Hserial.
  assert (∀ w, plain w → dotted w) as Hp by (intros w; apply all_chars_impl; by intros c ->).
  pose proof Pc as HPc. rewrite Hh. pose proof Pserial as HPs. destruct Hserial as [Es|(m & Es & _)]; rewrite Es in *; [by apply Hp|].
  apply Forall_cons in HPs as [HPs _]. cbn [join]. unfold dotted. rewrite !all_chars_app.
  rewrite (Hp _ HPc : all_chars _ _ = _), (Hp _ HPs : all_chars _ _ = _). done.
Qed.
Lemma h_nonempty : h ≠ EmptyString.
Proof using Hh Hcommit Hserial.
  rewrite Hh. destruct commit as [|c t]; [by destruct Hcommit|]. destruct serial; done.
Qed.

Definition numbers : string := x +:+ "." +:+ y +:+ "." +:+ z.
Definition semver_build : string := numbers +:+ "-" +:+ k +:+ "-" +:+ n +:+ "." +:+ d +:+ "." +:+ h.


Definition zkn : string := z +:+ "-" +:+ k +:+ "-" +:+ n.

Lemma semver_build_parts : semver_build = join "." (x :: y :: zkn :: d :: commit :: serial).
Proof using Hh. rewrite !join_cons, <-Hh by done. unfold semver_build, numbers, zkn. by rewrite !str_app_assoc. Qed.

Lemma semver_build_split : split_on "." semver_build = x :: y :: zkn :: d :: commit :: serial.
Proof using Type*.
  pose proof Px. pose proof Py. pose proof Pz. pose proof Pk. pose proof Pn. pose proof Pd. pose proof Pc.
  rewrite semver_build_parts. apply (split_on_join "."); [done|]. unfold zkn. do 5 (constructor; [plain_chars|]).
  eapply Forall_impl; [apply Pserial|]. intros w Hw. plain_chars.
Qed.

Lemma zkn_not_digits : all_chars is_digit zkn = false.
Proof. unfold zkn. rewrite !all_chars_app. cbn. by rewrite andb_false_r. Qed.

Lemma semver_build_gce : serial = [] → gce_image semver_build = semver_build.
Proof using Type*.
  intros Hnone. unfold gce_image. rewrite search_none; [done|]. intros t. rewrite semver_build_split, Hnone. cbn [tail]. intros Ht.
  destruct (gce_image_here t) as [i|] eqn:E; [|done]. exfalso.
  apply gce_image_here_parts in E as (a & b & c & w & r & rest & E & Hdig). rewrite E in Ht. cbn [tail] in Ht.
  destruct Ht as [[|e ks] Ht]; [simplify_eq/=; by rewrite zkn_not_digits in Hdig|].
  apply (f_equal length) in Ht. rewrite length_app in Ht. simpl in Ht. lia.
Qed.

Lemma semver_build_complete : complete semver_build = Some semver_build.
Proof using Type*.
  unfold complete. rewrite semver_build_split. cbv iota. do 2 f_equal. unfold zkn.
  change ("-" +:+ k +:+ "-" +:+ n) with (String "-" (k +:+ "-" +:+ n)). rewrite split_once_at.
  - cbn [fst]. by rewrite (proj2 (number_digits z Hz)).
  - pose proof Pz. plain_chars.
Qed.

Lemma semver_build_no_dev : no_dev semver_build = semver_build.
Proof using Type*.
  unfold no_dev. rewrite search_none; [done|]. intros t. rewrite semver_build_split. cbn [tail]. intros Ht.
  destruct (no_dev_here t) as [i|] eqn:E; [|done]. exfalso.
  apply no_dev_here_parts in E as (a & b & c & e & rest & E & Hb & Hdig & He). rewrite E in Ht. cbn [tail] in Ht.
  assert (∀ w, all_chars is_hex w = true → w ≠ c +:+ "-" +:+ e) as Hdash.
  { intros w Hw ->. rewrite !all_chars_app in Hw. cbn in Hw. by rewrite andb_false_r in Hw. }
  destruct Ht as [[|? [|? [|? [|? ks]]]] Ht]; simplify_eq/=.
  - match goal with H : zkn = _ |- _ => apply (f_equal (split_once "-")) in H; rename H into Hs end.
    unfold zkn in Hs. change ("-" +:+ k +:+ "-" +:+ n) with (String "-" (k +:+ "-" +:+ n)) in Hs.
    change ("-" +:+ e) with (String "-" e) in Hs.
    rewrite !split_once_at in Hs by (apply digits_no_dash; first [done | apply (number_digits z Hz)]).
    injection Hs as _ Hs. subst e. rewrite all_chars_app in He. apply andb_true_iff in He as [He _].
    destruct (kind_chars k Hk) as [(? & ? & -> & [-> | ->]) _]; done.
  - by rewrite zkn_not_digits in Hb.
  - eapply Hdash; [apply Hcommit|done].
  - destruct Hserial as [Es|(m & Es & [_ Hm] & _)]; [done|]. injection Es as Es _.
    eapply Hdash; [|exact (eq_sym Es)]. revert Hm. apply all_chars_impl. intros u. by destruct u as [[] [] [] [] [] [] [] []].
  - destruct Hserial as [Es|(m & Es & _)]; apply (f_equal length) in Es; rewrite length_app in Es; simpl in Es; lia.
Qed.

Lemma date_20_at r : date_20 (d +:+ r) = Some (d, r).
Proof using Hd Hd20.
  destruct Hd as [Hl Hds]. apply startswith_spec in Hd20 as [t Ht]. subst d. unfold date_20.
  rewrite str_app_assoc, startswith_app. change (str_drop 2 ("20" +:+ t +:+ r)) with (t +:+ r).
  change (String.length ("20" +:+ t)) with (S (S (String.length t))) in Hl.
  rewrite (take_digits_app 6 t r); [done|lia|]. by rewrite all_chars_app in Hds.
Qed.


Lemma h_split : split_on "." h = commit :: serial.
Proof using Hh Hcommit Hserial.
  pose proof Pc. rewrite Hh. apply (split_on_join "."); [done|]. constructor; [plain_chars|].
  eapply Forall_impl; [apply Pserial|]. intros w Hw. plain_chars.
Qed.

Lemma semver_build_dotted :
  dotted_build semver_build = numbers +:+ "-" +:+ k +:+ "-" +:+ n +:+ "." +:+ d +:+ "+" +:+ h.
Proof using Type*.
  pose proof Px. pose proof Py. pose proof Pz. pose proof Pk. pose proof Pn. pose proof Pd. pose proof Ph.
  set (p := numbers +:+ "-" +:+ k +:+ "-" +:+ n).
  assert (E : dotted_build_here ("." +:+ d +:+ "." +:+ h) = Some ("." +:+ d, h)).
  { change ("." +:+ d +:+ "." +:+ h) with (String "." (d +:+ String "." h)). cbn [dotted_build_here].
    change (not_newline ".") with true. cbv iota. rewrite dotted_none.
    2:{ intros t. rewrite split_on_app by plain_chars. rewrite h_split. cbn [tail]. intros Ht.
        destruct (build_id_here t) as [i|] eqn:E; [|done]. apply build_id_here_parts in E as (? & b & ? & ? & E & Hb).
        rewrite E in Ht. destruct Ht as [ks Ht].
        destruct Hserial as [Es|(m & Es & _ & Hlen)]; rewrite Es in Ht;
          [apply (f_equal length) in Ht; rewrite length_app in Ht; simpl in Ht; lia|].
        destruct ks as [|? ks]; [simplify_eq/=; done|]. apply (f_equal length) in Ht. simpl in Ht. rewrite length_app in Ht. simpl in Ht. lia. }
    unfold build_id_here. change (Ascii.eqb "." ".") with true. cbv iota. rewrite date_20_at. cbn [mbind option_bind fst snd].
    change (Ascii.eqb "." ".") with true.
    assert (Hsp : span_while (λ x0, is_word_char x0 || Ascii.eqb x0 ".") h = (h, EmptyString)).
    { apply span_while_all. plain_chars. }
    rewrite Hsp. cbn [fst]. pose proof h_nonempty. by destruct h. }
  assert (Es : semver_build = p +:+ "." +:+ d +:+ "." +:+ h).
  { unfold semver_build, p. by rewrite !str_app_assoc. }
  unfold dotted_build. rewrite Es.
  assert (Hp : all_chars not_newline p = true) by (unfold p, numbers; plain_chars).
  pose proof (dotted_front p _ _ _ Hp E) as Ed.
  destruct (p +:+ "." +:+ d +:+ "." +:+ h) as [|c r] eqn:Er; [by destruct p|]. cbn [search]. rewrite Ed.
  unfold p. by rewrite !str_app_assoc.
Qed.

Definition canonical : string := numbers +:+ "-" +:+ k +:+ "-" +:+ n +:+ "." +:+ d +:+ "+" +:+ h.
Definition build_version : version :=
  Version (int_of_digits x) (int_of_digits y) (int_of_digits z) (k +:+ "-" +:+ n +:+ "." +:+ d) h.

Lemma kn_ident : lang RIdent (k +:+ "-" +:+ n).
Proof using Hk Hn.
  pose proof Pk. pose proof Pn. destruct (kind_chars k Hk) as [(c & k' & Ek & Hc) _].
  unfold RIdent. apply lang_alt_iff. right. cbn [RSeqs]. rewrite Ek.
  change (String c k' +:+ "-" +:+ n) with (String c EmptyString +:+ (k' +:+ "-" +:+ n)).
  rx_seq EmptyString; [by apply lang_star_chars|]. rx_seq (String c EmptyString).
  - apply lang_char_iff. exists c. split; [done|]. by destruct Hc as [-> | ->].
  - apply lang_star_chars. assert (plain k') by (unfold plain in *; subst k; cbn [all_chars] in *; by destruct (andb_prop _ _ H)).
    plain_chars.
Qed.

Lemma date_number : lang RNumber d.
Proof using Hd Hd20.
  apply startswith_spec in Hd20 as [t Ht]. destruct Hd as [_ Hds]. rewrite Ht in Hds |- *. apply lang_alt_iff. right.
  change ("20" +:+ t) with ("2" +:+ ("0" +:+ t)). rx_seq "2"; [apply lang_char_iff; by eexists|].
  apply lang_star_chars. by rewrite all_chars_app in Hds |- *.
Qed.

Lemma canonical_semver : lang SEMVER_REGEX canonical.
Proof using Type*.
  pose proof Ph. unfold SEMVER_REGEX, canonical, numbers. cbn [RSeqs]. rewrite !str_app_assoc.
  rx_seq x; [done|]. rx_seq "."; [rx_done|]. rx_seq y; [done|]. rx_seq "."; [rx_done|]. rx_seq z; [done|].
  assert (E : "-" +:+ k +:+ "-" +:+ n +:+ "." +:+ d +:+ "+" +:+ h =
              ("-" +:+ (k +:+ "-" +:+ n) +:+ ("." +:+ d)) +:+ ("+" +:+ h)) by (by rewrite !str_app_assoc).
  rewrite E. rx_seq ("-" +:+ (k +:+ "-" +:+ n) +:+ ("." +:+ d)); apply lang_opt_iff; right.
  - rx_seq "-"; [rx_done|]. rx_seq (k +:+ "-" +:+ n); [apply kn_ident|].
    rewrite <- (str_app_nil ("." +:+ d)). apply lang_star_cons; [|apply lang_star_nil].
    rx_seq "."; [rx_done|]. apply lang_alt_iff. left. apply date_number.
  - pose proof Pc. pose proof Pserial as HPs. rx_seq "+"; [rx_done|]. rewrite Hh.
    destruct Hserial as [Es|(m & Es & [Hm _] & _)]; rewrite Es in *; cbn [join].
    + rewrite <- (str_app_nil commit). rx_seq commit; [|apply lang_star_nil]. apply lang_plus_chars. split; [apply Hcommit|plain_chars].
    + apply Forall_cons in HPs as [HPs _]. rx_seq commit; [apply lang_plus_chars; split; [apply Hcommit|plain_chars]|].
      rewrite <- (str_app_nil ("." +:+ m)). apply lang_star_cons; [|apply lang_star_nil].
      rx_seq "."; [rx_done|]. apply lang_plus_chars. split; [done|plain_chars].
Qed.

Lemma canonical_groups : semver_groups canonical = Some build_version.
Proof using Type*.
  pose proof Px. pose proof Py. pose proof Pz. pose proof Pk. pose proof Pn. pose proof Pd. pose proof Ph.
  unfold semver_groups. rewrite (anchored_intro _ _ canonical_semver). cbn [negb].
  rewrite line_all by (unfold canonical, numbers; plain_chars).
  replace canonical with ((numbers +:+ String "-" (k +:+ "-" +:+ n +:+ "." +:+ d)) +:+ String "+" h).
  2:{ unfold canonical, numbers. change (String "-" (k +:+ "-" +:+ n +:+ "." +:+ d)) with ("-" +:+ (k +:+ "-" +:+ n +:+ "." +:+ d)).
      change (String "+" h) with ("+" +:+ h). by rewrite !str_app_assoc. }
  rewrite split_once_at.
  2:{ change (String "-" (k +:+ "-" +:+ n +:+ "." +:+ d)) with ("-" +:+ (k +:+ "-" +:+ n +:+ "." +:+ d)). unfold numbers. plain_chars. }
  rewrite split_once_at by (unfold numbers; plain_chars).
  change numbers with (join "." [x; y; z]). rewrite (split_on_join ".") by first [done | repeat constructor; plain_chars]. done.
Qed.

Lemma semver_build_app r :
  semver_build +:+ r = numbers +:+ String "-" (k +:+ String "-" (n +:+ ("." +:+ d +:+ "." +:+ h) +:+ r)).
Proof.
  unfold semver_build. change (String "-" (n +:+ ("." +:+ d +:+ "." +:+ h) +:+ r)) with ("-" +:+ (n +:+ ("." +:+ d +:+ "." +:+ h) +:+ r)).
  change (String "-" (k +:+ ?u)) with ("-" +:+ (k +:+ u)). by rewrite !str_app_assoc.
Qed.

Lemma replace_build e sub r :
  is_digit e = false → e ≠ "d"%char → e ≠ "r"%char →
  str_replace (semver_build +:+ r) (String "-" (String e sub)) EmptyString =
  semver_build +:+ str_replace r (String "-" (String e sub)) EmptyString.
Proof using Type*.
  intros He Hed Her.
  pose proof Px. pose proof Py. pose proof Pz. pose proof Pk. pose proof Pn. pose proof Pd. pose proof Ph.
  assert (Hstep : ∀ c w t, c ≠ e → str_replace (String "-" (String c w +:+ t)) (String "-" (String e sub)) EmptyString =
                                   String "-" (str_replace (String c w +:+ t) (String "-" (String e sub)) EmptyString)).
  { intros c w t Hc. apply str_replace_step. change (String c w +:+ t) with (String c (w +:+ t)).
    cbn [startswith]. destruct (Ascii.eqb e c) eqn:E; [apply Ascii.eqb_eq in E; congruence|]. by rewrite andb_false_r. }
  rewrite !semver_build_app.
  destruct (kind_chars k Hk) as [(c & k' & Ek & Hc) _]. destruct n as [|m n'] eqn:En; [by destruct Hn|].
  assert (c ≠ e) by (destruct Hc; congruence).
  assert (m ≠ e) by (intros ->; destruct Hn as [_ Hn2]; cbn [all_chars] in Hn2; by rewrite He in Hn2).
  rewrite str_replace_skip by (unfold numbers; plain_chars). rewrite Ek, Hstep, <- Ek by done.
  rewrite str_replace_skip by plain_chars. rewrite Hstep by done. rewrite <- En in *.
  rewrite str_replace_skip by plain_chars. by rewrite str_replace_skip by plain_chars.
Qed.

Lemma to_semver_build s : gce_image s = semver_build → to_semver s = Some canonical.
Proof using Type*.
  pose proof Px. pose proof Py. pose proof Pz. pose proof Pk. pose proof Pn. pose proof Pd. pose proof Ph.
  intros Hs. unfold to_semver. rewrite Hs, semver_build_complete. cbn [mbind option_bind].
  rewrite semver_build_no_dev, semver_build_dotted, map_char_none; [done|]. unfold numbers. plain_chars.
Qed.

(** What the scylla binary prints and docker tags, with [sep] between the numbers and the kind. *)
Definition spelled (sep arch rest : string) : string :=
  (numbers +:+ sep +:+ k +:+ "-" +:+ n +:+ "." +:+ d +:+ "." +:+ h +:+ arch) +:+ rest.
Definition gce_spelled : string :=
  numbers +:+ "." +:+ k +:+ "." +:+ n +:+ "." +:+ d +:+ "." +:+ h.

Lemma normalise_spelled sep arch rest :
  sep = "~" ∨ sep = "-" → arch = EmptyString ∨ arch = "-aarch64" ∨ arch = "-x86_64" → (rest = EmptyString ∨ ∃ r, rest = " " +:+ r) →
  serial = [] → normalise (spelled sep arch rest) = Some canonical.
Proof using Type*.
  pose proof Px. pose proof Py. pose proof Pz. pose proof Pk. pose proof Pn. pose proof Pd. pose proof Ph.
  intros Hsep Harch Hrest Hnone. unfold normalise.
  set (front := numbers +:+ sep +:+ k +:+ "-" +:+ n +:+ "." +:+ d +:+ "." +:+ h +:+ arch).
  assert (Hsp : (split_once " " (spelled sep arch rest)).1 = front).
  { assert (all_chars (λ c, negb (Ascii.eqb c " ")) front = true) as Hf.
    { unfold front, numbers. destruct Hsep as [-> | ->]; plain_chars; by destruct Harch as [->|[->| ->]]. }
    unfold spelled. fold front. destruct Hrest as [->|[r ->]].
    - rewrite str_app_nil. apply (split_once_head _ _ _ []). by apply split_on_no_sep.
    - change (" " +:+ r) with (String " " r). by rewrite split_once_at. }
  rewrite Hsp. cbv zeta. apply to_semver_build.
  assert (Hm : map_chars (λ c, if Ascii.eqb c "~" then "-"%char else c) front = semver_build +:+ arch).
  { assert (Ha : map_chars (λ c, if Ascii.eqb c "~" then "-"%char else c) arch = arch) by by destruct Harch as [->|[->| ->]].
    unfold front. rewrite !map_chars_app, Ha.
    rewrite (map_char_none _ _ numbers), (map_char_none _ _ k), (map_char_none _ _ n), (map_char_none _ _ d), (map_char_none _ _ h)
      by (unfold numbers; plain_chars).
    unfold semver_build. rewrite !str_app_assoc. by destruct Hsep as [-> | ->]. }
  rewrite Hm, replace_build by done.
  replace (str_replace (semver_build +:+ str_replace arch "-aarch64" EmptyString) "-x86_64" EmptyString) with semver_build.
  - by apply semver_build_gce.
  - rewrite replace_build by done. destruct Harch as [->|[->| ->]]; symmetry; apply str_app_nil.
Qed.

Lemma normalise_gce : normalise gce_spelled = Some canonical.
Proof using Type*.
  pose proof Px. pose proof Py. pose proof Pz. pose proof Pk. pose proof Pn. pose proof Pd. pose proof Ph.
  assert (Hsp : (split_once " " gce_spelled).1 = gce_spelled).
  { apply (split_once_head _ _ _ []), split_on_no_sep. unfold gce_spelled, numbers. plain_chars. }
  assert (Hdash : ∀ sub, str_replace gce_spelled (String "-" sub) EmptyString = gce_spelled).
  { intros sub. rewrite <- (str_app_nil gce_spelled) at 1. rewrite str_replace_skip; [apply str_app_nil|].
    unfold gce_spelled, numbers. plain_chars. }
  unfold normalise. rewrite Hsp, map_char_none by (unfold gce_spelled, numbers; plain_chars). cbv zeta.
  rewrite !Hdash. apply to_semver_build. unfold gce_image.
  assert (E : gce_image_here gce_spelled = Some semver_build).
  { assert (k ≠ EmptyString) by (by destruct (kind_chars k Hk) as [(? & ? & -> & _) _]).
    destruct (number_digits x Hx), (number_digits y Hy), (number_digits z Hz).
    unfold gce_image_here, gce_spelled, numbers. rewrite !str_app_assoc.
    rewrite (run_dot is_digit x) by done. cbn [mbind option_bind fst snd].
    rewrite (run_dot is_digit y) by done. cbn [mbind option_bind fst snd].
    rewrite (run_dot is_digit z) by done. cbn [mbind option_bind fst snd].
    rewrite (run_dot _ k) by done. cbn [mbind option_bind fst snd].
    rewrite line_all by plain_chars.
    unfold semver_build, numbers. by rewrite !str_app_assoc. }
  unfold gce_spelled in *. destruct (numbers +:+ _) as [|c r]; cbn [search]; by rewrite E.
Qed.
End spellings.

(** C27. One build has one version, however it is spelled. The scylla binary writes
    [5.2.0~dev-0.20220829.67c91e8bcd61], with or without a build id after a space, a docker tag
    has a dash for the tilde and may end in the architecture, and the name of a GCE image has dots
    throughout and a serial number after the commit. For all version numbers, development and
    candidate builds, build numbers, dates of this century and commits, every one of these texts
    parses, to a version with the numbers given and the kind, number and date of the build as
    pre-release; the build part is the commit, in an image name (of a commit that does not have
    the eight characters of a date) with the serial number behind it. Since comparisons do not
    look at the build part, the version of any of the texts is equal to that of the image: they
    never depend on where a version was read. *)
Theorem build_spellings_agree x y z k n d h m sep arch rest :
  lang RNumber x → lang RNumber y → lang RNumber z → build_kind k → digits n →
  date8 d → startswith "20" d = true → sha h → String.length h ≠ 8%nat → digits m →
  sep = "~" ∨ sep = "-" → arch = EmptyString ∨ arch = "-aarch64" ∨ arch = "-x86_64" →
  (rest = EmptyString ∨ ∃ r, rest = " " +:+ r) →
  parse (spelled x y z k n d h sep arch rest) = Ok (build_version x y z k n d h) ∧
  parse (gce_spelled x y z k n d h) = Ok (build_version x y z k n d h) ∧
  parse (gce_spelled x y z k n d (h +:+ "." +:+ m)) = Ok (build_version x y z k n d (h +:+ "." +:+ m)) ∧
  __eq__ (VObject ComparableScyllaVersion (build_version x y z k n d h))
    (OStr (gce_spelled x y z k n d (h +:+ "." +:+ m))) = Ok true.
Proof.
  intros Hx Hy Hz Hk Hn Hd Hd20 Hh Hlen Hm Hsep Harch Hrest.
  assert (parse (gce_spelled x y z k n d (h +:+ "." +:+ m)) = Ok (build_version x y z k n d (h +:+ "." +:+ m))) as Hserial.
  { unfold parse. rewrite (normalise_gce x y z k n d (h +:+ "." +:+ m)) with (commit := h) (serial := [m]) by eauto.
    cbn [mbind option_bind]. by rewrite (canonical_groups x y z k n d _) with (commit := h) (serial := [m]) by eauto. }
  unfold __eq__, _transform_to_comparable, construct. cbn [vo_class]. rewrite Hserial. cbn [obind].
  split; [|split; [|split]]; [| |done|f_equal; by apply bool_decide_eq_true].
  all: unfold parse; rewrite ?(normalise_spelled x y z k n d h) with (commit := h) (serial := []) by auto;
    rewrite ?(normalise_gce x y z k n d h) with (commit := h) (serial := []) by auto;
    cbn [mbind option_bind]; by rewrite (canonical_groups x y z k n d h) with (commit := h) (serial := []) by auto.
Qed.

Lemma build_spellings_agree_witness :
  parse "5.2.0~rc1-0.20220829.67c91e8bcd61-aarch64 with build-id 7" =
    Ok (Version 5 2 0 "rc1-0.20220829" "67c91e8bcd61") ∧
  parse "5.2.0.rc1.0.20220829.67c91e8bcd61.1" = Ok (Version 5 2 0 "rc1-0.20220829" "67c91e8bcd61.1").
Proof.
  assert (H0 : lang RNumber "0") by by apply lang_alt_l, lang_lit_iff.
  assert (Hn : ∀ c, char_in "1" "9" c = true → lang RNumber (String c EmptyString)).
  { intros c Hc. apply lang_alt_r. rx_seq (String c EmptyString); [by apply lang_char|apply lang_star_nil]. }
  assert (Hk : build_kind "rc1") by (apply (kind_rc "1"); by split).
  destruct (build_spellings_agree "5" "2" "0" "rc1" "0" "20220829" "67c91e8bcd61" "1" "~" "-aarch64" " with build-id 7")
    as (H1 & _ & H3 & _); auto; try (by split); try (by vm_compute).
  right. by exists "with build-id 7".
Defined.

(** ** Choosing a versioned method *)
Section release.
Context (x y z : string).
Context (Hx : lang RNumber x) (Hy : lang RNumber y) (Hz : lang RNumber z) (Hy8 : (String.length y < 8)%nat).

Lemma release_chars (f : ascii → bool) :
  (∀ c, is_digit c = true → f c = true) → f "."%char = true → all_chars f (numbers x y z) = true.
Proof using Hx Hy Hz.
  intros Hf Hdot. unfold numbers. rewrite !all_chars_app. cbn [all_chars]. rewrite Hdot.
  by rewrite !(all_chars_impl is_digit f) by (first [done | by apply number_digits]).
Qed.

Lemma release_split : split_on "." (numbers x y z) = [x; y; z].
Proof using Hx Hy Hz.
  change (numbers x y z) with (join "." [x; y; z]). apply (split_on_join "."); [done|].
  repeat constructor; apply digits_no_dot; by apply number_digits.
Qed.

Lemma release_dotted : dotted_build (numbers x y z) = numbers x y z.
Proof using Type*.
  unfold dotted_build. rewrite search_none; [done|]. intros t. rewrite release_split. cbn [tail]. intros Ht.
  apply dotted_none. intros u Hu. destruct (build_id_here u) as [i|] eqn:E; [|done].
  apply build_id_here_parts in E as (a & b & c & rest & E & Hl). rewrite E in Hu.
  destruct (transitivity Hu Ht) as [ks Hk]. destruct ks as [|? ks]; [simplify_eq/=; lia|].
  apply (f_equal length) in Hk. rewrite length_app in Hk. simpl in Hk. lia.
Qed.

Lemma release_no_dev : no_dev (numbers x y z) = numbers x y z.
Proof using Type*.
  unfold no_dev. rewrite search_none; [done|]. intros t. rewrite release_split. intros [ks Ht].
  destruct (no_dev_here t) as [i|] eqn:E; [|done]. apply no_dev_here_parts in E as (a & b & c & d & rest & E & _).
  rewrite E in Ht. destruct ks as [|? ks].
  - simplify_eq/=. destruct (number_digits _ Hz) as [_ Hz']. rewrite !all_chars_app in Hz'. cbn in Hz'. by rewrite andb_false_r in Hz'.
  - apply (f_equal length) in Ht. rewrite length_app in Ht. simpl in Ht. lia.
Qed.

Lemma release_finish s : complete (gce_image s) = Some (numbers x y z) → to_semver s = Some (numbers x y z).
Proof using Type*.
  unfold to_semver. intros ->. cbn [mbind option_bind]. rewrite release_no_dev, release_dotted, map_char_none; [done|].
  apply release_chars; [|done]. intros c. by destruct c as [[] [] [] [] [] [] [] []].
Qed.

Lemma release_groups : semver_groups (numbers x y z) =
  Some (Version (int_of_digits x) (int_of_digits y) (int_of_digits z) EmptyString EmptyString).
Proof using Type*.
  assert (Hplain : ∀ c, all_chars (λ e, negb (Ascii.eqb e c)) (numbers x y z) = true → (split_once c (numbers x y z)) = (numbers x y z, None)).
  { intros c. generalize (numbers x y z). intros s. induction s as [|e s IH]; [done|]. simpl.
    intros [->%negb_true_iff Hs]%andb_true_iff. by rewrite IH. }
  unfold semver_groups. rewrite anchored_intro.
  2:{ unfold SEMVER_REGEX, numbers. cbn [RSeqs]. rx_seq x; [done|]. rx_seq "."; [rx_done|]. rx_seq y; [done|].
      rx_seq "."; [rx_done|]. rewrite <- (str_app_nil z). rx_seq z; [done|]. rx_seq EmptyString; by apply lang_opt_iff; left. }
  cbn [negb]. rewrite line_all by (apply release_chars; [intros c; by destruct c as [[] [] [] [] [] [] [] []]|done]).
  rewrite (Hplain "+"%char) by (apply release_chars; [intros c; by destruct c as [[] [] [] [] [] [] [] []]|done]).
  rewrite (Hplain "-"%char) by (apply release_chars; [intros c; by destruct c as [[] [] [] [] [] [] [] []]|done]).
  by rewrite release_split.
Qed.
End release.

(** Digits and dots come unchanged through the first steps. *)
Definition dotted_digits (s : string) : Prop := all_chars (λ c, is_digit c || Ascii.eqb c ".") s = true.

Lemma dotted_digits_normalise s : dotted_digits s → normalise s = to_semver s.
Proof.
  intros Hs. assert (Hc : ∀ c, is_digit c || Ascii.eqb c "." = false → all_chars (λ e, negb (Ascii.eqb e c)) s = true).
  { intros c Hc. revert Hs. apply all_chars_impl. intros e He. destruct (Ascii.eqb e c) eqn:E; [|done].
    apply Ascii.eqb_eq in E as ->. by rewrite Hc in He. }
  unfold normalise. rewrite (split_once_head _ _ s []) by (by apply split_on_no_sep, Hc).
  rewrite map_char_none by by apply Hc. cbv zeta.
  assert (Hr : ∀ sub, str_replace s (String "-" sub) EmptyString = s).
  { intros sub. rewrite <- (str_app_nil s) at 1. rewrite str_replace_skip; [apply str_app_nil|by apply Hc]. }
  by rewrite !Hr.
Qed.

Lemma parse_release x y z :
  lang RNumber x → lang RNumber y → lang RNumber z → (String.length y < 8)%nat →
  parse (numbers x y z) = Ok (Version (int_of_digits x) (int_of_digits y) (int_of_digits z) EmptyString EmptyString).
Proof.
  intros Hx Hy Hz Hy8. unfold parse. rewrite dotted_digits_normalise, (release_finish x y z); [|done..| |].
  - cbn [mbind option_bind]. by rewrite release_groups.
  - unfold gce_image. rewrite search_none.
    + cbn [default]. unfold complete. rewrite release_split by done. rewrite (split_once_head _ _ z []).
      * by rewrite (proj2 (number_digits z Hz)).
      * apply split_on_no_sep, digits_no_dash, number_digits, Hz.
    + intros t. rewrite release_split by done. intros [ks Ht].
      destruct (gce_image_here t) as [i|] eqn:E; [|done]. apply gce_image_here_parts in E as (? & ? & ? & ? & ? & ? & E & _).
      rewrite E in Ht. apply (f_equal length) in Ht. rewrite length_app in Ht. simpl in Ht. lia.
  - apply release_chars; [done..|by intros c ->|done].
Qed.

Lemma parse_short x y :
  lang RNumber x → lang RNumber y → (String.length y < 8)%nat →
  parse (x +:+ "." +:+ y) = Ok (Version (int_of_digits x) (int_of_digits y) 0 EmptyString EmptyString).
Proof.
  intros Hx Hy Hy8. assert (H0 : lang RNumber "0") by by apply lang_alt_l, lang_lit_iff.
  assert (Hs : split_on "." (x +:+ "." +:+ y) = [x; y]).
  { change (x +:+ "." +:+ y) with (join "." [x; y]). apply (split_on_join "."); [done|].
    repeat constructor; apply digits_no_dot; by apply number_digits. }
  unfold parse. rewrite dotted_digits_normalise, (release_finish x y "0"); [|done..| |].
  - cbn [mbind option_bind]. by rewrite release_groups.
  - unfold gce_image. rewrite search_none.
    + cbn [default]. unfold complete. rewrite Hs, contains_char_none by by apply digits_no_dash, number_digits.
      unfold numbers. by rewrite !str_app_assoc.
    + intros t. rewrite Hs. intros [ks Ht].
      destruct (gce_image_here t) as [i|] eqn:E; [|done]. apply gce_image_here_parts in E as (? & ? & ? & ? & ? & ? & E & _).
      rewrite E in Ht. apply (f_equal length) in Ht. rewrite length_app in Ht. simpl in Ht. lia.
  - unfold dotted_digits. rewrite !all_chars_app. cbn [all_chars].
    rewrite !(all_chars_impl is_digit (λ c, is_digit c || Ascii.eqb c ".")); [done|by intros c ->|by apply number_digits|by intros c ->|by apply number_digits].
Qed.

(** The pairs of a decorator whose bounds are short versions [a.b] and [c.d]. *)
Record short_range := ShortRange { lo_major : string; lo_minor : string; hi_major : string; hi_minor : string }.
Definition short_range_wf (r : short_range) : Prop :=
  lang RNumber (lo_major r) ∧ lang RNumber (lo_minor r) ∧ lang RNumber (hi_major r) ∧ lang RNumber (hi_minor r) ∧
  (String.length (lo_minor r) < 8)%nat ∧ (String.length (hi_minor r) < 8)%nat.
Definition range_pair (r : short_range) : option string * option string :=
  (Some (lo_major r +:+ "." +:+ lo_minor r), Some (hi_major r +:+ "." +:+ hi_minor r)).

(** The release series [x.y] is in the range. *)
Definition covers (r : short_range) (x y : string) : bool :=
  py_le (int_of_digits (lo_major r), int_of_digits (lo_minor r)) (int_of_digits x, int_of_digits y) &&
  py_le (int_of_digits x, int_of_digits y) (int_of_digits (hi_major r), int_of_digits (hi_minor r)).

Lemma count_skip f a t : all_chars is_digit a = true → count_aux (String.length a + f) "." (a +:+ t) = count_aux f "." t.
Proof.
  induction a as [|c a IH]; [done|]. cbn [all_chars]. intros [Hc Ha]%andb_true_iff.
  change (String c a +:+ t) with (String c (a +:+ t)). cbn [String.length Nat.add count_aux].
  replace (startswith "." (String c (a +:+ t))) with false by (clear -Hc; by destruct c as [[] [] [] [] [] [] [] []]).
  by apply IH.
Qed.

Lemma str_count_dots a b : all_chars is_digit a = true → all_chars is_digit b = true → str_count (a +:+ "." +:+ b) "." = 1%nat.
Proof.
  intros Ha Hb. unfold str_count. rewrite !str_length_app.
  replace (S (String.length a + (String.length "." + String.length b)))%nat with (String.length a + (S (String.length b + 1)))%nat by (simpl; lia).
  rewrite count_skip by done. change ("." +:+ b) with (String "." b). cbn [count_aux].
  change (startswith "." (String "." b)) with true. change (str_drop (String.length ".") (String "." b)) with b. cbv iota.
  rewrite <- (str_app_nil b) at 2. by rewrite count_skip.
Qed.

Lemma fill_short r : short_range_wf r →
  fill_pair (range_pair r) = (lo_major r +:+ "." +:+ lo_minor r, numbers (hi_major r) (hi_minor r) "999").
Proof.
  intros (H1 & H2 & H3 & H4 & _). unfold fill_pair, range_pair.
  assert (Ht : ∀ u v, truthy (u +:+ "." +:+ v) = true) by by intros [].
  rewrite !Ht, str_count_dots by by apply number_digits. cbn. unfold numbers. by rewrite !str_app_assoc.
Qed.

Lemma py_le_series (p q : Z * Z) (u v : Z) (t : string) :
  u <= v → py_le (p, u, t) (q, v, t) = py_le p q.
Proof.
  intros Huv. unfold py_le. rewrite !cmp_pair, cmp_refl. destruct (cmp p q); [|done..].
  unfold cmp, compare_Z. destruct (Z.compare_spec u v); [done|done|lia].
Qed.

Lemma le_same cls a b :
  __le__ (VObject cls a) (OVersion (VObject cls b)) = Ok (py_le (as_comparable (VObject cls a)) (as_comparable (VObject cls b))).
Proof. unfold __le__. by rewrite transform_same. Qed.

Lemma in_range_short r x y z :
  short_range_wf r → lang RNumber x → lang RNumber y → lang RNumber z → (String.length y < 8)%nat → int_of_digits z <= 999 →
  in_range (lo_major r +:+ "." +:+ lo_minor r) (numbers (hi_major r) (hi_minor r) "999") (numbers x y z) = Ok (covers r x y).
Proof.
  intros (H1 & H2 & H3 & H4 & H5 & H6) Hx Hy Hz Hy8 Hz9.
  assert (H999 : lang RNumber "999") by (apply matches_lang; reflexivity).
  assert (Hz0 : 0 <= int_of_digits z) by (apply digits_value_nonneg; [done|by apply number_digits]).
  unfold in_range, construct. rewrite parse_short, parse_release by done. cbn [obind]. rewrite le_same. cbn [obind].
  unfold __le__, _transform_to_comparable, construct. cbn [vo_class]. rewrite parse_release by done. cbn [obind].
  unfold as_comparable, covers. cbn [vo_version v_major v_minor v_patch v_pre_release truthy truthy_string].
  change (int_of_digits "999") with 999. rewrite !py_le_series by done. by destruct (py_le _ _).
Qed.

(** The methods registered by decorators with one short range each. *)
Definition registered {F} (regs : list (short_range * F)) : mapping F :=
  foldl (λ m rf, register [range_pair rf.1] rf.2 m) [] regs.

Lemma registered_pairs {F} (regs : list (short_range * F)) :
  Forall (λ rf, short_range_wf rf.1) regs → NoDup ((λ rf, fill_pair (range_pair rf.1)) <$> regs) →
  registered regs =
  (λ rf, ((lo_major rf.1 +:+ "." +:+ lo_minor rf.1, numbers (hi_major rf.1) (hi_minor rf.1) "999"), rf.2)) <$> regs.
Proof.
  intros Hwf Hnd. unfold registered.
  assert (E : (λ rf, ((lo_major rf.1 +:+ "." +:+ lo_minor rf.1, numbers (hi_major rf.1) (hi_minor rf.1) "999"), rf.2)) <$> regs =
              (λ rf : short_range * F, (fill_pair (range_pair rf.1), rf.2)) <$> regs).
  { apply list_fmap_ext. intros i rf Hrf. rewrite fill_short; [done|]. eapply Forall_lookup_1 in Hwf; eauto. }
  rewrite E. clear E Hwf.
  assert (G : ∀ m, NoDup (m.*1 ++ ((λ rf, fill_pair (range_pair rf.1)) <$> regs)) →
    foldl (λ m rf, register [range_pair rf.1] rf.2 m) m regs = m ++ ((λ rf, (fill_pair (range_pair rf.1), rf.2)) <$> regs)).
  { clear Hnd. induction regs as [|[r f] regs IH]; intros m Hm; simpl; [by rewrite app_nil_r|].
    change (register [range_pair r] f m) with (dict_set (fill_pair (range_pair r)) f m). rewrite dict_set_new.
    - rewrite IH; [by rewrite <- app_assoc|]. rewrite fmap_app. by rewrite <- app_assoc.
    - apply dict_get_None. intros Hin. apply NoDup_app in Hm as (_ & Hd & _). apply (Hd _ Hin). left. }
  by apply (G []).
Qed.

(** Methods decorated with [scylla_versions((a.b, c.d))] are chosen by release series: on a
    release [x.y.z] the first method, in the order of the definitions, whose range has
    [a.b <= x.y <= c.d] as pairs of numbers runs, with every patch release of the series of the
    upper bound in it, and what it does is the outcome; when no range has the series the call
    fails with [MethodVersionNotFound]. Methods are those that raise no [ValueError] of their
    own, and the ranges differ. *)
Theorem versioned_method_chosen {F R} (call : F → outcome vexn R) (regs : list (short_range * F)) x y z :
  Forall (λ rf, short_range_wf rf.1) regs → NoDup ((λ rf, fill_pair (range_pair rf.1)) <$> regs) →
  lang RNumber x → lang RNumber y → lang RNumber z → (String.length y < 8)%nat → int_of_digits z <= 999 →
  (∀ f, call f ≠ Err ValueError) →
  dispatch call (registered regs) (numbers x y z) =
  match list_find (λ rf, covers rf.1 x y = true) regs with
  | Some (_, rf) => call rf.2
  | None => Err MethodVersionNotFound
  end.
Proof.
  intros Hwf Hnd Hx Hy Hz Hy8 Hz9 Hcall. rewrite registered_pairs by done. clear Hnd.
  induction Hwf as [|[r f] regs Hr _ IH]; [done|]. cbn [fmap list_fmap dispatch fst snd].
  rewrite in_range_short by done. cbn [obind list_find fst snd].
  destruct (decide (covers r x y = true)) as [Hc|Hc].
  - rewrite Hc. cbn [snd]. destruct (call f) as [v|[]] eqn:E; [done| |done]. by destruct (Hcall f).
  - rewrite (not_true_is_false _ Hc), IH. by destruct (list_find _ regs) as [[]|].
Qed.

Lemma versioned_method_chosen_witness :
  dispatch (λ f : string, Ok (E := vexn) f)
    (registered [(ShortRange "4" "0" "4" "3", "old"); (ShortRange "4" "4" "4" "5", "new")]) (numbers "4" "5" "12") = Ok "new".
Proof.
  assert (Hn : ∀ c, char_in "1" "9" c = true → lang RNumber (String c EmptyString)).
  { intros c Hc. apply lang_alt_r. rx_seq (String c EmptyString); [by apply lang_char|apply lang_star_nil]. }
  assert (H0 : lang RNumber "0") by by apply lang_alt_l, lang_lit_iff.
  assert (H12 : lang RNumber "12").
  { apply lang_alt_r. rx_seq "1"; [by apply lang_char|by apply lang_star_chars]. }
  rewrite versioned_method_chosen; [reflexivity| | |by apply Hn|by apply Hn|done|cbn; lia|by vm_compute|done].
  - apply Forall_cons. split; [|apply Forall_singleton]; unfold short_range_wf; cbn; auto 10 with lia.
  - apply (bool_decide_eq_true_1 (NoDup _)). vm_compute. reflexivity.
Defined.

(** A [ValueError] raised by the chosen method is taken for one of the parsing: the loop goes on,
    and the caller sees [MethodVersionNotFound]. *)
Lemma method_error_swallowed {F R} (call : F → outcome vexn R) min_v max_v (f : F) v :
  call f = Err ValueError → in_range min_v max_v v = Ok true →
  dispatch call [((min_v, max_v), f)] v = Err MethodVersionNotFound.
Proof. intros Hf Hr. cbn [dispatch]. rewrite Hr. cbn [obind]. by rewrite Hf. Qed.

(** Candidates are compared as texts, so the tenth comes before the second. *)
Lemma tenth_candidate_before_second :
  (try! a := construct ComparableScyllaVersion "5.2.0-rc10" in __lt__ a (OStr "5.2.0-rc2")) = Ok true.
Proof. vm_compute. reflexivity. Qed.
End Versions.
