(* ===== verification/TriggerConfig.v ===== *)
(** The trigger matrix: its models, their validation and the selection of jobs
    (sdcm/utils/trigger_matrix/models.py, config.py, filters.py).

    Values of parameters are what YAML gives: the scalars, lists and mappings of [json]. Pydantic
    is the interface [ModelValidate]: [model_validate] builds the configuration from the raw
    mapping, and runs the validators the models declare. *)
From Stdlib Require Import Ascii String ZArith Lia.
From stdpp Require Import base decidable option strings numbers sets list.
From S2P Require Import Prelude.
From S2P Require Import PyString.
From S2P Require Import PyDict.
From S2P Require Import PyJson.
From S2P Require Import TriggerVersions.
Import TriggerVersions.
Local Open Scope py_scope.

Module TriggerConfig.

Definition DEFAULT_ARCH : string := "x86_64".
Definition WAIT_TIMEOUT : Z := 14400.

Definition VERSION_RESOLUTION_STRATEGIES : list string := ["per-backend"; "common"; "aws-strict"].
Definition DEFAULT_VERSION_RESOLUTION : string := "per-backend".

Record JobConfig : Type := {
  job_name : string;
  backend : string;
  arch : string;
  disabled : bool;
  labels : list string;
  include_versions : list string;
  exclude_versions : list string;
  pre_release : list string;
  job_throttle_category : string;
  job_params : list (string * json);
  wait : bool;
  wait_timeout : Z;
  fail_on_error : bool;
  collect_results : list string
}.

Record MatrixConfig : Type := {
  jobs : list JobConfig;
  defaults : list (string * json);
  default_scylla_version : string;
  version_resolution : string;
  email_recipients : list string;
  required_params : list string;
  supported_versions_only : bool
}.

Definition validate_arch (value : string) : outcome texn string :=
  if truthy value && negb (bool_decide (value ∈ ["aarch64"; "x86_64"])) then Err OtherError else Ok value.

Definition job_arch (job : JobConfig) : string :=
  if truthy (arch job) then arch job
  else if bool_decide ("aarch64" ∈ labels job) then "aarch64" else DEFAULT_ARCH.

(** ** One architecture per version (reject_cross_arch_twins) *)
Definition _matches_version (job : JobConfig) (version : string) : bool :=
  if truthy (include_versions job) && negb (existsb (λ p, startswith p version) (include_versions job)) then false
  else negb (existsb (λ p, startswith p version) (exclude_versions job)).

Definition _version_ranges_overlap (a b : JobConfig) : bool :=
  let prefixes := include_versions a ++ exclude_versions a ++ include_versions b ++ exclude_versions b in
  let probes := "master" :: "9999.9" :: prefixes ++ ((λ p, p +:+ ".999") <$> prefixes) in
  existsb (λ v, _matches_version a v && _matches_version b v) probes.

(** [any(... for i, a in enumerate(jobs) for b in jobs[i + 1:])] *)
Fixpoint has_twins (l : list JobConfig) : bool :=
  match l with
  | [] => false
  | a :: l' =>
    existsb (λ b, negb (String.eqb (job_arch a) (job_arch b)) && _version_ranges_overlap a b) l' || has_twins l'
  end.

Definition group_job (by_name : list (string * list JobConfig)) (job : JobConfig) : list (string * list JobConfig) :=
  dict_set (job_name job) (default [] (dict_get (job_name job) by_name) ++ [job]) by_name.

Definition by_name (l : list JobConfig) : list (string * list JobConfig) :=
  foldl group_job [] (filter (λ job, disabled job = false) l).

Definition reject_cross_arch_twins (config : MatrixConfig) : outcome texn MatrixConfig :=
  let twins := (filter (λ p, has_twins p.2 = true) (by_name (jobs config))).*1 in
  if truthy twins then Err OtherError else Ok config.

(** ** Selecting jobs (filter_jobs) *)
Definition _is_version_excluded (scylla_version : string) (exclude_versions : list string) : bool :=
  if negb (truthy exclude_versions) then false
  else existsb (λ prefix, startswith prefix (_strip_version_qualifier scylla_version)) exclude_versions.

Definition _is_version_included (scylla_version : string) (include_versions : list string) : bool :=
  existsb (λ prefix, startswith prefix (_strip_version_qualifier scylla_version)) include_versions.

Definition _is_pre_release_match (scylla_version resolved_version : string) (pre_release : list string) : bool :=
  if String.eqb (_strip_version_qualifier scylla_version) "master" then true
  else existsb (λ tag, contains ("-" +:+ tag) resolved_version) pre_release.

(** The groups of a selector: labels of an item are alternatives; an empty item is no group. *)
Definition required_groups (labels_selector : option string) : list (list string) :=
  if truthy labels_selector then
    filter (λ group, group ≠ [])
      ((λ item, filter (λ label, label ≠ EmptyString) (strip <$> split_on "/" item))
         <$> split_on "," (default EmptyString labels_selector))
  else [].

Record selection : Type := {
  scylla_version : string;
  resolved_version : option string;
  labels_selector : option string;
  backend_filter : option string;
  skip_jobs : list string;
  image_arch : option string
}.

Definition job_selected (sel : selection) (job : JobConfig) : bool :=
  let pre_release_version :=
    if truthy (resolved_version sel) then default EmptyString (resolved_version sel) else scylla_version sel in
  let backend_ := default EmptyString (backend_filter sel) in
  let image_arch_ := default EmptyString (image_arch sel) in
  if disabled job then false
  else if bool_decide (job_name job ∈ skip_jobs sel) then false
  else if truthy backend_ && negb (String.eqb (backend job) backend_) then false
  else if String.eqb image_arch_ "aarch64" && negb (String.eqb (job_arch job) "aarch64") then false
  else if String.eqb image_arch_ "x86_64" && String.eqb (job_arch job) "aarch64" then false
  else if truthy (include_versions job) && negb (_is_version_included (scylla_version sel) (include_versions job)) then false
  else if _is_version_excluded (scylla_version sel) (exclude_versions job) then false
  else if truthy (pre_release job) &&
          negb (_is_pre_release_match (scylla_version sel) pre_release_version (pre_release job)) then false
  else forallb (λ group, existsb (λ label, bool_decide (label ∈ labels job)) group) (required_groups (labels_selector sel)).

Definition filter_jobs (l : list JobConfig) (sel : selection) : list JobConfig :=
  filter (λ job, job_selected sel job = true) l.

(** ** Loading (config.py) *)
Inductive layout_error : Type :=
  | NotAMapping (at_ : string)
  | JobLevelKey (at_ key : string)
  | NotAScalar (at_ key : string)
  | UnknownKey (at_ key : string)
  | GceRegion (at_ : string).

Definition JOB_LEVEL_KEYS : list string :=
  ["job_name"; "backend"; "arch"; "disabled"; "labels"; "include_versions"; "exclude_versions"; "pre_release";
   "job_throttle_category"; "params"; "wait"; "wait_timeout"; "fail_on_error"; "collect_results"].
Definition MATRIX_LEVEL_KEYS : list string :=
  ["jobs"; "defaults"; "default_scylla_version"; "version_resolution"; "cron_triggers"; "email_recipients";
   "jenkinsfiles"; "required_params"; "supported_versions_only"].

Definition is_scalar (v : json) : bool := match v with JList _ | JObj _ => false | _ => true end.

Definition param_errors (at_ : string) (p : string * json) : list layout_error :=
  (if bool_decide (p.1 ∈ JOB_LEVEL_KEYS) then [JobLevelKey at_ p.1] else []) ++
  (if is_scalar p.2 then [] else [NotAScalar at_ p.1]).

Definition _validate_params_block (params : json) (at_ : string) : list layout_error :=
  match params with
  | JObj d => d ≫= param_errors at_
  | _ => [NotAMapping at_]
  end.

Section Load.
Context {FT : PyFloat}.

(** [f"job '{job.get('job_name', ...)}' (jobs[{index}])"] *)
Definition job_place (index : nat) (job : list (string * json)) : string :=
  "job '" +:+ (match dict_get "job_name" job with Some v => json_str v | None => "<missing job_name>" end) +:+
  "' (jobs[" +:+ PyInt.str_Z (Z.of_nat index) +:+ "])".

(** [job.get("backend") == "gce"] *)
Definition is_text (v : option json) (t : string) : bool :=
  match v with Some (JStr s) => String.eqb s t | _ => false end.

(** ["region" in (job["params"] or {})]; a scalar that is not empty has no members. *)
Definition has_region (v : json) : outcome texn bool :=
  if negb (truthy v) then Ok false
  else match v with
  | JObj d => Ok (dict_in "region" d)
  | JList l => Ok (existsb (λ x, match x with JStr s => String.eqb s "region" | _ => false end) l)
  | JStr s => Ok (contains "region" s)
  | _ => Err OtherError
  end.

Definition _validate_job_entry (index : nat) (job : json) : outcome texn (list layout_error) :=
  match job with
  | JObj d =>
    let place := job_place index d in
    let unknown := (λ k, UnknownKey place k) <$> filter (λ k, k ∉ JOB_LEVEL_KEYS) d.*1 in
    match dict_get "params" d with
    | Some params =>
      let block := _validate_params_block params (place +:+ ": params") in
      if is_text (dict_get "backend" d) "gce" then
        try! region := has_region params in
        Ok (unknown ++ block ++ (if region : bool then [GceRegion place] else []))
      else Ok (unknown ++ block)
    | None => Ok unknown
    end
  | _ => Ok [NotAMapping ("jobs[" +:+ PyInt.str_Z (Z.of_nat index) +:+ "]")]
  end.

(** [enumerate(raw.get(key) or [])] *)
Definition iterate (v : option json) : outcome texn (list json) :=
  match v with
  | None => Ok []
  | Some v =>
    if negb (truthy v) then Ok []
    else match v with
    | JList l => Ok l
    | JObj d => Ok (JStr <$> d.*1)
    | JStr s => Ok ((λ c, JStr (String c EmptyString)) <$> list_ascii_of_string s)
    | _ => Err OtherError
    end
  end.

Definition cron_errors (index : nat) (cron : json) : list layout_error :=
  match cron with
  | JObj d => match dict_get "params" d with
              | Some params => _validate_params_block params ("cron_triggers[" +:+ PyInt.str_Z (Z.of_nat index) +:+ "]: params")
              | None => []
              end
  | _ => []
  end.

Fixpoint job_errors (index : nat) (l : list json) : outcome texn (list layout_error) :=
  match l with
  | [] => Ok []
  | job :: l' =>
    try! es := _validate_job_entry index job in
    try! rest := job_errors (S index) l' in
    Ok (es ++ rest)
  end.

Definition layout_errors (raw : list (string * json)) : outcome texn (list layout_error) :=
  let unknown := (λ k, UnknownKey EmptyString k) <$> filter (λ k, k ∉ MATRIX_LEVEL_KEYS) raw.*1 in
  let defaults_ := match dict_get "defaults" raw with Some v => _validate_params_block v "defaults" | None => [] end in
  try! crons := iterate (dict_get "cron_triggers" raw) in
  try! jobs_ := iterate (dict_get "jobs" raw) in
  try! jes := job_errors 0 jobs_ in
  Ok (unknown ++ defaults_ ++ mjoin (imap cron_errors crons) ++ jes).

Definition validate_matrix_layout (raw : list (string * json)) : outcome texn unit :=
  try! errors := layout_errors raw in
  if truthy errors then Err MatrixValidationError else Ok tt.

(** [raw["email_recipients"] = [e.strip() for e in raw_email.split(",") if e.strip()]] *)
Definition split_recipients (raw : list (string * json)) : list (string * json) :=
  match dict_get "email_recipients" raw with
  | Some (JStr s) =>
    dict_set "email_recipients" (JList (JStr <$> filter (λ e, e ≠ EmptyString) (strip <$> split_on "," s))) raw
  | _ => raw
  end.

(** Pydantic: a validated model holds the raw values, and its validators were run. *)
Class ModelValidate : Type := {
  model_validate : list (string * json) → outcome texn MatrixConfig;
  validated_jobs raw c : model_validate raw = Ok c →
    ∃ l, dict_get "jobs" raw = Some (JList l) ∧
      Forall2 (λ r job, ∃ d, r = JObj d ∧ (dict_get "params" d = Some (JObj (job_params job)) ∨
                                           dict_get "params" d = None ∧ job_params job = [])) l (jobs c);
  validated_defaults raw c : model_validate raw = Ok c →
    dict_get "defaults" raw = Some (JObj (defaults c)) ∨ dict_get "defaults" raw = None ∧ defaults c = [];
  validated_after raw c : model_validate raw = Ok c → reject_cross_arch_twins c = Ok c
}.

(** [load_matrix_config]: [None] is a file that does not exist. *)
Definition load_matrix_config `{MV : ModelValidate} (file : option json) : outcome texn MatrixConfig :=
  match file with
  | None => Err OtherError
  | Some (JObj raw) =>
    match dict_get "jobs" raw with
    | Some (JList _) =>
      let raw := split_recipients raw in
      try! _ := validate_matrix_layout raw in
      match model_validate raw with Ok c => Ok c | Err _ => Err MatrixValidationError end
    | _ => Err MatrixValidationError
    end
  | Some _ => Err MatrixValidationError
  end.
End Load.

(** ** The probes of [_version_ranges_overlap] *)
Lemma startswith_trans a b c : startswith a b = true → startswith b c = true → startswith a c = true.
Proof. rewrite !startswith_spec. intros [t ->] [u ->]. exists (t +:+ u). by rewrite str_app_assoc. Qed.

Lemma startswith_comparable a b v :
  startswith a v = true → startswith b v = true → startswith a b = true ∨ startswith b a = true.
Proof.
  revert b v. induction a as [|c a IH]; intros b v Ha Hb; [by left|].
  destruct b as [|d b]; [by right|]. destruct v as [|e v]; [done|]. cbn [startswith] in *.
  apply andb_true_iff in Ha as [->%Ascii.eqb_eq Ha], Hb as [->%Ascii.eqb_eq Hb].
  rewrite Ascii.eqb_refl. by apply (IH b v).
Qed.

Lemma matches_version_spec job v :
  _matches_version job v = true ↔
  (include_versions job = [] ∨ ∃ p, p ∈ include_versions job ∧ startswith p v = true) ∧
  ∀ p, p ∈ exclude_versions job → startswith p v = false.
Proof.
  unfold _matches_version.
  assert (∀ l, existsb (λ p, startswith p v) l = true ↔ ∃ p, p ∈ l ∧ startswith p v = true) as Hex.
  { intros l. rewrite existsb_exists. by setoid_rewrite <-list_elem_of_In. }
  assert ((negb (existsb (λ p, startswith p v) (exclude_versions job)) = true) ↔
          ∀ p, p ∈ exclude_versions job → startswith p v = false) as Hexc.
  { rewrite negb_true_iff, <-not_true_iff_false, Hex. split.
    - intros H p Hp. apply not_true_iff_false. intros Hs. apply H. by exists p.
    - intros H (p & Hp & Hs). rewrite H in Hs by done. done. }
  destruct (include_versions job) as [|p0 l] eqn:E; cbn [truthy truthy_list andb].
  - rewrite Hexc. naive_solver.
  - destruct (existsb (λ p, startswith p v) (p0 :: l)) eqn:E2; cbn [negb].
    + rewrite Hexc. apply Hex in E2. naive_solver.
    + split; [done|]. intros [[?|H] _]; [done|]. apply Hex in H. congruence.
Qed.

Lemma matches_prefix job P v :
  _matches_version job v = true → startswith P v = true →
  include_versions job = [] ∨ (∃ p, p ∈ include_versions job ∧ startswith p P = true) → _matches_version job P = true.
Proof.
  rewrite !matches_version_spec. intros [_ Hex] HP Hin. split; [done|]. intros e He.
  apply not_true_iff_false. intros Hs. pose proof (startswith_trans e P v Hs HP). by rewrite Hex in H.
Qed.

Lemma overlap_probe a b v :
  v ∈ "master" :: "9999.9" :: include_versions a ++ include_versions b →
  _matches_version a v = true → _matches_version b v = true → _version_ranges_overlap a b = true.
Proof.
  intros Hv Ha Hb. unfold _version_ranges_overlap. apply existsb_exists. exists v. rewrite Ha, Hb. split; [|done].
  apply list_elem_of_In. set_solver.
Qed.

(** A version under an include of either entry is found among the includes. *)
Lemma overlap_included a b v p :
  p ∈ include_versions a → startswith p v = true →
  _matches_version a v = true → _matches_version b v = true → _version_ranges_overlap a b = true.
Proof.
  intros Hp Hs Ha Hb. pose proof (proj1 (matches_version_spec b v) Hb) as [[Hnil|(q & Hq & Hqs)] _].
  - apply (overlap_probe a b p); [set_solver| |]; eapply matches_prefix; eauto using startswith_refl.
  - destruct (startswith_comparable p q v Hs Hqs) as [Hpq|Hqp].
    + apply (overlap_probe a b q); [set_solver| |]; eapply matches_prefix; eauto using startswith_refl.
    + apply (overlap_probe a b p); [set_solver| |]; eapply matches_prefix; eauto using startswith_refl.
Qed.

Lemma overlap_sym a b : _version_ranges_overlap a b = _version_ranges_overlap b a.
Proof.
  assert (∀ a b, _version_ranges_overlap a b = true → _version_ranges_overlap b a = true) as H.
  { intros x y (v & Hv & [Hx Hy]%andb_true_iff)%existsb_exists. apply existsb_exists. exists v.
    rewrite Hx, Hy. split; [|done]. apply list_elem_of_In. apply list_elem_of_In in Hv. set_solver. }
  destruct (_version_ranges_overlap a b) eqn:E, (_version_ranges_overlap b a) eqn:E2; try done;
    [rewrite H in E2 by done|rewrite H in E by done]; done.
Qed.

(** The probes find a version both entries accept whenever there is one, as long as no entry
    excludes the probe that stands for future releases. *)
Lemma overlap_complete a b v :
  (∀ e, e ∈ exclude_versions a ++ exclude_versions b → startswith e "9999.9" = false) →
  _matches_version a v = true → _matches_version b v = true → _version_ranges_overlap a b = true.
Proof.
  intros Hfut Ha Hb.
  pose proof (proj1 (matches_version_spec a v) Ha) as [[Hna|(p & Hp & Hps)] _]; [|by apply (overlap_included a b v p)].
  pose proof (proj1 (matches_version_spec b v) Hb) as [[Hnb|(p & Hp & Hps)] _].
  - apply (overlap_probe a b "9999.9"); [set_solver| |]; apply matches_version_spec; set_solver.
  - rewrite overlap_sym. by apply (overlap_included b a v p).
Qed.

(** Without it they can miss one: these two entries both run 2025.4. *)
Example overlap_gap :
  let job exclude := {| job_name := "j"; backend := "aws"; arch := EmptyString; disabled := false; labels := [];
    include_versions := []; exclude_versions := [exclude]; pre_release := []; job_throttle_category := EmptyString;
    job_params := []; wait := false; wait_timeout := WAIT_TIMEOUT; fail_on_error := false; collect_results := [] |} in
  _version_ranges_overlap (job "master") (job "9") = false ∧
  _matches_version (job "master") "2025.4" = true ∧ _matches_version (job "9") "2025.4" = true.
Proof. vm_compute. done. Qed.

(** ** Twins *)
Lemma job_selected_matches sel job :
  job_selected sel job = true →
  disabled job = false ∧ _matches_version job (_strip_version_qualifier (scylla_version sel)) = true.
Proof.
  unfold job_selected, _matches_version, _is_version_included, _is_version_excluded. intros H.
  destruct (disabled job); [done|]. split; [done|]. cbv zeta in H.
  do 4 (match type of H with (if ?b then _ else _) = _ => destruct b; [done|] end).
  match type of H with (if ?b then _ else _) = _ => destruct b; [done|] end.
  destruct (exclude_versions job) as [|e l]; [done|]. cbn [truthy truthy_list negb] in H.
  by destruct (existsb _ (e :: l)).
Qed.

Lemma group_jobs_get n d l :
  dict_get n (foldl group_job d l) =
    match filter (λ job, job_name job = n) l with
    | [] => dict_get n d
    | g => Some (default [] (dict_get n d) ++ g)
    end.
Proof.
  revert d. induction l as [|job l IH]; intros d; [done|]. cbn [foldl]. rewrite IH. unfold group_job.
  rewrite dict_get_set, filter_cons. destruct (decide (job_name job = n)) as [Hn|Hn].
  - subst n. rewrite decide_True by done. destruct (filter _ l); [done|]. cbn [default from_option id].
    by rewrite <-app_assoc.
  - rewrite decide_False by congruence. done.
Qed.

Lemma has_twins_false l a b :
  has_twins l = false → a ∈ l → b ∈ l → job_arch a = job_arch b ∨ _version_ranges_overlap a b = false.
Proof.
  assert (∀ x y, negb (String.eqb (job_arch x) (job_arch y)) && _version_ranges_overlap x y = false →
                 job_arch x = job_arch y ∨ _version_ranges_overlap x y = false) as Hxy.
  { intros x y. destruct (String.eqb_spec (job_arch x) (job_arch y)); [by left|]. by right. }
  induction l as [|x l IH]; intros Ht Ha Hb; [by apply not_elem_of_nil in Ha|].
  cbn [has_twins] in Ht. apply orb_false_iff in Ht as [Hx Ht].
  assert (∀ y, y ∈ l → job_arch x = job_arch y ∨ _version_ranges_overlap x y = false) as Hhead.
  { intros y Hy. apply Hxy. apply not_true_iff_false. intros H. apply not_true_iff_false in Hx. apply Hx.
    apply existsb_exists. exists y. by rewrite <-list_elem_of_In. }
  apply elem_of_cons in Ha as [->|Ha], Hb as [->|Hb]; [by left|by apply Hhead| |by apply IH].
  rewrite overlap_sym. destruct (Hhead a Ha) as [H|H]; [by left|by right].
Qed.

Lemma by_name_get l a :
  a ∈ l → disabled a = false →
  ∃ g, (job_name a, g) ∈ by_name l ∧ ∀ b, b ∈ l → disabled b = false → job_name b = job_name a → b ∈ g.
Proof.
  intros Ha Hd. set (g := filter (λ job, job_name job = job_name a) (filter (λ job, disabled job = false) l)).
  assert (∀ b, b ∈ l → disabled b = false → job_name b = job_name a → b ∈ g) as Hg
    by (intros b ? ? ?; unfold g; by rewrite !list_elem_of_filter).
  exists g. split; [|done]. apply dict_get_elem. unfold by_name. rewrite group_jobs_get. fold g.
  destruct g; [by destruct (not_elem_of_nil a); apply Hg|done].
Qed.

Lemma twins_apart c sel a b :
  reject_cross_arch_twins c = Ok c →
  (∀ job e, job ∈ jobs c → e ∈ exclude_versions job → startswith e "9999.9" = false) →
  a ∈ filter_jobs (jobs c) sel → b ∈ filter_jobs (jobs c) sel → job_name a = job_name b → job_arch a = job_arch b.
Proof.
  intros Hr Hfut [Ha Hac]%list_elem_of_filter [Hb Hbc]%list_elem_of_filter Hn.
  apply job_selected_matches in Ha as [Hda Ha], Hb as [Hdb Hb].
  destruct (by_name_get (jobs c) a Hac Hda) as (g & Hg & Hmem).
  assert (has_twins g = false) as Ht.
  { apply not_true_iff_false. intros Ht. unfold reject_cross_arch_twins in Hr.
    assert ((job_name a, g) ∈ filter (λ p, has_twins p.2 = true) (by_name (jobs c))) as Hin by by apply list_elem_of_filter.
    destruct (filter _ (by_name (jobs c))); [by apply not_elem_of_nil in Hin|done]. }
  destruct (has_twins_false g a b Ht) as [?|Ho]; [by apply Hmem|by apply Hmem|done|].
  rewrite (overlap_complete a b (_strip_version_qualifier (scylla_version sel))) in Ho; [done| |done|done].
  intros e [He|He]%elem_of_app; eauto.
Qed.

Section Loaded.
Context {FT : PyFloat} {MV : ModelValidate}.

Lemma load_inv file c :
  load_matrix_config file = Ok c →
  ∃ raw, validate_matrix_layout raw = Ok tt ∧ model_validate raw = Ok c.
Proof using Type.
  unfold load_matrix_config. destruct file as [[]|]; try done.
  destruct (dict_get "jobs" d) as [[]|]; try done. intros H.
  destruct (validate_matrix_layout (split_recipients d)) as [[]|] eqn:Ev; [|done]. cbn [obind] in H.
  destruct (model_validate (split_recipients d)) eqn:Em; [|done]. injection H as ->. eauto.
Qed.

(** The jobs one version of a matrix triggers never list a Jenkins job under two
    architectures: for every matrix that loads and every selection, two selected entries of a
    job run on the same architecture. The architecture is not passed to the job, so such a pair
    would run the same build twice. (No entry may exclude the probe [9999.9].) *)
Theorem no_cross_arch_twins file c sel a b :
  load_matrix_config file = Ok c →
  (∀ job e, job ∈ jobs c → e ∈ exclude_versions job → startswith e "9999.9" = false) →
  a ∈ filter_jobs (jobs c) sel → b ∈ filter_jobs (jobs c) sel → job_name a = job_name b → job_arch a = job_arch b.
Proof using Type.
  intros (raw & _ & Hv)%load_inv. apply twins_apart. by apply (validated_after raw).
Qed.

Lemma block_scalar params at_ :
  _validate_params_block params at_ = [] →
  ∃ d, params = JObj d ∧ Forall (λ p, p.1 ∉ JOB_LEVEL_KEYS ∧ is_scalar p.2 = true) d.
Proof using Type.
  destruct params; try done. simpl. intros H. exists d. split; [done|]. apply Forall_forall. intros p Hp.
  assert (param_errors at_ p = []) as He.
  { apply list_elem_of_split in Hp as (l1 & l2 & ->). rewrite bind_app in H. cbn [mbind list_bind] in H.
    apply app_eq_nil in H as [_ H]. by apply app_eq_nil in H as [H _]. }
  unfold param_errors in He. apply app_eq_nil in He as [H1 H2]. split.
  - case_bool_decide; done.
  - by destruct (is_scalar p.2).
Qed.

Lemma job_errors_nil i l :
  job_errors i l = Ok [] → Forall (λ r, ∀ d, r = JObj d → ∀ params, dict_get "params" d = Some params →
    ∃ at_, _validate_params_block params at_ = []) l.
Proof using Type.
  revert i. induction l as [|r l IH]; intros i H; [constructor|]. cbn [job_errors] in H.
  destruct (_validate_job_entry i r) as [es|] eqn:Er; [|done]. cbn [obind] in H.
  destruct (job_errors (S i) l) as [rest|] eqn:El; [|done]. cbn [obind] in H. injection H as H.
  apply app_eq_nil in H as [-> ->]. constructor; [|by apply (IH (S i))].
  intros d -> params Hp. simpl in Er. rewrite Hp in Er. exists (job_place i d +:+ ": params").
  destruct (is_text (dict_get "backend" d) "gce"); [destruct (has_region params); cbn [obind] in Er; [|done]|];
    injection Er as Er; apply app_eq_nil in Er as [_ Er]; [by apply app_eq_nil in Er as [Er _]|done].
Qed.

(** The parameters of a matrix that loads are typed: every value of a job's [params] and of
    the [defaults] is a scalar, as a Jenkins string parameter needs, and none of them is a key
    of the job entry itself. *)
Theorem loaded_params_typed file c :
  load_matrix_config file = Ok c →
  Forall (λ p, p.1 ∉ JOB_LEVEL_KEYS ∧ is_scalar p.2 = true) (defaults c) ∧
  Forall (λ job, Forall (λ p, p.1 ∉ JOB_LEVEL_KEYS ∧ is_scalar p.2 = true) (job_params job)) (jobs c).
Proof using Type.
  intros (raw & Hl & Hv)%load_inv. unfold validate_matrix_layout, layout_errors in Hl.
  destruct (validated_jobs raw c Hv) as (l & Hjobs & Hall). rewrite Hjobs in Hl.
  destruct (iterate (dict_get "cron_triggers" raw)) as [crons|]; [|done]. cbn [obind] in Hl.
  assert (iterate (Some (JList l)) = Ok l) as Hi by (by destruct l). rewrite Hi in Hl. cbn [obind] in Hl.
  destruct (job_errors 0 l) as [jes|] eqn:Ej; [|done]. cbn [obind] in Hl.
  match type of Hl with (if truthy ?es then _ else _) = _ => destruct es eqn:He; [|done] end.
  apply app_eq_nil in He as [_ He]. apply app_eq_nil in He as [Hd He]. apply app_eq_nil in He as [_ ->]. split.
  - destruct (validated_defaults raw c Hv) as [E|[E ->]]; [|constructor]. rewrite E in Hd.
    apply block_scalar in Hd as (d & [= ->] & Hd). exact Hd.
  - apply job_errors_nil in Ej. clear -Ej Hall. induction Hall as [|r job l l' (d & -> & Hp) Hall IH]; [constructor|].
    apply Forall_cons in Ej as [Hr Ej]. constructor; [|by apply IH]. destruct Hp as [Hp|[_ ->]]; [|constructor].
    destruct (Hr d eq_refl _ Hp) as [at_ Hb]. apply block_scalar in Hb as (d' & [= ->] & Hb). exact Hb.
Qed.
End Loaded.

(** ** A matrix *)
Module Sample.
#[export] Instance plain_floats : PyFloat := {| float_text t := t; float_int _ := None; float_eqb _ _ := false |}.

Definition entry (arch_ : string) (include : list string) : JobConfig :=
  {| job_name := "longevity"; backend := "aws"; arch := arch_; disabled := false; labels := ["gating"];
     include_versions := include; exclude_versions := ["2024.1"]; pre_release := []; job_throttle_category := EmptyString;
     job_params := [("region", JStr "eu-west-1")]; wait := true; wait_timeout := WAIT_TIMEOUT; fail_on_error := false;
     collect_results := [] |}.
Definition config : MatrixConfig :=
  {| jobs := [entry "x86_64" ["2025"]; entry "aarch64" ["master"]]; defaults := [("region", JStr "eu-west-1")];
     default_scylla_version := EmptyString; version_resolution := DEFAULT_VERSION_RESOLUTION; email_recipients := [];
     required_params := []; supported_versions_only := false |}.
Definition raw_entry (arch_ : string) (include : list string) : json :=
  JObj [("job_name", JStr "longevity"); ("backend", JStr "aws"); ("arch", JStr arch_); ("labels", JList [JStr "gating"]);
        ("include_versions", JList (JStr <$> include)); ("exclude_versions", JList [JStr "2024.1"]); ("wait", JBool true);
        ("params", JObj [("region", JStr "eu-west-1")])].
Definition raw : list (string * json) :=
  [("jobs", JList [raw_entry "x86_64" ["2025"]; raw_entry "aarch64" ["master"]]);
   ("defaults", JObj [("region", JStr "eu-west-1")])].

(** A reader of the fields the sample uses. *)
Definition text_of (k : string) (d : list (string * json)) : option string :=
  match dict_get k d with Some (JStr s) => Some s | None => Some EmptyString | _ => None end.
Definition texts_of (k : string) (d : list (string * json)) : option (list string) :=
  match dict_get k d with
  | Some (JList l) => mapM (λ j, match j with JStr s => Some s | _ => None end) l
  | None => Some []
  | _ => None
  end.
Definition mapping_of (k : string) (d : list (string * json)) : option (list (string * json)) :=
  match dict_get k d with Some (JObj p) => Some p | None => Some [] | _ => None end.
Definition read_job (j : json) : option JobConfig :=
  match j with
  | JObj d =>
    name ← text_of "job_name" d; b ← text_of "backend" d; a ← text_of "arch" d; ls ← texts_of "labels" d;
    inc ← texts_of "include_versions" d; exc ← texts_of "exclude_versions" d; ps ← mapping_of "params" d;
    Some {| job_name := name; backend := b; arch := a; disabled := false; labels := ls; include_versions := inc;
            exclude_versions := exc; pre_release := []; job_throttle_category := EmptyString; job_params := ps;
            wait := truthy (default JNull (dict_get "wait" d)); wait_timeout := WAIT_TIMEOUT; fail_on_error := false;
            collect_results := [] |}
  | _ => None
  end.
Definition read_config (r : list (string * json)) : option MatrixConfig :=
  match dict_get "jobs" r with
  | Some (JList l) =>
    js ← mapM read_job l; ds ← mapping_of "defaults" r;
    Some {| jobs := js; defaults := ds; default_scylla_version := EmptyString; version_resolution := DEFAULT_VERSION_RESOLUTION;
            email_recipients := []; required_params := []; supported_versions_only := false |}
  | _ => None
  end.
Definition validate (r : list (string * json)) : outcome texn MatrixConfig :=
  match read_config r with Some c => reject_cross_arch_twins c | None => Err OtherError end.

Lemma twins_id c c' : reject_cross_arch_twins c = Ok c' → c' = c.
Proof. unfold reject_cross_arch_twins. by destruct (truthy _); intros [= ->]. Qed.
Lemma mapping_of_spec k d p :
  mapping_of k d = Some p → dict_get k d = Some (JObj p) ∨ dict_get k d = None ∧ p = [].
Proof. unfold mapping_of. destruct (dict_get k d) as [[]|]; naive_solver. Qed.
Lemma read_job_params j job :
  read_job j = Some job → ∃ d, j = JObj d ∧ (dict_get "params" d = Some (JObj (job_params job)) ∨
                                             dict_get "params" d = None ∧ job_params job = []).
Proof.
  destruct j; try done. intros H. exists d. split; [done|]. cbn [read_job] in H.
  repeat (apply bind_Some in H as (? & ? & H)). injection H as <-. by apply mapping_of_spec.
Qed.
Lemma read_config_spec r c :
  read_config r = Some c →
  (∃ l, dict_get "jobs" r = Some (JList l) ∧ Forall2 (λ j job, read_job j = Some job) l (jobs c)) ∧
  mapping_of "defaults" r = Some (defaults c).
Proof.
  unfold read_config. destruct (dict_get "jobs" r) as [[]|]; try done. intros H.
  apply bind_Some in H as (js & Hjs%mapM_Some & H). apply bind_Some in H as (ds & Hds & [= <-]). eauto.
Qed.
#[export] Program Instance reader : ModelValidate := {| model_validate := validate |}.
Next Obligation.
  unfold validate. intros r c. destruct (read_config r) as [c'|] eqn:E; [|done]. intros ->%twins_id.
  apply read_config_spec in E as [(l & ? & Hl) _]. exists l. split; [done|].
  eapply Forall2_impl; [exact Hl|]. intros j job. apply read_job_params.
Qed.
Next Obligation.
  unfold validate. intros r c. destruct (read_config r) as [c'|] eqn:E; [|done]. intros ->%twins_id.
  apply read_config_spec in E as [_ E]. by apply mapping_of_spec.
Qed.
Next Obligation.
  unfold validate. intros r c. destruct (read_config r) as [c'|]; [|done]. intros H.
  pose proof (twins_id _ _ H) as ->. done.
Qed.
End Sample.

Lemma no_cross_arch_twins_witness :
  load_matrix_config (FT := Sample.plain_floats) (MV := Sample.reader) (Some (JObj Sample.raw)) = Ok Sample.config ∧
  ∀ sel a b, a ∈ filter_jobs (jobs Sample.config) sel → b ∈ filter_jobs (jobs Sample.config) sel →
    job_name a = job_name b → job_arch a = job_arch b.
Proof.
  assert (load_matrix_config (FT := Sample.plain_floats) (MV := Sample.reader) (Some (JObj Sample.raw)) = Ok Sample.config) as Hl
    by (vm_compute; reflexivity).
  split; [exact Hl|]. intros sel a b.
  apply (no_cross_arch_twins (FT := Sample.plain_floats) (Some (JObj Sample.raw)) Sample.config sel a b Hl).
  intros job e Hj He. repeat (apply elem_of_cons in Hj as [->|Hj]; [|]); [| |by apply not_elem_of_nil in Hj];
    apply list_elem_of_singleton in He; subst e; reflexivity.
Defined.

Lemma loaded_params_typed_witness :
  load_matrix_config (FT := Sample.plain_floats) (MV := Sample.reader) (Some (JObj Sample.raw)) = Ok Sample.config ∧
  Forall (λ p, p.1 ∉ JOB_LEVEL_KEYS ∧ is_scalar p.2 = true) (defaults Sample.config).
Proof.
  assert (load_matrix_config (FT := Sample.plain_floats) (MV := Sample.reader) (Some (JObj Sample.raw)) = Ok Sample.config) as Hl
    by (vm_compute; reflexivity).
  split; [exact Hl|].
  apply (loaded_params_typed (FT := Sample.plain_floats) (Some (JObj Sample.raw)) Sample.config Hl).
Defined.

End TriggerConfig.
