(* ===== verification/TriggerResolution.v ===== *)
(** The build every backend and region of a trigger runs (sdcm/utils/trigger_matrix/resolution.py,
    backends.py, images.py).

    What the clouds publish is the interface [ImageCatalog]: the newest image of a branch, and
    whether an exact build has an image. A lookup that fails is [None]; images.py logs it and
    goes on. The supported release lines come from ScyllaDB's documentation site and are an
    argument. [re.split] on commas and white space, with the empty parts dropped, is [split]
    after every comma became a blank. *)
From Stdlib Require Import Ascii String ZArith Lia.
From stdpp Require Import base decidable option strings numbers sets sorting list.
From S2P Require Import Prelude.
From S2P Require Import PyString.
From S2P Require Import PyRegex.
From S2P Require Import PyInt.
From S2P Require Import PyRepr.
From S2P Require Import PyDict.
From S2P Require Import PyLiteral.
From S2P Require Import PyJson.
From S2P Require Import TriggerVersions.
From S2P Require Import TriggerConfig.
Import TriggerVersions TriggerConfig.
Local Open Scope py_scope.

Module TriggerResolution.

Definition VALID_IMAGE_BACKENDS : list string := ["aws"; "gce"; "azure"; "oci"].
Definition REGIONAL_BACKENDS : list string := ["aws"; "azure"; "oci"].
Definition DEFAULT_AWS_REGION : string := "eu-west-1".
Definition DEFAULT_AZURE_REGION : string := "eastus".

(** ** Regions (backends.py) *)
Definition comma_to_blank (c : ascii) : ascii := if Ascii.eqb c "," then " "%char else c.
Definition re_split_words (s : string) : list string := split_ws (map_chars comma_to_blank s).

Section Regions.
Context {FT : PyFloat}.

(** [for item in json.loads(value)]; [None]: not JSON. A JSON text that starts with a bracket is a list. *)
Definition json_items (s : string) : option (list string) :=
  match json_loads s with
  | Some (JList l) => Some (filter (λ t, t ≠ EmptyString) (strip <$> (json_str <$> l)))
  | _ => None
  end.

Definition split_regions (region : string) : list string :=
  let value := strip region in
  if negb (truthy value) then []
  else if startswith "[" value then
    match json_items value with
    | Some l => l
    | None => re_split_words value
    end
  else re_split_words value.

Definition _backend_region (backend region : string) : string :=
  if negb (bool_decide (backend ∈ REGIONAL_BACKENDS)) then EmptyString
  else match split_regions region with
  | [] => if String.eqb backend "aws" then DEFAULT_AWS_REGION
          else if String.eqb backend "azure" then DEFAULT_AZURE_REGION else EmptyString
  | regions => join "," regions
  end.
End Regions.

Record BackendTarget : Type := { t_backend : string; t_region : string; t_arch : string }.
#[export] Instance BackendTarget_eq_dec : EqDecision BackendTarget.
Proof. solve_decision. Defined.

(** ** Images (images.py) *)
Class ImageCatalog : Type := {
  (** The version tag of the newest image of a branch: backend, branch:qualifier, region, architecture. *)
  newest_image : string → string → string → string → option string;
  (** Whether an exact build has an image: backend, version, region, architecture. *)
  build_image : string → string → string → string → option bool
}.

Section Resolution.
Context {FT : PyFloat} {IC : ImageCatalog}.

Definition first_region (region : string) : string := default EmptyString (head (split_regions region)).

Definition _resolve_latest_version_for_backend (scylla_version backend region arch : string) : string :=
  let branch_version := _as_branch_qualifier scylla_version in
  let region := first_region region in
  if String.eqb backend "aws" then default EmptyString (newest_image "aws" branch_version region arch)
  else if String.eqb backend "gce" then default EmptyString (newest_image "gce" branch_version EmptyString arch)
  else if String.eqb backend "azure" then default EmptyString (newest_image "azure" branch_version region arch)
  else if String.eqb backend "oci" then default EmptyString (newest_image "oci" branch_version region arch)
  else EmptyString.

(** GCE images are global: their lookup takes no region. *)
Definition _version_exists_in_region (version backend lookup_region arch : string) : bool :=
  if bool_decide (backend ∈ VALID_IMAGE_BACKENDS)
  then default false (build_image backend version (if String.eqb backend "gce" then EmptyString else lookup_region) arch)
  else true.

Definition version_exists_for_backend (version backend region arch : string) : bool :=
  let lookup_regions := match split_regions (_backend_region backend region) with [] => [EmptyString] | l => l end in
  forallb (λ single, _version_exists_in_region version backend single arch) lookup_regions.

Definition published_on (version : string) (t : BackendTarget) : bool :=
  version_exists_for_backend version (t_backend t) (t_region t) (t_arch t).

(** ** The target of a job *)

(** [d.get(key) or other], as text; the values of [region] are strings. *)
Definition text_param (d : list (string * json)) (k : string) : string :=
  match dict_get k d with Some v => if truthy v then json_str v else EmptyString | None => EmptyString end.

Definition target_for_job (job : JobConfig) (defaults : list (string * json)) (region_override : string) : BackendTarget :=
  let own := text_param (job_params job) "region" in
  let region := if truthy own then own else if truthy region_override then region_override else text_param defaults "region" in
  {| t_backend := backend job; t_region := _backend_region (backend job) region; t_arch := job_arch job |}.

(** [dict(defaults)] updated by [d]. *)
Definition update (base d : list (string * json)) : list (string * json) :=
  foldl (λ acc p, dict_set p.1 p.2 acc) base d.

Definition is_null (v : json) : bool := match v with JNull => true | _ => false end.

(** [{k: v for k, v in overrides.items() if v is not None}] *)
Definition given (overrides : list (string * json)) : list (string * json) :=
  filter (λ p, is_null p.2 = false) overrides.

Definition is_rolling (params : list (string * json)) : bool :=
  String.eqb (lower (match dict_get "rolling_upgrade_test" params with Some v => json_str v | None => EmptyString end)) "true".

Definition job_uses_scylla_version (job : JobConfig) (defaults overrides : list (string * json)) : bool :=
  let merged := update (update defaults (job_params job)) (given overrides) in
  if is_rolling merged then false
  else negb (match dict_get "unified_package" merged with Some v => truthy v | None => false end).

(** ** Strategies (resolve_versions_for_targets) *)
Definition assigned : Type := list (BackendTarget * string) * list (BackendTarget * string).

Definition per_backend_step (original reference : string) (resolvable : bool) (st : assigned) (t : BackendTarget) : assigned :=
  let '(versions, unavailable) := st in
  if negb (bool_decide (t_backend t ∈ VALID_IMAGE_BACKENDS))
  then (dict_set t (if resolvable then original else reference) versions, unavailable)
  else if negb resolvable then
    if published_on reference t then (dict_set t reference versions, unavailable)
    else (versions, dict_set t ("build '" +:+ reference +:+ "' is not published") unavailable)
  else
    let version := _resolve_latest_version_for_backend original (t_backend t) (t_region t) (t_arch t) in
    if truthy version then
      if existsb (λ other, negb (_version_exists_in_region version (t_backend t) other (t_arch t))) (tail (split_regions (t_region t)))
      then (versions, dict_set t ("build '" +:+ version +:+ "' is not published in every region") unavailable)
      else (dict_set t version versions, unavailable)
    else (versions, dict_set t ("no image found for '" +:+ original +:+ "'") unavailable).

Definition aws_strict_step (reference : string) (st : assigned) (t : BackendTarget) : assigned :=
  let '(versions, unavailable) := st in
  if published_on reference t then (dict_set t reference versions, unavailable)
  else (versions, dict_set t ("build '" +:+ reference +:+ "' is not published") unavailable).

(** [if version and version not in candidates: candidates.append(version)] *)
Definition add_candidate (original : string) (candidates : list string) (t : BackendTarget) : list string :=
  if negb (bool_decide (t_backend t ∈ VALID_IMAGE_BACKENDS)) then candidates
  else
    let version := _resolve_latest_version_for_backend original (t_backend t) (t_region t) (t_arch t) in
    if truthy version && negb (bool_decide (version ∈ candidates)) then candidates ++ [version] else candidates.

(** [candidates.sort(key=_version_build_date, reverse=True)], which keeps the order of equal keys. *)
Fixpoint insert_newest (x : string) (l : list string) : list string :=
  match l with
  | [] => [x]
  | y :: l' => if String.leb (_version_build_date y) (_version_build_date x) then x :: l else y :: insert_newest x l'
  end.
Definition sort_newest (l : list string) : list string := foldr insert_newest [] l.

Definition common_candidates (original reference : string) (targets : list BackendTarget) : list string :=
  if is_resolvable_partial_version original then sort_newest (foldl (add_candidate original) [] targets)
  else if truthy reference then [reference] else [].

Fixpoint first_common (candidates : list string) (targets : list BackendTarget) : option string :=
  match candidates with
  | [] => None
  | c :: rest => if forallb (published_on c) targets then Some c else first_common rest targets
  end.

Definition resolve_versions_for_targets
  (original_version reference_version : string) (targets : list BackendTarget) (strategy : string) : outcome texn assigned :=
  if negb (bool_decide (strategy ∈ VERSION_RESOLUTION_STRATEGIES)) then Err TriggerMatrixError
  else
    let reference := if truthy reference_version then reference_version else original_version in
    let resolvable := is_resolvable_partial_version original_version in
    if String.eqb strategy "per-backend" then Ok (foldl (per_backend_step original_version reference resolvable) ([], []) targets)
    else if String.eqb strategy "aws-strict" then Ok (foldl (aws_strict_step reference) ([], []) targets)
    else match first_common (common_candidates original_version reference targets) targets with
         | Some c => Ok (foldl (λ versions t, dict_set t c versions) [] targets, [])
         | None => Err TriggerMatrixError
         end.

Definition resolve_to_full_version (scylla_version region backend arch : string) : outcome texn string :=
  if is_full_version_tag scylla_version then Ok scylla_version
  else if anchored RELEASE_VERSION_RE scylla_version then Ok scylla_version
  else
    let lookup_region := _backend_region backend region in
    let version := if is_resolvable_partial_version scylla_version
                   then _resolve_latest_version_for_backend scylla_version backend lookup_region arch else EmptyString in
    if truthy version then Ok version else Err TriggerMatrixError.
End Resolution.

(** ** Region names survive [_backend_region] *)
Definition region_word (w : string) : Prop :=
  word w ∧ all_chars (λ c, negb (Ascii.eqb c ",")) w = true ∧ startswith "[" w = false.

Lemma map_comma_id w : all_chars (λ c, negb (Ascii.eqb c ",")) w = true → map_chars comma_to_blank w = w.
Proof.
  induction w as [|c w IH]; [done|]. cbn [all_chars map_chars]. intros [Hc%negb_true_iff Hw]%andb_true_iff.
  unfold comma_to_blank at 1. by rewrite Hc, IH.
Qed.

Lemma re_split_join ws : Forall region_word ws → re_split_words (join "," ws) = ws.
Proof.
  intros H. unfold re_split_words. replace (map_chars comma_to_blank (join "," ws)) with (join " " ws).
  { apply split_ws_join. eapply Forall_impl; [exact H|]. by intros w [? _]. }
  induction H as [|w ws (_ & Hc & _) _ IH]; [done|]. destruct ws as [|w' ws]; [by rewrite map_comma_id|].
  rewrite (join_cons " "), (join_cons ",") by done. by rewrite !map_chars_app, <-IH, map_comma_id by done.
Qed.

Lemma join_no_space ws : Forall region_word ws → no_space (join "," ws) = true.
Proof.
  intros H. induction H as [|w ws ((_ & Hs) & _) _ IH]; [done|]. destruct ws as [|w' ws]; [done|].
  rewrite join_cons by done. unfold no_space in *. by rewrite !all_chars_app, Hs, IH.
Qed.

Section RegionLemmas.
Context {FT : PyFloat}.

Lemma split_regions_join ws : Forall region_word ws → split_regions (join "," ws) = ws.
Proof using Type.
  intros H. unfold split_regions. rewrite strip_no_space by by apply join_no_space.
  destruct ws as [|w ws]; [done|].
  assert (truthy (join "," (w :: ws)) = true ∧ startswith "[" (join "," (w :: ws)) = false) as [-> ->].
  { apply Forall_cons in H as [((Hne & _) & _ & Hb) _]. destruct w as [|c w]; [done|].
    destruct ws as [|w' ws]; [done|]. rewrite join_cons by done. cbn [startswith] in *. split; [done|].
    change (String c w +:+ ?x) with (String c (w +:+ x)). exact Hb. }
  cbn [negb]. by apply re_split_join.
Qed.

(** The regions of a target that was made from clean region names. *)
Definition clean_target (t : BackendTarget) : Prop :=
  ∃ ws, Forall region_word ws ∧ t_region t = join "," ws ∧
        if bool_decide (t_backend t ∈ REGIONAL_BACKENDS) then ws ≠ [] ∨ t_backend t = "oci" else ws = [].

Lemma clean_regions t :
  clean_target t → split_regions (_backend_region (t_backend t) (t_region t)) = split_regions (t_region t).
Proof using Type.
  intros (ws & Hw & Hr & Hb). rewrite Hr, (split_regions_join ws) by done. unfold _backend_region.
  case_bool_decide; cbn [negb]; [|by subst ws]. rewrite split_regions_join by done.
  destruct ws as [|w ws].
  - destruct Hb as [?|Hb]; [done|]. rewrite Hb. done.
  - by rewrite split_regions_join.
Qed.

Lemma default_region_word : region_word DEFAULT_AWS_REGION ∧ region_word DEFAULT_AZURE_REGION.
Proof using Type. repeat split; done. Qed.

(** Targets of jobs are clean when the regions their matrix names are. *)
Lemma target_for_job_clean job defaults region_override :
  Forall region_word (split_regions (let own := text_param (job_params job) "region" in
    if truthy own then own else if truthy region_override then region_override else text_param defaults "region")) →
  clean_target (target_for_job job defaults region_override).
Proof using Type.
  unfold target_for_job, clean_target, _backend_region. cbv zeta. cbn [t_backend t_region].
  set (r := if truthy (text_param _ _) then _ else _). intros Hw. destruct default_region_word as [H1 H2].
  case_bool_decide as Hb; cbn [negb]; [|by exists []].
  destruct (split_regions r) as [|w ws] eqn:E; [|exists (w :: ws); by auto].
  destruct (String.eqb_spec (backend job) "aws"); [exists [DEFAULT_AWS_REGION]; by auto|].
  destruct (String.eqb_spec (backend job) "azure"); [exists [DEFAULT_AZURE_REGION]; by auto|].
  exists []. split; [done|]. split; [done|]. right. set_solver.
Qed.

(** A region given as a JSON list of plain names. *)
Lemma split_regions_json ws :
  ws ≠ [] → Forall (λ w, word w ∧ plain w = true) ws →
  split_regions ("[" +:+ join ", " (dquoted <$> ws) +:+ "]") = ws.
Proof using Type.
  intros Hne H. unfold split_regions.
  assert (strip ("[" +:+ join ", " (dquoted <$> ws) +:+ "]") = "[" +:+ join ", " (dquoted <$> ws) +:+ "]") as ->.
  { unfold strip, lstrip. change (drop_while is_space ("[" +:+ ?x)) with ("[" +:+ x). unfold rstrip.
    rewrite (str_app_assoc "[") || idtac. rewrite <-(str_app_assoc "[" _ "]"), str_rev_app.
    change (str_rev "]") with "]". change (drop_while is_space ("]" +:+ ?x)) with ("]" +:+ x).
    rewrite str_rev_app, str_rev_involutive. done. }
  change (truthy ("[" +:+ ?x)) with true. change (startswith "[" ("[" +:+ ?x)) with (startswith EmptyString x). cbn [negb startswith].
  unfold json_items. rewrite json_loads_words; [|done|eapply Forall_impl; [exact H|by intros ? [_ ?]]].
  induction H as [|w ws [[Hw Hs] _] _ IH]; [done|]. cbn [fmap list_fmap json_str].
  rewrite strip_no_space, filter_cons, decide_True by done. f_equal.
  destruct ws as [|w' ws]; [done|]. by apply IH.
Qed.
End RegionLemmas.

(** ** What every target runs *)
Section Assignments.
Context {FT : PyFloat} {IC : ImageCatalog}.

(** An image found through its branch is found through its version. *)
Definition catalog_consistent : Prop :=
  ∀ b branch r a v, newest_image b branch r a = Some v → truthy v = true → build_image b v r a = Some true.

(** Every target either runs a build that is [good] for it, or is reported with a reason. *)
Definition assigns (good : BackendTarget → string → Prop) (targets : list BackendTarget) (st : assigned) : Prop :=
  (∀ t, t ∈ targets →
    (∃ v, dict_get t st.1 = Some v ∧ dict_get t st.2 = None ∧ good t v) ∨
    (∃ reason, dict_get t st.1 = None ∧ dict_get t st.2 = Some reason ∧ truthy reason = true)) ∧
  (∀ t, t ∉ targets → dict_get t st.1 = None ∧ dict_get t st.2 = None).

Definition assigning_step (good : BackendTarget → string → Prop) (step : assigned → BackendTarget → assigned) t : Prop :=
  (∃ v, good t v ∧ ∀ st, step st t = (dict_set t v st.1, st.2)) ∨
  (∃ reason, truthy reason = true ∧ ∀ st, step st t = (st.1, dict_set t reason st.2)).

Lemma foldl_assigns good step targets :
  NoDup targets → Forall (assigning_step good step) targets → assigns good targets (foldl step ([], []) targets).
Proof using Type.
  intros Hnd Hs. induction targets as [|t ts IH] using rev_ind; [by split; [intros t Ht; by apply not_elem_of_nil in Ht|]|].
  apply NoDup_app in Hnd as (Hnd & Hdis & _). apply Forall_app in Hs as [Hs Ht]. rewrite Forall_singleton in Ht.
  rewrite foldl_snoc. destruct (IH Hnd Hs) as [H1 H2]. set (st := foldl step ([], []) ts) in *.
  assert (t ∉ ts) as Hnt by (intros Hin; apply (Hdis t Hin); by apply list_elem_of_singleton).
  destruct (H2 t Hnt) as [Hv Hu].
  destruct Ht as [(v & Hg & ->)|(r & Hr & ->)]; (split; cbn [fst snd]; intros t'; rewrite ?dict_get_set;
    [intros [Ht' | ->%list_elem_of_singleton]%elem_of_app|intros Hn]).
  - rewrite decide_False by (by intros ->). by apply H1.
  - rewrite decide_True by done. left. eauto.
  - rewrite decide_False by set_solver. apply H2. set_solver.
  - rewrite decide_False by (by intros ->). by apply H1.
  - rewrite decide_True by done. right. eauto.
  - rewrite decide_False by set_solver. apply H2. set_solver.
Qed.

Lemma resolved_published original t :
  catalog_consistent → clean_target t → t_backend t ∈ VALID_IMAGE_BACKENDS →
  let version := _resolve_latest_version_for_backend original (t_backend t) (t_region t) (t_arch t) in
  truthy version = true →
  existsb (λ other, negb (_version_exists_in_region version (t_backend t) other (t_arch t))) (tail (split_regions (t_region t))) = false →
  published_on version t = true.
Proof using Type.
  intros Hcat Hclean Hb version Hv Hrest.
  assert (_version_exists_in_region version (t_backend t) (first_region (t_region t)) (t_arch t) = true) as Hfirst.
  { unfold _version_exists_in_region. rewrite bool_decide_true by done.
    unfold version, _resolve_latest_version_for_backend in *.
    repeat (apply elem_of_cons in Hb as [Hb|Hb]; [|]); [| | | |by apply not_elem_of_nil in Hb]; rewrite Hb in *; simpl in *;
      match goal with |- context [newest_image ?b ?br ?r ?a] => destruct (newest_image b br r a) as [v|] eqn:E end; try done;
      simpl in *; by rewrite (Hcat _ _ _ _ _ E Hv). }
  unfold published_on, version_exists_for_backend. rewrite clean_regions by done. unfold first_region in Hfirst.
  destruct (split_regions (t_region t)) as [|r rs]; cbn [head default from_option id tail] in *; [by simpl; rewrite Hfirst|].
  simpl. rewrite Hfirst. simpl. apply forallb_forall. intros other Ho. apply not_false_iff_true. intros Hf.
  apply not_true_iff_false in Hrest. apply Hrest, existsb_exists. exists other. by rewrite Hf.
Qed.

Lemma first_common_spec cs targets c :
  first_common cs targets = Some c → c ∈ cs ∧ ∀ t, t ∈ targets → published_on c t = true.
Proof using Type.
  induction cs as [|x cs IH]; [done|]. cbn [first_common]. destruct (forallb _ _) eqn:E.
  - intros [= ->]. split; [by left|]. intros t Ht. rewrite forallb_forall in E. apply E. by apply list_elem_of_In.
  - intros H. destruct (IH H) as [? ?]. split; [by right|done].
Qed.

Lemma insert_newest_elem x y l : y ∈ insert_newest x l ↔ y = x ∨ y ∈ l.
Proof using Type. induction l as [|z l IH]; simpl; [set_solver|]. case_match; set_solver. Qed.

Lemma sort_newest_elem y l : y ∈ sort_newest l ↔ y ∈ l.
Proof using Type. induction l as [|x l IH]; [done|]. cbn [sort_newest foldr]. fold (sort_newest l). rewrite insert_newest_elem, IH. set_solver. Qed.

(** A property of every build the run can name: what the clouds publish, and what was asked for. *)
Section Builds.
Variables (Q : string → Prop) (original reference : string).
Hypothesis Q_newest : ∀ b branch r a v, newest_image b branch r a = Some v → truthy v = true → Q v.
Hypothesis Q_original : Q original.
Hypothesis Q_reference : Q reference.

Lemma latest_Q b r a :
  let v := _resolve_latest_version_for_backend original b r a in truthy v = true → Q v.
Proof using Q_newest.
  unfold _resolve_latest_version_for_backend. repeat case_match; try done;
    match goal with |- context [newest_image ?b ?br ?r ?a] => destruct (newest_image b br r a) as [v|] eqn:E end; try done;
    simpl; eauto.
Qed.

Definition fits (t : BackendTarget) (v : string) : Prop :=
  Q v ∧ (t_backend t ∈ VALID_IMAGE_BACKENDS → published_on v t = true).

Lemma per_backend_assigns t :
  catalog_consistent → clean_target t →
  assigning_step fits (per_backend_step original reference (is_resolvable_partial_version original)) t.
Proof using Q_newest Q_original Q_reference.
  intros Hcat Hclean. unfold assigning_step, per_backend_step. case_bool_decide as Hb; cbn [negb].
  2: { left. eexists. split; [split; [|intros; by exfalso]|by intros []]. by case_match. }
  destruct (is_resolvable_partial_version original); cbn [negb].
  - set (v := _resolve_latest_version_for_backend _ _ _ _). destruct (truthy v) eqn:Ev.
    2: { right. eexists. split; [|by intros []]. done. }
    destruct (existsb _ _) eqn:Ex.
    { right. eexists. split; [|by intros []]. done. }
    left. exists v. split; [|by intros []]. split; [by apply latest_Q|]. intros _. by apply resolved_published.
  - destruct (published_on reference t) eqn:Ep.
    + left. exists reference. split; [done|by intros []].
    + right. eexists. split; [|by intros []]. done.
Qed.

Lemma aws_strict_assigns t : assigning_step fits (aws_strict_step reference) t.
Proof using Q_reference.
  unfold assigning_step, aws_strict_step.
  destruct (published_on reference t) eqn:Ep; [left; exists reference; split; [done|by intros []]|].
  right. eexists. split; [|by intros []]. done.
Qed.

Lemma common_candidates_Q targets c : c ∈ common_candidates original reference targets → Q c.
Proof using Q_newest Q_original Q_reference.
  unfold common_candidates. destruct (is_resolvable_partial_version original); [|by case_match; intros Hc; set_solver].
  rewrite sort_newest_elem. revert c.
  assert (∀ cs : list string, (∀ c, c ∈ cs → Q c) → ∀ c, c ∈ foldl (add_candidate original) cs targets → Q c) as H.
  { induction targets as [|t ts IH]; intros cs Hcs; [done|]. cbn [foldl]. apply IH. intros c. unfold add_candidate.
    case_bool_decide; cbn [negb]; [|by apply Hcs]. set (v := _resolve_latest_version_for_backend _ _ _ _).
    destruct (truthy v) eqn:Ev; [|by apply Hcs]. case_bool_decide; cbn [negb andb]; [by apply Hcs|].
    intros [Hc| ->%list_elem_of_singleton]%elem_of_app; [by apply Hcs|by apply latest_Q]. }
  apply H. intros c Hc. by apply not_elem_of_nil in Hc.
Qed.

End Builds.

Lemma common_assigns (Q : string → Prop) targets c :
  NoDup targets → Q c → (∀ t, t ∈ targets → published_on c t = true) →
  assigns (λ t v, v = c ∧ Q v ∧ published_on v t = true) targets (foldl (λ versions t, dict_set t c versions) [] targets, []).
Proof using Type.
  intros Hnd Hq Hpub. replace (foldl (λ versions t, dict_set t c versions) [] targets, [])
    with (foldl (λ (st : assigned) t, (dict_set t c st.1, st.2)) ([], []) targets).
  - apply foldl_assigns; [done|]. apply Forall_forall. intros t Ht. left. exists c. eauto.
  - generalize (@nil (BackendTarget * string)) at 1 3. clear. induction targets as [|t ts IH]; intros d; [done|]. by apply IH.
Qed.
Lemma assigns_impl good good' targets st :
  (∀ t v, good t v → good' t v) → assigns good targets st → assigns good' targets st.
Proof using Type.
  intros Hg [H1 H2]. split; [|done]. intros t Ht. destruct (H1 t Ht) as [(v & ? & ? & ?)|?]; [left; eauto 10|by right].
Qed.

Lemma resolve_assigns Q original reference targets strategy st :
  (∀ b branch r a v, newest_image b branch r a = Some v → truthy v = true → Q v) → Q original → (truthy reference = true → Q reference) →
  catalog_consistent → NoDup targets → Forall clean_target targets →
  resolve_versions_for_targets original reference targets strategy = Ok st →
  assigns (fits Q) targets st ∧ (strategy = "common" → ∃ c, assigns (λ t v, v = c ∧ published_on v t = true) targets st).
Proof using Type.
  intros Hnew Ho Hr Hcat Hnd Hclean H. unfold resolve_versions_for_targets in H. case_bool_decide as Hs; [|done]. cbn [negb] in H.
  set (ref := if truthy reference then reference else original) in *.
  assert (Q ref) as Href by (unfold ref; destruct (truthy reference); auto).
  destruct (String.eqb_spec strategy "per-backend") as [->|Hpb].
  { injection H as <-. split; [|done]. apply foldl_assigns; [done|].
    eapply Forall_impl; [exact Hclean|]. intros t Ht. by apply per_backend_assigns. }
  destruct (String.eqb_spec strategy "aws-strict") as [->|Has].
  { injection H as <-. split; [|done]. apply foldl_assigns; [done|]. apply Forall_forall. intros t _. by apply aws_strict_assigns. }
  destruct (first_common _ _) as [c|] eqn:Ec; [|done]. injection H as <-.
  apply first_common_spec in Ec as [Hc Hpub]. apply (common_candidates_Q Q) in Hc; [|done|done|done].
  pose proof (common_assigns Q targets c Hnd Hc Hpub) as Ha. split.
  - eapply assigns_impl; [|exact Ha]. intros t v (-> & ? & ?). by split.
  - intros _. exists c. eapply assigns_impl; [|exact Ha]. by intros t v (? & ? & ?).
Qed.

(** A job never receives a build that was only published elsewhere (SCT-665). Whatever the
    strategy, every target of the matrix is either reported with a reason or given one build,
    never both, and a build given to a target of an image backend is published in every region
    of that target, for its architecture; under [common] it is the same build everywhere. *)
Theorem targets_get_published_builds original reference targets strategy st :
  catalog_consistent → NoDup targets → Forall clean_target targets → truthy original = true →
  resolve_versions_for_targets original reference targets strategy = Ok st →
  assigns (λ t v, truthy v = true ∧ (t_backend t ∈ VALID_IMAGE_BACKENDS → published_on v t = true)) targets st ∧
  (strategy = "common" → ∃ c, assigns (λ t v, v = c ∧ published_on v t = true) targets st).
Proof using Type. intros Hcat Hnd Hclean Ho H. by eapply (resolve_assigns (λ v, truthy v = true)) in H. Qed.

(** ** [common] takes the newest build *)
Definition older (x y : string) : Prop := String.leb (_version_build_date y) (_version_build_date x) = true.

Lemma str_leb_trans a b c : String.leb a b = true → String.leb b c = true → String.leb a c = true.
Proof using Type.
  intros H1%Is_true_true H2%Is_true_true. apply Is_true_true.
  exact (transitivity (R := String.le) (H1 : String.le a b) (H2 : String.le b c)).
Qed.

Lemma sort_newest_sorted l : StronglySorted older (sort_newest l).
Proof using Type.
  induction l as [|x l IH]; [constructor|]. cbn [sort_newest foldr]. fold (sort_newest l).
  induction (sort_newest l) as [|y s IHs]; [repeat constructor|]. apply StronglySorted_inv in IH as [Hs Hy]. cbn [insert_newest].
  destruct (String.leb _ _) eqn:E.
  - constructor; [by constructor|]. constructor; [done|]. eapply Forall_impl; [exact Hy|].
    intros z Hz. unfold older in *. by eapply str_leb_trans.
  - constructor; [by apply IHs|]. apply Forall_forall. intros z [->|Hz]%insert_newest_elem.
    + unfold older. by destruct (String.leb_total (_version_build_date y) (_version_build_date x)); [congruence|].
    + rewrite Forall_forall in Hy. by apply Hy.
Qed.

Lemma first_common_newest cs targets c :
  StronglySorted older cs → first_common cs targets = Some c →
  ∀ w, w ∈ cs → (∀ t, t ∈ targets → published_on w t = true) → w = c ∨ older c w.
Proof using Type.
  induction 1 as [|x cs Hs IH Hx]; [done|]. cbn [first_common]. destruct (forallb _ _) eqn:E.
  - intros [= ->] w [->|Hw]%elem_of_cons _; [by left|]. right. rewrite Forall_forall in Hx. by apply Hx.
  - intros Hc w [->|Hw]%elem_of_cons Hp; [|by apply IH]. apply not_true_iff_false in E. destruct E.
    apply forallb_forall. intros t Ht. apply Hp. by apply list_elem_of_In.
Qed.

Lemma first_common_none cs targets v :
  first_common cs targets = None → v ∈ cs → ¬ (∀ t, t ∈ targets → published_on v t = true).
Proof using Type.
  induction cs as [|x cs IH]; [intros _ H; by apply not_elem_of_nil in H|].
  cbn [first_common]. destruct (forallb _ _) eqn:E; [done|]. intros Hc [->|Hx]%elem_of_cons He; [|by apply IH].
  apply not_true_iff_false in E. apply E, forallb_forall. intros t Ht. apply He. by apply list_elem_of_In.
Qed.

Lemma all_set_get (c : string) (ts : list BackendTarget) t v :
  dict_get t (foldl (λ versions t, dict_set t c versions) [] ts) = Some v → v = c.
Proof using Type.
  assert (∀ d : list (BackendTarget * string), (∀ t v, dict_get t d = Some v → v = c) →
    ∀ t v, dict_get t (foldl (λ versions t, dict_set t c versions) d ts) = Some v → v = c) as Hf; [|by apply Hf].
  induction ts as [|t' ts IH]; intros d Hd; [done|]. cbn [foldl]. apply IH. intros t2 v2.
  rewrite dict_get_set. destruct (decide _); [by intros [= <-]|apply Hd].
Qed.

Lemma candidates_elem original targets cs t :
  t ∈ targets → t_backend t ∈ VALID_IMAGE_BACKENDS →
  let version := _resolve_latest_version_for_backend original (t_backend t) (t_region t) (t_arch t) in
  truthy version = true → version ∈ foldl (add_candidate original) cs targets.
Proof using Type.
  intros Ht Hb version Hv.
  assert (∀ ts cs x, x ∈ cs → x ∈ foldl (add_candidate original) cs ts) as Hmono.
  { induction ts as [|t' ts IH]; intros cs' x Hx; [done|]. cbn [foldl]. apply IH. unfold add_candidate.
    repeat case_match; set_solver. }
  revert cs. induction targets as [|t' ts IH]; intros cs; [by apply not_elem_of_nil in Ht|]. cbn [foldl].
  apply elem_of_cons in Ht as [<-|Ht]; [|by apply IH]. apply Hmono. unfold add_candidate.
  rewrite bool_decide_true by done. cbn [negb]. fold version. rewrite Hv. case_bool_decide; cbn [negb andb]; set_solver.
Qed.

(** With the [common] strategy a branch is resolved to the newest build published on every
    target: no target's own latest build that is published everywhere has a later build date,
    and the resolution fails only when none of them is published everywhere. *)
Theorem common_takes_newest original reference targets :
  is_resolvable_partial_version original = true →
  let latest t := _resolve_latest_version_for_backend original (t_backend t) (t_region t) (t_arch t) in
  let everywhere v := ∀ t, t ∈ targets → published_on v t = true in
  match resolve_versions_for_targets original reference targets "common" with
  | Ok (versions, _) => ∃ c, everywhere c ∧ (∀ t v, dict_get t versions = Some v → v = c) ∧
      ∀ t, t ∈ targets → t_backend t ∈ VALID_IMAGE_BACKENDS → truthy (latest t) = true → everywhere (latest t) →
        String.leb (_version_build_date (latest t)) (_version_build_date c) = true
  | Err e => e = TriggerMatrixError ∧
      ∀ t, t ∈ targets → t_backend t ∈ VALID_IMAGE_BACKENDS → truthy (latest t) = true → ¬ everywhere (latest t)
  end.
Proof using Type.
  intros Hr latest everywhere. unfold resolve_versions_for_targets. simpl. unfold common_candidates. rewrite Hr.
  set (cs := sort_newest _). assert (∀ t, t ∈ targets → t_backend t ∈ VALID_IMAGE_BACKENDS → truthy (latest t) = true → latest t ∈ cs) as Hin.
  { intros t Ht Hb Hv. apply sort_newest_elem. by apply candidates_elem. }
  destruct (first_common cs targets) as [c|] eqn:Ec.
  - exists c. split; [exact (proj2 (first_common_spec cs targets c Ec))|]. split.
    + by apply all_set_get.
    + intros t Ht Hb Hv He. destruct (first_common_newest cs targets c (sort_newest_sorted _) Ec (latest t)) as [-> | Ho]; auto.
      unfold older. by destruct (String.leb_total (_version_build_date c) (_version_build_date c)).
  - split; [done|]. intros t Ht Hb Hv He. specialize (Hin t Ht Hb Hv).
    by destruct (first_common_none cs targets (latest t) Ec Hin).
Qed.
End Assignments.

(** ** Supported releases only *)
Definition RELEASE_LINE_RE : re := RSeqs [RDigits; RLit "."; RDigits].

(** The groups of [^(\d+)\.(\d+)\.(\d+)-]. *)
Definition release_groups (s : string) : option (string * string * string) :=
  let '(a, r1) := span_digits s in
  let '(b, r2) := span_digits (str_drop 1 r1) in
  let '(c, r3) := span_digits (str_drop 1 r2) in
  if truthy a && startswith "." r1 && truthy b && startswith "." r2 && truthy c && startswith "-" r3 then Some (a, b, c) else None.

(** Comparison and maximum of the integer tuples. *)
Definition tuple_leb (x y : Z * Z * Z) : bool :=
  let '(a, b, c) := x in let '(a', b', c') := y in
  (a <? a')%Z || ((a =? a')%Z && ((b <? b')%Z || ((b =? b')%Z && (c <=? c')%Z))).
Definition max_tuple (x : Z * Z * Z) (l : list (Z * Z * Z)) : Z * Z * Z :=
  foldl (λ m y, if tuple_leb y m then m else y) x l.

Definition release_of (line version : string) : option (Z * Z * Z) :=
  match release_groups version with
  | Some (a, b, c) =>
    if String.eqb (a +:+ "." +:+ b) line then Some (int_of_digits a, int_of_digits b, int_of_digits c) else None
  | None => None
  end.

(** [latest_release_of_line], over the [scylla_version] tags of the line's production AMIs. *)
Definition latest_release_of_line (amis : list string) (line : string) : string :=
  match omap (release_of line) amis with
  | [] => EmptyString
  | r :: rs => let '(a, b, c) := max_tuple r rs in str_Z a +:+ "." +:+ str_Z b +:+ "." +:+ str_Z c
  end.

(** The line of a version: [^(?:branch-)?(\d+\.\d+)(?:[.:~-]|$)]. *)
Definition line_of (version : string) : option string :=
  let s := if startswith "branch-" version then str_drop 7 version else version in
  let '(a, r1) := span_digits s in
  let '(b, r2) := span_digits (str_drop 1 r1) in
  let ends := match r2 with
              | EmptyString => true
              | String c r3 => one_of ".:~-" c || (negb (not_newline c) && negb (truthy r3))
              end in
  if truthy a && startswith "." r1 && truthy b && ends then Some (a +:+ "." +:+ b) else None.

Section Supported.
Context {FT : PyFloat}.
(** The supported lines, and the version tags of a line's production AMIs in a region. *)
Variable lines : list string.
Variable ami_versions : string → string → list string.

Definition _latest_release (line region : string) : outcome texn string :=
  try! lookup_region := (if truthy region then match split_regions region with r :: _ => Ok r | [] => Err OtherError end
                         else Ok DEFAULT_AWS_REGION) in
  let release := latest_release_of_line (ami_versions lookup_region line) line in
  if truthy release then Ok release else Err TriggerMatrixError.

Fixpoint map_ok {A B} (f : A → outcome texn B) (l : list A) : outcome texn (list B) :=
  match l with
  | [] => Ok []
  | x :: l' => try! y := f x in try! ys := map_ok f l' in Ok (y :: ys)
  end.

Definition supported_releases (region : string) : outcome texn (list string) :=
  if negb (truthy lines) then Err TriggerMatrixError else map_ok (λ line, _latest_release line region) lines.

Definition is_supported (version : string) : bool :=
  match line_of version with Some line => bool_decide (line ∈ lines) | None => false end.

Definition check_only_supported_versions (versions : list string) : outcome texn unit :=
  let unsupported := filter (λ v, is_supported v = false) versions in
  if truthy unsupported then Err TriggerMatrixError else Ok tt.

Definition releases_of_lines (versions : list string) (region : string) : outcome texn (list string) :=
  map_ok (λ v, if anchored RELEASE_LINE_RE v then _latest_release v region else Ok v) versions.

Definition supported_only_versions (scylla_version region : string) : outcome texn (list string) :=
  match re_split_words (strip scylla_version) with
  | [] => supported_releases region
  | versions => try! _ := check_only_supported_versions versions in releases_of_lines versions region
  end.

(** *** What runs is supported, and is a release *)
Definition is_line (l : string) : Prop := ∃ a b, (0 <= a)%Z ∧ (0 <= b)%Z ∧ l = str_Z a +:+ "." +:+ str_Z b.

Lemma span_str_Z z c t : (0 <= z)%Z → is_digit c = false → span_digits (str_Z z +:+ String c t) = (str_Z z, String c t).
Proof using Type.
  intros Hz Hc. apply span_digits_app; [|by intros ? ? [= <- _]].
  pose proof (str_Z_digits z Hz) as H. by apply andb_true_iff in H as [_ H].
Qed.
Lemma str_Z_truthy z : (0 <= z)%Z → truthy (str_Z z) = true.
Proof using Type. intros Hz. pose proof (str_Z_digits z Hz) as H. by apply andb_true_iff in H as [H _]. Qed.

Lemma release_of_line a b v x y z :
  (0 <= a)%Z → (0 <= b)%Z → release_of (str_Z a +:+ "." +:+ str_Z b) v = Some (x, y, z) → x = a ∧ y = b ∧ (0 <= z)%Z.
Proof using Type.
  intros Ha Hb. unfold release_of, release_groups.
  destruct (span_digits v) as [a' r1] eqn:E1. destruct (span_digits (str_drop 1 r1)) as [b' r2] eqn:E2.
  destruct (span_digits (str_drop 1 r2)) as [c' r3] eqn:E3. destruct (_ && _) eqn:Ec; [|done].
  destruct (String.eqb_spec (a' +:+ "." +:+ b') (str_Z a +:+ "." +:+ str_Z b)) as [Heq|]; [|done]. intros [= <- <- <-].
  assert (∀ s d r, span_digits s = (d, r) → all_chars is_digit d = true) as Hd.
  { clear. induction s as [|c s IH]; intros d r; cbn [span_digits]; [by intros [= <- <-]|].
    destruct (is_digit c) eqn:E; [|by intros [= <- <-]]. destruct (span_digits s) as [d' r'].
    intros [= <- <-]. simpl. rewrite E. by eapply IH. }
  pose proof (span_digits_app a' (String "." b') (Hd _ _ _ E1) ltac:(by intros ? ? [= <- _])) as H1.
  change (a' +:+ String "." b') with (a' +:+ "." +:+ b') in H1. rewrite Heq in H1.
  change ("." +:+ str_Z b) with (String "." (str_Z b)) in H1. rewrite span_str_Z in H1 by done. injection H1 as <- <-.
  rewrite !int_of_digits_str by done. split; [done|]. split; [done|]. apply digits_value_nonneg; [done|]. by eapply Hd.
Qed.

Lemma max_tuple_elem x l : max_tuple x l ∈ x :: l.
Proof using Type.
  revert x. induction l as [|y l IH]; intros x; [by left|]. unfold max_tuple in *. cbn [foldl].
  destruct (tuple_leb y x); [specialize (IH x)|specialize (IH y)]; set_solver.
Qed.

Lemma latest_release_shape amis a b :
  (0 <= a)%Z → (0 <= b)%Z → let line := str_Z a +:+ "." +:+ str_Z b in
  truthy (latest_release_of_line amis line) = true →
  ∃ c, (0 <= c)%Z ∧ latest_release_of_line amis line = str_Z a +:+ "." +:+ str_Z b +:+ "." +:+ str_Z c.
Proof using Type.
  intros Ha Hb line. unfold latest_release_of_line. destruct (omap (release_of line) amis) as [|r rs] eqn:E; [done|]. intros _.
  pose proof (max_tuple_elem r rs) as Hm. rewrite <-E in Hm. apply list_elem_of_omap in Hm as (v & _ & Hv).
  destruct (max_tuple r rs) as [[x y] z]. apply release_of_line in Hv as (-> & -> & Hz); eauto.
Qed.

Lemma line_of_release a b c :
  (0 <= a)%Z → (0 <= b)%Z → (0 <= c)%Z →
  line_of (str_Z a +:+ "." +:+ str_Z b +:+ "." +:+ str_Z c) = Some (str_Z a +:+ "." +:+ str_Z b).
Proof using Type.
  intros Ha Hb Hc. unfold line_of.
  assert (startswith "branch-" (str_Z a +:+ "." +:+ str_Z b +:+ "." +:+ str_Z c) = false) as ->.
  { pose proof (str_Z_digits a Ha) as [Hne Hd]%andb_true_iff. destruct (str_Z a) as [|ch s]; [done|].
    cbn [all_chars] in Hd. apply andb_true_iff in Hd as [Hd _]. change (String ch s +:+ ?x) with (String ch (s +:+ x)).
    cbn [startswith]. by destruct ch as [[] [] [] [] [] [] [] []]. }
  change ("." +:+ str_Z b +:+ "." +:+ str_Z c) with (String "." (str_Z b +:+ String "." (str_Z c))).
  rewrite span_str_Z by done. change (str_drop 1 (String "." ?x)) with x. rewrite span_str_Z by done.
  rewrite !str_Z_truthy by done. done.
Qed.

Lemma release_not_line a b c :
  (0 <= a)%Z → (0 <= b)%Z → anchored RELEASE_LINE_RE (str_Z a +:+ "." +:+ str_Z b +:+ "." +:+ str_Z c) = false.
Proof using Type.
  intros Ha Hb. apply not_true_iff_false. intros H. apply matches_lang, lang_seq_iff in H as (s1 & nl & Heq & H & Hnl).
  cbn [RELEASE_LINE_RE RSeqs] in H. apply lang_seq_iff in H as (d1 & r & -> & [_ Hd1]%lang_plus_chars & H).
  apply lang_seq_iff in H as (dot & d2 & -> & ->%lang_lit_iff & [_ Hd2]%lang_plus_chars).
  change ("." +:+ str_Z b +:+ "." +:+ str_Z c) with (String "." (str_Z b +:+ String "." (str_Z c))) in Heq.
  rewrite !str_app_assoc in Heq. change (("." +:+ d2) +:+ nl) with (String "." (d2 +:+ nl)) in Heq.
  apply (f_equal span_digits) in Heq. rewrite span_str_Z in Heq by done.
  rewrite span_digits_app in Heq; [|done|by intros ? ? [= <- _]]. injection Heq as _ Heq.
  apply (f_equal span_digits) in Heq. rewrite span_str_Z in Heq by done.
  change (EmptyString +:+ ?x) with x in Heq. apply lang_opt_iff in Hnl as [->|(ch & -> & Hch)%lang_char_iff].
  - rewrite (span_digits_app d2) in Heq; [by injection Heq|done|done].
  - rewrite (span_digits_app d2) in Heq; [|done|].
    + injection Heq as _ <-. done.
    + intros ? ? [= <- _]. by destruct ch as [[] [] [] [] [] [] [] []].
Qed.

Lemma latest_release_ok line region v :
  is_line line → line ∈ lines → _latest_release line region = Ok v →
  is_supported v = true ∧ anchored RELEASE_LINE_RE v = false.
Proof using Type.
  intros (a & b & Ha & Hb & ->) Hl H. unfold _latest_release in H.
  destruct (if truthy region then _ else _) as [r|]; [|done]. cbn [obind] in H.
  destruct (truthy _) eqn:Et; [|done]. injection H as <-.
  destruct (latest_release_shape _ a b Ha Hb Et) as (c & Hc & ->). unfold is_supported.
  rewrite line_of_release by done. rewrite bool_decide_true by done. split; [done|by apply release_not_line].
Qed.

Lemma map_ok_Forall {A B} (f : A → outcome texn B) (P : B → Prop) l l' :
  map_ok f l = Ok l' → (∀ x y, x ∈ l → f x = Ok y → P y) → Forall P l' ∧ length l' = length l.
Proof using Type.
  revert l'. induction l as [|x l IH]; intros l' H HP; cbn [map_ok] in H; [by injection H as <-|].
  destruct (f x) as [y|] eqn:Ef; [|done]. cbn [obind] in H. destruct (map_ok f l) as [ys|] eqn:El; [|done].
  injection H as <-. destruct (IH ys eq_refl) as [? ?]; [intros; eapply HP; [by right|done]|].
  split; [|simpl; congruence]. constructor; [|done]. by eapply HP; [left|].
Qed.

(** The line of a bare line is itself. *)
Lemma line_of_line v : no_space v = true → anchored RELEASE_LINE_RE v = true → line_of v = Some v.
Proof using Type.
  intros Hs H. apply matches_lang, lang_seq_iff in H as (s1 & nl & -> & H & Hnl).
  assert (nl = EmptyString) as ->.
  { apply lang_opt_iff in Hnl as [->|(ch & -> & Hch)%lang_char_iff]; [done|]. unfold no_space in Hs.
    rewrite all_chars_app in Hs. apply andb_true_iff in Hs as [_ Hs]. by destruct ch as [[] [] [] [] [] [] [] []]. }
  rewrite str_app_nil. cbn [RELEASE_LINE_RE RSeqs] in H.
  apply lang_seq_iff in H as (d1 & r & -> & [Hn1 Hd1]%lang_plus_chars & H).
  apply lang_seq_iff in H as (dot & d2 & -> & ->%lang_lit_iff & [Hn2 Hd2]%lang_plus_chars). unfold line_of.
  assert (startswith "branch-" (d1 +:+ "." +:+ d2) = false) as ->.
  { destruct d1 as [|ch d1]; [done|]. cbn [all_chars] in Hd1. apply andb_true_iff in Hd1 as [Hd1 _].
    change (String ch d1 +:+ ?x) with (String ch (d1 +:+ x)). cbn [startswith]. by destruct ch as [[] [] [] [] [] [] [] []]. }
  change ("." +:+ d2) with (String "." d2). rewrite span_digits_app; [|done|by intros ? ? [= <- _]].
  change (str_drop 1 (String "." d2)) with d2.
  pose proof (span_digits_app d2 EmptyString Hd2 ltac:(done)) as H2. rewrite str_app_nil in H2. rewrite H2.
  by destruct d1, d2.
Qed.

(** A matrix for supported versions only runs supported releases: whatever was asked for,
    every version it runs belongs to a supported line and none of them is a bare line, which
    would mean a nightly build of the branch. *)
Theorem supported_only_runs_supported scylla_version region versions :
  Forall is_line lines →
  supported_only_versions scylla_version region = Ok versions →
  versions ≠ [] ∧ Forall (λ v, is_supported v = true ∧ anchored RELEASE_LINE_RE v = false) versions.
Proof using Type.
  intros Hlines. unfold supported_only_versions. pose proof (split_ws_words (map_chars comma_to_blank (strip scylla_version))) as Hw.
  fold (re_split_words (strip scylla_version)) in Hw. rewrite Forall_forall in Hlines, Hw.
  destruct (re_split_words (strip scylla_version)) as [|w ws] eqn:E.
  - unfold supported_releases. destruct lines as [|l0 ls] eqn:El; [done|]. cbn [truthy truthy_list negb].
    intros H. rewrite <-El in *. eapply map_ok_Forall in H as [HF Hlen].
    + split; [by destruct versions; rewrite El in Hlen|exact HF].
    + intros l v Hl Hv. eapply latest_release_ok; eauto.
  - destruct (check_only_supported_versions (w :: ws)) eqn:Ec; [|done]. cbn [obind]. intros H.
    eapply map_ok_Forall in H as [HF Hlen]; [split; [by destruct versions|exact HF]|].
    intros x v Hx Hv.
    assert (is_supported x = true) as Hsx.
    { apply not_false_iff_true. intros Hf. unfold check_only_supported_versions in Ec.
      assert (x ∈ filter (λ v, is_supported v = false) (w :: ws)) as Hin by by apply list_elem_of_filter.
      destruct (filter _ (w :: ws)); [by apply not_elem_of_nil in Hin|done]. }
    destruct (anchored RELEASE_LINE_RE x) eqn:Ea; [|by injection Hv as <-].
    assert (x ∈ lines) as Hxl.
    { unfold is_supported in Hsx. rewrite line_of_line in Hsx by (try done; by apply Hw). by apply bool_decide_eq_true in Hsx. }
    eapply latest_release_ok; eauto.
Qed.
End Supported.

(** ** Witnesses *)
Module Sample.
Definition nightly : string := "2026.4.0~dev-0.20260804.9a3aba9e452a".
Definition yesterday : string := "2026.4.0~dev-0.20260803.0a3aba9e452b".
(** AWS has today's build, GCE only yesterday's, which both have. *)
#[export] Instance catalog : ImageCatalog :=
  {| newest_image b branch r a := Some (if String.eqb b "aws" then nightly else yesterday);
     build_image b v r a := Some (String.eqb v yesterday || (String.eqb v nightly && String.eqb b "aws")) |}.
Definition aws_target : BackendTarget := {| t_backend := "aws"; t_region := "eu-west-1,eu-west-2"; t_arch := "x86_64" |}.
Definition gce_target : BackendTarget := {| t_backend := "gce"; t_region := EmptyString; t_arch := "x86_64" |}.

Lemma clean : Forall clean_target [aws_target; gce_target].
Proof.
  repeat constructor; [exists ["eu-west-1"; "eu-west-2"]|by exists []].
  split; [by repeat constructor|]. split; [done|by left].
Qed.
Lemma consistent : catalog_consistent.
Proof.
  intros b branch r a v. simpl. destruct (String.eqb b "aws"); intros [= <-] _; [by vm_compute|by vm_compute].
Qed.
End Sample.

Lemma targets_get_published_builds_witness :
  let targets := [Sample.aws_target; Sample.gce_target] in
  ∃ st, resolve_versions_for_targets (FT := TriggerConfig.Sample.plain_floats) (IC := Sample.catalog)
          "master:latest" EmptyString targets "common" = Ok st ∧
  assigns
    (λ t v, truthy v = true ∧ (t_backend t ∈ VALID_IMAGE_BACKENDS →
            published_on (FT := TriggerConfig.Sample.plain_floats) (IC := Sample.catalog) v t = true)) targets st ∧
  dict_get Sample.aws_target st.1 = Some Sample.yesterday.
Proof.
  eexists ([(Sample.aws_target, Sample.yesterday); (Sample.gce_target, Sample.yesterday)], []).
  assert (resolve_versions_for_targets (FT := TriggerConfig.Sample.plain_floats) (IC := Sample.catalog)
          "master:latest" EmptyString [Sample.aws_target; Sample.gce_target] "common" =
          Ok ([(Sample.aws_target, Sample.yesterday); (Sample.gce_target, Sample.yesterday)], [])) as H
    by (vm_compute; reflexivity).
  assert (NoDup [Sample.aws_target; Sample.gce_target]) as Hnd by (apply (bool_decide_eq_true_1 (NoDup _)); vm_compute; reflexivity).
  split; [exact H|]. split; [|vm_compute; reflexivity].
  apply (targets_get_published_builds (FT := TriggerConfig.Sample.plain_floats) (IC := Sample.catalog) "master:latest" _ _ _ _
    Sample.consistent Hnd Sample.clean eq_refl H).
Defined.

Lemma common_takes_newest_witness :
  is_resolvable_partial_version "master:latest" = true ∧
  ∃ c, c = Sample.yesterday ∧
  match resolve_versions_for_targets (FT := TriggerConfig.Sample.plain_floats) (IC := Sample.catalog)
          "master:latest" EmptyString [Sample.aws_target; Sample.gce_target] "common" with
  | Ok (versions, _) => ∃ c', ∀ t v, dict_get t versions = Some v → v = c'
  | Err _ => False
  end.
Proof.
  assert (is_resolvable_partial_version "master:latest" = true) as Hr by (vm_compute; reflexivity).
  split; [exact Hr|]. exists Sample.yesterday. split; [reflexivity|].
  pose proof (common_takes_newest (FT := TriggerConfig.Sample.plain_floats) (IC := Sample.catalog)
    "master:latest" EmptyString [Sample.aws_target; Sample.gce_target] Hr) as H.
  assert (resolve_versions_for_targets (FT := TriggerConfig.Sample.plain_floats) (IC := Sample.catalog)
          "master:latest" EmptyString [Sample.aws_target; Sample.gce_target] "common" =
          Ok ([(Sample.aws_target, Sample.yesterday); (Sample.gce_target, Sample.yesterday)], [])) as E
    by (vm_compute; reflexivity).
  rewrite E in H |- *. destruct H as (c & _ & Hc & _). exists c. exact Hc.
Defined.

Lemma supported_only_runs_supported_witness :
  let amis (_ _ : string) := ["2025.4.3-0.20260101.abc-1"; "2025.4.10-0.20260201.abd-1"; "2025.4.0~rc1-0.20250101.abe-1"] in
  Forall is_line ["2025.4"] ∧
  supported_only_versions (FT := TriggerConfig.Sample.plain_floats) ["2025.4"] amis "2025.4" EmptyString = Ok ["2025.4.10"] ∧
  Forall (λ v, is_supported ["2025.4"] v = true ∧ anchored RELEASE_LINE_RE v = false) ["2025.4.10"].
Proof.
  intros amis. assert (Forall is_line ["2025.4"]) as Hl by (repeat constructor; exists 2025%Z, 4%Z; done).
  assert (supported_only_versions (FT := TriggerConfig.Sample.plain_floats) ["2025.4"] amis "2025.4" EmptyString =
          Ok ["2025.4.10"]) as H by (vm_compute; reflexivity).
  split; [exact Hl|]. split; [exact H|].
  apply (supported_only_runs_supported (FT := TriggerConfig.Sample.plain_floats) ["2025.4"] amis _ _ _ Hl H).
Defined.

End TriggerResolution.
