(* ===== verification/JenkinsClient.v ===== *)
(** The Jenkins client of the trigger matrix (sdcm/utils/trigger_matrix/groovy.py,
    jenkins_client.py).

    Jenkins and the clock are the interface [JenkinsServer]: running a script on its console,
    reading a page of its JSON API, [time.time()] and [time.sleep]. That the clock is not set
    back during a wait, and that a sleep lasts at least its argument, is the condition
    [steady_clock] of the theorems about waiting. Times are whole seconds.
    The client connects once and keeps the connection; what [_get_jenkins_client] gives does
    not change in a run, so connecting again is the same. The wait loop runs on fuel. *)
From Stdlib Require Import Ascii String ZArith Lia.
From stdpp Require Import base decidable option strings numbers sets sorting list.
From S2P Require Import Prelude.
From S2P Require Import PyString.
From S2P Require Import PyRegex.
From S2P Require Import PyInt.
From S2P Require Import PyRepr.
From S2P Require Import PyDict.
From S2P Require Import PyLiteral.
From S2P Require Import PyJson.
From S2P Require Import Effects.
From S2P Require Import TriggerVersions.
From S2P Require Import TriggerConfig.
Import TriggerVersions.
Local Open Scope py_scope.
Local Open Scope Z_scope.

Module JenkinsClient.

Definition MAX_TRIGGER_RETRIES : nat := 3.
Definition RETRY_BACKOFF_BASE : Z := 2.
Definition WAIT_POLL_INTERVAL : Z := 30.

(** ** The trigger script (groovy.py) *)

(** [value.replace("\\", "\\\\").replace("'", "\\'")]: two passes over single characters. *)
Fixpoint escape_with (c : ascii) (s : string) : string :=
  match s with
  | EmptyString => EmptyString
  | String d s' => if Ascii.eqb d c then String backslash (String c (escape_with c s')) else String d (escape_with c s')
  end.
Definition _escape_groovy_string (value : string) : string := escape_with single_quote (escape_with backslash value).

Definition quoted (s : string) : string := "'" +:+ _escape_groovy_string s +:+ "'".
Definition dq : string := String double_quote EmptyString.
Definition lines (l : list string) : string := join (String (ascii_of_nat 10) EmptyString) l.

Definition cause_section (upstream_job upstream_build : string) : string :=
  if truthy upstream_job && truthy upstream_build then
    lines [EmptyString;
      "def upstreamJob = Jenkins.instance.getItemByFullName(" +:+ quoted upstream_job +:+ ")";
      "def upstreamBuild = upstreamJob?.getBuildByNumber(" +:+ upstream_build +:+ ")";
      "def cause";
      "if (upstreamBuild) {";
      "    cause = new hudson.model.Cause.UpstreamCause((hudson.model.Run) upstreamBuild)";
      "} else {";
      "    cause = new hudson.model.Cause.RemoteCause(" +:+ quoted upstream_job +:+ ", 'Build #" +:+ upstream_build +:+
        " (upstream build not found)')";
      "}"; EmptyString]
  else
    lines [EmptyString;
      "def cause = new hudson.model.Cause.RemoteCause('trigger-matrix', 'Triggered via SCT trigger-matrix CLI')"; EmptyString].

Definition output_section (return_queue_url : bool) : string :=
  if return_queue_url then
    lines [EmptyString; "def rootUrl = Jenkins.instance.rootUrl ?: ''";
      "println " +:+ dq +:+ "TRIGGERED:${rootUrl}queue/item/${queueItem.id}/" +:+ dq; EmptyString]
  else lines [EmptyString; "println " +:+ dq +:+ "TRIGGERED:${targetJob.getAbsoluteUrl()}" +:+ dq; EmptyString].

Section Client.
Context {FT : PyFloat}.

Definition param_groovy (p : string * json) : string :=
  "new StringParameterValue(" +:+ quoted p.1 +:+ ", " +:+ quoted (json_str p.2) +:+ ")".

(** [JOB_NAME] and [BUILD_NUMBER] of the environment are [upstream_job] and [upstream_build]. *)
Definition _build_trigger_groovy (upstream_job upstream_build job_name : string) (parameters : list (string * json))
  (return_queue_url : bool) : string :=
  let escaped_job_name := _escape_groovy_string job_name in
  lines [EmptyString; "import jenkins.model.Jenkins"; "import hudson.model.*"; EmptyString;
    "def targetJob = Jenkins.instance.getItemByFullName('" +:+ escaped_job_name +:+ "')";
    "if (!targetJob) {";
    "    println " +:+ dq +:+ "ERROR: Job not found: " +:+ escaped_job_name +:+ dq;
    "    return"; "}";
    cause_section upstream_job upstream_build;
    "def params = [" +:+ join ", " (param_groovy <$> parameters) +:+ "]";
    "def actions = []"; "if (params) {"; "    actions.add(new ParametersAction(params))"; "}";
    "actions.add(new CauseAction(cause))"; EmptyString;
    "def queueItem = targetJob.isBuildable() ? Jenkins.instance.queue.schedule2(targetJob, 0, actions).item : null";
    "if (queueItem != null) {";
    output_section return_queue_url;
    "} else {";
    "    println " +:+ dq +:+ "ERROR: build was not queued for " +:+ escaped_job_name +:+ dq;
    "}"; EmptyString].

(** ** Jenkins and the clock *)
Class JenkinsServer : Type := {
  server : Type;
  run_script : string → act server texn string;
  jenkins_open : string → act server texn string;
  now : server → Z;
  sleep : Z → server → server
}.
Context {JS : JenkinsServer}.

(** ** Credentials (_get_jenkins_client) *)
Fixpoint rstrip_char (c : ascii) (s : string) : string :=
  match s with
  | EmptyString => EmptyString
  | String d s' =>
    match rstrip_char c s' with
    | EmptyString => if Ascii.eqb d c then EmptyString else String d EmptyString
    | r => String d r
    end
  end.

(** The key store gives [url] and [password], or raises one of the exceptions that are logged. *)
Definition _get_jenkins_client (env_url env_token : string) (keystore : option (string * string)) : outcome texn string :=
  let url := rstrip_char "/" env_url in
  let '(url, token) :=
    if negb (truthy url) || negb (truthy env_token) then
      match keystore with
      | Some (k_url, k_password) =>
        (if truthy url then url else rstrip_char "/" k_url, if truthy env_token then env_token else k_password)
      | None => (url, env_token)
      end
    else (url, env_token) in
  if negb (truthy url) then Err JenkinsTriggerError
  else if negb (truthy token) then Err JenkinsTriggerError
  else Ok url.

Variable connection : outcome texn string.
Variables upstream_job upstream_build : string.

Definition _connect : act server texn string := λ s, (s, connection).
Definition sleep_for (n : Z) : act server texn unit := modify (sleep n).
Definition time : act server texn Z := gets now.
Definition is_jenkins_exception (e : texn) : bool :=
  match e with JenkinsException | NotFoundException => true | _ => false end.

(** ** Triggering *)

(** The rest of the attempts, from [attempt] on; [left] of them remain. *)
Fixpoint trigger_attempts (script : string) (left attempt : nat) : act server texn string :=
  match left with
  | O => raise JenkinsTriggerError
  | S left' =>
    let! r := caught (run_script script) in
    let again :=
      (if (attempt <? MAX_TRIGGER_RETRIES - 1)%nat then sleep_for (RETRY_BACKOFF_BASE ^ (Z.of_nat attempt + 1)) else ret tt) ;;;
      trigger_attempts script left' (S attempt) in
    match r with
    | Ok result =>
      if startswith "TRIGGERED:" result then ret (strip (str_drop 10 result))
      else if startswith "ERROR:" result then raise JenkinsTriggerError
      else again
    | Err e => if is_jenkins_exception e then again else raise e
    end
  end.

Definition _run_trigger_script (job_name : string) (parameters : list (string * json)) (return_queue_url : bool) : act server texn string :=
  let! _ := _connect in
  trigger_attempts (_build_trigger_groovy upstream_job upstream_build job_name parameters return_queue_url) MAX_TRIGGER_RETRIES 0.

Definition trigger (job_name : string) (parameters : list (string * json)) (dry_run : bool) : act server texn bool :=
  if dry_run then ret true
  else
    let! _ := _connect in
    let! r := caught (_run_trigger_script job_name parameters false) in
    match r with
    | Ok _ => ret true
    | Err JenkinsTriggerError => ret false
    | Err e => raise e
    end.

Definition trigger_with_queue (job_name : string) (parameters : list (string * json)) (dry_run : bool) : act server texn string :=
  if dry_run then ret EmptyString else _run_trigger_script job_name parameters true.

(** ** Waiting for builds *)
Record _PendingWaitJob : Type := {
  p_job_name : string;
  p_queue_url : string;
  p_collect_results : list string;
  p_timeout : Z;
  p_fail_on_error : bool;
  p_scylla_version : string
}.

Record BuildResult : Type := {
  b_job_name : string;
  b_build_number : Z;
  b_result : json;
  b_artifacts : list string;
  b_build_url : string;
  b_scylla_version : string;
  b_description : json
}.

Definition success (b : BuildResult) : bool := match b_result b with JStr r => String.eqb r "SUCCESS" | _ => false end.

Record _QueuedBuild : Type := { q_pending : _PendingWaitJob; queued_since : Z; queue_item_gone : bool }.

Record _ActiveBuild : Type := {
  a_job_name : string;
  a_build_number : Z;
  a_job_url_path : string;
  a_collect_results : list string;
  a_timeout : Z;
  a_fail_on_error : bool;
  a_start_time : Z;
  a_scylla_version : string
}.

(** [s.replace("/", "/job/")] *)
Definition job_path (s : string) : string := join "/job/" (split_on "/" s).

Definition loads (text : string) : act server texn json :=
  match json_loads text with Some j => ret j | None => raise JSONDecodeError end.

(** [j.get(key)]: only a mapping has it. *)
Definition jget (j : json) (key : string) : act server texn (option json) :=
  match j with JObj d => ret (dict_get key d) | _ => raise OtherError end.

Definition to_int (j : json) : act server texn Z :=
  match json_int j with Some z => ret z | None => raise OtherError end.

(** The number in a queue item URL: [re.search(r"/queue/item/(\d+)/?$", url)]. *)
Definition queue_id_of (url : string) : option Z :=
  let r := str_rev url in
  let r := match r with String c r' => if (nat_of_ascii c =? 10)%nat then r' else r | EmptyString => r end in
  let r := match r with String c r' => if Ascii.eqb c "/" then r' else r | EmptyString => r end in
  let '(d, rest) := span_digits r in
  if truthy d && startswith (str_rev "/queue/item/") rest then Some (int_of_digits (str_rev d)) else None.

(** [for build in ...: if build.get("queueId") == queue_id: return int(build["number"])] *)
Fixpoint find_queue_id (builds : list json) (queue_id : Z) : act server texn (option Z) :=
  match builds with
  | [] => ret None
  | b :: rest =>
    let! qid := jget b "queueId" in
    if match qid with Some v => json_eqb_int v queue_id | None => false end then
      let! n := jget b "number" in
      match n with Some v => let! z := to_int v in ret (Some z) | None => raise OtherError end
    else find_queue_id rest queue_id
  end.

(** Iterating over a value of an answer: a list, or a mapping's keys. *)
Definition items_of (v : option json) : act server texn (list json) :=
  match v with
  | None => ret []
  | Some (JList l) => ret l
  | Some (JObj d) => ret (JStr <$> d.*1)
  | Some (JStr s) => ret ((λ c, JStr (String c EmptyString)) <$> list_ascii_of_string s)
  | Some _ => raise OtherError
  end.

Definition _find_build_by_queue_id (job_name : string) (queue_id : Z) : act server texn (option Z) :=
  let! jenkins_url := _connect in
  let! r := caught (jenkins_open (jenkins_url +:+ "/job/" +:+ job_path job_name +:+ "/api/json?tree=builds[number,queueId]")) in
  match r with
  | Err e => if is_jenkins_exception e then ret None else raise e
  | Ok resp =>
    let! j := loads (if truthy resp then resp else "{}") in
    let! builds := jget j "builds" in
    let! l := items_of builds in
    find_queue_id l queue_id
  end.

(** [if data.get("cancelled"): raise ...] *)
Definition cancellation (data : json) : act server texn (option Z) :=
  let! c := jget data "cancelled" in
  if truthy (default JNull c) then raise JenkinsTriggerError else ret None.

(** The answer about a queue item: the build's number, or a cancellation. *)
Definition queue_item_answer (resp : string) : act server texn (option Z) :=
  if truthy resp then
    let! data := loads resp in
    let! executable := jget data "executable" in
    let! number := (match executable with Some e => if truthy e then jget e "number" else ret None | None => ret None end) in
    match number with
    | Some n =>
      if truthy n then let! z := to_int n in ret (Some z)
      else cancellation data
    | None => cancellation data
    end
  else ret None.

(** [job_name] is given by every caller. *)
Definition _check_build_start (queue_url job_name : string) (queue_item_gone : bool) : act server texn (option Z * bool) :=
  match queue_id_of queue_url with
  | None => raise JenkinsTriggerError
  | Some queue_id =>
    if queue_item_gone then
      let! n := _find_build_by_queue_id job_name queue_id in ret (n, true)
    else
      let! _ := _connect in
      let! r := caught (let! resp := jenkins_open (rstrip_char "/" queue_url +:+ "/api/json") in queue_item_answer resp) in
      match r with
      | Ok (Some z) => ret (Some z, false)
      | Ok None => ret (None, false)
      | Err NotFoundException => let! n := _find_build_by_queue_id job_name queue_id in ret (n, true)
      | Err JenkinsException => ret (None, false)
      | Err e => raise e
      end
  end.

(** The part of a path after its last slash. *)
Definition filename_of (rel_path : string) : string := default EmptyString (last (split_on "/" rel_path)).

Fixpoint match_artifacts (prefix : string) (patterns : list string) (l : list json) : act server texn (list string) :=
  match l with
  | [] => ret []
  | a :: rest =>
    let! rel := jget a "relativePath" in
    match default (JStr EmptyString) rel with
    | JStr rel_path =>
      let! more := match_artifacts prefix patterns rest in
      ret (if existsb (fnmatch (filename_of rel_path)) patterns then (prefix +:+ rel_path) :: more else more)
    | _ => raise OtherError
    end
  end.

Definition _collect_artifacts (job_url_path : string) (build_number : Z) (patterns : list string) : act server texn (list string) :=
  if negb (truthy patterns) then ret []
  else
    let! jenkins_url := _connect in
    let base := jenkins_url +:+ "/job/" +:+ job_url_path +:+ "/" +:+ str_Z build_number in
    let! r := caught (
      let! resp := jenkins_open (base +:+ "/api/json?tree=artifacts[relativePath]") in
      if negb (truthy resp) then ret []
      else
        let! j := loads resp in
        let! artifacts := jget j "artifacts" in
        let! l := items_of artifacts in
        match_artifacts (base +:+ "/artifact/") patterns l) in
    match r with
    | Ok l => ret l
    | Err e => if is_jenkins_exception e then ret [] else raise e
    end.

Inductive queue_look : Type :=
  | Started (build : _ActiveBuild)
  | StillQueued (item : _QueuedBuild)
  | DoneWith (result : BuildResult).

Definition queue_result (p : _PendingWaitJob) (jenkins_url result : string) : BuildResult :=
  {| b_job_name := p_job_name p; b_build_number := 0; b_result := JStr result; b_artifacts := [];
     b_build_url := jenkins_url +:+ "/job/" +:+ job_path (p_job_name p); b_scylla_version := p_scylla_version p;
     b_description := JStr EmptyString |}.

Definition _poll_queued_build (item : _QueuedBuild) (jenkins_url : string) : act server texn queue_look :=
  let p := q_pending item in
  let! t := time in
  if t - queued_since item >? p_timeout p then ret (DoneWith (queue_result p jenkins_url "NOT_STARTED"))
  else
    let! r := caught (_check_build_start (p_queue_url p) (p_job_name p) (queue_item_gone item)) in
    match r with
    | Ok (build_number, gone) =>
      if truthy build_number then
        let! t' := time in
        ret (Started {| a_job_name := p_job_name p; a_build_number := default 0 build_number;
                        a_job_url_path := job_path (p_job_name p); a_collect_results := p_collect_results p;
                        a_timeout := p_timeout p; a_fail_on_error := p_fail_on_error p; a_start_time := t';
                        a_scylla_version := p_scylla_version p |})
      else ret (StillQueued {| q_pending := p; queued_since := queued_since item; queue_item_gone := gone |})
    | Err JenkinsTriggerError => ret (DoneWith (queue_result p jenkins_url "FAILURE"))
    | Err e => raise e
    end.

Definition build_result (b : _ActiveBuild) (build_url : string) (result : json) (artifacts : list string) (description : json) : BuildResult :=
  {| b_job_name := a_job_name b; b_build_number := a_build_number b; b_result := result; b_artifacts := artifacts;
     b_build_url := build_url; b_scylla_version := a_scylla_version b; b_description := description |}.

Definition _poll_active_build (jenkins_url : string) (b : _ActiveBuild) : act server texn (option BuildResult) :=
  let build_url := jenkins_url +:+ "/job/" +:+ a_job_url_path b +:+ "/" +:+ str_Z (a_build_number b) in
  let! t := time in
  if t - a_start_time b >? a_timeout b then ret (Some (build_result b build_url (JStr "TIMEOUT") [] (JStr EmptyString)))
  else
    let! r := caught (jenkins_open (build_url +:+ "/api/json")) in
    match r with
    | Err e => if is_jenkins_exception e then ret None else raise e
    | Ok resp =>
      if negb (truthy resp) then ret None
      else
        let! data := loads resp in
        let! building := jget data "building" in
        if truthy (default (JBool true) building) then ret None
        else
          let! result := jget data "result" in
          let! artifacts := _collect_artifacts (a_job_url_path b) (a_build_number b) (a_collect_results b) in
          let! description := jget data "description" in
          ret (Some (build_result b build_url (default (JStr "UNKNOWN") result) artifacts
            (if truthy (default JNull description) then default JNull description else JStr EmptyString)))
    end.

(** One cycle over the queue: what stays queued, what started, the results. *)
Fixpoint poll_queue (jenkins_url : string) (l : list _QueuedBuild) : act server texn (list _QueuedBuild * list _ActiveBuild * list BuildResult) :=
  match l with
  | [] => ret ([], [], [])
  | item :: l' =>
    let! look := _poll_queued_build item jenkins_url in
    let! (still, started, done_) := poll_queue jenkins_url l' in
    ret (match look with
         | Started b => (still, b :: started, done_)
         | StillQueued i => (i :: still, started, done_)
         | DoneWith r => (still, started, r :: done_)
         end)
  end.

Fixpoint poll_active (jenkins_url : string) (l : list _ActiveBuild) : act server texn (list _ActiveBuild * list BuildResult) :=
  match l with
  | [] => ret ([], [])
  | b :: l' =>
    let! look := _poll_active_build jenkins_url b in
    let! (running, done_) := poll_active jenkins_url l' in
    ret (match look with Some r => (running, r :: done_) | None => (b :: running, done_) end)
  end.

(** [while queued or active_builds]; [None] when the fuel ran out. *)
Fixpoint wait_loop (fuel : nat) (jenkins_url : string) (poll_interval : Z) (queued : list _QueuedBuild) (active : list _ActiveBuild)
  (results : list BuildResult) : act server texn (option (list BuildResult)) :=
  match fuel with
  | O => ret None
  | S f =>
    if truthy queued || truthy active then
      let! (still_queued, started, done1) := poll_queue jenkins_url queued in
      let! (still_running, done2) := poll_active jenkins_url (active ++ started) in
      (if truthy still_queued || truthy still_running then sleep_for poll_interval else ret tt) ;;;
      wait_loop f jenkins_url poll_interval still_queued still_running (results ++ done1 ++ done2)
    else ret (Some results)
  end.

Definition pending_key (p : _PendingWaitJob) : string * string := (p_job_name p, p_scylla_version p).
Definition result_key (b : BuildResult) : string * string := (b_job_name b, b_scylla_version b).

(** [order]: the index of the last pending job of a key. *)
Definition trigger_order (pending : list _PendingWaitJob) : list ((string * string) * nat) :=
  foldl (λ d p, dict_set p.1 p.2 d) [] (imap (λ i p, (pending_key p, i)) pending).
Definition rank (order : list ((string * string) * nat)) (k : string * string) : nat :=
  default (length order) (dict_get k order).

(** [sorted(..., key=...)], which is stable. *)
Fixpoint insert_ranked (order : list ((string * string) * nat)) (x : BuildResult) (l : list BuildResult) : list BuildResult :=
  match l with
  | [] => [x]
  | y :: l' => if (rank order (result_key x) <=? rank order (result_key y))%nat then x :: l else y :: insert_ranked order x l'
  end.
Definition _in_trigger_order (results : list BuildResult) (pending : list _PendingWaitJob) : list BuildResult :=
  foldr (insert_ranked (trigger_order pending)) [] results.

Definition wait_for_builds (fuel : nat) (pending : list _PendingWaitJob) (dry_run : bool) (poll_interval : Z) :
  act server texn (option (list BuildResult)) :=
  if dry_run || negb (truthy pending) then
    ret (Some ((λ p, {| b_job_name := p_job_name p; b_build_number := 0; b_result := JStr "SUCCESS"; b_artifacts := [];
                        b_build_url := EmptyString; b_scylla_version := p_scylla_version p; b_description := JStr EmptyString |}) <$> pending))
  else
    let! jenkins_url := _connect in
    let! t := time in
    let queued := (λ p, {| q_pending := p; queued_since := t; queue_item_gone := false |}) <$> pending in
    let! results := wait_loop fuel jenkins_url poll_interval queued [] [] in
    ret ((λ l, _in_trigger_order l pending) <$> results).
End Client.

(** ** Values embedded in the script *)

(** How Groovy reads a single-quoted literal, after its opening quote: the text and the rest. *)
Class GroovyLexer : Type := {
  read_literal : string → option (string * string);
  read_close t : read_literal (String single_quote t) = Some (EmptyString, t);
  read_escape c t : c = single_quote ∨ c = backslash →
    read_literal (String backslash (String c t)) = (λ p, (String c p.1, p.2)) <$> read_literal t;
  read_plain c t : c ≠ single_quote → c ≠ backslash → not_newline c = true →
    read_literal (String c t) = (λ p, (String c p.1, p.2)) <$> read_literal t
}.

(** Whatever a job name or parameter value holds, it cannot leave its place in the trigger
    script: the literal Groovy reads there is the value itself, and the script goes on right
    after it. (Values span one line.) *)
Theorem groovy_literal_roundtrip `{GroovyLexer} value rest :
  all_chars not_newline value = true →
  read_literal (_escape_groovy_string value +:+ "'" +:+ rest) = Some (value, rest).
Proof.
  unfold _escape_groovy_string. induction value as [|c value IH]; intros Hv; [apply read_close|].
  cbn [all_chars] in Hv. apply andb_true_iff in Hv as [Hc Hv]. specialize (IH Hv). cbn [escape_with].
  destruct (Ascii.eqb_spec c backslash) as [->|Hb].
  - cbn [escape_with]. change (Ascii.eqb backslash single_quote) with false. cbv iota.
    change (String backslash (String backslash ?x) +:+ ?y) with (String backslash (String backslash (x +:+ y))).
    rewrite read_escape by auto. by rewrite IH.
  - cbn [escape_with]. destruct (Ascii.eqb_spec c single_quote) as [->|Hq].
    + change (String backslash (String single_quote ?x) +:+ ?y) with (String backslash (String single_quote (x +:+ y))).
      rewrite read_escape by auto. by rewrite IH.
    + change (String c ?x +:+ ?y) with (String c (x +:+ y)). rewrite read_plain by done. by rewrite IH.
Qed.

(** ** Every build is waited for *)
Section Waiting.
Context {FT : PyFloat} {JS : JenkinsServer}.
Variable jenkins_url : string.
Abbreviation connected := (Ok jenkins_url : outcome texn string).

(** The system clock is not set back while the client talks to Jenkins, and sleeping takes at
    least the time asked for. *)
Definition steady_clock : Prop :=
  (∀ url s, now s <= now (jenkins_open url s).1) ∧ (∀ n s, 0 <= n → now s + n <= now (sleep n s)).

Hypothesis clock_steady : steady_clock.

(** Actions after which it is not earlier, and whose exceptions satisfy [E]. *)
Definition runs {A} (E : texn → Prop) (m : act server texn A) : Prop :=
  ∀ s, now s <= now (m s).1 ∧ match (m s).2 with Ok _ => True | Err e => E e end.

Lemma runs_ret {A} E (a : A) : runs E (ret a).
Proof using Type. intros s. simpl. split; [lia|done]. Qed.
Lemma runs_time E : runs E time.
Proof using Type. intros s. simpl. split; [lia|done]. Qed.
Lemma runs_raise {A} (E : texn → Prop) e : E e → runs (A := A) E (raise e).
Proof using Type. intros He s. simpl. split; [lia|done]. Qed.
Lemma runs_bind {A B} E (m : act server texn A) (k : A → act server texn B) :
  runs E m → (∀ s a, (m s).2 = Ok a → runs E (k a)) → runs E (bind m k).
Proof using Type.
  intros Hm Hk s. unfold bind. destruct (Hm s) as [Ht He]. specialize (Hk s). destruct (m s) as [s' [a|e]]; [|done].
  destruct (Hk a eq_refl s') as [Ht' He']. simpl in *. split; [lia|done].
Qed.
Lemma runs_caught {A} E E' (m : act server texn A) : runs E m → runs E' (caught m).
Proof using Type. intros Hm s. unfold caught. destruct (Hm s) as [Ht _]. destruct (m s) as [s' r]. simpl in *. done. Qed.
Lemma caught_err {A} (E : texn → Prop) (m : act server texn A) s e : runs E m → (caught m s).2 = Ok (Err e) → E e.
Proof using Type. intros Hm. unfold caught. destruct (Hm s) as [_ He]. destruct (m s) as [s' r]. simpl in *. by intros [= ->]. Qed.
Lemma runs_weaken {A} (E E' : texn → Prop) (m : act server texn A) : (∀ e, E e → E' e) → runs E m → runs E' m.
Proof using Type. intros HE Hm s. destruct (Hm s) as [? H]. split; [done|]. destruct (m s).2; [done|by apply HE]. Qed.
Lemma runs_open E url : (∀ e s, (jenkins_open url s).2 = Err e → E e) → runs E (jenkins_open url).
Proof using clock_steady. intros H s. split; [apply clock_steady|]. destruct (jenkins_open url s).2 eqn:Eq; [done|]. by eapply H. Qed.

(** What Jenkins' JSON API answers. *)
Definition field_typed (d : list (string * json)) : Prop :=
  (∀ e, dict_get "executable" d = Some e → truthy e = true →
    ∃ de, e = JObj de ∧ ∀ n, dict_get "number" de = Some n → ∃ z, n = JInt z) ∧
  (∀ b, dict_get "builds" d = Some b →
    ∃ l, b = JList l ∧ Forall (λ x, ∃ dx z, x = JObj dx ∧ dict_get "number" dx = Some (JInt z)) l) ∧
  (∀ a, dict_get "artifacts" d = Some a →
    ∃ l, a = JList l ∧ Forall (λ x, ∃ dx, x = JObj dx ∧ ∀ r, dict_get "relativePath" dx = Some r → ∃ t, r = JStr t) l).
Definition typed_answer (text : string) : Prop :=
  text = EmptyString ∨ ∃ d, json_loads text = Some (JObj d) ∧ field_typed d.
Definition typed_server : Prop := ∀ url s text, (jenkins_open url s).2 = Ok text → typed_answer text.

(** What a request raises and the client does not catch: the failures of the connection that
    the Jenkins library does not turn into an exception of its own. *)
Definition uncaught (e : texn) : Prop := is_jenkins_exception e = false ∧ ∃ url s, (jenkins_open url s).2 = Err e.

Hypothesis server_typed : typed_server.

Lemma open_runs url : runs (λ e, is_jenkins_exception e = true ∨ uncaught e) (jenkins_open url).
Proof using clock_steady.
  apply runs_open. intros e s He. destruct (is_jenkins_exception e) eqn:E; [by left|]. right. split; [done|]. by exists url, s.
Qed.

(** A handler of the exceptions of the Jenkins library. *)
Lemma handled_runs {A} e (a : A) :
  is_jenkins_exception e = true ∨ uncaught e → runs uncaught (if is_jenkins_exception e then ret a else raise e).
Proof using Type. intros [->|He]; [apply runs_ret|]. rewrite (proj1 He). by apply runs_raise. Qed.

Lemma caught_open_ok url s text : (caught (jenkins_open url) s).2 = Ok (Ok text) → typed_answer text.
Proof using server_typed.
  unfold caught. intros H. apply (server_typed url s). destruct (jenkins_open url s) as [s' r]. simpl in *. by injection H.
Qed.

Lemma find_queue_id_runs l queue_id :
  Forall (λ x, ∃ dx z, x = JObj dx ∧ dict_get "number" dx = Some (JInt z)) l → runs uncaught (find_queue_id l queue_id).
Proof using Type.
  induction 1 as [|x l (dx & z & -> & Hz) _ IH]; cbn [find_queue_id]; [apply runs_ret|].
  apply runs_bind; [apply runs_ret|]. intros s qid _. case_match; [|done].
  apply runs_bind; [apply runs_ret|]. intros s' n [= <-]. rewrite Hz. apply runs_bind; [apply runs_ret|]. intros. apply runs_ret.
Qed.

Lemma find_build_runs job_name queue_id : runs uncaught (_find_build_by_queue_id connected job_name queue_id).
Proof using clock_steady server_typed.
  unfold _find_build_by_queue_id. apply runs_bind; [apply runs_ret|]. intros s url [= <-].
  apply runs_bind; [eapply runs_caught, open_runs|]. intros s1 [resp|e] Hr.
  - assert (∃ d, json_loads (if truthy resp then resp else "{}") = Some (JObj d) ∧ field_typed d) as (d & Hd & _ & Hb & _).
    { apply caught_open_ok in Hr as [->|(d & Hd & Hf)].
      - exists []. split; [vm_compute; reflexivity|done].
      - destruct resp as [|c t]; [done|]. by exists d. }
    unfold loads. rewrite Hd. apply runs_bind; [apply runs_ret|]. intros s2 j [= <-].
    apply runs_bind; [apply runs_ret|]. intros s3 builds [= <-].
    destruct (dict_get "builds" d) as [b|] eqn:Eb.
    + destruct (Hb b eq_refl) as (l & -> & Hl). apply runs_bind; [apply runs_ret|]. intros s4 l' [= <-]. by apply find_queue_id_runs.
    + apply runs_bind; [apply runs_ret|]. intros s4 l' [= <-]. apply runs_ret.
  - eapply caught_err in Hr; [|apply open_runs]. by apply handled_runs.
Qed.

Lemma jget_runs E d key : runs E (jget (JObj d) key).
Proof using Type. apply runs_ret. Qed.

Lemma queue_item_answer_runs resp : typed_answer resp → runs (λ e, e = JenkinsTriggerError) (queue_item_answer resp).
Proof using Type.
  intros Ht. unfold queue_item_answer. destruct (truthy resp) eqn:Er; [|apply runs_ret].
  destruct Ht as [->|(d & Hd & Hx & _)]; [done|]. unfold loads. rewrite Hd.
  assert (∀ s : server, ∀ j, (ret (E := texn) (JObj d) s).2 = Ok j → j = JObj d) as Hj by (by intros s j [= <-]).
  apply runs_bind; [apply runs_ret|]. intros s j ->%Hj.
  assert (runs (λ e, e = JenkinsTriggerError) (cancellation (JObj d))) as Hc.
  { apply runs_bind; [apply jget_runs|]. intros s1 c _. case_match; [by apply runs_raise|apply runs_ret]. }
  apply runs_bind; [apply jget_runs|]. intros s1 ex [= <-].
  destruct (dict_get "executable" d) as [e|] eqn:Ee; [destruct (truthy e) eqn:Et|].
  - destruct (Hx e eq_refl Et) as (de & -> & Hn). apply runs_bind; [apply jget_runs|]. intros s2 n [= <-].
    destruct (dict_get "number" de) as [n|]; [|exact Hc]. destruct (Hn n eq_refl) as [z ->].
    destruct (truthy (JInt z)); [|exact Hc]. apply runs_bind; [apply runs_ret|]. intros. apply runs_ret.
  - apply runs_bind; [apply runs_ret|]. intros s2 n [= <-]. exact Hc.
  - apply runs_bind; [apply runs_ret|]. intros s2 n [= <-]. exact Hc.
Qed.

Lemma check_build_start_runs queue_url job_name gone :
  runs (λ e, e = JenkinsTriggerError ∨ uncaught e) (_check_build_start connected queue_url job_name gone).
Proof using clock_steady server_typed.
  assert (∀ q, runs (λ e, e = JenkinsTriggerError ∨ uncaught e) (let! n := _find_build_by_queue_id connected job_name q in ret (n, true))) as Hf.
  { intros q. apply runs_bind; [eapply runs_weaken; [|apply find_build_runs]; auto|]. intros. apply runs_ret. }
  unfold _check_build_start. destruct (queue_id_of queue_url) as [q|]; [|apply runs_raise; by left]. destruct gone; [apply Hf|].
  apply runs_bind; [apply runs_ret|]. intros s u _.
  assert (runs (λ e, (is_jenkins_exception e = true ∨ uncaught e) ∨ e = JenkinsTriggerError)
    (let! resp := jenkins_open (rstrip_char "/" queue_url +:+ "/api/json") in queue_item_answer resp)) as Hq.
  { apply runs_bind; [eapply runs_weaken; [|apply open_runs]; auto|]. intros s1 resp Hr.
    eapply runs_weaken; [|apply queue_item_answer_runs, (server_typed _ _ _ Hr)]; auto. }
  apply runs_bind; [eapply runs_caught, Hq|]. intros s1 r Hr.
  destruct r as [[z|]|e]; [apply runs_ret|apply runs_ret|].
  destruct (caught_err _ _ _ _ Hq Hr) as [[He|He]| ->]; [| |apply runs_raise; by left].
  - destruct e; try done; apply runs_ret.
  - pose proof (proj1 He). destruct e; try done; apply runs_raise; by right.
Qed.

Definition q_key (q : _QueuedBuild) : string * string := pending_key (q_pending q).
Definition a_key (a : _ActiveBuild) : string * string := (a_job_name a, a_scylla_version a).
Definition q_deadline (q : _QueuedBuild) : Z := queued_since q + p_timeout (q_pending q).
Definition a_deadline (a : _ActiveBuild) : Z := a_start_time a + a_timeout a.

(** One look at a queued build, at a time [t] or later. *)
Definition look_ok (item : _QueuedBuild) (t t' : Z) (look : queue_look) : Prop :=
  match look with
  | Started a => a_key a = q_key item ∧ a_timeout a = p_timeout (q_pending item) ∧ a_start_time a <= t' ∧ t <= q_deadline item
  | StillQueued i => q_pending i = q_pending item ∧ queued_since i = queued_since item ∧ t <= q_deadline item
  | DoneWith r => result_key r = q_key item
  end.

Lemma poll_queued_ok item s :
  let '(s', r) := _poll_queued_build connected item jenkins_url s in
  now s <= now s' ∧ match r with Ok look => look_ok item (now s) (now s') look | Err e => uncaught e end.
Proof using clock_steady server_typed.
  unfold _poll_queued_build, time, gets, bind. destruct (_ >? _) eqn:Et.
  { simpl. split; [lia|]. done. }
  assert (now s <= q_deadline item) as Hd by (unfold q_deadline; rewrite Z.gtb_ltb in Et; apply Z.ltb_ge in Et; lia).
  unfold caught. destruct (check_build_start_runs (p_queue_url (q_pending item)) (p_job_name (q_pending item)) (queue_item_gone item) s) as [Ht He].
  destruct (_check_build_start _ _ _ _ s) as [s' [[n gone]|e]]; cbn [fst snd] in *.
  - destruct (truthy n); simpl; (split; [done|]); simpl; repeat split; try done; lia.
  - destruct He as [->|He]; [by simpl|]. destruct e; simpl; done.
Qed.

Lemma match_artifacts_runs prefix patterns l :
  Forall (λ x, ∃ dx, x = JObj dx ∧ ∀ r, dict_get "relativePath" dx = Some r → ∃ t, r = JStr t) l →
  runs uncaught (match_artifacts prefix patterns l).
Proof using Type.
  induction 1 as [|x l (dx & -> & Hx) _ IH]; cbn [match_artifacts]; [apply runs_ret|].
  apply runs_bind; [apply jget_runs|]. intros s rel [= <-].
  assert (∃ t, default (JStr EmptyString) (dict_get "relativePath" dx) = JStr t) as [t ->].
  { destruct (dict_get "relativePath" dx) as [r|] eqn:E; [by apply Hx|by eexists]. }
  apply runs_bind; [exact IH|]. intros. apply runs_ret.
Qed.

Lemma collect_artifacts_runs path n patterns : runs uncaught (_collect_artifacts connected path n patterns).
Proof using clock_steady server_typed.
  unfold _collect_artifacts. destruct (truthy patterns); [|apply runs_ret]. cbn [negb].
  apply runs_bind; [apply runs_ret|]. intros s url [= <-]. set (base := _ +:+ _).
  match goal with |- runs _ (bind (caught ?m) _) => assert (runs (λ e, is_jenkins_exception e = true ∨ uncaught e) m) as Hm end.
  { apply runs_bind; [apply open_runs|]. intros s1 resp Hr. destruct (truthy resp) eqn:Et; [|apply runs_ret]. cbn [negb].
    apply server_typed in Hr as [->|(d & Hd & _ & _ & Ha)]; [done|]. unfold loads. rewrite Hd.
    apply runs_bind; [apply runs_ret|]. intros s2 j [= <-]. apply runs_bind; [apply jget_runs|]. intros s3 a [= <-].
    destruct (dict_get "artifacts" d) as [a|] eqn:Ea.
    - destruct (Ha a eq_refl) as (l & -> & Hl). apply runs_bind; [apply runs_ret|]. intros s4 l' [= <-].
      eapply runs_weaken; [|by apply match_artifacts_runs]; auto.
    - apply runs_bind; [apply runs_ret|]. intros s4 l' [= <-]. apply runs_ret. }
  apply runs_bind; [eapply runs_caught, Hm|]. intros s1 [l|e] Hr; [apply runs_ret|].
  apply handled_runs. exact (caught_err _ _ _ _ Hm Hr).
Qed.

Lemma active_answer_runs b build_url resp :
  typed_answer resp → truthy resp = true →
  runs uncaught (let! data := loads resp in
    let! building := jget data "building" in
    if truthy (default (JBool true) building) then ret None
    else
      let! result := jget data "result" in
      let! artifacts := _collect_artifacts connected (a_job_url_path b) (a_build_number b) (a_collect_results b) in
      let! description := jget data "description" in
      ret (Some (build_result b build_url (default (JStr "UNKNOWN") result) artifacts
        (if truthy (default JNull description) then default JNull description else JStr EmptyString)))).
Proof using clock_steady server_typed.
  intros [->|(d & Hd & _)] Ht; [done|]. unfold loads. rewrite Hd. apply runs_bind; [apply runs_ret|]. intros s j [= <-].
  apply runs_bind; [apply jget_runs|]. intros s1 bl _. case_match; [apply runs_ret|].
  apply runs_bind; [apply jget_runs|]. intros s2 res _. apply runs_bind; [apply collect_artifacts_runs|]. intros s3 arts _.
  apply runs_bind; [apply jget_runs|]. intros. apply runs_ret.
Qed.

Lemma poll_active_build_runs b : runs uncaught (_poll_active_build connected jenkins_url b).
Proof using clock_steady server_typed.
  unfold _poll_active_build. apply runs_bind; [apply runs_time|]. intros s t _. case_match; [apply runs_ret|].
  apply runs_bind; [eapply runs_caught, open_runs|]. intros s1 [resp|e] Hr.
  - destruct (truthy resp) eqn:Et; [|apply runs_ret]. cbn [negb]. apply active_answer_runs; [|done]. by apply caught_open_ok in Hr.
  - eapply caught_err in Hr; [|apply open_runs]. by apply handled_runs.
Qed.

(** A result is the build's own; a build without one has not timed out. *)
Lemma bind_keeps_key {A B} (P : B → Prop) (m : act server texn A) (k : A → act server texn B) s s' b :
  bind m k s = (s', Ok b) → (∀ a s1 s2 b', k a s1 = (s2, Ok b') → P b') → P b.
Proof using Type. unfold bind. destruct (m s) as [s1 [a|e]]; [|done]. intros H HP. by eapply HP. Qed.

Lemma poll_active_build_ok b s :
  let '(s', r) := _poll_active_build connected jenkins_url b s in
  now s <= now s' ∧
  match r with
  | Ok (Some res) => result_key res = a_key b
  | Ok None => now s <= a_deadline b
  | Err e => uncaught e
  end.
Proof using clock_steady server_typed.
  pose proof (poll_active_build_runs b s) as [Ht He].
  destruct (_poll_active_build connected jenkins_url b s) as [s' [look|e]] eqn:E; [|done].
  split; [done|]. revert E. unfold _poll_active_build, time, gets. unfold bind at 1. cbn [fst snd].
  destruct (_ >? _) eqn:Eg; [by intros [= _ <-]|].
  assert (now s <= a_deadline b) as Hd by (unfold a_deadline; rewrite Z.gtb_ltb in Eg; apply Z.ltb_ge in Eg; lia).
  set (P := λ look : option BuildResult, match look with Some res => result_key res = a_key b | None => now s <= a_deadline b end).
  change (match look with Some res => result_key res = a_key b | None => now s <= a_deadline b end) with (P look).
  intros H. eapply (bind_keeps_key P); [exact H|]. clear H. intros [resp|e] s1 s2 l2; [|destruct (is_jenkins_exception e); [by intros [= _ <-]|done]].
  destruct (truthy resp); [cbn [negb]|by intros [= _ <-]].
  intros H. eapply (bind_keeps_key P); [exact H|]. clear H. intros data s3 s4 l4 H. eapply (bind_keeps_key P); [exact H|]. clear H.
  intros building s5 s6 l6. cbv beta. match goal with |- (if ?c then _ else _) _ = _ → _ => destruct c; [by intros [= _ <-]|] end.
  intros H. eapply (bind_keeps_key P); [exact H|]. clear H. intros result s7 s8 l8 H. eapply (bind_keeps_key P); [exact H|]. clear H.
  intros arts s9 s10 l10 H. eapply (bind_keeps_key P); [exact H|]. clear H. intros descr s11 s12 l12 [= _ <-]. done.
Qed.

(** One cycle over the queue. *)
Lemma poll_queue_ok l s :
  let '(s', r) := poll_queue connected jenkins_url l s in
  now s <= now s' ∧
  match r with
  | Ok (still, started, done_) =>
    q_key <$> l ≡ₚ (q_key <$> still) ++ (a_key <$> started) ++ (result_key <$> done_) ∧
    Forall (λ i, ∃ q, q ∈ l ∧ q_pending i = q_pending q ∧ queued_since i = queued_since q ∧ now s <= q_deadline q) still ∧
    Forall (λ a, ∃ q, q ∈ l ∧ a_timeout a = p_timeout (q_pending q) ∧ a_start_time a <= now s' ∧ now s <= q_deadline q) started
  | Err e => uncaught e
  end.
Proof using clock_steady server_typed.
  revert s. induction l as [|q l IH]; intros s; cbn [poll_queue].
  { simpl. split; [lia|]. repeat split; constructor. }
  unfold bind. pose proof (poll_queued_ok q s) as Hq. destruct (_poll_queued_build connected q jenkins_url s) as [s1 r].
  destruct Hq as [Ht Hl]. destruct r as [look|e]; [|done]. specialize (IH s1).
  destruct (poll_queue connected jenkins_url l s1) as [s2 [[[still started] done_]|e]]; [|by destruct IH; split; [lia|]].
  destruct IH as (Ht2 & Hk & Hst & Hsa). simpl. split; [lia|].
  assert (Forall (λ i, ∃ q', q' ∈ q :: l ∧ q_pending i = q_pending q' ∧ queued_since i = queued_since q' ∧ now s <= q_deadline q') still) as Hst'.
  { eapply Forall_impl; [exact Hst|]. intros i (q' & ? & ? & ? & ?). exists q'. repeat split; try done; [by right|lia]. }
  assert (Forall (λ a, ∃ q', q' ∈ q :: l ∧ a_timeout a = p_timeout (q_pending q') ∧ a_start_time a <= now s2 ∧ now s <= q_deadline q') started) as Hsa'.
  { eapply Forall_impl; [exact Hsa|]. intros a (q' & ? & ? & ? & ?). exists q'. repeat split; try done; [by right|lia]. }
  destruct look as [a|i|res]; simpl in Hl |- *.
  - destruct Hl as (Hka & Hta & Hs & Hd). split; [by rewrite Hka, Hk, Permutation_middle|]. split; [done|].
    constructor; [|done]. exists q. repeat split; try done; [by left|lia].
  - destruct Hl as (Hp & Hs & Hd). assert (q_key i = q_key q) as -> by (unfold q_key; by rewrite Hp). split; [by rewrite Hk|]. split; [|done].
    constructor; [|done]. exists q. repeat split; try done. by left.
  - split; [|done]. rewrite Hl, Hk. rewrite !app_assoc. apply Permutation_middle.
Qed.

Lemma poll_active_ok l s :
  let '(s', r) := poll_active connected jenkins_url l s in
  now s <= now s' ∧
  match r with
  | Ok (running, done_) =>
    a_key <$> l ≡ₚ (a_key <$> running) ++ (result_key <$> done_) ∧ Forall (λ a, a ∈ l ∧ now s <= a_deadline a) running
  | Err e => uncaught e
  end.
Proof using clock_steady server_typed.
  revert s. induction l as [|a l IH]; intros s; cbn [poll_active].
  { simpl. split; [lia|]. repeat split; constructor. }
  unfold bind. pose proof (poll_active_build_ok a s) as Ha. destruct (_poll_active_build connected jenkins_url a s) as [s1 r].
  destruct Ha as [Ht Hl]. destruct r as [look|e]; [|done]. specialize (IH s1).
  destruct (poll_active connected jenkins_url l s1) as [s2 [[running done_]|e]]; [|by destruct IH; split; [lia|]].
  destruct IH as (Ht2 & Hk & Hr). simpl. split; [lia|].
  assert (Forall (λ x, x ∈ a :: l ∧ now s <= a_deadline x) running) as Hr'.
  { eapply Forall_impl; [exact Hr|]. intros x [? ?]. split; [by right|lia]. }
  destruct look as [res|]; simpl.
  - split; [|done]. rewrite Hl, Hk. apply Permutation_middle.
  - split; [by rewrite Hk|]. constructor; [|done]. split; [by left|done].
Qed.

(** *** The loop ends *)
Lemma cycle_keys {A} (qs ar re d1 d2 st ac : list A) :
  ac ++ st ≡ₚ ar ++ d2 → qs ++ ar ++ (re ++ d1 ++ d2) ≡ₚ (qs ++ st ++ d1) ++ ac ++ re.
Proof using Type.
  intros H. rewrite <-!(assoc_L (++)). apply Permutation_app_head.
  transitivity ((ar ++ d2) ++ re ++ d1).
  - rewrite <-(assoc_L (++) ar d2), (assoc_L (++) re d1 d2). by rewrite (Permutation_app_comm (re ++ d1) d2).
  - rewrite <-H, (Permutation_app_comm ac st), <-(assoc_L (++) st ac). apply Permutation_app_head.
    rewrite (assoc_L (++) d1 ac re), (Permutation_app_comm d1 ac), <-(assoc_L (++) ac d1 re). apply Permutation_app_head.
    apply Permutation_app_comm.
Qed.

Section Loop.
Variables (T poll : Z).
Hypothesis poll_pos : 0 < poll.
Hypothesis T_nonneg : 0 <= T.

Definition active_rounds : Z := T / poll + 2.

Lemma rounds_two : 2 <= active_rounds.
Proof using poll_pos T_nonneg. unfold active_rounds. pose proof (Z.div_pos T poll T_nonneg poll_pos). lia. Qed.

Lemma rounds_cover n : active_rounds < n → T < n * poll.
Proof using poll_pos. unfold active_rounds. intros Hn. pose proof (Z.mul_div_le T poll poll_pos). pose proof (Z.mul_succ_div_gt T poll poll_pos). nia. Qed.

Definition queued_within (t f : Z) (q : _QueuedBuild) : Prop :=
  p_timeout (q_pending q) <= T ∧ q_deadline q < t + (f - active_rounds - 2) * poll.
Definition active_within (t f : Z) (a : _ActiveBuild) : Prop :=
  a_timeout a <= T ∧ a_deadline a < t + (f - 2) * poll.

Lemma queued_step t t' f q i :
  queued_within t (f + 1) q → t <= q_deadline q → q_pending i = q_pending q → queued_since i = queued_since q →
  t + poll <= t' → queued_within t' f i ∧ 2 <= f.
Proof using poll_pos T_nonneg. unfold queued_within, q_deadline. intros [HT Hd] Hl -> -> Ht. pose proof rounds_two. nia. Qed.

Lemma active_step t t' f a :
  active_within t (f + 1) a → t <= a_deadline a → t + poll <= t' → active_within t' f a ∧ 2 <= f.
Proof using poll_pos. unfold active_within. intros [HT Hd] Hl Ht. nia. Qed.

Lemma started_step t t1 t' f q a :
  queued_within t (f + 1) q → t <= q_deadline q → a_timeout a = p_timeout (q_pending q) → a_start_time a <= t1 →
  t1 + poll <= t' → active_within t' f a ∧ 2 <= f.
Proof using poll_pos T_nonneg.
  intros [HT Hd] Hl Hto Hs Ht. pose proof rounds_two. assert (active_rounds < f - 1) as Hr by nia.
  pose proof (rounds_cover (f - 1) Hr). unfold active_within, a_deadline. rewrite Hto. repeat split; nia.
Qed.

Lemma wait_loop_ok f queued active results s :
  (2 <= f)%nat → Forall (queued_within (now s) (Z.of_nat f)) queued → Forall (active_within (now s) (Z.of_nat f)) active →
  match (wait_loop connected f jenkins_url poll queued active results s).2 with
  | Ok (Some results') => result_key <$> results' ≡ₚ (q_key <$> queued) ++ (a_key <$> active) ++ (result_key <$> results)
  | Ok None => False
  | Err e => uncaught e
  end.
Proof using poll_pos T_nonneg clock_steady server_typed.
  revert queued active results s. induction f as [|f IH]; [lia|]. intros queued active results s Hf Hq Ha.
  cbn [wait_loop]. destruct (truthy queued || truthy active) eqn:Ene.
  2: { simpl. by destruct queued, active. }
  unfold bind at 1. pose proof (poll_queue_ok queued s) as H1. destruct (poll_queue connected jenkins_url queued s) as [s1 r1].
  destruct H1 as [Ht1 H1]. destruct r1 as [[[still started] done1]|e]; [|done]. destruct H1 as (Hk1 & Hst & Hsa).
  cbv beta iota. unfold bind at 1.
  pose proof (poll_active_ok (active ++ started) s1) as H2. destruct (poll_active connected jenkins_url (active ++ started) s1) as [s2 r2].
  destruct H2 as [Ht2 H2]. destruct r2 as [[running done2]|e]; [|done]. destruct H2 as [Hk2 Hr]. cbv beta iota.
  rewrite Forall_forall in Hq. rewrite Forall_forall in Ha. rewrite Forall_forall in Hst. rewrite Forall_forall in Hsa.
  rewrite Forall_forall in Hr.
  assert (∀ rest, rest ≡ₚ (q_key <$> still) ++ (a_key <$> running) ++ (result_key <$> results ++ done1 ++ done2) →
    rest ≡ₚ (q_key <$> queued) ++ (a_key <$> active) ++ (result_key <$> results)) as Hperm.
  { intros rest ->. rewrite Hk1, !fmap_app. apply cycle_keys. by rewrite <-fmap_app. }
  destruct (truthy still || truthy running) eqn:Ene2.
  - unfold sleep_for, modify, bind. pose proof (proj2 clock_steady poll s2 ltac:(lia)) as Ht3.
    replace (Z.of_nat (S f)) with (Z.of_nat f + 1) in * by lia. set (t' := now (sleep poll s2)) in *.
    assert (∀ i, i ∈ still → queued_within t' (Z.of_nat f) i ∧ 2 <= Z.of_nat f) as HQ.
    { intros i Hi. destruct (Hst i Hi) as (q & Hin & Hp & Hs & Hd). apply (queued_step (now s) t' _ q); auto; lia. }
    assert (∀ a, a ∈ running → active_within t' (Z.of_nat f) a ∧ 2 <= Z.of_nat f) as HA.
    { intros a Hi. destruct (Hr a Hi) as [[Hin|Hin]%elem_of_app Hd].
      - apply (active_step (now s)); auto; lia.
      - destruct (Hsa a Hin) as (q & Hq' & Hto & Hs & Hdq). apply (started_step (now s) (now s1) t' _ q); auto; lia. }
    assert (∀ r : outcome texn (option (list BuildResult)), match r with
      | Ok (Some results') =>
        result_key <$> results' ≡ₚ (q_key <$> still) ++ (a_key <$> running) ++ (result_key <$> results ++ done1 ++ done2)
      | Ok None => False | Err e => uncaught e end → match r with
      | Ok (Some results') => result_key <$> results' ≡ₚ (q_key <$> queued) ++ (a_key <$> active) ++ (result_key <$> results)
      | Ok None => False | Err e => uncaught e end) as Hres by (intros [[]|]; auto).
    apply Hres, IH.
    + assert (2 <= Z.of_nat f); [|lia]. destruct still as [|i still]; [destruct running as [|a running]; [done|apply (HA a); by left]|].
      apply (HQ i). by left.
    + apply Forall_forall. intros i Hi. by apply HQ.
    + apply Forall_forall. intros a Hi. by apply HA.
  - destruct f as [|f]; [lia|]. destruct still, running; try done. simpl. by apply Hperm.
Qed.
End Loop.

(** *** Results come in the order of the triggers *)
Lemma insert_ranked_perm order x l : insert_ranked order x l ≡ₚ x :: l.
Proof using Type. induction l as [|y l IH]; simpl; [done|]. case_match; [done|]. rewrite IH. apply Permutation_swap. Qed.

Lemma in_trigger_order_perm results pending : _in_trigger_order results pending ≡ₚ results.
Proof using Type.
  unfold _in_trigger_order. induction results as [|x l IH]; simpl; [done|]. by rewrite insert_ranked_perm, IH.
Qed.

Lemma in_trigger_order_sorted results pending :
  StronglySorted (λ x y, (rank (trigger_order pending) x <= rank (trigger_order pending) y)%nat)
    (result_key <$> _in_trigger_order results pending).
Proof using Type.
  unfold _in_trigger_order. set (order := trigger_order pending). induction results as [|x l IH]; simpl; [constructor|].
  induction (foldr (insert_ranked order) [] l) as [|y m IHm]; simpl in *; [repeat constructor|].
  apply StronglySorted_inv in IH as [Hm Hy]. destruct (Nat.leb_spec (rank order (result_key x)) (rank order (result_key y))).
  - simpl. constructor; [by constructor|]. constructor; [done|]. eapply Forall_impl; [exact Hy|]. intros z Hz. simpl in *. lia.
  - simpl. constructor; [by apply IHm|]. apply Forall_forall. intros z Hz.
    rewrite (insert_ranked_perm order x m) in Hz. rewrite Forall_forall in Hy. simpl in Hz.
    apply elem_of_cons in Hz as [->|Hz]; [lia|by apply Hy].
Qed.

Lemma rank_index pending i k :
  NoDup (pending_key <$> pending) → (pending_key <$> pending) !! i = Some k → rank (trigger_order pending) k = i.
Proof using Type.
  intros Hnd Hi. set (pairs := imap (λ i p, (pending_key p, i)) pending).
  assert (pairs.*1 = pending_key <$> pending) as Hfst 
    by (apply list_eq; intros j; unfold pairs; rewrite !list_lookup_fmap, list_lookup_imap; by destruct (pending !! j)).
  unfold rank, trigger_order. fold pairs. rewrite dict_of_pairs by (simpl; by rewrite Hfst). simpl.
  rewrite (dict_elem_get k i pairs); [done| |].
  - unfold dict_wf. by rewrite Hfst.
  - apply list_elem_of_lookup. exists i. unfold pairs. rewrite list_lookup_imap. rewrite list_lookup_fmap in Hi.
    destruct (pending !! i); [|done]. injection Hi as Hi. simpl. by rewrite <-Hi.
Qed.

Lemma sorted_by_index {A} (r : A → nat) (l : list A) n :
  (∀ i x, l !! i = Some x → r x = (n + i)%nat) → StronglySorted (λ x y, (r x <= r y)%nat) l.
Proof using Type.
  revert n. induction l as [|a l IH]; intros n H; [constructor|]. constructor.
  - apply (IH (S n)). intros i x Hx. rewrite (H (S i) x Hx). lia.
  - apply Forall_forall. intros x [i Hx]%list_elem_of_lookup. rewrite (H 0%nat a eq_refl), (H (S i) x Hx). lia.
Qed.

Lemma in_trigger_order_exact results pending :
  NoDup (pending_key <$> pending) → result_key <$> results ≡ₚ pending_key <$> pending →
  result_key <$> _in_trigger_order results pending = pending_key <$> pending.
Proof using Type.
  intros Hnd Hp. set (r := rank (trigger_order pending)).
  apply (StronglySorted_unique_strong (λ x y, (r x <= r y)%nat)).
  - intros x y Hx Hy H1 H2. rewrite in_trigger_order_perm, Hp in Hx.
    apply list_elem_of_lookup in Hx as [i Hi], Hy as [j Hj].
    pose proof (rank_index pending i x Hnd Hi). pose proof (rank_index pending j y Hnd Hj). unfold r in *.
    assert (i = j) as -> by lia. congruence.
  - apply in_trigger_order_sorted.
  - apply (sorted_by_index r _ 0%nat). intros i x Hx. by apply rank_index.
  - by rewrite in_trigger_order_perm.
Qed.

(** C10. Waiting ends, with one result for every triggered build or with the failure of a
    request that the client does not catch: against a Jenkins whose requests may raise anything
    any number of times, and which may refuse, stall or forget queue items, [wait_for_builds]
    is done after at most [2 * (T / poll_interval) + 5] cycles, where [T] bounds the jobs' wait
    timeouts, provided the clock is not set back and a sleep lasts its time ([steady_clock])
    and the pages Jenkins answers have the types of its API ([typed_server]). When it returns,
    the results are those of the pending jobs, each exactly once and in the order the jobs were
    triggered; when it raises, the exception is one that a request raised and that is not one
    of the Jenkins library ([uncaught]): a wait whose requests raise only those of the library
    returns. *)
Theorem wait_for_builds_complete fuel pending poll_interval T s :
  0 < poll_interval → 0 <= T → Forall (λ p, p_timeout p <= T) pending →
  2 * (T / poll_interval) + 5 <= Z.of_nat fuel →
  match (wait_for_builds connected fuel pending false poll_interval s).2 with
  | Ok (Some results) =>
    result_key <$> results ≡ₚ pending_key <$> pending ∧
    (NoDup (pending_key <$> pending) → result_key <$> results = pending_key <$> pending)
  | Ok None => False
  | Err e => uncaught e
  end.
Proof using clock_steady server_typed.
  intros Hpoll HT Hp Hf. unfold wait_for_builds. destruct (truthy pending) eqn:Ep; cbn [orb negb].
  2: { by destruct pending. }
  pose proof (Z.div_pos T poll_interval HT Hpoll) as Hdiv. pose proof (Z.mul_succ_div_gt T poll_interval Hpoll) as Hgt.
  set (queued := (λ p, {| q_pending := p; queued_since := now s; queue_item_gone := false |}) <$> pending).
  assert (Forall (queued_within T poll_interval (now s) (Z.of_nat fuel)) queued) as Hw.
  { unfold queued. apply Forall_fmap. eapply Forall_impl; [exact Hp|]. intros p Hpt.
    split; [done|]. unfold q_deadline, active_rounds. cbn [queued_since q_pending].
    pose proof (Z.mul_le_mono_nonneg_r (T / poll_interval + 1) (Z.of_nat fuel - (T / poll_interval + 2) - 2) poll_interval
      ltac:(lia) ltac:(lia)). cbv beta in Hpt. nia. }
  pose proof (wait_loop_ok T poll_interval Hpoll HT fuel queued [] [] s ltac:(lia) Hw ltac:(constructor)) as Hl.
  assert (q_key <$> queued = pending_key <$> pending) as Hq by (unfold queued; by rewrite <-list_fmap_compose).
  rewrite Hq in Hl. simpl in Hl. rewrite app_nil_r in Hl.
  unfold _connect, time, gets, bind. fold queued. destruct (wait_loop _ _ _ _ _ _ _ s) as [s' [[results|]|e]]; simpl in *; try done.
  split; [by rewrite in_trigger_order_perm|]. intros Hnd. by apply in_trigger_order_exact.
Qed.
End Waiting.

(** ** Witnesses *)
Module Sample.
(** A reader of literals without further escapes. *)
Fixpoint read (s : string) : option (string * string) :=
  match s with
  | EmptyString => None
  | String c t =>
    if Ascii.eqb c single_quote then Some (EmptyString, t)
    else if Ascii.eqb c backslash then
      match t with
      | String d t' => if Ascii.eqb d single_quote || Ascii.eqb d backslash then (λ p, (String d p.1, p.2)) <$> read t' else None
      | EmptyString => None
      end
    else if not_newline c then (λ p, (String c p.1, p.2)) <$> read t else None
  end.
#[export] Program Instance lexer : GroovyLexer := {| read_literal := read |}.
Next Obligation. done. Qed.
Next Obligation. by intros c t [-> | ->]. Qed.
Next Obligation.
  intros c t Hq Hb Hn. cbn [read]. destruct (Ascii.eqb_spec c single_quote); [done|].
  destruct (Ascii.eqb_spec c backslash); [done|]. by rewrite Hn.
Qed.

(** A Jenkins that started build 7 of every queued item, and finished it. *)
Definition started : string := "{" +:+ dquoted "executable" +:+ ": {" +:+ dquoted "number" +:+ ": 7}}".
Definition finished : string :=
  "{" +:+ dquoted "building" +:+ ": false, " +:+ dquoted "result" +:+ ": " +:+ dquoted "SUCCESS" +:+ "}".
#[export] Instance jenkins : JenkinsServer :=
  {| server := Z; now s := s; sleep n s := s + n;
     run_script _ s := (s, Ok "TRIGGERED:http://jenkins/queue/item/12/");
     jenkins_open url s := (s + 1, Ok (if contains "queue" url then started else finished)) |}.

Lemma jenkins_steady : steady_clock.
Proof. split; simpl; lia. Qed.

Lemma jenkins_typed : typed_server.
Proof.
  intros url s. simpl. destruct (contains "queue" url); intros text [= <-]; right.
  - exists [("executable", JObj [("number", JInt 7)])]. split; [vm_compute; reflexivity|]. repeat split; try done.
    intros e [= <-] _. eexists. split; [done|]. intros n [= <-]. by eexists.
  - exists [("building", JBool false); ("result", JStr "SUCCESS")]. split; [vm_compute; reflexivity|]. by repeat split.
Qed.

Definition pending (name : string) : _PendingWaitJob :=
  {| p_job_name := name; p_queue_url := "http://jenkins/queue/item/12/"; p_collect_results := []; p_timeout := 60;
     p_fail_on_error := false; p_scylla_version := "master:latest" |}.
End Sample.

Lemma groovy_literal_roundtrip_witness :
  all_chars not_newline "it's a \ b" = true ∧
  read_literal (GroovyLexer := Sample.lexer) (_escape_groovy_string "it's a \ b" +:+ "'" +:+ ", 'x'") = Some ("it's a \ b", ", 'x'").
Proof.
  split; [vm_compute; reflexivity|].
  apply (groovy_literal_roundtrip (H := Sample.lexer)). vm_compute; reflexivity.
Defined.

Lemma wait_for_builds_complete_witness :
  ∃ s' results,
    wait_for_builds (FT := TriggerConfig.Sample.plain_floats) (JS := Sample.jenkins) (Ok "http://jenkins") 9
      [Sample.pending "a/b"; Sample.pending "c"] false 30 0 = (s', Ok (Some results)) ∧
    result_key <$> results = [("a/b", "master:latest"); ("c", "master:latest")].
Proof.
  pose proof (wait_for_builds_complete (FT := TriggerConfig.Sample.plain_floats) (JS := Sample.jenkins) "http://jenkins"
    Sample.jenkins_steady Sample.jenkins_typed 9 [Sample.pending "a/b"; Sample.pending "c"] 30 60 0 eq_refl ltac:(lia)
    ltac:(repeat constructor; simpl; lia) ltac:(vm_compute; discriminate)) as H.
  destruct (wait_for_builds _ _ _ _ _ _) as [s' [[results|]|e]]; [|destruct H|].
  - exists s', results. split; [reflexivity|]. apply (proj2 H). apply (bool_decide_eq_true_1 (NoDup _)). vm_compute. reflexivity.
  - destruct H as [_ (url & s & [=])].
Defined.

End JenkinsClient.
