(* ===== verification/TriggerMatrix.v ===== *)
(** Running a trigger matrix (sdcm/utils/trigger_matrix/parameters.py, matrix.py): the
    parameters each job gets, and the trigger of every selected job with the build its backend
    and region publish.

    A run's results also keep [sent], a log of what was handed to Jenkins: the job, its path
    and its parameters. E-mail and report files are not modelled. *)
From Stdlib Require Import Ascii String ZArith Lia.
From stdpp Require Import base decidable option strings numbers sets sorting list.
From S2P Require Import Prelude.
From S2P Require Import PyString.
From S2P Require Import PyDict.
From S2P Require Import PyJson.
From S2P Require Import Effects.
From S2P Require Import TriggerVersions.
From S2P Require Import TriggerConfig.
From S2P Require Import TriggerResolution.
From S2P Require Import JenkinsClient.
Import TriggerVersions TriggerConfig TriggerResolution JenkinsClient.
Local Open Scope py_scope.

Module TriggerMatrix.

Definition PER_JOB_LOCATION_PARAMS : list string := ["region"; "availability_zone"].

Abbreviation parameters := (list (string * json)).

(** ** Parameters (parameters.py) *)

Definition _resolve_templates (value : json) (branch branch_id : string) : json :=
  match value with
  | JStr s =>
    let s := if contains "{branch}" s then str_replace s "{branch}" branch else s in
    JStr (if contains "{branch_id}" s then str_replace s "{branch_id}" branch_id else s)
  | _ => value
  end.

Section Parameters.
Context {FT : PyFloat}.

(** [{k: overrides.pop(k) for k in PER_JOB_LOCATION_PARAMS if k in overrides}] *)
Definition location_overrides (overrides : parameters) : parameters :=
  omap (λ k, pair k <$> dict_get k overrides) PER_JOB_LOCATION_PARAMS.
Definition other_overrides (overrides : parameters) : parameters :=
  filter (λ p, p.1 ∉ PER_JOB_LOCATION_PARAMS) overrides.

Definition merged_params (job : JobConfig) (defaults cli_overrides : parameters) : parameters :=
  let overrides := given cli_overrides in
  update (update (update defaults (location_overrides overrides)) (job_params job)) (other_overrides overrides).

Definition set_version (scylla_version : string) (params : parameters) : parameters :=
  if truthy scylla_version then dict_set "scylla_version" (JStr scylla_version) params else params.

(** [params.setdefault("job_throttle_category", ...)] *)
Definition set_throttle (job : JobConfig) (params : parameters) : parameters :=
  if truthy (job_throttle_category job) && negb (dict_in "job_throttle_category" params)
  then dict_set "job_throttle_category" (JStr (job_throttle_category job)) params else params.

Definition set_upgrade (params : parameters) : parameters :=
  if is_rolling params then dict_set "scylla_version" (JStr EmptyString) params
  else dict_del "new_scylla_repo" params.

Definition fill_templates (branch : string) (params : parameters) : parameters :=
  if truthy branch then (λ p, (p.1, _resolve_templates p.2 branch (_branch_directory_id branch))) <$> params else params.

Definition build_job_parameters (job : JobConfig) (defaults : parameters) (scylla_version : string) (cli_overrides : parameters)
  (branch_source_version : string) : parameters :=
  let params := set_upgrade (set_throttle job (set_version scylla_version (merged_params job defaults cli_overrides))) in
  let branch := _extract_branch_from_version (if truthy branch_source_version then branch_source_version else scylla_version) in
  fill_templates branch params.

Fixpoint lstrip_slashes (s : string) : string :=
  match s with String c s' => if Ascii.eqb c "/" then lstrip_slashes s' else s | EmptyString => s end.

Definition resolve_job_path (job_name job_folder : string) : string :=
  if startswith "/" job_name then lstrip_slashes job_name else job_folder +:+ "/" +:+ job_name.

(** ** Required parameters *)
Definition param_missing (params : parameters) (name : string) : bool :=
  negb (truthy (strip (match dict_get name params with Some v => json_str v | None => EmptyString end))).

Definition missing_for (config : MatrixConfig) (overrides : parameters) (job : JobConfig) : list string :=
  if disabled job then []
  else filter (λ name, param_missing (update (update (defaults config) (job_params job)) (given overrides)) name = true)
         (required_params config).

Definition _check_required_params (config : MatrixConfig) (overrides : parameters) : outcome texn unit :=
  if truthy (jobs config ≫= missing_for config overrides) then Err TriggerMatrixError else Ok tt.

(** ** Triggering one version (_trigger_version) *)
Context {IC : ImageCatalog} {JS : JenkinsServer}.
Variable connection : outcome texn string.
Variables upstream_job upstream_build : string.

Record results : Type := {
  triggered : list string;
  skipped : list string;
  failed : list string;
  versions : list (string * string);
  pending : list _PendingWaitJob;
  sent : list (JobConfig * string * parameters)
}.

Record request : Type := {
  r_version : string;
  r_filter : string;
  r_folder : option string;
  r_labels : option string;
  r_backend : option string;
  r_skip : list string;
  r_arch : option string;
  r_strategy : string;
  r_overrides : parameters;
  r_dry_run : bool
}.

(** [filter_version or scylla_version] *)
Definition version_for_filtering (req : request) : string := if truthy (r_filter req) then r_filter req else r_version req.

Definition selection_of (req : request) : selection :=
  {| scylla_version := version_for_filtering req;
     resolved_version := if truthy (r_filter req) then Some (r_version req) else None;
     labels_selector := r_labels req; backend_filter := r_backend req; skip_jobs := r_skip req; image_arch := r_arch req |}.

Definition job_target (config : MatrixConfig) (overrides : parameters) (job : JobConfig) : option BackendTarget :=
  if job_uses_scylla_version job (defaults config) overrides
  then Some (target_for_job job (defaults config) (text_param overrides "region")) else None.

(** [sorted({...})] of targets. *)
Definition target_leb (x y : BackendTarget) : bool :=
  if String.eqb (t_backend x) (t_backend y) then
    if String.eqb (t_region x) (t_region y) then String.leb (t_arch x) (t_arch y) else String.leb (t_region x) (t_region y)
  else String.leb (t_backend x) (t_backend y).
Fixpoint insert_target (x : BackendTarget) (l : list BackendTarget) : list BackendTarget :=
  match l with
  | [] => [x]
  | y :: l' => if target_leb x y then x :: l else y :: insert_target x l'
  end.
Definition sorted_targets (l : list BackendTarget) : list BackendTarget := foldr insert_target [] (remove_dups l).

Definition matrix_targets (config : MatrixConfig) (overrides : parameters) (filtered : list JobConfig) : list BackendTarget :=
  sorted_targets (omap (job_target config overrides) filtered).

Definition scylla_version_param (params : parameters) : string :=
  match dict_get "scylla_version" params with Some v => json_str v | None => EmptyString end.

Definition skip_job (job : JobConfig) (r : results) : results :=
  {| triggered := triggered r; skipped := skipped r ++ [job_name job]; failed := failed r; versions := versions r;
     pending := pending r; sent := sent r |}.

(** The entries a trigger of [job] leaves: its version, and the log of what was sent. *)
Definition note_version (job : JobConfig) (path : string) (params : parameters) (r : results) : results :=
  {| triggered := triggered r; skipped := skipped r; failed := failed r;
     versions := dict_set path (scylla_version_param params) (versions r);
     pending := pending r; sent := sent r ++ [(job, path, params)] |}.

Definition note_triggered (path : string) (wait_job : list _PendingWaitJob) (r : results) : results :=
  {| triggered := triggered r ++ [path]; skipped := skipped r; failed := failed r; versions := versions r;
     pending := pending r ++ wait_job; sent := sent r |}.

Definition note_failed (path : string) (r : results) : results :=
  {| triggered := triggered r; skipped := skipped r; failed := failed r ++ [path]; versions := versions r;
     pending := pending r; sent := sent r |}.

Section Jobs.
Variables (config : MatrixConfig) (req : request) (folder : string) (assignment : assigned).

Definition wait_entry (job : JobConfig) (path queue_url : string) (params : parameters) : _PendingWaitJob :=
  {| p_job_name := path; p_queue_url := queue_url; p_collect_results := collect_results job; p_timeout := wait_timeout job;
     p_fail_on_error := fail_on_error job; p_scylla_version := scylla_version_param params |}.

Definition send (job : JobConfig) (path : string) (params : parameters) (r : results) : act server texn results :=
  let r := note_version job path params r in
  if wait job then
    let! q := caught (trigger_with_queue connection upstream_job upstream_build path params (r_dry_run req)) in
    match q with
    | Ok queue_url => ret (note_triggered path [wait_entry job path queue_url params] r)
    | Err JenkinsTriggerError => ret (note_failed path r)
    | Err e => raise e
    end
  else
    let! ok := trigger connection upstream_job upstream_build path params (r_dry_run req) in
    ret (if ok : bool then note_triggered path [] r else note_failed path r).

(** The version of a job, or [None] when its target must not be triggered. *)
Definition version_of_job (job : JobConfig) : option string :=
  match job_target config (r_overrides req) job with
  | None => Some (r_version req)
  | Some target =>
    if truthy (dict_get target assignment.2) then None else Some (default (r_version req) (dict_get target assignment.1))
  end.

Definition trigger_job (job : JobConfig) (r : results) : act server texn results :=
  let path := resolve_job_path (job_name job) folder in
  if bool_decide (path ∈ triggered r) then ret r
  else match version_of_job job with
  | None => ret (skip_job job r)
  | Some version =>
    send job path (build_job_parameters job (defaults config) version (r_overrides req) (r_filter req)) r
  end.

Fixpoint trigger_jobs (l : list JobConfig) (r : results) : act server texn results :=
  match l with
  | [] => ret r
  | job :: l' => let! r' := trigger_job job r in trigger_jobs l' r'
  end.
End Jobs.

Definition start (config : MatrixConfig) (filtered : list JobConfig) : results :=
  {| triggered := []; skipped := filter (λ n, n ∉ job_name <$> filtered) (job_name <$> jobs config); failed := [];
     versions := []; pending := []; sent := [] |}.

Definition resolve_assignment (config : MatrixConfig) (req : request) (filtered : list JobConfig) : outcome texn assigned :=
  let targets := matrix_targets config (r_overrides req) filtered in
  if truthy (r_version req) && truthy targets
  then resolve_versions_for_targets (version_for_filtering req) (r_version req) targets
         (if truthy (r_strategy req) then r_strategy req else version_resolution config)
  else Ok ([], []).

Definition of_outcome {A} (c : outcome texn A) : act server texn A := λ s, (s, c).

Definition _trigger_version (config : MatrixConfig) (req : request) : act server texn results :=
  let! folder := of_outcome (determine_job_folder (version_for_filtering req) (r_folder req)) in
  let filtered := filter_jobs (jobs config) (selection_of req) in
  let! assignment := of_outcome (resolve_assignment config req filtered) in
  trigger_jobs config req folder assignment filtered (start config filtered).

(** ** All versions (trigger_matrix_versions) *)

(** [f"{known}, {version}" if known else version] *)
Definition join_version (d : list (string * string)) (p : string * string) : list (string * string) :=
  let known := default EmptyString (dict_get p.1 d) in
  dict_set p.1 (if truthy known then known +:+ ", " +:+ p.2 else p.2) d.

Definition merge_results (a b : results) : results :=
  {| triggered := triggered a ++ triggered b;
     skipped := foldl (λ l name, if bool_decide (name ∈ l) then l else l ++ [name]) (skipped a) (skipped b);
     failed := failed a ++ failed b;
     versions := foldl join_version (versions a) (versions b);
     pending := pending a ++ pending b; sent := sent a ++ sent b |}.

(** [requested_version or config.default_scylla_version] *)
Definition with_version (config : MatrixConfig) (req : request) (v : string * string) : request :=
  {| r_version := if truthy v.1 then v.1 else default_scylla_version config; r_filter := v.2; r_folder := r_folder req;
     r_labels := r_labels req; r_backend := r_backend req; r_skip := r_skip req; r_arch := r_arch req;
     r_strategy := r_strategy req; r_overrides := r_overrides req; r_dry_run := r_dry_run req |}.

Fixpoint trigger_versions (config : MatrixConfig) (req : request) (l : list (string * string)) (r : results) : act server texn results :=
  match l with
  | [] => ret r
  | v :: l' =>
    let! r' := _trigger_version config (with_version config req v) in
    trigger_versions config req l' (merge_results r r')
  end.

Definition no_results : results :=
  {| triggered := []; skipped := []; failed := []; versions := []; pending := []; sent := [] |}.

(** [[s.strip() for s in skip_jobs.split(",") if s.strip()] if skip_jobs else []] *)
Definition skip_list (skip_jobs : option string) : list string :=
  if truthy skip_jobs then filter (λ n, n ≠ EmptyString) (strip <$> split_on "," (default EmptyString skip_jobs)) else [].

(** The results, and the builds waited for. *)
Definition trigger_matrix_versions (fuel : nat) (config : MatrixConfig) (req : request) (l : list (string * string)) :
  act server texn (option (results * list BuildResult)) :=
  let! _ := of_outcome (_check_required_params config (r_overrides req)) in
  let! r := trigger_versions config req l no_results in
  if negb (truthy (pending r)) && negb (truthy (failed r)) && existsb (λ j, wait j && negb (disabled j)) (jobs config)
  then raise TriggerMatrixError
  else if truthy (pending r) then
    let! waited := wait_for_builds connection fuel (pending r) (r_dry_run req) WAIT_POLL_INTERVAL in
    match waited with
    | None => ret None
    | Some builds =>
      let bad := b_job_name <$> filter (λ b, success b = false) builds in
      ret (Some ({| triggered := triggered r; skipped := skipped r; failed := failed r ++ bad; versions := versions r;
                    pending := pending r; sent := sent r |}, builds))
    end
  else ret (Some (r, [])).
End Parameters.

(** ** What a job receives *)
Section ParameterLemmas.
Context {FT : PyFloat}.

Lemma update_get k base d :
  dict_wf d → dict_get k (update base d) = match dict_get k d with Some v => Some v | None => dict_get k base end.
Proof using Type.
  unfold dict_wf, update. revert base. induction d as [|[k1 v1] d IH]; intros base Hd; [done|].
  cbn [fmap list_fmap fst] in Hd. apply NoDup_cons in Hd as [Hn Hd]. cbn [foldl fst snd]. rewrite IH by done.
  rewrite dict_get_set. cbn [dict_get]. destruct (decide (k = k1)) as [->|Hne].
  - by rewrite (proj2 (dict_get_None k1 d) Hn).
  - done.
Qed.

Lemma other_overrides_get k d :
  dict_get k (other_overrides d) = if decide (k ∈ PER_JOB_LOCATION_PARAMS) then None else dict_get k d.
Proof using Type.
  unfold other_overrides. induction d as [|[k1 v1] d IH]; [by destruct (decide _)|]. rewrite filter_cons. cbn [dict_get fst].
  destruct (decide (k1 ∉ PER_JOB_LOCATION_PARAMS)) as [H1|H1].
  - cbn [dict_get]. destruct (decide (k = k1)) as [->|Hne]; [by case_decide|exact IH].
  - apply dec_stable in H1. rewrite IH. destruct (decide (k = k1)) as [->|]; [by case_decide|done].
Qed.

Lemma location_overrides_get k d :
  dict_get k (location_overrides d) = if decide (k ∈ PER_JOB_LOCATION_PARAMS) then dict_get k d else None.
Proof using Type.
  unfold location_overrides. simpl. destruct (decide (k = "region")) as [->|H1]; [rewrite (decide_True (P := _ ∈ _)) by set_solver|].
  { destruct (dict_get "region" d) eqn:E; [done|]. simpl. by destruct (dict_get "availability_zone" d). }
  destruct (decide (k = "availability_zone")) as [->|H2]; [rewrite (decide_True (P := _ ∈ _)) by set_solver|].
  { destruct (dict_get "region" d) eqn:E, (dict_get "availability_zone" d) eqn:E2; done. }
  rewrite decide_False by set_solver.
  destruct (dict_get "region" d), (dict_get "availability_zone" d); simpl; by rewrite ?(decide_False (P := k = _)).
Qed.

Lemma location_overrides_wf d : dict_wf (location_overrides d).
Proof using Type.
  unfold dict_wf, location_overrides. simpl. destruct (dict_get "region" d), (dict_get "availability_zone" d); simpl;
    repeat constructor; set_solver.
Qed.

(** [a] where it is present, else [b]. *)
Definition or_else (a b : option json) : option json := match a with Some v => Some v | None => b end.

Lemma merged_get k job defaults_ cli :
  dict_wf (job_params job) → dict_wf cli →
  dict_get k (merged_params job defaults_ cli) =
    if decide (k ∈ PER_JOB_LOCATION_PARAMS)
    then or_else (dict_get k (job_params job)) (or_else (dict_get k (given cli)) (dict_get k defaults_))
    else or_else (dict_get k (given cli)) (or_else (dict_get k (job_params job)) (dict_get k defaults_)).
Proof using Type.
  intros Hj Hc. unfold merged_params. rewrite update_get by (unfold other_overrides, given; by repeat apply dict_filter_wf).
  rewrite update_get by done. rewrite update_get by apply location_overrides_wf.
  rewrite other_overrides_get, location_overrides_get. by destruct (decide _).
Qed.

Lemma fill_templates_get k branch params :
  dict_get k (fill_templates branch params) =
    (λ v, if truthy branch then _resolve_templates v branch (_branch_directory_id branch) else v) <$> dict_get k params.
Proof using Type.
  unfold fill_templates. destruct (truthy branch); [|by destruct (dict_get k params)].
  induction params as [|[k1 v1] d IH]; [done|]. cbn [fmap list_fmap dict_get fst snd]. by destruct (decide (k = k1)).
Qed.

Definition reserved_params : list string := ["scylla_version"; "new_scylla_repo"; "job_throttle_category"].

Lemma set_steps_get k job version params :
  k ∉ reserved_params → dict_get k (set_upgrade (set_throttle job (set_version version params))) = dict_get k params.
Proof using Type.
  intros Hk. assert (k ≠ "scylla_version" ∧ k ≠ "new_scylla_repo" ∧ k ≠ "job_throttle_category") as (H1 & H2 & H3) by set_solver.
  unfold set_upgrade, set_throttle, set_version.
  repeat case_match; rewrite ?dict_get_del, ?dict_get_set, ?decide_False by congruence; done.
Qed.

(** A job's parameters come from the trigger, the job and the defaults in this order, except
    where it runs: a region or availability zone the job pins is its own, and the trigger's
    only fills in for jobs without one (SCT-693). Templates are filled in whatever was taken. *)
Theorem build_job_parameters_priority job defaults_ version cli source k :
  dict_wf (job_params job) → dict_wf cli → k ∉ reserved_params →
  let branch := _extract_branch_from_version (if truthy source then source else version) in
  let own := dict_get k (job_params job) in
  let asked := dict_get k (given cli) in
  dict_get k (build_job_parameters job defaults_ version cli source) =
    (λ v, if truthy branch then _resolve_templates v branch (_branch_directory_id branch) else v) <$>
      (if decide (k ∈ PER_JOB_LOCATION_PARAMS) then or_else own (or_else asked (dict_get k defaults_))
       else or_else asked (or_else own (dict_get k defaults_))).
Proof using Type.
  intros Hj Hc Hk branch own asked. unfold build_job_parameters. cbv zeta. rewrite fill_templates_get.
  rewrite set_steps_get by done. by rewrite merged_get.
Qed.

Lemma given_get k cli : dict_wf cli → dict_get k (given cli) = match dict_get k cli with Some JNull => None | v => v end.
Proof using Type.
  unfold given, dict_wf. induction cli as [|[k1 v1] d IH]; [done|]. rewrite fmap_cons, filter_cons. intros [Hn Hd]%NoDup_cons.
  cbn [dict_get fst snd] in *. specialize (IH Hd). destruct (decide (k = k1)) as [->|Hne].
  - rewrite (proj2 (dict_get_None k1 d) Hn) in IH. destruct v1; simpl; rewrite ?(decide_True (P := k1 = k1)) by done; done.
  - destruct (decide _); [|done]. cbn [dict_get]. by rewrite decide_False.
Qed.

Lemma text_param_get d k : text_param d k = match dict_get k d with Some v => if truthy v then json_str v else EmptyString | None => EmptyString end.
Proof using Type. done. Qed.

(** Images are looked up in the region the job runs in: [target_for_job] picks the region
    that the job's parameters carry. (A region the job or the trigger gives is a non-empty
    text.) *)
Theorem target_region_is_param job defaults_ cli :
  dict_wf (job_params job) → dict_wf cli →
  (∀ v, dict_get "region" (job_params job) = Some v ∨ dict_get "region" (given cli) = Some v →
    ∃ s, v = JStr s ∧ truthy s = true) →
  t_region (target_for_job job defaults_ (text_param cli "region")) =
    _backend_region (backend job) (text_param (merged_params job defaults_ cli) "region").
Proof using Type.
  intros Hj Hc Hv. unfold target_for_job. cbn [t_region]. f_equal.
  rewrite (text_param_get (merged_params _ _ _)), merged_get by done. rewrite decide_True by set_solver.
  rewrite !text_param_get. destruct (dict_get "region" (job_params job)) as [v|] eqn:Ej.
  { destruct (Hv v) as (s & -> & Hs); [by left|]. assert (truthy (JStr s) = true) as Hs' by exact Hs.
    cbn [or_else]. rewrite Hs'. cbn [json_str]. by rewrite Hs. }
  cbn [or_else truthy truthy_string]. rewrite given_get in * by done. destruct (dict_get "region" cli) as [v|] eqn:Ec; [|done].
  destruct v as [|b|z|t|t|l|d]; try (destruct (Hv _ (or_intror eq_refl)) as (s & [=] & Hs)); [done|].
  subst t. assert (truthy (JStr s) = true) as Hs' by exact Hs. cbn [or_else]. rewrite Hs'. cbn [json_str]. by rewrite Hs.
Qed.
End ParameterLemmas.

(** ** Runs of one version *)
Section Runs.
Context {FT : PyFloat} {IC : ImageCatalog} {JS : JenkinsServer}.
Variable connection : outcome texn string.
Variables upstream_job upstream_build : string.
Variables (config : MatrixConfig) (req : request).
Abbreviation run_version := (_trigger_version connection upstream_job upstream_build config req).
Abbreviation selected := (filter_jobs (jobs config) (selection_of req)).

Section Steps.
Variables (folder : string) (assignment : assigned).
Abbreviation path_of job := (resolve_job_path (job_name job) folder).
Abbreviation params_of job version := (build_job_parameters job (defaults config) version (r_overrides req) (r_filter req)).

(** The four things that can happen to a job. *)
Inductive job_step (job : JobConfig) (r : results) : results → Prop :=
  | step_duplicate : path_of job ∈ triggered r → job_step job r r
  | step_skipped : path_of job ∉ triggered r → version_of_job config req assignment job = None → job_step job r (skip_job job r)
  | step_triggered version queue :
    path_of job ∉ triggered r → version_of_job config req assignment job = Some version →
    Forall (λ p, p_job_name p = path_of job) queue → (length queue <= 1)%nat →
    job_step job r (note_triggered (path_of job) queue (note_version job (path_of job) (params_of job version) r))
  | step_failed version :
    path_of job ∉ triggered r → version_of_job config req assignment job = Some version →
    job_step job r (note_failed (path_of job) (note_version job (path_of job) (params_of job version) r)).

Lemma trigger_job_step job r s s' r' :
  trigger_job connection upstream_job upstream_build config req folder assignment job r s = (s', Ok r') → job_step job r r'.
Proof using Type.
  unfold trigger_job. case_bool_decide as Hp; [intros [= _ <-]; by apply step_duplicate|].
  destruct (version_of_job config req assignment job) as [version|] eqn:Ev; [|intros [= _ <-]; by apply step_skipped].
  unfold send. destruct (wait job).
  - unfold bind. destruct (caught _ s) as [s1 [[q|e]|e]]; [| |done].
    + intros [= _ <-]. apply (step_triggered job r version); [done|done|by repeat constructor|simpl; lia].
    + destruct e; try done. intros [= _ <-]. by apply (step_failed job r version).
  - unfold bind. destruct (trigger _ _ _ _ _ _ s) as [s1 [[]|e]]; [| |done]; intros [= _ <-].
    + apply (step_triggered job r version []); [done|done|constructor|simpl; lia].
    + by apply (step_failed job r version).
Qed.

Lemma trigger_jobs_inv (P : results → Prop) l r s s' r' :
  (∀ job r1 r2, job ∈ l → P r1 → job_step job r1 r2 → P r2) → P r →
  trigger_jobs connection upstream_job upstream_build config req folder assignment l r s = (s', Ok r') → P r'.
Proof using Type.
  revert r s. induction l as [|job l IH]; intros r s Hstep Hr; cbn [trigger_jobs]; [by intros [= _ <-]|].
  unfold bind. destruct (trigger_job _ _ _ _ _ _ _ _ _ _) as [s1 [r1|e]] eqn:Ej; [|done].
  apply trigger_job_step in Ej. apply IH; [intros; eapply Hstep; [by right|done|done]|]. eapply Hstep; [by left|done|done].
Qed.

(** What is recorded stays recorded. *)
Definition grows (r r' : results) : Prop :=
  triggered r ⊆ triggered r' ∧ failed r ⊆ failed r' ∧ skipped r ⊆ skipped r'.

Lemma job_step_grows job r r' : job_step job r r' → grows r r'.
Proof using Type. destruct 1; unfold grows; simpl; set_solver. Qed.

Definition accounted (r : results) (job : JobConfig) : Prop :=
  path_of job ∈ triggered r ∨ path_of job ∈ failed r ∨
  (job_name job ∈ skipped r ∧ version_of_job config req assignment job = None).

Lemma job_step_accounted job r r' : job_step job r r' → accounted r' job.
Proof using Type. destruct 1; unfold accounted; simpl; set_solver. Qed.

Lemma accounted_grows r r' job : grows r r' → accounted r job → accounted r' job.
Proof using Type. unfold grows, accounted. set_solver. Qed.

Lemma trigger_jobs_accounted l r s s' r' :
  trigger_jobs connection upstream_job upstream_build config req folder assignment l r s = (s', Ok r') →
  grows r r' ∧ ∀ job, job ∈ l → accounted r' job.
Proof using Type.
  revert r s. induction l as [|job l IH]; intros r s; cbn [trigger_jobs].
  { intros [= _ <-]. split; [unfold grows; set_solver|]. intros job Hj. by apply not_elem_of_nil in Hj. }
  unfold bind. destruct (trigger_job _ _ _ _ _ _ _ _ _ _) as [s1 [r1|e]] eqn:Ej; [|done].
  apply trigger_job_step in Ej. intros H. destruct (IH _ _ H) as [Hg Ha]. split.
  - apply job_step_grows in Ej. unfold grows in *. set_solver.
  - intros j [->|Hj]%elem_of_cons; [|by apply Ha]. eapply accounted_grows; [exact Hg|]. by eapply job_step_accounted.
Qed.

(** Each path is triggered once, and waited for only if it was triggered. *)
Definition once (r : results) : Prop :=
  NoDup (triggered r) ∧ NoDup (p_job_name <$> pending r) ∧ (p_job_name <$> pending r) ⊆ triggered r.

Lemma job_step_once job r r' : once r → job_step job r r' → once r'.
Proof using Type.
  intros (H1 & H2 & H3). destruct 1 as [?|? ?|version queue Hp ? Hq Hl|version ? ?]; unfold once; simpl; try done.
  split; [apply NoDup_app; split; [done|]; split; [set_solver|apply NoDup_singleton]|]. rewrite fmap_app.
  destruct queue as [|q [|]]; [simpl; rewrite app_nil_r; set_solver| |simpl in Hl; lia].
  apply Forall_cons in Hq as [Hq _]. simpl. rewrite Hq. split; [|set_solver].
  apply NoDup_app. split; [done|]. split; [|apply NoDup_singleton]. set_solver.
Qed.
End Steps.

Lemma run_inv s s' r :
  run_version s = (s', Ok r) →
  ∃ folder assignment, determine_job_folder (version_for_filtering req) (r_folder req) = Ok folder ∧
    resolve_assignment config req selected = Ok assignment ∧
    trigger_jobs connection upstream_job upstream_build config req folder assignment selected (start config selected) s = (s', Ok r).
Proof using Type.
  unfold _trigger_version, of_outcome, bind. destruct (determine_job_folder _ _) as [folder|]; [|done].
  destruct (resolve_assignment _ _ _) as [assignment|]; [|done]. eauto.
Qed.

(** One version of a matrix triggers every Jenkins job at most once, and every wait-mode
    build that is waited for was triggered, in that version, once. *)
Theorem jobs_triggered_once s s' r :
  run_version s = (s', Ok r) →
  NoDup (triggered r) ∧ NoDup (p_job_name <$> pending r) ∧ (p_job_name <$> pending r) ⊆ triggered r.
Proof using Type.
  intros (folder & assignment & _ & _ & H)%run_inv.
  eapply (trigger_jobs_inv folder assignment once selected (start config selected)); [| |exact H].
  - intros job r1 r2 _. apply job_step_once.
  - split; [constructor|]. split; [constructor|simpl; set_solver].
Qed.

(** No entry of the matrix is lost: a selected job was triggered, is reported as failed, or
    is skipped because no build of the version is published for its target; an entry whose job
    is not selected is skipped. *)
Theorem jobs_accounted_for s s' r :
  run_version s = (s', Ok r) →
  ∃ folder assignment, determine_job_folder (version_for_filtering req) (r_folder req) = Ok folder ∧
    resolve_assignment config req selected = Ok assignment ∧
    (∀ job, job ∈ selected → accounted folder assignment r job) ∧
    (∀ job, job ∈ jobs config → job_name job ∉ job_name <$> selected → job_name job ∈ skipped r).
Proof using Type.
  intros (folder & assignment & Hf & Ha & H)%run_inv. exists folder, assignment. split; [done|]. split; [done|].
  apply trigger_jobs_accounted in H as [(_ & _ & Hs) Hacc]. split; [exact Hacc|]. intros job Hj Hout.
  apply Hs. apply list_elem_of_filter. split; [done|]. apply list_elem_of_fmap. eauto.
Qed.

(** *** The build a job is sent *)
Lemma insert_target_perm x l : insert_target x l ≡ₚ x :: l.
Proof using Type. induction l as [|y l IH]; simpl; [done|]. case_match; [done|]. rewrite IH. apply Permutation_swap. Qed.

Lemma sorted_targets_perm l : sorted_targets l ≡ₚ remove_dups l.
Proof using Type.
  unfold sorted_targets. induction (remove_dups l) as [|x m IH]; simpl; [done|]. by rewrite insert_target_perm, IH.
Qed.

Lemma matrix_targets_spec filtered :
  NoDup (matrix_targets config (r_overrides req) filtered) ∧
  ∀ t, t ∈ matrix_targets config (r_overrides req) filtered ↔
    ∃ job, job ∈ filtered ∧ job_target config (r_overrides req) job = Some t.
Proof using Type.
  unfold matrix_targets. split.
  - rewrite sorted_targets_perm. apply NoDup_remove_dups.
  - intros t. rewrite sorted_targets_perm, elem_of_remove_dups, list_elem_of_omap. done.
Qed.

Lemma contains_head c t s : contains (String c t) s = true → contains (String c EmptyString) s = true.
Proof using Type.
  induction s as [|d s IH]; [done|]. cbn [contains]. rewrite !orb_true_iff. intros [H|H]; [left|right; by apply IH].
  cbn [startswith] in *. apply andb_true_iff in H as [-> _]. done.
Qed.

Lemma resolve_templates_plain s branch branch_id :
  contains "{" s = false → _resolve_templates (JStr s) branch branch_id = JStr s.
Proof using Type.
  intros H. unfold _resolve_templates.
  assert (∀ t, contains (String "{" t) s = false) as Hn.
  { intros t. apply not_true_iff_false. intros Ht%contains_head. congruence. }
  by rewrite (Hn "branch}"), (Hn "branch_id}").
Qed.

Lemma is_rolling_ext a b :
  dict_get "rolling_upgrade_test" a = dict_get "rolling_upgrade_test" b → is_rolling a = is_rolling b.
Proof using Type. unfold is_rolling. by intros ->. Qed.

Lemma throttle_get k job params : k ≠ "job_throttle_category" → dict_get k (set_throttle job params) = dict_get k params.
Proof using Type. intros Hk. unfold set_throttle. destruct (_ && _); [|done]. by rewrite dict_get_set, decide_False. Qed.

Lemma sent_version job version :
  dict_wf (job_params job) → dict_wf (r_overrides req) →
  job_uses_scylla_version job (defaults config) (r_overrides req) = true →
  truthy version = true → contains "{" version = false →
  dict_get "scylla_version" (build_job_parameters job (defaults config) version (r_overrides req) (r_filter req)) = Some (JStr version).
Proof using Type.
  intros Hj Ho Hu Hv Hp. unfold build_job_parameters. cbv zeta. rewrite fill_templates_get.
  assert (is_rolling (set_throttle job (set_version version (merged_params job (defaults config) (r_overrides req)))) = false) as Hr.
  { unfold job_uses_scylla_version in Hu. cbv zeta in Hu. destruct (is_rolling (update _ _)) eqn:Er; [done|]. rewrite <-Er.
    apply is_rolling_ext. rewrite throttle_get by done. unfold set_version. rewrite Hv, dict_get_set, decide_False by done.
    rewrite merged_get, decide_False by (try done; set_solver). rewrite !update_get by (try done; by apply dict_filter_wf).
    done. }
  unfold set_upgrade. rewrite Hr, dict_get_del, decide_False by done. rewrite throttle_get by done. unfold set_version.
  rewrite Hv, dict_get_set, decide_True by done. cbn [fmap option_fmap option_map].
  f_equal. rewrite resolve_templates_plain by done. by match goal with |- (if ?c then _ else _) = _ => destruct c end.
Qed.

(** Every published build, and the version that was asked for, is a plain text. *)
Definition plain_versions : Prop :=
  (∀ b branch r a v, newest_image b branch r a = Some v → contains "{" v = false) ∧
  contains "{" (r_version req) = false ∧ contains "{" (version_for_filtering req) = false.

(** The matrix and the trigger name their regions by words. *)
Definition clean_regions_for (job : JobConfig) : Prop :=
  Forall region_word (split_regions (let own := text_param (job_params job) "region" in
    if truthy own then own else if truthy (text_param (r_overrides req) "region") then text_param (r_overrides req) "region"
    else text_param (defaults config) "region")).

Lemma assignment_fits assignment job t :
  catalog_consistent → plain_versions → truthy (r_version req) = true → Forall clean_regions_for (jobs config) →
  resolve_assignment config req selected = Ok assignment →
  job ∈ selected → job_target config (r_overrides req) job = Some t →
  version_of_job config req assignment job = None ∨
  ∃ v, version_of_job config req assignment job = Some v ∧
    fits (λ v, truthy v = true ∧ contains "{" v = false) t v.
Proof using Type.
  intros Hcat (Hp1 & Hp2 & Hp3) Hv Hclean Ha Hj Ht. destruct (matrix_targets_spec selected) as [Hnd Hel].
  assert (t ∈ matrix_targets config (r_overrides req) selected) as Hin by (apply Hel; eauto).
  unfold resolve_assignment in Ha. cbv zeta in Ha. rewrite Hv in Ha.
  destruct (truthy (matrix_targets config (r_overrides req) selected)) eqn:Et; cbn [andb] in Ha.
  2: { destruct (matrix_targets config (r_overrides req) selected); [by apply not_elem_of_nil in Hin|done]. }
  assert (truthy (version_for_filtering req) = true) as Hvf by (unfold version_for_filtering; by destruct (truthy (r_filter req)) eqn:E).
  eapply (resolve_assigns (λ v, truthy v = true ∧ contains "{" v = false)) in Ha as [[Has _] _]; eauto.
  - unfold version_of_job. rewrite Ht. destruct (Has t Hin) as [(v & Hv1 & Hv2 & Hfit)|(reason & Hr1 & Hr2 & Hr3)].
    + right. exists v. rewrite Hv1, Hv2. done.
    + left. rewrite Hr2. unfold truthy at 1, truthy_option. by rewrite Hr3.
  - apply Forall_forall. intros t' (job' & Hj' & Htj)%Hel. unfold job_target in Htj.
    destruct (job_uses_scylla_version job' _ _); [|done]. injection Htj as <-. apply target_for_job_clean.
    rewrite Forall_forall in Hclean. apply Hclean. by apply list_elem_of_filter in Hj' as [_ ?].
Qed.

(** C4. End to end: in a run that resolves its version, every job handed to Jenkins is a selected
    one, and a job whose nodes come from an image is sent one exact version, whose image is
    published for its backend, in every region it runs in and for its architecture. *)
Theorem sent_builds_are_published s s' r :
  catalog_consistent → plain_versions → truthy (r_version req) = true →
  Forall clean_regions_for (jobs config) → Forall (λ job, dict_wf (job_params job)) (jobs config) → dict_wf (r_overrides req) →
  run_version s = (s', Ok r) →
  ∀ job path params, (job, path, params) ∈ sent r →
    job ∈ selected ∧
    (job_uses_scylla_version job (defaults config) (r_overrides req) = true →
     ∃ v, dict_get "scylla_version" params = Some (JStr v) ∧
       (backend job ∈ VALID_IMAGE_BACKENDS →
        published_on v (target_for_job job (defaults config) (text_param (r_overrides req) "region")) = true)).
Proof using Type.
  intros Hcat Hplain Hv Hclean Hwf Ho (folder & assignment & _ & Ha & H)%run_inv.
  set (ok := λ e : JobConfig * string * parameters, e.1.1 ∈ selected ∧
    (job_uses_scylla_version e.1.1 (defaults config) (r_overrides req) = true →
     ∃ v, dict_get "scylla_version" e.2 = Some (JStr v) ∧
       (backend e.1.1 ∈ VALID_IMAGE_BACKENDS →
        published_on v (target_for_job e.1.1 (defaults config) (text_param (r_overrides req) "region")) = true))).
  assert (Forall ok (sent r)) as Hok.
  2: { intros job path params Hin. rewrite Forall_forall in Hok. exact (Hok _ Hin). }
  eapply (trigger_jobs_inv folder assignment (λ r, Forall ok (sent r)) selected (start config selected)); [|constructor|exact H].
  intros job r1 r2 Hj Hr1 Hstep.
  assert (∀ version, version_of_job config req assignment job = Some version →
    ok (job, resolve_job_path (job_name job) folder,
        build_job_parameters job (defaults config) version (r_overrides req) (r_filter req))) as Hsend.
  { intros version Hver. split; [done|]. cbn [fst snd]. intros Hu.
    assert (job_target config (r_overrides req) job =
      Some (target_for_job job (defaults config) (text_param (r_overrides req) "region"))) as Ht by (unfold job_target; by rewrite Hu).
    destruct (assignment_fits assignment job _ Hcat Hplain Hv Hclean Ha Hj Ht) as [Hn|(v & Hv' & [Hvt Hvp] & Hpub)]; [congruence|].
    assert (version = v) as -> by congruence. exists v. split; [|exact Hpub]. apply sent_version; try done.
    rewrite Forall_forall in Hwf. apply Hwf. by apply list_elem_of_filter in Hj as [_ ?]. }
  destruct Hstep; simpl; try done; apply Forall_app; (split; [done|]); apply Forall_singleton; eauto.
Qed.
End Runs.

(** ** Witnesses *)
Module Sample.
Definition overrides : parameters := [("region", JStr "us-east-1"); ("stress_duration", JInt 60); ("email", JNull)].
Definition defaults_ : parameters := [("region", JStr "eu-west-2"); ("email", JStr "qa")].
Definition job : JobConfig := TriggerConfig.Sample.entry "x86_64" ["2025"].
Definition req : request :=
  {| r_version := "master:latest"; r_filter := EmptyString; r_folder := None; r_labels := Some "gating"; r_backend := None;
     r_skip := []; r_arch := None; r_strategy := EmptyString; r_overrides := overrides; r_dry_run := false |}.
Definition run : Z → Z * outcome texn results :=
  _trigger_version (FT := TriggerConfig.Sample.plain_floats) (IC := TriggerResolution.Sample.catalog)
    (JS := JenkinsClient.Sample.jenkins) (Ok "http://jenkins") EmptyString EmptyString TriggerConfig.Sample.config req.
Definition sent_names (c : Z * outcome texn results) : option (list string) :=
  match c.2 with Ok r => Some ((λ e, e.1.2) <$> sent r) | Err _ => None end.

Lemma run_sends : sent_names (run 0%Z) = Some ["scylla-master/longevity"].
Proof. vm_compute. reflexivity. Qed.
End Sample.

Lemma build_job_parameters_priority_witness :
  dict_wf (job_params Sample.job) ∧ dict_wf Sample.overrides ∧
  dict_get "region" (build_job_parameters (FT := TriggerConfig.Sample.plain_floats) Sample.job Sample.defaults_
    "2025.4.1" Sample.overrides EmptyString) = Some (JStr "eu-west-1").
Proof.
  assert (dict_wf (job_params Sample.job)) as H1 by (apply (bool_decide_eq_true_1 (NoDup _)); vm_compute; reflexivity).
  assert (dict_wf Sample.overrides) as H2 by (apply (bool_decide_eq_true_1 (NoDup _)); vm_compute; reflexivity).
  split; [exact H1|]. split; [exact H2|].
  rewrite (build_job_parameters_priority (FT := TriggerConfig.Sample.plain_floats) Sample.job Sample.defaults_ "2025.4.1"
    Sample.overrides EmptyString "region" H1 H2).
  - vm_compute. reflexivity.
  - apply (bool_decide_eq_true_1 (_ ∉ _)). vm_compute. reflexivity.
Defined.

Lemma target_region_is_param_witness :
  t_region (target_for_job (FT := TriggerConfig.Sample.plain_floats) Sample.job Sample.defaults_
    (text_param (FT := TriggerConfig.Sample.plain_floats) Sample.overrides "region")) = "eu-west-1" ∧
  _backend_region (FT := TriggerConfig.Sample.plain_floats) (backend Sample.job)
    (text_param (FT := TriggerConfig.Sample.plain_floats) (merged_params Sample.job Sample.defaults_ Sample.overrides) "region") =
    "eu-west-1".
Proof.
  assert (dict_wf (job_params Sample.job)) as H1 by (apply (bool_decide_eq_true_1 (NoDup _)); vm_compute; reflexivity).
  assert (dict_wf Sample.overrides) as H2 by (apply (bool_decide_eq_true_1 (NoDup _)); vm_compute; reflexivity).
  split; [vm_compute; reflexivity|].
  rewrite <-(target_region_is_param (FT := TriggerConfig.Sample.plain_floats) Sample.job Sample.defaults_ Sample.overrides H1 H2).
  - vm_compute. reflexivity.
  - intros v [[= <-]|[= <-]]; eexists; split; reflexivity.
Defined.

Lemma jobs_triggered_once_witness :
  ∃ s' r, Sample.run 0%Z = (s', Ok r) ∧ NoDup (triggered r).
Proof.
  pose proof Sample.run_sends as H. unfold Sample.sent_names in H.
  destruct (Sample.run 0%Z) as [s' [r|e]] eqn:E; [|discriminate]. exists s', r. split; [reflexivity|].
  apply (jobs_triggered_once (FT := TriggerConfig.Sample.plain_floats) (IC := TriggerResolution.Sample.catalog)
    (JS := JenkinsClient.Sample.jenkins) (Ok "http://jenkins") EmptyString EmptyString TriggerConfig.Sample.config Sample.req
    0%Z s' r E).
Defined.

Lemma jobs_accounted_for_witness :
  ∃ s' r, Sample.run 0%Z = (s', Ok r) ∧
  ∃ folder, determine_job_folder "master:latest" None = Ok folder.
Proof.
  pose proof Sample.run_sends as H. unfold Sample.sent_names in H.
  destruct (Sample.run 0%Z) as [s' [r|e]] eqn:E; [|discriminate]. exists s', r. split; [reflexivity|].
  destruct (jobs_accounted_for (FT := TriggerConfig.Sample.plain_floats) (IC := TriggerResolution.Sample.catalog)
    (JS := JenkinsClient.Sample.jenkins) (Ok "http://jenkins") EmptyString EmptyString TriggerConfig.Sample.config Sample.req
    0%Z s' r E) as (folder & _ & Hf & _). exists folder. exact Hf.
Defined.

Lemma sent_builds_are_published_witness :
  ∃ s' r, Sample.run 0%Z = (s', Ok r) ∧ sent r ≠ [] ∧
  ∀ job path params, (job, path, params) ∈ sent r →
    job ∈ filter_jobs (jobs TriggerConfig.Sample.config) (selection_of Sample.req).
Proof.
  pose proof Sample.run_sends as H. unfold Sample.sent_names in H.
  destruct (Sample.run 0%Z) as [s' [r|e]] eqn:E; [|discriminate]. exists s', r. split; [reflexivity|].
  split; [intros Hnil; cbn [snd] in H; rewrite Hnil in H; discriminate|].
  intros job path params Hin.
  apply (sent_builds_are_published (FT := TriggerConfig.Sample.plain_floats) (IC := TriggerResolution.Sample.catalog)
    (JS := JenkinsClient.Sample.jenkins) (Ok "http://jenkins") EmptyString EmptyString TriggerConfig.Sample.config Sample.req
    0%Z s' r) with (path := path) (params := params).
  - exact TriggerResolution.Sample.consistent.
  - split; [|split; vm_compute; reflexivity]. intros b branch re a v. cbn. destruct (String.eqb b "aws"); intros [= <-]; vm_compute; reflexivity.
  - reflexivity.
  - apply Forall_cons_2; [|apply Forall_cons_2; [|apply Forall_nil_2]]; apply Forall_cons_2; try apply Forall_nil_2; repeat split; vm_compute; congruence.
  - apply Forall_cons_2; [|apply Forall_cons_2; [|apply Forall_nil_2]]; apply (bool_decide_eq_true_1 (NoDup _)); vm_compute; reflexivity.
  - apply (bool_decide_eq_true_1 (NoDup _)); vm_compute; reflexivity.
  - exact E.
  - exact Hin.
Defined.

End TriggerMatrix.
