(* ===== verification/Retry.v ===== *)
(** * Retrying and waiting

    Model of [retrying] ([sdcm/utils/decorators.py]) and of [forever_wait_for] and
    [wait_for_log_lines] ([sdcm/wait.py]).

    The decorated function, [time.time()] and [time.sleep] are actions on an arbitrary state;
    what the theorems need of the clock is the class [Clock]. Points in time and durations
    are integers of one unit (a tenth of a second where a literal of the source is not a
    whole number of seconds). The loops run on fuel and answer [None] when it ran out. *)
From Stdlib Require Import ZArith Lia.
From stdpp Require Import base decidable option strings numbers relations list.
From S2P Require Import Prelude.
From S2P Require Import Effects.
Local Open Scope py_scope.
Local Open Scope Z_scope.

Module Retry.

(** [sys.maxsize * 2 + 1]. *)
Definition max_tries : Z := (2 ^ 63 - 1) * 2 + 1.

(** The arguments of [retrying.__init__]; [message] is only logged. *)
Record retrying (E : Type) := Retrying {
  n : Z;
  sleep_time : Z;
  allowed_exceptions : E → bool;
  timeout : Z;
  raise_on_exceeded : bool;
}.
Arguments Retrying {E}.
Arguments n {E}.
Arguments sleep_time {E}.
Arguments allowed_exceptions {E}.
Arguments timeout {E}.
Arguments raise_on_exceeded {E}.

Definition __init__ {E} (n_ sleep_time_ : Z) (allowed : E → bool) (timeout_ : Z) (raise_ : bool) : retrying E :=
  Retrying (if truthy n_ then n_ else max_tries) sleep_time_ allowed timeout_ raise_.

Section Loops.
Context {W E : Type}.
Context (time : act W E Z) (sleep : Z → act W E unit).

Section Retrying.
Context {A : Type} (self : retrying E) (func : act W E A).

(** [i == self.n - 1 or (end_time and time.time() > end_time)]. *)
Definition exceeded (i end_time : Z) : act W E bool :=
  if i =? n self - 1 then ret true
  else if truthy end_time then let! t := time in ret (end_time <? t)
  else ret false.

(** The [for] loop from index [i]. *)
Fixpoint tries (fuel : nat) (i end_time : Z) : act W E (option (option A)) :=
  match fuel with
  | O => ret None
  | S fuel' =>
    if i <? n self then
      let! r := caught func in
      match r with
      | Ok a => ret (Some (Some a))
      | Err ex =>
        if negb (allowed_exceptions self ex) then raise ex
        else
          sleep (sleep_time self) ;;;
          let! over := exceeded i end_time in
          if over && raise_on_exceeded self then raise ex else tries fuel' (i + 1) end_time
      end
    else ret (Some None)
  end.

Definition inner (fuel : nat) : act W E (option (option A)) :=
  let! end_time := (if truthy (timeout self) then let! t := time in ret (t + timeout self) else ret 0) in
  if n self =? 1 then let! a := func in ret (Some (Some a))
  else tries fuel 0 end_time.
End Retrying.

(** ** Waiting without a limit *)
Fixpoint forever_wait_for {A} `{Truthy A} (fuel : nat) (func : act W E A) (step : Z) : act W E (option A) :=
  match fuel with
  | O => ret None
  | S fuel' =>
    let! ok := func in
    sleep step ;;;
    let! _ := time in
    if truthy ok then ret (Some ok) else forever_wait_for fuel' func step
  end.

(** ** Waiting for log lines

    [any(follower)] tells whether a line with one of the patterns was logged since the
    follower was last read. *)
Section LogLines.
Context (TimeoutError : string → E).
Context (start_seen end_seen : act W E bool).

(** [while not found and (time.time() - start_time < limit): found = any(follower); sleep(0.1)]. *)
Fixpoint poll (fuel : nat) (seen : act W E bool) (start_time limit : Z) (found : bool) : act W E (option bool) :=
  if found then ret (Some true)
  else
    let! t := time in
    if t - start_time <? limit then
      match fuel with
      | O => ret None
      | S fuel' =>
        let! found := seen in
        sleep 1 ;;;
        poll fuel' seen start_time limit found
      end
    else ret (Some false).

Definition await_line (fuel : nat) (seen : act W E bool) (start_time limit : Z) (msg : string) : act W E (option unit) :=
  let! found := seen in
  let! r := poll fuel seen start_time limit found in
  match r with
  | None => ret None
  | Some true => ret (Some tt)
  | Some false => raise (TimeoutError msg)
  end.

(** [with wait_for_log_lines(...): body]. *)
Definition wait_for_log_lines {A} (fuel : nat) (start_timeout end_timeout : Z) (body : act W E A) : act W E (option A) :=
  let! start_time := time in
  let! r := caught body in
  let! s := await_line fuel start_seen start_time start_timeout "start" in
  match s with
  | None => ret None
  | Some _ =>
    let! e := await_line fuel end_seen start_time end_timeout "end" in
    match e with
    | None => ret None
    | Some _ => match r with Ok a => ret (Some a) | Err x => raise x end
    end
  end.
End LogLines.
End Loops.

(** ** What the theorems need of the clock *)
Class Clock {W E : Type} (time : act W E Z) (sleep : Z → act W E unit) := {
  clock : W → Z;
  time_reads : ∀ w, ∃ w', time w = (w', Ok (clock w')) ∧ clock w <= clock w';
  sleep_waits : ∀ d w, ∃ w', sleep d w = (w', Ok tt) ∧ clock w + d <= clock w';
}.

(** An action during which the clock does not go back. *)
Definition passes_time {W E A} {time : act W E Z} {sleep} `{!Clock time sleep} (m : act W E A) : Prop :=
  ∀ w, clock w <= clock (m w).1.

Section Theorems.
Context {W E : Type} (time : act W E Z) (sleep : Z → act W E unit).
Context `{!Clock time sleep}.

Lemma sleep_eq d w : sleep d w = ((sleep d w).1, Ok tt).
Proof using Type*. by destruct (sleep_waits d w) as (w' & -> & _). Qed.
Lemma sleep_passes d w : clock w + d <= clock (sleep d w).1.
Proof using Type*. by destruct (sleep_waits d w) as (w' & -> & ?). Qed.
Lemma time_eq w : time w = ((time w).1, Ok (clock (time w).1)).
Proof using Type*. by destruct (time_reads w) as (w' & -> & _). Qed.
Lemma time_passes w : clock w <= clock (time w).1.
Proof using Type*. by destruct (time_reads w) as (w' & -> & ?). Qed.

Section Attempts.
Context {A : Type} (self : retrying E) (func : act W E A).

(** One failed attempt: an allowed exception, and the sleep after it. *)
Definition failed_attempt (w w' : W) : Prop :=
  ∃ x, (func w).2 = Err x ∧ allowed_exceptions self x = true ∧ w' = (sleep (sleep_time self) (func w).1).1.

(** What the [k]-th attempt decides. *)
Definition attempt_decides (w1 : W) (last : bool) (r : W * outcome E (option (option A))) : Prop :=
  match func w1 with
  | (w2, Ok a) => r = (w2, Ok (Some (Some a)))
  | (w2, Err x) =>
    if allowed_exceptions self x
    then last = true ∧ r = ((sleep (sleep_time self) w2).1, if raise_on_exceeded self then Err x else Ok (Some None))
    else r = (w2, Err x)
  end.

(** Without a deadline the loop runs attempts until one returns, raises something that is
    not allowed, or was the last. *)
Lemma tries_no_deadline fuel i w :
  0 <= i < n self → n self - i < Z.of_nat fuel →
  ∃ k w1, nsteps failed_attempt k w w1 ∧ i + Z.of_nat k < n self ∧
          attempt_decides w1 (i + Z.of_nat k =? n self - 1) (tries time sleep self func fuel i 0 w).
Proof using Type*.
  revert i w. induction fuel as [|fuel IH]; intros i w Hi Hf; [lia|].
  cbn [tries]. rewrite (proj2 (Z.ltb_lt i (n self))) by lia. unfold bind at 1, caught.
  destruct (func w) as [w2 r] eqn:Ef. destruct r as [a|x].
  { exists 0%nat, w. split; [constructor|]. split; [lia|]. unfold attempt_decides. by rewrite Ef. }
  destruct (allowed_exceptions self x) eqn:Ea; cbn [negb].
  2:{ exists 0%nat, w. split; [constructor|]. split; [lia|]. unfold attempt_decides. by rewrite Ef, Ea. }
  unfold bind at 1. rewrite sleep_eq.
  set (w3 := (sleep (sleep_time self) w2).1).
  assert (failed_attempt w w3) as Hfail by (exists x; rewrite Ef; done).
  unfold exceeded. destruct (Z.eqb_spec i (n self - 1)) as [Hl|Hl]; unfold bind, ret; simpl.
  - exists 0%nat, w. split; [constructor|]. split; [lia|]. unfold attempt_decides. rewrite Ef, Ea.
    split; [apply Z.eqb_eq; lia|]. destruct (raise_on_exceeded self); [done|].
    destruct fuel; [lia|]. cbn [tries]. rewrite (proj2 (Z.ltb_ge (i + 1) (n self))) by lia. done.
  - destruct (IH (i + 1) w3) as (k & w1 & Hk & Hlt & Hd); [lia|lia|].
    exists (S k), w1. split; [by econstructor|].
    replace (i + Z.of_nat (S k)) with (i + 1 + Z.of_nat k) by lia. done.
Qed.

(** With a deadline and [raise_on_exceeded] the loop ends, whatever the number of tries:
    every failed attempt takes at least the sleep out of what is left. *)
Lemma tries_deadline fuel i end_time w :
  raise_on_exceeded self = true → passes_time func → 0 < sleep_time self → end_time ≠ 0 →
  end_time - clock w < sleep_time self * (Z.of_nat fuel - 1) →
  (0 < fuel)%nat → (tries time sleep self func fuel i end_time w).2 ≠ Ok None.
Proof using Type*.
  intros Hraise Hf Hs He. revert i w. induction fuel as [|fuel IH]; intros i w Hb Hpos; [lia|].
  cbn [tries]. destruct (i <? n self); [|done]. unfold bind at 1, caught.
  pose proof (Hf w) as Hw. destruct (func w) as [w2 [a|x]]; [done|]. simpl in Hw.
  destruct (allowed_exceptions self x); [|done]. cbn [negb].
  unfold bind at 1. pose proof (sleep_passes (sleep_time self) w2) as Hw3. rewrite sleep_eq.
  set (w3 := (sleep (sleep_time self) w2).1) in *. rewrite Hraise.
  unfold exceeded. destruct (i =? n self - 1); [done|].
  assert (truthy end_time = true) as ->.
  { unfold truthy, truthy_Z. destruct (Z.eqb_spec end_time 0); [done|by simpl]. }
  unfold bind, ret. pose proof (time_passes w3) as Hw4. rewrite time_eq. set (w4 := (time w3).1) in *.
  destruct (Z.ltb_spec end_time (clock w4)) as [|Hle]; [done|]. simpl.
  destruct fuel as [|fuel]; [lia|]. apply IH; [nia|lia].
Qed.

(** Without [raise_on_exceeded] the deadline has no effect on the loop. *)
Lemma tries_deadline_ignored fuel i end_time w :
  raise_on_exceeded self = false → (∀ w, (time w).1 = w) →
  tries time sleep self func fuel i end_time w = tries time sleep self func fuel i 0 w.
Proof using Type*.
  intros Hraise Ht. revert i w. induction fuel as [|fuel IH]; intros i w; [done|].
  cbn [tries]. destruct (i <? n self); [|done]. unfold bind, caught, exceeded, ret.
  destruct (func w) as [w2 [a|x]]; [done|]. destruct (allowed_exceptions self x); [|done]. cbn [negb].
  rewrite sleep_eq. set (w3 := (sleep (sleep_time self) w2).1). rewrite Hraise.
  destruct (i =? n self - 1); [apply IH|]. change (truthy 0) with false. cbn iota.
  destruct (truthy end_time); cbn iota; [|apply IH].
  unfold bind. rewrite time_eq, Ht. cbn iota. rewrite andb_false_r. apply IH.
Qed.
End Attempts.

(** ** Waiting loops *)
Section Waiting.
Context {A : Type} `{Truthy A} (func : act W E A) (step : Z).

(** One round of [forever_wait_for] whose answer was not truthy. *)
Definition idle_round (w w' : W) : Prop :=
  ∃ a, (func w).2 = Ok a ∧ truthy a = false ∧ w' = (time (sleep step (func w).1).1).1.

Lemma forever_rounds fuel w :
  ∃ k w1, nsteps idle_round k w w1 ∧
    ((k = fuel ∧ forever_wait_for time sleep fuel func step w = (w1, Ok None)) ∨
     (k < fuel)%nat ∧
     match func w1 with
     | (w2, Ok a) => truthy a = true ∧ forever_wait_for time sleep fuel func step w = ((time (sleep step w2).1).1, Ok (Some a))
     | (w2, Err x) => forever_wait_for time sleep fuel func step w = (w2, Err x)
     end).
Proof using Type*.
  revert w. induction fuel as [|fuel IH]; intros w.
  { exists 0%nat, w. split; [constructor|]. by left. }
  cbn [forever_wait_for]. unfold bind. destruct (func w) as [w2 [a|x]] eqn:Ef.
  - rewrite sleep_eq, time_eq. destruct (truthy a) eqn:Ea; simpl.
    + exists 0%nat, w. split; [constructor|]. right. split; [lia|]. by rewrite Ef.
    + destruct (IH (time (sleep step w2).1).1) as (k & w1 & Hk & Hr). exists (S k), w1.
      split; [econstructor; [|done]; exists a; by rewrite Ef|].
      destruct Hr as [[-> ?]|[? ?]]; [by left|right]. split; [lia|done].
  - exists 0%nat, w. split; [constructor|]. right. split; [lia|]. by rewrite Ef.
Qed.
End Waiting.

Section Polling.
Context (TimeoutError : string → E) (seen : act W E bool).

(** A poll ends within its limit: every round takes at least one unit of time. *)
Lemma poll_ends fuel start limit found w :
  passes_time seen → limit - (clock w - start) < Z.of_nat fuel + 1 →
  (poll time sleep fuel seen start limit found w).2 ≠ Ok None.
Proof using Type*.
  intros Hseen. revert found w. induction fuel as [|fuel IH]; intros found w Hb; simpl; (destruct found; [done|]);
    unfold bind; pose proof (time_passes w) as Ht; rewrite time_eq;
    (destruct (Z.ltb_spec (clock (time w).1 - start) limit); [|done]).
  - lia.
  - pose proof (Hseen (time w).1) as Hs. destruct (seen (time w).1) as [w2 [b|x]]; [|done]. simpl in Hs.
    pose proof (sleep_passes 1 w2) as Hz. rewrite sleep_eq. apply IH. lia.
Qed.

Lemma poll_passes fuel start limit found :
  passes_time seen → passes_time (poll time sleep fuel seen start limit found).
Proof using Type*.
  intros Hseen. revert found. induction fuel as [|fuel IH]; intros found w; simpl; (destruct found; [simpl; lia|]);
    unfold bind; pose proof (time_passes w) as Ht; rewrite time_eq;
    (destruct (Z.ltb_spec (clock (time w).1 - start) limit); [|done]).
  - done.
  - pose proof (Hseen (time w).1) as Hs. destruct (seen (time w).1) as [w2 [b|x]]; simpl in *; [|lia].
    pose proof (sleep_passes 1 w2) as Hz. rewrite sleep_eq.
    pose proof (IH b (sleep 1 w2).1). lia.
Qed.

Lemma await_line_ends fuel start limit msg w :
  passes_time seen → limit - (clock w - start) < Z.of_nat fuel + 1 →
  (await_line time sleep TimeoutError fuel seen start limit msg w).2 ≠ Ok None ∧
  clock w <= clock (await_line time sleep TimeoutError fuel seen start limit msg w).1.
Proof using Type*.
  intros Hseen Hb. unfold await_line, bind. pose proof (Hseen w) as Hw.
  destruct (seen w) as [w1 [b|x]]; simpl in *; [|done].
  pose proof (poll_ends fuel start limit b w1 Hseen) as He. pose proof (poll_passes fuel start limit b Hseen w1) as Hp.
  destruct (poll time sleep fuel seen start limit b w1) as [w2 [[[]|]|y]]; simpl in *; split; try done; try lia.
  all: intros _; apply He; [lia|done].
Qed.
End Polling.

(** [retrying] without a timeout is bounded and faithful: it makes at most [n] attempts,
    each but the first after a sleep; it returns the value of the first attempt that
    returns, passes on the first exception that is not allowed, and after [n] allowed
    exceptions raises the last of them or, without [raise_on_exceeded], returns [None]. *)
Theorem retrying_attempts {A} (self : retrying E) (func : act W E A) fuel w :
  timeout self = 0 → 2 <= n self → n self < Z.of_nat fuel →
  ∃ k w1, nsteps (failed_attempt self func) k w w1 ∧ Z.of_nat k < n self ∧
          attempt_decides self func w1 (Z.of_nat k =? n self - 1) (inner time sleep self func fuel w).
Proof using Type*.
  intros Ht Hn Hf. unfold inner. rewrite Ht. change (truthy 0) with false. cbn iota. unfold bind, ret.
  destruct (Z.eqb_spec (n self) 1); [lia|].
  destruct (tries_no_deadline self func fuel 0 w) as (k & w1 & ?); [lia|lia|]. by exists k, w1.
Qed.

(** A timeout with [raise_on_exceeded] ends the retries: however often the function may be
    tried, with as much fuel as sleeps fit into the timeout the call returns or raises. *)
Theorem retrying_deadline_ends {A} (self : retrying E) (func : act W E A) fuel w :
  raise_on_exceeded self = true → passes_time func → 0 < sleep_time self → 0 < timeout self →
  0 < clock w → timeout self < sleep_time self * (Z.of_nat fuel - 1) →
  (inner time sleep self func fuel w).2 ≠ Ok None.
Proof using Type*.
  intros Hr Hf Hs Ht Hc Hb. unfold inner.
  assert (truthy (timeout self) = true) as ->.
  { unfold truthy, truthy_Z. by destruct (Z.eqb_spec (timeout self) 0); [lia|]. }
  unfold bind at 1. unfold bind at 1. pose proof (time_passes w). rewrite time_eq.
  unfold ret. cbn iota. destruct (n self =? 1).
  - unfold bind. by destruct (func (time w).1) as [? [|]].
  - apply tries_deadline; [done|done|done|lia| |nia]. lia.
Qed.

Definition no_timeout (self : retrying E) : retrying E :=
  Retrying (n self) (sleep_time self) (allowed_exceptions self) 0 (raise_on_exceeded self).

(** Without [raise_on_exceeded] the timeout is ignored: when reading the clock changes
    nothing, the call behaves as if there were no timeout. *)
Theorem retrying_timeout_ignored {A} (self : retrying E) (func : act W E A) fuel w :
  raise_on_exceeded self = false → (∀ w, (time w).1 = w) →
  inner time sleep self func fuel w = inner time sleep (no_timeout self) func fuel w.
Proof using Type*.
  intros Hr Ht. unfold inner. change (truthy (timeout (no_timeout self))) with false. cbn iota.
  change (n (no_timeout self)) with (n self).
  change (tries time sleep (no_timeout self) func) with (tries time sleep self func).
  assert (∃ e, (if truthy (timeout self) then let! t := time in ret (t + timeout self) else ret 0) w = (w, Ok e)) as [e He].
  { destruct (truthy (timeout self)); [|by exists 0]. unfold bind. rewrite time_eq, Ht. by eexists. }
  unfold bind at 1 3. rewrite He. unfold ret at 2. destruct (n self =? 1); [done|].
  by apply tries_deadline_ignored.
Qed.

(** [wait_for_log_lines] always ends, and returns only after the body did and both lines
    were seen; when they were, an exception of the body passes. *)
Theorem log_lines_wait_ends {A} (TimeoutError : string → E) (start_seen end_seen : act W E bool)
    (body : act W E A) fuel start_timeout end_timeout w :
  passes_time start_seen → passes_time end_seen → passes_time body →
  start_timeout <= Z.of_nat fuel → end_timeout <= Z.of_nat fuel →
  (wait_for_log_lines time sleep TimeoutError start_seen end_seen fuel start_timeout end_timeout body w).2 ≠ Ok None.
Proof using Type*.
  intros Hs He Hb Hst Het. unfold wait_for_log_lines, bind, caught.
  pose proof (time_passes w) as Ht. rewrite time_eq. set (w0 := (time w).1) in *.
  pose proof (Hb w0) as H0. destruct (body w0) as [w1 r]. simpl in H0.
  destruct (await_line_ends TimeoutError start_seen fuel (clock w0) start_timeout "start" w1 Hs) as [S1 S2]; [lia|].
  destruct (await_line time sleep TimeoutError fuel start_seen (clock w0) start_timeout "start" w1) as [w2 [[[]|]|x]];
    simpl in *; [|done|done].
  destruct (await_line_ends TimeoutError end_seen fuel (clock w0) end_timeout "end" w2 He) as [E1 _]; [lia|].
  destruct (await_line time sleep TimeoutError fuel end_seen (clock w0) end_timeout "end" w2) as [w3 [[[]|]|x]];
    simpl in *; [|done|done]. by destruct r.
Qed.
End Theorems.
End Retry.
