(* ===== verification/Replication.v ===== *)
(** * Replication strategies

    Model of [sdcm/utils/replication_strategy_utils.py] with the quoting of
    [sdcm/utils/cql_utils.py]: strategies as text and back, changing the strategy of a
    keyspace for a while, and lowering replication factors before a node is removed.

    A replication factor is what [literal_eval] gives: a number, a text, or a list of racks.
    The database is reached through a record of actions on an arbitrary state; what the
    theorems need of it is the class [CqlServer]. *)
From Stdlib Require Import Ascii String ZArith Lia.
From stdpp Require Import base decidable option strings numbers gmap sets list.
From S2P Require Import Prelude.
From S2P Require Import PyString.
From S2P Require Import PyInt.
From S2P Require Import PyVal.
From S2P Require Import PyRepr.
From S2P Require Import PyDict.
From S2P Require Import PyLiteral.
From S2P Require Import Effects.
From S2P Require Import Retry.
Local Open Scope py_scope.
Local Open Scope string_scope.

Module Replication.

(** ** Strategies *)
Inductive strategy : Type :=
  | SimpleReplicationStrategy (_replication_factor : literal)
  | NetworkTopologyReplicationStrategy (replication_factors_per_dc : list (string * literal))
  | LocalReplicationStrategy.

Inductive exn : Type :=
  | TypeError
  | ValueError
  | KeyError
  | AttributeError
  | SyntaxError
  | IndexError
  | InvalidRequest
  | DatacenterNotResolvedError
  | RetryException
  | OtherException
  | NonException.

Definition is_exception (x : exn) : bool := match x with NonException => false | _ => true end.

(** [f"{value}"] and [f"{value!r}"] of a list. *)
Definition str_literal (v : literal) : string :=
  match v with
  | LInt z => str_Z z
  | LStr s => s
  | LList l => "[" +:+ join ", " (repr_str <$> l) +:+ "]"
  end.

Definition class_ (s : strategy) : string :=
  match s with
  | SimpleReplicationStrategy _ => "SimpleStrategy"
  | NetworkTopologyReplicationStrategy _ => "NetworkTopologyStrategy"
  | LocalReplicationStrategy => "LocalStrategy"
  end.

(** [__str__]. *)
Definition str_strategy (s : strategy) : string :=
  match s with
  | SimpleReplicationStrategy rf => "{'class': '" +:+ class_ s +:+ "', 'replication_factor': " +:+ str_literal rf +:+ "}"
  | NetworkTopologyReplicationStrategy per_dc =>
    "{'class': '" +:+ class_ s +:+ "', " +:+
    join ", " ((λ p : string * literal, "'" +:+ p.1 +:+ "': " +:+ str_literal p.2) <$> per_dc) +:+ "}"
  | LocalReplicationStrategy => "{'class': '" +:+ class_ s +:+ "'}"
  end.

(** [int(rf)]. *)
Definition int_literal (v : literal) : outcome exn Z :=
  match v with
  | LInt z => Ok z
  | LStr s => match py_int s with Some z => Ok z | None => Err ValueError end
  | LList _ => Err TypeError
  end.

Fixpoint int_factors (per_dc : list (string * literal)) : outcome exn (list Z) :=
  match per_dc with
  | [] => Ok []
  | (_, rf) :: rest =>
    try! n := match rf with LList l => Ok (Z.of_nat (length l)) | _ => int_literal rf end in
    try! ns := int_factors rest in
    Ok (n :: ns)
  end.

Definition replication_factors (s : strategy) : outcome exn (list Z) :=
  match s with
  | SimpleReplicationStrategy rf => try! n := int_literal rf in Ok [n]
  | NetworkTopologyReplicationStrategy per_dc => int_factors per_dc
  | LocalReplicationStrategy => Ok [0%Z]
  end.

(** ** From text *)
Fixpoint strip_prefix_ci (p s : string) : option string :=
  match p, s with
  | EmptyString, _ => Some s
  | String a p', String b s' => if Ascii.eqb a (lower_char b) then strip_prefix_ci p' s' else None
  | String _ _, EmptyString => None
  end.

Definition is_newline (c : ascii) : bool := (nat_of_ascii c =? 10)%nat.

(** [.*?\}]: the shortest text of one line up to a closing brace. *)
Fixpoint until_brace (s : string) : option string :=
  match s with
  | EmptyString => None
  | String c s' =>
    if Ascii.eqb c "}" then Some "}"
    else if is_newline c then None
    else String c <$> until_brace s'
  end.

(** [replication[\s]=[\s](\{.*?\})] at the start of the text: the group. *)
Definition match_here (s : string) : option string :=
  match strip_prefix_ci "replication" s with
  | Some (String a (String b (String c (String d s')))) =>
    if is_space a && Ascii.eqb b "=" && is_space c && Ascii.eqb d "{" then String "{" <$> until_brace s' else None
  | _ => None
  end.

(** [.*] in front of it: as much of the line as possible. *)
Fixpoint match_line (s : string) : option string :=
  match s with
  | EmptyString => match_here s
  | String c s' =>
    if is_newline c then match_here s
    else match match_line s' with Some r => Some r | None => match_here s end
  end.

(** [re.search]: from the first position that matches. *)
Fixpoint search_replication (s : string) : option string :=
  match match_line s with
  | Some r => Some r
  | None => match s with String _ s' => search_replication s' | EmptyString => None end
  end.

(** The constructors, given the keyword arguments. *)
Definition simple_init (kwargs : list (string * literal)) : outcome exn strategy :=
  match kwargs with
  | [(k, v)] => if String.eqb k "replication_factor" then Ok (SimpleReplicationStrategy v) else Err TypeError
  | _ => Err TypeError
  end.

Definition network_topology_init (kwargs : list (string * literal)) : outcome exn strategy :=
  if dict_in "self" kwargs then Err TypeError
  else
    let start := match dict_get "default_rf" kwargs with Some d => [("replication_factor", d)] | None => [] end in
    match foldl (λ d p, dict_set p.1 p.2 d) start (dict_del "default_rf" kwargs) with
    | [] => Err ValueError
    | per_dc => Ok (NetworkTopologyReplicationStrategy per_dc)
    end.

Definition local_init (kwargs : list (string * literal)) : outcome exn strategy :=
  match kwargs with [] => Ok LocalReplicationStrategy | _ => Err TypeError end.

(** The loop over [replication_strategies]: the first whose name ends the class name. *)
Definition construct (strategy_class : string) (kwargs : list (string * literal)) : outcome exn strategy :=
  if endswith "SimpleStrategy" strategy_class then simple_init kwargs
  else if endswith "NetworkTopologyStrategy" strategy_class then network_topology_init kwargs
  else if endswith "LocalStrategy" strategy_class then local_init kwargs
  else Err ValueError.

Definition from_string (replication_string : string) : outcome exn strategy :=
  match search_replication replication_string with
  | None => Err TypeError
  | Some text =>
    match literal_eval_dict text with
    | None => Err SyntaxError
    | Some strategy_params =>
      match dict_get "class" strategy_params with
      | None => Err KeyError
      | Some (LStr strategy_class) => construct strategy_class (dict_del "class" strategy_params)
      | Some _ => Err AttributeError
      end
    end
  end.

Example from_string_ex :
  from_string "CREATE KEYSPACE ks WITH replication = {'class': 'org.apache.cassandra.locator.NetworkTopologyStrategy', 'dc1': '3'} AND durable_writes = true AND tablets = {'enabled': false};" =
  Ok (NetworkTopologyReplicationStrategy [("dc1", LStr "3")]).
Proof. vm_compute. reflexivity. Qed.

(** ** Finding the strategy in a statement *)
Definition is_brace (c : ascii) : bool := Ascii.eqb c "{" || Ascii.eqb c "}".

(** Text of one line without braces. *)
Definition flat (s : string) : bool := all_chars (λ c, negb (is_brace c) && negb (is_newline c)) s.

Fixpoint first_brace (s : string) : option (nat * ascii) :=
  match s with
  | EmptyString => None
  | String c s' => if is_brace c then Some (0%nat, c) else (λ p : nat * ascii, (S p.1, p.2)) <$> first_brace s'
  end.

Lemma first_brace_flat w b x :
  flat w = true → is_brace b = true → first_brace (w +:+ String b x) = Some (String.length w, b).
Proof.
  intros Hw Hb. induction w as [|c w IH].
  { change (EmptyString +:+ String b x) with (String b x). cbn [first_brace]. by rewrite Hb. }
  unfold flat in Hw. cbn [all_chars] in Hw. apply andb_true_iff in Hw as [Hc Hw]. apply andb_true_iff in Hc as [Hc _].
  change (String c w +:+ String b x) with (String c (w +:+ String b x)). cbn [first_brace String.length].
  apply negb_true_iff in Hc. rewrite Hc, IH by done. done.
Qed.

Lemma strip_prefix_brace p s s' :
  all_chars (λ c, negb (is_brace c) && Ascii.eqb c (lower_char c)) p = true →
  strip_prefix_ci p s = Some s' → first_brace s = (λ q : nat * ascii, ((String.length p + q.1)%nat, q.2)) <$> first_brace s'.
Proof.
  revert s. induction p as [|a p IH]; intros s Hp; cbn [strip_prefix_ci].
  { intros [= ->]. destruct (first_brace s') as [[n b]|]; done. }
  destruct s as [|b s]; [done|]. cbn [all_chars] in Hp. apply andb_true_iff in Hp as [Ha Hp].
  destruct (Ascii.eqb_spec a (lower_char b)) as [->|]; [|done]. intros Hs. cbn [first_brace].
  assert (is_brace b = false) as ->.
  { apply andb_true_iff in Ha as [Ha _]. destruct b as [[] [] [] [] [] [] [] []]; vm_compute in Ha |- *; done. }
  rewrite (IH _ Hp Hs). by destruct (first_brace s') as [[n d]|].
Qed.

(** A match starts fourteen characters in front of an opening brace, with none between. *)
Lemma match_here_shape s r : match_here s = Some r → first_brace s = Some (14%nat, "{"%char).
Proof.
  unfold match_here. destruct (strip_prefix_ci "replication" s) as [t|] eqn:E; [|done].
  destruct t as [|a [|b [|c [|d t]]]]; try done.
  destruct (is_space a && Ascii.eqb b "=" && is_space c && Ascii.eqb d "{") eqn:Ec; [|done]. intros _.
  apply andb_true_iff in Ec as [Ec Hd]. apply andb_true_iff in Ec as [Ec Hc]. apply andb_true_iff in Ec as [Ha Hb].
  apply Ascii.eqb_eq in Hb, Hd. subst b d. rewrite (strip_prefix_brace "replication" _ _ eq_refl E).
  assert (∀ x, is_space x = true → is_brace x = false) as Hsp
    by (intros x; destruct x as [[] [] [] [] [] [] [] []]; vm_compute; done).
  cbn [first_brace]. by rewrite (Hsp a Ha), (Hsp c Hc).
Qed.

Lemma flat_cons c w : flat (String c w) = true → is_newline c = false ∧ flat w = true.
Proof.
  unfold flat. cbn [all_chars]. intros [[_ Hc]%andb_true_iff Hw]%andb_true_iff. by apply negb_true_iff in Hc.
Qed.

(** No match starts inside flat text in front of a brace that is not the right one. *)
Lemma match_line_flat w b x :
  flat w = true → is_brace b = true → (b = "}"%char ∨ (String.length w < 14)%nat) →
  match_line (String b x) = None → match_line (w +:+ String b x) = None.
Proof.
  intros Hw Hb Hor Hx. induction w as [|c w IH]; [done|].
  pose proof (first_brace_flat (String c w) b x Hw Hb) as Hf. destruct (flat_cons c w Hw) as [Hc Hw'].
  change (String c w +:+ String b x) with (String c (w +:+ String b x)) in *. cbn [match_line]. rewrite Hc, IH; [|done|].
  2:{ destruct Hor as [?|Hl]; [by left|right]. simpl in Hl. lia. }
  destruct (match_here (String c (w +:+ String b x))) as [r|] eqn:E; [|done].
  apply match_here_shape in E. rewrite E in Hf. injection Hf as Hl Hb'. subst b. destruct Hor as [?|Hor]; [done|].
  simpl in Hor. lia.
Qed.

Lemma match_line_prefix u v r :
  all_chars (λ c, negb (is_newline c)) u = true → match_line v = Some r → match_line (u +:+ v) = Some r.
Proof.
  intros Hu Hv. induction u as [|c u IH]; [done|]. cbn [all_chars] in Hu. apply andb_true_iff in Hu as [Hc Hu].
  apply negb_true_iff in Hc. change (String c u +:+ v) with (String c (u +:+ v)). cbn [match_line]. by rewrite Hc, IH.
Qed.

Lemma until_brace_flat body post : flat body = true → until_brace (body +:+ String "}" post) = Some (body +:+ "}").
Proof.
  intros Hb. induction body as [|c w IH]; [done|].
  pose proof Hb as Hb'. unfold flat in Hb'. cbn [all_chars] in Hb'. apply andb_true_iff in Hb' as [Hc Hw].
  apply andb_true_iff in Hc as [Hc Hn]. apply negb_true_iff in Hc, Hn.
  unfold is_brace in Hc. apply orb_false_iff in Hc as [_ Hc].
  change (String c w +:+ String "}" post) with (String c (w +:+ String "}" post)). cbn [until_brace].
  by rewrite Hc, Hn, IH.
Qed.

(** The dictionary of the last [replication = {...}] of a line is found. *)
Lemma search_finds pre body post :
  all_chars (λ c, negb (is_newline c)) pre = true → flat body = true → match_line post = None →
  search_replication (pre +:+ "replication = " +:+ ("{" +:+ body +:+ "}") +:+ post) = Some ("{" +:+ body +:+ "}").
Proof.
  intros Hpre Hb Hpost. set (text := "replication = " +:+ ("{" +:+ body +:+ "}") +:+ post).
  assert (match_line text = Some ("{" +:+ body +:+ "}")) as Hm.
  { assert (text = String "r" ("eplication = " +:+ String "{" (body +:+ String "}" post))) as ->.
    { unfold text. by rewrite !str_app_assoc. }
    cbn [match_line]. change (is_newline "r") with false. cbn iota. rewrite match_line_flat; [|done|done|right; simpl; lia|].
    - change (match_here (String "r" _)) with (String "{" <$> until_brace (body +:+ String "}" post)).
      by rewrite until_brace_flat.
    - cbn [match_line]. change (is_newline "{") with false. cbn iota. rewrite match_line_flat; [done|done|done|by left|].
      cbn [match_line]. change (is_newline "}") with false. cbn iota. by rewrite Hpost. }
  unfold search_replication. pose proof (match_line_prefix pre text _ Hpre Hm) as H.
  destruct (pre +:+ text); rewrite H; done.
Qed.

(** ** Printing a strategy and reading it back *)

(** Names that need no escaping. *)
Definition clean (k : string) : bool := plain k && flat k.

Definition rf_ok (v : literal) : Prop :=
  match v with
  | LInt z => (0 <= z)%Z
  | LStr s => ∃ z, (0 <= z)%Z ∧ s = str_Z z
  | LList l => Forall (λ r, clean r = true) l
  end.

Definition dc_ok (p : string * literal) : Prop :=
  clean p.1 = true ∧ p.1 ∉ ["class"; "default_rf"; "self"] ∧ rf_ok p.2.

(** Strategies as a database has them. *)
Definition valid (s : strategy) : Prop :=
  match s with
  | SimpleReplicationStrategy rf => rf_ok rf
  | NetworkTopologyReplicationStrategy per_dc => per_dc ≠ [] ∧ NoDup per_dc.*1 ∧ Forall dc_ok per_dc
  | LocalReplicationStrategy => True
  end.

(** A factor given as the text of a number is that number. *)
Definition norm_literal (v : literal) : literal :=
  match v with LStr s => match py_int s with Some z => LInt z | None => LStr s end | _ => v end.
Definition norm (s : strategy) : strategy :=
  match s with
  | SimpleReplicationStrategy rf => SimpleReplicationStrategy (norm_literal rf)
  | NetworkTopologyReplicationStrategy per_dc => NetworkTopologyReplicationStrategy (prod_map id norm_literal <$> per_dc)
  | LocalReplicationStrategy => LocalReplicationStrategy
  end.

Lemma flat_app a b : flat (a +:+ b) = flat a && flat b.
Proof. apply all_chars_app. Qed.

Lemma flat_join ws : Forall (λ w, flat w = true) ws → flat (join ", " ws) = true.
Proof.
  induction 1 as [|w ws Hw Hws IH]; [done|]. destruct ws as [|w' ws]; [done|].
  rewrite join_cons, !flat_app, Hw, IH by done. done.
Qed.

Lemma digits_flat s : all_chars is_digit s = true → flat s = true.
Proof.
  induction s as [|c s IH]; [done|]. cbn [all_chars]. intros [Hc Hs]%andb_true_iff. unfold flat. cbn [all_chars].
  fold (flat s). rewrite IH by done. rewrite andb_true_r.
  destruct c as [[] [] [] [] [] [] [] []]; vm_compute in Hc |- *; done.
Qed.

Lemma str_Z_flat z : (0 <= z)%Z → flat (str_Z z) = true.
Proof. intros Hz. pose proof (str_Z_digits z Hz) as H. unfold isdigit in H. apply andb_true_iff in H as [_ H]. by apply digits_flat. Qed.

Lemma plain_has_char q s : is_quote q = true → plain s = true → has_char q s = false.
Proof.
  intros Hq. induction s as [|c s IH]; [done|]. cbn [plain has_char]. intros [Hc Hs]%andb_true_iff.
  destruct (plain_char_spec c q Hc Hq) as (E & _). rewrite IH by done.
  destruct (Ascii.eqb_spec q c) as [->|]; [by rewrite Ascii.eqb_refl in E|done].
Qed.

Lemma plain_repr s : plain s = true → repr_str s = "'" +:+ s +:+ "'".
Proof.
  intros Hp. unfold repr_str, repr_quote. rewrite (plain_has_char single_quote s) by done. cbn [andb].
  assert (repr_body single_quote s = s) as ->; [|done].
  induction s as [|c s IH]; [done|]. cbn [plain repr_body] in *. apply andb_true_iff in Hp as [Hc Hs]. rewrite IH by done.
  destruct c as [[] [] [] [] [] [] [] []]; vm_compute in Hc; try done.
Qed.

Lemma clean_repr_flat s : clean s = true → flat (repr_str s) = true.
Proof.
  intros [Hp Hf]%andb_true_iff. rewrite plain_repr, !flat_app, Hf by done. done.
Qed.

Lemma rf_text v : rf_ok v → value_text (norm_literal v) (str_literal v) ∧ flat (str_literal v) = true.
Proof.
  destruct v as [z|s|l]; simpl.
  - intros Hz. split; [by apply value_text_int|by apply str_Z_flat].
  - intros (z & Hz & ->). rewrite py_int_str_Z. split; [by apply value_text_int|by apply str_Z_flat].
  - intros Hl. split; [apply value_text_list|]. rewrite !flat_app, flat_join; [done|].
    apply Forall_fmap. eapply Forall_impl; [exact Hl|]. intros r Hr. by apply clean_repr_flat.
Qed.

(** Reading a rendered dictionary inside a statement. *)
Lemma from_string_rendered pre post cls vs ts :
  all_chars (λ c, negb (is_newline c)) pre = true → match_line post = None →
  clean cls = true → printed vs ts → NoDup vs.*1 → "class" ∉ vs.*1 →
  Forall (λ t : string * string, flat t.1 = true ∧ flat t.2 = true) ts →
  from_string (pre +:+ "replication = " +:+ render_dict (("class", repr_str cls) :: ts) +:+ post) = construct cls vs.
Proof.
  intros Hpre Hpost Hcls Hp Hnd Hc Hf. unfold from_string, render_dict. pose proof Hcls as [Hpl Hfl]%andb_true_iff.
  rewrite search_finds; [|done| |done].
  2:{ apply flat_join. cbn [fmap list_fmap]. constructor.
      - unfold render_item. cbn [fst snd]. rewrite !flat_app, clean_repr_flat by done. done.
      - apply Forall_fmap. eapply Forall_impl; [exact Hf|]. intros [k t] [Hk Ht]. unfold compose, render_item. cbn [fst snd] in *.
        by rewrite !flat_app, Hk, Ht. }
  fold (render_dict (("class", repr_str cls) :: ts)).
  rewrite (literal_eval_render (("class", LStr cls) :: vs)); [| |done|by constructor].
  - cbn [dict_get]. rewrite decide_True by done. f_equal. unfold dict_del.
    rewrite filter_cons, decide_False by (intros Hn; by apply Hn). apply filter_always. intros [k v] Hkv. cbn [fst]. intros ->.
    apply Hc. by apply (list_elem_of_fmap_2 fst) in Hkv.
  - constructor; [|done]. split_and!; [done|done|apply value_text_repr].
Qed.

(** The items of a strategy, as read and as printed. *)
Definition items (s : strategy) : list (string * literal) :=
  match s with
  | SimpleReplicationStrategy rf => [("replication_factor", rf)]
  | NetworkTopologyReplicationStrategy per_dc => per_dc
  | LocalReplicationStrategy => []
  end.

Lemma str_strategy_render s :
  valid s → str_strategy s = render_dict (("class", repr_str (class_ s)) :: (prod_map id str_literal <$> items s)).
Proof.
  destruct s as [rf|per_dc|]; simpl; [done| |done]. intros (Hne & _). unfold render_dict. cbn [fmap list_fmap].
  rewrite join_cons by (by destruct per_dc). rewrite <-list_fmap_compose. unfold render_item at 1. cbn [fst snd].
  rewrite !str_app_assoc. do 2 f_equal.
Qed.

Lemma items_ok s : valid s → Forall (λ p, clean p.1 = true ∧ rf_ok p.2) (items s) ∧ NoDup (items s).*1 ∧ "class" ∉ (items s).*1.
Proof.
  destruct s as [rf|per_dc|]; simpl.
  - intros Hrf. split_and!; [by repeat constructor|apply NoDup_singleton|]. apply (bool_decide_unpack _). by vm_compute.
  - intros (_ & Hnd & Hok). split_and!; [|done|].
    + eapply Forall_impl; [exact Hok|]. by intros p (? & _ & ?).
    + intros ([k v] & Heq & Hin)%list_elem_of_fmap. rewrite Forall_forall in Hok. destruct (Hok _ Hin) as (_ & Hk & _).
      apply Hk. rewrite <-Heq. constructor.
  - intros _. split_and!; [constructor..|]. inversion 1.
Qed.

Lemma fmap_fst_map {A B C} (f : B → C) (l : list (A * B)) : (prod_map id f <$> l).*1 = l.*1.
Proof. rewrite <-list_fmap_compose. by apply list_fmap_ext. Qed.

(** Building a strategy from its own class and items. *)
Lemma construct_items cls s (f : literal → literal) :
  valid s → endswith (class_ s) cls = true → clean cls = true →
  (class_ s = "NetworkTopologyStrategy" → endswith "SimpleStrategy" cls = false) →
  (class_ s = "LocalStrategy" → endswith "SimpleStrategy" cls = false ∧ endswith "NetworkTopologyStrategy" cls = false) →
  construct cls (prod_map id f <$> items s) =
  Ok (match s with
      | SimpleReplicationStrategy rf => SimpleReplicationStrategy (f rf)
      | NetworkTopologyReplicationStrategy per_dc => NetworkTopologyReplicationStrategy (prod_map id f <$> per_dc)
      | LocalReplicationStrategy => LocalReplicationStrategy
      end).
Proof.
  intros Hv He Hcl Hn Hl. unfold construct. destruct s as [rf|per_dc|]; cbn [class_ items] in *; [by rewrite He| |].
  2:{ destruct Hl as [-> ->]; [done|]. by rewrite He. }
  rewrite Hn, He by done. destruct Hv as (Hne & Hnd & Hok).
  assert (∀ k, k ∈ ["class"; "default_rf"; "self"] → k ∉ (prod_map id f <$> per_dc).*1) as Hno.
  { intros k Hk. rewrite fmap_fst_map. intros ([k' v] & Heq & Hin)%list_elem_of_fmap. rewrite Forall_forall in Hok.
    destruct (Hok _ Hin) as (_ & Hk' & _). by rewrite Heq in Hk. }
  unfold network_topology_init, dict_in.
  rewrite bool_decide_eq_false_2, (proj2 (dict_get_None "default_rf" _)).
  - unfold dict_del. rewrite filter_always, (dict_of_pairs []).
    + by destruct per_dc.
    + simpl. by rewrite fmap_fst_map.
    + intros [k v] Hin. cbn [fst]. intros ->. apply (Hno "default_rf"); [set_solver|]. by apply (list_elem_of_fmap_2 fst) in Hin.
  - apply Hno. set_solver.
  - rewrite (proj2 (dict_get_None "self" _)); [by intros [? ?]|]. apply Hno. set_solver.
Qed.

(** Reading a strategy whose factors were printed by [g] and are read as [f] says. *)
Lemma from_printed pre post cls s (f : literal → literal) (g : literal → string) :
  valid s → all_chars (λ c, negb (is_newline c)) pre = true → match_line post = None →
  cls = class_ s ∨ cls = "org.apache.cassandra.locator." +:+ class_ s →
  (∀ v, rf_ok v → value_text (f v) (g v) ∧ flat (g v) = true) →
  from_string (pre +:+ "replication = " +:+ render_dict (("class", repr_str cls) :: (prod_map id g <$> items s)) +:+ post) =
  Ok (match s with
      | SimpleReplicationStrategy rf => SimpleReplicationStrategy (f rf)
      | NetworkTopologyReplicationStrategy per_dc => NetworkTopologyReplicationStrategy (prod_map id f <$> per_dc)
      | LocalReplicationStrategy => LocalReplicationStrategy
      end).
Proof.
  intros Hv Hpre Hpost Hcls Hfg. destruct (items_ok s Hv) as (Hok & Hnd & Hcl).
  rewrite (from_string_rendered pre post _ (prod_map id f <$> items s)).
  - apply construct_items; [done|..]; by destruct Hcls as [-> | ->]; destruct s.
  - done.
  - done.
  - by destruct Hcls as [-> | ->]; destruct s.
  - unfold printed. apply Forall2_fmap, Forall_Forall2_diag. eapply Forall_impl; [exact Hok|]. intros [k v] [Hk Hr].
    cbn [fst snd prod_map id] in *. apply andb_true_iff in Hk as [Hk _]. split_and!; [done|done|by apply Hfg].
  - by rewrite fmap_fst_map.
  - by rewrite fmap_fst_map.
  - apply Forall_fmap. eapply Forall_impl; [exact Hok|]. intros [k v] [Hk Hr]. unfold compose. cbn [fst snd prod_map id] in *.
    apply andb_true_iff in Hk as [_ Hk]. split; [done|by apply Hfg].
Qed.

Lemma strategy_text pre post s :
  valid s → all_chars (λ c, negb (is_newline c)) pre = true → match_line post = None →
  from_string (pre +:+ "replication = " +:+ str_strategy s +:+ post) = Ok (norm s).
Proof.
  intros Hv Hpre Hpost. rewrite str_strategy_render by done.
  rewrite (from_printed pre post _ s norm_literal); [by destruct s|done|done|done|by left|]. apply rf_text.
Qed.

(** C26. Replication strategies survive as text: a strategy printed by [str] inside a CQL
    statement, after any text on the same line and before any text in which no other
    replication map follows, is read back by [from_string] as the same strategy, with the
    factors that were texts of numbers as numbers. *)
Theorem strategy_text_roundtrip pre post s :
  valid s → all_chars (λ c, negb (is_newline c)) pre = true → match_line post = None →
  from_string (pre +:+ "replication = " +:+ str_strategy s +:+ post) = Ok (norm s).
Proof. apply strategy_text. Qed.

(** ** Identifiers *)
Definition is_lower (c : ascii) : bool := char_in "a" "z" c.
Definition ident_char (c : ascii) : bool := is_lower c || is_digit c || Ascii.eqb c "_".

(** [[a-z0-9_]*$]: the end may be in front of a last newline. *)
Fixpoint ident_rest (s : string) : bool :=
  match s with
  | EmptyString => true
  | String c s' => ident_char c && ident_rest s' || is_newline c && negb (truthy s')
  end.

Definition is_identifier (s : string) : bool :=
  match s with String c s' => is_lower c && ident_rest s' | EmptyString => false end.

Definition cql_quote_if_needed (identifier : string) : string :=
  if is_identifier identifier then identifier
  else String double_quote (identifier +:+ String double_quote EmptyString).

Fixpoint drop_last (s : string) : string :=
  match s with
  | EmptyString | String _ EmptyString => EmptyString
  | String c s' => String c (drop_last s')
  end.

Definition cql_unquote_if_needed (identifier : string) : string :=
  if (2 <=? String.length identifier)%nat && startswith (String double_quote EmptyString) identifier &&
     endswith (String double_quote EmptyString) identifier
  then drop_last (str_drop 1 identifier) else identifier.

Lemma drop_last_snoc s c : drop_last (s +:+ String c EmptyString) = s.
Proof.
  induction s as [|d s IH]; [done|]. change (String d s +:+ ?t) with (String d (s +:+ t)). cbn [drop_last]. rewrite IH.
  by destruct s.
Qed.

(** Quoting loses nothing: every name comes back. *)
Lemma unquote_quote ks : cql_unquote_if_needed (cql_quote_if_needed ks) = ks.
Proof.
  unfold cql_quote_if_needed. destruct (is_identifier ks) eqn:E.
  - unfold cql_unquote_if_needed. destruct ks as [|c s]; [done|]. cbn [is_identifier] in E. apply andb_true_iff in E as [Hc _].
    assert (startswith (String double_quote EmptyString) (String c s) = false) as ->.
    { cbn [startswith]. destruct (Ascii.eqb_spec double_quote c) as [<-|]; [|done]. by vm_compute in Hc. }
    by rewrite andb_false_r.
  - unfold cql_unquote_if_needed. set (q := String double_quote (ks +:+ _)).
    assert (endswith (String double_quote EmptyString) q = true) as ->.
    { unfold endswith, q. rewrite (str_rev_cons double_quote (ks +:+ String double_quote EmptyString)), str_rev_app. done. }
    assert (2 <=? String.length q = true)%nat as ->.
    { apply Nat.leb_le. unfold q. cbn [String.length]. rewrite str_length_app. simpl. lia. }
    unfold q. cbn [startswith]. rewrite Ascii.eqb_refl. cbn [andb str_drop]. apply drop_last_snoc.
Qed.

(** ** The database *)

(** [describe]: the lines printed for [describe <identifier>]; [alter_keyspace]: the query
    [ALTER KEYSPACE <identifier> WITH replication = <map>]; [select_keyspaces]: the rows of
    [SELECT keyspace_name, replication FROM system_schema.keyspaces]. *)
Record database (W : Type) := Database {
  describe : string → act W exn (list string);
  alter_keyspace : string → string → act W exn unit;
  wait_for_schema_agreement : act W exn unit;
  select_keyspaces : act W exn (list (string * list (string * string)));
}.
Arguments Database {W}.
Arguments describe {W}.
Arguments alter_keyspace {W}.
Arguments wait_for_schema_agreement {W}.
Arguments select_keyspaces {W}.

Section Operations.
Context {W : Type} (database_ : database W).

Definition get (keyspace : string) : act W exn strategy :=
  let! lines := describe database_ (cql_quote_if_needed keyspace) in
  match lines !! 1%nat with
  | None => raise IndexError
  | Some create_ks_statement => λ w, (w, from_string create_ks_statement)
  end.

Definition apply (s : strategy) (keyspace : string) : act W exn unit :=
  alter_keyspace database_ (cql_quote_if_needed keyspace) (str_strategy s) ;;;
  wait_for_schema_agreement database_.

(** *** [temporary_replication_strategy_setter] *)
Record setter := Setter { node : W; preserved : list (string * strategy) }.

Definition on_node {A} (m : act W exn A) : act setter exn A :=
  λ st, let '(w, r) := m (node st) in (Setter w (preserved st), r).

Definition _preserve_replication_strategy (keyspace : string) : act setter exn unit :=
  let! p := gets preserved in
  if dict_in keyspace p then ret tt
  else
    let! s := on_node (get keyspace) in
    modify (λ st, Setter (node st) (dict_set keyspace s (preserved st))).

Definition is_invalid_request (x : exn) : bool := match x with InvalidRequest => true | _ => false end.

Definition __call__ (keyspaces : list (string * strategy)) : act setter exn unit :=
  for_each keyspaces (λ p,
    try_except is_invalid_request
      (_preserve_replication_strategy p.1 ;;; on_node (apply p.2 p.1))
      (λ _, ret tt)).

Definition __exit__ : act setter exn unit :=
  let! p := gets preserved in __call__ p.

(** [with temporary_replication_strategy_setter(node) as setter]: the body calls it. *)
Definition with_setter (calls : list (list (string * strategy))) (w : W) : W * outcome exn unit :=
  let '(st, r) := try_finally (for_each calls __call__) __exit__ (Setter w []) in (node st, r).

(** *** [DataCenterTopologyRfControl] *)
Context (time : act W exn Z) (sleep : Z → act W exn unit).
Context (read_node_datacenter : act W exn (option string)).

Definition is_system_keyspace (keyspace : string) : bool :=
  startswith "system" keyspace || startswith "alternator_usertable" keyspace || startswith "audit" keyspace.

Definition DATACENTER_RESOLVE_RETRY_TIMEOUT : Z := 10.
Definition DATACENTER_RESOLVE_RETRY_STEP : Z := 2.

Definition read_datacenter : act W exn string :=
  let! dc := read_node_datacenter in
  match dc with
  | Some d => if truthy d then ret d else raise RetryException
  | None => raise RetryException
  end.

Definition is_retry (x : exn) : bool := match x with RetryException => true | _ => false end.

(** Five tries, so six rounds of the loop; the inner [None] is a datacenter not resolved. *)
Definition _resolve_datacenter : act W exn (option (option string)) :=
  let n := Z.max (DATACENTER_RESOLVE_RETRY_TIMEOUT / DATACENTER_RESOLVE_RETRY_STEP) 2 in
  Retry.inner time sleep (Retry.__init__ n DATACENTER_RESOLVE_RETRY_STEP is_retry 0 false) read_datacenter (S (Z.to_nat n)).

(** What [__init__] found. *)
Record control := Control { datacenter : option string; original_nodes_number : Z; data_nodes : nat }.

Fixpoint matching_keyspaces (c : control) (dc : string) (rows : list (string * list (string * string)))
    : outcome exn (list string) :=
  match rows with
  | [] => Ok []
  | (keyspace_name, replication) :: rest =>
    if is_system_keyspace keyspace_name then matching_keyspaces c dc rest
    else
      match dict_get "class" replication with
      | None => Err KeyError
      | Some cls =>
        if contains "SimpleStrategy" cls then matching_keyspaces c dc rest
        else if contains "NetworkTopologyStrategy" cls then
          match dict_get dc replication with
          | None => matching_keyspaces c dc rest
          | Some rf =>
            match py_int rf with
            | None => Err ValueError
            | Some n =>
              try! l := matching_keyspaces c dc rest in
              Ok (if (n =? original_nodes_number c)%Z then keyspace_name :: l else l)
            end
          end
        else matching_keyspaces c dc rest
      end
  end.

Definition _get_keyspaces_to_decrease_rf (c : control) : act W exn (list string) :=
  match datacenter c with
  | Some dc =>
    if truthy dc then let! rows := select_keyspaces database_ in λ w, (w, matching_keyspaces c dc rows)
    else raise DatacenterNotResolvedError
  | None => raise DatacenterNotResolvedError
  end.

(** A datacenter not resolved never gets here. *)
Definition _alter_keyspace_rf (c : control) (keyspace : string) (replication_factor : Z) : act W exn unit :=
  let! s := get keyspace in
  match s with
  | NetworkTopologyReplicationStrategy per_dc =>
    apply (NetworkTopologyReplicationStrategy (dict_set (default EmptyString (datacenter c)) (LInt replication_factor) per_dc)) keyspace
  | _ => raise AttributeError
  end.

(** The database with [decreased_rf_keyspaces]. *)
Record rf_state := RfState { rf_db : W; decreased_rf_keyspaces : list string }.

Definition on_db {A} (m : act W exn A) : act rf_state exn A :=
  λ st, let '(w, r) := m (rf_db st) in (RfState w (decreased_rf_keyspaces st), r).

(** [wait_balanced] waits for the tablets of the node given, if one is. *)
Definition revert_to_original_keyspaces_rf (c : control) (wait_balanced : option (act W exn unit)) : act rf_state exn unit :=
  let! l := gets decreased_rf_keyspaces in
  for_each l (λ keyspace,
    if (data_nodes c =? 0)%nat then raise IndexError
    else on_db (_alter_keyspace_rf c keyspace (original_nodes_number c))) ;;;
  match wait_balanced with Some m => on_db m | None => ret tt end.

Definition decrease_keyspaces_rf (c : control) : act rf_state exn unit :=
  if (1 <? original_nodes_number c)%Z then
    let! to_decrease := on_db (_get_keyspaces_to_decrease_rf c) in
    try_except is_exception
      (for_each to_decrease (λ keyspace,
         on_db (_alter_keyspace_rf c keyspace (original_nodes_number c - 1)) ;;;
         modify (λ st, RfState (rf_db st) (decreased_rf_keyspaces st ++ [keyspace]))))
      (λ error, revert_to_original_keyspaces_rf c None ;;; raise error)
  else ret tt.
End Operations.

(** ** What a database promises *)

(** A strategy as the database describes it: the full class name, numbers between quotes. *)
Definition described_literal (v : literal) : string :=
  match v with
  | LInt z => repr_str (str_Z z)
  | LStr s => repr_str s
  | LList _ => str_literal v
  end.
Definition locator (s : strategy) : string := "org.apache.cassandra.locator." +:+ class_ s.
Definition described (s : strategy) : string :=
  render_dict (("class", repr_str (locator s)) :: (prod_map id described_literal <$> items s)).

(** What [get] makes of it. *)
Definition quoted_literal (v : literal) : literal := match v with LInt z => LStr (str_Z z) | _ => v end.
Definition quoted (s : strategy) : strategy :=
  match s with
  | SimpleReplicationStrategy rf => SimpleReplicationStrategy (quoted_literal rf)
  | NetworkTopologyReplicationStrategy per_dc => NetworkTopologyReplicationStrategy (prod_map id quoted_literal <$> per_dc)
  | LocalReplicationStrategy => LocalReplicationStrategy
  end.

(** A row of [system_schema.keyspaces]: a map from texts to texts. *)
Definition row_literal (v : literal) : string := str_literal v.
Definition row (ks : string) (s : strategy) : string * list (string * string) :=
  (ks, ("class", locator s) :: (prod_map id row_literal <$> items s)).

(** Every request may fail. A description that is given shows what is stored; an [ALTER] that
    succeeds stores the strategy, and one that fails may have done so; waiting for the schema
    agreement and reading rows change nothing. *)
Class CqlServer {W : Type} (db : database W) := {
  stored : W → gmap string strategy;
  describe_stored : ∀ w ks, ∃ w' r, describe db (cql_quote_if_needed ks) w = (w', r) ∧ stored w' = stored w ∧
    match r with
    | Err _ => True
    | Ok lines => ∃ s first pre post rest, stored w !! ks = Some s ∧
        lines = first :: (pre +:+ "replication = " +:+ described s +:+ post) :: rest ∧
        all_chars (λ c, negb (is_newline c)) pre = true ∧ match_line post = None
    end;
  alter_stores : ∀ w ks s, valid s → ∃ w' r, alter_keyspace db (cql_quote_if_needed ks) (str_strategy s) w = (w', r) ∧
    (is_Some (stored w !! ks) ∧ stored w' = <[ks := norm s]> (stored w) ∨ r ≠ Ok tt ∧ stored w' = stored w);
  agreement_reads : ∀ w, stored (wait_for_schema_agreement db w).1 = stored w;
  rows_stored : ∀ w, ∃ w' r, select_keyspaces db w = (w', r) ∧ stored w' = stored w ∧
    match r with
    | Err _ => True
    | Ok rows => ∃ l, rows = (λ p : string * strategy, row p.1 p.2) <$> l ∧ l ≡ₚ map_to_list (stored w)
    end;
}.

(** A server whose requests fail only for a keyspace there is none of. *)
Class ReliableServer {W : Type} (db : database W) `{!CqlServer db} := {
  describe_answers : ∀ w ks, is_Some (stored w !! ks) → ∃ lines, (describe db (cql_quote_if_needed ks) w).2 = Ok lines;
  alter_answers : ∀ w ks s, valid s →
    (alter_keyspace db (cql_quote_if_needed ks) (str_strategy s) w).2 = match stored w !! ks with Some _ => Ok tt | None => Err InvalidRequest end;
  agreement_reached : ∀ w, (wait_for_schema_agreement db w).2 = Ok tt;
}.

(** What is stored is well formed, with its numbers as numbers. *)
Definition stored_ok {W} {db : database W} `{!CqlServer db} (w : W) : Prop :=
  map_Forall (λ _ s, valid s ∧ norm s = s) (stored w).

(** *** Normal forms *)
Lemma norm_rf_ok v : rf_ok v → rf_ok (norm_literal v) ∧ norm_literal (norm_literal v) = norm_literal v.
Proof.
  destruct v as [z|s|l]; simpl; [done| |done]. intros (z & Hz & ->). rewrite py_int_str_Z. done.
Qed.

Lemma quoted_rf_ok v : rf_ok v → rf_ok (quoted_literal v) ∧ norm_literal (quoted_literal v) = norm_literal v.
Proof.
  destruct v as [z|s|l]; simpl; [|done|done]. intros Hz. rewrite py_int_str_Z. split; [by exists z|done].
Qed.

(** A map on the factors keeps validity when it keeps the factors good. *)
Lemma dc_ok_map (f : literal → literal) per_dc :
  (∀ v, rf_ok v → rf_ok (f v)) → Forall dc_ok per_dc → Forall dc_ok (prod_map id f <$> per_dc).
Proof.
  intros Hf H. apply Forall_fmap. eapply Forall_impl; [exact H|]. intros [k v] (H1 & H2 & H3). split_and!; [done|done|by apply Hf].
Qed.

Lemma valid_norm s : valid s → valid (norm s) ∧ norm (norm s) = norm s.
Proof.
  destruct s as [rf|per_dc|]; cbn [valid norm]; [|intros (Hne & Hnd & Hok)|done].
  - intros [H ->]%norm_rf_ok. done.
  - split.
    + split_and!; [by destruct per_dc|by rewrite fmap_fst_map|]. apply dc_ok_map; [|done]. intros v Hv. by apply norm_rf_ok.
    + f_equal. rewrite <-list_fmap_compose. apply list_fmap_ext. intros i [k v] Hi. unfold compose. cbn [prod_map id fst snd].
      f_equal. rewrite Forall_forall in Hok. apply norm_rf_ok. by apply (Hok (k, v)), (list_elem_of_lookup_2 _ i).
Qed.

Lemma valid_quoted s : valid s → valid (quoted s) ∧ norm (quoted s) = norm s.
Proof.
  destruct s as [rf|per_dc|]; cbn [valid norm quoted]; [|intros (Hne & Hnd & Hok)|done].
  - intros [H ->]%quoted_rf_ok. done.
  - split.
    + split_and!; [by destruct per_dc|by rewrite fmap_fst_map|]. apply dc_ok_map; [|done]. intros v Hv. by apply quoted_rf_ok.
    + f_equal. rewrite <-list_fmap_compose. apply list_fmap_ext. intros i [k v] Hi. unfold compose. cbn [prod_map id fst snd].
      f_equal. rewrite Forall_forall in Hok. apply quoted_rf_ok. by apply (Hok (k, v)), (list_elem_of_lookup_2 _ i).
Qed.

Lemma described_text v : rf_ok v → value_text (quoted_literal v) (described_literal v) ∧ flat (described_literal v) = true.
Proof.
  assert (∀ z, (0 <= z)%Z → flat (repr_str (str_Z z)) = true) as Hz.
  { intros z Hz. apply clean_repr_flat. unfold clean. rewrite str_Z_flat, andb_true_r by done.
    pose proof (str_Z_digits z Hz) as [_ H]%andb_true_iff. clear Hz. revert H. generalize (str_Z z) as s.
    induction s as [|c s IH]; [done|]. cbn [all_chars plain]. intros [Hc Hs]%andb_true_iff. rewrite IH, andb_true_r by done.
    destruct c as [[] [] [] [] [] [] [] []]; vm_compute in Hc |- *; done. }
  destruct v as [z|s|l]; simpl.
  - intros H. split; [apply value_text_repr|by apply Hz].
  - intros (z & H & ->). split; [apply value_text_repr|by apply Hz].
  - intros H. apply (rf_text (LList l)). done.
Qed.

(** What the database describes is read as [quoted]. *)
Lemma from_described pre post s :
  valid s → all_chars (λ c, negb (is_newline c)) pre = true → match_line post = None →
  from_string (pre +:+ "replication = " +:+ described s +:+ post) = Ok (quoted s).
Proof.
  intros Hv Hpre Hpost. unfold described.
  rewrite (from_printed pre post _ s quoted_literal); [by destruct s|done|done|done|by right|]. apply described_text.
Qed.

(** ** What the operations do, whether or not a request fails *)
Section Requests.
Context {W : Type} (db : database W) `{!CqlServer db}.

Lemma get_reads ks w :
  stored_ok w → ∃ w' r, get db ks w = (w', r) ∧ stored w' = stored w ∧
    ∀ s', r = Ok s' → ∃ s, stored w !! ks = Some s ∧ s' = quoted s.
Proof.
  intros Hok. destruct (describe_stored w ks) as (w' & r & Hd & Hw' & Hr). unfold get, bind. rewrite Hd.
  destruct r as [lines|x]; [|by eexists w', _].
  destruct Hr as (s & first & pre & post & rest & Hs & -> & Hpre & Hpost). cbn [lookup list_lookup].
  exists w', (Ok (quoted s)). rewrite from_described; [|by apply (Hok ks)|done|done]. split_and!; [done..|].
  intros s' [= <-]. by exists s.
Qed.

Lemma apply_writes ks s w :
  valid s → ∃ w' r, apply db s ks w = (w', r) ∧
    (is_Some (stored w !! ks) ∧ stored w' = <[ks := norm s]> (stored w) ∨ r ≠ Ok tt ∧ stored w' = stored w).
Proof.
  intros Hv. destruct (alter_stores w ks s Hv) as (w1 & r & Ha & Hst). unfold apply, bind. rewrite Ha.
  destruct r as [[]|x]; [|exists w1, (Err x); split; [done|]; destruct Hst as [?|[_ ?]]; [by left|by right]].
  destruct Hst as [Hst|[Hne _]]; [|done]. pose proof (agreement_reads w1) as Hag.
  destruct (wait_for_schema_agreement db w1) as [w2 r2]. exists w2, r2. split; [done|]. left. cbn [fst] in Hag. by rewrite Hag.
Qed.
End Requests.

(** ** Setting a strategy for a while *)
Section Setter.
Context {W : Type} (db : database W) `{!CqlServer db, !ReliableServer db}.

Lemma get_stored ks s w :
  stored_ok w → stored w !! ks = Some s → ∃ w', get db ks w = (w', Ok (quoted s)) ∧ stored w' = stored w.
Proof using Type*.
  intros Hok Hs. destruct (get_reads db ks w Hok) as (w' & r & Hg & Hw' & Hr). exists w'. split; [|done]. rewrite Hg. f_equal.
  destruct r as [s'|x]; [destruct (Hr s' eq_refl) as (s0 & Hs0 & ->); congruence|]. exfalso.
  destruct (describe_stored w ks) as (w1 & r1 & Hd & _ & Hr1). destruct (describe_answers w ks) as [lines Hl]; [by rewrite Hs|].
  rewrite Hd in Hl. cbn [snd] in Hl. subst r1. destruct Hr1 as (s1 & first & pre & post & rest & Hs1 & -> & Hpre & Hpost).
  revert Hg. unfold get, bind. rewrite Hd. cbn [lookup list_lookup].
  rewrite from_described; [done|by apply (Hok ks)|done|done].
Qed.

Lemma get_missing ks w : stored_ok w → stored w !! ks = None → ∃ w' x, get db ks w = (w', Err x) ∧ stored w' = stored w.
Proof using Type*.
  intros Hok Hs. destruct (get_reads db ks w Hok) as (w' & [s'|x] & Hg & Hw' & Hr); [|by exists w', x].
  destruct (Hr s' eq_refl) as (s0 & Hs0 & _). congruence.
Qed.

Lemma apply_answers ks s w :
  valid s → (apply db s ks w).2 = match stored w !! ks with Some _ => Ok tt | None => Err InvalidRequest end.
Proof using Type*.
  intros Hv. pose proof (alter_answers w ks s Hv) as Ha. unfold apply, bind.
  destruct (alter_keyspace db _ _ w) as [w1 r]. cbn [snd] in Ha. subst r.
  destruct (stored w !! ks); [apply agreement_reached|done].
Qed.

Lemma apply_stored ks s0 s w :
  valid s → stored w !! ks = Some s0 → ∃ w', apply db s ks w = (w', Ok tt) ∧ stored w' = <[ks := norm s]> (stored w).
Proof using Type*.
  intros Hv Hs. pose proof (apply_answers ks s w Hv) as Ha. rewrite Hs in Ha.
  destruct (apply_writes db ks s w Hv) as (w' & r & E & [[_ H]|[H _]]); rewrite E in Ha; cbn [snd] in Ha; subst r; [by exists w'|done].
Qed.

Lemma apply_missing ks s w :
  valid s → stored w !! ks = None → ∃ w', apply db s ks w = (w', Err InvalidRequest) ∧ stored w' = stored w.
Proof using Type*.
  intros Hv Hs. pose proof (apply_answers ks s w Hv) as Ha. rewrite Hs in Ha.
  destruct (apply_writes db ks s w Hv) as (w' & r & E & H); rewrite E in Ha; cbn [snd] in Ha; subst r.
  exists w'. split; [done|]. destruct H as [[[? Hk] _]|[_ H]]; [congruence|done].
Qed.

(** What is known while the setter is in use, [O] being what was stored before. *)
Record setting (O : gmap string strategy) (st : setter (W := W)) : Prop := {
  setting_ok : stored_ok (node st);
  setting_dom : ∀ ks, is_Some (stored (node st) !! ks) ↔ is_Some (O !! ks);
  setting_preserved : ∀ ks s, dict_get ks (preserved st) = Some s → valid s ∧ O !! ks = Some (norm s);
  setting_others : ∀ ks, dict_get ks (preserved st) = None → stored (node st) !! ks = O !! ks;
  setting_wf : dict_wf (preserved st);
}.

Lemma preserve_keeps O ks : keeps_state (setting O) (_preserve_replication_strategy db ks).
Proof using Type*.
  intros st Hst. unfold _preserve_replication_strategy, bind, gets, on_node, dict_in, modify.
  destruct (dict_get ks (preserved st)) as [s|] eqn:Ep; [done|]. rewrite bool_decide_eq_false_2 by (by intros [? ?]).
  destruct (stored (node st) !! ks) as [s|] eqn:Es.
  - destruct (get_stored ks s (node st)) as (w' & -> & Hw'); [apply Hst|done|]. cbn [fst node preserved].
    destruct (setting_ok _ _ Hst ks s Es) as [Hv Hn]. destruct (valid_quoted s Hv) as [Hqv Hqn].
    constructor; cbn [node preserved].
    + unfold stored_ok. rewrite Hw'. apply Hst.
    + intros ks'. rewrite Hw'. apply Hst.
    + intros ks' s'. rewrite dict_get_set. case_decide as Hd; [|apply Hst]. intros [= <-]. subst ks'.
      split; [done|]. by rewrite <-(setting_others _ _ Hst ks Ep), Hqn, Hn.
    + intros ks'. rewrite dict_get_set. case_decide; [done|]. rewrite Hw'. apply Hst.
    + apply dict_set_wf, Hst.
  - destruct (get_missing ks (node st) (setting_ok _ _ Hst) Es) as (w' & x & -> & Hw'). cbn [fst].
    destruct Hst. constructor; cbn [node preserved]; unfold stored_ok in *; try setoid_rewrite Hw'; done.
Qed.

(** After a preservation that returned, the keyspace is preserved. *)
Lemma preserve_preserves ks st st' :
  _preserve_replication_strategy db ks st = (st', Ok tt) → is_Some (dict_get ks (preserved st')).
Proof using Type*.
  unfold _preserve_replication_strategy, bind, gets, on_node, dict_in. case_bool_decide as Hin.
  { by intros [= <-]. }
  destruct (get db ks (node st)) as [w' [s|x]]; [|done]. intros [= <-]. cbn [preserved]. rewrite dict_get_set, decide_True by done.
  by eexists.
Qed.

Lemma apply_keeps O ks s st :
  valid s → is_Some (dict_get ks (preserved st)) → setting O st → setting O (on_node (apply db s ks) st).1.
Proof using Type*.
  intros Hv [s0 Hp] Hst. unfold on_node. destruct (valid_norm s Hv) as [Hvn Hnn].
  destruct (stored (node st) !! ks) as [s1|] eqn:Es.
  - destruct (apply_stored ks s1 s (node st) Hv Es) as (w' & -> & Hw'). cbn [fst].
    constructor; cbn [node preserved].
    + unfold stored_ok. rewrite Hw'. apply map_Forall_insert_2; [done|apply Hst].
    + intros ks'. rewrite Hw', <-(setting_dom _ _ Hst ks'). destruct (decide (ks = ks')) as [<-|Hne].
      * rewrite lookup_insert_eq, Es. done.
      * by rewrite lookup_insert_ne.
    + apply Hst.
    + intros ks' Hk'. rewrite Hw', lookup_insert_ne by congruence. by apply Hst.
    + apply Hst.
  - destruct (apply_missing ks s (node st) Hv Es) as (w' & -> & Hw'). cbn [fst].
    destruct Hst. constructor; cbn [node preserved]; unfold stored_ok in *; try setoid_rewrite Hw'; done.
Qed.

Lemma call_keeps O l : Forall (λ p, valid p.2) l → keeps_state (setting O) (__call__ db l).
Proof using Type*.
  intros Hl. unfold __call__. induction Hl as [|[ks s] l Hv Hl IH]; [apply keeps_state_ret|]. cbn [for_each].
  apply keeps_state_bind; [|intros _; exact IH]. apply keeps_state_try; [|intros _; apply keeps_state_ret].
  intros st Hst. pose proof (preserve_keeps O ks st Hst) as H1. unfold bind. cbn [fst snd].
  pose proof (preserve_preserves ks st) as Hp.
  destruct (_preserve_replication_strategy db ks st) as [st1 [[]|x]]; [|done].
  apply apply_keeps; [done|by apply Hp|done].
Qed.

(** Applying preserved strategies puts back what was there. *)
Lemma call_restores O l st :
  setting O st → (∀ ks s, (ks, s) ∈ l → dict_get ks (preserved st) = Some s) →
  ∃ st', __call__ db l st = (st', Ok tt) ∧ setting O st' ∧ preserved st' = preserved st ∧
    ∀ ks, ks ∈ l.*1 ∨ stored (node st) !! ks = O !! ks → stored (node st') !! ks = O !! ks.
Proof using Type*.
  revert st. induction l as [|[ks s] l IH]; intros st Hst Hl.
  { exists st. split_and!; [done|done|done|]. intros ks [Hin|?]; [inversion Hin|done]. }
  pose proof (Hl ks s (list_elem_of_here _ _)) as Hp. destruct (setting_preserved _ _ Hst ks s Hp) as [Hv HO].
  destruct (proj2 (setting_dom _ _ Hst ks)) as [s1 Hs1]; [by rewrite HO|].
  destruct (apply_stored ks s1 s (node st) Hv Hs1) as (w1 & Ha & Hw1).
  set (st1 := Setter w1 (preserved st)).
  assert (setting O st1) as Hst1.
  { pose proof (apply_keeps O ks s st Hv (ex_intro _ s Hp) Hst) as H. unfold on_node in H. by rewrite Ha in H. }
  destruct (IH st1 Hst1) as (st' & Hc & Hst' & Hpr & Hr); [intros ks' s' ?; apply Hl; by constructor|].
  exists st'. split_and!; [|done|done|].
  - unfold __call__ in *. cbn [for_each fst snd]. unfold bind at 1, try_except, bind at 1.
    unfold _preserve_replication_strategy, bind, gets, dict_in. rewrite bool_decide_eq_true_2 by (by rewrite Hp).
    unfold ret at 1, on_node. rewrite Ha. exact Hc.
  - intros ks' Hk'. apply Hr. cbn [node st1]. rewrite Hw1. destruct (decide (ks = ks')) as [<-|Hne].
    + right. by rewrite lookup_insert_eq.
    + rewrite lookup_insert_ne by done. destruct Hk' as [Hin|?]; [|by right]. left. simpl in Hin.
      inversion Hin; [congruence|done].
Qed.

(** A strategy set for a while is undone: whatever keyspaces the body of the context
    manager changes, repeatedly or not, existing or not, and however it ends, when the
    context is left every keyspace has the replication strategy it had at the start; leaving
    raises nothing of its own, so that the body's exception, if any, is what is seen. *)
Theorem setter_restores calls w :
  stored_ok w → Forall (Forall (λ p : string * strategy, valid p.2)) calls →
  let '(w', r) := with_setter db calls w in
  stored w' = stored w ∧ r = (for_each calls (__call__ db) (Setter w [])).2.
Proof using Type*.
  intros Hok Hcalls. unfold with_setter, try_finally.
  assert (setting (stored w) (Setter w [])) as H0 by (by constructor; [..|constructor]).
  assert (setting (stored w) (for_each calls (__call__ db) (Setter w [])).1) as H1.
  { revert H0. generalize (Setter w []) as st. generalize (stored w) as O. intros O.
    assert (keeps_state (setting O) (for_each calls (__call__ db))) as Hk; [|exact Hk].
    induction Hcalls as [|l calls Hl Hcalls IH]; [apply keeps_state_ret|]. cbn [for_each].
    apply keeps_state_bind; [by apply call_keeps|intros _; exact IH]. }
  destruct (for_each calls (__call__ db) (Setter w [])) as [st r]. cbn [fst snd] in *.
  destruct (call_restores (stored w) (preserved st) st H1) as (st' & Hc & Hst' & Hpr & Hr).
  { intros ks s Hin. apply dict_elem_get; [apply H1|done]. }
  unfold __exit__, bind, gets. rewrite Hc. cbn [node]. split; [|done].
  apply map_eq. intros ks. apply Hr. destruct (dict_get ks (preserved st)) as [s|] eqn:E.
  - left. apply dict_get_elem in E. by apply (list_elem_of_fmap_2 fst) in E.
  - right. by apply (setting_others _ _ H1).
Qed.
End Setter.

(** ** Lowering replication factors *)
Lemma dict_set_back {V} k (v v' : V) (d : list (string * V)) :
  dict_get k d = Some v → dict_set k v (dict_set k v' d) = d.
Proof.
  induction d as [|[k1 v1] d IH]; [done|]. cbn [dict_get dict_set]. case_decide as Hk.
  - intros [= ->]. cbn [dict_set]. by rewrite decide_True.
  - intros H. cbn [dict_set]. rewrite decide_False by done. by rewrite IH.
Qed.

Lemma dict_set_fmap {V V'} (f : V → V') k v (d : list (string * V)) :
  prod_map id f <$> dict_set k v d = dict_set k (f v) (prod_map id f <$> d).
Proof.
  induction d as [|[k1 v1] d IH]; [done|]. cbn [dict_set fmap list_fmap prod_map id fst snd].
  case_decide; cbn [fmap list_fmap prod_map id fst snd]; [done|]. f_equal. exact IH.
Qed.

Lemma foldl_alter_lookup {V} (f : V → V) (l : list string) (m : gmap string V) k :
  NoDup l → foldl (λ m k, partial_alter (fmap f) k m) m l !! k = if decide (k ∈ l) then f <$> m !! k else m !! k.
Proof.
  revert m. induction l as [|k1 l IH]; intros m Hnd; [done|]. apply NoDup_cons in Hnd as [Hk1 Hnd]. cbn [foldl].
  rewrite IH by done. destruct (decide (k = k1)) as [->|Hne].
  - rewrite decide_False, decide_True, lookup_partial_alter_eq by (done || constructor). done.
  - rewrite lookup_partial_alter_ne by done. destruct (decide (k ∈ l)) as [Hin|Hin].
    + rewrite decide_True by (by constructor). done.
    + rewrite decide_False; [done|]. intros Hc. inversion Hc; congruence.
Qed.

(** A list of racks is no number. *)
Lemma py_int_list l : py_int (str_literal (LList l)) = None.
Proof.
  cbn [str_literal]. set (x := join ", " (repr_str <$> l)). change ("[" +:+ x +:+ "]") with (String "[" (x +:+ "]")).
  unfold py_int. assert (strip (String "[" (x +:+ "]")) = String "[" (x +:+ "]")) as ->; [|done].
  unfold strip, rstrip. change (lstrip (String "[" (x +:+ "]"))) with (String "[" (x +:+ "]")).
  rewrite str_rev_cons, str_rev_app. change (drop_while is_space ((str_rev "]" +:+ ?a) +:+ ?b)) with ((str_rev "]" +:+ a) +:+ b).
  by rewrite <-str_rev_app, <-str_rev_cons, str_rev_involutive.
Qed.

Definition set_rf (dc : string) (n : Z) (s : strategy) : strategy :=
  match s with
  | NetworkTopologyReplicationStrategy per_dc => NetworkTopologyReplicationStrategy (dict_set dc (LInt n) per_dc)
  | _ => s
  end.

(** A keyspace of the user with factor [n] in the datacenter. *)
Definition has_rf (dc : string) (n : Z) (ks : string) (s : strategy) : Prop :=
  is_system_keyspace ks = false ∧
  ∃ per_dc, s = NetworkTopologyReplicationStrategy per_dc ∧ dict_get dc per_dc = Some (LInt n).

#[local] Instance has_rf_dec dc n ks s : Decision (has_rf dc n ks s).
Proof.
  destruct (is_system_keyspace ks) eqn:E; [right; intros [? _]; congruence|].
  destruct s as [rf|per_dc|]; [right; by intros (_ & ? & ? & _)| |right; by intros (_ & ? & ? & _)].
  destruct (dict_get dc per_dc) as [[z| |]|] eqn:Eg; [|right; intros (_ & p & [= <-] & H); congruence..].
  destruct (decide (z = n)) as [->|Hne]; [left|right].
  - split; [done|]. by exists per_dc.
  - intros (_ & p & [= <-] & H). congruence.
Defined.

Lemma row_factor dc per_dc :
  dc ≠ "class" →
  dict_get dc (row EmptyString (NetworkTopologyReplicationStrategy per_dc)).2 = row_literal <$> dict_get dc per_dc.
Proof.
  intros Hdc. unfold row. cbn [snd items dict_get]. rewrite decide_False by done.
  induction per_dc as [|[k v] d IH]; [done|]. cbn [fmap list_fmap dict_get prod_map id fst snd]. by case_decide.
Qed.

Lemma norm_fixed (per_dc : list (string * literal)) k v : prod_map id norm_literal <$> per_dc = per_dc → (k, v) ∈ per_dc → norm_literal v = v.
Proof.
  intros Hn [i Hi]%list_elem_of_lookup. pose proof (f_equal (lookup i) Hn) as H. rewrite list_lookup_fmap, Hi in H.
  by injection H.
Qed.

(** The query selects exactly the keyspaces with the factor, or fails. *)
Lemma matching_rows c dc l :
  dc ≠ "class" → Forall (λ p : string * strategy, valid p.2 ∧ norm p.2 = p.2) l →
  match matching_keyspaces c dc ((λ p, row p.1 p.2) <$> l) with
  | Ok ks => ks = (filter (λ p, has_rf dc (original_nodes_number c) p.1 p.2) l).*1
  | Err _ => True
  end.
Proof.
  intros Hdc Hl. induction Hl as [|[ks s] l [Hv Hn] Hl IH]; [done|].
  cbn [fmap list_fmap matching_keyspaces fst snd]. unfold row at 1. rewrite filter_cons. cbn [fst snd] in *.
  destruct (is_system_keyspace ks) eqn:Esys.
  { rewrite decide_False by (intros [? _]; congruence). exact IH. }
  cbn [dict_get]. rewrite decide_True by done. destruct s as [rf|per_dc|].
  - change (contains "SimpleStrategy" _) with true. cbn iota. rewrite decide_False by (by intros (_ & ? & ? & _)). exact IH.
  - change (contains "SimpleStrategy" _) with false. change (contains "NetworkTopologyStrategy" _) with true. cbn iota.
    pose proof (row_factor dc per_dc Hdc) as Hrow. unfold row in Hrow. cbn [snd dict_get] in Hrow. rewrite Hrow.
    destruct (dict_get dc per_dc) as [v|] eqn:Eg; cbn [fmap option_fmap option_map].
    2:{ rewrite decide_False by (intros (_ & p & [= <-] & ?); congruence). exact IH. }
    destruct v as [z|t|r]; unfold row_literal.
    + cbn [str_literal]. rewrite py_int_str_Z. destruct (matching_keyspaces c dc _) as [ks'|]; [|done]. subst ks'.
      destruct (Z.eqb_spec z (original_nodes_number c)) as [->|Hne].
      * rewrite decide_True by (split; [done|by exists per_dc]). done.
      * rewrite decide_False by (intros (_ & p & [= <-] & ?); congruence). done.
    + exfalso. injection Hn as Hn. apply dict_get_elem in Eg. destruct Hv as (_ & _ & Hok). rewrite Forall_forall in Hok.
      destruct (Hok _ Eg) as (_ & _ & z & Hz & Ht). cbn [snd] in Ht. subst t.
      apply (norm_fixed _ _ _ Hn) in Eg. cbn [norm_literal] in Eg. by rewrite py_int_str_Z in Eg.
    + by rewrite py_int_list.
  - change (contains "SimpleStrategy" _) with false. change (contains "NetworkTopologyStrategy" _) with false. cbn iota.
    rewrite decide_False by (by intros (_ & ? & ? & _)). exact IH.
Qed.

Section RfControl.
Context {W : Type} (db : database W) `{!CqlServer db}.
Context (c : control) (dc : string).
Hypothesis dc_resolved : datacenter c = Some dc.
Hypothesis dc_clean : clean dc = true ∧ dc ∉ ["class"; "default_rf"; "self"].

Notation lookup_nt w ks := (∃ per_dc, stored w !! ks = Some (NetworkTopologyReplicationStrategy per_dc)).
Notation set_all n l m := (foldl (λ acc k, partial_alter (fmap (set_rf dc n)) k acc) m l).

Lemma alter_rf ks n w :
  stored_ok w → (0 <= n)%Z → lookup_nt w ks →
  ∃ w' r, _alter_keyspace_rf db c ks n w = (w', r) ∧ stored_ok w' ∧
    (stored w' = partial_alter (fmap (set_rf dc n)) ks (stored w) ∨ r ≠ Ok tt ∧ stored w' = stored w).
Proof using dc_resolved dc_clean.
  intros Hok Hn [per_dc Hs]. unfold _alter_keyspace_rf, bind. rewrite dc_resolved.
  destruct (get_reads db ks w Hok) as (w1 & r1 & -> & Hw1 & Hr1).
  assert (stored_ok w1) as Hok1 by (unfold stored_ok; by rewrite Hw1).
  destruct r1 as [s'|x]; [|exists w1, (Err x); split_and!; [done|done|by right]].
  destruct (Hr1 s' eq_refl) as (s0 & Hs0 & ->). rewrite Hs in Hs0. injection Hs0 as <-.
  destruct (Hok ks _ Hs) as [Hv Hnorm]. destruct (valid_quoted _ Hv) as [Hqv Hqn]. cbn [quoted] in *.
  set (per_dc' := prod_map id quoted_literal <$> per_dc) in *.
  assert (valid (NetworkTopologyReplicationStrategy (dict_set dc (LInt n) per_dc'))) as Hv'.
  { destruct Hqv as (Hne & Hnd & Hokq). split_and!.
    - destruct per_dc' as [|[k v] d]; [done|]. cbn [dict_set]. by case_decide.
    - by apply dict_set_wf.
    - apply dict_set_Forall; [done|]. destruct dc_clean. done. }
  destruct (apply_writes db ks _ w1 Hv') as (w2 & r2 & Ha & Hst). cbn [default]. exists w2, r2. split; [exact Ha|].
  destruct Hst as [[_ Hw2]|[Hne Hw2]]; (split; [unfold stored_ok; rewrite Hw2|]); [| |done|right; by rewrite Hw2].
  - rewrite Hw1. apply map_Forall_insert_2; [|done]. by apply valid_norm.
  - left. rewrite Hw2, Hw1. apply map_eq. intros k. destruct (decide (k = ks)) as [->|Hne].
    + rewrite lookup_insert_eq, lookup_partial_alter_eq, Hs. cbn [fmap option_fmap option_map set_rf norm].
      rewrite dict_set_fmap. do 3 f_equal. injection Hqn as Hqn. injection Hnorm as Hnorm. by rewrite Hqn.
    + by rewrite lookup_insert_ne, lookup_partial_alter_ne.
Qed.

(** Changing the factor keeps a keyspace one of [NetworkTopologyStrategy]. *)
Lemma lookup_nt_alter n ks ks' w w' :
  stored w' = partial_alter (fmap (set_rf dc n)) ks (stored w) → lookup_nt w ks' → lookup_nt w' ks'.
Proof.
  intros Hw [per_dc Hs]. rewrite Hw. destruct (decide (ks' = ks)) as [->|Hne].
  - rewrite lookup_partial_alter_eq, Hs. by eexists.
  - rewrite lookup_partial_alter_ne by done. by exists per_dc.
Qed.

Lemma lookup_nt_same w w' ks : stored w' = stored w → lookup_nt w ks → lookup_nt w' ks.
Proof. intros ->. done. Qed.

(** The loop lowers the keyspaces in order and records them; the one at which a request fails is
    not recorded, though it may have been lowered. *)
Lemma decrease_loop n l st :
  (0 <= n)%Z → stored_ok (rf_db st) → Forall (λ ks, lookup_nt (rf_db st) ks) l →
  ∃ st' r, for_each l (λ ks, on_db (_alter_keyspace_rf db c ks n) ;;;
                             modify (λ st, RfState (rf_db st) (decreased_rf_keyspaces st ++ [ks]))) st = (st', r) ∧
    stored_ok (rf_db st') ∧
    match r with
    | Ok _ => decreased_rf_keyspaces st' = (decreased_rf_keyspaces st ++ l)%list ∧ stored (rf_db st') = set_all n l (stored (rf_db st))
    | Err _ => ∃ done_ ks rest, l = (done_ ++ ks :: rest)%list ∧ decreased_rf_keyspaces st' = (decreased_rf_keyspaces st ++ done_)%list ∧
        (stored (rf_db st') = set_all n done_ (stored (rf_db st)) ∨ stored (rf_db st') = set_all n (done_ ++ [ks])%list (stored (rf_db st)))
    end.
Proof using dc_resolved dc_clean.
  intros Hn. revert st. induction l as [|ks l IH]; intros st Hok Hl.
  { exists st, (Ok tt). split_and!; [done|done| |done]. by rewrite (right_id_L [] (++)). }
  apply Forall_cons in Hl as [Hks Hl]. destruct (alter_rf ks n (rf_db st) Hok Hn Hks) as (w1 & r1 & Ha & Hok1 & Hw1).
  cbn [for_each foldl]. unfold bind, on_db. rewrite Ha. destruct r1 as [[]|x].
  2:{ exists (RfState w1 (decreased_rf_keyspaces st)), (Err x). split_and!; [done|done|].
      exists [], ks, l. cbn [rf_db decreased_rf_keyspaces app foldl]. rewrite (right_id_L [] (++)). split_and!; [done|done|].
      destruct Hw1 as [Hw1|[_ Hw1]]; [by right|by left]. }
  destruct Hw1 as [Hw1|[? _]]; [|done]. set (st1 := RfState w1 (decreased_rf_keyspaces st ++ [ks])).
  destruct (IH st1) as (st' & r & Hf & Hok' & Hr); [done| |].
  { eapply Forall_impl; [exact Hl|]. intros ks' Hk'. by eapply lookup_nt_alter. }
  exists st', r. unfold modify. cbn [rf_db decreased_rf_keyspaces]. fold st1. unfold bind, on_db, modify in Hf. rewrite Hf.
  split_and!; [done|done|]. cbn [st1 rf_db decreased_rf_keyspaces] in Hr. rewrite Hw1 in Hr. destruct r as [[]|x].
  - destruct Hr as [-> ->]. by rewrite <- (assoc_L (++)).
  - destruct Hr as (done_ & ks' & rest & -> & -> & Hs). exists (ks :: done_), ks', rest. split_and!; [done| |exact Hs].
    by rewrite <- (assoc_L (++)).
Qed.

(** The loop back sets the factor in a prefix of the keyspaces, all of them when it returns. *)
Lemma revert_loop n l st :
  (0 <= n)%Z → (0 < data_nodes c)%nat → stored_ok (rf_db st) → Forall (λ ks, lookup_nt (rf_db st) ks) l →
  ∃ st' r back rest, for_each l (λ ks, if (data_nodes c =? 0)%nat then raise IndexError
                                       else on_db (_alter_keyspace_rf db c ks n)) st = (st', r) ∧
    decreased_rf_keyspaces st' = decreased_rf_keyspaces st ∧ l = (back ++ rest)%list ∧ (r = Ok tt → rest = []) ∧
    stored (rf_db st') = set_all n back (stored (rf_db st)).
Proof using dc_resolved dc_clean.
  intros Hn Hd. revert st. induction l as [|ks l IH]; intros st Hok Hl.
  { by exists st, (Ok tt), [], []. }
  apply Forall_cons in Hl as [Hks Hl]. destruct (alter_rf ks n (rf_db st) Hok Hn Hks) as (w1 & r1 & Ha & Hok1 & Hw1).
  cbn [for_each]. unfold bind. rewrite (proj2 (Nat.eqb_neq _ _)) in * by lia. unfold on_db at 1. rewrite Ha.
  set (st1 := RfState w1 (decreased_rf_keyspaces st)). destruct r1 as [[]|x].
  2:{ destruct Hw1 as [Hw1|[_ Hw1]]; [exists st1, (Err x), [ks], l|exists st1, (Err x), [], (ks :: l)]; by split_and!. }
  destruct Hw1 as [Hw1|[? _]]; [|done].
  destruct (IH st1) as (st' & r & back & rest & Hf & Hdec & -> & Hr & Hs); [done| |].
  { eapply Forall_impl; [exact Hl|]. intros ks' Hk'. by eapply lookup_nt_alter. }
  exists st', r, (ks :: back), rest. split_and!; [exact Hf|done|done|done|]. cbn [foldl]. rewrite <- Hw1. exact Hs.
Qed.

Notation N := (original_nodes_number c).

(** The keyspaces to lower, when the query answers. *)
Lemma to_decrease w :
  truthy dc = true → stored_ok w →
  ∃ w', stored w' = stored w ∧
    ((∃ x, _get_keyspaces_to_decrease_rf db c w = (w', Err x)) ∨
     ∃ l, _get_keyspaces_to_decrease_rf db c w = (w', Ok l) ∧ NoDup l ∧
       ∀ ks, ks ∈ l ↔ ∃ s, stored w !! ks = Some s ∧ has_rf dc N ks s).
Proof using dc_resolved dc_clean.
  intros Htr Hok. unfold _get_keyspaces_to_decrease_rf. rewrite dc_resolved, Htr.
  destruct (rows_stored w) as (w' & r & Hsel & Hw' & Hr). exists w'. split; [done|]. unfold bind. rewrite Hsel.
  destruct r as [rows|x]; [|left; by eexists]. destruct Hr as (l & -> & Hl).
  assert (dc ≠ "class") as Hne by (intros ->; apply dc_clean; constructor).
  assert (Forall (λ p : string * strategy, valid p.2 ∧ norm p.2 = p.2) l) as Hval.
  { rewrite Hl. apply Forall_forall. intros [ks s] Hin%elem_of_map_to_list. by apply (Hok ks). }
  pose proof (matching_rows c dc l Hne Hval) as Hm. destruct (matching_keyspaces c dc _) as [ks|x]; [right|left; by eexists].
  subst ks. eexists. split; [done|]. split.
  - assert (NoDup l.*1) as Hnd by (rewrite Hl; apply NoDup_fst_map_to_list).
    clear -Hnd. induction l as [|p l IH]; [constructor|]. apply NoDup_cons in Hnd as [Hp Hnd]. rewrite filter_cons.
    case_decide; [|by apply IH]. apply NoDup_cons. split; [|by apply IH]. intros (q & Hq & Hin)%list_elem_of_fmap.
    apply list_elem_of_filter in Hin as [_ Hin]. apply Hp. rewrite Hq. by apply list_elem_of_fmap_2.
  - intros ks. rewrite list_elem_of_fmap. split.
    + intros ([ks' s] & -> & [Hrf Hin]%list_elem_of_filter). rewrite Hl in Hin. apply elem_of_map_to_list in Hin. by exists s.
    + intros (s & Hs & Hrf). exists (ks, s). split; [done|]. apply list_elem_of_filter. split; [done|]. rewrite Hl.
      by apply elem_of_map_to_list.
Qed.

(** The keyspace has its strategy of before, or it had a replica on every node and now has one
    replica less. *)
Definition same_or_lowered (before after : gmap string strategy) (ks : string) : Prop :=
  after !! ks = before !! ks ∨
  ∃ s, before !! ks = Some s ∧ has_rf dc N ks s ∧ after !! ks = Some (set_rf dc (N - 1) s).

(** What is stored after lowering [D] and setting the factor of [R] back. *)
Lemma lowered_lookup (m : gmap string strategy) D R ks :
  NoDup D → NoDup R → (∀ ks, ks ∈ D ∨ ks ∈ R → ∃ s, m !! ks = Some s ∧ has_rf dc N ks s) →
  set_all N R (set_all (N - 1) D m) !! ks =
    if decide (ks ∈ R) then m !! ks else if decide (ks ∈ D) then set_rf dc (N - 1) <$> m !! ks else m !! ks.
Proof.
  intros HD HR Hm. rewrite foldl_alter_lookup by done. rewrite foldl_alter_lookup by done.
  destruct (decide (ks ∈ R)) as [Hin|]; [|done].
  destruct (Hm ks (or_intror Hin)) as (s & -> & _ & per_dc & -> & Hrf).
  destruct (decide (ks ∈ D)); cbn [fmap option_fmap option_map set_rf]; do 2 f_equal; [by apply dict_set_back|].
  clear -Hrf. induction per_dc as [|[k v] d IH]; [done|]. cbn [dict_get dict_set] in *. case_decide; [congruence|]. by rewrite IH.
Qed.

Lemma lowered_same (m : gmap string strategy) D R ks :
  NoDup D → NoDup R → (∀ ks, ks ∈ D ∨ ks ∈ R → ∃ s, m !! ks = Some s ∧ has_rf dc N ks s) →
  same_or_lowered m (set_all N R (set_all (N - 1) D m)) ks.
Proof.
  intros HD HR Hm. unfold same_or_lowered. rewrite lowered_lookup by done.
  destruct (decide (ks ∈ R)); [by left|]. destruct (decide (ks ∈ D)) as [Hin|]; [right|by left].
  destruct (Hm ks (or_introl Hin)) as (s & Hs & Hrf). exists s. by rewrite Hs.
Qed.

(** Reverting, from a state in which the keyspaces [D] are lowered and [l] recorded. *)
Lemma revert_spec w D l st st' r :
  (0 < N)%Z → (0 < data_nodes c)%nat → NoDup D → NoDup l →
  (∀ ks, ks ∈ D ∨ ks ∈ l → ∃ s, stored w !! ks = Some s ∧ has_rf dc N ks s) →
  stored_ok (rf_db st) → stored (rf_db st) = set_all (N - 1) D (stored w) → decreased_rf_keyspaces st = l →
  revert_to_original_keyspaces_rf db c None st = (st', r) →
  (∀ ks, same_or_lowered (stored w) (stored (rf_db st')) ks) ∧
  (r = Ok tt → ∀ ks, ks ∈ l ∨ ks ∉ D → stored (rf_db st') !! ks = stored w !! ks).
Proof using dc_resolved dc_clean.
  intros HN Hd HD Hl Hm Hok Hst Hdec. unfold revert_to_original_keyspaces_rf, bind, gets. rewrite Hdec.
  destruct (revert_loop N l st) as (st1 & r1 & back & rest & -> & _ & -> & Hr & Hs); [lia|done|done| |].
  { apply Forall_forall. intros ks Hin. rewrite Hst, foldl_alter_lookup by done.
    destruct (Hm ks (or_intror Hin)) as (s & -> & _ & p & -> & _). case_decide; by eexists. }
  apply NoDup_app in Hl as (Hnb & _ & _). rewrite Hst in Hs.
  assert (∀ ks, ks ∈ D ∨ ks ∈ back → ∃ s, stored w !! ks = Some s ∧ has_rf dc N ks s) as Hm'.
  { intros ks [?|?]; apply Hm; [by left|right]. apply elem_of_app. by left. }
  destruct r1 as [[]|x]; unfold ret; intros [= <- <-]; rewrite Hs; (split; [intros ks; by apply lowered_same|]); [|done].
  intros _ ks Hks. rewrite (Hr eq_refl), (right_id_L [] (++)) in Hks. rewrite lowered_lookup by done.
  destruct (decide (ks ∈ back)); [done|]. by rewrite decide_False by (destruct Hks; done).
Qed.

(** What lowering does: all recorded, or undone but for the keyspace at which it failed. *)
Lemma decrease_outcome w st r :
  truthy dc = true → stored_ok w → (1 < N)%Z → (0 < data_nodes c)%nat →
  decrease_keyspaces_rf db c (RfState w []) = (st, r) →
  match r with
  | Ok _ => stored_ok (rf_db st) ∧ NoDup (decreased_rf_keyspaces st) ∧
    (∀ ks, ks ∈ decreased_rf_keyspaces st ↔ ∃ s, stored w !! ks = Some s ∧ has_rf dc N ks s) ∧
    stored (rf_db st) = set_all (N - 1) (decreased_rf_keyspaces st) (stored w)
  | Err x => (∀ ks, same_or_lowered (stored w) (stored (rf_db st)) ks) ∧
    (is_exception x = true → stored (rf_db st) = stored w ∨
     ∃ failed st1 y r', (∃ s, stored w !! failed = Some s ∧ has_rf dc N failed s) ∧ failed ∉ decreased_rf_keyspaces st1 ∧
       revert_to_original_keyspaces_rf db c None st1 = (st, r') ∧ x = match r' with Ok _ => y | Err z => z end ∧
       (r' = Ok tt → ∀ ks, ks ≠ failed → stored (rf_db st) !! ks = stored w !! ks))
  end.
Proof using dc_resolved dc_clean.
  intros Htr Hok HN Hd. unfold decrease_keyspaces_rf. rewrite (proj2 (Z.ltb_lt 1 N)) by done. unfold bind at 1, on_db at 1. cbn [rf_db].
  destruct (to_decrease w Htr Hok) as (w1 & Hw1 & [[x ->]|(l & -> & Hnd & Hl)]).
  { intros [= <- <-]. cbn [rf_db]. rewrite Hw1. split; [intros ks; by left|by left]. }
  cbn [decreased_rf_keyspaces]. unfold try_except.
  assert (Forall (λ ks, lookup_nt w1 ks) l) as Hnt.
  { apply Forall_forall. intros ks (s & Hs & _ & per_dc & -> & _)%Hl. rewrite Hw1. by exists per_dc. }
  assert (stored_ok w1) as Hok1 by (unfold stored_ok; by rewrite Hw1).
  destruct (decrease_loop (N - 1) l (RfState w1 []) ltac:(lia) Hok1 Hnt) as (st1 & r1 & -> & Hok2 & Hr).
  cbn [rf_db decreased_rf_keyspaces app] in *. rewrite Hw1 in Hr. destruct r1 as [[]|y].
  { intros [= <- <-]. destruct Hr as [-> ->]. by split_and!. }
  destruct Hr as (done_ & failed & rest & -> & Hdec & Hst).
  assert (∃ D, NoDup D ∧ stored (rf_db st1) = set_all (N - 1) D (stored w) ∧ ∀ ks, ks ∈ D → ks ∈ done_ ∨ ks = failed) as (D & HD & HstD & HDin).
  { apply NoDup_app in Hnd as (Hn1 & Hn2 & Hn3). destruct Hst as [Hst|Hst]; [exists done_; by split_and!; [..|by left]|].
    exists (done_ ++ [failed])%list. split_and!; [|done|by intros ks [?|?%list_elem_of_singleton]%elem_of_app; [left|right]].
    apply NoDup_app. split_and!; [done| |apply NoDup_singleton]. intros x Hx ->%list_elem_of_singleton. apply (Hn2 _ Hx). left. }
  assert (∀ ks, ks ∈ D ∨ ks ∈ done_ → ∃ s, stored w !! ks = Some s ∧ has_rf dc N ks s) as Hm.
  { intros ks Hks. apply Hl. apply elem_of_app. destruct Hks as [[?| ->]%HDin|?]; [by left|right; left|by left]. }
  assert (NoDup done_ ∧ failed ∉ done_) as [Hnd1 Hfail].
  { apply NoDup_app in Hnd as (Hn1 & Hn2 & _). split; [done|]. intros Hin. apply (Hn2 _ Hin). left. }
  assert (∃ s, stored w !! failed = Some s ∧ has_rf dc N failed s) as Hfrf by (apply Hl, elem_of_app; right; left).
  destruct (is_exception y) eqn:Hy.
  - unfold bind. destruct (revert_to_original_keyspaces_rf db c None st1) as [st2 r2] eqn:Er.
    destruct (revert_spec w D done_ st1 st2 r2 ltac:(lia) Hd HD Hnd1 Hm Hok2 HstD Hdec Er) as [H1 H2].
    assert (∀ z, z = match r2 with Ok _ => y | Err x => x end → stored (rf_db st2) = stored w ∨
      ∃ failed st1 y r', (∃ s, stored w !! failed = Some s ∧ has_rf dc N failed s) ∧ failed ∉ decreased_rf_keyspaces st1 ∧
        revert_to_original_keyspaces_rf db c None st1 = (st2, r') ∧ z = match r' with Ok _ => y | Err z => z end ∧
        (r' = Ok tt → ∀ ks, ks ≠ failed → stored (rf_db st2) !! ks = stored w !! ks)) as Hz.
    { intros z Ez. right. exists failed, st1, y, r2. split; [done|]. split; [by rewrite Hdec|].
      split; [done|]. split; [done|]. intros Hr2 ks Hne. apply H2; [done|].
      destruct (decide (ks ∈ done_)); [by left|]. right. intros [?| ->]%HDin; done. }
    destruct r2 as [[]|z]; unfold raise; intros [= <- <-]; (split; [done|]); intros _; by apply Hz.
  - intros [= <- <-]. split; [|by rewrite Hy].
    intros ks. rewrite HstD. apply (lowered_same _ D [] ks); [done|constructor|]. intros k [?|[]%elem_of_nil]; apply Hm; by left.
Qed.

End RfControl.

(** ** A database

    The strategies of the keyspaces, in a map. *)
Definition sample_db : database (gmap string strategy) :=
  Database
    (λ ident m, match m !! cql_unquote_if_needed ident with
                | Some s => (m, Ok [EmptyString; "CREATE KEYSPACE WITH " +:+ "replication = " +:+ described s +:+ " AND durable_writes = true;"])
                | None => (m, Err OtherException)
                end)
    (λ ident text m, match m !! cql_unquote_if_needed ident, from_string (EmptyString +:+ "replication = " +:+ text +:+ EmptyString) with
                     | Some _, Ok s => (<[cql_unquote_if_needed ident := s]> m, Ok tt)
                     | _, _ => (m, Err InvalidRequest)
                     end)
    (ret tt)
    (λ m, (m, Ok ((λ p : string * strategy, row p.1 p.2) <$> map_to_list m))).

#[local] Instance sample_server : CqlServer sample_db.
Proof.
  refine {| stored := id |}.
  - intros m ks. unfold id. cbn [describe sample_db]. rewrite unquote_quote.
    destruct (m !! ks) as [s|]; eexists m, _; (split; [done|]); (split; [done|]); [|done].
    by eexists s, _, "CREATE KEYSPACE WITH ", " AND durable_writes = true;", _.
  - intros m ks s Hv. unfold id. cbn [alter_keyspace sample_db]. rewrite unquote_quote, strategy_text by done.
    destruct (m !! ks) as [s0|]; eexists _, _; (split; [done|]); [by left; split|by right].
  - done.
  - intros m. eexists m, _. split; [done|]. split; [done|]. by exists (map_to_list m).
Defined.

#[local] Instance sample_reliable : ReliableServer sample_db.
Proof.
  split.
  - intros m ks [s Hs]. unfold stored, sample_server, id in Hs. cbn [describe sample_db]. rewrite unquote_quote, Hs. by eexists.
  - intros m ks s Hv. unfold stored, sample_server, id. cbn [alter_keyspace sample_db].
    rewrite unquote_quote, strategy_text by done. by destruct (m !! ks).
  - done.
Qed.

(** The same database, whose schema agreements fail as the list says. *)
Definition flaky_db : database (gmap string strategy * list bool) :=
  Database
    (λ ident w, let '(m, r) := describe sample_db ident w.1 in ((m, w.2), r))
    (λ ident text w, let '(m, r) := alter_keyspace sample_db ident text w.1 in ((m, w.2), r))
    (λ w, match w.2 with true :: l => ((w.1, l), Err OtherException) | _ :: l => ((w.1, l), Ok tt) | [] => (w, Ok tt) end)
    (λ w, let '(m, r) := select_keyspaces sample_db w.1 in ((m, w.2), r)).

#[local] Instance flaky_server : CqlServer flaky_db.
Proof.
  refine {| stored := fst |}.
  - intros [m fs] ks. destruct (describe_stored (db := sample_db) m ks) as (m' & r & Hd & Hs & Hr).
    exists (m', fs), r. cbn [describe flaky_db fst snd]. by rewrite Hd.
  - intros [m fs] ks s Hv. destruct (alter_stores (db := sample_db) m ks s Hv) as (m' & r & Ha & Hs).
    exists (m', fs), r. cbn [alter_keyspace flaky_db fst snd]. by rewrite Ha.
  - by intros [m [|[] fs]].
  - intros [m fs]. destruct (rows_stored (db := sample_db) m) as (m' & r & Hd & Hs & Hr).
    exists (m', fs), r. cbn [select_keyspaces flaky_db fst snd]. by rewrite Hd.
Defined.

Definition sample_keyspaces : gmap string strategy :=
  <["keyspace1" := NetworkTopologyReplicationStrategy [("dc1", LInt 3); ("dc2", LInt 2)]]>
  (<["5gb_sizetiered" := NetworkTopologyReplicationStrategy [("dc1", LInt 2)]]>
  (<["legacy" := SimpleReplicationStrategy (LInt 3)]> ∅)).

Lemma sample_ok : stored_ok (db := sample_db) sample_keyspaces.
Proof.
  assert (∀ k n, clean k = true → bool_decide (k ∉ ["class"; "default_rf"; "self"]) = true → (0 <= n)%Z → dc_ok (k, LInt n)) as Hdc.
  { intros k n Hk Hin Hn. split_and!; [exact Hk|by apply bool_decide_eq_true in Hin|exact Hn]. }
  unfold stored_ok, sample_keyspaces, stored, sample_server, id.
  apply map_Forall_insert_2; [|apply map_Forall_insert_2; [|apply map_Forall_insert_2; [|apply map_Forall_empty]]].
  - split; [|reflexivity]. split_and!; [done| |].
    + apply (bool_decide_unpack _). vm_compute. exact I.
    + repeat constructor; by apply Hdc.
  - split; [|reflexivity]. split_and!; [done| |].
    + apply (bool_decide_unpack _). vm_compute. exact I.
    + repeat constructor; by apply Hdc.
  - split; [|reflexivity]. simpl. lia.
Defined.

(** A keyspace of two datacenters, printed in an [ALTER] statement. *)
Lemma strategy_text_roundtrip_witness :
  from_string "ALTER KEYSPACE ks WITH replication = {'class': 'NetworkTopologyStrategy', 'dc1': 3, 'dc2': ['r1', 'r2']}" =
  Ok (NetworkTopologyReplicationStrategy [("dc1", LInt 3); ("dc2", LList ["r1"; "r2"])]).
Proof.
  apply (strategy_text_roundtrip "ALTER KEYSPACE ks WITH " EmptyString
    (NetworkTopologyReplicationStrategy [("dc1", LStr "3"); ("dc2", LList ["r1"; "r2"])])); [|reflexivity|reflexivity].
  split_and!; [done| |].
  - apply (bool_decide_unpack _). vm_compute. exact I.
  - repeat constructor; try reflexivity; try (apply (bool_decide_unpack _); vm_compute; exact I).
    exists 3%Z. split; [lia|reflexivity].
Defined.

(** Two changes of the same keyspace, the second with one that does not exist. *)
Lemma setter_restores_witness :
  (with_setter sample_db
     [[("keyspace1", SimpleReplicationStrategy (LInt 1))];
      [("keyspace1", LocalReplicationStrategy); ("missing", LocalReplicationStrategy)]] sample_keyspaces).1 = sample_keyspaces.
Proof.
  pose proof (setter_restores sample_db
    [[("keyspace1", SimpleReplicationStrategy (LInt 1))];
     [("keyspace1", LocalReplicationStrategy); ("missing", LocalReplicationStrategy)]] sample_keyspaces sample_ok) as H.
  destruct (with_setter _ _ _) as [w' r]. apply H. repeat constructor. simpl. lia.
Defined.

Definition sample_control : control := Control (Some "dc1") 3 2.

(** A second keyspace with three replicas in dc1. *)
Definition flaky_keyspaces : gmap string strategy :=
  <["keyspace2" := NetworkTopologyReplicationStrategy [("dc1", LInt 3)]]> sample_keyspaces.

Lemma flaky_ok fs : stored_ok (db := flaky_db) (flaky_keyspaces, fs).
Proof.
  unfold stored_ok, flaky_keyspaces, stored, flaky_server. cbn [fst]. apply map_Forall_insert_2; [|exact sample_ok].
  split; [|reflexivity]. split_and!; [done| |].
  - apply (bool_decide_unpack _). vm_compute. exact I.
  - constructor; [|constructor]. split_and!; [reflexivity|apply (bool_decide_unpack _); vm_compute; exact I|simpl; lia].
Defined.


(** A keyspace whose schema agreement fails after the [ALTER] is not recorded, so the rollback
    leaves it lowered. *)
Theorem rf_lowered_after_failed_agreement :
  let '(st, r) := decrease_keyspaces_rf flaky_db sample_control (RfState (sample_keyspaces, [true]) []) in
  r = Err OtherException ∧ sample_keyspaces !! "keyspace1" = Some (NetworkTopologyReplicationStrategy [("dc1", LInt 3); ("dc2", LInt 2)]) ∧
  (rf_db st).1 !! "keyspace1" = Some (NetworkTopologyReplicationStrategy [("dc1", LInt 2); ("dc2", LInt 2)]).
Proof. vm_compute. by split_and!. Qed.
End Replication.
