(* ===== verification/CidrPool.v ===== *)
(** * Network blocks for Scylla Cloud clusters

    Model of [sdcm/utils/cidr_pool.py] with what it uses of [ipaddress]: IPv4 networks as a
    32-bit address and a prefix length, their text, and their subnets.

    The routes already in use are what the region reports, an argument; they are taken to be
    IPv4 networks with a prefix length ([ipaddress] accepts masks and IPv6 as well). The draw
    of [random.choice] is an argument, too. *)
From Stdlib Require Import Ascii String ZArith Lia.
From stdpp Require Import base decidable option strings numbers list.
From S2P Require Import Prelude.
From S2P Require Import PyString.
From S2P Require Import PyInt.
Local Open Scope py_scope.
Local Open Scope Z_scope.

Module CidrPool.

(** ** Networks *)
Record network := Network { address : Z; prefixlen : Z }.

#[global] Instance network_eq_dec : EqDecision network.
Proof. solve_decision. Defined.

Definition num_addresses (n : network) : Z := Z.shiftl 1 (32 - prefixlen n).

(** The bits of the host part. *)
Definition hostmask (prefix : Z) : Z := Z.shiftl 1 (32 - prefix) - 1.

Definition octet (a i : Z) : Z := Z.land (Z.shiftr a (8 * i)) 255.

(** [str(network)]. *)
Definition str_network (n : network) : string :=
  join "." [str_Z (octet (address n) 3); str_Z (octet (address n) 2); str_Z (octet (address n) 1);
            str_Z (octet (address n) 0)] +:+ "/" +:+ str_Z (prefixlen n).

(** An octet: one to three digits, no leading zero, at most 255. *)
Definition parse_octet (s : string) : option Z :=
  if isdigit s && (String.length s <=? 3)%nat && negb (startswith "0" s && (1 <? String.length s)%nat)
  then z ← py_int s; if z <=? 255 then Some z else None
  else None.

Definition parse_prefix (s : string) : option Z :=
  if isdigit s then z ← py_int s; if z <=? 32 then Some z else None else None.

Definition parse_address (s : string) : option Z :=
  match split_on "." s with
  | [a; b; c; d] =>
    a' ← parse_octet a; b' ← parse_octet b; c' ← parse_octet c; d' ← parse_octet d;
    Some (Z.shiftl a' 24 + Z.shiftl b' 16 + Z.shiftl c' 8 + d')
  | _ => None
  end.

(** [ipaddress.ip_network(s)]: a [ValueError], [None], for malformed text and for set host bits. *)
Definition ip_network (s : string) : option network :=
  match split_on "/" s with
  | [a] => (λ x, Network x 32) <$> parse_address a
  | [a; p] =>
    x ← parse_address a; l ← parse_prefix p;
    if Z.land x (hostmask l) =? 0 then Some (Network x l) else None
  | _ => None
  end.

(** [n.subnets(new_prefix=p)]: a [ValueError] for a prefix that is shorter or too long. *)
Definition subnets (n : network) (new_prefix : Z) : option (list network) :=
  if (new_prefix <? prefixlen n) || (32 <? new_prefix) then None
  else
    let step := Z.shiftl 1 (32 - new_prefix) in
    Some ((λ i, Network (address n + Z.of_nat i * step) new_prefix) <$>
            seq 0 (Z.to_nat (Z.shiftl 1 (new_prefix - prefixlen n)))).

(** ** The pool *)
Inductive exn : Type := ValueError | CidrAllocationError.

Definition SCYLLA_CLOUD_CIDR_BASE : string := "172.31.0.0/16".
Definition DEFAULT_SUBNET_SIZE : Z := 24.
Definition RESERVED_RANGES : list string := ["172.31.0.0/24"].

Record pool := Pool { cidr_base : network; subnet_size : Z; reserved_ranges : list network }.

Definition network_of (s : string) : outcome exn network :=
  match ip_network s with Some n => Ok n | None => Err ValueError end.

Fixpoint networks_of (l : list string) : outcome exn (list network) :=
  match l with
  | [] => Ok []
  | s :: l' => try! n := network_of s in try! ns := networks_of l' in Ok (n :: ns)
  end.

Definition __init__ (base : option string) (size : option Z) : outcome exn pool :=
  try! b := network_of (if truthy base then default EmptyString base else SCYLLA_CLOUD_CIDR_BASE) in
  try! r := networks_of RESERVED_RANGES in
  Ok (Pool b (match size with Some z => if truthy z then z else DEFAULT_SUBNET_SIZE | None => DEFAULT_SUBNET_SIZE end) r).

Definition _generate_next_cidr (self : pool) (pick : nat) (used_cidrs : list string) : outcome exn (option network) :=
  try! used := networks_of used_cidrs in
  let used_networks := used ++ reserved_ranges self in
  match subnets (cidr_base self) (subnet_size self) with
  | None => Err CidrAllocationError
  | Some l =>
    match filter (λ n, n ∉ used_networks) l with
    | [] => Ok None
    | available => Ok (available !! (pick mod length available)%nat)
    end
  end.

(** ** Routes in use *)

(** A route of an AWS route table: [VpcPeeringConnectionId] and [DestinationCidrBlock]. *)
Record aws_route := AwsRoute { peering_connection : option string; destination : option string }.

Definition add_route (routes : list string) (dest : string) : list string :=
  if bool_decide (dest ∈ routes) then routes else routes ++ [dest].

Definition get_vpc_peering_routes (route_tables : list (list aws_route)) : list string :=
  foldl (λ acc r,
    if truthy (peering_connection r) && truthy (destination r) then
      let dest := default EmptyString (destination r) in
      if String.eqb dest "0.0.0.0/0" then acc else add_route acc dest
    else acc) [] (concat route_tables).

(** A route of a GCE project: [next_hop_peering], [network] and [dest_range]. *)
Record gce_route := GceRoute { next_hop_peering : option string; gce_network : option string; dest_range : option string }.

Definition get_peering_routes (SCT_NETWORK_NAME : string) (routes : list gce_route) : list string :=
  foldl (λ acc r,
    if truthy (next_hop_peering r) && truthy (gce_network r) &&
       contains SCT_NETWORK_NAME (default EmptyString (gce_network r)) && truthy (dest_range r)
    then add_route acc (default EmptyString (dest_range r)) else acc) [] routes.

(** What the provider's region reports: the routes in use, or an exception. *)
Inductive discovery : Type := Routes (l : list string) | DiscoveryFailed | NoProvider.

Definition get_available_cidr (self : pool) (pick : nat) (d : discovery) : outcome exn string :=
  let used_cidrs := match d with Routes l => l | _ => [] end in
  try! available_cidr := _generate_next_cidr self pick used_cidrs in
  match available_cidr with
  | None => Err CidrAllocationError
  | Some n => Ok (str_network n)
  end.

Example str_ex : (str_network <$> ip_network SCYLLA_CLOUD_CIDR_BASE) = Some SCYLLA_CLOUD_CIDR_BASE.
Proof. vm_compute. reflexivity. Qed.

(** ** Networks are aligned blocks *)
Definition wf (n : network) : Prop :=
  0 <= address n < 2 ^ 32 ∧ 0 <= prefixlen n <= 32 ∧ address n mod 2 ^ (32 - prefixlen n) = 0.

Definition addr_in (a : Z) (n : network) : Prop := address n <= a < address n + num_addresses n.

Lemma num_addresses_eq n : num_addresses n = 2 ^ (32 - prefixlen n).
Proof. unfold num_addresses. rewrite Z.shiftl_1_l. done. Qed.

Lemma land_hostmask x p : p <= 32 → Z.land x (hostmask p) = x mod 2 ^ (32 - p).
Proof.
  intros Hp. unfold hostmask. rewrite Z.shiftl_1_l.
  replace (2 ^ (32 - p) - 1) with (Z.ones (32 - p)) by (rewrite Z.ones_equiv; lia). apply Z.land_ones. lia.
Qed.

Lemma octet_eq a i : 0 <= i → octet a i = (a / 2 ^ (8 * i)) mod 256.
Proof. intros Hi. unfold octet. rewrite Z.shiftr_div_pow2 by lia. by apply (Z.land_ones _ 8). Qed.

Lemma octet_range a i : 0 <= i → 0 <= octet a i <= 255.
Proof. intros Hi. rewrite octet_eq by done. pose proof (Z.mod_pos_bound (a / 2 ^ (8 * i)) 256). lia. Qed.

(** An address is made of its octets. *)
Lemma address_octets a :
  0 <= a < 2 ^ 32 →
  Z.shiftl (octet a 3) 24 + Z.shiftl (octet a 2) 16 + Z.shiftl (octet a 1) 8 + octet a 0 = a.
Proof.
  intros Ha. rewrite !Z.shiftl_mul_pow2 by lia. rewrite !octet_eq by lia.
  change (2 ^ (8 * 3)) with 16777216. change (2 ^ (8 * 2)) with 65536. change (2 ^ (8 * 1)) with 256.
  change (2 ^ (8 * 0)) with 1. change (2 ^ 24) with 16777216. change (2 ^ 16) with 65536. change (2 ^ 8) with 256.
  change (2 ^ 32) with 4294967296 in Ha. Z.to_euclidean_division_equations. lia.
Qed.

(** ** Text and back *)
Lemma parse_octet_str z : 0 <= z <= 255 → parse_octet (str_Z z) = Some z.
Proof.
  intros Hz. assert (Forall (λ i, parse_octet (str_Z (Z.of_nat i)) = Some (Z.of_nat i)) (seq 0 256)) as H
    by (apply (bool_decide_unpack _); vm_compute; exact I).
  rewrite Forall_forall in H. specialize (H (Z.to_nat z)). rewrite Z2Nat.id in H by lia. apply H, elem_of_seq. lia.
Qed.

Lemma parse_prefix_str z : 0 <= z <= 32 → parse_prefix (str_Z z) = Some z.
Proof.
  intros Hz. assert (Forall (λ i, parse_prefix (str_Z (Z.of_nat i)) = Some (Z.of_nat i)) (seq 0 33)) as H
    by (apply (bool_decide_unpack _); vm_compute; exact I).
  rewrite Forall_forall in H. specialize (H (Z.to_nat z)). rewrite Z2Nat.id in H by lia. apply H, elem_of_seq. lia.
Qed.

Lemma digits_no_sep sep s :
  is_digit sep = false → all_chars is_digit s = true → all_chars (λ c, negb (Ascii.eqb c sep)) s = true.
Proof.
  intros Hsep. induction s as [|c s IH]; [done|]. cbn [all_chars]. intros [Hc Hs]%andb_true_iff. rewrite IH by done.
  rewrite andb_true_r. destruct (Ascii.eqb_spec c sep) as [->|]; [congruence|done].
Qed.

Lemma str_Z_no_sep sep z : is_digit sep = false → 0 <= z → all_chars (λ c, negb (Ascii.eqb c sep)) (str_Z z) = true.
Proof.
  intros Hsep Hz. pose proof (str_Z_digits z Hz) as [_ H]%andb_true_iff. by apply digits_no_sep.
Qed.

(** Printing a network and reading it back. *)
Lemma network_text n : wf n → ip_network (str_network n) = Some n.
Proof.
  intros (Ha & Hp & Hm). unfold ip_network, str_network.
  set (os := [str_Z (octet (address n) 3); str_Z (octet (address n) 2); str_Z (octet (address n) 1); str_Z (octet (address n) 0)]).
  assert (∀ sep, is_digit sep = false → Forall (λ w, all_chars (λ c, negb (Ascii.eqb c sep)) w = true) os) as Hos.
  { intros sep Hsep. repeat constructor; apply str_Z_no_sep; (done || apply octet_range; lia). }
  assert (all_chars (λ c, negb (Ascii.eqb c "/")) (join "." os) = true) as Hslash.
  { pose proof (Hos "/"%char eq_refl) as H. clear Hos. induction H as [|w ws Hw Hws IH]; [done|].
    destruct ws as [|w' ws]; [done|]. rewrite join_cons, !all_chars_app, Hw, IH by done. done. }
  change ("/" +:+ str_Z (prefixlen n)) with (String "/" (str_Z (prefixlen n))).
  rewrite split_on_app, split_on_no_sep by (done || (apply str_Z_no_sep; [done|lia])).
  unfold parse_address. rewrite (split_on_join "." os); [|discriminate|by apply Hos]. unfold os.
  rewrite !parse_octet_str by (apply octet_range; lia). cbn [mbind option_bind].
  rewrite address_octets by done. rewrite parse_prefix_str by done. cbn [mbind option_bind].
  rewrite land_hostmask, Hm by lia. by destruct n.
Qed.

Lemma parse_octet_range s z : parse_octet s = Some z → 0 <= z <= 255.
Proof.
  unfold parse_octet. destruct (isdigit s) eqn:E; [|done]. destruct (_ && _); [|done].
  destruct (py_int s) as [z'|] eqn:Ez; [|done]. cbn [mbind option_bind]. destruct (Z.leb_spec z' 255); [|done].
  intros [= ->]. split; [|done]. by apply (py_int_nonneg s).
Qed.

Lemma ip_network_wf s n : ip_network s = Some n → wf n.
Proof.
  assert (∀ a x, parse_address a = Some x → 0 <= x < 2 ^ 32) as Haddr.
  { intros a x. unfold parse_address. destruct (split_on "." a) as [|a1 [|a2 [|a3 [|a4 [|]]]]]; try done.
    destruct (parse_octet a1) as [x1|] eqn:E1; [|done]. destruct (parse_octet a2) as [x2|] eqn:E2; [|done].
    destruct (parse_octet a3) as [x3|] eqn:E3; [|done]. destruct (parse_octet a4) as [x4|] eqn:E4; [|done].
    apply parse_octet_range in E1, E2, E3, E4. cbn [mbind option_bind]. intros [= <-].
    rewrite !Z.shiftl_mul_pow2 by lia. change (2 ^ 32) with 4294967296. lia. }
  unfold ip_network. destruct (split_on "/" s) as [|a [|p [|]]]; try done.
  - destruct (parse_address a) as [x|] eqn:Ea; [|done]. intros [= <-]. apply Haddr in Ea. split_and!; simpl; try lia.
    apply Z.mod_1_r.
  - destruct (parse_address a) as [x|] eqn:Ea; [|done]. destruct (parse_prefix p) as [l|] eqn:El; [|done].
    cbn [mbind option_bind]. unfold parse_prefix in El. destruct (isdigit p) eqn:Ed; [|done].
    destruct (py_int p) as [z|] eqn:Ez; [|done]. cbn [mbind option_bind] in El. destruct (Z.leb_spec z 32); [|done].
    injection El as ->. pose proof (py_int_nonneg p l Ed Ez). destruct (Z.eqb_spec (Z.land x (hostmask l)) 0) as [Hm|]; [|done].
    intros [= <-]. rewrite land_hostmask in Hm by done. apply Haddr in Ea. unfold wf. cbn [address prefixlen].
    split_and!; (done || lia).
Qed.

(** ** Subnets *)
Lemma subnets_spec n p l :
  wf n → subnets n p = Some l →
  prefixlen n <= p <= 32 ∧
  ∀ m, m ∈ l ↔ wf m ∧ prefixlen m = p ∧ address n <= address m ∧ address m + num_addresses m <= address n + num_addresses n.
Proof.
  intros (Ha & Hp & Hm). unfold subnets. destruct (Z.ltb_spec p (prefixlen n)); [done|].
  destruct (Z.ltb_spec 32 p); [done|]. intros [= <-]. split; [lia|]. intros m. rewrite list_elem_of_fmap.
  rewrite !num_addresses_eq, !Z.shiftl_1_l. set (step := 2 ^ (32 - p)). set (k := 2 ^ (p - prefixlen n)).
  assert (2 ^ (32 - prefixlen n) = k * step) as Hsz by (unfold k, step; rewrite <-Z.pow_add_r by lia; f_equal; lia).
  assert (0 < step) by (unfold step; lia). assert (0 < k) by (unfold k; lia).
  rewrite Hsz in *. apply Z.mod_divide in Hm as [q Hq]; [|nia].
  assert (0 <= q) as Hq0 by nia.
  assert (k * step * (q + 1) <= 2 ^ 32) as Hmax.
  { assert (2 ^ 32 = 2 ^ prefixlen n * (k * step)) as H32 by (rewrite <-Hsz, <-Z.pow_add_r by lia; f_equal; lia).
    rewrite H32 in *. nia. }
  split.
  - intros (i & -> & Hi%elem_of_seq). cbn [address prefixlen]. fold step.
    assert (Z.of_nat i < k) by lia. split_and!; try lia; try nia. unfold wf. cbn [address prefixlen]. fold step.
    split_and!; try lia; try nia. rewrite Hq. replace (q * (k * step) + Z.of_nat i * step) with ((q * k + Z.of_nat i) * step) by lia.
    apply Z.mod_mul. lia.
  - intros ((Hma & Hmp & Hmm) & Hmp' & Hlo & Hhi). rewrite Hmp' in Hmm, Hhi. fold step in Hmm, Hhi.
    apply Z.mod_divide in Hmm as [r Hr]; [|lia]. exists (Z.to_nat (r - q * k)).
    assert (0 <= r - q * k < k) as Hrange by nia. split.
    + destruct m as [am pm]. cbn [address prefixlen] in *. subst pm. f_equal. rewrite Z2Nat.id by lia. fold step. nia.
    + apply elem_of_seq. lia.
Qed.

(** Different blocks of one size have no address in common. *)
Lemma same_size_disjoint n m a :
  wf n → wf m → prefixlen n = prefixlen m → n ≠ m → addr_in a n → ¬ addr_in a m.
Proof.
  intros (Hna & Hnp & Hnm) (Hma & Hmp & Hmm) Heq Hne. unfold addr_in. rewrite !num_addresses_eq, Heq in *.
  set (step := 2 ^ (32 - prefixlen m)) in *. assert (0 < step) by (unfold step; lia).
  apply Z.mod_divide in Hnm as [q Hq]; [|lia]. apply Z.mod_divide in Hmm as [r Hr]; [|lia].
  intros Hin Him. apply Hne. destruct n as [an pn], m as [am pm]. cbn [address prefixlen] in *.
  assert (q = r) by nia. congruence.
Qed.

(** ** Allocation *)
Lemma networks_of_elem l ns :
  networks_of l = Ok ns → ∀ n, n ∈ ns ↔ ∃ s, s ∈ l ∧ ip_network s = Some n.
Proof.
  revert ns. induction l as [|s l IH]; intros ns; cbn [networks_of].
  { intros [= <-] n. split; [by intros H; inversion H|]. intros (s & H & _). inversion H. }
  unfold network_of. destruct (ip_network s) as [n0|] eqn:En; [|done].
  destruct (networks_of l) as [ns'|] eqn:El; [|done]. intros [= <-] n. specialize (IH _ eq_refl n). split.
  - intros Hin. inversion Hin; subst; [exists s; split; [constructor|done]|]. apply IH in H1 as (s' & H1 & H2).
    exists s'. split; [by constructor|done].
  - intros (s' & Hin & Hs'). inversion Hin; subst; [rewrite En in Hs'; injection Hs' as ->; constructor|].
    constructor. apply IH. by exists s'.
Qed.

(** The routes an allocation takes into account. *)
Definition used_of (d : discovery) : list string := match d with Routes l => l | _ => [] end.

(** C40. An allocated block is usable and in bounds: the text returned reads back as a network
    of exactly the configured size, aligned, inside the base range; it is not reserved, and
    shares no address with a block of that size that is in use. When allocation fails for
    lack of blocks, every block of the size in the range was in use or reserved, or the size
    does not fit the range. *)
Theorem cidr_allocation_sound self pick d :
  wf (cidr_base self) →
  match get_available_cidr self pick d with
  | Ok s => ∃ n, ip_network s = Some n ∧ wf n ∧ prefixlen n = subnet_size self ∧
      (∀ a, addr_in a n → addr_in a (cidr_base self)) ∧ n ∉ reserved_ranges self ∧
      ∀ u m a, u ∈ used_of d → ip_network u = Some m → prefixlen m = subnet_size self → addr_in a n → ¬ addr_in a m
  | Err CidrAllocationError =>
      ¬ prefixlen (cidr_base self) <= subnet_size self <= 32 ∨
      ∀ m, wf m → prefixlen m = subnet_size self → (∀ a, addr_in a m → addr_in a (cidr_base self)) →
           m ∈ reserved_ranges self ∨ ∃ u, u ∈ used_of d ∧ ip_network u = Some m
  | Err ValueError => ∃ u, u ∈ used_of d ∧ ip_network u = None
  end.
Proof.
  intros Hwf. unfold get_available_cidr, _generate_next_cidr. fold (used_of d).
  destruct (networks_of (used_of d)) as [ns|x] eqn:En.
  2:{ assert (x = ValueError ∧ ∃ u, u ∈ used_of d ∧ ip_network u = None) as [-> Hu]; [|exact Hu]. revert En.
      generalize (used_of d) as l. induction l as [|u l IH]; cbn [networks_of]; [done|]. unfold network_of.
      destruct (ip_network u) eqn:Eu; [|intros [= <-]; split; [done|]; exists u; split; [constructor|done]].
      destruct (networks_of l); [done|]. intros [= ->]. destruct IH as (-> & u' & ? & ?); [done|]. split; [done|].
      exists u'. split; [by constructor|done]. }
  pose proof (networks_of_elem _ _ En) as Hns. cbn [obind].
  destruct (subnets (cidr_base self) (subnet_size self)) as [l|] eqn:Es.
  2:{ left. revert Es. unfold subnets. destruct (_ || _) eqn:Eb; [|done]. intros _.
      apply orb_true_iff in Eb as [?%Z.ltb_lt|?%Z.ltb_lt]; lia. }
  destruct (subnets_spec _ _ _ Hwf Es) as [Hsz Hl].
  destruct (filter (λ n, n ∉ ns ++ reserved_ranges self) l) as [|n0 av] eqn:Ef.
  - cbn [obind]. right. intros m Hm Hmp Hin.
    assert (m ∈ l) as Hml.
    { apply Hl. pose proof (Hin (address m)) as H1. pose proof (Hin (address m + num_addresses m - 1)) as H2. unfold addr_in in *.
      rewrite !num_addresses_eq in *. split_and!; [done|done|lia|lia]. }
    destruct (decide (m ∈ ns ++ reserved_ranges self)) as [Hd|Hd].
    + apply elem_of_app in Hd as [Hd|Hd]; [right; by apply Hns|by left].
    + exfalso. assert (m ∈ filter (λ n, n ∉ ns ++ reserved_ranges self) l) as Habs by (by apply list_elem_of_filter).
      rewrite Ef in Habs. inversion Habs.
  - set (i := (pick mod length (n0 :: av))%nat).
    destruct (lookup_lt_is_Some_2 (n0 :: av) i) as [n Hn]; [apply Nat.mod_upper_bound; done|]. rewrite Hn. cbn [obind].
    apply list_elem_of_lookup_2 in Hn. rewrite <-Ef in Hn. apply list_elem_of_filter in Hn as [Hnot Hin].
    apply Hl in Hin as (Hnw & Hnp & Hlo & Hhi). exists n. split_and!; [by apply network_text|done|done| | |].
    + unfold addr_in. intros a Ha. lia.
    + intros Hr. apply Hnot, elem_of_app. by right.
    + intros u m a Hu Hm Hmp. apply same_size_disjoint; [done|by eapply ip_network_wf|congruence|].
      intros ->. apply Hnot, elem_of_app. left. apply Hns. by exists u.
Qed.

Lemma networks_of_total l : Forall (λ u, ip_network u ≠ None) l → ∃ ns, networks_of l = Ok ns.
Proof.
  induction 1 as [|u l Hu Hl [ns IH]]; [by eexists|]. cbn [networks_of]. unfold network_of.
  destruct (ip_network u); [|done]. rewrite IH. by eexists.
Qed.

(** Only routes of exactly the allocated size are avoided: a route in use with another
    prefix length, even one that covers the whole base range, has no influence on what is
    allocated. *)
Theorem cidr_other_sizes_ignored self pick l :
  wf (cidr_base self) → Forall (λ u, ip_network u ≠ None) l →
  get_available_cidr self pick (Routes l) =
  get_available_cidr self pick (Routes (filter (λ u, prefixlen <$> ip_network u = Some (subnet_size self)) l)).
Proof.
  intros Hwf Hl. unfold get_available_cidr, _generate_next_cidr.
  set (l' := filter (λ u, prefixlen <$> ip_network u = Some (subnet_size self)) l).
  assert (Forall (λ u, ip_network u ≠ None) l') as Hl'.
  { rewrite !Forall_forall in *. intros u [_ Hu]%list_elem_of_filter. by apply Hl. }
  destruct (networks_of_total l Hl) as [ns Hns], (networks_of_total l' Hl') as [ns' Hns']. rewrite Hns, Hns'. cbn [obind].
  destruct (subnets (cidr_base self) (subnet_size self)) as [sn|] eqn:Es; [|done].
  destruct (subnets_spec _ _ _ Hwf Es) as [_ Hsn].
  rewrite (list_filter_ext_in (λ n, n ∉ ns ++ reserved_ranges self) (λ n, n ∉ ns' ++ reserved_ranges self)); [done|].
  intros n (_ & Hnp & _)%Hsn. rewrite !elem_of_app, (networks_of_elem _ _ Hns n), (networks_of_elem _ _ Hns' n).
  assert ((∃ s, s ∈ l ∧ ip_network s = Some n) ↔ ∃ s, s ∈ l' ∧ ip_network s = Some n) as ->; [|done].
  split; intros (u & Hu & Hn); exists u; (split; [|done]).
  - apply list_elem_of_filter. split; [by rewrite Hn, <-Hnp|done].
  - by apply list_elem_of_filter in Hu as [_ Hu].
Qed.

(** ** Witnesses *)
Definition default_pool : pool := Pool (Network 2887712768 16) 24 [Network 2887712768 24].

Example default_pool_ex : __init__ None None = Ok default_pool.
Proof. vm_compute. reflexivity. Qed.

Lemma default_pool_wf : wf (cidr_base default_pool).
Proof. unfold wf, default_pool. cbn [cidr_base address prefixlen]. split_and!; vm_compute; congruence. Defined.

(** With 172.31.1.0/24 in use the first free block is 172.31.2.0/24. *)
Lemma cidr_allocation_sound_witness :
  ∃ n, ip_network "172.31.2.0/24" = Some n ∧ prefixlen n = 24 ∧ (∀ a, addr_in a n → addr_in a (cidr_base default_pool)).
Proof.
  pose proof (cidr_allocation_sound default_pool 0 (Routes ["172.31.1.0/24"]) default_pool_wf) as H.
  assert (get_available_cidr default_pool 0 (Routes ["172.31.1.0/24"]) = Ok "172.31.2.0/24") as E by (vm_compute; reflexivity).
  rewrite E in H. destruct H as (n & H1 & _ & H2 & H3 & _). exists n. split; [exact H1|]. split; [exact H2|exact H3].
Defined.

(** A block inside the upper half of the range is handed out while that half is in use. *)
Lemma cidr_other_sizes_ignored_witness :
  get_available_cidr default_pool 254 (Routes ["172.31.128.0/17"]) = Ok "172.31.255.0/24".
Proof.
  rewrite (cidr_other_sizes_ignored default_pool 254 ["172.31.128.0/17"] default_pool_wf).
  - vm_compute. reflexivity.
  - repeat constructor. vm_compute. discriminate.
Defined.
End CidrPool.
