(* ===== verification/CapacityGuards.v ===== *)
(** * What a capacity failure does to a test

    Model of [check_cluster_layout] ([sdcm/utils/cluster_tools.py]) and of the decorators
    [skip_on_capacity_issues], [critical_on_capacity_issues] and [optional_stage]
    ([sdcm/utils/decorators.py]).

    A node is its data centre and rack. The decorated function is an action on an arbitrary
    state with the list of the published CRITICAL events. *)
From stdpp Require Import base decidable option strings numbers gmap sets list.
From S2P Require Import Prelude.
From S2P Require Import PyString.
From S2P Require Import PyVal.
From S2P Require Import PyDict.
From S2P Require Import Effects.
Local Open Scope py_scope.

Module CapacityGuards.

Record node := Node { dc_idx : nat; rack : Z }.

Record cluster := Cluster {
  nodes : list node;
  racks_count : nat;
  n_db_nodes : list Z;
  capacity_errors_check_mode : pyval;
}.

Inductive exn : Type :=
  | ClientError (msg : string)
  | ServiceUnavailable
  | InstanceConfigurationError
  | ProvisionUnrecoverableError
  | UnsupportedNemesis (msg : string)
  | ValueError
  | AttributeError
  | OtherError (k : nat).

(** ** The layout *)
Definition group_nodes_by_dc_idx (ns : list node) : list (nat * list node) :=
  foldl (λ d n, dict_set (dc_idx n) (default [] (dict_get (dc_idx n) d) ++ [n]) d) [] ns.

(** [racks[node.rack] += 1]. *)
Definition count_racks (ns : list node) : list (Z * nat) :=
  foldl (λ d n, dict_set (rack n) (S (default 0 (dict_get (rack n) d))) d) [] ns.

(** [db_nodes_config_count[dc_idx]], 0 for an index the configuration does not have. *)
Definition configured_count (c : cluster) (i : nat) : Z := default 0%Z (n_db_nodes c !! i).

Fixpoint check_dcs (c : cluster) (l : list (nat * list node)) : bool :=
  match l with
  | [] => true
  | (i, ns) :: l' =>
    if negb (length (count_racks ns) =? racks_count c) then false
    else if negb (configured_count c i =? Z.of_nat (length ns))%Z then false
    else check_dcs c l'
  end.

Definition check_cluster_layout (c : cluster) : outcome exn bool :=
  let mode := if truthy (capacity_errors_check_mode c) then capacity_errors_check_mode c
              else VStr "per-initial_config" in
  if is_str mode "per-initial_config" then Ok (check_dcs c (group_nodes_by_dc_idx (nodes c)))
  else if is_str mode "disabled" then Ok true
  else Err ValueError.

(** ** The decorators *)
Section Decorators.
Context {W A : Type}.

(** The state of the caller and the CRITICAL events published so far. *)
Notation action := (act (W * list string) exn).

Definition publish_critical (m : string) : action unit := modify (λ s, (s.1, s.2 ++ [m])).

(** [check_cluster_layout(cluster)], which has no [nodes] to read when [cluster] is [None]. *)
Definition layout (c : option (W → cluster)) : action bool :=
  λ s, match c with
       | None => (s, Err AttributeError)
       | Some f => match check_cluster_layout (f s.1) with Ok b => (s, Ok b) | Err x => (s, Err x) end
       end.

Definition insufficient (msg : string) : bool := contains "InsufficientInstanceCapacity" msg.

(** The cluster: the decorator's argument, else the bound object of the function, else the
    first argument with [nodes]. [bound] and [args] say what they are clusters of, if
    they have [nodes]. *)
Definition find_cluster (db_cluster bound : option (W → cluster)) (args : list (option (W → cluster)))
    : option (W → cluster) :=
  match db_cluster with
  | Some c => Some c
  | None =>
    match args with
    | [] => None
    | _ => match bound with Some c => Some c | None => head (omap id args) end
    end
  end.

Definition on_skip_failure (cluster_ : option (W → cluster)) (ex : exn) : action A :=
  match ex with
  | ClientError msg =>
    if insufficient msg then
      let! ok := layout cluster_ in
      if ok then raise (UnsupportedNemesis "Capacity Issue") else publish_critical "capacity" ;;; raise ex
    else raise ex
  | ServiceUnavailable =>
    let! ok := layout cluster_ in
    if ok then raise (UnsupportedNemesis "Capacity Issue") else publish_critical "service availability" ;;; raise ex
  | InstanceConfigurationError =>
    let! ok := layout cluster_ in
    (if ok then ret tt else publish_critical "instance configuration") ;;; raise ex
  | ProvisionUnrecoverableError =>
    let! ok := layout cluster_ in
    if ok then raise (UnsupportedNemesis "Capacity Issue") else publish_critical "capacity" ;;; raise ex
  | _ => raise ex
  end.

Definition skip_on_capacity_issues (db_cluster bound : option (W → cluster)) (args : list (option (W → cluster)))
    (inner_func : action A) : action A :=
  let! r := caught inner_func in
  match r with
  | Ok a => ret a
  | Err ex => on_skip_failure (find_cluster db_cluster bound args) ex
  end.

Definition critical_on_capacity_issues (func : action A) : action A :=
  let! r := caught func in
  match r with
  | Ok a => ret a
  | Err ex =>
    (match ex with
     | ClientError msg => if insufficient msg then publish_critical "capacity" else ret tt
     | ServiceUnavailable => publish_critical "service availability"
     | InstanceConfigurationError => publish_critical "instance configuration"
     | ProvisionUnrecoverableError => publish_critical "capacity"
     | _ => ret tt
     end) ;;; raise ex
  end.

(** [skip_test_stages] is a [defaultdict(lambda: False)]; a skipped function returns [None]. *)
Definition optional_stage (stage_names : list string) (skip_test_stages : gmap string bool) (func : action A)
    : action (option A) :=
  let skipped_stages := filter (λ stage, default false (skip_test_stages !! stage) = true) stage_names in
  match skipped_stages with
  | [] => let! a := func in ret (Some a)
  | _ => ret None
  end.
End Decorators.

(** ** The layout check, as what it decides *)
Definition nodes_of (c : cluster) (i : nat) : list node := filter (λ n, dc_idx n = i) (nodes c).

Lemma group_get ns i d :
  dict_get i (foldl (λ d n, dict_set (dc_idx n) (default [] (dict_get (dc_idx n) d) ++ [n]) d) d ns) =
  (match filter (λ n, dc_idx n = i) ns with
   | [] => dict_get i d
   | l => Some (default [] (dict_get i d) ++ l)
   end).
Proof.
  revert d. induction ns as [|n ns IH]; intros d; [done|]. cbn [foldl]. rewrite IH, !dict_get_set, filter_cons.
  destruct (decide (i = dc_idx n)) as [->|Hne].
  - rewrite decide_True by done. simpl. destruct (filter _ ns); by rewrite ?(right_id_L [] (++)), <-?(assoc_L (++)).
  - rewrite decide_False by congruence. done.
Qed.

Lemma group_wf ns d : dict_wf d →
  dict_wf (foldl (λ d n, dict_set (dc_idx n) (default [] (dict_get (dc_idx n) d) ++ [n]) d) d ns).
Proof. revert d. induction ns as [|n ns IH]; intros d Hd; [done|]. simpl. by apply IH, dict_set_wf. Qed.

Lemma count_racks_keys ns d r :
  r ∈ (foldl (λ d n, dict_set (rack n) (S (default 0 (dict_get (rack n) d))) d) d ns).*1 ↔
  r ∈ d.*1 ∨ r ∈ rack <$> ns.
Proof.
  revert d. induction ns as [|n ns IH]; intros d; simpl.
  - split; [by left|]. intros [?|[]%not_elem_of_nil]; done.
  - rewrite IH, dict_set_keys, elem_of_cons. naive_solver.
Qed.

Lemma count_racks_wf ns d : dict_wf d →
  dict_wf (foldl (λ d n, dict_set (rack n) (S (default 0 (dict_get (rack n) d))) d) d ns).
Proof. revert d. induction ns as [|n ns IH]; intros d Hd; [done|]. simpl. by apply IH, dict_set_wf. Qed.

(** The number of racks counted is the number of different racks. *)
Lemma count_racks_length ns : length (count_racks ns) = size (list_to_set (rack <$> ns) : gset Z).
Proof.
  rewrite <-(length_fmap fst). unfold count_racks.
  set (d := foldl _ [] ns). assert (NoDup d.*1) as Hd by (apply count_racks_wf; constructor).
  rewrite <-(size_list_to_set (C := gset Z) d.*1) by done. f_equal. apply set_eq. intros r.
  rewrite !elem_of_list_to_set. unfold d. rewrite count_racks_keys. split; [|by right].
  by intros [[]%not_elem_of_nil|].
Qed.

Lemma check_dcs_true c l :
  check_dcs c l = true ↔
  ∀ i ns, (i, ns) ∈ l → length (count_racks ns) = racks_count c ∧ configured_count c i = Z.of_nat (length ns).
Proof.
  induction l as [|[i ns] l IH]; simpl.
  { split; [|done]. by intros _ i ns ?%not_elem_of_nil. }
  destruct (Nat.eqb_spec (length (count_racks ns)) (racks_count c)) as [Hr|Hr]; simpl.
  2:{ split; [done|]. intros H. destruct Hr. apply (H i ns). by left. }
  destruct (Z.eqb_spec (configured_count c i) (Z.of_nat (length ns))) as [Hn|Hn]; simpl.
  2:{ split; [done|]. intros H. destruct Hn. apply (H i ns). by left. }
  rewrite IH. split.
  - intros H i' ns' [?|?]%elem_of_cons; [by simplify_eq|by apply H].
  - intros H i' ns' ?. apply H. by right.
Qed.

Lemma group_elem c i ns :
  (i, ns) ∈ group_nodes_by_dc_idx (nodes c) ↔ ns = nodes_of c i ∧ ns ≠ [].
Proof.
  assert (dict_wf (group_nodes_by_dc_idx (nodes c))) as Hwf by (apply group_wf; constructor).
  assert (dict_get i (group_nodes_by_dc_idx (nodes c)) =
          match nodes_of c i with [] => None | l => Some l end) as Hg.
  { unfold group_nodes_by_dc_idx, nodes_of. rewrite group_get. by destruct (filter _ _). }
  split.
  - intros H%(dict_elem_get _ _ _ Hwf). rewrite Hg in H. destruct (nodes_of c i); by simplify_eq.
  - intros [-> Hne]. apply dict_get_elem. rewrite Hg. by destruct (nodes_of c i).
Qed.

(** The layout check by data centre: in the default mode it holds exactly when every data
    centre that has a node left has as many nodes as configured, in as many different racks
    as the cluster has. *)
Lemma check_cluster_layout_spec c :
  truthy (capacity_errors_check_mode c) = false ∨ capacity_errors_check_mode c = VStr "per-initial_config" →
  ∃ b, check_cluster_layout c = Ok b ∧
    (b = true ↔ ∀ i, nodes_of c i ≠ [] →
       size (list_to_set (rack <$> nodes_of c i) : gset Z) = racks_count c ∧
       n_db_nodes c !! i = Some (Z.of_nat (length (nodes_of c i)))).
Proof.
  intros Hm. exists (check_dcs c (group_nodes_by_dc_idx (nodes c))). split.
  { unfold check_cluster_layout. destruct Hm as [->| ->]; done. }
  rewrite check_dcs_true. split.
  - intros H i Hi. destruct (H i (nodes_of c i)) as [H1 H2]; [by apply group_elem|].
    rewrite count_racks_length in H1. split; [done|]. unfold configured_count in H2.
    destruct (n_db_nodes c !! i) eqn:E; simpl in H2; [by subst|].
    destruct (nodes_of c i); [done|]. simpl in H2. lia.
  - intros H i ns [-> Hne]%group_elem. rewrite count_racks_length. destruct (H i Hne) as [? Hn].
    split; [done|]. unfold configured_count. by rewrite Hn.
Qed.

(** Every data centre that has a node left has its configured nodes and racks. *)
Definition layout_kept (c : cluster) : Prop :=
  ∀ i, nodes_of c i ≠ [] →
    size (list_to_set (rack <$> nodes_of c i) : gset Z) = racks_count c ∧
    n_db_nodes c !! i = Some (Z.of_nat (length (nodes_of c i))).

(** The failures that are for want of capacity, and those that report on the layout. *)
Definition capacity_failure (x : exn) : bool :=
  match x with
  | ClientError m => insufficient m
  | ServiceUnavailable | ProvisionUnrecoverableError => true
  | _ => false
  end.
Definition guarded_failure (x : exn) : bool :=
  capacity_failure x || match x with InstanceConfigurationError => true | _ => false end.

(** A failed topology change is skipped only when it cost no node: when the decorated
    function fails, the failure becomes a skip ([UnsupportedNemesis]) exactly if it is for
    want of capacity and every data centre with nodes still has its configured nodes and
    racks; a failure that left the layout broken keeps its exception and publishes exactly
    one CRITICAL event; nothing else is published, and other exceptions pass unchanged. *)
Theorem capacity_skip_only_when_whole {W A} db_cluster bound args (f : W → cluster)
    (inner_func : act (W * list string) exn A) s s1 x :
  find_cluster db_cluster bound args = Some f →
  inner_func s = (s1, Err x) →
  truthy (capacity_errors_check_mode (f s1.1)) = false →
  let '(s2, r) := skip_on_capacity_issues db_cluster bound args inner_func s in
  s2.1 = s1.1 ∧
  (r = Err (UnsupportedNemesis "Capacity Issue") ∧ s2.2 = s1.2 ∧ capacity_failure x = true ∧ layout_kept (f s1.1) ∨
   r = Err x ∧ guarded_failure x = true ∧ ¬ layout_kept (f s1.1) ∧ (∃ m, s2.2 = s1.2 ++ [m]) ∨
   r = Err x ∧ s2.2 = s1.2 ∧ capacity_failure x = false ∧ (guarded_failure x = true → layout_kept (f s1.1))).
Proof.
  intros Hc Hi Hm. unfold skip_on_capacity_issues, bind at 1, caught. rewrite Hi, Hc.
  destruct (check_cluster_layout_spec (f s1.1)) as (b & Hb & Hiff); [by left|]. fold (layout_kept (f s1.1)) in Hiff.
  assert (layout (Some f) s1 = (s1, Ok b)) as Hl by (unfold layout; by rewrite Hb).
  assert (b = false → ¬ layout_kept (f s1.1)) as Hnot by (intros ->; rewrite <-Hiff; done).
  unfold guarded_failure. destruct x; cbn [on_skip_failure capacity_failure].
  1: destruct (insufficient msg) eqn:Ei.
  all: unfold bind; rewrite ?Hl; destruct b; unfold raise, publish_critical, modify, ret; cbn [orb fst snd].
  all: split; [done|].
  all: first [ left; split_and!; [done|done|done|by apply Hiff]
             | right; left; split_and!; [done|done|by apply Hnot|by eexists]
             | right; right; split_and!; [done|done|done|by intros; apply Hiff] ].
Qed.

Definition ex_cluster (ns : list node) : cluster := Cluster ns 1 [1; 1]%Z VNone.
Definition ex_add_nodes : act (list node * list string) exn unit := raise ServiceUnavailable.

Lemma capacity_skip_only_when_whole_witness :
  skip_on_capacity_issues (Some ex_cluster) None [] ex_add_nodes ([Node 0 0], []) =
    ([Node 0 0], [], Err (UnsupportedNemesis "Capacity Issue")) ∧
  layout_kept (ex_cluster [Node 0 0]).
Proof.
  pose proof (capacity_skip_only_when_whole (Some ex_cluster) None [] ex_cluster ex_add_nodes
    ([Node 0 0], []) ([Node 0 0], []) ServiceUnavailable eq_refl eq_refl eq_refl) as H.
  destruct (skip_on_capacity_issues _ _ _ _ _) as [s2 r] eqn:E. vm_compute in E.
  split; [by vm_compute|]. destruct H as [_ [H|[H|H]]]; [apply H| |]; exfalso.
  - destruct H as (-> & _). discriminate.
  - destruct H as (-> & _). discriminate.
Defined.

(** A data centre that lost all its nodes is not noticed: with one node configured in each
    of two data centres, a cluster without any node in the second passes the check. *)
Lemma lost_dc_unnoticed :
  check_cluster_layout (ex_cluster [Node 0 0]) = Ok true ∧ nodes_of (ex_cluster [Node 0 0]) 1 = [] ∧
  n_db_nodes (ex_cluster [Node 0 0]) !! 1%nat = Some 1%Z.
Proof. by vm_compute. Qed.
End CapacityGuards.
