(* ===== verification/Events.v ===== *)
(** * SCT events: severities, event types and their severity limits

    Model of [sdcm/sct_events/__init__.py] ([Severity]) and of the parts of
    [sdcm/sct_events/base.py] about event types: the registry of event classes
    ([SctEventTypesRegistry], [SctEvent.__init_subclass__],
    [SctEvent.add_subevent_type]), the event object with its publish-once flag,
    and the severity limits ([add_severity_limit_rules], [max_severity]).

    Points in time ([time.time()], floats in the source) are integers counting
    a fixed tick; only their order, their sums and the falsity of [0] are used. *)
From stdpp Require Import base decidable option strings numbers gmap sets list.
From Stdlib Require Import Ascii.
From S2P Require Import Prelude.
From S2P Require Import PyString.

Module Events.

(** ** Severity *)
Inductive Severity : Type :=
  | SUPPRESS | DEBUG | UNKNOWN | NORMAL | WARNING | ERROR | CRITICAL.

#[export] Instance Severity_eq_dec : EqDecision Severity.
Proof. solve_decision. Defined.

Definition value (s : Severity) : Z :=
  match s with
  | SUPPRESS => -2 | DEBUG => -1 | UNKNOWN => 0 | NORMAL => 1
  | WARNING => 2 | ERROR => 3 | CRITICAL => 4
  end.

Definition severity_name (s : Severity) : string :=
  match s with
  | SUPPRESS => "SUPPRESS" | DEBUG => "DEBUG" | UNKNOWN => "UNKNOWN" | NORMAL => "NORMAL"
  | WARNING => "WARNING" | ERROR => "ERROR" | CRITICAL => "CRITICAL"
  end.

Definition all_severities : list Severity :=
  [SUPPRESS; DEBUG; UNKNOWN; NORMAL; WARNING; ERROR; CRITICAL].

(** [Severity[name]]; [None] is the [KeyError]. *)
Definition Severity_getitem (s : string) : option Severity :=
  List.find (λ sev, String.eqb (severity_name sev) s) all_severities.

Inductive EventPeriod : Type := BEGIN | END_ | INFORMATIONAL | NOT_DEFINED.

(** ** Event classes and their registry *)
Record event_class := EventClass {
  cls_name : string;
  cls_parent : option string;
  cls_abstract : bool;
  cls_base : string;
  cls_type : option string;
  cls_subtype : option string;
}.

(** [classes] is the registry's own dictionary; [own_attrs] the attributes in
    each class's namespace, which [hasattr] and [setattr] work on. *)
Record registry := Registry {
  classes : gmap string event_class;
  own_attrs : gmap string (gset string);
  max_severities : gmap string Severity;
  limit_rules : list (string * Severity);
}.

Inductive class_error : Type := TypeError | ValueError | AssertionError.

(** [registry[key] = value]. *)
Definition setitem (r : registry) (key : string) (c : event_class) : outcome class_error registry :=
  if negb (cls_abstract c) && bool_decide (max_severities r !! key = None) then Err ValueError
  else Ok {| classes := <[key := c]> (classes r); own_attrs := own_attrs r;
             max_severities := max_severities r; limit_rules := limit_rules r |}.

Definition with_attrs (r : registry) (cls : string) (attrs : gset string) : registry :=
  {| classes := classes r;
     own_attrs := <[cls := attrs ∪ default ∅ (own_attrs r !! cls)]> (own_attrs r);
     max_severities := max_severities r; limit_rules := limit_rules r |}.

(** The creation of a subclass [name] of [parent] with the namespace attributes
    [attrs]; [type_]/[subtype_] are those the namespace sets, else inherited. *)
Definition __init_subclass__ (r : registry) (name : string) (parent : event_class) (abstract : bool)
    (attrs : gset string) (type_ subtype_ : option string) : outcome class_error registry :=
  match classes r !! name with
  | Some _ => Err TypeError
  | None =>
    let c := {| cls_name := name; cls_parent := Some (cls_name parent); cls_abstract := abstract;
                cls_base := (split_once "." name).1;
                cls_type := match type_ with Some t => Some t | None => cls_type parent end;
                cls_subtype := match subtype_ with Some t => Some t | None => cls_subtype parent end |} in
    match setitem r name c with
    | Err e => Err e
    | Ok r' => Ok (with_attrs r' name attrs)
    end
  end.

(** [SctEvent.__new__]: only a class that is not abstract can be instantiated. *)
Definition __new__ (c : event_class) : outcome class_error event_class :=
  if cls_abstract c then Err TypeError else Ok c.

(** [hasattr(cls, name)]: a walk up the parents, at most one step per class. *)
Fixpoint hasattr_fuel (fuel : nat) (r : registry) (cls name : string) : bool :=
  match fuel with
  | O => false
  | S fuel' =>
    bool_decide (name ∈ default ∅ (own_attrs r !! cls)) ||
    match cls_parent <$> (classes r !! cls) with
    | Some (Some p) => hasattr_fuel fuel' r p name
    | _ => false
    end
  end.
Definition hasattr (r : registry) (cls name : string) : bool :=
  hasattr_fuel (S (size (classes r))) r cls name.

Definition ident_start (c : ascii) : bool :=
  char_in "a" "z" c || char_in "A" "Z" c || Ascii.eqb c "_".
Definition isidentifier (s : string) : bool :=
  match s with
  | EmptyString => false
  | String c s' => ident_start c && all_chars (λ c, ident_start c || is_digit c) s'
  end.

Definition keywords : list string :=
  ["False"; "None"; "True"; "and"; "as"; "assert"; "async"; "await"; "break"; "class"; "continue";
   "def"; "del"; "elif"; "else"; "except"; "finally"; "for"; "from"; "global"; "if"; "import";
   "in"; "is"; "lambda"; "nonlocal"; "not"; "or"; "pass"; "raise"; "return"; "try"; "while";
   "with"; "yield"].
Definition iskeyword (s : string) : bool := bool_decide (s ∈ keywords).

Definition add_subevent_type (r : registry) (cls : event_class) (name : string) (abstract : bool)
    (mixin_attrs : gset string) : outcome class_error registry :=
  if negb (List.length (split_on "." (cls_name cls)) <? 3)%nat then Err AssertionError
  else if negb (isidentifier name && negb (iskeyword name)) then Err AssertionError
  else if hasattr r (cls_name cls) name then Err AssertionError
  else
    let '(t, st, nesting_level) :=
      match cls_type cls with
      | None => (Some name, None, "type")
      | Some _ => (None, Some name, "subtype")
      end in
    match __init_subclass__ r (cls_name cls +:+ "." +:+ name) cls abstract
            ({[nesting_level; "__init__"]} ∪ mixin_attrs) t st with
    | Err e => Err e
    | Ok r' => Ok (with_attrs r' (cls_name cls) {[name]})
    end.

(** ** Event objects *)

(** An element of [subcontext]: a nemesis event, or the dictionary a pickled
    event keeps of one, by the nemesis event's id. *)
Inductive context_item : Type :=
  | CtxEvent (id : string)
  | CtxDict (id : string).

#[global] Instance context_item_eq_dec : EqDecision context_item.
Proof. solve_decision. Defined.

Record event := Event {
  ev_class : string;  (* type(event).__name__ *)
  ev_base : string;
  ev_type : option string;
  ev_subtype : option string;
  severity : Severity;
  event_timestamp : option Z;
  source_timestamp : option Z;
  event_id : string;
  _ready_to_publish : bool;
  subcontext : option (list context_item);
  is_system_event : bool;  (* isinstance(event, SystemEvent) *)
  is_log_event : bool;  (* isinstance(event, LogEventProtocol) *)
  line : option string;
  line_number : Z;
  node : option string;
}.

Definition set_severity (s : Severity) (e : event) : event :=
  {| ev_class := ev_class e; ev_base := ev_base e; ev_type := ev_type e;
     ev_subtype := ev_subtype e; severity := s; event_timestamp := event_timestamp e;
     source_timestamp := source_timestamp e; event_id := event_id e;
     _ready_to_publish := _ready_to_publish e; subcontext := subcontext e;
     is_system_event := is_system_event e; is_log_event := is_log_event e; line := line e;
     line_number := line_number e; node := node e |}.

Definition set_ready (b : bool) (e : event) : event :=
  {| ev_class := ev_class e; ev_base := ev_base e; ev_type := ev_type e;
     ev_subtype := ev_subtype e; severity := severity e;
     event_timestamp := event_timestamp e; source_timestamp := source_timestamp e;
     event_id := event_id e; _ready_to_publish := b; subcontext := subcontext e;
     is_system_event := is_system_event e; is_log_event := is_log_event e; line := line e;
     line_number := line_number e; node := node e |}.

Definition set_subcontext (l : list context_item) (e : event) : event :=
  {| ev_class := ev_class e; ev_base := ev_base e; ev_type := ev_type e;
     ev_subtype := ev_subtype e; severity := severity e;
     event_timestamp := event_timestamp e; source_timestamp := source_timestamp e;
     event_id := event_id e; _ready_to_publish := _ready_to_publish e;
     subcontext := Some l; is_system_event := is_system_event e;
     is_log_event := is_log_event e; line := line e; line_number := line_number e;
     node := node e |}.

Definition set_event_id (i : string) (e : event) : event :=
  {| ev_class := ev_class e; ev_base := ev_base e; ev_type := ev_type e;
     ev_subtype := ev_subtype e; severity := severity e;
     event_timestamp := event_timestamp e; source_timestamp := source_timestamp e;
     event_id := i; _ready_to_publish := _ready_to_publish e; subcontext := subcontext e;
     is_system_event := is_system_event e; is_log_event := is_log_event e; line := line e;
     line_number := line_number e; node := node e |}.

(** The attributes [add_info] writes; [src] is the parsed time of the line, if it parsed. *)
Definition set_log_info (now : Z) (src : option Z) (n : string) (l : string) (ln : Z) (e : event) : event :=
  {| ev_class := ev_class e; ev_base := ev_base e; ev_type := ev_type e;
     ev_subtype := ev_subtype e; severity := severity e; event_timestamp := Some now;
     source_timestamp := match src with Some t => Some t | None => source_timestamp e end;
     event_id := event_id e; _ready_to_publish := _ready_to_publish e;
     subcontext := subcontext e; is_system_event := is_system_event e;
     is_log_event := is_log_event e; line := Some l; line_number := ln; node := Some n |}.

Definition set_event_timestamp (t : Z) (e : event) : event :=
  {| ev_class := ev_class e; ev_base := ev_base e; ev_type := ev_type e;
     ev_subtype := ev_subtype e; severity := severity e;
     event_timestamp := Some t; source_timestamp := source_timestamp e;
     event_id := event_id e; _ready_to_publish := _ready_to_publish e; subcontext := subcontext e;
     is_system_event := is_system_event e; is_log_event := is_log_event e; line := line e;
     line_number := line_number e; node := node e |}.

(** [source_timestamp or event_timestamp]. *)
Definition timestamp (e : event) : option Z :=
  if truthy (source_timestamp e) then source_timestamp e else event_timestamp e.

(** *** Publishing

    [queue] is what the main events device received; [dumped] what the file
    logger wrote directly; [logged] what went to the default logger. *)
Record channel := Channel {
  queue : list event;
  dumped : list event;
  logged : list event;
}.

(** The main events device as the process registry gives it. *)
Inductive device : Type :=
  | NoRegistry          (* get_events_main_device raises RuntimeError *)
  | NoDevice            (* it returns None *)
  | DeadDevice
  | AliveDevice.

Inductive publish_error : Type := NoRegistryError | NoneHasNoPublishEvent.

(** [pickle] keeps what [__getstate__] gives: no attribute with a leading
    underscore, so the copy has the class's [_ready_to_publish = False], and the
    events of the subcontext as dictionaries. *)
Definition context_dict (c : context_item) : context_item :=
  match c with CtxEvent i | CtxDict i => CtxDict i end.

Definition pickled (e : event) : event :=
  set_subcontext (context_dict <$> default [] (subcontext e)) (set_ready false e).

(** [EventsDevice.publish_event]. *)
Definition publish_event (e : event) (ch : channel) : channel :=
  {| queue := queue ch ++ [pickled e]; dumped := dumped ch; logged := logged ch |}.

Definition publish (d : device) (e : event) (ch : channel) : outcome publish_error (event * channel) :=
  if negb (_ready_to_publish e) then Ok (e, ch)
  else match d with
       | NoRegistry => Err NoRegistryError
       | NoDevice => Err NoneHasNoPublishEvent
       | DeadDevice | AliveDevice => Ok (set_ready false e, publish_event e ch)
       end.

(** The file logger is registered whenever the device is. *)
Definition publish_or_dump (d : device) (default_logger : bool) (e : event) (ch : channel)
    : event * channel :=
  if negb (_ready_to_publish e) then (e, ch)
  else
    let '(e1, ch1) :=
      match d with
      | AliveDevice => match publish d e ch with Ok p => p | Err _ => (e, ch) end
      | DeadDevice => (e, {| queue := queue ch; dumped := dumped ch ++ [e]; logged := logged ch |})
      | NoRegistry | NoDevice =>
        if default_logger
        then (e, {| queue := queue ch; dumped := dumped ch; logged := logged ch ++ [e] |})
        else (e, ch)
      end in
    (set_ready false e1, ch1).

Definition dont_publish (e : event) : event := set_ready false e.
Definition ready_to_publish (e : event) : event := set_ready true e.

(** *** Context of errors *)

(** [add_subcontext]; [running] are the ids of the running disruption events. *)
Definition add_subcontext (running : list string) (e : event) : event :=
  if (value (severity e) <? 3)%Z then e
  else
    let sub := default [] (subcontext e) in
    if String.eqb (ev_base e) "DisruptionEvent" then set_subcontext sub e
    else match running with
         | [] => set_subcontext sub e
         | _ =>
           let sub0 := if (length running =? 1)%nat then [] else sub in
           set_subcontext
             (foldl (λ acc n, if bool_decide (CtxEvent n ∈ acc) then acc else acc ++ [CtxEvent n])
                sub0 running) e
         end.

(** *** Log events *)

(** The guard of [LogEvent.__init__]: [assert ".*".count(regex) < 2]. *)
Definition log_event_regex_ok (regex : string) : bool :=
  if truthy regex then (str_count ".*" regex <? 2)%nat else true.

Inductive log_error : Type := IndexError.

Section LogEvents.
(** [dateutil.parser.parse] of a timestamp, as UTC; [None] is its [ValueError]. *)
Context (parse_time : string → option Z).

Definition event_time (l : string) : outcome log_error string :=
  match split_ws l with
  | [] => Err IndexError
  | w :: ws => if contains "T" w then Ok w else Ok (join " " (take 2 (w :: ws)))
  end.

Definition add_info (now : Z) (running : list string) (n : string) (l : string) (ln : Z) (e : event)
    : outcome log_error event :=
  match event_time l with
  | Err x => Err x
  | Ok t => Ok (set_ready true (add_subcontext running (set_log_info now (parse_time t) n l ln e)))
  end.

(** The first pattern that finds the line; a pattern is its search predicate. *)
Definition find_log_event (patterns : list ((string → bool) * event)) (l : string) : option event :=
  snd <$> List.find (λ p, p.1 l) patterns.

Inductive log_line_error : Type := LineError (e : log_error) | PublishError (e : publish_error).

(** [clone] pickles and unpickles the prototype. *)
Definition publish_log_line_event (d : device) (now : Z) (running : list string)
    (patterns : list ((string → bool) * event)) (l : string) (n : string) (ln : Z)
    (new_id : option string) (stop_test_on_failure : bool) (ch : channel)
    : outcome log_line_error (bool * channel) :=
  match find_log_event patterns l with
  | None => Ok (false, ch)
  | Some prototype =>
    let e := pickled prototype in
    let e := match new_id with
             | Some i => if truthy i then set_event_id i e else e
             | None => e
             end in
    let e := if bool_decide (severity e = CRITICAL) && negb stop_test_on_failure
             then set_severity ERROR e else e in
    match add_info now running n l ln e with
    | Err x => Err (LineError x)
    | Ok e' => match publish d e' ch with
               | Err x => Err (PublishError x)
               | Ok (_, ch') => Ok (true, ch')
               end
    end
  end.
End LogEvents.

(** ** Severity limits *)

(** One entry of the [max severity] configuration, [pattern=SEVERITY]; malformed
    entries are logged and skipped. *)
Definition parse_limit_rule (rule : string) : option (string * Severity) :=
  if negb (truthy rule) then None
  else match split_once "=" rule with
       | (_, None) => None
       | (pattern, Some sev) =>
         match Severity_getitem (strip sev) with
         | None => None
         | Some s => Some (strip pattern, s)
         end
       end.

Definition add_severity_limit_rules (rules : list string) (r : registry) : registry :=
  foldl (λ r rule, match parse_limit_rule rule with
                   | None => r
                   | Some ps => {| classes := classes r; own_attrs := own_attrs r;
                                   max_severities := max_severities r;
                                   limit_rules := ps :: limit_rules r |}
                   end) r rules.

(** [None] is the [KeyError] of [max_severities[name]]. *)
Fixpoint first_limit (rules : list (string * Severity)) (keys : list string) : option Severity :=
  match rules with
  | [] => None
  | (pattern, sev) :: rules' =>
    if existsb (λ k, fnmatch k pattern) keys then Some sev else first_limit rules' keys
  end.

Definition _max_severity (r : registry) (keys : list string) (name : string) : option Severity :=
  match first_limit (limit_rules r) keys with
  | Some sev => Some sev
  | None => max_severities r !! name
  end.

(** [str] of an optional attribute, as an f-string renders it. *)
Definition str_opt (o : option string) : string := default "None" o.

Definition max_severity (r : registry) (e : event) : option Severity :=
  let k1 := ev_base e in
  let k2 := ev_base e +:+ "." +:+ str_opt (ev_type e) in
  let k3 := ev_base e +:+ "." +:+ str_opt (ev_type e) +:+ "." +:+ str_opt (ev_subtype e) in
  _max_severity r [k1; k2; k3] (ev_class e).

(** The names [print_critical_events] lists, for the names in their order. *)
Definition print_critical_events (r : registry) (names : list string) : list string :=
  filter (λ n, _max_severity r [n] n = Some CRITICAL) names.

(** ** Specification vocabulary *)
Definition option_list {A} (o : option A) : list A :=
  match o with Some a => [a] | None => [] end.

Definition init_registry (severities : gmap string Severity) : registry :=
  {| classes := {["SctEvent" := EventClass "SctEvent" None true "SctEvent" None None]};
     own_attrs := ∅; max_severities := severities; limit_rules := [] |}.

Definition no_dot (s : string) : Prop := all_chars (λ c, negb (Ascii.eqb c ".")) s = true.

(** What the module level of the source does to the registry: class statements
    (whose bases have no [type] of their own), [add_subevent_type] calls and the
    installation of limit rules. *)
Inductive class_step : registry → registry → Prop :=
  | step_class r name parent abstract attrs r' :
      classes r !! cls_name parent = Some parent → cls_type parent = None → no_dot name →
      __init_subclass__ r name parent abstract attrs None None = Ok r' →
      class_step r r'
  | step_subevent r cls name abstract mixin r' :
      classes r !! cls_name cls = Some cls →
      add_subevent_type r cls name abstract mixin = Ok r' →
      class_step r r'
  | step_rules r rules : class_step r (add_severity_limit_rules rules r).

(** Every registered class has the name its base, type and subtype spell, and
    every concrete one has a configured maximum severity. *)
Definition wf_class (r : registry) (n : string) (c : event_class) : Prop :=
  cls_name c = n ∧
  split_on "." n = cls_base c :: option_list (cls_type c) ++ option_list (cls_subtype c) ∧
  (cls_type c = None → cls_subtype c = None) ∧
  (cls_abstract c = false → is_Some (max_severities r !! n)).

Definition wf_registry (r : registry) : Prop :=
  ∀ n c, classes r !! n = Some c → wf_class r n c.

(** An event object of class [c]. *)
Definition instance_of (e : event) (c : event_class) : Prop :=
  ev_class e = cls_name c ∧ ev_base e = cls_base c ∧ ev_type e = cls_type c ∧
  ev_subtype e = cls_subtype c.

(** The severity a sequence of limit rules gives: the last rule that matches. *)
Definition rule_for (keys : list string) (rule : string) : option Severity :=
  match parse_limit_rule rule with
  | Some (pattern, sev) => if existsb (λ k, fnmatch k pattern) keys then Some sev else None
  | None => None
  end.

Inductive publish_op : Type :=
  | OpPublish (d : device)
  | OpPublishOrDump (d : device) (default_logger : bool)
  | OpDontPublish
  | OpReady.

(** A call that raises leaves the event and the channels as they were. *)
Definition run_publish_op (o : publish_op) (s : event * channel) : event * channel :=
  match o with
  | OpPublish d => match publish d s.1 s.2 with Ok s' => s' | Err _ => s end
  | OpPublishOrDump d l => publish_or_dump d l s.1 s.2
  | OpDontPublish => (dont_publish s.1, s.2)
  | OpReady => (ready_to_publish s.1, s.2)
  end.

Definition emitted (ch : channel) : nat :=
  length (queue ch) + length (dumped ch) + length (logged ch).

Definition armed (e : event) : nat := if _ready_to_publish e then 1 else 0.

Definition is_ready_op (o : publish_op) : bool := match o with OpReady => true | _ => false end.

(** ** Lemmas *)
Lemma setitem_Ok r k c r' :
  setitem r k c = Ok r' →
  classes r' = <[k := c]> (classes r) ∧ max_severities r' = max_severities r ∧
  (cls_abstract c = false → is_Some (max_severities r !! k)).
Proof.
  unfold setitem. destruct (cls_abstract c); simpl.
  - intros [= <-]. simpl. naive_solver.
  - case_bool_decide as Hb; [done|]. intros [= <-]. simpl.
    split_and!; [done..|]. intros _. destruct (max_severities r !! k); [eauto|done].
Qed.

Lemma init_subclass_Ok r name parent abstract attrs t st r' :
  __init_subclass__ r name parent abstract attrs t st = Ok r' →
  ∃ c, classes r' = <[name := c]> (classes r) ∧ max_severities r' = max_severities r ∧
       classes r !! name = None ∧
       cls_name c = name ∧ cls_base c = (split_once "." name).1 ∧
       cls_type c = match t with Some t => Some t | None => cls_type parent end ∧
       cls_subtype c = match st with Some t => Some t | None => cls_subtype parent end ∧
       (cls_abstract c = false → is_Some (max_severities r !! name)).
Proof.
  unfold __init_subclass__. destruct (classes r !! name) eqn:En; [done|].
  destruct (setitem r name _) as [r1|] eqn:Es; [|done]. intros [= <-].
  apply setitem_Ok in Es as (Hc & Hm & Ha). simpl in *. eexists. split_and!; [done..|].
  intros H. apply Ha. exact H.
Qed.

Lemma wf_registry_extend r r' name c :
  wf_registry r → classes r' = <[name := c]> (classes r) →
  max_severities r' = max_severities r → wf_class r' name c → wf_registry r'.
Proof.
  intros Hwf Hc Hm Hn n d Hd. rewrite Hc in Hd.
  destruct (decide (n = name)) as [->|Hne].
  - rewrite lookup_insert_eq in Hd. by simplify_eq.
  - rewrite lookup_insert_ne in Hd by done.
    destruct (Hwf n d Hd) as (? & ? & ? & ?). unfold wf_class. by rewrite Hm.
Qed.

Lemma isidentifier_no_dot s : isidentifier s = true → no_dot s.
Proof.
  assert (∀ c, ident_start c || is_digit c = true → negb (Ascii.eqb c ".") = true) as Hc.
  { intros c H. apply negb_true_iff, not_true_is_false. intros ->%Ascii.eqb_eq.
    by vm_compute in H. }
  unfold no_dot. destruct s as [|c s]; [done|]. simpl. intros [H1 H2]%andb_true_iff.
  apply andb_true_iff. split; [apply Hc; by rewrite H1|].
  clear H1. induction s as [|d s IH]; [done|]. simpl in *.
  apply andb_true_iff in H2 as [Hd Hs]. apply andb_true_iff. auto.
Qed.

Lemma rules_preserve rules r :
  classes (add_severity_limit_rules rules r) = classes r ∧
  max_severities (add_severity_limit_rules rules r) = max_severities r.
Proof.
  unfold add_severity_limit_rules. revert r.
  induction rules as [|rule rules IH]; intros r; simpl; [done|].
  destruct (parse_limit_rule rule); [|apply IH].
  match goal with |- context [foldl _ ?r1 rules] => destruct (IH r1) as [-> ->] end. done.
Qed.

Lemma class_step_wf r r' : class_step r r' → wf_registry r → wf_registry r'.
Proof.
  intros [r0 name parent abstract attrs r1 Hp Ht Hnd Hi | r0 cls name abstract mixin r1 Hp Ha | r0 rules] Hwf.
  - apply init_subclass_Ok in Hi as (c & Hc & Hm & _ & Hn & Hb & Hty & Hst & Hmax).
    destruct (Hwf _ _ Hp) as (_ & _ & Hns & _).
    eapply wf_registry_extend; [done..|]. unfold wf_class. rewrite Hty, Hst, Ht, Hm, (Hns Ht); simpl.
    split_and!; [done| |done|done].
    pose proof (split_on_no_sep "." name Hnd) as E.
    rewrite E, Hb. by rewrite (split_once_head "." name _ _ E).
  - unfold add_subevent_type in Ha.
    destruct (negb _) eqn:Hlen in Ha; [done|]. apply negb_false_iff, Nat.ltb_lt in Hlen.
    destruct (negb _) eqn:Hid in Ha; [done|].
    apply negb_false_iff, andb_true_iff in Hid as [Hid%isidentifier_no_dot _].
    destruct (hasattr _ _ _); [done|].
    destruct (Hwf _ _ Hp) as (_ & Hsp & Hns & _).
    set (n' := cls_name cls +:+ "." +:+ name) in *.
    assert (split_on "." n' = split_on "." (cls_name cls) ++ [name]) as Hn'.
    { unfold n'. change ("." +:+ name) with (String "." name).
      rewrite split_on_cat. f_equal. by apply split_on_no_sep. }
    destruct (cls_type cls) as [ty|] eqn:Hty0.
    + destruct (__init_subclass__ _ _ _ _ _ _ _) as [r2|] eqn:Hi; [|done]. simplify_eq.
      apply init_subclass_Ok in Hi as (c & Hc & Hm & _ & Hn & Hb & Hty & Hst & Hmax).
      eapply (wf_registry_extend r0 _ n' c); [done|exact Hc|exact Hm|].
      destruct (cls_subtype cls) as [sub|]; [rewrite Hsp in Hlen; simpl in Hlen; lia|].
      rewrite Hsp in Hn'. simpl in Hn'.
      unfold wf_class. rewrite Hty, Hty0, Hst, Hn', Hb, (split_once_head "." n' _ _ Hn').
      split_and!; [done..|]. simpl. by rewrite Hm.
    + destruct (__init_subclass__ _ _ _ _ _ _ _) as [r2|] eqn:Hi; [|done]. simplify_eq.
      apply init_subclass_Ok in Hi as (c & Hc & Hm & _ & Hn & Hb & Hty & Hst & Hmax).
      eapply (wf_registry_extend r0 _ n' c); [done|exact Hc|exact Hm|].
      rewrite Hns in Hsp by done. rewrite Hsp in Hn'. simpl in Hn'.
      unfold wf_class. rewrite Hty, Hst, (Hns eq_refl), Hn', Hb, (split_once_head "." n' _ _ Hn').
      split_and!; [done..|]. simpl. by rewrite Hm.
  - destruct (rules_preserve rules r0) as [Hc Hm]. intros n c Hn. rewrite Hc in Hn.
    destruct (Hwf n c Hn) as (? & ? & ? & ?). unfold wf_class. by rewrite Hm.
Qed.

Lemma init_registry_wf severities : wf_registry (init_registry severities).
Proof.
  intros n c. simpl. intros [<- <-]%lookup_singleton_Some. repeat split; done.
Qed.

Lemma reachable_wf severities r : rtc class_step (init_registry severities) r → wf_registry r.
Proof.
  intros Hr. refine (rtc_ind_r wf_registry _ (init_registry_wf severities) _ r Hr).
  intros x y _ Hs. by apply class_step_wf.
Qed.

Lemma first_limit_add rules r keys :
  first_limit (limit_rules (add_severity_limit_rules rules r)) keys =
  match list.last (omap (rule_for keys) rules) with
  | Some s => Some s
  | None => first_limit (limit_rules r) keys
  end.
Proof.
  unfold add_severity_limit_rules. revert r.
  induction rules as [|rule rules IH]; intros r; [done|]. cbn [foldl omap list_omap].
  rewrite IH. unfold rule_for at 2. destruct (parse_limit_rule rule) as [[pat sev]|]; simpl; [|done].
  destruct (existsb _ keys); [|by destruct (last _)].
  rewrite last_cons. by destruct (last _).
Qed.

Lemma run_publish_op_emits o s :
  emitted (run_publish_op o s).2 + armed (run_publish_op o s).1 ≤
  emitted s.2 + armed s.1 + (if is_ready_op o then 1 else 0).
Proof.
  destruct s as [e ch], o; unfold run_publish_op, publish, publish_or_dump, publish, armed, emitted;
    simpl; destruct (_ready_to_publish e) eqn:E; simpl; rewrite ?E; simpl; try lia;
    try (destruct d; simpl; rewrite ?E; simpl; rewrite ?length_app; simpl; lia).
  destruct d; simpl; rewrite ?E; [destruct default_logger| destruct default_logger|..];
    simpl; rewrite ?length_app; simpl; lia.
Qed.

Lemma add_subcontext_only running e :
  add_subcontext running e = e ∨ ∃ sub, add_subcontext running e = set_subcontext sub e.
Proof. unfold add_subcontext. repeat case_match; eauto. Qed.

Lemma event_time_total l : split_ws l ≠ [] → ∃ t, event_time l = Ok t.
Proof. unfold event_time. intros Hl. destruct (split_ws l) as [|w ws]; [done|]. case_match; eauto. Qed.

(** ** Properties *)

(** Severity limits are total on real events: for every registry the event
    modules can build, an event of a registered, instantiable class has a maximum
    severity (the [max_severities] lookup cannot raise [KeyError]), and the class's
    own name is the most specific of the keys its limit rules are matched against. *)
Theorem max_severity_total severities r c e :
  rtc class_step (init_registry severities) r →
  classes r !! cls_name c = Some c →
  __new__ c = Ok c →
  instance_of e c →
  is_Some (max_severity r e) ∧
  cls_name c = join "." (ev_base e :: option_list (ev_type e) ++ option_list (ev_subtype e)).
Proof.
  intros Hr Hc Hnew (He & Hb & Ht & Hs).
  destruct (reachable_wf _ _ Hr _ _ Hc) as (_ & Hsp & _ & Hmax).
  assert (cls_abstract c = false) as Ha by (unfold __new__ in Hnew; by destruct (cls_abstract c)).
  split.
  - unfold max_severity, _max_severity. rewrite He. destruct (first_limit _ _); [eauto|]. by apply Hmax.
  - rewrite Hb, Ht, Hs, <- Hsp. symmetry. apply join_split_on.
Qed.

(** The rule installed last wins: after [add_severity_limit_rules], an
    event's limit is that of the last given rule whose pattern matches one of its
    keys; without one it is what it was before, rules and defaults included. *)
Theorem latest_limit_rule_wins rules r keys name :
  _max_severity (add_severity_limit_rules rules r) keys name =
  match list.last (omap (rule_for keys) rules) with
  | Some s => Some s
  | None => _max_severity r keys name
  end.
Proof.
  unfold _max_severity. rewrite first_limit_add.
  destruct (rules_preserve rules r) as [_ ->]. by destruct (list.last _).
Qed.

(** An event reaches the consumers at most once per arming: whatever
    sequence of [publish], [publish_or_dump], [dont_publish] and
    [ready_to_publish] is called on one event, the number of copies in the queue,
    the event files and the fallback log grows by at most one if it was ready plus
    one per [ready_to_publish]. *)
Theorem publish_at_most_once ops e ch :
  emitted (foldl (λ s o, run_publish_op o s) (e, ch) ops).2 ≤
  emitted ch + armed e + length (filter (λ o, is_ready_op o = true) ops).
Proof.
  enough (∀ s, emitted (foldl (λ s o, run_publish_op o s) s ops).2 ≤
               emitted s.2 + armed s.1 + length (filter (λ o, is_ready_op o = true) ops)) as H.
  { apply (H (e, ch)). }
  induction ops as [|o ops IH]; intros s; simpl; [lia|].
  specialize (IH (run_publish_op o s)). pose proof (run_publish_op_emits o s) as Ho.
  rewrite filter_cons. destruct (is_ready_op o); simpl; lia.
Qed.

(** The check that is meant to keep slow [.*] patterns out of log events
    accepts every regular expression: it counts the expression in [".*"], not
    [".*"] in the expression. *)
Theorem log_event_regex_check_is_vacuous regex : log_event_regex_ok regex = true.
Proof.
  unfold log_event_regex_ok. destruct regex as [|a [|b regex]]; [done|..]; simpl.
  - destruct (Ascii.eqb_spec a "."), (Ascii.eqb_spec a "*"); subst; done.
  - destruct (Ascii.eqb_spec a "."), (Ascii.eqb_spec b "*"), (Ascii.eqb_spec a "*"), regex; subst; done.
Qed.

(** A log line is reported by the first pattern that finds it and by no
    other: exactly one event is queued, with the line, its number and the node,
    and with the prototype's severity except that CRITICAL becomes ERROR when the
    test must not stop. *)
Theorem publish_log_line_event_first_match parse_time now running pre p proto post l n ln new_id stop ch :
  Forall (λ q, q.1 l = false) pre →
  p l = true →
  split_ws l ≠ [] →
  ∃ e, publish_log_line_event parse_time AliveDevice now running (pre ++ (p, proto) :: post) l n ln
         new_id stop ch = Ok (true, {| queue := queue ch ++ [e]; dumped := dumped ch; logged := logged ch |}) ∧
       line e = Some l ∧ line_number e = ln ∧ node e = Some n ∧
       severity e = (if bool_decide (severity proto = CRITICAL) && negb stop then ERROR
                     else severity proto).
Proof.
  intros Hpre Hp Hl. unfold publish_log_line_event.
  assert (find_log_event (pre ++ (p, proto) :: post) l = Some proto) as ->.
  { unfold find_log_event. induction Hpre as [|q pre Hq _ IH]; simpl; [by rewrite Hp|by rewrite Hq]. }
  unfold add_info. destruct (event_time_total l Hl) as [t ->].
  set (e0 := match new_id with Some i => _ | None => _ end).
  assert (severity e0 = severity proto) as Hsev by (unfold e0; repeat case_match; done).
  rewrite Hsev. eexists. split; [reflexivity|].
  destruct (bool_decide (severity proto = CRITICAL) && negb stop);
    (match goal with |- context [add_subcontext ?r ?x] =>
       destruct (add_subcontext_only r x) as [->|[? ->]] end); simpl; auto.
Qed.

(** *** Witnesses *)
Definition ex_severities : gmap string Severity := {["InfoEvent" := NORMAL; "LogEvent.BAD" := ERROR]}.
Definition ex_root : event_class := EventClass "SctEvent" None true "SctEvent" None None.
Definition ex_info : event_class :=
  EventClass "InfoEvent" (Some "SctEvent") false "InfoEvent" None None.
Definition ex_event : event :=
  Event "InfoEvent" "InfoEvent" None None CRITICAL (Some 5%Z) None "id-1" true (Some [])
    false false None 0 None.
Definition ex_registry : registry :=
  match __init_subclass__ (init_registry ex_severities) "InfoEvent" ex_root false ∅ None None with
  | Ok r => r
  | Err _ => init_registry ex_severities
  end.

Lemma max_severity_total_witness :
  is_Some (max_severity ex_registry ex_event) ∧ "InfoEvent" = join "." ["InfoEvent"].
Proof.
  apply (max_severity_total ex_severities ex_registry ex_info ex_event).
  - apply rtc_once. apply (step_class _ "InfoEvent" ex_root false ∅); reflexivity.
  - reflexivity.
  - reflexivity.
  - repeat split; reflexivity.
Defined.

Lemma publish_log_line_event_first_match_witness :
  ∃ e, publish_log_line_event (λ _, None) AliveDevice 7 [] [(contains "x", ex_event); (contains "oom", ex_event)]
         "2024-01-01 oom killed" "node-1" 3 (Some "id-9") false (Channel [] [] []) =
       Ok (true, {| queue := [e]; dumped := []; logged := [] |}) ∧
       line e = Some "2024-01-01 oom killed" ∧ line_number e = 3%Z ∧ node e = Some "node-1" ∧ severity e = ERROR.
Proof.
  apply (publish_log_line_event_first_match (λ _, None) 7 [] [(contains "x", ex_event)] (contains "oom")
           ex_event [] "2024-01-01 oom killed" "node-1" 3 (Some "id-9") false (Channel [] [] [])).
  - repeat constructor.
  - reflexivity.
  - vm_compute. discriminate.
Defined.

End Events.
