(* ===== verification/EventFilters.v ===== *)
(** Event filters: [BaseFilter] of [sdcm/sct_events/base.py] and the three
    filters of [sdcm/sct_events/filters.py].

    Regular expressions are compiled by [re], which is an argument here: a
    compiled pattern is its [search] and [match] predicates, and a pattern that
    does not compile raises [ValueError] when the filter is evaluated. So is the
    text [str(event)] of an event. Time stamps are integers in one unit of time
    (seconds); only their order and sums are used. *)
From stdpp Require Import base decidable option strings numbers gmap sets list.
From S2P Require Import Prelude.
From S2P Require Import PyString.
From S2P Require Import Events.

Module Filters.
Import Events.
#[local] Open Scope Z_scope.
#[local] Open Scope py_scope.

Record pattern := Pattern { re_search : string → bool; re_match : string → bool }.

(** [re.MULTILINE | re.DOTALL]. *)
Definition MULTILINE_DOTALL : Z := Z.lor 8 16.
Definition FILTER_EVENT_DECAY_TIME : Z := 600.

Inductive filter_kind : Type :=
  | DbEventsFilter (filter_type filter_node : option string)
  | EventsFilter (event_class : option string)
  | EventsSeverityChangerFilter (event_class : option string) (new_severity : Severity).

Record filter_obj := FilterObj {
  uuid : string;
  kind : filter_kind;
  regex : option string;
  regex_flags : Z;
  extra_time_to_expiration : option Z;
  expire_time : option Z;
  clear_filter : bool;
}.

Definition set_expire_time (t : option Z) (f : filter_obj) : filter_obj :=
  {| uuid := uuid f; kind := kind f; regex := regex f; regex_flags := regex_flags f;
     extra_time_to_expiration := extra_time_to_expiration f; expire_time := t;
     clear_filter := clear_filter f |}.

Definition set_clear_filter (f : filter_obj) : filter_obj :=
  {| uuid := uuid f; kind := kind f; regex := regex f; regex_flags := regex_flags f;
     extra_time_to_expiration := extra_time_to_expiration f; expire_time := expire_time f;
     clear_filter := true |}.

(** ** Constructors *)

(** A [line] or [regex] argument: nothing, a string or a compiled pattern. *)
Inductive regex_arg : Type :=
  | NoRegex
  | RegexStr (s : string)
  | RegexPattern (pat : string) (flags : Z).

(** A [node] argument: nothing, an object with a [name], or a string. *)
Inductive node_arg : Type :=
  | NoNode
  | NodeNamed (name : string)
  | NodeStr (s : string).

Definition filter_node_of (n : node_arg) : option string :=
  match n with
  | NoNode => None
  | NodeNamed name => Some name
  | NodeStr s => if truthy s then Some s else None
  end.

Definition DbEventsFilter_init (id : string) (db_event_type : option string) (line : regex_arg)
    (node : node_arg) (extra : option Z) : filter_obj :=
  let '(rx, fl) := match line with
                   | RegexPattern p fl => (Some p, fl)
                   | RegexStr s => (Some s, MULTILINE_DOTALL)
                   | NoRegex => (None, 0)
                   end in
  FilterObj id (DbEventsFilter db_event_type (filter_node_of node)) rx fl extra None false.

Inductive filter_error : Type := ValueError | AssertionError.

Definition regex_arg_truthy (a : regex_arg) : bool :=
  match a with NoRegex => false | RegexStr s => truthy s | RegexPattern _ _ => true end.

(** [event_class] is the name of the class, which gets a sentinel for a prefix match. *)
Definition EventsFilter_init (id : string) (event_class : option string) (rx : regex_arg)
    (extra : option Z) : outcome filter_error filter_obj :=
  if negb (bool_decide (is_Some event_class) || regex_arg_truthy rx) then Err AssertionError
  else
    let '(r, fl) := match rx with
                    | RegexPattern p fl => (Some p, fl)
                    | RegexStr s => (Some s, MULTILINE_DOTALL)
                    | NoRegex => (None, MULTILINE_DOTALL)
                    end in
    Ok (FilterObj id (EventsFilter ((λ c, c +:+ ".") <$> event_class)) r fl extra None false).

Definition EventsSeverityChangerFilter_init (id : string) (new_severity : Severity)
    (event_class : option string) (rx : regex_arg) (extra : option Z) : outcome filter_error filter_obj :=
  try! f := EventsFilter_init id event_class rx extra in
  Ok {| uuid := uuid f;
        kind := EventsSeverityChangerFilter
                  (match kind f with EventsFilter c => c | _ => None end) new_severity;
        regex := regex f; regex_flags := regex_flags f;
        extra_time_to_expiration := extra_time_to_expiration f;
        expire_time := expire_time f; clear_filter := clear_filter f |}.

(** ** Life cycle *)

(** [BaseFilter.cancel_filter], then the override of the two filter classes; it
    publishes the filter it returns. *)
Definition base_cancel_filter (now : Z) (f : filter_obj) : filter_obj :=
  set_clear_filter (if bool_decide (expire_time f = None) then set_expire_time (Some now) f else f).

Definition cancel_filter (now : Z) (f : filter_obj) : filter_obj :=
  base_cancel_filter now
    (if truthy (extra_time_to_expiration f)
     then set_expire_time (Some (now + default 0 (extra_time_to_expiration f))) f else f).

Definition is_deceased (now : Z) (f : filter_obj) : bool :=
  truthy (expire_time f) && (default 0 (expire_time f) + FILTER_EVENT_DECAY_TIME <=? now).

(** ** Evaluation *)
Section Eval.
Context (re_compile : string → Z → option pattern) (event_str : event → string).

(** The cached property [_regex]. *)
Definition _regex (f : filter_obj) : outcome filter_error (option pattern) :=
  match regex f with
  | None => Ok None
  | Some s => if negb (truthy s) then Ok None
              else match re_compile s (regex_flags f) with
                   | Some p => Ok (Some p)
                   | None => Err ValueError
                   end
  end.

(** [self.expire_time and event.timestamp and self.expire_time < event.timestamp]. *)
Definition expired_for (f : filter_obj) (e : event) : bool :=
  truthy (expire_time f) && truthy (timestamp e) &&
  (default 0 (expire_time f) <? default 0 (timestamp e)).

Definition db_eval_filter (ftype fnode : option string) (f : filter_obj) (e : event)
    : outcome filter_error bool :=
  if negb (is_log_event e) then Ok false
  else if expired_for f e then Ok false
  else
    let result := truthy ftype && bool_decide (ftype = ev_type e) in
    try! rx := _regex f in
    let result := match rx with
                  | Some p => result && re_search p (default EmptyString (line e))
                  | None => result
                  end in
    Ok (if truthy fnode
        then result && bool_decide (default EmptyString fnode ∈ split_ws (default EmptyString (node e)))
        else result).

Definition class_eval_filter (cls : option string) (f : filter_obj) (e : event)
    : outcome filter_error bool :=
  if expired_for f e then Ok false
  else
    let result := negb (truthy cls) || startswith (default EmptyString cls) (ev_class e +:+ ".") in
    try! rx := _regex f in
    Ok (match rx with
        | Some p => result && re_match p (event_str e)
        | None => result
        end).

(** The answer and the event, whose severity a severity changer overwrites. *)
Definition eval_filter (f : filter_obj) (e : event) : outcome filter_error (bool * event) :=
  match kind f with
  | DbEventsFilter t n => try! b := db_eval_filter t n f e in Ok (b, e)
  | EventsFilter c => try! b := class_eval_filter c f e in Ok (b, e)
  | EventsSeverityChangerFilter c s =>
    try! b := class_eval_filter c f e in Ok (false, if b then set_severity s e else e)
  end.

(** ** Lemmas *)
Definition is_changer (f : filter_obj) : bool :=
  match kind f with EventsSeverityChangerFilter _ _ => true | _ => false end.

Definition compiles (f : filter_obj) : bool := is_ok (_regex f).

(** A filter changes nothing of an event but its severity. *)
Lemma eval_filter_only_severity f e b e' :
  eval_filter f e = Ok (b, e') → ∃ s, e' = set_severity s e.
Proof.
  assert (e = set_severity (severity e) e) as He by (by destruct e).
  unfold eval_filter. destruct (kind f); simpl.
  1-2: destruct (_ : outcome _ bool); intros; simplify_eq/=; eauto.
  destruct (class_eval_filter _ f e) as [[]|]; intros; simplify_eq/=; eauto.
Qed.

Lemma eval_filter_changer f e b e' : is_changer f = true → eval_filter f e = Ok (b, e') → b = false.
Proof.
  unfold eval_filter, is_changer. destruct (kind f); [done..|]. intros _.
  by destruct (class_eval_filter _ f e) as [[]|]; intros; simplify_eq/=.
Qed.

Lemma eval_filter_not_changer f e b e' : is_changer f = false → eval_filter f e = Ok (b, e') → e' = e.
Proof.
  unfold eval_filter, is_changer. destruct (kind f); [..|done]; intros _;
    destruct (_ : outcome _ bool); intros; by simplify_eq/=.
Qed.

Lemma eval_filter_total f e : compiles f = true → is_ok (eval_filter f e) = true.
Proof.
  unfold compiles, eval_filter, db_eval_filter, class_eval_filter. intros Hc.
  destruct (_regex f) as [rx|]; [|done]. by destruct (kind f); repeat case_match; simplify_eq/=.
Qed.

(** An event after the filter's expiry is not filtered, nor changed. *)
Lemma eval_filter_expired f e :
  expired_for f e = true → eval_filter f e = Ok (false, e).
Proof.
  unfold eval_filter, db_eval_filter, class_eval_filter. intros ->.
  destruct (kind f); simpl; try done. by destruct (is_log_event e).
Qed.

(** The expiry of a filter matters only through [expired_for]. *)
Lemma eval_filter_set_expire o f e :
  expired_for (set_expire_time o f) e = false → expired_for f e = false →
  eval_filter (set_expire_time o f) e = eval_filter f e.
Proof. unfold eval_filter, db_eval_filter, class_eval_filter. by intros -> ->. Qed.

Lemma cancel_filter_spec now f :
  expire_time f = None →
  (∀ x, extra_time_to_expiration f = Some x → 0 ≤ x) →
  0 < now →
  clear_filter (cancel_filter now f) = true ∧
  expire_time (cancel_filter now f) = Some (now + default 0 (extra_time_to_expiration f)).
Proof.
  intros Hf Hx Hpos. unfold cancel_filter, base_cancel_filter. split; [done|].
  destruct (extra_time_to_expiration f) as [x|] eqn:Ex; simpl;
    unfold truthy, truthy_option, truthy, truthy_Z.
  - destruct (Z.eqb_spec x 0); simpl; [|done]. rewrite Hf, bool_decide_true by done. simpl. f_equal. lia.
  - rewrite Hf, bool_decide_true by done. simpl. f_equal. lia.
Qed.
End Eval.
End Filters.
