(* ===== verification/EventsDevice.v ===== *)
(** The events device of [sdcm/sct_events/events_device.py]: the loop that sends
    queued events ([EventsDevice.run]) and the generator every consumer process
    reads its events from ([EventsDevice.outbound_events]), with its dictionary
    of filters and their garbage collection.

    The clock is read where the code reads it: a [tick] holds what the clock
    calls of one round give. ZMQ is an input: whether a send succeeds and whether
    the verifying subscriber received the message back. *)
From stdpp Require Import base decidable option strings numbers gmap sets list.
From S2P Require Import Prelude.
From S2P Require Import PyString.
From S2P Require Import PyDict.
From S2P Require Import Events.
From S2P Require Import EventFilters.

Module Device.
Import Events Filters.
#[local] Open Scope Z_scope.
#[local] Open Scope py_scope.

Definition FILTERS_GC_PERIOD : Z := 60.

(** ** Sending: [EventsDevice.run] *)

Inductive delivery : Type := Delivered | SendFailed | Unverified.
Inductive exit_reason : Type := DrainDeadline | QueueEmpty.

(** What one round of the loop sees: the messages put on the queue before its
    [get] returns, [_running] at its two reads, the monotonic clock at its two
    reads, and the outcome of the send. *)
Record round := Round {
  puts : list event;
  running : bool;
  running_after : bool;
  mono_set : Z;
  mono_check : Z;
  send_ok : bool;
  verified : bool;
}.

Record run_state := RunState {
  pending : list event;
  handled : list (event * delivery);
  drain_deadline : option Z;
  exited : option exit_reason;
}.

Definition run_round (i : round) (s : run_state) : run_state :=
  let deadline := if running i then drain_deadline s
                  else Some (default (mono_set i + 5) (drain_deadline s)) in
  if negb (running i) && (default 0 deadline <=? mono_check i)
  then RunState (pending s ++ puts i) (handled s) deadline (Some DrainDeadline)
  else match pending s ++ puts i with
       | m :: q =>
         let d := if send_ok i then (if verified i then Delivered else Unverified) else SendFailed in
         RunState q (handled s ++ [(m, d)]) deadline None
       | [] => RunState [] (handled s) deadline (if running_after i then None else Some QueueEmpty)
       end.

(** The loop, over as many rounds as are given; the rounds after its end are unused. *)
Fixpoint run (rounds : list round) (s : run_state) : run_state :=
  match rounds with
  | [] => s
  | i :: rounds' => match exited s with
                    | Some _ => s
                    | None => run rounds' (run_round i s)
                    end
  end.

(** ** Reading: [EventsDevice.outbound_events] *)

Inductive inbound : Type :=
  | InFilter (f : filter_obj)
  | InEvent (e : event).

(** The reads of [time.perf_counter()] around a collection, and of [time.time()]
    in [is_deceased] of each filter. *)
Record tick := Tick { pc_check : Z; pc_set : Z; wall : string → Z }.

Record device_state := DeviceState {
  filters : list (string * filter_obj);
  filters_gc_next_hit : Z;
  events_counter : nat;
}.

Record action_line := ActionLine {
  al_type : string;
  al_severity : Severity;
  al_event_id : string;
  al_node : option string;
}.

Inductive device_error : Type := FilterFailed (e : filter_error) | KeyError.

(** The pass over the snapshot [l] that deletes from [d]. *)
Definition gc_pass (t : tick) (l d : list (string * filter_obj)) : list (string * filter_obj) :=
  foldl (λ d p, if is_deceased (wall t p.1) p.2 then dict_del p.1 d else d) d l.

Definition filters_gc (t : tick) (s : device_state) : device_state :=
  if filters_gc_next_hit s <? pc_check t
  then {| filters := gc_pass t (filters s) (filters s);
          filters_gc_next_hit := pc_set t + FILTERS_GC_PERIOD;
          events_counter := events_counter s |}
  else s.

Definition with_filters (d : list (string * filter_obj)) (s : device_state) : device_state :=
  {| filters := d; filters_gc_next_hit := filters_gc_next_hit s; events_counter := events_counter s |}.

Definition handle_filter (f : filter_obj) (s : device_state) : device_state :=
  if clear_filter f && negb (truthy (expire_time f))
  then with_filters (dict_del (uuid f) (filters s)) s
  else match dict_get (uuid f) (filters s) with
       | Some g =>
         if clear_filter f && truthy (expire_time f)
         then with_filters (dict_set (uuid f) (set_expire_time (expire_time f) g) (filters s)) s
         else with_filters (dict_set (uuid f) f (filters s)) s
       | None => with_filters (dict_set (uuid f) f (filters s)) s
       end.

Section Outbound.
Context (re_compile : string → Z → option pattern) (event_str : event → string) (reg : registry).

(** [any(f.eval_filter(obj) for f in filters.values())]: stops at the first true
    answer; a severity changer before it has already changed the event. *)
Fixpoint any_filter (fs : list filter_obj) (e : event) : outcome filter_error (bool * event) :=
  match fs with
  | [] => Ok (false, e)
  | f :: fs' =>
    try! (b, e') := eval_filter re_compile event_str f e in
    if b : bool then Ok (true, e') else any_filter fs' e'
  end.

Definition limit_severity (e : event) : option event :=
  m ← max_severity reg e;
  Some (if value m <? value (severity e) then set_severity m e else e).

Definition event_type (e : event) : string :=
  let t := if truthy (ev_type e) then ev_base e +:+ "." +:+ default EmptyString (ev_type e) else ev_base e in
  if truthy (ev_subtype e) then t +:+ "." +:+ default EmptyString (ev_subtype e) else t.

Definition action_lines (e : event) : list action_line :=
  if value WARNING <? value (severity e)
  then [ActionLine (event_type e) (severity e) (event_id e) (node e)] else [].

Definition count_one (s : device_state) : device_state :=
  {| filters := filters s; filters_gc_next_hit := filters_gc_next_hit s;
     events_counter := S (events_counter s) |}.

(** One round: the new state, the pair yielded if any, and the lines logged. *)
Definition outbound_step (t : tick) (obj : inbound) (s : device_state)
    : outcome device_error (device_state * option (string * event) * list action_line) :=
  let s := filters_gc t (count_one s) in
  match obj with
  | InFilter f => Ok (handle_filter f s, None, [])
  | InEvent e =>
    if is_system_event e then Ok (s, None, [])
    else match any_filter (filters s).*2 e with
         | Err x => Err (FilterFailed x)
         | Ok (true, _) => Ok (s, None, [])
         | Ok (false, e1) => match limit_severity e1 with
                             | None => Err KeyError
                             | Some e2 => Ok (s, Some (ev_base e2, e2), action_lines e2)
                             end
         end
  end.

(** The pairs yielded, the lines logged, the state and how the generator ended:
    an exception ends it. *)
Fixpoint outbound_events (inputs : list (tick * inbound)) (s : device_state)
    : list (string * event) * list action_line * device_state * option device_error :=
  match inputs with
  | [] => ([], [], s, None)
  | (t, obj) :: inputs' =>
    match outbound_step t obj s with
    | Err x => ([], [], s, Some x)
    | Ok (s', y, l) =>
      let '(ys, ls, s'', x) := outbound_events inputs' s' in
      (option_list y ++ ys, l ++ ls, s'', x)
    end
  end.

Definition yielded (inputs : list (tick * inbound)) (s : device_state) : list (string * event) :=
  (outbound_events inputs s).1.1.1.

(** ** Lemmas *)

(** *** The filter dictionary *)
Definition holds (k : string) (f : filter_obj) (s : device_state) : Prop :=
  dict_wf (filters s) ∧ dict_get k (filters s) = Some f.

(** An input does not concern the filter [k] with state [f]: it is not a message
    of that filter, and a collection at that time would keep the filter. *)
Definition leaves_alone (k : string) (f : filter_obj) (i : tick * inbound) : Prop :=
  match i.2 with InFilter g => uuid g ≠ k | InEvent _ => True end ∧
  is_deceased (wall i.1 k) f = false.

Lemma gc_fold_get t k l d :
  (∀ p, p ∈ l → p.1 = k → is_deceased (wall t p.1) p.2 = false) →
  dict_get k (gc_pass t l d) = dict_get k d.
Proof.
  unfold gc_pass. revert d. induction l as [|p l IH]; intros d Hl; simpl; [done|].
  rewrite IH by set_solver. destruct (is_deceased _ _) eqn:Hd; [|done].
  rewrite dict_get_del. case_decide; [|done]. rewrite Hl in Hd; [done|set_solver|done].
Qed.

Lemma gc_fold_wf t l d :
  dict_wf d → dict_wf (gc_pass t l d).
Proof. unfold gc_pass. revert d. induction l as [|p l IH]; intros d Hd; simpl; [done|]. apply IH. case_match; auto with pydict. Qed.

Lemma gc_pass_Forall (P : string * filter_obj → Prop) t l d : Forall P d → Forall P (gc_pass t l d).
Proof.
  unfold gc_pass. revert d. induction l as [|p l IH]; intros d Hd; [done|]. cbn [foldl]. apply IH.
  case_match; [by apply dict_del_Forall|done].
Qed.

Lemma gc_pass_get t k l d g : dict_get k (gc_pass t l d) = Some g → dict_get k d = Some g.
Proof.
  unfold gc_pass. revert d. induction l as [|p l IH]; intros d Hg; [done|]. cbn [foldl] in Hg.
  apply IH in Hg. case_match; [|done]. rewrite dict_get_del in Hg. by case_decide.
Qed.

Lemma filters_gc_holds t k f s :
  holds k f s → is_deceased (wall t k) f = false → holds k f (filters_gc t s).
Proof.
  intros [Hwf Hk] Hd. unfold filters_gc. case_match; [|done]. split; simpl; [by apply gc_fold_wf|].
  rewrite gc_fold_get; [done|]. intros [k' g] Hg ?; simplify_eq/=.
  apply dict_elem_get in Hg; [|done]. by simplify_eq.
Qed.

Lemma filters_gc_wf t s : dict_wf (filters s) → dict_wf (filters (filters_gc t s)).
Proof. intros Hwf. unfold filters_gc. case_match; [|done]. simpl. by apply gc_fold_wf. Qed.

Lemma handle_filter_wf g s : dict_wf (filters s) → dict_wf (filters (handle_filter g s)).
Proof. unfold handle_filter. intros. repeat case_match; simpl; auto with pydict. Qed.

Lemma handle_filter_other k g s :
  uuid g ≠ k → dict_get k (filters (handle_filter g s)) = dict_get k (filters s).
Proof.
  intros Hk. unfold handle_filter. repeat case_match; simpl;
    rewrite ?dict_get_set, ?dict_get_del; by rewrite decide_False by congruence.
Qed.

Lemma outbound_step_state t obj s s' y l :
  outbound_step t obj s = Ok (s', y, l) →
  s' = match obj with
       | InFilter f => handle_filter f (filters_gc t (count_one s))
       | InEvent _ => filters_gc t (count_one s)
       end.
Proof. unfold outbound_step. repeat case_match; intros; by simplify_eq. Qed.

Lemma outbound_step_wf t obj s s' y l :
  outbound_step t obj s = Ok (s', y, l) → dict_wf (filters s) → dict_wf (filters s').
Proof.
  intros ->%outbound_step_state ?. destruct obj; [apply handle_filter_wf|]; by apply filters_gc_wf.
Qed.

Lemma outbound_step_holds k f i s s' y l :
  outbound_step i.1 i.2 s = Ok (s', y, l) → leaves_alone k f i → holds k f s → holds k f s'.
Proof.
  intros ->%outbound_step_state [Hi Hd] Hs.
  assert (holds k f (filters_gc i.1 (count_one s))) as [Hwf Hk] by (by apply filters_gc_holds).
  destruct (i.2) as [g|e]; [|done]. split; [by apply handle_filter_wf|]. by rewrite handle_filter_other.
Qed.

(** *** Sequences of inputs *)
Lemma outbound_events_app a b s :
  outbound_events (a ++ b) s =
  let '(ys, ls, s', x) := outbound_events a s in
  match x with
  | Some _ => (ys, ls, s', x)
  | None => let '(ys', ls', s'', x') := outbound_events b s' in (ys ++ ys', ls ++ ls', s'', x')
  end.
Proof.
  revert s. induction a as [|[t o] a IH]; intros s; simpl.
  - by repeat case_match; simplify_eq/=.
  - destruct (outbound_step t o s) as [[[s1 y] l]|]; simpl; [|done]. rewrite IH.
    destruct (outbound_events a s1) as [[[ys ls] s2] [x|]]; [done|].
    destruct (outbound_events b s2) as [[[? ?] ?] ?]. by rewrite !(assoc_L (++)).
Qed.

(** If an input yields nothing in every state the earlier ones can lead to, it adds nothing. *)
Lemma yielded_snoc_nothing (Q : device_state → Prop) a i s :
  (∀ ys ls s', outbound_events a s = (ys, ls, s', None) → Q s') →
  (∀ s', Q s' → yielded [i] s' = []) →
  yielded (a ++ [i]) s = yielded a s.
Proof.
  intros Ha Hi. unfold yielded. rewrite outbound_events_app.
  destruct (outbound_events a s) as [[[ys ls] s'] [x|]] eqn:E; [done|].
  specialize (Hi s' (Ha _ _ _ eq_refl)). unfold yielded in Hi.
  destruct (outbound_events [i] s') as [[[ys' ?] ?] ?]. simpl in *. subst. by rewrite app_nil_r.
Qed.

Lemma outbound_events_holds k f a s ys ls s' x :
  Forall (leaves_alone k f) a → holds k f s →
  outbound_events a s = (ys, ls, s', x) → holds k f s'.
Proof.
  revert s ys ls x. induction a as [|[t o] a IH]; intros s ys ls x Ha Hs; simpl; [by intros; simplify_eq|].
  apply Forall_cons in Ha as [Hi Ha].
  destruct (outbound_step t o s) as [[[s1 y] l]|] eqn:E; [|by intros; simplify_eq].
  destruct (outbound_events a s1) as [[[? ?] ?] ?] eqn:E'. intros; simplify_eq.
  eapply IH; [done| |done]. by eapply (outbound_step_holds _ _ (t, o)).
Qed.

(** *** Filtering *)
Lemma any_filter_suppresses f fs e :
  f ∈ fs →
  (∀ sv, eval_filter re_compile event_str f (set_severity sv e) = Ok (true, set_severity sv e)) →
  ∀ sv e', any_filter fs (set_severity sv e) ≠ Ok (false, e').
Proof.
  intros Hf Hm. induction fs as [|g fs IH]; intros sv e'; [set_solver|]. simpl.
  apply elem_of_cons in Hf as [<-|Hf]; [by rewrite Hm|].
  destruct (eval_filter re_compile event_str g (set_severity sv e)) as [[[] e1]|] eqn:E; simpl; [done| |done].
  apply eval_filter_only_severity in E as [sv' ->].
  change (set_severity sv' (set_severity sv e)) with (set_severity sv' e). by apply IH.
Qed.

Lemma any_filter_only_severity fs e b e' :
  any_filter fs e = Ok (b, e') → ∃ sv, e' = set_severity sv e.
Proof.
  revert e. induction fs as [|g fs IH]; intros e; simpl.
  - intros; simplify_eq. exists (severity e'). by destruct e'.
  - destruct (eval_filter re_compile event_str g e) as [[[] e1]|] eqn:E; simpl; [| |done];
      apply eval_filter_only_severity in E as [sv ->]; [intros; simplify_eq; eauto|].
    intros [sv' ->]%IH. by exists sv'.
Qed.

Lemma yielded_event_suppressed k f t e s :
  holds k f s →
  is_deceased (wall t k) f = false →
  (∀ sv, eval_filter re_compile event_str f (set_severity sv e) = Ok (true, set_severity sv e)) →
  yielded [(t, InEvent e)] s = [].
Proof.
  intros Hs Hd Hm. assert (holds k f (filters_gc t (count_one s))) as [_ Hk] by (by apply filters_gc_holds).
  unfold yielded. simpl. destruct (is_system_event e); [done|].
  assert (f ∈ (filters (filters_gc t (count_one s))).*2) as Hin.
  { apply list_elem_of_fmap. eexists (k, f). split; [done|]. by apply dict_get_elem. }
  destruct (any_filter _ e) as [[[] e1]|] eqn:E; [done| |done]. exfalso.
  eapply (any_filter_suppresses f _ e Hin Hm (severity e)).
  replace (set_severity (severity e) e) with e by (by destruct e). done.
Qed.

(** *** The life of a filter *)
Definition no_message_of (k : string) (i : tick * inbound) : Prop :=
  match i.2 with InFilter g => uuid g ≠ k | InEvent _ => True end.

Lemma not_deceased_None now f : expire_time f = None → is_deceased now f = false.
Proof. unfold is_deceased. by intros ->. Qed.

Lemma not_deceased_before now x f :
  expire_time f = Some x → now < x + FILTER_EVENT_DECAY_TIME → is_deceased now f = false.
Proof.
  unfold is_deceased. intros -> ?. apply andb_false_iff. right. simpl. lia.
Qed.

Lemma leaves_alone_alive k f a :
  expire_time f = None → Forall (no_message_of k) a → Forall (leaves_alone k f) a.
Proof. intros Hf Ha. eapply Forall_impl; [exact Ha|]. intros i Hi. split; [done|]. by apply not_deceased_None. Qed.

Lemma leaves_alone_cancelled k f x a :
  expire_time f = Some x →
  Forall (λ i, no_message_of k i ∧ wall i.1 k < x + FILTER_EVENT_DECAY_TIME) a →
  Forall (leaves_alone k f) a.
Proof.
  intros Hf Ha. eapply Forall_impl; [exact Ha|]. intros i [Hi Hw]. split; [done|]. by eapply not_deceased_before.
Qed.

Lemma start_holds t f s ys ls s' :
  clear_filter f = false → dict_wf (filters s) →
  outbound_events [(t, InFilter f)] s = (ys, ls, s', None) → holds (uuid f) f s'.
Proof.
  intros Hc Hwf E. simpl in E. simplify_eq. split; [by apply handle_filter_wf, filters_gc_wf|].
  unfold handle_filter. rewrite Hc. simpl.
  destruct (dict_get (uuid f) (filters (filters_gc t (count_one s)))); simpl; rewrite dict_get_set; by rewrite decide_True.
Qed.

Lemma cancel_holds t now f s ys ls s' :
  expire_time f = None → (∀ x, extra_time_to_expiration f = Some x → 0 ≤ x) → 0 < now →
  holds (uuid f) f s →
  outbound_events [(t, InFilter (cancel_filter now f))] s = (ys, ls, s', None) →
  holds (uuid f) (set_expire_time (Some (now + default 0 (extra_time_to_expiration f))) f) s'.
Proof.
  intros Hf Hx Hnow Hs E. simpl in E. simplify_eq.
  destruct (cancel_filter_spec now f Hf Hx Hnow) as [Hc He].
  assert (uuid (cancel_filter now f) = uuid f) as Hu
    by (unfold cancel_filter, base_cancel_filter; repeat case_match; done).
  destruct (filters_gc_holds t (uuid f) f (count_one s)) as [Hwf Hk]; [done|by apply not_deceased_None|].
  split; [by apply handle_filter_wf|]. unfold handle_filter. rewrite Hc, He, Hu, Hk.
  assert (0 ≤ default 0 (extra_time_to_expiration f))
    by (destruct (extra_time_to_expiration f) as [x|]; simpl; [by apply Hx|lia]).
  assert (truthy (Some (now + default 0 (extra_time_to_expiration f))) = true) as ->.
  { unfold truthy, truthy_option, truthy, truthy_Z. destruct (Z.eqb_spec (now + default 0 (extra_time_to_expiration f)) 0); [lia|done]. }
  simpl. rewrite dict_get_set. by rewrite decide_True.
Qed.

Lemma outbound_events_app_None a b s ys ls s' :
  outbound_events (a ++ b) s = (ys, ls, s', None) →
  ∃ ya la sa yb lb, outbound_events a s = (ya, la, sa, None) ∧ outbound_events b sa = (yb, lb, s', None).
Proof.
  rewrite outbound_events_app. destruct (outbound_events a s) as [[[ya la] sa] [x|]]; [done|].
  destruct (outbound_events b sa) as [[[yb lb] sb] x] eqn:E. intros; simplify_eq. by repeat eexists.
Qed.

(** C3. A filter suppresses what it matches for as long as it should, whatever
    other filters and events come between: an event that a published filter
    matches is not handed to the consumers while the filter is open; nor is it
    after the filter was cancelled, when the event's own time stamp is not after
    the filter's expiry and the event, like every message since the cancellation,
    is handled before the filter has been expired for [FILTER_EVENT_DECAY_TIME],
    the ten minutes after which the device drops an expired filter. No other
    message about the filter comes between. *)
Theorem filter_suppresses_until_expiry f t0 pre1 t1 now pre2 t e s :
  dict_wf (filters s) →
  expire_time f = None → clear_filter f = false →
  (∀ x, extra_time_to_expiration f = Some x → 0 ≤ x) → 0 < now →
  Forall (no_message_of (uuid f)) pre1 →
  (∀ sv, eval_filter re_compile event_str f (set_severity sv e) = Ok (true, set_severity sv e)) →
  yielded (([(t0, InFilter f)] ++ pre1) ++ [(t, InEvent e)]) s = yielded ([(t0, InFilter f)] ++ pre1) s ∧
  (Forall (λ i, no_message_of (uuid f) i ∧
                wall i.1 (uuid f) < now + default 0 (extra_time_to_expiration f) + FILTER_EVENT_DECAY_TIME)
     (pre2 ++ [(t, InEvent e)]) →
   default 0 (timestamp e) ≤ now + default 0 (extra_time_to_expiration f) →
   yielded (([(t0, InFilter f)] ++ pre1 ++ [(t1, InFilter (cancel_filter now f))] ++ pre2) ++ [(t, InEvent e)]) s
   = yielded ([(t0, InFilter f)] ++ pre1 ++ [(t1, InFilter (cancel_filter now f))] ++ pre2) s).
Proof.
  intros Hwf Hf Hc Hx Hnow H1 Hm. set (x := now + default 0 (extra_time_to_expiration f)) in *. split.
  - apply (yielded_snoc_nothing (holds (uuid f) f)).
    + intros ys ls s' (? & ? & sa & ? & ? & Ea & Eb)%outbound_events_app_None.
      eapply outbound_events_holds; [by apply leaves_alone_alive|by eapply start_holds|done].
    + intros s' Hs'. eapply yielded_event_suppressed; [done|by apply not_deceased_None|done].
  - intros [H2 [[_ Hw] _]%Forall_cons]%Forall_app Hts.
    apply (yielded_snoc_nothing (holds (uuid f) (set_expire_time (Some x) f))).
    + intros ys ls s' (? & ? & sa & ? & ? & Ea & Eb)%outbound_events_app_None.
      apply outbound_events_app_None in Eb as (? & ? & sb & ? & ? & Eb & Ec).
      apply outbound_events_app_None in Ec as (? & ? & sc & ? & ? & Ec & Ed).
      eapply outbound_events_holds; [by eapply leaves_alone_cancelled| |done].
      eapply cancel_holds; [done..| |done].
      eapply outbound_events_holds; [by apply leaves_alone_alive|by eapply start_holds|done].
    + intros s' Hs'. eapply yielded_event_suppressed; [done|by eapply not_deceased_before|].
      intros sv. rewrite eval_filter_set_expire; [done| |unfold expired_for; by rewrite Hf].
      unfold expired_for. apply andb_false_iff. right. apply Z.ltb_ge. exact Hts.
Qed.

(** *** Expired filters *)
Lemma gc_pass_del t k l d : gc_pass t (dict_del k l) (dict_del k d) = dict_del k (gc_pass t l d).
Proof.
  unfold gc_pass. revert d. induction l as [|p l IH]; intros d; [done|].
  rewrite dict_del_cons. case_decide as Hk; cbn [foldl]; rewrite <- IH; case_match; try done.
  - by rewrite Hk, dict_del_idem.
  - by rewrite dict_del_comm.
Qed.

Lemma any_filter_del (k : string) d e :
  (∀ g, (k, g) ∈ d → expired_for g e = true) →
  any_filter d.*2 e = any_filter (dict_del k d).*2 e.
Proof.
  revert e. induction d as [|[k' g] d IH]; intros e Hd; [done|].
  rewrite dict_del_cons. simpl. case_decide as Hk; simpl.
  2:{ destruct (eval_filter re_compile event_str g e) as [[[] e1]|] eqn:E; simpl; [done| |done].
    apply eval_filter_only_severity in E as [sv ->]. apply IH. intros g' Hg'. apply (Hd g'). set_solver. }
  subst. rewrite eval_filter_expired by (apply Hd; set_solver). simpl. apply IH. set_solver.
Qed.

(** A cancelled filter does not touch later events: on an event whose time
    stamp is after the expiry of a filter, the device answers, with the filter
    still in its dictionary, exactly as if the filter were not there. *)
Theorem expired_filter_is_inert k f t e s :
  holds k f s →
  expired_for f e = true →
  yielded [(t, InEvent e)] s = yielded [(t, InEvent e)] (with_filters (dict_del k (filters s)) s).
Proof.
  intros [Hwf Hk] He. unfold yielded. simpl. destruct (is_system_event e); [done|].
  assert (filters (filters_gc t (count_one (with_filters (dict_del k (filters s)) s))) =
          dict_del k (filters (filters_gc t (count_one s)))) as Hgc.
  { unfold filters_gc. simpl. case_match; simpl; [apply gc_pass_del|done]. }
  rewrite Hgc, <- any_filter_del; [by repeat case_match; simplify_eq/=|].
  intros g Hg. apply dict_elem_get in Hg; [|by apply filters_gc_wf].
  enough (g = f) as -> by done.
  assert (dict_get k (filters s) = Some g) as Hk'; [|by simplify_eq].
  unfold filters_gc in Hg. case_match; simpl in Hg; [|done]. by eapply gc_pass_get.
Qed.

(** *** Soundness of what is yielded *)
Definition yields_of (e : event) (y : string * event) : Prop :=
  is_system_event e = false ∧ y.1 = ev_base e ∧
  ∃ sv m, y.2 = set_severity sv e ∧ max_severity reg e = Some m ∧ value sv ≤ value m.

Definition inbound_events (inputs : list (tick * inbound)) : list event :=
  omap (λ i, match i.2 with InEvent e => Some e | InFilter _ => None end) inputs.

Lemma outbound_step_yields t obj s s' y l :
  outbound_step t obj s = Ok (s', Some y, l) → ∃ e, obj = InEvent e ∧ yields_of e y.
Proof.
  unfold outbound_step. destruct obj as [f|e]; [done|].
  destruct (is_system_event e) eqn:Hsys; [done|].
  destruct (any_filter _ e) as [[[] e1]|] eqn:E; [done| |done].
  apply any_filter_only_severity in E as [sv ->]. unfold limit_severity.
  change (max_severity reg (set_severity sv e)) with (max_severity reg e).
  destruct (max_severity reg e) as [m|] eqn:Hm; simpl; [|done]. intros; simplify_eq.
  exists e. split; [done|]. destruct (Z.ltb_spec (value m) (value sv)).
  - split; [done|]. split; [done|]. exists m, m. repeat split; [done|lia].
  - split; [done|]. split; [done|]. by exists sv, m.
Qed.

(** C31. Consumers get only what was published: the pairs handed out are, in the
    order of arrival, non-system events of the stream (filters and other system
    events never pass), unchanged except for their severity, which is never above
    the configured maximum of the event. *)
Theorem outbound_events_sound inputs s :
  ∃ es, es `sublist_of` inbound_events inputs ∧ Forall2 yields_of es (yielded inputs s).
Proof.
  unfold yielded. revert s. induction inputs as [|[t o] inputs IH]; intros s; simpl.
  { by exists []. }
  destruct (outbound_step t o s) as [[[s1 y] l]|] eqn:E; simpl.
  2:{ exists []. split; [apply sublist_nil_l|constructor]. }
  destruct (IH s1) as (es & Hes & Hys). destruct (outbound_events inputs s1) as [[[ys ls] s2] x]. simpl in *.
  destruct y as [y|]; simpl.
  - apply outbound_step_yields in E as (e & -> & He). exists (e :: es). split; [by apply sublist_skip|by constructor].
  - exists es. split; [|done]. destruct o; simpl; [done|by apply sublist_cons].
Qed.

(** *** No event is lost without a suppressing filter *)
Definition harmless (i : tick * inbound) : Prop :=
  match i.2 with
  | InFilter f => is_changer f = true ∧ compiles re_compile f = true
  | InEvent e => is_Some (max_severity reg e)
  end.

Definition harmless_filters (s : device_state) : Prop :=
  Forall (λ p, is_changer p.2 = true ∧ compiles re_compile p.2 = true) (filters s).

Lemma any_filter_harmless fs e :
  Forall (λ f, is_changer f = true ∧ compiles re_compile f = true) fs →
  ∃ sv, any_filter fs e = Ok (false, set_severity sv e).
Proof.
  intros Hfs. revert e. induction Hfs as [|f fs [Hch Hco] _ IH]; intros e; simpl.
  - exists (severity e). by destruct e.
  - pose proof (eval_filter_total _ event_str f e Hco) as Hok.
    destruct (eval_filter re_compile event_str f e) as [[b e1]|] eqn:E; [|done]. simpl.
    rewrite (eval_filter_changer _ _ _ _ _ _ Hch E).
    apply eval_filter_only_severity in E as [sv ->]. destruct (IH (set_severity sv e)) as [sv' ->].
    by exists sv'.
Qed.

Lemma filters_gc_harmless t s : harmless_filters s → harmless_filters (filters_gc t s).
Proof.
  unfold harmless_filters, filters_gc. intros Hs. case_match; [|done]. by apply gc_pass_Forall.
Qed.

Lemma handle_filter_harmless f s :
  is_changer f = true → compiles re_compile f = true → harmless_filters s → harmless_filters (handle_filter f s).
Proof.
  unfold harmless_filters, handle_filter. intros Hch Hco Hs. repeat case_match; simpl.
  - by apply dict_del_Forall.
  - apply dict_set_Forall; [done|]. simpl.
    destruct (proj1 (Forall_forall _ _) Hs _ (dict_get_elem _ _ _ H0)) as [? ?]. done.
  - by apply dict_set_Forall.
  - by apply dict_set_Forall.
Qed.

(** Severity changers never lose an event: as long as the only filters are
    severity changers whose expressions compile, and every event has a maximum
    severity, the generator does not raise and hands out every non-system event,
    one for one and in order. *)
Theorem severity_changers_lose_nothing inputs s :
  harmless_filters s →
  Forall harmless inputs →
  Forall2 yields_of (filter (λ e, is_system_event e = false) (inbound_events inputs)) (yielded inputs s) ∧
  (outbound_events inputs s).2 = None.
Proof.
  unfold yielded. intros Hs Hin. revert s Hs. induction Hin as [|[t o] inputs Hi Hin IH]; intros s Hs; simpl.
  { split; [constructor|done]. }
  pose proof (filters_gc_harmless t (count_one s) Hs) as Hgc.
  destruct (outbound_step t o s) as [[[s1 y] l]|x] eqn:E; simpl.
  - assert (harmless_filters s1) as Hs1.
    { apply outbound_step_state in E as ->. destruct o; [apply handle_filter_harmless; by try apply Hi|done]. }
    specialize (IH s1 Hs1). destruct (outbound_events inputs s1) as [[[ys ls] s2] x]. simpl in *.
    split; [|by apply IH]. destruct IH as [IH _]. destruct o as [f|e]; simpl.
    + unfold outbound_step in E. simplify_eq/=. exact IH.
    + rewrite filter_cons. destruct y as [y|].
      * apply outbound_step_yields in E as (e' & ? & He); simplify_eq. pose proof He as [Hsys _].
        rewrite decide_True by done. by constructor.
      * unfold outbound_step in E. destruct (is_system_event e); [by rewrite decide_False by done|].
        destruct (any_filter_harmless (filters (filters_gc t (count_one s))).*2 e) as [sv Hany];
          [by apply Forall_fmap|].
        rewrite Hany in E. by destruct (limit_severity _).
  - exfalso. unfold outbound_step in E. destruct o as [f|e]; [done|]. destruct (is_system_event e); [done|].
    destruct (any_filter_harmless (filters (filters_gc t (count_one s))).*2 e) as [sv Hany];
      [by apply Forall_fmap|].
    rewrite Hany in E. unfold limit_severity in E.
    change (max_severity reg (set_severity sv e)) with (max_severity reg e) in E.
    destruct Hi as [m Hm]. simpl in Hm. by rewrite Hm in E.
Qed.
End Outbound.

(** ** The sending loop *)
Definition run_init (q : list event) : run_state := RunState q [] None None.

(** The deadline in [s] is five seconds after a round in [l] that saw the stop. *)
Definition deadline_from (l : list round) (s : run_state) : Prop :=
  ∀ d, drain_deadline s = Some d → ∃ i, i ∈ l ∧ running i = false ∧ d = mono_set i + 5.

Lemma run_round_conserves i s :
  (handled (run_round i s)).*1 ++ pending (run_round i s) = (handled s).*1 ++ pending s ++ puts i.
Proof.
  unfold run_round. case_match; simpl; [done|].
  destruct (pending s ++ puts i) as [|m q]; simpl; [done|]. by rewrite fmap_app, <- (assoc_L (++)).
Qed.

Lemma run_round_deadline l i s : deadline_from l s → deadline_from (l ++ [i]) (run_round i s).
Proof.
  intros Hs d. assert (drain_deadline (run_round i s) =
    if running i then drain_deadline s else Some (default (mono_set i + 5) (drain_deadline s))) as ->.
  { unfold run_round. repeat case_match; done. }
  destruct (running i) eqn:Hr; [intros (j & ? & ?)%Hs; exists j; set_solver|].
  intros [= <-]. destruct (drain_deadline s) as [d|] eqn:Hd; simpl; [|exists i; set_solver].
  destruct (Hs d Hd) as (j & ? & ?). exists j. set_solver.
Qed.

Lemma run_round_exit i s :
  match exited (run_round i s) with
  | Some QueueEmpty => pending (run_round i s) = [] ∧ running_after i = false
  | Some DrainDeadline => running i = false ∧
      ∃ d, drain_deadline (run_round i s) = Some d ∧ d ≤ mono_check i
  | None => True
  end.
Proof.
  unfold run_round. destruct (running i) eqn:Hr; simpl.
  - destruct (pending s ++ puts i); simpl; [by destruct (running_after i)|done].
  - destruct (Z.leb_spec (default (mono_set i + 5) (drain_deadline s)) (mono_check i)); simpl; [eauto|].
    destruct (pending s ++ puts i); simpl; [by destruct (running_after i)|done].
Qed.

Definition run_spec (rounds : list round) (s s' : run_state) : Prop :=
  ∃ used, used `prefix_of` rounds ∧
    (handled s').*1 ++ pending s' = (handled s).*1 ++ pending s ++ concat (puts <$> used) ∧
    match exited s' with
    | None => used = rounds
    | Some QueueEmpty => pending s' = [] ∧ ∃ i, i ∈ used ∧ running_after i = false
    | Some DrainDeadline => ∃ i j, i ∈ used ∧ j ∈ used ∧ running i = false ∧ running j = false ∧
                                   mono_set i + 5 ≤ mono_check j
    end.

Lemma run_spec_holds done_ rounds s :
  exited s = None → deadline_from done_ s →
  ∃ used, used `prefix_of` rounds ∧
    (handled (run rounds s)).*1 ++ pending (run rounds s) =
      (handled s).*1 ++ pending s ++ concat (puts <$> used) ∧
    match exited (run rounds s) with
    | None => used = rounds
    | Some QueueEmpty => pending (run rounds s) = [] ∧ ∃ i, i ∈ used ∧ running_after i = false
    | Some DrainDeadline => ∃ i j, i ∈ done_ ++ used ∧ j ∈ used ∧ running i = false ∧ running j = false ∧
                                   mono_set i + 5 ≤ mono_check j
    end.
Proof.
  revert done_ s. induction rounds as [|i rounds IH]; intros l s Hx Hd; simpl.
  { exists []. rewrite Hx. simpl. by rewrite app_nil_r. }
  rewrite Hx. pose proof (run_round_conserves i s) as Hc. pose proof (run_round_exit i s) as He.
  pose proof (run_round_deadline l i s Hd) as Hd'.
  destruct (exited (run_round i s)) as [x|] eqn:Ex.
  - assert (run rounds (run_round i s) = run_round i s) as -> by (destruct rounds; simpl; by rewrite ?Ex).
    exists [i]. split; [by apply (prefix_cons i), prefix_nil|]. rewrite Ex. simpl. rewrite app_nil_r.
    split; [done|]. destruct x.
    + destruct He as (Hr & d & Hdd & Hle). destruct (Hd' d Hdd) as (j & Hj & Hjr & ->).
      exists j, i. set_solver.
    + destruct He as [-> ?]. split; [done|]. exists i. set_solver.
  - destruct (IH (l ++ [i]) (run_round i s) Ex Hd') as (used & Hu & Hcons & Hend).
    exists (i :: used). split; [by apply prefix_cons|]. rewrite Hcons. simpl. split.
    { rewrite !(assoc_L (++)), Hc. by rewrite !(assoc_L (++)). }
    destruct (exited (run rounds _)) as [[]|]; [..|by subst].
    + destruct Hend as (i' & j & Hi' & ?). exists i', j. rewrite <- (assoc_L (++)) in Hi'. set_solver.
    + destruct Hend as (? & i' & ?). split; [done|]. exists i'. set_solver.
Qed.

(** The sending loop is a faithful queue: in every run, what was handled
    followed by what is still pending is exactly what was put, in order, so no event
    is skipped, repeated or reordered. It leaves events pending only when, five
    seconds after the stop was seen, the drain deadline has passed; a loop that
    ends because the queue ran empty after the stop has handled everything. *)
Theorem run_is_fifo rounds q : run_spec rounds (run_init q) (run rounds (run_init q)).
Proof. apply (run_spec_holds []); [done|]. by intros d. Qed.

Lemma run_app a b s : run (a ++ b) s = run b (run a s).
Proof.
  revert s. induction a as [|i a IH]; intros s; simpl; [done|].
  destruct (exited s) eqn:Ex; [|apply IH]. destruct b; simpl; by rewrite ?Ex.
Qed.

Lemma run_keeps_deadline rounds s d :
  drain_deadline s = Some d → drain_deadline (run rounds s) = Some d.
Proof.
  revert s. induction rounds as [|i rounds IH]; intros s Hd; simpl; [done|].
  destruct (exited s); [done|]. apply IH. unfold run_round. rewrite Hd. simpl. repeat case_match; done.
Qed.

Lemma run_running_deadline rounds s :
  Forall (λ i, running i = true) rounds → drain_deadline (run rounds s) = drain_deadline s.
Proof.
  intros Hr. revert s. induction Hr as [|i rounds Hi _ IH]; intros s; simpl; [done|].
  destruct (exited s); [done|]. rewrite IH. unfold run_round. rewrite Hi. simpl. by repeat case_match.
Qed.

(** The sending loop stops: after a stop was first seen in a round, a later
    round that starts five seconds afterwards is the last, however many events
    keep arriving. *)
Theorem run_stops_by_the_deadline q before stop between last_ :
  Forall (λ i, running i = true) before →
  running stop = false →
  running last_ = false →
  mono_set stop + 5 ≤ mono_check last_ →
  is_Some (exited (run (before ++ [stop] ++ between ++ [last_]) (run_init q))).
Proof.
  intros Hb Hs Hl Hm. rewrite !run_app. set (s0 := run before _).
  destruct (exited s0) eqn:E0.
  { assert (∀ l, exited (run l s0) = exited s0) as Hst by (intros []; simpl; by rewrite ?E0).
    rewrite <- !run_app, Hst, E0. eauto. }
  assert (drain_deadline s0 = None) as Hd0 by (unfold s0; by rewrite run_running_deadline).
  assert (drain_deadline (run [stop] s0) = Some (mono_set stop + 5)) as Hd1.
  { simpl. rewrite E0. unfold run_round. rewrite Hs, Hd0. simpl. repeat case_match; done. }
  apply (run_keeps_deadline between) in Hd1. set (s1 := run between _) in *. simpl.
  destruct (exited s1) eqn:E1; [rewrite E1; eauto|].
  unfold run_round. rewrite Hl, Hd1. simpl. destruct (Z.leb_spec (mono_set stop + 5) (mono_check last_)); [eauto|lia].
Qed.

(** ** Witnesses *)
Definition ex_tick (n : Z) : tick := Tick n n (λ _, n).
Definition ex_compile (s : string) (fl : Z) : option pattern :=
  Some (Pattern (contains s) (startswith s)).
Definition ex_filter : filter_obj :=
  FilterObj "f1" (EventsFilter (Some "InfoEvent.")) None 24 (Some 30) None false.
Definition ex_changer : filter_obj :=
  FilterObj "c1" (EventsSeverityChangerFilter (Some "InfoEvent.") WARNING) (Some "x") 24 None None false.
Definition ex_state : device_state := DeviceState [] 0 0.

Lemma filter_suppresses_until_expiry_witness :
  yielded ex_compile ev_class ex_registry
    (([(ex_tick 1, InFilter ex_filter)] ++ [(ex_tick 2, InFilter ex_changer)]) ++ [(ex_tick 600, InEvent ex_event)])
    ex_state
  = yielded ex_compile ev_class ex_registry
      ([(ex_tick 1, InFilter ex_filter)] ++ [(ex_tick 2, InFilter ex_changer)]) ex_state ∧
  yielded ex_compile ev_class ex_registry
    (([(ex_tick 1, InFilter ex_filter)] ++ [(ex_tick 2, InFilter ex_changer)] ++
      [(ex_tick 3, InFilter (cancel_filter 3 ex_filter))] ++ [(ex_tick 70, InEvent ex_event)]) ++
     [(ex_tick 600, InEvent ex_event)]) ex_state
  = yielded ex_compile ev_class ex_registry
      ([(ex_tick 1, InFilter ex_filter)] ++ [(ex_tick 2, InFilter ex_changer)] ++
       [(ex_tick 3, InFilter (cancel_filter 3 ex_filter))] ++ [(ex_tick 70, InEvent ex_event)]) ex_state.
Proof.
  destruct (filter_suppresses_until_expiry ex_compile ev_class ex_registry ex_filter (ex_tick 1)
           [(ex_tick 2, InFilter ex_changer)] (ex_tick 3) 3 [(ex_tick 70, InEvent ex_event)] (ex_tick 600)
           ex_event ex_state) as [Hopen Hcancelled].
  - constructor.
  - reflexivity.
  - reflexivity.
  - intros x [= <-]. lia.
  - lia.
  - repeat constructor. discriminate.
  - intros []; reflexivity.
  - split; [exact Hopen|]. apply Hcancelled; [repeat constructor|vm_compute; discriminate].
Defined.

Lemma expired_filter_is_inert_witness :
  yielded ex_compile ev_class ex_registry [(ex_tick 5, InEvent ex_event)]
    (DeviceState [("f1", set_expire_time (Some 4) ex_filter)] 0 0)
  = yielded ex_compile ev_class ex_registry [(ex_tick 5, InEvent ex_event)] (DeviceState [] 0 0).
Proof.
  apply (expired_filter_is_inert ex_compile ev_class ex_registry "f1" (set_expire_time (Some 4) ex_filter)
           (ex_tick 5) ex_event (DeviceState [("f1", set_expire_time (Some 4) ex_filter)] 0 0)).
  - split; [apply NoDup_singleton|reflexivity].
  - reflexivity.
Defined.

Lemma severity_changers_lose_nothing_witness :
  Forall2 (yields_of ex_registry) [ex_event]
    (yielded ex_compile ev_class ex_registry
       [(ex_tick 1, InFilter ex_changer); (ex_tick 2, InEvent ex_event)] ex_state) ∧
  (outbound_events ex_compile ev_class ex_registry
     [(ex_tick 1, InFilter ex_changer); (ex_tick 2, InEvent ex_event)] ex_state).2 = None.
Proof.
  apply (severity_changers_lose_nothing ex_compile ev_class ex_registry
           [(ex_tick 1, InFilter ex_changer); (ex_tick 2, InEvent ex_event)] ex_state).
  - constructor.
  - repeat constructor. eexists. vm_compute. reflexivity.
Defined.

Definition ex_round (r : bool) (now : Z) : round := Round [ex_event] r r now now true true.

Lemma run_stops_by_the_deadline_witness :
  is_Some (exited (run ([ex_round true 1] ++ [ex_round false 2] ++ [ex_round false 3] ++ [ex_round false 8])
                     (run_init []))).
Proof.
  apply (run_stops_by_the_deadline [] [ex_round true 1] (ex_round false 2) [ex_round false 3] (ex_round false 8)).
  - repeat constructor.
  - reflexivity.
  - reflexivity.
  - simpl. lia.
Defined.
End Device.
