(* ===== verification/ContinuousEvents.v ===== *)
(** Events with a beginning and an end: [sdcm/sct_events/continuous_event.py].

    The events are objects shared between their owner and the registry, so they
    live in a store indexed by their event id, and the registry's buckets hold
    ids. Two event objects are equal for the registry only when all their
    attributes are, the unique id included, so membership is identity. The hash
    of an event's hash fields is a field here; the fields do not change while the
    event is running. *)
From stdpp Require Import base decidable option strings numbers gmap sets list.
From S2P Require Import Prelude.
From S2P Require Import PyDict.
From S2P Require Import Events.

Module Continuous.
Import Events.
#[local] Open Scope Z_scope.

Record cevent := CEvent {
  ev : event;
  continuous_hash : Z;
  errors : option (list string);
  publish_event_flag : bool;
  begin_timestamp : option Z;
  end_timestamp : option Z;
  is_skipped : bool;
  skip_reason : string;
  period_type : EventPeriod;
  _duration : option Z;
}.

(** [ContinuousEvent.__init__] after [SctEvent.__init__]. *)
Definition cevent_init (e : event) (h : Z) (publish_event : bool) (errs : option (list string)) : cevent :=
  {| ev := set_ready publish_event e; continuous_hash := h;
     errors := Some (if truthy errs then default [] errs else []);
     publish_event_flag := publish_event; begin_timestamp := None; end_timestamp := None;
     is_skipped := false; skip_reason := EmptyString; period_type := NOT_DEFINED; _duration := None |}.

Definition set_ev (e : event) (c : cevent) : cevent :=
  {| ev := e; continuous_hash := continuous_hash c; errors := errors c;
     publish_event_flag := publish_event_flag c; begin_timestamp := begin_timestamp c;
     end_timestamp := end_timestamp c; is_skipped := is_skipped c; skip_reason := skip_reason c;
     period_type := period_type c; _duration := _duration c |}.

Definition set_errors (l : list string) (c : cevent) : cevent :=
  {| ev := ev c; continuous_hash := continuous_hash c; errors := Some l;
     publish_event_flag := publish_event_flag c; begin_timestamp := begin_timestamp c;
     end_timestamp := end_timestamp c; is_skipped := is_skipped c; skip_reason := skip_reason c;
     period_type := period_type c; _duration := _duration c |}.

Definition set_begin (now : Z) (c : cevent) : cevent :=
  {| ev := set_event_timestamp now (ev c); continuous_hash := continuous_hash c; errors := errors c;
     publish_event_flag := publish_event_flag c; begin_timestamp := Some now;
     end_timestamp := end_timestamp c; is_skipped := is_skipped c; skip_reason := skip_reason c;
     period_type := BEGIN; _duration := _duration c |}.

Definition set_end (now : Z) (c : cevent) : cevent :=
  {| ev := set_event_timestamp now (ev c); continuous_hash := continuous_hash c; errors := errors c;
     publish_event_flag := publish_event_flag c; begin_timestamp := begin_timestamp c;
     end_timestamp := Some now; is_skipped := is_skipped c; skip_reason := skip_reason c;
     period_type := END_; _duration := _duration c |}.

Definition set_informational (now : Z) (c : cevent) : cevent :=
  {| ev := set_event_timestamp now (ev c); continuous_hash := continuous_hash c; errors := errors c;
     publish_event_flag := publish_event_flag c; begin_timestamp := begin_timestamp c;
     end_timestamp := end_timestamp c; is_skipped := is_skipped c; skip_reason := skip_reason c;
     period_type := INFORMATIONAL; _duration := None |}.

Definition skip (reason : string) (c : cevent) : cevent :=
  {| ev := ev c; continuous_hash := continuous_hash c; errors := errors c;
     publish_event_flag := publish_event_flag c; begin_timestamp := begin_timestamp c;
     end_timestamp := end_timestamp c; is_skipped := true; skip_reason := reason;
     period_type := period_type c; _duration := _duration c |}.

Definition set_duration (d : option Z) (c : cevent) : cevent :=
  {| ev := ev c; continuous_hash := continuous_hash c; errors := errors c;
     publish_event_flag := publish_event_flag c; begin_timestamp := begin_timestamp c;
     end_timestamp := end_timestamp c; is_skipped := is_skipped c; skip_reason := skip_reason c;
     period_type := period_type c; _duration := d |}.

(** The property [duration]: its value, and the event with the value kept. *)
Definition duration (c : cevent) : option Z * cevent :=
  let c' := match _duration c, begin_timestamp c, end_timestamp c with
            | None, Some b, Some e => set_duration (Some (e - b)) c
            | _, _, _ => c
            end in
  (_duration c', c').

Definition add_error (errs : list string) (c : cevent) : cevent :=
  set_errors (default [] (errors c) ++ errs) c.

(** ** The registry *)

Record world := World {
  objects : gmap string cevent;
  hashed_continuous_events : list (Z * list string);
  chan : channel;
}.

Definition set_object (i : string) (c : cevent) (w : world) : world :=
  World (<[i := c]> (objects w)) (hashed_continuous_events w) (chan w).
Definition set_buckets (b : list (Z * list string)) (w : world) : world :=
  World (objects w) b (chan w).
Definition set_chan (ch : channel) (w : world) : world :=
  World (objects w) (hashed_continuous_events w) ch.

Definition continuous_events (w : world) : list string := concat (hashed_continuous_events w).*2.

Definition add_event (i : string) (c : cevent) (w : world) : world :=
  let b := default [] (dict_get (continuous_hash c) (hashed_continuous_events w)) in
  set_buckets (dict_set (continuous_hash c) (b ++ [i]) (hashed_continuous_events w)) w.

(** [list.remove]: the first occurrence. *)
Fixpoint remove_first (i : string) (l : list string) : list string :=
  match l with
  | [] => []
  | j :: l' => if decide (i = j) then l' else j :: remove_first i l'
  end.

Definition del_event (i : string) (c : cevent) (w : world) : world :=
  match dict_get (continuous_hash c) (hashed_continuous_events w) with
  | Some b => if bool_decide (i ∈ b)
              then set_buckets (dict_set (continuous_hash c) (remove_first i b) (hashed_continuous_events w)) w
              else w
  | None => w
  end.

Definition cleanup_registry (w : world) : world := set_buckets [] w.

Definition find_continuous_events_by_hash (h : Z) (w : world) : list string :=
  default [] (dict_get h (hashed_continuous_events w)).

Definition find_running_disruption_events (w : world) : list string :=
  omap (λ p : Z * list string,
          match p.2 with
          | [] => None
          | i :: _ => c ← objects w !! i;
                      if String.eqb (ev_base (ev c)) "DisruptionEvent" then Some i else None
          end) (hashed_continuous_events w).

(** ** Beginning and ending *)

(** [publish] of an event of the store: an exception leaves the world as it is. *)
Definition publish_object (d : device) (i : string) (w : world) : world * option publish_error :=
  match objects w !! i with
  | None => (w, None)
  | Some c =>
    match publish d (set_ready true (ev c)) (chan w) with
    | Ok (e, ch) => (set_chan ch (set_object i (set_ev e c) w), None)
    | Err x => (set_object i (set_ev (set_ready true (ev c)) c) w, Some x)
    end
  end.

Definition add_subcontext_object (i : string) (w : world) : world :=
  match objects w !! i with
  | None => w
  | Some c => set_object i (set_ev (add_subcontext (find_running_disruption_events w) (ev c)) c) w
  end.

Definition maybe_publish (d : device) (pub : bool) (i : string) (w : world) : world * option publish_error :=
  match objects w !! i with
  | Some c => if pub && publish_event_flag c then publish_object d i w else (w, None)
  | None => (w, None)
  end.

Definition begin_event (d : device) (now : Z) (pub : bool) (i : string) (w : world)
    : world * option publish_error :=
  match objects w !! i with
  | None => (w, None)
  | Some c =>
    let c := set_begin now c in
    let w := add_event i c (set_object i c w) in
    maybe_publish d pub i (add_subcontext_object i w)
  end.

Definition end_event (d : device) (now : Z) (pub : bool) (i : string) (w : world)
    : world * option publish_error :=
  match objects w !! i with
  | None => (w, None)
  | Some c =>
    let c := set_end now c in
    let w := del_event i c (set_object i c w) in
    let w := set_object i (set_ev (set_subcontext [] (ev c)) c) w in
    maybe_publish d pub i (add_subcontext_object i w)
  end.

Definition event_error (d : device) (now : Z) (i : string) (w : world) : world * option publish_error :=
  match objects w !! i with
  | None => (w, None)
  | Some c => maybe_publish d true i (set_object i (set_informational now c) w)
  end.

(** ** The context manager *)

(** How the body of the [with] statement ends: normally, with an [Exception]
    (and its formatted traceback), or with another [BaseException]. *)
Inductive body_end : Type :=
  | BodyReturns
  | BodyRaises (traceback : string)
  | BodyInterrupted.

Definition __exit__ (d : device) (now : Z) (b : body_end) (i : string) (w : world)
    : world * option publish_error :=
  match objects w !! i with
  | None => (w, None)
  | Some c =>
    let c := match b with
             | BodyRaises tb =>
               let c := set_errors (default [] (errors c)) c in
               if is_skipped c then set_ev (set_severity NORMAL (ev c)) c
               else
                 let s := if value (severity (ev c)) <=? value ERROR then ERROR else severity (ev c) in
                 set_errors (default [] (errors c) ++ [tb]) (set_ev (set_severity s (ev c)) c)
             | BodyReturns | BodyInterrupted => c
             end in
    end_event d now true i (set_object i c w)
  end.

(** ** Disruption events ([sdcm/sct_events/nemesis.py]) *)
Inductive NemesisStatus : Type := FAILED | SKIPPED | SUCCEEDED.

Definition nemesis_status (c : cevent) : NemesisStatus :=
  match severity (ev c) with
  | ERROR => FAILED
  | _ => if is_skipped c then SKIPPED else SUCCEEDED
  end.

Definition add_simple_error (error : string) (c : cevent) : cevent :=
  let c := add_error [error] c in set_ev (set_severity ERROR (ev c)) c.

(** ** Sequences of operations *)
Inductive op : Type :=
  | OpBegin (d : device) (now : Z) (pub : bool) (i : string)
  | OpEnd (d : device) (now : Z) (pub : bool) (i : string)
  | OpExit (d : device) (now : Z) (b : body_end) (i : string)
  | OpError (d : device) (now : Z) (i : string)
  | OpSkip (reason : string) (i : string)
  | OpAddError (errs : list string) (i : string)
  | OpCleanup.

Definition update_object (f : cevent → cevent) (i : string) (w : world) : world :=
  match objects w !! i with Some c => set_object i (f c) w | None => w end.

(** An exception of [publish] is the caller's; the state stays as it was then. *)
Definition run_op (w : world) (o : op) : world :=
  match o with
  | OpBegin d now pub i => (begin_event d now pub i w).1
  | OpEnd d now pub i => (end_event d now pub i w).1
  | OpExit d now b i => (__exit__ d now b i w).1
  | OpError d now i => (event_error d now i w).1
  | OpSkip r i => update_object (skip r) i w
  | OpAddError l i => update_object (add_error l) i w
  | OpCleanup => cleanup_registry w
  end.

Definition occurrences (i : string) (l : list string) : nat := length (filter (i =.) l).

(** How often [i] is running: once more for each beginning, once less for each end. *)
Definition count_op (i : string) (n : nat) (o : op) : nat :=
  match o with
  | OpBegin _ _ _ j => if decide (i = j) then S n else n
  | OpEnd _ _ _ j | OpExit _ _ _ j => if decide (i = j) then pred n else n
  | OpCleanup => 0
  | _ => n
  end.

Definition hashes (w : world) : gmap string Z := continuous_hash <$> objects w.

(** Every id is in the bucket of its event's hash. *)
Definition wf_world (w : world) : Prop :=
  dict_wf (hashed_continuous_events w) ∧
  ∀ h b i, dict_get h (hashed_continuous_events w) = Some b → i ∈ b → hashes w !! i = Some h.

(** ** Lemmas *)
Lemma occurrences_app i l k : occurrences i (l ++ k) = (occurrences i l + occurrences i k)%nat.
Proof. unfold occurrences. by rewrite filter_app, length_app. Qed.

Lemma occurrences_single i j : occurrences i [j] = if decide (i = j) then 1%nat else 0%nat.
Proof. unfold occurrences. rewrite filter_cons. by case_decide. Qed.

Lemma occurrences_0 i l : i ∉ l → occurrences i l = 0%nat.
Proof.
  intros Hi. unfold occurrences. induction l as [|j l IH]; [done|]. rewrite filter_cons.
  case_decide; [set_solver|]. apply IH. set_solver.
Qed.

Lemma occurrences_pos i l : (0 < occurrences i l)%nat ↔ i ∈ l.
Proof.
  split; [intros Hp; destruct (decide (i ∈ l)) as [|Hn]; [done|rewrite occurrences_0 in Hp by done; lia]|].
  intros Hi. unfold occurrences. destruct (filter (i =.) l) eqn:E; simpl; [|lia].
  exfalso. assert (i ∈ filter (i =.) l) as Hf by (by apply list_elem_of_filter). rewrite E in Hf. set_solver.
Qed.

Lemma occurrences_remove i j l :
  occurrences i (remove_first j l) = if decide (i = j) then pred (occurrences i l) else occurrences i l.
Proof.
  induction l as [|k l IH]; simpl; [by case_decide|].
  change (k :: l) with ([k] ++ l). rewrite occurrences_app, occurrences_single.
  destruct (decide (j = k)) as [->|Hjk]; [destruct (decide (i = k)); lia|].
  change (k :: remove_first j l) with ([k] ++ remove_first j l).
  rewrite occurrences_app, occurrences_single, IH. repeat case_decide; congruence || lia.
Qed.

Lemma occurrences_bucket i h (d : list (Z * list string)) :
  dict_wf d → (∀ h' b, dict_get h' d = Some b → i ∈ b → h' = h) →
  occurrences i (concat d.*2) = occurrences i (default [] (dict_get h d)).
Proof.
  unfold dict_wf. induction d as [|[h' b] d IH]; intros Hwf Hd; [done|].
  apply NoDup_cons in Hwf as [Hh Hwf]. change (h' ∉ d.*1) in Hh. change (concat ((h', b) :: d).*2) with (b ++ concat d.*2).
  rewrite occurrences_app. cbn [dict_get] in *.
  assert (∀ k b', dict_get k d = Some b' → k ≠ h').
  { intros k b' Hk ->. apply dict_get_None in Hh. congruence. }
  case_decide as Hhh; [subst h'|].
  - simpl. rewrite (occurrences_0 i (concat d.*2)); [lia|]. intros Hin.
    apply list_elem_of_In, in_concat in Hin as (b' & Hb' & Hin). apply list_elem_of_In in Hb', Hin.
    apply list_elem_of_fmap in Hb' as ([k ?] & -> & Hk). apply dict_elem_get in Hk; [|done].
    assert (k ≠ h) by eauto. assert (k = h); [|done].
    eapply (Hd k); [|done]. by rewrite decide_False.
  - rewrite IH; [|done|].
    + rewrite occurrences_0; [done|]. intros Hin. apply Hhh. symmetry.
      eapply (Hd h'); [|done]. by rewrite decide_True.
    + intros k b' Hk Hin. eapply (Hd k); [|done]. rewrite decide_False; eauto.
Qed.

Lemma hashes_lookup w i c : objects w !! i = Some c → hashes w !! i = Some (continuous_hash c).
Proof. intros Hi. unfold hashes. by rewrite lookup_fmap, Hi. Qed.

Lemma wf_world_occurrences w i h :
  wf_world w → hashes w !! i = Some h →
  occurrences i (continuous_events w) = occurrences i (find_continuous_events_by_hash h w).
Proof.
  intros [Hd Hw] Hi. apply occurrences_bucket; [done|]. intros h' b Hb Hin.
  specialize (Hw h' b i Hb Hin). congruence.
Qed.

(** A step that leaves the registry and the hashes alone. *)
Definition keeps (w w' : world) : Prop :=
  hashed_continuous_events w' = hashed_continuous_events w ∧ hashes w' = hashes w.

#[global] Instance keeps_preorder : PreOrder keeps.
Proof. split; [by intros|]. intros x y z [? ?] [? ?]. split; congruence. Qed.

Lemma set_object_keeps i c c' w :
  objects w !! i = Some c → continuous_hash c' = continuous_hash c → keeps w (set_object i c' w).
Proof.
  intros Hi Hh. split; [done|]. unfold hashes. simpl. rewrite fmap_insert. apply insert_id.
  by rewrite lookup_fmap, Hi, Hh.
Qed.

Lemma publish_object_keeps d i w : keeps w (publish_object d i w).1.
Proof.
  unfold publish_object. destruct (objects w !! i) as [c|] eqn:Hi; [|done].
  destruct (publish d _ _) as [[e ch]|]; simpl; by eapply set_object_keeps.
Qed.

Lemma maybe_publish_keeps d pub i w : keeps w (maybe_publish d pub i w).1.
Proof. unfold maybe_publish. repeat case_match; try done. apply publish_object_keeps. Qed.

Lemma add_subcontext_object_keeps i w : keeps w (add_subcontext_object i w).
Proof. unfold add_subcontext_object. case_match; [|done]. by eapply set_object_keeps. Qed.

Lemma begin_event_registry d now pub i c w :
  objects w !! i = Some c → keeps (add_event i c w) (begin_event d now pub i w).1.
Proof.
  intros Hi. unfold begin_event. rewrite Hi.
  etrans; [|apply maybe_publish_keeps]. etrans; [|apply add_subcontext_object_keeps].
  split; [done|]. by apply (set_object_keeps i c (set_begin now c) w).
Qed.

Lemma del_event_hashes i c w : hashes (del_event i c w) = hashes w.
Proof. unfold del_event. repeat case_match; done. Qed.

Lemma del_event_set_object i c j c' w :
  del_event i c (set_object j c' w) = set_object j c' (del_event i c w).
Proof. unfold del_event. simpl. repeat case_match; done. Qed.

Lemma end_event_registry d now pub i c w :
  objects w !! i = Some c → keeps (del_event i c w) (end_event d now pub i w).1.
Proof.
  intros Hi. unfold end_event. rewrite Hi.
  etrans; [|apply maybe_publish_keeps]. etrans; [|apply add_subcontext_object_keeps].
  rewrite del_event_set_object. change (del_event i (set_end now c) w) with (del_event i c w).
  assert (objects (del_event i c w) !! i = Some c) as Hi' by (unfold del_event; repeat case_match; done).
  etrans; [by eapply (set_object_keeps i c (set_end now c))|].
  eapply (set_object_keeps i (set_end now c)); [apply lookup_insert_eq|done].
Qed.

Lemma exit_registry d now b i c w :
  objects w !! i = Some c → keeps (del_event i c w) (__exit__ d now b i w).1.
Proof.
  intros Hi. unfold __exit__. rewrite Hi.
  set (c1 := match b with BodyRaises tb => _ | _ => _ end).
  assert (continuous_hash c1 = continuous_hash c) as Hc by (unfold c1; repeat case_match; done).
  etrans; [|eapply (end_event_registry _ _ _ i c1); apply lookup_insert_eq].
  unfold del_event. rewrite Hc. simpl. destruct (dict_get _ _) as [l|]; [case_match|];
    (split; [done|]); by apply (set_object_keeps i c c1 w).
Qed.

Lemma event_error_keeps d now i w : keeps w (event_error d now i w).1.
Proof.
  unfold event_error. destruct (objects w !! i) as [c|] eqn:Hi; [|done].
  etrans; [|apply maybe_publish_keeps]. by eapply set_object_keeps.
Qed.

Lemma update_object_keeps f i w :
  (∀ c, continuous_hash (f c) = continuous_hash c) → keeps w (update_object f i w).
Proof. intros Hf. unfold update_object. case_match; [|done]. by eapply set_object_keeps. Qed.

Lemma keeps_wf w w' : keeps w w' → wf_world w → wf_world w'.
Proof. intros [Hb Hh] [Hd Hw]. unfold wf_world. by rewrite Hb, Hh. Qed.

(** The bucket of [i] after an event was added or removed. *)
Lemma add_event_wf i c w : objects w !! i = Some c → wf_world w → wf_world (add_event i c w).
Proof.
  intros Hi [Hd Hw]. split; [by apply dict_set_wf|]. intros h b j. simpl. rewrite dict_get_set.
  case_decide; [|apply Hw]. intros [= <-]. subst. change (hashes (add_event i c w)) with (hashes w).
  intros [Hj|Hj]%elem_of_app.
  - destruct (dict_get _ _) eqn:E; [by eapply Hw|set_solver].
  - apply list_elem_of_singleton in Hj as ->. unfold hashes. by rewrite lookup_fmap, Hi.
Qed.

Lemma remove_first_incl i j l : i ∈ remove_first j l → i ∈ l.
Proof. induction l as [|k l IH]; simpl; [done|]. case_decide; set_solver. Qed.

Lemma del_event_wf i c w : wf_world w → wf_world (del_event i c w).
Proof.
  intros [Hd Hw]. unfold del_event. destruct (dict_get _ _) as [l|] eqn:E; [|done].
  case_bool_decide; [|done]. split; [by apply dict_set_wf|]. intros h b j. simpl. rewrite dict_get_set.
  change (hashes (set_buckets _ w)) with (hashes w).
  case_decide; [|apply Hw]. intros [= <-] Hj. subst. eapply Hw; [done|]. by eapply remove_first_incl.
Qed.

Lemma run_op_wf w o : wf_world w → wf_world (run_op w o).
Proof.
  intros Hw. destruct o as [d now pub i|d now pub i|d now b i|d now i|r i|l i|]; simpl.
  - destruct (objects w !! i) as [c|] eqn:Hi; [|unfold begin_event; by rewrite Hi].
    eapply keeps_wf; [by apply begin_event_registry|by apply add_event_wf].
  - destruct (objects w !! i) as [c|] eqn:Hi; [|unfold end_event; by rewrite Hi].
    eapply keeps_wf; [by apply end_event_registry|by apply del_event_wf].
  - destruct (objects w !! i) as [c|] eqn:Hi; [|unfold __exit__; by rewrite Hi].
    eapply keeps_wf; [by apply exit_registry|by apply del_event_wf].
  - eapply keeps_wf; [apply event_error_keeps|done].
  - eapply keeps_wf; [by apply update_object_keeps|done].
  - eapply keeps_wf; [by apply update_object_keeps|done].
  - split; [constructor|done].
Qed.

Lemma run_op_hashes w o : hashes (run_op w o) = hashes w.
Proof.
  destruct o as [d now pub i|d now pub i|d now b i|d now i|r i|l i|]; simpl.
  - destruct (objects w !! i) as [c|] eqn:Hi; [|unfold begin_event; by rewrite Hi].
    by destruct (begin_event_registry d now pub i c w Hi) as [_ ->].
  - destruct (objects w !! i) as [c|] eqn:Hi; [|unfold end_event; by rewrite Hi].
    destruct (end_event_registry d now pub i c w Hi) as [_ ->]. apply del_event_hashes.
  - destruct (objects w !! i) as [c|] eqn:Hi; [|unfold __exit__; by rewrite Hi].
    destruct (exit_registry d now b i c w Hi) as [_ ->]. apply del_event_hashes.
  - apply event_error_keeps.
  - by apply update_object_keeps.
  - by apply update_object_keeps.
  - done.
Qed.

Lemma keeps_bucket w w' h :
  keeps w w' → find_continuous_events_by_hash h w' = find_continuous_events_by_hash h w.
Proof. unfold find_continuous_events_by_hash. by intros [-> _]. Qed.

Lemma add_event_occurrences i j c w h :
  hashes w !! j = Some h → objects w !! i = Some c →
  occurrences j (find_continuous_events_by_hash h (add_event i c w)) =
  if decide (j = i) then S (occurrences j (find_continuous_events_by_hash h w))
  else occurrences j (find_continuous_events_by_hash h w).
Proof.
  intros Hj Hi. unfold find_continuous_events_by_hash. simpl. rewrite dict_get_set.
  case_decide as Hh; simpl.
  - subst. rewrite occurrences_app, occurrences_single. case_decide; lia.
  - case_decide; [|done]. subst. unfold hashes in Hj. rewrite lookup_fmap, Hi in Hj. by simplify_eq/=.
Qed.

Lemma del_event_occurrences i j c w h :
  hashes w !! j = Some h → objects w !! i = Some c →
  occurrences j (find_continuous_events_by_hash h (del_event i c w)) =
  if decide (j = i) then pred (occurrences j (find_continuous_events_by_hash h w))
  else occurrences j (find_continuous_events_by_hash h w).
Proof.
  intros Hj Hi. unfold find_continuous_events_by_hash, del_event.
  assert (j = i → h = continuous_hash c) as Hji.
  { intros ->. unfold hashes in Hj. rewrite lookup_fmap, Hi in Hj. by simplify_eq/=. }
  destruct (dict_get (continuous_hash c) _) as [l|] eqn:E.
  - case_bool_decide as Hin; simpl.
    + rewrite dict_get_set. case_decide as Hh; simpl.
      * subst h. rewrite E. simpl. by rewrite occurrences_remove.
      * case_decide; [tauto|done].
    + case_decide as Hd; [|done]. rewrite (Hji Hd), E. simpl. subst. by rewrite occurrences_0.
  - case_decide as Hd; [|done]. by rewrite (Hji Hd), E.
Qed.

Lemma run_op_occurrences w o i h :
  hashes w !! i = Some h →
  occurrences i (find_continuous_events_by_hash h (run_op w o)) =
  count_op i (occurrences i (find_continuous_events_by_hash h w)) o.
Proof.
  intros Hh.
  assert (∀ j, objects w !! j = None → i ≠ j) as Hne.
  { intros j Hj ->. unfold hashes in Hh. by rewrite lookup_fmap, Hj in Hh. }
  destruct o as [d now pub j|d now pub j|d now b j|d now j|r j|l j|]; simpl.
  - destruct (objects w !! j) as [c|] eqn:Hj.
    + rewrite (keeps_bucket _ _ _ (begin_event_registry d now pub j c w Hj)). by apply add_event_occurrences.
    + unfold begin_event. rewrite Hj. by rewrite decide_False by auto.
  - destruct (objects w !! j) as [c|] eqn:Hj.
    + rewrite (keeps_bucket _ _ _ (end_event_registry d now pub j c w Hj)). by apply del_event_occurrences.
    + unfold end_event. rewrite Hj. by rewrite decide_False by auto.
  - destruct (objects w !! j) as [c|] eqn:Hj.
    + rewrite (keeps_bucket _ _ _ (exit_registry d now b j c w Hj)). by apply del_event_occurrences.
    + unfold __exit__. rewrite Hj. by rewrite decide_False by auto.
  - by rewrite (keeps_bucket _ _ _ (event_error_keeps d now j w)).
  - by rewrite (keeps_bucket _ _ _ (update_object_keeps (skip r) j w (λ _, eq_refl))).
  - by rewrite (keeps_bucket _ _ _ (update_object_keeps (add_error l) j w (λ _, eq_refl))).
  - done.
Qed.

Lemma run_ops_wf ops w : wf_world w → wf_world (foldl run_op w ops).
Proof. revert w. induction ops as [|o ops IH]; intros w Hw; simpl; [done|]. by apply IH, run_op_wf. Qed.

Lemma run_ops_hashes ops w : hashes (foldl run_op w ops) = hashes w.
Proof. revert w. induction ops as [|o ops IH]; intros w; simpl; [done|]. by rewrite IH, run_op_hashes. Qed.

Lemma run_ops_occurrences ops w i h :
  hashes w !! i = Some h →
  occurrences i (find_continuous_events_by_hash h (foldl run_op w ops)) =
  foldl (count_op i) (occurrences i (find_continuous_events_by_hash h w)) ops.
Proof.
  revert w. induction ops as [|o ops IH]; intros w Hh; simpl; [done|].
  by rewrite IH, run_op_occurrences by (by rewrite ?run_op_hashes).
Qed.

Lemma init_wf objs ch : wf_world (World objs [] ch).
Proof. split; [constructor|done]. Qed.

(** ** Properties *)

(** C32. The registry holds exactly the running events: after any sequence of
    beginnings, ends, context exits, errors, skips and clean-ups of any events, an
    event is registered as many times as it was begun and not yet ended, whatever
    hash collisions there are and whether or not publishing raised. *)
Theorem registry_holds_running_events objs ch ops i :
  is_Some (objs !! i) →
  occurrences i (continuous_events (foldl run_op (World objs [] ch) ops)) = foldl (count_op i) 0%nat ops.
Proof.
  intros [c Hi].
  assert (hashes (World objs [] ch) !! i = Some (continuous_hash c)) as Hh
    by (by apply hashes_lookup).
  rewrite (wf_world_occurrences _ i (continuous_hash c)).
  - by rewrite run_ops_occurrences.
  - apply run_ops_wf, init_wf.
  - by rewrite run_ops_hashes.
Qed.

Definition injective_hashes (m : gmap string Z) : Prop :=
  ∀ i j h, m !! i = Some h → m !! j = Some h → i = j.

Lemma bucket_elem w i h b :
  wf_world w → dict_get h (hashed_continuous_events w) = Some b → i ∈ b → i ∈ continuous_events w.
Proof.
  intros _ Hb Hi. unfold continuous_events. apply list_elem_of_In, in_concat. exists b.
  split; [|by apply list_elem_of_In]. apply list_elem_of_In, list_elem_of_fmap.
  exists (h, b). split; [done|]. by apply dict_get_elem.
Qed.

(** An error is attributed to exactly the running nemeses: when different
    events have different hashes, [find_running_disruption_events] returns, after
    any sequence of operations, the disruption events that are begun and not yet
    ended, and no others. *)
Theorem find_running_disruption_events_exact objs ch ops i :
  injective_hashes (hashes (World objs [] ch)) →
  let w := foldl run_op (World objs [] ch) ops in
  i ∈ find_running_disruption_events w ↔
  i ∈ continuous_events w ∧ ∃ c, objects w !! i = Some c ∧ ev_base (ev c) = "DisruptionEvent".
Proof.
  intros Hinj w. assert (wf_world w) as Hw by apply run_ops_wf, init_wf.
  assert (hashes w = hashes (World objs [] ch)) as Hh by apply run_ops_hashes. rewrite <- Hh in Hinj.
  unfold find_running_disruption_events. rewrite list_elem_of_omap. split.
  - intros ([h b] & Hin & Hb). apply dict_elem_get in Hin; [|apply Hw]. simpl in Hb.
    destruct b as [|j b]; [done|]. destruct (objects w !! j) as [c|] eqn:Hj; [|done]. simpl in Hb.
    destruct (String.eqb_spec (ev_base (ev c)) "DisruptionEvent"); [|done]. simplify_eq.
    split; [|eauto]. eapply bucket_elem; [done|done|set_solver].
  - intros [Hin (c & Hc & Hbase)].
    assert (hashes w !! i = Some (continuous_hash c)) as Hi by (by apply hashes_lookup).
    apply occurrences_pos in Hin. rewrite (wf_world_occurrences w i _ Hw Hi), occurrences_pos in Hin.
    unfold find_continuous_events_by_hash in Hin.
    destruct (dict_get _ _) as [b|] eqn:Hb; simpl in Hin; [|set_solver].
    exists (continuous_hash c, b). split; [by apply dict_get_elem|]. simpl.
    destruct b as [|j b]; [set_solver|].
    assert (hashes w !! j = Some (continuous_hash c)) as Hj by (eapply Hw; [done|set_solver]).
    rewrite (Hinj j i _ Hj Hi), Hc. simpl. by rewrite Hbase.
Qed.

Definition exit_severity (b : body_end) (c : cevent) : Severity :=
  match b with
  | BodyRaises _ => if is_skipped c then NORMAL
                    else if value (severity (ev c)) <=? value ERROR then ERROR else severity (ev c)
  | _ => severity (ev c)
  end.

Definition exit_errors (b : body_end) (c : cevent) : list string :=
  match b with BodyRaises tb => if is_skipped c then [] else [tb] | _ => [] end.

Lemma add_subcontext_severity running e : severity (add_subcontext running e) = severity e.
Proof. destruct (add_subcontext_only running e) as [->|[? ->]]; done. Qed.

(** What [end_event] leaves of its event when the device is alive. *)
Lemma end_event_alive now i c w :
  objects w !! i = Some c →
  ∃ c' ch, end_event AliveDevice now true i w =
             (World (<[i := c']> (objects w)) (hashed_continuous_events (del_event i c w)) ch, None) ∧
    end_timestamp c' = Some now ∧ period_type c' = END_ ∧ severity (ev c') = severity (ev c) ∧
    errors c' = errors c ∧ is_skipped c' = is_skipped c ∧
    queue ch = queue (chan w) ++ (if publish_event_flag c then [pickled (ev c')] else []).
Proof.
  intros Hi. unfold end_event. rewrite Hi. rewrite del_event_set_object.
  change (del_event i (set_end now c) w) with (del_event i c w).
  set (c1 := set_ev (set_subcontext _ _) _). set (w1 := set_object i c1 _).
  unfold add_subcontext_object. assert (objects w1 !! i = Some c1) as -> by apply lookup_insert_eq.
  set (e := add_subcontext _ _). unfold maybe_publish. simpl. rewrite lookup_insert_eq. simpl.
  assert (objects (del_event i c w) = objects w ∧ chan (del_event i c w) = chan w) as [Ho Hch]
    by (unfold del_event; repeat case_match; done).
  assert (severity e = severity (ev c)) as He by (unfold e; by rewrite add_subcontext_severity).
  destruct (publish_event_flag c) eqn:Hp.
  - unfold publish_object. simpl. rewrite lookup_insert_eq. unfold publish, publish_event. simpl.
    unfold set_chan, set_object. simpl. rewrite !insert_insert_eq, Ho, Hch. eexists _, _. split; [reflexivity|].
    by repeat split.
  - unfold set_object. simpl. rewrite !insert_insert_eq, Ho. eexists _, _. split; [reflexivity|].
    repeat split; [done|]. simpl. by rewrite Hch, app_nil_r.
Qed.

(** The status reported for a nemesis after its context was left. *)
Definition exit_status (b : body_end) (c : cevent) : NemesisStatus :=
  match exit_severity b c with
  | ERROR => FAILED
  | _ => if is_skipped c then SKIPPED else SUCCEEDED
  end.

(** Leaving the context always ends the event: however the body ended, an
    event that was running once is no longer registered, it has its end time and
    period, and if it publishes, its final state is queued. Only an [Exception]
    changes its severity and errors: to NORMAL with no error when it was skipped,
    else to at least ERROR with the traceback appended; the status of a nemesis
    that raised is FAILED when it was not skipped and not already CRITICAL. *)
Theorem exit_ends_event now b i c w :
  wf_world w →
  objects w !! i = Some c →
  occurrences i (continuous_events w) = 1%nat →
  let r := __exit__ AliveDevice now b i w in
  r.2 = None ∧ i ∉ continuous_events r.1 ∧
  ∃ c', objects r.1 !! i = Some c' ∧ end_timestamp c' = Some now ∧ period_type c' = END_ ∧
    severity (ev c') = exit_severity b c ∧
    default [] (errors c') = default [] (errors c) ++ exit_errors b c ∧
    nemesis_status c' = exit_status b c ∧
    queue (chan r.1) = queue (chan w) ++ (if publish_event_flag c then [pickled (ev c')] else []).
Proof.
  intros Hw Hi Hocc r.
  assert (i ∉ continuous_events r.1) as Hnot.
  { assert (hashes w !! i = Some (continuous_hash c)) as Hh by (by apply hashes_lookup).
    rewrite <- occurrences_pos. rewrite (wf_world_occurrences r.1 i (continuous_hash c)).
    - pose proof (run_op_occurrences w (OpExit AliveDevice now b i) i _ Hh) as Ho. simpl in Ho.
      fold r in Ho. rewrite Ho, decide_True by done. rewrite <- wf_world_occurrences, Hocc by done. simpl. lia.
    - apply (run_op_wf w (OpExit AliveDevice now b i) Hw).
    - change r.1 with (run_op w (OpExit AliveDevice now b i)). by rewrite run_op_hashes. }
  split_and!; [|done|]; unfold r in *; clear r; revert Hnot; unfold __exit__; rewrite Hi;
    set (c1 := match b with BodyRaises tb => _ | _ => _ end); intros _;
    destruct (end_event_alive now i c1 (set_object i c1 w)) as (c' & ch & -> & Hend & Hper & Hsev & Herr & Hskip & Hq);
    try apply lookup_insert_eq; [done|].
  exists c'. simpl. rewrite lookup_insert_eq. split_and!; [done|done|done|..].
  - rewrite Hsev. unfold c1, exit_severity. by destruct b; try destruct (is_skipped c) eqn:Es; simpl; rewrite ?Es.
  - rewrite Herr. unfold c1, exit_errors. destruct b; simpl; rewrite ?app_nil_r; [done| |done].
    destruct (is_skipped c); simpl; by rewrite ?app_nil_r.
  - unfold nemesis_status, exit_status. rewrite Hsev, Hskip. unfold c1, exit_severity.
    by destruct b; simpl; try destruct (is_skipped c) eqn:Es; simpl; rewrite ?Es.
  - assert (publish_event_flag c1 = publish_event_flag c) as <-; [|done].
    unfold c1. destruct b; simpl; try destruct (is_skipped c); done.
Qed.

(** ** Witnesses *)
Definition ex_cevent (i base : string) (h : Z) : cevent :=
  cevent_init (Event base base None None NORMAL (Some 1) None i true (Some []) false false None 0 None) h true None.
Definition ex_objects : gmap string cevent :=
  {["a" := ex_cevent "a" "DisruptionEvent" 1; "b" := ex_cevent "b" "NodetoolEvent" 2]}.
Definition ex_ops : list op :=
  [OpBegin AliveDevice 1 true "a"; OpBegin AliveDevice 2 true "b"; OpEnd NoRegistry 3 true "b"].

Lemma registry_holds_running_events_witness :
  occurrences "a" (continuous_events (foldl run_op (World ex_objects [] (Channel [] [] [])) ex_ops)) = 1%nat.
Proof. apply (registry_holds_running_events ex_objects (Channel [] [] []) ex_ops "a"). vm_compute. eauto. Defined.

Lemma find_running_disruption_events_exact_witness :
  "a" ∈ find_running_disruption_events (foldl run_op (World ex_objects [] (Channel [] [] [])) ex_ops) ↔
  "a" ∈ continuous_events (foldl run_op (World ex_objects [] (Channel [] [] [])) ex_ops) ∧
  ∃ c, objects (foldl run_op (World ex_objects [] (Channel [] [] [])) ex_ops) !! "a" = Some c ∧
       ev_base (ev c) = "DisruptionEvent".
Proof.
  apply (find_running_disruption_events_exact ex_objects (Channel [] [] []) ex_ops "a").
  intros i j h. unfold hashes, ex_objects. simpl. rewrite fmap_insert, map_fmap_singleton.
  rewrite !lookup_insert, !lookup_singleton. repeat case_decide; intros; simplify_eq/=; congruence.
Defined.

Lemma exit_ends_event_witness :
  let w := foldl run_op (World ex_objects [] (Channel [] [] [])) ex_ops in
  let r := __exit__ AliveDevice 9 (BodyRaises "boom") "a" w in
  r.2 = None ∧ "a" ∉ continuous_events r.1 ∧
  ∃ c', objects r.1 !! "a" = Some c' ∧ end_timestamp c' = Some 9 ∧ period_type c' = END_ ∧
    severity (ev c') = ERROR ∧ default [] (errors c') = ["boom"] ∧
    nemesis_status c' = FAILED ∧
    queue (chan r.1) = queue (chan w) ++ [pickled (ev c')].
Proof.
  set (w := foldl run_op (World ex_objects [] (Channel [] [] [])) ex_ops).
  destruct (objects w !! "a") as [c|] eqn:Hc; [|vm_compute in Hc; discriminate].
  pose proof (exit_ends_event 9 (BodyRaises "boom") "a" c w) as H.
  vm_compute in Hc. injection Hc as <-. apply H.
  - apply run_ops_wf, init_wf.
  - vm_compute. reflexivity.
  - vm_compute. reflexivity.
Defined.
End Continuous.
