(* ===== verification/EventConsumers.v ===== *)
(** The processes that consume events from the device: the analyzer that stops
    the test ([sdcm/sct_events/events_analyzer.py]), the handler process
    ([event_handler.py], [handlers/schema_disagreement.py]), the counters
    ([event_counter.py]), the pipes between processes ([events_processes.py]),
    and the aggregators of the Grafana and Argus pipelines ([grafana.py],
    [argus.py]).

    A consumer is a function of the pairs (event class, event) that
    [EventsDevice.outbound_events] hands out, together with what each round reads
    from its environment: the clock, whether a tester object is registered,
    whether a file could be written. *)
From Stdlib Require Import Ascii Sorting.Sorted.
From stdpp Require Import base decidable option strings numbers gmap sets list.
From S2P Require Import Prelude.
From S2P Require Import PyString.
From S2P Require Import PyDict.
From S2P Require Import Events.

Module Consumers.
Import Events.
#[local] Open Scope Z_scope.

(** ** The analyzer *)

Definition LOADERS_EVENTS : list string :=
  ["CassandraStressEvent"; "ScyllaBenchEvent"; "YcsbStressEvent"; "NdbenchStressEvent"; "CDCReaderStressEvent"].

Definition GCE_LIVE_MIGRATION_EVENT_TYPE : string := "migrateOnHostMaintenance".

Definition _is_benign_gce_live_migration_of_loader (event_class : string) (e : event) : bool :=
  String.eqb event_class "GceInstanceEvent" &&
  bool_decide (ev_type e = Some GCE_LIVE_MIGRATION_EVENT_TYPE) &&
  contains "loader" (str_opt (node e)).

Inductive failure_reason : Type :=
  | StressCommandFailed (e : event)
  | GotCriticalEvent (e : event).

(** [memo] is the default argument of [kill_test], one dictionary for the whole
    program; [killed] are the calls of [tester.kill_test]. *)
Record analyzer := Analyzer {
  stopped : bool;
  memo : bool;
  killed : list failure_reason;
}.

Definition analyzer_kill_test (tester : bool) (r : failure_reason) (a : analyzer) : analyzer :=
  if tester
  then if memo a then Analyzer true (memo a) (killed a) else Analyzer true true (killed a ++ [r])
  else Analyzer true (memo a) (killed a).

Definition analyzer_step (tester : bool) (p : string * event) (a : analyzer) : analyzer :=
  let '(event_class, e) := p in
  if String.eqb event_class "TestResultEvent" || negb (bool_decide (severity e = CRITICAL)) then a
  else if _is_benign_gce_live_migration_of_loader event_class e then a
  else analyzer_kill_test tester
         (if bool_decide (event_class ∈ LOADERS_EVENTS) then StressCommandFailed e else GotCriticalEvent e) a.

(** The thread's loop: the device's generator ends once the stop event is set. *)
Fixpoint analyzer_run (inputs : list (bool * (string * event))) (a : analyzer) : analyzer :=
  match inputs with
  | [] => a
  | (tester, p) :: inputs' => if stopped a then a else analyzer_run inputs' (analyzer_step tester p a)
  end.

(** A new analyzer thread of the same program. *)
Definition analyzer_restart (a : analyzer) : analyzer := Analyzer false (memo a) (killed a).

Definition analyzer_runs (runs : list (list (bool * (string * event)))) : analyzer :=
  foldl (λ a inputs, analyzer_run inputs (analyzer_restart a)) (Analyzer false false []) runs.

(** ** The event handler *)

(** [SchemaDisagreementHandler]: the time of its last upload. With no tester
    object, [tester_obj.db_cluster] raises [AttributeError]. *)
Record handler_state := HandlerState {
  _sstables_uploaded_time : Z;
  collected : nat;
}.

Inductive handle_result : Type := HandlerSkipped | HandlerCollected | HandlerRaised.

Definition _should_upload_sstables (now : Z) (h : handler_state) : bool :=
  _sstables_uploaded_time h <? now - 3600.

Definition schema_disagreement_handle (now_check now_set : Z) (tester : bool) (h : handler_state)
    : handle_result * handler_state :=
  if _should_upload_sstables now_check h
  then if tester then (HandlerCollected, HandlerState now_set (S (collected h)))
       else (HandlerRaised, HandlerState now_set (collected h))
  else (HandlerSkipped, h).

Definition handlers (full_class_name : string) : bool :=
  String.eqb full_class_name "CassandraStressLogEvent.SchemaDisagreement".

(** One event in [EventsHandler.run]: [None] is an event without a handler. *)
Definition events_handler_step (now_check now_set : Z) (tester : bool) (p : string * event) (h : handler_state)
    : option handle_result * handler_state :=
  let '(event_class, e) := p in
  let full_class_name :=
    if truthy (ev_type e) then event_class +:+ "." +:+ str_opt (ev_type e) else event_class in
  if handlers full_class_name
  then let '(r, h') := schema_disagreement_handle now_check now_set tester h in (Some r, h')
  else (None, h).

(** ** The counters *)

Definition STALL_INTERVALS : list Z := [10; 20; 30; 50; 100; 200; 1000; 2000].

Fixpoint first_boundary (l : list Z) (stall_ms : Z) : Z :=
  match l with
  | [] => stall_ms
  | b :: l' => if stall_ms <? b then b else first_boundary l' stall_ms
  end.

Definition _get_interval (stall_ms : Z) : Z :=
  if negb (truthy stall_ms) then 0 else first_boundary STALL_INTERVALS stall_ms.

(** [re.search] of [Reactor stalled for\s(\d+)\sms]: the digits of the first match. *)
Fixpoint take_digits (s : string) : string * string :=
  match s with
  | EmptyString => (EmptyString, EmptyString)
  | String c s' => if is_digit c then let '(d, r) := take_digits s' in (String c d, r) else (EmptyString, s)
  end.

Definition match_reactor_ms (s : string) : option Z :=
  if startswith "Reactor stalled for" s then
    match str_drop 19 s with
    | String c s1 =>
      let '(d, s2) := take_digits s1 in
      match s2 with
      | String c' s3 => if is_space c && truthy d && is_space c' && startswith "ms" s3
                        then Some (int_of_digits d) else None
      | EmptyString => None
      end
    | EmptyString => None
    end
  else None.

Fixpoint search_reactor_ms (s : string) : option Z :=
  match match_reactor_ms s with
  | Some n => Some n
  | None => match s with EmptyString => None | String _ s' => search_reactor_ms s' end
  end.

(** A value of [stats]: the empty dictionary [setdefault] puts is [None]. *)
Record stat := Stat { counter : nat; ms : list (Z * nat) }.

Record event_stat_data := EventStatData {
  event_types : list string;
  stats : list (string * option stat);
}.

(** [EventStatHandler.update_stat] and its override for reactor stalls, which
    first appends the line to a file and then searches it; either can raise. *)
Definition update_stat (st : option stat) : stat :=
  match st with None => Stat 1 [] | Some s => Stat (S (counter s)) (ms s) end.

Definition reactor_update_stat (save_ok : bool) (e : event) (st : option stat) : option stat :=
  if negb save_ok then None
  else match line e with
       | None => None
       | Some l =>
         let s := default (Stat 0 []) st in
         let interval := _get_interval (default 0 (search_reactor_ms l)) in
         Some (Stat (S (counter s))
                 (dict_set interval (S (default 0%nat (dict_get interval (ms s)))) (ms s)))
       end.

Definition handler_update (save_ok : bool) (e : event) (st : option stat) : option stat :=
  if String.eqb (ev_class e) "DatabaseLogEvent.REACTOR_STALLED"
  then reactor_update_stat save_ok e st else Some (update_stat st).

(** One registered counter on one event; [None] is an exception, after
    [setdefault] has already inserted an empty entry. *)
Definition update_counter (save_ok : bool) (e : event) (d : event_stat_data) : option event_stat_data * event_stat_data :=
  if bool_decide (ev_class e ∈ event_types d)
  then let st := default None (dict_get (ev_class e) (stats d)) in
       let seeded := EventStatData (event_types d)
                       (match dict_get (ev_class e) (stats d) with
                        | Some _ => stats d
                        | None => dict_set (ev_class e) None (stats d)
                        end) in
       match handler_update save_ok e st with
       | Some s => (Some (EventStatData (event_types d) (dict_set (ev_class e) (Some s) (stats d))), seeded)
       | None => (None, seeded)
       end
  else (Some d, d).

(** The loop over the register: an exception ends it, [verbose_suppress] logs it. *)
Fixpoint update_counters (save_ok : string → bool) (e : event) (reg : list (string * event_stat_data))
    : list (string * event_stat_data) :=
  match reg with
  | [] => []
  | (i, d) :: reg' =>
    match update_counter (save_ok i) e d with
    | (Some d', _) => (i, d') :: update_counters save_ok e reg'
    | (None, seeded) => (i, seeded) :: reg'
    end
  end.

Definition add_counter (i : string) (d : event_stat_data) (reg : list (string * event_stat_data)) :=
  dict_set i d reg.
Definition get_counter (i : string) (reg : list (string * event_stat_data)) : option event_stat_data :=
  dict_get i reg.
Definition remove_counter (i : string) (reg : list (string * event_stat_data)) :=
  dict_del i reg.

Definition counters_run (inputs : list ((string → bool) * event)) (reg : list (string * event_stat_data)) :=
  foldl (λ r p, update_counters p.1 p.2 r) reg inputs.

(** ** Pipes *)

(** [EventsProcessPipe.outbound_events]: the rounds of the first loop, each with
    the items put before its [get] returns or times out, then, once the stop
    event is set, the flush of what is queued; [late] arrives during the flush. *)
Fixpoint pipe_outbound {A} (q : list A) (rounds : list (list A)) (late : list A) : list A :=
  match rounds with
  | [] => q ++ late
  | p :: rounds' => match q ++ p with
                    | x :: q' => x :: pipe_outbound q' rounds' late
                    | [] => pipe_outbound [] rounds' late
                    end
  end.

(** ** Grafana *)

Definition GRAFANA_TIME_WINDOW : Z := 90.
Definition GRAFANA_MAX_DUPLICATES : nat := 5.

Definition annotation_tags (event_class : string) (e : event) : list string :=
  [event_class; severity_name (severity e); "events"] ++
  (if truthy (ev_type e) then option_list (ev_type e) else []) ++
  (if truthy (ev_subtype e) then option_list (ev_subtype e) else []).

Record grafana_state := GrafanaState {
  time_window_counters : list (list string * nat);
  time_window_end : Z;
}.

(** One annotation at time [now], by its tags: the state and whether it is passed on. *)
Definition grafana_aggregate (now : Z) (key : list string) (g : grafana_state) : grafana_state * bool :=
  let time_diff := now - time_window_end g in
  let g := if 0 <? time_diff
           then GrafanaState [] (time_window_end g + (time_diff / GRAFANA_TIME_WINDOW + 1) * GRAFANA_TIME_WINDOW)
           else g in
  let n := S (default 0%nat (dict_get key (time_window_counters g))) in
  (GrafanaState (dict_set key n (time_window_counters g)) (time_window_end g), (n <=? GRAFANA_MAX_DUPLICATES)%nat).

(** Each annotation with the end of its time window and whether it was passed on. *)
Fixpoint grafana_run (inputs : list (Z * list string)) (g : grafana_state) : list (Z * list string * bool) :=
  match inputs with
  | [] => []
  | (now, key) :: inputs' =>
    let '(g', b) := grafana_aggregate now key g in
    (time_window_end g', key, b) :: grafana_run inputs' g'
  end.

(** ** Argus *)

Definition ARGUS_TIME_WINDOW : Z := 90.

(** [unique_key]: run id, severity, event type and event id. *)
Record argus_event := ArgusEvent {
  a_run_id : option string;
  a_severity : string;
  a_event_type : string;
  a_event_id : string;
}.

#[global] Instance argus_event_eq_dec : EqDecision argus_event.
Proof. solve_decision. Defined.

(** One event: [check] and [set_] are the two reads of [time.perf_counter()]. *)
Definition argus_aggregate (check set_ : Z) (key : argus_event) (counters : list (argus_event * Z))
    : list (argus_event * Z) * bool :=
  if ARGUS_TIME_WINDOW <? check - default 0 (dict_get key counters)
  then (dict_set key set_ counters, true)
  else (counters, false).

(** The events passed on, with the time of the check. *)
Fixpoint argus_run (inputs : list (Z * Z * argus_event)) (counters : list (argus_event * Z))
    : list (Z * Z * argus_event) :=
  match inputs with
  | [] => []
  | (check, set_, key) :: inputs' =>
    let '(c', b) := argus_aggregate check set_ key counters in
    (if b : bool then [(check, set_, key)] else []) ++ argus_run inputs' c'
  end.

(** ** The analyzer kills the test once *)

Definition fatal (p : string * event) : bool :=
  negb (String.eqb p.1 "TestResultEvent") && bool_decide (severity p.2 = CRITICAL) &&
  negb (_is_benign_gce_live_migration_of_loader p.1 p.2).

Definition reason (p : string * event) : failure_reason :=
  if bool_decide (p.1 ∈ LOADERS_EVENTS) then StressCommandFailed p.2 else GotCriticalEvent p.2.

Lemma analyzer_step_fatal t p a :
  analyzer_step t p a = if fatal p then analyzer_kill_test t (reason p) a else a.
Proof.
  destruct p as [c e]. unfold analyzer_step, fatal, reason. simpl.
  destruct (String.eqb c "TestResultEvent"); [done|]. simpl.
  case_bool_decide; simpl; [|done]. by destruct (_is_benign_gce_live_migration_of_loader c e).
Qed.

(** The first critical event of a run, with the tester's presence at that time. *)
Definition first_fatal (inputs : list (bool * (string * event))) : option (bool * (string * event)) :=
  List.find (λ i, fatal i.2) inputs.

Lemma analyzer_run_spec inputs a :
  stopped a = false →
  analyzer_run inputs a =
  match first_fatal inputs with
  | None => a
  | Some (t, p) => analyzer_kill_test t (reason p) a
  end.
Proof.
  intros Ha. induction inputs as [|[t p] inputs IH]; simpl; [done|]. rewrite Ha, analyzer_step_fatal.
  unfold first_fatal in *. simpl. destruct (fatal p); [|done].
  assert (stopped (analyzer_kill_test t (reason p) a) = true) as Hs
    by (unfold analyzer_kill_test; repeat case_match; done).
  destruct inputs as [|[? ?] ?]; simpl; by rewrite ?Hs.
Qed.

(** The test is killed at most once, by the first critical event: over any
    number of analyzer threads and any streams of events, [tester.kill_test] is
    called exactly for the first thread whose first fatal event (CRITICAL, not a
    test result, not a benign live migration of a loader) came while a tester was
    registered, with the reason of that event, and never again. *)
Theorem analyzer_kills_test_once runs :
  killed (analyzer_runs runs) =
  take 1 ((λ i : bool * (string * event), reason i.2) <$> filter (λ i, i.1 = true) (omap first_fatal runs)).
Proof.
  unfold analyzer_runs.
  enough (∀ a, memo a = negb (bool_decide (killed a = [])) →
    killed (foldl (λ a inputs, analyzer_run inputs (analyzer_restart a)) a runs) =
    match killed a with
    | [] => take 1 ((λ i : bool * (string * event), reason i.2) <$> filter (λ i, i.1 = true) (omap first_fatal runs))
    | l => l
    end) as H by (by rewrite H).
  induction runs as [|r runs IH]; intros a Ha; simpl; [by destruct (killed a)|].
  rewrite analyzer_run_spec by done.
  destruct (first_fatal r) as [[t q]|]; [|by rewrite IH].
  rewrite IH; unfold analyzer_kill_test; simpl.
  - destruct t; simpl; [|done].
    destruct (memo a) eqn:Hm; simpl; destruct (killed a) as [|k l] eqn:Hk; simpl; try done.
  - destruct t; simpl; [|done]. destruct (memo a) eqn:Hm; simpl; [by rewrite <- Ha|].
    by destruct (killed a).
Qed.

(** An event that arrives before the test object exists is announced as
    skipped but handled, and uses up the hour: the handler raises without
    collecting anything, and a schema disagreement within the following hour, with
    the test object present, is then skipped. *)
Theorem handler_runs_without_tester t0 s0 t1 s1 e h :
  ev_type e = Some "SchemaDisagreement" →
  _sstables_uploaded_time h < t0 - 3600 →
  t1 - 3600 <= s0 →
  let '(r0, h0) := events_handler_step t0 s0 false ("CassandraStressLogEvent", e) h in
  r0 = Some HandlerRaised ∧
  events_handler_step t1 s1 true ("CassandraStressLogEvent", e) h0 = (Some HandlerSkipped, h0) ∧
  collected h0 = collected h.
Proof.
  intros Ht Hh H1. unfold events_handler_step. rewrite Ht. simpl.
  unfold schema_disagreement_handle, _should_upload_sstables. apply Z.ltb_lt in Hh. rewrite Hh. simpl.
  split; [done|]. assert (s0 <? t1 - 3600 = false) as -> by (apply Z.ltb_ge; lia). done.
Qed.

(** ** Pipes lose nothing *)

(** A pipe between two event processes loses nothing and keeps the order:
    what its generator yields over its life is what was queued before, during its
    loop and up to the end of the flush, in that order; in particular everything
    queued when the stop event is set is still delivered. *)
Theorem pipe_delivers_everything {A} (q : list A) rounds late :
  pipe_outbound q rounds late = q ++ concat rounds ++ late.
Proof.
  revert q. induction rounds as [|p rounds IH]; intros q; simpl; [done|].
  rewrite <- (assoc_L (++)), !(assoc_L (++) q p).
  destruct (q ++ p) as [|x q']; simpl; by rewrite IH.
Qed.

(** ** Grafana: at most five duplicates in a time window *)
Definition in_window (E : Z) (key : list string) (o : Z * list string * bool) : Prop :=
  o.1.1 = E ∧ o.1.2 = key.
Definition passed_in (E : Z) (key : list string) (o : Z * list string * bool) : Prop :=
  in_window E key o ∧ o.2 = true.
#[global] Instance in_window_dec E key o : Decision (in_window E key o).
Proof. unfold in_window. apply _. Defined.
#[global] Instance passed_in_dec E key o : Decision (passed_in E key o).
Proof. unfold passed_in. apply _. Defined.

Definition count {A} (P : A → Prop) `{∀ x, Decision (P x)} (l : list A) : nat := length (filter P l).

Lemma count_cons {A} (P : A → Prop) `{∀ x, Decision (P x)} x l :
  count P (x :: l) = ((if decide (P x) then 1 else 0) + count P l)%nat.
Proof. unfold count. rewrite filter_cons. by case_decide. Qed.

Lemma count_none {A} (P : A → Prop) `{∀ x, Decision (P x)} l : (∀ x, x ∈ l → ¬ P x) → count P l = 0%nat.
Proof.
  intros Hl. induction l as [|x l IH]; [done|]. rewrite count_cons, decide_False by set_solver.
  rewrite IH; [done|set_solver].
Qed.

(** Within the window the counter of the key goes up; after it, a new window starts. *)
Lemma grafana_aggregate_cases now key g :
  now ≤ time_window_end g ∧
    grafana_aggregate now key g =
      (let n := S (default 0%nat (dict_get key (time_window_counters g))) in
       (GrafanaState (dict_set key n (time_window_counters g)) (time_window_end g),
        (n <=? GRAFANA_MAX_DUPLICATES)%nat)) ∨
  ∃ end', time_window_end g < now ≤ end' ∧ end' - GRAFANA_TIME_WINDOW ≤ now ∧
    grafana_aggregate now key g = (GrafanaState [(key, 1%nat)] end', true).
Proof.
  unfold grafana_aggregate, GRAFANA_TIME_WINDOW.
  destruct (Z.ltb_spec 0 (now - time_window_end g)) as [Hd|Hd]; [right|left; split; [lia|done]].
  exists (time_window_end g + ((now - time_window_end g) / 90 + 1) * 90). split; [|split; [|reflexivity]].
  all: pose proof (Z.div_mod (now - time_window_end g) 90);
    pose proof (Z.mod_pos_bound (now - time_window_end g) 90); lia.
Qed.

Lemma grafana_run_after inputs g o : o ∈ grafana_run inputs g → time_window_end g ≤ o.1.1.
Proof.
  revert g. induction inputs as [|[now key] inputs IH]; intros g; cbn [grafana_run]; [set_solver|].
  destruct (grafana_aggregate_cases now key g) as [[Hw ->]|(E & Hw & _ & ->)];
    intros [->|Ho]%elem_of_cons; simpl; try lia; specialize (IH _ Ho); simpl in IH; lia.
Qed.

(** How many of a key's annotations in a window were counted before [g]. *)
Definition counted (g : grafana_state) (E : Z) (key : list string) : nat :=
  if decide (E = time_window_end g) then default 0%nat (dict_get key (time_window_counters g)) else 0%nat.

Lemma grafana_run_counts inputs g E key :
  count (passed_in E key) (grafana_run inputs g) =
  Nat.min (GRAFANA_MAX_DUPLICATES - counted g E key) (count (in_window E key) (grafana_run inputs g)).
Proof.
  revert g. induction inputs as [|[now k] inputs IH]; intros g; cbn [grafana_run]; [unfold count; simpl; lia|].
  destruct (grafana_aggregate_cases now k g) as [[Hw ->]|(E' & Hw & _ & ->)]; simpl.
  - rewrite !count_cons, IH. unfold counted, passed_in, in_window. simpl. rewrite dict_get_set.
    destruct (decide (E = time_window_end g)) as [->|HE].
    + destruct (decide (key = k)) as [->|Hk]; simpl.
      * rewrite (decide_True (P := _ = _ ∧ _ = _)) by done.
        set (n := default 0%nat (dict_get k _)). unfold GRAFANA_MAX_DUPLICATES.
        case_decide as Hp.
        -- destruct Hp as [_ Hp]. apply Nat.leb_le in Hp. lia.
        -- destruct (Nat.leb_spec (S n) 5) as [Hle|Hle]; [|lia].
           destruct Hp. split; [done|]. apply Nat.leb_le. lia.
      * rewrite !decide_False by naive_solver. done.
    + rewrite !decide_False by naive_solver. done.
  - pose proof (grafana_run_after inputs (GrafanaState [(k, 1%nat)] E')) as Hafter. simpl in Hafter.
    rewrite !count_cons, IH. unfold counted, passed_in, in_window. simpl.
    destruct (decide (E = E')) as [->|HE].
    + rewrite (decide_False (P := E' = time_window_end g)) by lia.
      destruct (decide (key = k)) as [->|Hk]; simpl; [rewrite !decide_True by done; unfold GRAFANA_MAX_DUPLICATES; simpl; lia|].
      rewrite !decide_False by naive_solver. simpl. lia.
    + rewrite !(decide_False (P := _ ∧ _)) by naive_solver.
      destruct (decide (E = time_window_end g)) as [->|]; [|lia].
      change (λ o : Z * list string * bool, o.1.1 = time_window_end g ∧ o.1.2 = key)
        with (in_window (time_window_end g) key).
      rewrite (count_none (in_window (time_window_end g) key)); [lia|].
      intros o Ho [Hw1 _]. specialize (Hafter o Ho). lia.
Qed.

Lemma grafana_run_windows inputs g :
  Sorted Z.le inputs.*1 →
  (∀ i, i ∈ inputs → time_window_end g - GRAFANA_TIME_WINDOW ≤ i.1) →
  Forall2 (λ i o, o.1.1 - GRAFANA_TIME_WINDOW ≤ i.1 ≤ o.1.1) inputs (grafana_run inputs g).
Proof.
  revert g. induction inputs as [|[now k] inputs IH]; intros g Hs Hlb; cbn [grafana_run]; [constructor|].
  assert (∀ i, i ∈ inputs → now ≤ i.1) as Hnow.
  { apply (Sorted_StronglySorted) in Hs; [|intros ???; lia]. apply StronglySorted_inv in Hs as [_ Hf].
    intros i Hi. rewrite Forall_forall in Hf. apply Hf, list_elem_of_fmap. eauto. }
  apply Sorted_inv in Hs as [Hs _].
  destruct (grafana_aggregate_cases now k g) as [[Hw ->]|(E' & Hw & Hlo & ->)]; constructor; simpl.
  - split; [|done]. apply (Hlb (now, k)). set_solver.
  - apply IH; [done|]. simpl. intros i Hi. apply Hlb. set_solver.
  - lia.
  - apply IH; [done|]. simpl. intros i Hi. specialize (Hnow i Hi). lia.
Qed.

(** The Grafana aggregator passes on the first five annotations of each kind
    in a time window and drops the rest: for every window and every set of tags,
    the number passed on is the number received, cut at five, and every annotation
    falls into a window of ninety seconds that contains its time. *)
Theorem grafana_five_per_window inputs start E key :
  Sorted Z.le inputs.*1 →
  (∀ i, i ∈ inputs → start ≤ i.1) →
  let out := grafana_run inputs (GrafanaState [] start) in
  count (passed_in E key) out = Nat.min 5 (count (in_window E key) out) ∧
  Forall2 (λ i o, o.1.2 = i.2 ∧ o.1.1 - 90 ≤ i.1 ≤ o.1.1) inputs out.
Proof.
  intros Hs Hst out. split.
  - unfold out. rewrite grafana_run_counts. unfold counted. simpl. by case_decide.
  - assert (Forall2 (λ i o, o.1.1 - GRAFANA_TIME_WINDOW ≤ i.1 ≤ o.1.1) inputs out) as Hw.
    { apply grafana_run_windows; [done|]. intros i Hi. specialize (Hst i Hi). simpl. unfold GRAFANA_TIME_WINDOW. lia. }
    assert (Forall2 (λ i o, o.1.2 = i.2) inputs out) as Hk.
    { unfold out. generalize (GrafanaState [] start). clear. induction inputs as [|[now k] inputs IH]; intros g; cbn [grafana_run]; [constructor|].
      destruct (grafana_aggregate now k g) as [g' b]. constructor; auto. }
    clear -Hw Hk. induction Hw; inversion Hk; simplify_eq; constructor; auto.
Qed.

(** ** Argus: one event of a kind in ninety seconds *)

(** The clock reads of the rounds, in order. *)
Fixpoint clock_from (t : Z) (inputs : list (Z * Z * argus_event)) : Prop :=
  match inputs with
  | [] => True
  | (check, set_, _) :: inputs' => t ≤ check ∧ check ≤ set_ ∧ clock_from set_ inputs'
  end.

Lemma argus_run_spaced inputs counters t key last :
  clock_from t inputs → dict_get key counters = Some last →
  ∀ o, o ∈ argus_run inputs counters → o.2 = key → ARGUS_TIME_WINDOW < o.1.1 - last.
Proof.
  unfold ARGUS_TIME_WINDOW.
  revert counters t last. induction inputs as [|[[check set_] k] inputs IH]; intros counters t last Hc Hl o; simpl;
    [set_solver|]. destruct Hc as (Htc & Hcs & Hc). unfold argus_aggregate, ARGUS_TIME_WINDOW.
  destruct (Z.ltb_spec 90 (check - default 0 (dict_get k counters))) as [Hp|Hp]; simpl.
  - intros [->|Ho]%elem_of_cons Hk; simpl in *.
    + subst. rewrite Hl in Hp. simpl in Hp. lia.
    + destruct (decide (k = key)) as [->|Hne].
      * assert (90 < o.1.1 - set_) as Hgt.
        { eapply (IH _ set_ set_ Hc); [|done|done]. rewrite dict_get_set. by rewrite decide_True. }
        rewrite Hl in Hp. simpl in Hp. lia.
      * eapply (IH _ set_ last Hc); [|done|done]. rewrite dict_get_set. by rewrite decide_False.
  - intros Ho Hk. by eapply (IH _ set_ last Hc).
Qed.

(** The Argus aggregator does not flood: of events with the same run,
    severity, type and id, one that is passed on comes more than ninety seconds
    after every earlier one that was. *)
Theorem argus_events_spaced inputs t :
  clock_from t inputs →
  ∀ i j a b, (i < j)%nat →
    argus_run inputs [] !! i = Some a → argus_run inputs [] !! j = Some b → a.2 = b.2 →
    ARGUS_TIME_WINDOW < b.1.1 - a.1.2.
Proof.
  generalize (@nil (argus_event * Z)) as counters. revert t.
  induction inputs as [|[[check set_] k] inputs IH]; intros t counters Hc i j a b Hij Ha Hb Hab; [done|].
  destruct Hc as (_ & Hcs & Hc). simpl in *.
  destruct (argus_aggregate check set_ k counters) as [c' p] eqn:E. destruct p; simpl in *; [|by eapply IH].
  destruct i as [|i]; simpl in Ha.
  - simplify_eq. destruct j as [|j]; [lia|]. simpl in Hb.
    eapply (argus_run_spaced inputs c' set_ b.2 set_ Hc); [|by eapply list_elem_of_lookup_2|done].
    unfold argus_aggregate in E. case_match; simplify_eq/=. rewrite dict_get_set. by rewrite decide_True.
  - destruct j as [|j]; [lia|]. eapply (IH set_ c' Hc i j); [lia|done..].
Qed.

(** An event that was never seen is not always passed on: as long as the
    performance counter reads ninety seconds or less, the first event of a kind is
    dropped, because its last time is taken to be zero. *)
Theorem argus_drops_first_event check set_ key :
  check ≤ ARGUS_TIME_WINDOW → argus_run [(check, set_, key)] [] = [].
Proof.
  intros Hc. simpl. unfold argus_aggregate. simpl.
  assert (ARGUS_TIME_WINDOW <? check - 0 = false) as -> by (apply Z.ltb_ge; lia). done.
Qed.

(** ** The counters are exact *)
Definition REACTOR_STALLED : string := "DatabaseLogEvent.REACTOR_STALLED".

Definition stall_interval (e : event) : Z :=
  _get_interval (default 0 (search_reactor_ms (default EmptyString (line e)))).

Definition class_stat (d : event_stat_data) (cls : string) : stat :=
  default (Stat 0 []) (default None (dict_get cls (stats d))).

(** An update that succeeds. *)
Definition updated (d : event_stat_data) (e : event) : event_stat_data :=
  default d (update_counter true e d).1.

(** A round in which every file could be written and the event has a line. *)
Definition round_ok (p : (string → bool) * event) : Prop := (∀ i, p.1 i = true) ∧ is_Some (line p.2).

Lemma dict_get_map {V} (f : V → V) i (d : list (string * V)) :
  dict_get i ((λ p, (p.1, f p.2)) <$> d) = f <$> dict_get i d.
Proof. induction d as [|[j v] d IH]; simpl; [done|]. by case_decide. Qed.

Lemma update_counter_ok e d :
  is_Some (line e) → update_counter true e d = (Some (updated d e), (update_counter true e d).2).
Proof.
  intros [l Hl]. unfold updated, update_counter. case_bool_decide; [|done].
  unfold handler_update, reactor_update_stat. rewrite Hl. by destruct (String.eqb _ _).
Qed.

Lemma update_counters_ok ok e reg :
  round_ok (ok, e) → update_counters ok e reg = (λ p, (p.1, updated p.2 e)) <$> reg.
Proof.
  intros [Hok Hl]. induction reg as [|[i d] reg IH]; simpl; [done|].
  simpl in Hok. rewrite Hok, update_counter_ok by done. by rewrite IH.
Qed.

Lemma counters_run_ok inputs reg i :
  Forall round_ok inputs →
  get_counter i (counters_run inputs reg) = (λ d, foldl updated d inputs.*2) <$> get_counter i reg.
Proof.
  unfold get_counter, counters_run. intros Hin. revert reg.
  induction Hin as [|[ok e] inputs Hi _ IH]; intros reg; simpl; [by destruct (dict_get i reg)|].
  rewrite IH, update_counters_ok by done. rewrite (dict_get_map (λ d, updated d e)). by destruct (dict_get i reg).
Qed.

Lemma updated_types d e : event_types (updated d e) = event_types d.
Proof. unfold updated, update_counter. by repeat case_match. Qed.

Lemma updated_class_stat d e cls :
  cls ∈ event_types d → is_Some (line e) →
  class_stat (updated d e) cls =
  if decide (ev_class e = cls) then
    Stat (S (counter (class_stat d cls)))
      (if decide (cls = REACTOR_STALLED)
       then dict_set (stall_interval e)
              (S (default 0%nat (dict_get (stall_interval e) (ms (class_stat d cls))))) (ms (class_stat d cls))
       else ms (class_stat d cls))
  else class_stat d cls.
Proof.
  intros Hc [l Hl]. unfold updated, update_counter, handler_update, reactor_update_stat, stall_interval. rewrite Hl.
  destruct (decide (ev_class e = cls)) as [<-|Hne].
  - rewrite bool_decide_true by done. unfold REACTOR_STALLED.
    destruct (String.eqb_spec (ev_class e) "DatabaseLogEvent.REACTOR_STALLED") as [He|He]; simpl.
    + rewrite decide_True by done. unfold class_stat. simpl. rewrite dict_get_set, decide_True by done. done.
    + rewrite decide_False by done. unfold class_stat. simpl. rewrite dict_get_set, decide_True by done. simpl.
      by destruct (default None _).
  - case_bool_decide; [|done]. unfold class_stat.
    destruct (String.eqb _ _); simpl; by rewrite dict_get_set, decide_False by done.
Qed.

(** The stall statistics of a list of events, as they should be. *)
Definition stat_of (cls : string) (es : list event) (st : stat) : Prop :=
  counter st = count (λ e, ev_class e = cls) es ∧
  (cls = REACTOR_STALLED →
   ∀ b, default 0%nat (dict_get b (ms st)) = count (λ e, ev_class e = cls ∧ stall_interval e = b) es).

Lemma count_app {A} (P : A → Prop) `{∀ x, Decision (P x)} l k :
  count P (l ++ k) = (count P l + count P k)%nat.
Proof. unfold count. by rewrite filter_app, length_app. Qed.

Lemma stat_of_snoc cls es e d :
  cls ∈ event_types d → is_Some (line e) →
  stat_of cls es (class_stat d cls) → stat_of cls (es ++ [e]) (class_stat (updated d e) cls).
Proof.
  intros Hc Hl [Hn Hb]. rewrite updated_class_stat by done. unfold stat_of. rewrite count_app, count_cons.
  case_decide as He; simpl; change (count (λ e0, ev_class e0 = cls) []) with 0%nat.
  - split; [lia|]. intros Hr b. rewrite (decide_True (P := cls = _)) by done.
    rewrite dict_get_set, count_app, count_cons. change (count _ []) with 0%nat.
    specialize (Hb Hr). case_decide as Hi; simpl.
    + subst b. rewrite decide_True by done. rewrite Hb. lia.
    + rewrite (decide_False (P := _ ∧ _)) by naive_solver. rewrite Hb. lia.
  - split; [lia|]. intros Hr b. rewrite count_app, count_cons, decide_False by naive_solver.
    change (count _ []) with 0%nat. rewrite (Hb Hr). lia.
Qed.

(** Counters count: for a counter that was registered and a class it
    watches, after any stream of events in which files could be written, the
    statistics are the number of events of the class since the registration and,
    for reactor stalls, the exact histogram of their stall intervals. *)
Theorem event_counters_exact inputs reg i types cls :
  Forall round_ok inputs →
  get_counter i reg = Some (EventStatData types []) →
  cls ∈ types →
  ∃ d, get_counter i (counters_run inputs reg) = Some d ∧ stat_of cls inputs.*2 (class_stat d cls).
Proof.
  intros Hin Hreg Hcls. rewrite counters_run_ok, Hreg by done. eexists. split; [reflexivity|].
  assert (Forall (λ e, is_Some (line e)) inputs.*2) as Hl.
  { apply Forall_fmap. eapply Forall_impl; [exact Hin|]. by intros p [_ ?]. }
  revert Hl. generalize (inputs.*2) as es. intros es Hl.
  enough (event_types (foldl updated (EventStatData types []) es) = types ∧
          stat_of cls es (class_stat (foldl updated (EventStatData types []) es) cls)) by tauto.
  induction es as [|e es IH] using rev_ind; [by repeat split|].
  apply Forall_app in Hl as [Hl [He _]%Forall_cons]. destruct (IH Hl) as [Ht Hst].
  rewrite foldl_snoc. split; [by rewrite updated_types|]. apply stat_of_snoc; [by rewrite Ht|done..].
Qed.

(** *** Witnesses *)
Definition ex_log_event (cls typ l : string) : event :=
  Event cls "DatabaseLogEvent" (Some typ) None CRITICAL (Some 1) None "i" true (Some []) false true (Some l) 1 (Some "n").

Lemma handler_runs_without_tester_witness :
  let '(r0, h0) := events_handler_step 5000 5001 false
    ("CassandraStressLogEvent", ex_log_event "CassandraStressLogEvent.SchemaDisagreement" "SchemaDisagreement" "x")
    (HandlerState 0 0) in
  r0 = Some HandlerRaised ∧
  events_handler_step 6000 6001 true
    ("CassandraStressLogEvent", ex_log_event "CassandraStressLogEvent.SchemaDisagreement" "SchemaDisagreement" "x") h0
  = (Some HandlerSkipped, h0) ∧ collected h0 = 0%nat.
Proof.
  apply (handler_runs_without_tester 5000 5001 6000 6001
    (ex_log_event "CassandraStressLogEvent.SchemaDisagreement" "SchemaDisagreement" "x") (HandlerState 0 0)).
  - reflexivity.
  - simpl. lia.
  - lia.
Defined.

Lemma grafana_five_per_window_witness :
  let out := grafana_run [(1, ["a"]); (2, ["a"]); (200, ["a"])] (GrafanaState [] 1) in
  count (passed_in 1 ["a"]) out = Nat.min 5 (count (in_window 1 ["a"]) out) ∧
  Forall2 (λ i o, o.1.2 = i.2 ∧ o.1.1 - 90 ≤ i.1 ≤ o.1.1) [(1, ["a"]); (2, ["a"]); (200, ["a"])] out.
Proof.
  apply (grafana_five_per_window [(1, ["a"]); (2, ["a"]); (200, ["a"])] 1 1 ["a"]).
  - repeat constructor; simpl; lia.
  - intros i Hi. repeat (apply elem_of_cons in Hi as [->|Hi]; [simpl; lia|]). by apply not_elem_of_nil in Hi.
Defined.

Definition ex_argus : argus_event := ArgusEvent None "ERROR" "InfoEvent" "i".

Lemma argus_events_spaced_witness : ARGUS_TIME_WINDOW < 300 - 100.
Proof.
  apply (argus_events_spaced [(100, 100, ex_argus); (150, 150, ex_argus); (300, 300, ex_argus)] 0)
    with (i := 0%nat) (j := 1%nat) (a := (100, 100, ex_argus)) (b := (300, 300, ex_argus)).
  - simpl. lia.
  - lia.
  - vm_compute. reflexivity.
  - vm_compute. reflexivity.
  - reflexivity.
Defined.

Lemma argus_drops_first_event_witness : argus_run [(90, 90, ex_argus)] [] = [].
Proof. apply (argus_drops_first_event 90 90 ex_argus). unfold ARGUS_TIME_WINDOW. lia. Defined.

Lemma event_counters_exact_witness :
  ∃ d, get_counter "c" (counters_run
         [((λ _, true), ex_log_event REACTOR_STALLED "REACTOR_STALLED" "Reactor stalled for 25 ms on shard 0")]
         [("c", EventStatData [REACTOR_STALLED] [])]) = Some d ∧
       stat_of REACTOR_STALLED [ex_log_event REACTOR_STALLED "REACTOR_STALLED" "Reactor stalled for 25 ms on shard 0"]
         (class_stat d REACTOR_STALLED).
Proof.
  apply (event_counters_exact
    [((λ _, true), ex_log_event REACTOR_STALLED "REACTOR_STALLED" "Reactor stalled for 25 ms on shard 0")]
    [("c", EventStatData [REACTOR_STALLED] [])] "c" [REACTOR_STALLED] REACTOR_STALLED).
  - repeat constructor. eauto.
  - reflexivity.
  - set_solver.
Defined.

Example stall_interval_ex :
  stall_interval (ex_log_event REACTOR_STALLED "x" "Reactor stalled for 25 ms on shard 0") = 30.
Proof. reflexivity. Qed.
End Consumers.
