(* ===== verification/EventFiles.v ===== *)
(** * The files of events

    Model of [sdcm/sct_events/file_logger.py]: the consumer that writes every event to the log of all
    events and to the one of its severity and keeps a summary, and the reader that groups the
    logs into events again for the report of a test.

    An event is what the logger looks at: its severity, its text, whether it is saved, and whether
    its log level is one the logging module has a method for: of an event to be printed whose level
    is not, looking the method up raises before anything is written. Which writes fail is an
    argument; a failure, of which the model is that the file cannot be opened, is logged only, and
    so is that of printing. *)
From Stdlib Require Import Ascii String ZArith Lia.
From stdpp Require Import base decidable option strings numbers list.
From S2P Require Import Prelude.
From S2P Require Import PyString.
From S2P Require Import PyDict.
From S2P Require Import Events.
Local Open Scope py_scope.

Module EventFiles.
Import Events.

(** ** Writing *)
Record logged := Logged { severity : Severity; message : string; save_to_files : bool; log_level_known : bool }.

(** [getattr(LOGGER, logging.getLevelName(event.log_level).lower())] *)
Inductive wexn : Type := AttributeError.
Definition look_up_tee (event : logged) : outcome wexn unit :=
  if bool_decide (severity event ∉ [DEBUG; WARNING]) && negb (log_level_known event) then Err AttributeError else Ok tt.

Definition newline : ascii := "010".
Definition nl : string := String newline EmptyString.

(** The files: [events.log], the log of each severity, and the counts of [summary.log]. *)
Record files := Files { events_log : string; by_severity : list (Severity * string); summary_log : list (string * nat) }.
Record logger := Logger { disk : files; events_summary : list (string * nat) }.

Definition severities_logged : list Severity := [CRITICAL; ERROR; WARNING; NORMAL; DEBUG].
Definition start : logger := Logger (Files EmptyString ((λ s, (s, EmptyString)) <$> severities_logged) []) [].

(** Which of the three writes of an event succeed. *)
Record writes := Writes { to_events_log : bool; to_severity_log : bool; to_summary : bool }.

Definition count_one (name : string) (d : list (string * nat)) : list (string * nat) :=
  dict_set name (S (default 0 (dict_get name d))) d.

Definition write_event (l : logger) (ew : logged * writes) : outcome wexn logger :=
  let '(event, ok) := ew in
  let '(Logger (Files log bys summary) counts) := l in
  let message_bin := message event +:+ nl in
  try! _ := look_up_tee event in
  let log := if save_to_files event && to_events_log ok then log +:+ message_bin else log in
  let bys := if save_to_files event && to_severity_log ok
             then match dict_get (severity event) bys with
                  | Some content => dict_set (severity event) (content +:+ message_bin) bys
                  | None => bys
                  end
             else bys in
  let counts := count_one (severity_name (severity event)) counts in
  Ok (Logger (Files log bys (if to_summary ok then counts else summary)) counts).

(** What an event raises is suppressed. *)
Definition process (l : logger) (ew : logged * writes) : logger :=
  match write_event l ew with Ok l' => l' | Err _ => l end.
Definition run (events : list (logged * writes)) : logger := foldl process start events.

(** ** Reading *)

(** [^\d{4}-\d{2}-\d{2} ] *)
Fixpoint shaped (shape s : string) : bool :=
  match shape, s with
  | EmptyString, _ => true
  | String p shape', String c s' => (if Ascii.eqb p "d" then is_digit c else Ascii.eqb p c) && shaped shape' s'
  | _, EmptyString => false
  end.
Definition LINE_START_RE (line : string) : bool := shaped "dddd-dd-dd " line.

(** Lines of a text file; that a carriage return ends one too only adds blank lines. *)
Definition lines_of (content : string) : list string :=
  split_on newline (map_chars (λ c, if Ascii.eqb c "013" then newline else c) content).

(** [head] and [collections.deque] with a maximal length. *)
Definition append_head (limit : option nat) (bucket : list string) (item : string) : list string :=
  match limit with
  | None => bucket ++ [item]
  | Some n => if (List.length bucket <? n)%nat then bucket ++ [item] else bucket
  end.
Definition append_tail (limit : option nat) (bucket : list string) (item : string) : list string :=
  match limit with
  | None => bucket ++ [item]
  | Some n => drop (S (List.length bucket) - n) (bucket ++ [item])
  end.

Section Group.
Context (append : list string → string → list string).
Definition flush (event bucket : list string) : list string :=
  match event with [] => bucket | _ => append bucket (join nl event) end.
Fixpoint group (lines event bucket : list string) : list string * list string :=
  match lines with
  | [] => (event, bucket)
  | line :: lines' =>
    let line := rstrip line in
    if negb (truthy line) then group lines' event bucket
    else if LINE_START_RE line then group lines' [line] (flush event bucket)
    else group lines' (event ++ [line]) bucket
  end.
End Group.

(** Reading a file: its lines, or the lines up to an exception with the message for it. *)
Definition read_log (append : list string → string → list string) (file : list string * option string) : list string :=
  let '(lines, failed) := file in
  let '(event, bucket) := group append lines [] [] in
  match failed with
  | None => flush append event bucket
  | Some error_msg => match bucket with [] => append bucket error_msg | _ => bucket end
  end.
Definition get_events_by_category (limit : option nat) (open : Severity → list string * option string) : list (string * list string) :=
  (λ s, (severity_name s, read_log (if decide (s = CRITICAL) then append_head limit else append_tail limit) (open s)))
    <$> severities_logged.

(** The files as the logger left them. *)
Definition open_files (l : logger) (s : Severity) : list string * option string :=
  (lines_of (default EmptyString (dict_get s (by_severity (disk l)))), None).

(** ** Reading gives back what was written *)

(** A line that is read as it is written. *)
Definition proper_line (l : string) : Prop :=
  l ≠ EmptyString ∧ rstrip l = l ∧ all_chars (λ c, negb (Ascii.eqb c newline)) l = true ∧ all_chars (λ c, negb (Ascii.eqb c "013")) l = true.
(** The lines of an event: the first starts with a date, and no other does. *)
Definition entry (m : string) (lines : list string) : Prop :=
  ∃ first rest, lines = first :: rest ∧ m = join nl lines ∧ LINE_START_RE first = true ∧
    Forall (λ l, LINE_START_RE l = false) rest ∧ Forall proper_line lines.

Lemma map_cr_none s : all_chars (λ c, negb (Ascii.eqb c "013")) s = true → map_chars (λ c, if Ascii.eqb c "013" then newline else c) s = s.
Proof.
  induction s as [|c s IH]; [done|]. cbn [all_chars map_chars]. intros [Hc%negb_true_iff Hs]%andb_true_iff. by rewrite Hc, IH.
Qed.
Lemma join_no_cr lines : Forall proper_line lines → all_chars (λ c, negb (Ascii.eqb c "013")) (join nl lines) = true.
Proof.
  induction 1 as [|l lines (Hl & _ & _ & Hcr) H IH]; [done|]. destruct lines as [|l' lines]; [done|].
  rewrite join_cons by done. rewrite !all_chars_app, Hcr, IH. done.
Qed.

(** The content of a log of messages, and its lines. *)
Definition content_of (ms : list string) : string := foldr (λ m s, m +:+ nl +:+ s) EmptyString ms.

Lemma lines_of_entry m lines s : entry m lines → lines_of (m +:+ nl +:+ s) = lines ++ lines_of s.
Proof.
  intros (first & rest & -> & -> & _ & _ & Hl). unfold lines_of. rewrite !map_chars_app, map_cr_none by (by apply join_no_cr).
  change (map_chars _ nl) with nl. unfold nl at 2.
  match goal with |- split_on _ (?x +:+ String newline EmptyString +:+ ?y) = _ => change (x +:+ String newline EmptyString +:+ y) with (x +:+ String newline y) end.
  rewrite split_on_cat. f_equal. apply split_on_join; [done|]. eapply Forall_impl; [exact Hl|]. by intros l (_ & _ & H & _).
Qed.

Section Append.
Context (append : list string → string → list string).

Lemma group_rest rest more event bucket : Forall (λ l, LINE_START_RE l = false) rest → Forall proper_line rest →
  group append (rest ++ more) event bucket = group append more (event ++ rest) bucket.
Proof.
  revert event. induction rest as [|l rest IH]; intros event; [by rewrite app_nil_r|].
  intros [Hd Hds]%Forall_cons [(Hne & Hr & _) Hps]%Forall_cons. cbn [app group]. rewrite Hr.
  replace (truthy l) with true by (by destruct l). cbn [negb]. rewrite Hd, IH, <-app_assoc by done. done.
Qed.
Lemma group_entry m lines more event bucket : entry m lines →
  group append (lines ++ more) event bucket = group append more lines (flush append event bucket).
Proof.
  intros (first & rest & -> & _ & Hf & Hr & [(Hne & Hrs & _) Hps]%Forall_cons). cbn [app group]. rewrite Hrs.
  replace (truthy first) with true by (by destruct first). cbn [negb]. rewrite Hf. by rewrite group_rest.
Qed.

Lemma group_entries ms ls event bucket : Forall2 entry ms ls →
  let '(event', bucket') := group append (mjoin ls ++ [EmptyString]) event bucket in
  flush append event' bucket' = foldl append (flush append event bucket) ms.
Proof.
  intros H. revert event bucket. induction H as [|m lines ms ls Hm Hms IH]; intros event bucket; [done|].
  change (mjoin (lines :: ls)) with (lines ++ mjoin ls). rewrite <-app_assoc, (group_entry m) by done.
  specialize (IH lines (flush append event bucket)). destruct (group _ _ _ _) as [event' bucket']. rewrite IH. cbn [foldl]. f_equal.
  destruct Hm as (first & rest & -> & -> & _). done.
Qed.

Lemma read_content ms ls : Forall2 entry ms ls → read_log append (lines_of (content_of ms), None) = foldl append [] ms.
Proof.
  intros H. assert (Hl : lines_of (content_of ms) = mjoin ls ++ [EmptyString]).
  { induction H as [|m lines ms ls Hm Hms IH]; [done|]. cbn [content_of foldr]. fold (content_of ms).
    rewrite (lines_of_entry m lines) by done. rewrite IH. change (mjoin (lines :: ls)) with (lines ++ mjoin ls). by rewrite app_assoc. }
  unfold read_log. rewrite Hl. pose proof (group_entries ms ls [] [] H) as Hg. by destruct (group _ _ _ _).
Qed.
End Append.

(** The first messages, or the last. *)
Definition first_ones (limit : option nat) (ms : list string) : list string := match limit with None => ms | Some n => take n ms end.
Definition last_ones (limit : option nat) (ms : list string) : list string :=
  match limit with None => ms | Some n => drop (List.length ms - n) ms end.

Lemma append_head_all limit ms : foldl (append_head limit) [] ms = first_ones limit ms.
Proof.
  destruct limit as [n|]; cbn [first_ones append_head].
  - induction ms as [|m ms IH] using rev_ind; [by rewrite take_nil|]. rewrite foldl_app. cbn [foldl]. rewrite IH. unfold append_head.
    rewrite length_take. destruct (Nat.ltb_spec (Nat.min n (List.length ms)) n).
    + rewrite (take_ge (ms ++ [m])) by (rewrite length_app; simpl; lia). by rewrite take_ge by lia.
    + by rewrite take_app_le by lia.
  - induction ms as [|m ms IH] using rev_ind; [done|]. rewrite foldl_app. cbn [foldl append_head]. by rewrite IH.
Qed.
Lemma append_tail_all limit ms : foldl (append_tail limit) [] ms = last_ones limit ms.
Proof.
  destruct limit as [n|]; cbn [last_ones append_tail].
  - induction ms as [|m ms IH] using rev_ind; [done|]. rewrite foldl_app. cbn [foldl]. rewrite IH. unfold append_tail.
    rewrite length_drop, length_app. cbn [List.length]. destruct (decide (List.length ms < n)%nat) as [Hn|Hn].
    + replace (List.length ms - n)%nat with 0%nat by lia. rewrite drop_0.
      replace (S (List.length ms - 0) - n)%nat with (List.length ms + 1 - n)%nat by lia. done.
    + rewrite <-drop_app_le by lia. rewrite drop_drop. f_equal. lia.
  - induction ms as [|m ms IH] using rev_ind; [done|]. rewrite foldl_app. cbn [foldl append_tail]. by rewrite IH.
Qed.

(** The events that did not raise, and the messages written to the log of a severity. *)
Definition handled (e : logged) : bool := bool_decide (severity e ∈ [DEBUG; WARNING]) || log_level_known e.
Definition written (s : Severity) (ew : logged * writes) : bool :=
  bool_decide (severity ew.1 = s) && handled ew.1 && save_to_files ew.1 && to_severity_log ew.2.
Definition messages (s : Severity) (events : list (logged * writes)) : list string :=
  (λ ew, message ew.1) <$> filter (λ ew, written s ew = true) events.
Definition of_severity (s : Severity) (events : list (logged * writes)) : list (logged * writes) :=
  filter (λ ew, severity ew.1 = s ∧ handled ew.1 = true) events.

(** The events up to the last one after which the summary was written. *)
Fixpoint summarised (events : list (logged * writes)) : list (logged * writes) :=
  match events with
  | [] => []
  | ew :: rest =>
    match summarised rest with
    | [] => if handled ew.1 && to_summary ew.2 then [ew] else []
    | l => ew :: l
    end
  end.

Lemma summarised_snoc events ew :
  summarised (events ++ [ew]) = if handled ew.1 && to_summary ew.2 then events ++ [ew] else summarised events.
Proof.
  induction events as [|e events IH]; [done|]. cbn [app summarised]. rewrite IH.
  destruct (handled ew.1 && to_summary ew.2); [|done]. by destruct events.
Qed.

Lemma write_event_raises l e ok : handled e = false → process l (e, ok) = l.
Proof.
  unfold handled, process, write_event, look_up_tee. intros [Hs%bool_decide_eq_false ->]%orb_false_iff.
  rewrite bool_decide_eq_true_2 by done. by destruct l as [[? ? ?] ?].
Qed.
Lemma look_up_tee_ok e : handled e = true → look_up_tee e = Ok tt.
Proof.
  unfold handled, look_up_tee. intros [H%bool_decide_eq_true| ->]%orb_true_iff; [|by rewrite andb_false_r].
  by rewrite bool_decide_eq_false_2 by auto.
Qed.

Lemma content_of_snoc ms m : content_of (ms ++ [m]) = content_of ms +:+ m +:+ nl.
Proof.
  induction ms as [|m' ms IH]; [cbn; by rewrite str_app_nil|]. change ((m' :: ms) ++ [m]) with (m' :: (ms ++ [m])). cbn [content_of foldr].
  fold (content_of (ms ++ [m])) (content_of ms). rewrite IH. by rewrite !str_app_assoc.
Qed.

Lemma severity_name_inj s s' : severity_name s = severity_name s' → s = s'.
Proof. by destruct s, s'. Qed.

Lemma of_severity_snoc s events e ok :
  List.length (of_severity s (events ++ [(e, ok)])) =
    (List.length (of_severity s events) + if bool_decide (severity e = s) && handled e then 1 else 0)%nat.
Proof.
  unfold of_severity. rewrite filter_app, length_app, filter_cons, filter_nil. cbn [fst].
  case_decide as H; [destruct H as [-> ->]; by rewrite bool_decide_eq_true_2|].
  case_bool_decide; [|done]. destruct (handled e); [by destruct H|done].
Qed.
Lemma count_one_get name d s :
  default 0%nat (dict_get (severity_name s) (count_one (severity_name name) d)) =
    (default 0%nat (dict_get (severity_name s) d) + if bool_decide (name = s) then 1 else 0)%nat.
Proof.
  unfold count_one. rewrite dict_get_set. case_bool_decide as H.
  - subst. rewrite decide_True by done. cbn. lia.
  - rewrite decide_False by (intros E%severity_name_inj; congruence). lia.
Qed.

(** What the files and the counts are after any events. *)
Lemma run_spec events :
  (∀ s, s ∈ severities_logged → dict_get s (by_severity (disk (run events))) = Some (content_of (messages s events))) ∧
  (∀ s, default 0%nat (dict_get (severity_name s) (events_summary (run events))) = List.length (of_severity s events)) ∧
  ∀ s, default 0%nat (dict_get (severity_name s) (summary_log (disk (run events)))) = List.length (of_severity s (summarised events)).
Proof.
  unfold run. induction events as [|[e ok] events (IHf & IHc & IHs)] using rev_ind.
  { split; [|done]. intros s Hs. by destruct s; try (apply (bool_decide_eq_true_2 _) in Hs; vm_compute in Hs; discriminate Hs). }
  rewrite foldl_app. cbn [foldl]. destruct (handled e) eqn:Eh.
  2: { rewrite write_event_raises by done. rewrite summarised_snoc. cbn [fst]. rewrite Eh. cbn [andb]. split; [|split; [|exact IHs]].
    - intros s Hs. unfold messages. rewrite filter_app, filter_cons, filter_nil, decide_False.
      + rewrite app_nil_r. by apply IHf.
      + unfold written. cbn [fst]. by rewrite Eh, andb_false_r.
    - intros s. by rewrite of_severity_snoc, Eh, andb_false_r, Nat.add_0_r. }
  unfold process at 1 3 5, write_event. rewrite (look_up_tee_ok _ Eh).
  destruct (foldl process start events) as [[log bys summary] counts]. cbn [disk by_severity events_summary summary_log obind] in *.
  assert (∀ s, default 0%nat (dict_get (severity_name s) (count_one (severity_name (severity e)) counts)) =
    List.length (of_severity s (events ++ [(e, ok)]))) as Hcount
    by (intros s; rewrite count_one_get, of_severity_snoc, Eh, andb_true_r, IHc; done).
  split; [|split; [exact Hcount|]].
  - intros s Hs. unfold messages. rewrite filter_app, fmap_app, filter_cons, filter_nil.
    destruct (decide (severity e = s)) as [<-|Hne].
    + rewrite (IHf _ Hs). unfold written. cbn [fst snd]. rewrite bool_decide_eq_true_2, Eh by done. cbn [andb].
      destruct (save_to_files e && to_severity_log ok); cbn [fmap list_fmap].
      * rewrite dict_get_set, decide_True by done. rewrite decide_True by done. cbn. by rewrite content_of_snoc.
      * rewrite decide_False by done. cbn. by rewrite app_nil_r, IHf.
    + rewrite decide_False by (unfold written; cbn [fst]; by rewrite bool_decide_eq_false_2). cbn. rewrite app_nil_r.
      destruct (_ && _); [|by apply IHf]. destruct (dict_get (severity e) bys); [|by apply IHf]. rewrite dict_get_set, decide_False by done. by apply IHf.
  - intros s. rewrite summarised_snoc. cbn [fst snd]. rewrite Eh. cbn [andb]. destruct (to_summary ok); [apply Hcount|apply IHs].
Qed.

(** C30. The logs of events, for any events and whichever writes fail. If the messages that were
    written to the logs start with a line with a date and contain no other such line, no blank
    lines, no blanks at the ends of lines and no carriage return, the report of a test lists under each severity exactly
    these messages in their order: the first ones for critical events and the last ones for the
    others, up to the limit. An event is handled unless it is to be printed and its log level has no
    method. The summary counts every handled event of a severity, saved or not, and the file of the
    summary those up to the last one after which it could be written. *)
Theorem events_read_back events limit :
  (∀ s m, s ∈ severities_logged → m ∈ messages s events → ∃ lines, entry m lines) →
  get_events_by_category limit (open_files (run events)) =
    (λ s, (severity_name s, (if decide (s = CRITICAL) then first_ones else last_ones) limit (messages s events))) <$> severities_logged ∧
  (∀ s, default 0%nat (dict_get (severity_name s) (events_summary (run events))) = List.length (of_severity s events)) ∧
  (∀ s, default 0%nat (dict_get (severity_name s) (summary_log (disk (run events)))) = List.length (of_severity s (summarised events))).
Proof.
  intros Hm. destruct (run_spec events) as [Hf Hc]. split; [|exact Hc]. unfold get_events_by_category. apply list_fmap_ext.
  intros i s Hs%list_elem_of_lookup_2. f_equal. unfold open_files. rewrite (Hf s Hs). cbn [default].
  assert (Hls : ∃ ls, Forall2 entry (messages s events) ls).
  { specialize (λ m, Hm s m Hs). revert Hm. generalize (messages s events). clear. intros ms Hm. induction ms as [|m ms IH]; [by exists []|].
    destruct IH as [ls Hls]; [intros m' Hm'; apply Hm; by right|]. destruct (Hm m) as [l Hl]; [left|]. exists (l :: ls). by constructor. }
  destruct Hls as [ls Hls]. rewrite (read_content _ _ ls Hls).
  destruct (decide (s = CRITICAL)); [apply append_head_all|apply append_tail_all].
Qed.

Definition all_written : writes := Writes true true true.
Definition sample_events : list (logged * writes) :=
  [(Logged ERROR ("2025-03-01 08:00:00 first" +:+ nl +:+ "  with more") true true, all_written);
   (Logged NORMAL "2025-03-01 08:00:01 fine" true true, all_written); (Logged ERROR "2025-03-01 08:00:02 second" true true, all_written);
   (Logged ERROR "2025-03-01 08:00:03 unsaved" false true, Writes true true false);
   (Logged ERROR "2025-03-01 08:00:04 unknown level" true false, all_written)].

Lemma events_read_back_witness :
  get_events_by_category (Some 1%nat) (open_files (run sample_events)) =
    [("CRITICAL", []); ("ERROR", ["2025-03-01 08:00:02 second"]); ("WARNING", []); ("NORMAL", ["2025-03-01 08:00:01 fine"]); ("DEBUG", [])]%string ∧
  dict_get "ERROR"%string (events_summary (run sample_events)) = Some 3%nat ∧
  dict_get "ERROR"%string (summary_log (disk (run sample_events))) = Some 2%nat.
Proof.
  destruct (events_read_back sample_events (Some 1%nat)) as [H _]; [|split; [rewrite H|split]; vm_compute; reflexivity].
  assert (Hline : ∀ l, (negb (String.eqb l EmptyString) && String.eqb (rstrip l) l && all_chars (λ c, negb (Ascii.eqb c newline)) l &&
    all_chars (λ c, negb (Ascii.eqb c "013")) l) = true → proper_line l).
  { intros l. rewrite !andb_true_iff, negb_true_iff, String.eqb_neq, String.eqb_eq. intros [[[? ?] ?] ?]. done. }
  assert (Hone : ∀ m, LINE_START_RE m = true → proper_line m → ∃ lines, entry m lines).
  { intros m Hd Hp. exists [m], m, []. split; [done|]. split; [done|]. split; [done|]. split; [constructor|by constructor]. }
  intros s m Hs Hm.
  destruct s; try (vm_compute in Hm; by apply not_elem_of_nil in Hm).
  - change (messages NORMAL sample_events) with ["2025-03-01 08:00:01 fine"%string] in Hm. apply list_elem_of_singleton in Hm as ->.
    apply Hone; [vm_compute; reflexivity|apply Hline; vm_compute; reflexivity].
  - change (messages ERROR sample_events) with [("2025-03-01 08:00:00 first" +:+ nl +:+ "  with more"); "2025-03-01 08:00:02 second"]%string in Hm.
    apply elem_of_cons in Hm as [->| ->%list_elem_of_singleton].
    + exists ["2025-03-01 08:00:00 first"; "  with more"]%string, "2025-03-01 08:00:00 first"%string, ["  with more"]%string.
      split; [done|]. split; [done|]. split; [done|]. split; [by constructor|]. repeat constructor; apply Hline; vm_compute; reflexivity.
    + apply Hone; [vm_compute; reflexivity|apply Hline; vm_compute; reflexivity].
Defined.

(** An event whose text has a line that starts with a date is read as two. *)
Example dated_line_splits_event :
  read_log (append_tail None) (lines_of (content_of ["2025-03-01 08:00:00 Database error:" +:+ nl +:+ "2025-03-01 07:59:59 bad thing"]), None) =
    ["2025-03-01 08:00:00 Database error:"; "2025-03-01 07:59:59 bad thing"]%string.
Proof. vm_compute. reflexivity. Qed.
End EventFiles.
