(* ===== verification/HealthChecks.v ===== *)
(** * Health checks of a node

    Model of [sdcm/utils/health_checker.py], of [RaftFeature] and [NoRaft] in
    [sdcm/utils/raft/__init__.py], and of [node_health_events], [check_node_health] and
    [get_gossip_info] of [sdcm/cluster.py]: what a node tells about its cluster in four ways is
    compared, and the differences are published as events.

    What a node answers is an argument. Nodes are identities, and of an event there is its class,
    its severity and what it is about. The order of Python's sets is the order of the
    dictionaries they are made from. *)
From Stdlib Require Import Ascii String ZArith Lia.
From stdpp Require Import base decidable option strings numbers sets list.
From S2P Require Import Prelude.
From S2P Require Import PyString.
From S2P Require Import PyDict.
From S2P Require Import Events.
Local Open Scope py_scope.

Module HealthChecks.
Import Events.

(** ** What a node tells *)
Abbreviation node := nat.

Record gossip := Gossip { schema : string; status : string; dc : string }.

(** A value of a row: a driver gives [None] for a null. *)
Inductive cell : Type := Null | Text (s : string).
#[export] Instance cell_eq_dec : EqDecision cell.
Proof. solve_decision. Defined.
Definition str_cell (c : cell) : string := match c with Null => "None" | Text s => s end.

(** A row of [system.peers]: its schema version, and the other columns. *)
Record peer := Peer { schema_version : cell; columns : list cell }.
Definition values (p : peer) : list cell := schema_version p :: columns p.

Definition GOSSIP_STATUSES_FILTER_OUT : list string := ["LEFT"; "removed"; "BOOT"; "shutdown"]%string.
Definition filtered_out (s : string) : bool := existsb (String.eqb s) GOSSIP_STATUSES_FILTER_OUT.
Definition is_UN (s : string) : bool := String.eqb s "UN".
Definition is_NORMAL (s : string) : bool := String.eqb s "NORMAL".

(** ** Events *)
Inductive event_type : Type := NodeStatus | NodePeersNulls | NodeSchemaVersion | Group0TokenRingInconsistency.
Inductive problem : Type :=
  | NotUp (n : node) (s : string)
  | NotInStatus (n : node) | WrongStatus (n : node) (in_status in_gossip : string) | NotInGossip (n : node)
  | NotInPeers (n : node) | WrongSchema (n : node) (in_peers in_gossip : string) | PeersNotInGossip (l : list node)
  | GossipSchemas | PeersSchemas
  | NullsInPeers (n : node)
  | RingNulls (filtered_count : nat) | Inconsistent (host_id : string) | CheckFailed.
Record event := Event { type : event_type; severity : Severity; about : problem }.

(** ** The checks *)
Abbreviation statuses := (list (node * string)).
Abbreviation gossip_info := (list (node * gossip)).
Abbreviation peers_details := (list (node * peer)).

Definition check_nodes_status (nodes_status : statuses) : list event :=
  nodes_status ≫= λ '(n, s), if is_UN s then [] else [Event NodeStatus CRITICAL (NotUp n s)].

Definition compare_status (nodes_status : statuses) (ng : node * gossip) : list event :=
  let '(n, g) := ng in
  match dict_get n nodes_status with
  | None => if filtered_out (status g) then [] else [Event NodeStatus ERROR (NotInStatus n)]
  | Some s =>
    if (is_NORMAL (status g) && negb (is_UN s)) || (negb (is_NORMAL (status g)) && is_UN s)
    then [Event NodeStatus ERROR (WrongStatus n s (status g))] else []
  end.
Definition check_node_status_in_gossip_and_nodetool_status (gossips : gossip_info) (nodes_status : statuses) : list event :=
  match nodes_status with
  | [] => []
  | _ =>
    (gossips ≫= compare_status nodes_status) ++
    (nodes_status ≫= λ '(n, s),
       if negb (dict_in n gossips) && is_UN s then [Event NodeSchemaVersion ERROR (NotInGossip n)] else [])
  end.

(** [len(set(l)) <= 1] *)
Definition all_same (l : list string) : bool := match l with [] => true | x :: l' => forallb (String.eqb x) l' end.

Definition active_schema_versions (gossips : gossip_info) : list string :=
  (λ ng, schema ng.2) <$> filter (λ ng, filtered_out (status ng.2) = false) gossips.
Definition compare_schema (agreed : bool) (current_node : node) (peers : peers_details) (ng : node * gossip) : list event :=
  let '(n, g) := ng in
  if (current_node =? n)%nat then []
  else if negb (is_NORMAL (status g)) then []
  else match dict_get n peers with
       | None => [Event NodeSchemaVersion ERROR (NotInPeers n)]
       | Some p =>
         let in_peers := str_cell (schema_version p) in
         if String.eqb (schema g) in_peers then []
         else [Event NodeSchemaVersion (if agreed then WARNING else ERROR) (WrongSchema n in_peers (schema g))]
       end.
(** In the gossip, with a status of a member. *)
Definition active (gossips : gossip_info) (n : node) : bool :=
  match dict_get n gossips with Some g => negb (filtered_out (status g)) | None => false end.
Definition peers_schemas (gossips : gossip_info) (peers : peers_details) : list string :=
  (λ np, str_cell (schema_version np.2)) <$>
    filter (λ np, active gossips np.1 = true) peers.

Definition check_schema_version (gossips : gossip_info) (peers : peers_details) (nodes_status : statuses) (current_node : node)
    : list event :=
  if (List.length nodes_status =? 1)%nat then []
  else if negb (truthy peers) then []
  else if negb (truthy gossips) then []
  else
    let gossip_schema_agreed := all_same (active_schema_versions gossips) in
    let not_in_gossip := filter (λ n, dict_in n gossips = false) peers.*1 in
    (gossips ≫= compare_schema gossip_schema_agreed current_node peers) ++
    (if truthy not_in_gossip then [Event NodeSchemaVersion ERROR (PeersNotInGossip not_in_gossip)] else []) ++
    (if negb gossip_schema_agreed then [Event NodeSchemaVersion WARNING GossipSchemas] else []) ++
    (if negb (all_same (peers_schemas gossips peers)) then [Event NodeSchemaVersion WARNING PeersSchemas] else []).

(** What a generator yields, and whether it raises then. [NoRaft] yields a [None]. *)
Abbreviation generator := (list (option event) * bool)%type.
Definition yields (l : list event) : generator := (Some <$> l, false).
(** [itertools.chain] *)
Definition then_ (g1 g2 : generator) : generator := if g1.2 then g1 else (g1.1 ++ g2.1, g2.2).

(** [print_peer]: whether the row of a peer can be read to be logged. *)
Fixpoint check_nulls (gossips : gossip_info) (print_peer : node → bool) (peers : peers_details) : generator :=
  match peers with
  | [] => ([], false)
  | (n, p) :: peers' =>
    if forallb (λ v, bool_decide (v ≠ Text "null")) (values p) then check_nulls gossips print_peer peers'
    else if negb (print_peer n) then ([], true)
    else then_ (yields (if active gossips n then [Event NodePeersNulls ERROR (NullsInPeers n)] else []))
           (check_nulls gossips print_peer peers')
  end.
Definition check_nulls_in_peers (gossips : gossip_info) (print_peer : node → bool) (peers : peers_details) : generator :=
  if negb (truthy gossips) then ([], false) else check_nulls gossips print_peer peers.

(** ** Group 0 and the token ring *)
Inductive rexn : Type := ReadFailed | Group0MembersNotConsistentWithTokenRingMembersException.
Record Group0Member := Member { host_id : string; voter : bool }.
Record TokenRingMember := RingMember { ring_host_id : option string; ring_ip_address : option string }.

(** What is read while the hosts are searched: the feature of limited voters, the group, the ring
    and the group again. A group that cannot be read is empty. *)
Record reads := Reads {
  limited_voters : outcome rexn bool; members : list Group0Member;
  token_ring : outcome rexn (list TokenRingMember); members_again : list Group0Member
}.

Definition get_diff_group0_token_ring_members (group0 : list Group0Member) (ring : list TokenRingMember) : list string :=
  filter (λ h, Some h ∉ ring_host_id <$> ring) (remove_dups (host_id <$> group0)).
Definition get_group0_non_voters (group0 : list Group0Member) : list Group0Member := filter (λ m, voter m = false) group0.
Definition search_inconsistent_host_ids (r : reads) : outcome rexn (list string) :=
  try! limited_voters_feature_enabled := limited_voters r in
  try! ring := token_ring r in
  let host_ids := get_diff_group0_token_ring_members (members r) ring in
  Ok (if negb (truthy host_ids) && negb limited_voters_feature_enabled
      then host_id <$> get_group0_non_voters (members_again r) else host_ids).

(** The answer, and whether the cluster remembers it. *)
Definition is_limited_voters_enabled_cached (remembered : bool) (feature : outcome rexn bool) : outcome rexn (bool * bool) :=
  if remembered then Ok (true, true) else try! enabled := feature in Ok (enabled, enabled).

Definition valid_ring (ring : list TokenRingMember) : list TokenRingMember :=
  filter (λ m, is_Some (ring_host_id m) ∧ is_Some (ring_ip_address m)) ring.
Definition in_ring (ring : list TokenRingMember) (h : string) : bool := bool_decide (Some h ∈ ring_host_id <$> valid_ring ring).

(** Whether no search is needed; the feature is only read if it decides. *)
Definition no_search (remembered : bool) (feature : outcome rexn bool) (group0 : list Group0Member) (ring : list TokenRingMember)
    : outcome rexn (bool * bool) :=
  if forallb (λ m, in_ring ring (host_id m)) group0
  then if forallb voter group0 then Ok (true, remembered) else is_limited_voters_enabled_cached remembered feature
  else Ok (false, remembered).
Definition report_members (group0 : list Group0Member) (ring : list TokenRingMember) (broken_hosts : list string) : list event :=
  group0 ≫= λ m,
    if in_ring ring (host_id m) && bool_decide (host_id m ∉ broken_hosts) then []
    else [Event Group0TokenRingInconsistency ERROR (Inconsistent (host_id m))].
Definition report_ring (ring : list TokenRingMember) : list event :=
  if (List.length (valid_ring ring) <? List.length ring)%nat
  then [Event Group0TokenRingInconsistency WARNING (RingNulls (List.length ring - List.length (valid_ring ring)))] else [].

(** The events, and what the cluster remembers of the feature. *)
Definition check_group0_tokenring_consistency (remembered : bool) (feature : outcome rexn bool) (r : reads)
    (group0 : list Group0Member) (ring : list TokenRingMember) : list event * bool :=
  let failed := [Event Group0TokenRingInconsistency ERROR CheckFailed] in
  let '(events, remembered) :=
    match no_search remembered feature group0 ring with
    | Err _ => (failed, remembered)
    | Ok (true, remembered) => (report_members group0 ring [], remembered)
    | Ok (false, remembered) =>
      (match search_inconsistent_host_ids r with
       | Ok broken_hosts => report_members group0 ring broken_hosts
       | Err _ => failed
       end, remembered)
    end in
  (report_ring ring ++ events, remembered).

(** [is_cluster_topology_consistent] *)
Definition is_cluster_topology_consistent (group0 : list Group0Member) (ring : list TokenRingMember) (r : reads) (num_of_nodes : nat)
    : outcome rexn bool :=
  let group0_ids := (λ m, Some (host_id m)) <$> group0 in
  let token_ring_ids := ring_host_id <$> ring in
  let no_diff := forallb (λ h, bool_decide (h ∈ token_ring_ids)) group0_ids && forallb (λ h, bool_decide (h ∈ group0_ids)) token_ring_ids in
  try! non_voters_ids := search_inconsistent_host_ids r in
  Ok (no_diff && negb (truthy non_voters_ids) && (List.length group0_ids =? List.length token_ring_ids)%nat
      && (List.length token_ring_ids =? num_of_nodes)%nat).

(** ** Removing the garbage of group 0 *)

(** [nodetool removenode]: the host, and the dead nodes to ignore. *)
Abbreviation call := (string * list string)%type.

Section Clean.
(** Whether the next removal succeeds after the ones before, or raises. *)
Context (removenode : list call → call → outcome rexn bool).

(** The calls, and the hosts that are left; [None]: out of fuel. *)
Fixpoint clean_loop (fuel : nat) (host_ids : list string) (attempt : Z) (calls : list call)
    : option (outcome rexn (list call * list string)) :=
  match host_ids with
  | [] => Some (Ok (calls, []))
  | removing_host_id :: host_ids =>
    match fuel with
    | O => None
    | S fuel =>
      let c := (removing_host_id, host_ids) in
      match removenode calls c with
      | Err x => Some (Err x)
      | Ok ok =>
        let '(host_ids, attempt) := if (ok : bool) then (host_ids, attempt) else (host_ids ++ [removing_host_id], attempt - 1)%Z in
        if negb (truthy host_ids) || (attempt <? 1)%Z then Some (Ok (calls ++ [c], host_ids))
        else clean_loop fuel host_ids attempt (calls ++ [c])
      end
    end
  end.

(** [before], [after]: what is read before and after the removals; [ring_for_message]: the token
    ring, read once more for the error message. *)
Definition clean_group0_garbage (before after : reads) (ring_for_message : outcome rexn (list TokenRingMember))
    (raise_exception : bool) : option (outcome rexn (list call)) :=
  match search_inconsistent_host_ids before with
  | Err x => Some (Err x)
  | Ok host_ids =>
    match clean_loop (List.length host_ids + 3) host_ids 3 [] with
    | None => None
    | Some (Err x) => Some (Err x)
    | Some (Ok (calls, _)) =>
      match search_inconsistent_host_ids after with
      | Err x => Some (Err x)
      | Ok missing_host_ids =>
        if truthy missing_host_ids then
          match ring_for_message with
          | Err x => Some (Err x)
          | Ok _ =>
            if raise_exception then Some (Err Group0MembersNotConsistentWithTokenRingMembersException) else Some (Ok calls)
          end
        else Some (Ok calls)
      end
    end
  end.
End Clean.

(** ** The health of a node *)
Inductive raft_mode : Type := RaftFeature | NoRaft.

(** What is gathered in an attempt to check a node, and what is read later in it. *)
Record view := View {
  v_status : statuses; v_peers : peers_details; v_gossip : gossip_info; v_group0 : list Group0Member; v_ring : list TokenRingMember;
  v_print_peer : node → bool; v_remembered : bool; v_feature : outcome rexn bool; v_reads : reads
}.

Definition node_health_events (raft : raft_mode) (self : node) (v : view) : generator :=
  then_ (yields (check_nodes_status (v_status v)))
    (then_ (yields (check_node_status_in_gossip_and_nodetool_status (v_gossip v) (v_status v)))
       (then_ (yields (check_schema_version (v_gossip v) (v_peers v) (v_status v) self))
          (then_ (check_nulls_in_peers (v_gossip v) (v_print_peer v) (v_peers v))
             match raft with
             | RaftFeature => yields (check_group0_tokenring_consistency (v_remembered v) (v_feature v) (v_reads v) (v_group0 v) (v_ring v)).1
             | NoRaft => ([None], false)
             end))).

(** How a check ends. *)
Inductive ending : Type := Finished | AttributeError | Raised.

(** [event.publish()] for the rest of a generator. *)
Fixpoint publish_rest (events : list (option event)) (raises : bool) : list event * ending :=
  match events with
  | [] => ([], if raises then Raised else Finished)
  | None :: _ => ([], AttributeError)
  | Some e :: events' => let '(l, x) := publish_rest events' raises in (e :: l, x)
  end.

(** What is published, by the views of the attempts, of which there are [retries]; a view that
    cannot be gathered raises. *)
Fixpoint check_attempts (raft : raft_mode) (self : node) (views : list (option view)) : list event * ending :=
  match views with
  | [] => ([], Finished)
  | None :: _ => ([], Raised)
  | Some v :: views' =>
    match node_health_events raft self v with
    | ([], true) => ([], Raised)
    | ([], false) | (None :: _, _) => ([], Finished)
    | (Some e :: events, raises) =>
      match views' with
      | [] => let '(l, x) := publish_rest events raises in (e :: l, x)
      | _ => check_attempts raft self views'
      end
    end
  end.
Definition check_node_health (cluster_health_check : bool) (raft : raft_mode) (self : node) (views : list (option view)) : list event * ending :=
  if cluster_health_check then check_attempts raft self views else ([], Finished).

(** ** Reading the gossip *)

(** [to_inet_ntop_format] leaves what is not an IPv6 address; [node_ip_map.get] *)
Section ReadGossip.
Context (to_inet_ntop_format : string → string) (node_of : string → option node).

(** What was read of a node so far: schema, address, status, data centre. *)
Record partial := Partial { p_schema : string; p_ip : string; p_status : string; p_dc : string }.
Definition nothing : partial := Partial EmptyString EmptyString EmptyString EmptyString.

Definition first_part (s : string) : string := default EmptyString (head (split_on "," s)).
Definition read_line (p : partial) (line : string) : partial :=
  let '(Partial sc ip st d) := p in
  if startswith "SCHEMA:" line then Partial (str_replace line "SCHEMA:" EmptyString) ip st d
  else if startswith "RPC_ADDRESS:" line then Partial sc (to_inet_ntop_format (str_replace line "RPC_ADDRESS:" EmptyString)) st d
  else if startswith "STATUS:" line then Partial sc ip (first_part (str_replace line "STATUS:" EmptyString)) d
  else if startswith "DC:" line then Partial sc ip st (first_part (str_replace line "DC:" EmptyString))
  else p.
Definition gossip_step (acc : partial * gossip_info) (line : string) : partial * gossip_info :=
  let p := read_line acc.1 line in
  if truthy (p_schema p) && truthy (p_ip p) && truthy (p_status p) && truthy (p_dc p)
  then (nothing, match node_of (p_ip p) with
                 | Some n => dict_set n (Gossip (p_schema p) (p_status p) (p_dc p)) acc.2
                 | None => acc.2
                 end)
  else (p, acc.2).
Definition get_gossip_info (stdout : string) : gossip_info := (foldl gossip_step (nothing, []) (split_ws stdout)).2.
End ReadGossip.

(** [check_schema_agreement_in_gossip_and_peers]: what goes wrong last, if anything, by what is
    read in each try; gossip and peers that cannot be read are empty. *)
Inductive disagreement : Type := NoGossip | NoPeers | GossipDisagrees.
Definition schema_agreement (gossips : gossip_info) (peers : peers_details) : option disagreement :=
  if negb (truthy gossips) then Some NoGossip
  else if negb (truthy peers) then Some NoPeers
  else if all_same ((λ ng, schema ng.2) <$> filter (λ ng, is_NORMAL (status ng.2) = true) gossips) then None
  else Some GossipDisagrees.
Fixpoint check_schema_agreement_in_gossip_and_peers (tries : list (gossip_info * peers_details)) (err : option disagreement)
    : option disagreement :=
  match tries with
  | [] => err
  | (gossips, peers) :: tries' =>
    match schema_agreement gossips peers with
    | None => None
    | Some e => check_schema_agreement_in_gossip_and_peers tries' (Some e)
    end
  end.

(** ** When nothing is wrong *)
Lemma bind_nil {A B} (f : A → list B) (l : list A) : l ≫= f = [] ↔ ∀ x, x ∈ l → f x = [].
Proof.
  induction l as [|x l IH]; [split; [by intros _ x ?%not_elem_of_nil|done]|]. cbn. rewrite app_nil, IH. split.
  - intros [Hx Hl] y [->|Hy]%elem_of_cons; auto.
  - intros H. split; [apply H; left|intros y Hy; apply H; by right].
Qed.
Lemma if_nil {A} (b : bool) (x : A) : (if b then [x] else []) = [] ↔ b = false.
Proof. by destruct b. Qed.
Lemma if_nil' {A} (b : bool) (x : A) : (if b then [] else [x]) = [] ↔ b = true.
Proof. by destruct b. Qed.

Lemma all_same_spec l : all_same l = true ↔ ∀ x y, x ∈ l → y ∈ l → x = y.
Proof.
  destruct l as [|z l]; [split; [by intros _ x y ?%not_elem_of_nil|done]|]. cbn [all_same]. rewrite forallb_forall. split.
  - intros H. assert (Hz : ∀ x, x ∈ z :: l → x = z).
    { intros x [->|Hx]%elem_of_cons; [done|]. apply list_elem_of_In, H, String.eqb_eq in Hx. done. }
    intros x y Hx Hy. by rewrite (Hz x Hx), (Hz y Hy).
  - intros H x Hx%list_elem_of_In. apply String.eqb_eq, H; [left|by right].
Qed.

Lemma dict_in_spec {V} (n : node) (d : list (node * V)) : dict_in n d = true ↔ ∃ v, dict_get n d = Some v.
Proof. unfold dict_in. by rewrite bool_decide_eq_true. Qed.

Section OneCluster.
Context (self : node) (ns : statuses) (gs : gossip_info) (ps : peers_details).
Context (Hns : dict_wf ns) (Hgs : dict_wf gs) (Hps : dict_wf ps).

Lemma status_nil : check_nodes_status ns = [] ↔ ∀ n s, dict_get n ns = Some s → s = "UN"%string.
Proof using Hns.
  unfold check_nodes_status. rewrite bind_nil. split.
  - intros H n s Hn. apply dict_get_elem in Hn. specialize (H _ Hn). cbn in H. apply if_nil', String.eqb_eq in H. done.
  - intros H [n s] Hn. apply (dict_elem_get _ _ _ Hns) in Hn. apply if_nil', String.eqb_eq. eauto.
Qed.

Lemma dict_in_get {V} n (d : list (node * V)) : dict_in n d = match dict_get n d with Some _ => true | None => false end.
Proof. unfold dict_in. destruct (dict_get n d); [by apply bool_decide_eq_true|apply bool_decide_eq_false; intros [? ?]; done]. Qed.
Lemma normal_kept : filtered_out "NORMAL" = false.
Proof. reflexivity. Qed.

(** Everything that the gossip calls active is normal and in the status, and nothing else is. *)
Definition same_members : Prop :=
  (∀ n s, dict_get n ns = Some s → s = "UN"%string) ∧
  (∀ n, dict_in n ns = active gs n) ∧
  (∀ n g, dict_get n gs = Some g → active gs n = true → status g = "NORMAL"%string).

Lemma compare_nil n g : (∀ n s, dict_get n ns = Some s → s = "UN"%string) →
  compare_status ns (n, g) = [] ↔ if dict_in n ns then status g = "NORMAL"%string else filtered_out (status g) = true.
Proof.
  intros Hup. unfold compare_status. rewrite dict_in_get. destruct (dict_get n ns) as [s|] eqn:E; [|apply if_nil'].
  rewrite (Hup _ _ E), if_nil. unfold is_NORMAL. change (is_UN "UN") with true. cbn [negb]. rewrite andb_false_r, andb_true_r.
  cbn [orb]. by rewrite negb_false_iff, String.eqb_eq.
Qed.

Lemma members_nil : ns ≠ [] →
  check_nodes_status ns ++ check_node_status_in_gossip_and_nodetool_status gs ns = [] ↔ same_members.
Proof using Hns Hgs.
  intros Hne. rewrite app_nil, status_nil. unfold check_node_status_in_gossip_and_nodetool_status.
  replace (match ns with [] => [] | _ => _ end) with ((gs ≫= compare_status ns) ++
    (ns ≫= λ '(n, s), if negb (dict_in n gs) && is_UN s then [Event NodeSchemaVersion ERROR (NotInGossip n)] else [])) by (by destruct ns).
  rewrite app_nil, !bind_nil. unfold same_members. split.
  - intros (Hup & Hg & Hs). split; [done|].
    assert (Hcmp : ∀ n g, dict_get n gs = Some g → if dict_in n ns then status g = "NORMAL"%string else filtered_out (status g) = true).
    { intros n g Hn. apply compare_nil; [done|]. by apply Hg, dict_get_elem. }
    assert (Hin : ∀ n s, dict_get n ns = Some s → dict_in n gs = true).
    { intros n s Hn. pose proof (Hs _ (dict_get_elem _ _ _ Hn)) as H. cbn in H. rewrite (Hup _ _ Hn) in H. apply if_nil in H.
      by destruct (dict_in n gs). }
    assert (Heq : ∀ n, dict_in n ns = active gs n).
    { intros n. unfold active. destruct (dict_get n gs) as [g|] eqn:E.
      - specialize (Hcmp n g E). destruct (dict_in n ns); [by rewrite Hcmp|by rewrite Hcmp].
      - rewrite dict_in_get. destruct (dict_get n ns) as [s|] eqn:En; [|done]. specialize (Hin _ _ En). by rewrite dict_in_get, E in Hin. }
    split; [done|]. intros n g Hn Ha. specialize (Hcmp n g Hn). by rewrite Heq, Ha in Hcmp.
  - intros (Hup & Heq & Hnorm). split; [done|]. split.
    + intros [n g] Hn. apply (dict_elem_get _ _ _ Hgs) in Hn. apply compare_nil; [done|]. rewrite Heq.
      destruct (active gs n) eqn:Ea; [by eapply Hnorm|]. unfold active in Ea. rewrite Hn in Ea. by destruct (filtered_out (status g)).
    + intros [n s] Hn. apply (dict_elem_get _ _ _ Hns) in Hn. apply if_nil. specialize (Heq n). rewrite dict_in_get, Hn in Heq.
      unfold active in Heq. rewrite dict_in_get. by destruct (dict_get n gs).
Qed.

(** All active nodes have one schema, in the gossip and in the peers. *)
Definition one_schema : Prop :=
  (∀ n, dict_in n ps = true → dict_in n gs = true) ∧
  ∃ v, ∀ n, active gs n = true →
    (∀ g, dict_get n gs = Some g → schema g = v) ∧ (n ≠ self → dict_in n ps = true) ∧
    (∀ p, dict_get n ps = Some p → str_cell (schema_version p) = v).

Lemma active_get n : active gs n = true → ∃ g, dict_get n gs = Some g.
Proof. unfold active. destruct (dict_get n gs); [eauto|done]. Qed.

Lemma active_schemas v : v ∈ active_schema_versions gs ↔ ∃ n g, dict_get n gs = Some g ∧ active gs n = true ∧ schema g = v.
Proof using Hgs.
  unfold active_schema_versions. rewrite list_elem_of_fmap. split.
  - intros ([n g] & -> & [Hf Hg]%list_elem_of_filter). apply (dict_elem_get _ _ _ Hgs) in Hg. exists n, g. split; [done|]. split; [|done].
    unfold active. rewrite Hg. change (filtered_out (status g) = false) in Hf. by rewrite Hf.
  - intros (n & g & Hg & Ha & <-). exists (n, g). split; [done|]. apply list_elem_of_filter. split; [|by apply dict_get_elem].
    unfold active in Ha. rewrite Hg in Ha. change (filtered_out (status g) = false). by destruct (filtered_out (status g)).
Qed.
Lemma peer_schemas v : v ∈ peers_schemas gs ps ↔ ∃ n p, dict_get n ps = Some p ∧ active gs n = true ∧ str_cell (schema_version p) = v.
Proof using Hps.
  unfold peers_schemas. rewrite list_elem_of_fmap. split.
  - intros ([n p] & -> & [Hf Hp]%list_elem_of_filter). apply (dict_elem_get _ _ _ Hps) in Hp. by exists n, p.
  - intros (n & p & Hp & Ha & <-). exists (n, p). split; [done|]. apply list_elem_of_filter. split; [done|by apply dict_get_elem].
Qed.

Lemma not_in_gossip_nil : filter (λ n, dict_in n gs = false) ps.*1 = [] ↔ ∀ n, dict_in n ps = true → dict_in n gs = true.
Proof.
  split.
  - intros H n Hn. destruct (dict_in n gs) eqn:E; [done|]. exfalso. apply (not_elem_of_nil n). rewrite <-H. apply list_elem_of_filter.
    split; [done|]. apply dict_in_spec in Hn as [p Hp%dict_get_elem]. apply list_elem_of_fmap. by exists (n, p).
  - intros H. destruct (filter _ _) as [|n l] eqn:E; [done|]. exfalso. assert (Hn : n ∈ n :: l) by left. rewrite <-E in Hn.
    apply list_elem_of_filter in Hn as [Hf Hn]. rewrite H in Hf; [done|]. rewrite dict_in_get.
    destruct (dict_get n ps) eqn:Eg; [done|]. by apply dict_get_None in Eg.
Qed.

Lemma compare_schema_nil b n g : is_NORMAL (status g) = true → n ≠ self →
  compare_schema b self ps (n, g) = [] ↔ ∃ p, dict_get n ps = Some p ∧ str_cell (schema_version p) = schema g.
Proof.
  intros Hn Hne. unfold compare_schema. rewrite (proj2 (Nat.eqb_neq self n)) by done. rewrite Hn. cbn [negb].
  destruct (dict_get n ps) as [p|]; [|split; [done|by intros (p & ? & _)]]. rewrite if_nil', String.eqb_eq.
  split; [intros ->; eauto|by intros (p' & [= <-] & ->)].
Qed.

Lemma other_node : (∀ n, dict_in n ns = active gs n) → (2 <= List.length ns)%nat → ∃ n, n ≠ self ∧ active gs n = true.
Proof using Hns.
  intros Heq Hlen. destruct ns as [|[n1 s1] [|[n2 s2] rest]] eqn:E; [simpl in Hlen; lia..|]. rewrite <-E in *.
  assert (n1 ≠ n2) by (unfold dict_wf in Hns; rewrite E in Hns; cbn in Hns; apply NoDup_cons in Hns as [Hn _]; intros ->; apply Hn; left).
  destruct (decide (n1 = self)) as [->|]; [exists n2|exists n1]; (split; [done|]); rewrite <-Heq, dict_in_get, E; cbn [dict_get].
  - by rewrite decide_False, decide_True by done.
  - by rewrite decide_True by done.
Qed.

Lemma schema_nil : same_members → (2 <= List.length ns)%nat → ps ≠ [] → gs ≠ [] →
  check_schema_version gs ps ns self = [] ↔ one_schema.
Proof using Hns Hgs Hps.
  intros (Hup & Heq & Hnorm) Hlen Hp Hg. unfold check_schema_version. rewrite (proj2 (Nat.eqb_neq _ 1)) by lia.
  replace (truthy ps) with true by (by destruct ps). replace (truthy gs) with true by (by destruct gs). cbn [negb].
  replace (if truthy _ then [Event NodeSchemaVersion ERROR (PeersNotInGossip _)] else []) with
    (match filter (λ n, dict_in n gs = false) ps.*1 with [] => [] | l => [Event NodeSchemaVersion ERROR (PeersNotInGossip l)] end)
    by (by destruct (filter _ ps.*1)).
  rewrite !app_nil, bind_nil, !if_nil, !negb_false_iff. unfold one_schema. rewrite <-not_in_gossip_nil.
  destruct (other_node Heq Hlen) as (m & Hm & Ha).
  split.
  - intros (Hcmp & Hpg & Hsame & Hpsame). split; [by destruct (filter _ ps.*1)|].
    rewrite all_same_spec in Hsame, Hpsame. destruct (active_get m Ha) as [gm Hgm]. exists (schema gm).
    assert (Hgossip : ∀ n g, dict_get n gs = Some g → active gs n = true → schema g = schema gm).
    { intros n g Hn Han. apply Hsame; apply active_schemas; eauto 6. }
    assert (Hpeers : ∀ n g, dict_get n gs = Some g → active gs n = true → n ≠ self →
      ∃ p, dict_get n ps = Some p ∧ str_cell (schema_version p) = schema gm).
    { intros n g Hn Han Hne. rewrite <-(Hgossip n g Hn Han). apply (compare_schema_nil (all_same (active_schema_versions gs)) n g); [|done|].
      - unfold is_NORMAL. by rewrite (Hnorm n g Hn Han).
      - by apply Hcmp, dict_get_elem. }
    destruct (Hpeers m gm Hgm Ha Hm) as (pm & Hpm & Hvm). intros n Han. destruct (active_get n Han) as [g Hn].
    split; [intros g' Hg'; by eapply Hgossip|]. split.
    + intros Hne. destruct (Hpeers n g Hn Han Hne) as (p & Hpn & _). apply dict_in_spec. eauto.
    + intros p Hpn. rewrite <-Hvm. apply Hpsame; apply peer_schemas; eauto 6.
  - intros (Hpg & v & Hv). split; [|split; [by rewrite Hpg|split]].
    + intros [n g] Hn%(dict_elem_get _ _ _ Hgs). destruct (decide (n = self)) as [->|Hne].
      { unfold compare_schema. by rewrite Nat.eqb_refl. }
      destruct (is_NORMAL (status g)) eqn:En; [|unfold compare_schema; rewrite (proj2 (Nat.eqb_neq self n)) by done; by rewrite En].
      apply compare_schema_nil; [done..|]. assert (Han : active gs n = true).
      { unfold active. rewrite Hn. unfold is_NORMAL in En. apply String.eqb_eq in En. by rewrite En. }
      destruct (Hv n Han) as (Hg' & Hin & Hpv). destruct (proj1 (dict_in_spec n ps) (Hin Hne)) as [p Hpn]. exists p.
      split; [done|]. by rewrite (Hpv p Hpn), (Hg' g Hn).
    + apply all_same_spec. intros x y (n & g & Hn & Han & <-)%active_schemas (n' & g' & Hn' & Ha' & <-)%active_schemas.
      destruct (Hv n Han) as [H _]. destruct (Hv n' Ha') as [H' _]. by rewrite (H g Hn), (H' g' Hn').
    + apply all_same_spec. intros x y (n & q & Hn & Han & <-)%peer_schemas (n' & q' & Hn' & Ha' & <-)%peer_schemas.
      destruct (Hv n Han) as (_ & _ & H). destruct (Hv n' Ha') as (_ & _ & H'). by rewrite (H q Hn), (H' q' Hn').
Qed.

(** No peer of a member has a text that says null; one of another node is only logged. *)
Definition no_nulls (print_peer : node → bool) : Prop :=
  ∀ n p, dict_get n ps = Some p → Text "null" ∈ values p → print_peer n = true ∧ active gs n = false.

Lemma then_nil g1 g2 : then_ g1 g2 = ([], false) ↔ g1 = ([], false) ∧ g2 = ([], false).
Proof.
  destruct g1 as [l1 [|]], g2 as [l2 b2]; unfold then_; cbn [fst snd]; [split; [done|by intros [? _]]|].
  split; [intros [= [-> ->]%app_nil ->]; done|by intros [[= ->] [= -> ->]]].
Qed.
Lemma yields_nil l : yields l = ([], false) ↔ l = [].
Proof. unfold yields. split; [intros [= H%fmap_nil_inv]; done|by intros ->]. Qed.
Lemma has_null p : forallb (λ v, bool_decide (v ≠ Text "null")) (values p) = false ↔ Text "null" ∈ values p.
Proof.
  rewrite <-not_true_iff_false, forallb_forall. split.
  - intros H. destruct (decide (Text "null" ∈ values p)) as [|Hn]; [done|]. exfalso. apply H. intros v Hv%list_elem_of_In.
    apply bool_decide_eq_true. by intros ->.
  - intros Hin H. apply list_elem_of_In in Hin. apply H in Hin. by apply bool_decide_eq_true in Hin.
Qed.

Lemma nulls_nil print_peer : gs ≠ [] → check_nulls_in_peers gs print_peer ps = ([], false) ↔ no_nulls print_peer.
Proof using Hgs Hps.
  intros Hg. unfold check_nulls_in_peers. replace (truthy gs) with true by (by destruct gs). cbn [negb]. unfold no_nulls.
  transitivity (∀ n p, (n, p) ∈ ps → Text "null" ∈ values p → print_peer n = true ∧ active gs n = false).
  - clear Hps. induction ps as [|[n p] l IH]; [split; [by intros _ n p ?%not_elem_of_nil|done]|]. cbn [check_nulls].
    assert (Hcons : (∀ n' p', (n', p') ∈ (n, p) :: l → Text "null" ∈ values p' → print_peer n' = true ∧ active gs n' = false) ↔
      (Text "null" ∈ values p → print_peer n = true ∧ active gs n = false) ∧
      ∀ n' p', (n', p') ∈ l → Text "null" ∈ values p' → print_peer n' = true ∧ active gs n' = false).
    { split; [intros H; split; [apply H; left|intros n' p' Hin; apply H; by right]|].
      intros [H1 H2] n' p' [[= -> ->]|Hin]%elem_of_cons; [done|by eapply H2]. }
    rewrite Hcons, <-IH. destruct (forallb _ (values p)) eqn:E.
    + assert (Text "null" ∉ values p) by (by intros H%has_null; rewrite E in H). tauto.
    + apply has_null in E. destruct (print_peer n); cbn [negb]; [|split; [done|by intros [[? ?]%(λ f, f E) _]]].
      rewrite then_nil, yields_nil, if_nil. tauto.
  - split; intros H n p Hn; eapply H; [by apply dict_get_elem|by apply dict_elem_get].
Qed.
End OneCluster.

(** ** Group 0 *)

(** The check without the shortcut: it always searches. *)
Definition check_always (r : reads) (group0 : list Group0Member) (ring : list TokenRingMember) : list event :=
  report_ring ring ++
  match search_inconsistent_host_ids r with
  | Ok broken_hosts => report_members group0 ring broken_hosts
  | Err _ => [Event Group0TokenRingInconsistency ERROR CheckFailed]
  end.

(** The database answers the same all along, and remembering the feature was right. *)
Definition steady (remembered limited : bool) (feature : outcome rexn bool) (r : reads) (group0 : list Group0Member)
    (ring : list TokenRingMember) : Prop :=
  feature = Ok limited ∧ r = Reads (Ok limited) group0 (Ok ring) group0 ∧ (remembered = true → limited = true).

Lemma in_ring_host ring h : in_ring ring h = true → Some h ∈ ring_host_id <$> ring.
Proof.
  unfold in_ring. rewrite bool_decide_eq_true. intros (m & Hm & Hin)%list_elem_of_fmap. apply list_elem_of_filter in Hin as [_ Hin].
  apply list_elem_of_fmap. eauto.
Qed.

Lemma no_diff group0 ring : forallb (λ m, in_ring ring (host_id m)) group0 = true → get_diff_group0_token_ring_members group0 ring = [].
Proof.
  rewrite forallb_forall. intros H. apply filter_never. intros h Hh Hn. rewrite elem_of_remove_dups in Hh.
  apply list_elem_of_fmap in Hh as (m & -> & Hm). apply Hn, in_ring_host, H, list_elem_of_In, Hm.
Qed.
Lemma no_diff_all group0 ring : valid_ring ring = ring → (∀ m, m ∈ group0 → Some (host_id m) ∈ ring_host_id <$> ring) →
  get_diff_group0_token_ring_members group0 ring = [].
Proof.
  intros Hv Hin. apply no_diff, forallb_forall. intros m Hm%list_elem_of_In. unfold in_ring. rewrite Hv. by apply bool_decide_eq_true, Hin.
Qed.
Lemma all_voters group0 : forallb voter group0 = true → get_group0_non_voters group0 = [].
Proof. rewrite forallb_forall. intros H. apply filter_never. intros m Hm%list_elem_of_In. by rewrite H. Qed.

Lemma search_steady limited group0 ring :
  search_inconsistent_host_ids (Reads (Ok limited) group0 (Ok ring) group0) =
    Ok (if negb (truthy (get_diff_group0_token_ring_members group0 ring)) && negb limited
        then host_id <$> get_group0_non_voters group0 else get_diff_group0_token_ring_members group0 ring).
Proof. done. Qed.

Lemma no_search_steady remembered limited feature r group0 ring : steady remembered limited feature r group0 ring →
  ∃ remembered', no_search remembered feature group0 ring =
    Ok (forallb (λ m, in_ring ring (host_id m)) group0 && (forallb voter group0 || limited), remembered').
Proof.
  intros (-> & _ & Hr). unfold no_search, is_limited_voters_enabled_cached. destruct (forallb _ group0); [|by eexists].
  destruct (forallb voter group0); [by eexists|]. destruct remembered; cbn; [rewrite Hr by done|]; by eexists.
Qed.

Lemma shortcut_agrees remembered limited feature r group0 ring : steady remembered limited feature r group0 ring →
  (check_group0_tokenring_consistency remembered feature r group0 ring).1 = check_always r group0 ring.
Proof.
  intros Hs. unfold check_group0_tokenring_consistency, check_always. destruct (no_search_steady _ _ _ _ _ _ Hs) as [b ->].
  destruct Hs as (_ & -> & _). destruct (forallb (λ m, in_ring ring (host_id m)) group0) eqn:Ein; cbn [andb].
  - rewrite search_steady, (no_diff _ _ Ein). cbn [truthy truthy_list negb andb].
    destruct (forallb voter group0) eqn:Ev; cbn [orb]; [rewrite (all_voters _ Ev); by destruct limited|]. by destruct limited.
  - by destruct (search_inconsistent_host_ids _).
Qed.

(** What a healthy group looks like. *)
Definition group0_consistent (limited : bool) (group0 : list Group0Member) (ring : list TokenRingMember) : Prop :=
  (∀ m, m ∈ ring → is_Some (ring_host_id m) ∧ is_Some (ring_ip_address m)) ∧
  (∀ m, m ∈ group0 → Some (host_id m) ∈ ring_host_id <$> ring) ∧
  (limited = false → ∀ m, m ∈ group0 → voter m = true).

Lemma report_ring_nil ring : report_ring ring = [] ↔ valid_ring ring = ring.
Proof.
  unfold report_ring. rewrite if_nil, Nat.ltb_ge. split; [|by intros ->]. intros H. unfold valid_ring in *.
  apply filter_always. intros m Hm. destruct (decide (is_Some (ring_host_id m) ∧ is_Some (ring_ip_address m))) as [|Hn]; [done|].
  exfalso. pose proof (length_filter_lt (λ m, is_Some (ring_host_id m) ∧ is_Some (ring_ip_address m)) ring m Hm Hn). lia.
Qed.

Lemma report_members_nil group0 ring broken : report_members group0 ring broken = [] ↔
  ∀ m, m ∈ group0 → in_ring ring (host_id m) = true ∧ host_id m ∉ broken.
Proof.
  unfold report_members. rewrite bind_nil. split; intros H m Hm; specialize (H m Hm).
  - by apply if_nil', andb_true_iff in H as [? ?%bool_decide_eq_true].
  - destruct H as [Hr Hb]. apply if_nil'. rewrite Hr. by apply bool_decide_eq_true.
Qed.

Lemma group0_nil remembered limited feature r group0 ring : steady remembered limited feature r group0 ring →
  (check_group0_tokenring_consistency remembered feature r group0 ring).1 = [] ↔ group0_consistent limited group0 ring.
Proof.
  intros Hs. rewrite (shortcut_agrees _ _ _ _ _ _ Hs). destruct Hs as (_ & -> & _). unfold check_always, group0_consistent.
  rewrite app_nil, report_ring_nil, search_steady, report_members_nil. unfold in_ring.
  assert (Hv : valid_ring ring = ring ↔ ∀ m, m ∈ ring → is_Some (ring_host_id m) ∧ is_Some (ring_ip_address m)).
  { split; [|apply filter_always]. intros H m Hm. rewrite <-H in Hm. by apply list_elem_of_filter in Hm as [? _]. }
  rewrite Hv. split.
  - intros (Hring & Hm). rewrite (proj2 Hv Hring) in Hm. split; [done|].
    assert (Hin : ∀ m, m ∈ group0 → Some (host_id m) ∈ ring_host_id <$> ring) by (intros m Hg; by apply Hm in Hg as [?%bool_decide_eq_true _]).
    split; [done|]. intros -> m Hg. destruct (voter m) eqn:E; [done|]. destruct (Hm m Hg) as [_ Hb]. exfalso. apply Hb.
    rewrite (no_diff_all _ _ (proj2 Hv Hring) Hin).
    cbn. apply list_elem_of_fmap. exists m. split; [done|]. by apply list_elem_of_filter.
  - intros (Hring & Hin & Hvote). split; [done|]. rewrite (proj2 Hv Hring). intros m Hg. split; [by apply bool_decide_eq_true, Hin|].
    rewrite (no_diff_all _ _ (proj2 Hv Hring) Hin).
    cbn. destruct limited; cbn; [by intros ?%not_elem_of_nil|].
    intros (m' & _ & Hm')%list_elem_of_fmap. apply list_elem_of_filter in Hm' as [Hf Hm']. by rewrite (Hvote eq_refl m' Hm') in Hf.
Qed.

(** ** A healthy node *)

(** C14. A node of a cluster with Raft and two nodes or more, of which status, gossip and peers
    could be read and whose answers about group 0 do not change meanwhile, gives no health event
    exactly if the views agree on one cluster: the nodes of [nodetool status] are all up and are
    the active ones of the gossip, where they are normal; all of them have one schema version in
    the gossip and in the peers, where every node but the checked one is listed and no unknown one
    is; no text null is among their peers; and the members of group 0 are in the token ring and,
    without limited voters, vote. *)
Theorem healthy_iff_views_agree self v limited :
  dict_wf (v_status v) → dict_wf (v_gossip v) → dict_wf (v_peers v) →
  (2 <= List.length (v_status v))%nat → v_gossip v ≠ [] → v_peers v ≠ [] →
  steady (v_remembered v) limited (v_feature v) (v_reads v) (v_group0 v) (v_ring v) →
  node_health_events RaftFeature self v = ([], false) ↔
    same_members (v_status v) (v_gossip v) ∧ one_schema self (v_gossip v) (v_peers v) ∧
    no_nulls (v_gossip v) (v_peers v) (v_print_peer v) ∧ group0_consistent limited (v_group0 v) (v_ring v).
Proof.
  intros Hns Hgs Hps Hlen Hg Hp Hs. assert (Hne : v_status v ≠ []) by (intros E; rewrite E in Hlen; simpl in Hlen; lia).
  unfold node_health_events. rewrite !then_nil, !yields_nil, (group0_nil _ _ _ _ _ _ Hs).
  rewrite (nulls_nil _ _ Hgs Hps) by done. rewrite (assoc (∧)), <-app_nil, members_nil by done.
  split; intros (Hm & Hsch & Hrest); (split; [done|]); (split; [|done]); by eapply schema_nil.
Qed.

(** ** What is published *)
Definition health_events (self : node) (v : view) : list event := omap id (node_health_events RaftFeature self v).1.

(** Without a [None]. *)
Definition plain (g : generator) : Prop := ∃ l : list event, g.1 = Some <$> l.
Lemma plain_yields l : plain (yields l).
Proof. by exists l. Qed.
Lemma plain_then g1 g2 : plain g1 → plain g2 → plain (then_ g1 g2).
Proof.
  intros [l1 H1] [l2 H2]. destruct g1 as [? [|]], g2; [by exists l1|]. exists (l1 ++ l2). cbn in *. by rewrite H1, H2, <-fmap_app.
Qed.
Lemma plain_nulls gs f ps : plain (check_nulls gs f ps).
Proof.
  induction ps as [|[n p] ps IH]; [by exists []|]. cbn [check_nulls]. destruct (forallb _ _); [done|].
  destruct (f n); [apply plain_then; [apply plain_yields|done]|by exists []].
Qed.

Lemma raft_events self v : (node_health_events RaftFeature self v).1 = Some <$> health_events self v.
Proof.
  assert (H : plain (node_health_events RaftFeature self v)).
  { unfold node_health_events. repeat apply plain_then; try apply plain_yields.
    unfold check_nulls_in_peers. destruct (negb _); [by exists []|apply plain_nulls]. }
  destruct H as [l H]. unfold health_events. rewrite H. f_equal. clear. induction l as [|e l IH]; [done|]. cbn. by f_equal.
Qed.

Lemma publish_some l b : publish_rest (Some <$> l) b = (l, if b then Raised else Finished).
Proof. induction l as [|e l IH]; [done|]. cbn. by rewrite IH. Qed.

(** The attempts to check a node with Raft, whatever is seen in each: if the check of a view does
    not raise, nothing is published when one of the attempts sees no event, and otherwise exactly
    the events of the last attempt, all of them. *)
Theorem events_of_last_attempt self (views : list view) :
  (∀ v, v ∈ views → (node_health_events RaftFeature self v).2 = false) →
  check_node_health true RaftFeature self (Some <$> views) =
    (if existsb (λ v, negb (truthy (health_events self v))) views then [] else default [] (last (health_events self <$> views)), Finished).
Proof.
  unfold check_node_health. induction views as [|v views IH]; intros Hr; [done|]. cbn [fmap list_fmap check_attempts existsb].
  pose proof (raft_events self v) as He. pose proof (Hr v ltac:(left)) as Hv. destruct (node_health_events RaftFeature self v) as [l b].
  cbn [fst snd] in He, Hv. subst l b. destruct (health_events self v) as [|e l] eqn:E; [done|]. cbn [fmap list_fmap truthy truthy_list negb orb].
  destruct views as [|v' views]; [cbn; by rewrite publish_some|].
  rewrite IH by (intros w Hw; apply Hr; by right). done.
Qed.

(** ** Garbage is removed *)
Section Removed.
Context (removenode : list call → call → outcome rexn bool).

Definition succeeds (before : list call) (c : call) : bool := match removenode before c with Ok b => b | Err _ => false end.
(** The hosts of the calls that succeeded, and how many calls failed. *)
Fixpoint removed (before calls : list call) : list string :=
  match calls with
  | [] => []
  | c :: calls' => (if succeeds before c then [c.1] else []) ++ removed (before ++ [c]) calls'
  end.
Fixpoint failures (before calls : list call) : nat :=
  match calls with
  | [] => 0
  | c :: calls' => (if succeeds before c then 0 else 1) + failures (before ++ [c]) calls'
  end.

(** What the loop has done when it ends. *)
Definition cleaned (before : list call) (host_ids : list string) (attempt : Z) (r : outcome rexn (list call * list string)) : Prop :=
  match r with
  | Err x => ∃ calls c, removenode calls c = Err x ∧ c.1 ∈ host_ids
  | Ok (calls, pending) => ∃ new, calls = before ++ new ∧ removed before new ++ pending ≡ₚ host_ids ∧
      (pending = [] ∨ Z.of_nat (failures before new) = attempt) ∧ (Z.of_nat (failures before new) <= attempt)%Z ∧
      Forall (λ c, c.1 :: c.2 ⊆ host_ids) new
  end.

Lemma cleaned_step before h rest attempt ok host_ids' attempt' r :
  succeeds before (h, rest) = ok →
  (host_ids', attempt') = (if ok then (rest, attempt) else (rest ++ [h], attempt - 1)%Z) →
  cleaned (before ++ [(h, rest)]) host_ids' attempt' r → cleaned before (h :: rest) attempt r.
Proof.
  intros Hok Heq. assert (Hsub : ∀ x, x ∈ host_ids' → x ∈ h :: rest).
  { destruct ok; injection Heq as -> ->; set_solver. }
  destruct r as [[calls pending]|x]; cbn [cleaned].
  - intros (new & -> & Hperm & Hend & Hle & Hall). exists ((h, rest) :: new). rewrite <-app_assoc. split; [done|].
    cbn [removed failures fst]. rewrite Hok. rewrite <-app_assoc, Hperm. clear Hperm. split; [|split; [|split]].
    + destruct ok; injection Heq as -> ->; cbn [app]; [done|]. by rewrite Permutation_app_comm.
    + destruct Hend as [->|Hend]; [by left|right]. destruct ok; injection Heq as -> ->; lia.
    + destruct ok; injection Heq as -> ->; lia.
    + constructor; [done|]. eapply Forall_impl; [exact Hall|]. intros c Hc y Hy. by apply Hsub, Hc.
  - intros (calls & c & Hx & Hc). eauto 6.
Qed.

Lemma clean_loop_ends fuel host_ids attempt before : (1 <= attempt)%Z → (Z.of_nat (List.length host_ids) + attempt <= Z.of_nat fuel)%Z →
  ∃ r, clean_loop removenode fuel host_ids attempt before = Some r ∧ cleaned before host_ids attempt r.
Proof.
  revert host_ids attempt before. induction fuel as [|fuel IH]; intros host_ids attempt before Ha Hf; [lia|].
  destruct host_ids as [|h rest].
  { exists (Ok (before, [])). split; [done|]. exists []. rewrite app_nil_r. cbn. split; [done|]. split; [done|]. split; [by left|]. split; [lia|constructor]. }
  cbn [clean_loop]. destruct (removenode before (h, rest)) as [ok|x] eqn:E.
  2: { exists (Err x). split; [done|]. exists before, (h, rest). split; [done|left]. }
  assert (Hs : succeeds before (h, rest) = ok) by (unfold succeeds; by rewrite E).
  destruct (if ok then (rest, attempt) else (rest ++ [h], (attempt - 1)%Z)) as [host_ids' attempt'] eqn:Eq. cbn [List.length] in Hf.
  assert (Hmeasure : (Z.of_nat (List.length host_ids') + attempt' <= Z.of_nat fuel)%Z).
  { destruct ok; injection Eq as <- <-; [lia|]. rewrite length_app. cbn [List.length]. lia. }
  destruct (negb (truthy host_ids') || (attempt' <? 1)%Z) eqn:Estop.
  - eexists. split; [done|]. eapply cleaned_step; [exact Hs|by symmetry|]. exists []. rewrite app_nil_r. cbn [removed failures app].
    split; [done|]. split; [done|]. apply orb_true_iff in Estop as [Hnil|Hz%Z.ltb_lt].
    + split; [left; by destruct host_ids'|]. split; [|constructor]. destruct ok; injection Eq as <- <-; lia.
    + assert (attempt' = 0%Z) as -> by (destruct ok; injection Eq as <- <-; lia). split; [by right|]. split; [lia|constructor].
  - apply orb_false_iff in Estop as [_ Hz%Z.ltb_ge]. destruct (IH host_ids' attempt' (before ++ [(h, rest)]) Hz Hmeasure) as (r & Hr & Hc).
    exists r. split; [exact Hr|]. eapply cleaned_step; [exact Hs|by symmetry|exact Hc].
Qed.
End Removed.

(** C34. Cleaning group 0 ends whatever the removals do. If nothing raises, every host that was found
    is removed, once each, or three removals failed and the loop gave up. A removal names, to
    remove or to ignore, only hosts that were found. It raises the error about inconsistent
    members exactly if it is asked to and hosts are still found afterwards, and nothing it
    reads or runs raised before. *)
Theorem garbage_removed_or_given_up removenode before after ring_for_message raise_exception host_ids :
  search_inconsistent_host_ids before = Ok host_ids →
  ∃ r, clean_group0_garbage removenode before after ring_for_message raise_exception = Some r ∧
  match r with
  | Ok calls => ∃ pending missing, removed removenode [] calls ++ pending ≡ₚ host_ids ∧ (pending = [] ∨ failures removenode [] calls = 3%nat) ∧
      Forall (λ c, c.1 :: c.2 ⊆ host_ids) calls ∧
      search_inconsistent_host_ids after = Ok missing ∧ (missing = [] ∨ raise_exception = false)
  | Err x => (∃ calls c, removenode calls c = Err x ∧ c.1 ∈ host_ids) ∨ search_inconsistent_host_ids after = Err x ∨
      (ring_for_message = Err x ∨ x = Group0MembersNotConsistentWithTokenRingMembersException ∧ raise_exception = true) ∧
      ∃ missing, search_inconsistent_host_ids after = Ok missing ∧ missing ≠ []
  end.
Proof.
  intros Hb. unfold clean_group0_garbage. rewrite Hb.
  destruct (clean_loop_ends removenode (List.length host_ids + 3) host_ids 3 []) as (r & -> & Hc); [lia..|].
  destruct r as [[calls pending]|x]; [|by eexists; split; [done|left]].
  destruct Hc as (new & Hnew & Hperm & Hend & _ & Hall). cbn [app] in Hnew. subst new.
  destruct (search_inconsistent_host_ids after) as [missing|x] eqn:Ea; [|by eexists; split; [done|right; left]].
  assert (Hm : truthy missing = true → missing ≠ []) by (by intros ? ->).
  destruct (truthy missing) eqn:Et; [destruct ring_for_message as [ring|x] eqn:Er; [destruct raise_exception|]|].
  2, 4: eexists; (split; [done|]); exists pending, missing; (split; [done|]);
    (split; [destruct Hend as [|Hf]; [by left|right; lia]|]); (split; [done|]); (split; [done|]);
    first [by right|left; by destruct missing].
  all: eexists; (split; [done|]); right; right; split; [auto|eauto].
Qed.

(** ** A cluster of two nodes *)
Definition two_members : list Group0Member := [Member "h1" true; Member "h2" true].
Definition two_ring : list TokenRingMember := [RingMember (Some "h1") (Some "10.0.0.1"); RingMember (Some "h2") (Some "10.0.0.2")]%string.
Definition two_gossip : gossip_info := [(1, Gossip "v1" "NORMAL" "dc1"); (2, Gossip "v1" "NORMAL" "dc1"); (3, Gossip "v0" "LEFT" "dc1")]%string.
Definition two_nodes (second : string) : view :=
  View [(1, "UN"); (2, second)]%string [(2, Peer (Text "v1") [Null; Text "rack1"])]%string two_gossip two_members two_ring
    (λ _, true) false (Ok false) (Reads (Ok false) two_members (Ok two_ring) two_members).

Lemma healthy_iff_views_agree_witness :
  node_health_events RaftFeature 1 (two_nodes "UN") = ([], false) ∧ one_schema 1 two_gossip [(2, Peer (Text "v1") [Null; Text "rack1"])]%string ∧
  ¬ same_members [(1, "UN"); (2, "DN")]%string two_gossip.
Proof.
  assert (Hwf : ∀ {V} (d : list (node * V)), bool_decide (NoDup d.*1) = true → dict_wf d) by (intros V d Hd; exact (bool_decide_eq_true_1 _ Hd)).
  assert (H : node_health_events RaftFeature 1 (two_nodes "UN") = ([], false)) by (vm_compute; reflexivity). split; [exact H|]. split.
  - eapply (healthy_iff_views_agree 1 (two_nodes "UN") false) in H as (_ & Hs & _); [exact Hs|apply Hwf; vm_compute; reflexivity..|simpl; lia|done|done|].
    split; [done|]. split; [done|done].
  - intros (Hup & _). specialize (Hup 2 "DN"%string eq_refl). done.
Defined.

Lemma events_of_last_attempt_witness :
  check_node_health true RaftFeature 1 (Some <$> [two_nodes "DN"; two_nodes "UJ"]) =
    ([Event NodeStatus CRITICAL (NotUp 2 "UJ"); Event NodeStatus ERROR (WrongStatus 2 "UJ" "NORMAL")], Finished) ∧
  check_node_health true RaftFeature 1 (Some <$> [two_nodes "DN"; two_nodes "UN"; two_nodes "UJ"]) = ([], Finished).
Proof.
  split; (rewrite events_of_last_attempt; [vm_compute; reflexivity|]); intros v Hv; repeat (apply elem_of_cons in Hv as [->|Hv]; [vm_compute; reflexivity|]);
    by apply not_elem_of_nil in Hv.
Defined.

(** Two hosts to remove: the first removal fails once. *)
Definition flaky (calls : list call) (c : call) : outcome rexn bool := Ok (negb (List.length calls =? 0)%nat).
Definition garbage : reads := Reads (Ok true) two_members (Ok []) two_members.
Definition no_garbage : reads := Reads (Ok true) two_members (Ok two_ring) two_members.

Lemma garbage_removed_or_given_up_witness :
  clean_group0_garbage flaky garbage no_garbage (Ok []) true = Some (Ok [("h1", ["h2"]); ("h2", ["h1"]); ("h1", [])]%string) ∧
  ∃ pending, removed flaky [] [("h1", ["h2"]); ("h2", ["h1"]); ("h1", [])]%string ++ pending ≡ₚ ["h1"; "h2"]%string.
Proof.
  assert (Hc : clean_group0_garbage flaky garbage no_garbage (Ok []) true = Some (Ok [("h1", ["h2"]); ("h2", ["h1"]); ("h1", [])]%string))
    by (vm_compute; reflexivity).
  split; [exact Hc|]. destruct (garbage_removed_or_given_up flaky garbage no_garbage (Ok []) true ["h1"; "h2"]%string) as (r & Hr & H); [vm_compute; reflexivity|].
  rewrite Hc in Hr. injection Hr as <-. destruct H as (pending & _ & Hp & _). by exists pending.
Defined.

(** ** What the checks miss *)

(** Without Raft the events of an unhealthy node are followed by an [AttributeError]. *)
Example no_raft_publishes_none :
  check_node_health true NoRaft 1 [Some (two_nodes "DN")] =
    ([Event NodeStatus CRITICAL (NotUp 2 "DN"); Event NodeStatus ERROR (WrongStatus 2 "DN" "NORMAL")], AttributeError).
Proof. vm_compute. reflexivity. Qed.

(** Nulls of the driver are never found. *)
Example driver_nulls_unseen gs f n : check_nulls_in_peers gs f [(n, Peer Null [Null; Null])] = ([], false).
Proof. unfold check_nulls_in_peers. by destruct (negb (truthy gs)). Qed.

(** A node that answers nothing is healthy. *)
Example silent_node_is_healthy self f feature r : node_health_events RaftFeature self (View [] [] [] [] [] f false feature r) = ([], false).
Proof. reflexivity. Qed.

(** With one node missing from the ring, members that do not vote are not reported. *)
Example non_voter_unreported :
  let group0 := [Member "h1" true; Member "h2" false; Member "h3" true]%string in
  (check_group0_tokenring_consistency false (Ok false) (Reads (Ok false) group0 (Ok two_ring) group0) group0 two_ring).1 =
    [Event Group0TokenRingInconsistency ERROR (Inconsistent "h3")].
Proof. vm_compute. reflexivity. Qed.

(** What the gossip tells about a node without a status goes with the status of the next one, so
    that the second node is not read. *)
Example gossip_of_two_mixed :
  get_gossip_info id (λ ip, if String.eqb ip "10.0.0.1" then Some 1 else if String.eqb ip "10.0.0.2" then Some 2 else None)
    "/10.0.0.1 SCHEMA:v1 DC:dc1 RPC_ADDRESS:10.0.0.1 /10.0.0.2 STATUS:NORMAL,-1 SCHEMA:v2 DC:dc1 RPC_ADDRESS:10.0.0.2" =
    [(1, Gossip "v1" "NORMAL" "dc1")]%string.
Proof. vm_compute. reflexivity. Qed.
End HealthChecks.
