(* ===== verification/ProvisionPlan.v ===== *)
(** * Spot and on-demand provisioning on AWS

    Model of [sdcm/provision/common/spot_outcome.py] with the event it records
    ([SpotProvisionOutcomeEvent] of [sdcm/sct_events/system.py]), of the provisioning plans
    ([provision_plan.py], [provision_plan_builder.py] of the same directory) and of the
    fallback of [sdcm/cluster_aws.py] from spot to on-demand instances.

    Creating instances is an argument: an action on an arbitrary state, the cloud, that
    returns the instances it created or raises. So are the events device and publishing. *)
From Stdlib Require Import Ascii.
From stdpp Require Import base decidable option strings numbers gmap sets list.
From S2P Require Import Prelude.
From S2P Require Import PyString.
From S2P Require Import Effects.
From S2P Require Import Events.
Local Open Scope py_scope.

Module ProvisionPlan.

(** ** The recorded outcome *)
Record outcome_event := OutcomeEvent {
  requested : string;
  realized : string;
  region : string;
  availability_zone : string;
  instance_type : string;
  count : Z;
  downgraded : bool;
  severity : Events.Severity;
}.

(** [x or default]. *)
Definition or_else (x : option string) (d : string) : string :=
  if truthy x then default d x else d.

Definition spot_provision_outcome_event (requested_ : string) (realized_ region_ az_ type_ : option string)
    (count_ : Z) : outcome_event :=
  let downgraded_ := truthy realized_ && negb (bool_decide (realized_ = Some requested_)) in
  OutcomeEvent requested_ (or_else realized_ "none") (or_else region_ "unknown") (or_else az_ "unknown")
    (or_else type_ "unknown") count_ downgraded_
    (if truthy realized_ && negb downgraded_ then Events.NORMAL else Events.WARNING).

(** The cloud with what was recorded: the log lines ([true]: a warning) and
    [TestConfig.SPOT_PROVISION_OUTCOMES]. *)
Record state (W : Type) := State {
  world : W;
  log_lines : list (bool * outcome_event);
  SPOT_PROVISION_OUTCOMES : list outcome_event;
}.
Arguments State {W}.
Arguments world {W}.
Arguments log_lines {W}.
Arguments SPOT_PROVISION_OUTCOMES {W}.

Section Recording.
Context {W E : Type}.
Context (is_exception is_runtime_error : E → bool).
Context (has_main_device : act W E bool) (publish_or_dump : outcome_event → act W E unit).

Notation action := (act (state W) E).

Definition lift {A} (m : act W E A) : action A :=
  λ s, let '(w, r) := m (world s) in (State w (log_lines s) (SPOT_PROVISION_OUTCOMES s), r).

Definition _record (requested_ : string) (realized_ region_ az_ type_ : option string) (count_ : Z) : action unit :=
  let event := spot_provision_outcome_event requested_ realized_ region_ az_ type_ count_ in
  modify (λ s, State (world s)
    (log_lines s ++ [(downgraded event || bool_decide (realized_ = None), event)]) (SPOT_PROVISION_OUTCOMES s)) ;;;
  let! has_device := try_except is_runtime_error (lift has_main_device) (λ _, ret false) in
  if has_device : bool then lift (publish_or_dump event)
  else modify (λ s, State (world s) (log_lines s) (SPOT_PROVISION_OUTCOMES s ++ [event])).

Definition record_spot_provision_outcome (requested_ : string) (realized_ region_ az_ type_ : option string)
    (count_ : Z) : action unit :=
  try_except is_exception (_record requested_ realized_ region_ az_ type_ count_) (λ _, ret tt).

(** ** Plans *)
Record ProvisionParameters := Parameters {
  name : string;
  region_name : string;
  zone : string;
  spot : bool;
}.

Context {I : Type} (provision : ProvisionParameters → act W E (list I)).

(** [first_type] is the [InstanceType] of the first instance parameters, if it has one. *)
Definition _publish_outcome (steps : list ProvisionParameters) (requested_ : string)
    (realized_parameters : option ProvisionParameters) (first_type : option string) (node_count : Z) : action unit :=
  match (match realized_parameters with Some p => Some p | None => head steps end) with
  | None => ret tt
  | Some location =>
    record_spot_provision_outcome requested_ (name <$> realized_parameters) (Some (region_name location))
      (Some (zone location)) first_type node_count
  end.

(** The [for] loop over the steps that remain. *)
Fixpoint provision_steps (steps : list ProvisionParameters) (requested_ : string) (first_type : option string)
    (node_count : Z) (todo : list ProvisionParameters) : action (option (list I)) :=
  match todo with
  | [] => ret None
  | p :: todo' =>
    let! instances := lift (provision p) in
    match instances with
    | [] => provision_steps steps requested_ first_type node_count todo'
    | _ => _publish_outcome steps requested_ (Some p) first_type node_count ;;; ret (Some instances)
    end
  end.

Definition provision_instances (steps : list ProvisionParameters) (first_type : option string) (node_count : Z)
    : action (list I) :=
  let requested_ := match steps with p :: _ => name p | [] => "unknown" end in
  let! r := provision_steps steps requested_ first_type node_count steps in
  match r with
  | Some instances => ret instances
  | None =>
    (match steps with [] => ret tt | _ => _publish_outcome steps requested_ None first_type node_count end) ;;;
    ret []
  end.

(** ** Building a plan *)
Inductive ProvisionType := ON_DEMAND | SPOT.

Record ProvisionPlanBuilder := Builder {
  initial_provision_type : ProvisionType;
  fallback_provision_on_demand : bool;
  b_region_name : string;
  b_availability_zone : string;
}.

Definition _provision_request_on_demand (b : ProvisionPlanBuilder) : ProvisionParameters :=
  Parameters "On Demand" (b_region_name b) (b_availability_zone b) false.
Definition _provision_request_spot (b : ProvisionPlanBuilder) : ProvisionParameters :=
  Parameters "Spot" (b_region_name b) (b_availability_zone b) true.

Definition _provision_steps (b : ProvisionPlanBuilder) : list ProvisionParameters :=
  match initial_provision_type b with
  | ON_DEMAND => [_provision_request_on_demand b]
  | SPOT => [_provision_request_spot b] ++
            (if fallback_provision_on_demand b then [_provision_request_on_demand b] else [])
  end.

(** ** The fallback of clusters that create their own instances *)
Context (_create_on_demand_instances _create_spot_instances : act W E (list I)).
(** [str(ex)] when [ex] is a [CreateSpotInstancesError] or a [ClientError]. *)
Context (spot_error_text : E → option string).

Record aws_cluster := AwsCluster {
  instance_provision : string;
  instance_provision_fallback_on_demand : bool;
  azs : option string;
  region_names : list string;
  _ec2_instance_type : string;
}.

Definition check_spot_error (cl_ex : string) : bool :=
  contains "MaxSpotInstanceCountExceeded" cl_ex || contains "spotInstanceCountLimitExceeded" cl_ex ||
  contains "capacity-not-available" cl_ex || contains "price-too-low" cl_ex || contains "error" cl_ex.

Definition _publish_provision_outcome (c : aws_cluster) (requested_ : string) (realized_ : option string)
    (dc_idx az_idx : nat) (type_ : option string) (count_ : Z) : action unit :=
  let azs_ := filter (λ a, truthy a = true) (strip <$> split_on "," (or_else (azs c) EmptyString)) in
  record_spot_provision_outcome requested_ realized_
    (Some (default EmptyString (region_names c !! dc_idx)))
    (Some (default EmptyString (azs_ !! az_idx)))
    (Some (or_else type_ (_ec2_instance_type c))) count_.

Definition provision_fallbacks (c : aws_cluster) (count_ : Z) : list string :=
  (if String.eqb (lower (instance_provision c)) "spot" ||
      (String.eqb (instance_provision c) "spot_fleet" && (count_ =? 1)%Z)
   then ["spot"] else [instance_provision c]) ++
  (if instance_provision_fallback_on_demand c then ["on_demand"] else []).

Fixpoint try_types (c : aws_cluster) (dc_idx az_idx : nat) (type_ : option string) (count_ : Z)
    (fallbacks todo : list string) : action (option (list I)) :=
  match todo with
  | [] => ret None
  | t :: todo' =>
    let requested_ := default EmptyString (head fallbacks) in
    let! r := caught (lift (if String.eqb t "on_demand" then _create_on_demand_instances else _create_spot_instances)) in
    match r with
    | Ok instances =>
      _publish_provision_outcome c requested_ (Some t) dc_idx az_idx type_ count_ ;;; ret (Some instances)
    | Err ex =>
      match spot_error_text ex with
      | None => raise ex
      | Some text =>
        if bool_decide (list.last fallbacks = Some t) || negb (check_spot_error text)
        then _publish_provision_outcome c requested_ None dc_idx az_idx type_ count_ ;;; raise ex
        else try_types c dc_idx az_idx type_ count_ fallbacks todo'
      end
    end
  end.

Definition fallback_provision_type (c : aws_cluster) (dc_idx az_idx : nat) (type_ : option string) (count_ : Z)
    : action (option (list I)) :=
  let fallbacks := provision_fallbacks c count_ in
  try_types c dc_idx az_idx type_ count_ fallbacks fallbacks.
End Recording.

(** ** Recording *)
Section RecordingTheorems.
Context {W E : Type}.
Context (is_exception is_runtime_error : E → bool).
Context (has_main_device : act W E bool) (publish_or_dump : outcome_event → act W E unit).
(** What the device raises is an [Exception]. *)
Context (device_raises : ∀ w x, (has_main_device w).2 = Err x → is_exception x = true).
Context (publish_raises : ∀ e w x, (publish_or_dump e w).2 = Err x → is_exception x = true).

Notation record := (record_spot_provision_outcome is_exception is_runtime_error has_main_device publish_or_dump).

(** Recording never raises, always logs the outcome, and stashes it at most once. *)
Lemma record_spec rq rl rg az ty n s :
  ∃ w st, let e := spot_provision_outcome_event rq rl rg az ty n in
    record rq rl rg az ty n s =
      (State w (log_lines s ++ [(downgraded e || bool_decide (rl = None), e)]) (SPOT_PROVISION_OUTCOMES s ++ st), Ok tt) ∧
    (st = [] ∨ st = [e]).
Proof using Type*.
  unfold record_spot_provision_outcome, _record, try_except, bind, modify, lift, ret. cbn [world log_lines SPOT_PROVISION_OUTCOMES].
  set (e := spot_provision_outcome_event rq rl rg az ty n).
  pose proof (device_raises (world s)) as Hd. destruct (has_main_device (world s)) as [w [b|x]]; cbn [fst snd] in Hd.
  - destruct b; cbn [world log_lines SPOT_PROVISION_OUTCOMES].
    + pose proof (publish_raises e w) as Hp. destruct (publish_or_dump e w) as [w' [[]|x]]; cbn [fst snd] in Hp.
      * exists w', []. rewrite (right_id_L [] (++)). by split; [|left].
      * rewrite (Hp x eq_refl). exists w', []. rewrite (right_id_L [] (++)). by split; [|left].
    + exists w, [e]. by split; [|right].
  - destruct (is_runtime_error x); cbn [world log_lines SPOT_PROVISION_OUTCOMES].
    + exists w, [e]. by split; [|right].
    + rewrite (Hd x eq_refl). exists w, []. rewrite (right_id_L [] (++)). by split; [|left].
Qed.

(** ** Plans: the first step that creates anything *)
Context {I : Type} (provision : ProvisionParameters → act W E (list I)).

Notation publish := (_publish_outcome is_exception is_runtime_error has_main_device publish_or_dump).
Notation run_plan := (provision_instances is_exception is_runtime_error has_main_device publish_or_dump provision).

(** The steps [ps] were tried in order and none created an instance. *)
Fixpoint refused_all (ps : list ProvisionParameters) (w w' : W) : Prop :=
  match ps with
  | [] => w' = w
  | p :: ps' => ∃ w1, provision p w = (w1, Ok []) ∧ refused_all ps' w1 w'
  end.

Definition set_world (w : W) (s : state W) : state W := State w (log_lines s) (SPOT_PROVISION_OUTCOMES s).

Lemma provision_steps_spec steps rq ty n todo s r :
  provision_steps is_exception is_runtime_error has_main_device publish_or_dump provision steps rq ty n todo s = r →
  ∃ pre w1, refused_all pre (world s) w1 ∧
    (todo = pre ∧ r = (set_world w1 s, Ok None) ∨
     ∃ p post, todo = pre ++ p :: post ∧
       match provision p w1 with
       | (w2, Err x) => r = (set_world w2 s, Err x)
       | (w2, Ok l) => l ≠ [] ∧ r = (publish steps rq (Some p) ty n ;;; ret (Some l)) (set_world w2 s)
       end).
Proof using Type*.
  revert s. induction todo as [|p todo IH]; intros s; cbn [provision_steps].
  { intros <-. exists [], (world s). split; [done|]. left. split; [done|]. by destruct s. }
  unfold bind at 1, lift. destruct (provision p (world s)) as [w2 [l|x]] eqn:Ep.
  - destruct l as [|i l].
    + intros Hs. destruct (IH (set_world w2 s) Hs) as (pre & w1 & Hr & H). exists (p :: pre), w1.
      split; [by exists w2|]. destruct H as [[-> H]|(q & post & -> & H)]; [by left|right]. by exists q, post.
    + intros <-. exists [], (world s). split; [done|]. right. exists p, todo. by rewrite Ep.
  - intros <-. exists [], (world s). split; [done|]. right. exists p, todo. by rewrite Ep.
Qed.

(** What is in the log after a realised step, or after none. *)
Definition outcome_logged (steps : list ProvisionParameters) (p : option ProvisionParameters) (s s' : state W) : Prop :=
  ∃ e, log_lines s' = log_lines s ++ [(downgraded e || bool_decide (p = None), e)] ∧
    requested e = default "unknown" (name <$> head steps) ∧ realized e = or_else (name <$> p) "none" ∧
    downgraded e = (truthy (name <$> p) && negb (bool_decide (name <$> p = name <$> head steps))) ∧
    (severity e = Events.NORMAL ↔ truthy (name <$> p) = true ∧ downgraded e = false).

Lemma publish_logged steps p ty n s q :
  head steps = Some q →
  ∃ w st, publish steps (name q) p ty n s = (State w (log_lines (publish steps (name q) p ty n s).1) st, Ok tt) ∧
    outcome_logged steps p s (publish steps (name q) p ty n s).1.
Proof using Type*.
  intros Hq. unfold _publish_outcome.
  assert (∃ loc, match p with Some p => Some p | None => head steps end = Some loc) as [loc ->].
  { destruct p; [by eexists|]. by exists q. }
  destruct (record_spec (name q) (name <$> p) (Some (region_name loc)) (Some (zone loc)) ty n s) as (w & st & Hr & _).
  rewrite Hr. eexists _, _. split; [done|]. eexists. rewrite Hq. cbn [fst log_lines]. split_and!.
  - by destruct p.
  - done.
  - done.
  - done.
  - cbn [spot_provision_outcome_event severity downgraded].
    destruct (truthy (name <$> p)), (bool_decide (name <$> p = Some (name q))); simpl; naive_solver.
Qed.

(** A plan runs its steps in order up to the first that creates an instance: earlier steps
    created none; its instances are the result and the outcome is logged, once; when none
    creates anything the result is empty and that is logged; an exception of a step ends
    the plan, and nothing is logged. *)
Lemma plan_first_success steps ty n s q :
  head steps = Some q →
  let '(s', r) := run_plan steps ty n s in
  ∃ pre w1, refused_all pre (world s) w1 ∧
    (steps = pre ∧ r = Ok [] ∧ outcome_logged steps None s s' ∨
     ∃ p post, steps = pre ++ p :: post ∧
       ((∃ x, (provision p w1).2 = Err x ∧ r = Err x ∧ log_lines s' = log_lines s) ∨
        (∃ l, l ≠ [] ∧ (provision p w1).2 = Ok l ∧ r = Ok l ∧ outcome_logged steps (Some p) s s'))).
Proof using Type*.
  intros Hq. unfold provision_instances. destruct steps as [|q' steps']; [done|]. injection Hq as ->.
  set (steps := q :: steps') in *. assert (head steps = Some q) as Hq by done.
  destruct (provision_steps_spec steps (name q) ty n steps s _ eq_refl) as (pre & w1 & Hr & H). unfold bind at 1.
  destruct H as [[Hpre Hs]|(p & post & Hsteps & H)].
  - rewrite Hs. unfold bind. destruct (publish_logged steps None ty n (set_world w1 s) q Hq) as (w & st & Hp & Ho).
    rewrite Hp in Ho |- *. exists pre, w1. split; [done|]. left. done.
  - destruct (provision p w1) as [w2 [l|x]] eqn:Ep.
    + destruct H as [Hl Hs]. rewrite Hs. unfold bind.
      destruct (publish_logged steps (Some p) ty n (set_world w2 s) q Hq) as (w & st & Hp & Ho).
      rewrite Hp in Ho |- *. exists pre, w1. split; [done|]. right. exists p, post. split; [done|]. right.
      exists l. by rewrite Ep.
    + rewrite H. exists pre, w1. split; [done|]. right. exists p, post. split; [done|]. left. exists x. by rewrite Ep.
Qed.

(** A spot request is never billed on demand unnoticed. Whatever the cloud answers, the
    plan built for a test records its outcome exactly once unless a step raised: when
    instances were created, the log says by which step, and warns exactly when a spot
    request was met with on-demand instances; that happens only if the test allows the
    fallback and the spot step was tried first and created nothing; when nothing was
    created the log says that too. *)
Theorem plan_downgrade_visible b ty n s :
  let '(s', r) := run_plan (_provision_steps b) ty n s in
  match r with
  | Err _ => log_lines s' = log_lines s
  | Ok [] => outcome_logged (_provision_steps b) None s s'
  | Ok l => ∃ p w1 e, p ∈ _provision_steps b ∧ (provision p w1).2 = Ok l ∧
      log_lines s' = log_lines s ++ [(downgraded e, e)] ∧ realized e = name p ∧
      (severity e = Events.NORMAL ↔ downgraded e = false) ∧
      (downgraded e = true ↔ initial_provision_type b = SPOT ∧ spot p = false) ∧
      (downgraded e = true → fallback_provision_on_demand b = true ∧
         provision (_provision_request_spot b) (world s) = (w1, Ok []))
  end.
Proof using Type*.
  assert (∃ q, head (_provision_steps b) = Some q) as [q Hq].
  { unfold _provision_steps. destruct (initial_provision_type b); by eexists. }
  pose proof (plan_first_success (_provision_steps b) ty n s q Hq) as H.
  destruct (run_plan _ ty n s) as [s' r]. destruct H as (pre & w1 & Href & H).
  destruct H as [(_ & -> & Ho)|(p & post & Hsteps & [(x & _ & -> & Hl)|(l & Hne & Hp & -> & Ho)])]; [done|done|].
  destruct l as [|i l]; [done|]. destruct Ho as (e & Hlog & _ & Hrl & Hdg & Hsev).
  rewrite bool_decide_eq_false_2, orb_false_r in Hlog by done.
  exists p, w1, e. rewrite Hsteps at 1. split; [apply elem_of_app; right; by left|].
  split; [done|]. split; [done|]. clear Hq. unfold _provision_steps in *.
  destruct (initial_provision_type b), (fallback_provision_on_demand b); simpl in *;
    destruct pre as [|p1 [|p2 pre]]; simpl in Hsteps; simplify_eq; simpl in *;
    try (rewrite Hdg in *; split_and!; [done|naive_solver..]).
  all: try (destruct pre; discriminate).
  all: destruct Href as (w2 & Hw & ->); rewrite Hdg in *; split_and!; [done|naive_solver..].
Qed.

(** ** The fallback of a cluster *)
Section ClusterFallback.
Context (create_on_demand create_spot : act W E (list I)) (spot_error_text : E → option string).
Notation fallback := (fallback_provision_type is_exception is_runtime_error has_main_device publish_or_dump
  create_on_demand create_spot spot_error_text).
Notation create t := (if String.eqb t "on_demand" then create_on_demand else create_spot).

Notation tries := (try_types is_exception is_runtime_error has_main_device publish_or_dump
  create_on_demand create_spot spot_error_text).

(** The log after a type was realised, or after none. *)
Definition type_logged (t0 : string) (rl : option string) (s s' : state W) : Prop :=
  ∃ e, log_lines s' = log_lines s ++ [(downgraded e || bool_decide (rl = None), e)] ∧
    requested e = t0 ∧ realized e = or_else rl "none" ∧
    downgraded e = truthy rl && negb (bool_decide (rl = Some t0)).

Lemma publish_provision_logged c rq rl dc az ty n s :
  ∃ s', _publish_provision_outcome is_exception is_runtime_error has_main_device publish_or_dump
          c rq rl dc az ty n s = (s', Ok tt) ∧ type_logged rq rl s s'.
Proof using device_raises publish_raises.
  unfold _publish_provision_outcome.
  match goal with |- context [record ?a ?b ?g ?z ?t ?k s] =>
    destruct (record_spec a b g z t k s) as (w & st & -> & _) end. eexists. split; [done|]. by eexists.
Qed.

(** One type tried. *)
Lemma try_type c dc az ty n fb t0 t todo s r :
  head fb = Some t0 → tries c dc az ty n fb (t :: todo) s = r →
  match create t (world s) with
  | (w1, Ok l) => ∃ s', r = (s', Ok (Some l)) ∧ type_logged t0 (Some t) s s'
  | (w1, Err x) =>
    match spot_error_text x with
    | None => r = (set_world w1 s, Err x)
    | Some text =>
      if bool_decide (list.last fb = Some t) || negb (check_spot_error text)
      then ∃ s', r = (s', Err x) ∧ type_logged t0 None s s'
      else r = tries c dc az ty n fb todo (set_world w1 s)
    end
  end.
Proof using device_raises publish_raises.
  intros Hh. cbn [try_types]. rewrite Hh. change (default EmptyString (Some t0)) with t0.
  unfold bind at 1, caught, lift. destruct (create t (world s)) as [w1 [l|x]]; cbn iota.
  - intros <-. destruct (publish_provision_logged c t0 (Some t) dc az ty n (set_world w1 s)) as (s' & Hp & Hl).
    exists s'. split; [|done]. unfold set_world in Hp. unfold bind. by rewrite Hp.
  - destruct (spot_error_text x) as [text|]; [|done]. destruct (_ || _); [|done]. intros <-.
    destruct (publish_provision_logged c t0 None dc az ty n (set_world w1 s)) as (s' & Hp & Hl).
    exists s'. split; [|done]. unfold set_world in Hp. unfold bind. by rewrite Hp.
Qed.

Lemma provision_fallbacks_rest c n t0 rest :
  provision_fallbacks c n = t0 :: rest →
  rest = [] ∨ rest = ["on_demand"] ∧ instance_provision_fallback_on_demand c = true.
Proof.
  unfold provision_fallbacks. destruct (_ || _), (instance_provision_fallback_on_demand c); simpl;
    intros; simplify_eq; eauto.
Qed.

(** The in-test fallback tells what it did: it returns the instances of the first type
    tried or, only if the test allows it and after an error of the first type that reads like
    a spot error, of the on-demand type, and then the log warns of the downgrade; when it
    gives up on an AWS error the failure is logged; other exceptions pass unlogged. *)
Theorem cluster_fallback_logged c dc az ty n s t0 rest :
  provision_fallbacks c n = t0 :: rest → t0 ≠ EmptyString →
  let '(s', r) := fallback c dc az ty n s in
  match r with
  | Ok None => False
  | Ok (Some l) => ∃ t e, log_lines s' = log_lines s ++ [(downgraded e, e)] ∧ realized e = t ∧ requested e = t0 ∧
      (downgraded e = true ↔ t ≠ t0) ∧
      (t = t0 ∧ (create t0 (world s)).2 = Ok l ∨
       t = "on_demand" ∧ instance_provision_fallback_on_demand c = true ∧
       ∃ w1 x text, create t0 (world s) = (w1, Err x) ∧ spot_error_text x = Some text ∧
         check_spot_error text = true ∧ (create_on_demand w1).2 = Ok l)
  | Err x => match spot_error_text x with
             | None => log_lines s' = log_lines s
             | Some _ => ∃ e, log_lines s' = log_lines s ++ [(true, e)] ∧ realized e = "none" ∧ requested e = t0
             end
  end.
Proof using device_raises publish_raises.
  intros Hf Ht. unfold fallback_provision_type. rewrite Hf.
  pose proof (try_type c dc az ty n (t0 :: rest) t0 t0 rest s _ eq_refl eq_refl) as H.
  destruct (create t0 (world s)) as [w1 [l|x]] eqn:E0.
  { destruct H as (s' & -> & e & Hl & Hq & Hz & Hd). exists t0, e. destruct t0 as [|ch t0]; [done|].
    rewrite bool_decide_eq_true_2 in Hd by done. rewrite bool_decide_eq_false_2, orb_false_r in Hl by done.
    split_and!; [done|done|done|rewrite Hd; naive_solver|by left]. }
  destruct (spot_error_text x) as [text|] eqn:Ex; [|by rewrite H, Ex].
  destruct (_ || _) eqn:Eb.
  { destruct H as (s' & -> & e & Hl & Hq & Hz & Hd). rewrite Ex. rewrite bool_decide_eq_true_2, orb_true_r in Hl by done.
    by exists e. }
  apply orb_false_iff in Eb as [Hlast Hc]. apply bool_decide_eq_false in Hlast. apply negb_false_iff in Hc.
  rewrite H. destruct (provision_fallbacks_rest c n t0 rest Hf) as [->|[-> Hfl]]; [done|].
  pose proof (try_type c dc az ty n [t0; "on_demand"] t0 "on_demand" [] (set_world w1 s) _ eq_refl eq_refl) as H2.
  rewrite String.eqb_refl in H2. cbn [world set_world] in H2. destruct (create_on_demand w1) as [w2 [l|y]] eqn:E1.
  - destruct H2 as (s' & -> & e & Hl & Hq & Hz & Hd). exists "on_demand", e.
    rewrite bool_decide_eq_false_2, orb_false_r in Hl by done. split_and!; [done|done|done| |].
    + rewrite Hd. simpl. rewrite negb_true_iff, bool_decide_eq_false. split; congruence.
    + right. split_and!; [done|done|]. exists w1, x, text. by rewrite E1.
  - destruct (spot_error_text y) as [text'|] eqn:Ey; [|by rewrite H2, Ey].
    rewrite bool_decide_eq_true_2 in H2 by done. destruct H2 as (s' & -> & e & Hl & Hq & Hz & Hd).
    rewrite Ey. rewrite bool_decide_eq_true_2, orb_true_r in Hl by done. by exists e.
Qed.
End ClusterFallback.
End RecordingTheorems.

(** The test for spot errors takes every error of an EC2 call for one: botocore's
    [ClientError] says "An error occurred (...)", and [SPOT_STATUS_UNEXPECTED_ERROR] is the
    word "error". *)
Theorem every_client_error_is_a_spot_error code text :
  check_spot_error ("An error occurred (" +:+ code +:+ ") when calling the " +:+ text) = true.
Proof.
  unfold check_spot_error. apply orb_true_iff. right.
  change ("An error occurred (" +:+ code +:+ ") when calling the " +:+ text)
    with ("An " +:+ "error" +:+ (" occurred (" +:+ code +:+ ") when calling the " +:+ text)).
  apply contains_app.
Qed.

(** ** A cloud without spot capacity *)
Definition ex_provision (p : ProvisionParameters) : act nat string (list nat) :=
  λ w, (S w, Ok (if spot p then [] else [w])).
Definition ex_device : act nat string bool := ret false.
Definition ex_publish (e : outcome_event) : act nat string unit := ret tt.
Definition ex_builder : ProvisionPlanBuilder := Builder SPOT true "eu-west-1" "a".
Definition ex_plan (s : state nat) : state nat * outcome string (list nat) :=
  provision_instances (λ _, true) (λ _, true) ex_device ex_publish ex_provision (_provision_steps ex_builder)
    (Some "i4i.large") 1 s.

Lemma plan_downgrade_visible_witness :
  (ex_plan (State 0 [] [])).2 = Ok [1] ∧
  ∃ p w1 e, p ∈ _provision_steps ex_builder ∧ (ex_provision p w1).2 = Ok [1] ∧
    log_lines (ex_plan (State 0 [] [])).1 = [(true, e)] ∧ downgraded e = true ∧
    ex_provision (_provision_request_spot ex_builder) 0 = (w1, Ok []).
Proof.
  split; [by vm_compute|].
  pose proof (plan_downgrade_visible (λ _, true) (λ _, true) ex_device ex_publish
    (λ w x H, eq_refl) (λ e w x H, eq_refl) ex_provision ex_builder (Some "i4i.large") 1 (State 0 [] [])) as H.
  fold (ex_plan (State 0 [] [])) in H.
  destruct (ex_plan (State 0 [] [])) as [s' r] eqn:E. vm_compute in E. injection E as <- <-.
  destruct H as (p & w1 & e & Hp & Hw & Hl & Hz & Hs & Hd & Hf). exists p, w1, e.
  injection Hl as Hd' He. rewrite Hd' in Hf. split_and!; [done|done| |by rewrite <-Hd'|by apply Hf].
  cbn [log_lines fst]. by rewrite He.
Defined.

Definition ex_spot : act nat string (list nat) := raise "An error occurred (InsufficientInstanceCapacity)".
Definition ex_on_demand : act nat string (list nat) := ret [7].
Definition ex_aws_cluster : aws_cluster := AwsCluster "spot" true (Some "a,b") ["eu-west-1"] "i4i.large".
Definition ex_fallback (s : state nat) : state nat * outcome string (option (list nat)) :=
  fallback_provision_type (λ _, true) (λ _, true) ex_device ex_publish ex_on_demand ex_spot Some
    ex_aws_cluster 0 0 None 1 s.

Lemma cluster_fallback_logged_witness :
  (ex_fallback (State 0 [] [])).2 = Ok (Some [7]) ∧
  ∃ e, log_lines (ex_fallback (State 0 [] [])).1 = [(downgraded e, e)] ∧ requested e = "spot".
Proof.
  split; [by vm_compute|].
  pose proof (cluster_fallback_logged (λ _, true) (λ _, true) ex_device ex_publish
    (λ w x H, eq_refl) (λ e w x H, eq_refl) ex_on_demand ex_spot Some ex_aws_cluster 0 0 None 1
    (State 0 [] []) "spot" ["on_demand"] eq_refl ltac:(done)) as H.
  fold (ex_fallback (State 0 [] [])) in H.
  destruct (ex_fallback (State 0 [] [])) as [s' r] eqn:E. vm_compute in E. injection E as <- <-.
  destruct H as (t & e & Hl & _ & Hq & _). by exists e.
Defined.
End ProvisionPlan.
