(* ===== verification/NodeAllocator.v ===== *)
(** * Nemesis node allocator

    Model of [sdcm/nemesis/utils/node_allocator.py]: the singleton that records
    which nemesis runs on which database node, hands out target nodes and takes
    them back.  Every public method of the source runs under one lock, so a
    method is one atomic function on the allocator's state here and threads are
    sequences of such operations.

    A node object is its identity ([node]); its attributes are read through the
    tester.  [running_nemesis] is the attribute of the same name that the
    allocator writes on the node objects themselves (absent key: [None]).
    [TestFrameworkEvent(...).publish()] calls are recorded in [published]. *)
From stdpp Require Import base decidable option strings numbers gmap sets list.
From S2P Require Import Prelude.

Module NodeAllocator.

Abbreviation node := nat (only parsing).

(** ** Data *)
Inductive NEMESIS_TARGET_POOLS : Type := data_nodes | zero_nodes | all_nodes.

(** The parameter is annotated [Enum]: any other enumeration member ends in the
    [case _] branch. *)
Inductive pool_arg : Type :=
  | Pool (p : NEMESIS_TARGET_POOLS)
  | OtherEnum.

(** [is_seed: bool | DefaultValue | None]. *)
Inductive seed_arg : Type :=
  | DefaultValue
  | SeedNone
  | SeedIs (b : bool).

Record node_attrs := NodeAttrs {
  name : string;
  is_seed : bool;
  dc_idx : Z;
  rack : Z;
  is_zero_token_node : bool;
}.

Record tester := Tester {
  all_db_nodes : list node;
  attrs : node → node_attrs;
}.

Inductive exn : Type :=
  | UnsupportedPoolType
  | AllNodesRunNemesisError
  | NoNodeMatchesCriteriaError
  | NodeSwitchingFailed
  | NodeAlreadyReserved (n : node)
  | IndexError
  | BodyError (msg : string).

(** Subclasses (and direct raises) of [NemesisNodeAllocationError]. *)
Definition is_NemesisNodeAllocationError (e : exn) : bool :=
  match e with
  | UnsupportedPoolType | AllNodesRunNemesisError | NoNodeMatchesCriteriaError
  | NodeSwitchingFailed | NodeAlreadyReserved _ => true
  | IndexError | BodyError _ => false
  end.

(** The ERROR events the allocator publishes. *)
Inductive error_event : Type :=
  | SettingFailed (nemesis : string) (n : node) (owner : string)
  | UnsetOtherOwner (nemesis : string) (n : node) (owner : string)
  | UnsetNotRunning (nemesis : string) (n : node)
  | SwitchOldOtherOwner (nemesis : string) (n : node) (owner : string).

Record allocator := Allocator {
  _tester : tester;
  active_nemesis_on_nodes : gmap node string;
  running_nemesis : gmap node string;
  published : list error_event;
}.

Definition mark (st : allocator) (n : node) (nemesis_name : string) : allocator :=
  {| _tester := _tester st;
     active_nemesis_on_nodes := <[n := nemesis_name]> (active_nemesis_on_nodes st);
     running_nemesis := <[n := nemesis_name]> (running_nemesis st);
     published := published st |}.

Definition release (st : allocator) (n : node) : allocator :=
  {| _tester := _tester st;
     active_nemesis_on_nodes := delete n (active_nemesis_on_nodes st);
     running_nemesis := delete n (running_nemesis st);
     published := published st |}.

Definition publish (st : allocator) (e : error_event) : allocator :=
  {| _tester := _tester st;
     active_nemesis_on_nodes := active_nemesis_on_nodes st;
     running_nemesis := running_nemesis st;
     published := published st ++ [e] |}.

(** ** Operations *)
Definition _get_pool_type_nodes (st : allocator) (pool_type : pool_arg) : outcome exn (list node) :=
  let nodes := all_db_nodes (_tester st) in
  let zero n := is_zero_token_node (attrs (_tester st) n) in
  match pool_type with
  | Pool all_nodes => Ok nodes
  | Pool zero_nodes => Ok (filter (λ n, zero n = true) nodes)
  | Pool data_nodes => Ok (filter (λ n, zero n = false) nodes)
  | OtherEnum => Err UnsupportedPoolType
  end.

Definition _filter_nodes (t : tester) (nodes_to_filter : list node)
    (is_seed_ : seed_arg) (dc_idx_ : option Z) (rack_ : option Z) (filter_seed : bool) : list node :=
  let seed : option bool :=
    match is_seed_ with
    | DefaultValue => if filter_seed then Some false else None
    | SeedNone => None
    | SeedIs b => Some b
    end in
  let filtered := nodes_to_filter in
  let filtered := match seed with
                  | Some b => filter (λ n, is_seed (attrs t n) = b) filtered
                  | None => filtered
                  end in
  let filtered := match dc_idx_ with
                  | Some d => filter (λ n, dc_idx (attrs t n) = d) filtered
                  | None => filtered
                  end in
  match rack_ with
  | Some r => filter (λ n, rack (attrs t n) = r) filtered
  | None => filtered
  end.

(** [random.choice]: the random number is an explicit argument; an empty list
    raises [IndexError]. *)
Definition random_choice {A} (rnd : nat) (l : list A) : outcome exn A :=
  match l !! (rnd mod length l) with
  | Some a => Ok a
  | None => Err IndexError
  end.

(** [l[-1]]. *)
Definition last_item {A} (l : list A) : outcome exn A :=
  match list.last l with
  | Some a => Ok a
  | None => Err IndexError
  end.

Record selection := Selection {
  sel_pool : pool_arg;
  sel_filter_seed : bool;
  sel_is_seed : seed_arg;
  sel_dc_idx : option Z;
  sel_rack : option Z;
  sel_allow_only_last_node_in_rack : bool;
  sel_node_list : option (list node);
}.

Section Ops.
(** [list(s)] of a Python set [s]: its elements in an unspecified order. *)
Context (set_iter : gset node → list node).

(** The nodes of the pool that run no nemesis and, when a non-empty [node_list]
    is given, are in it. *)
Definition available_for_selection (st : allocator) (nodes : list node)
    (node_list : option (list node)) : list node :=
  let available := filter (λ n, active_nemesis_on_nodes st !! n = None) nodes in
  match node_list with
  | Some (x :: l) => set_iter (list_to_set available ∩ list_to_set (x :: l))
  | _ => available
  end.

Definition select_target_node (rnd : nat) (nemesis_name : string) (s : selection)
    (st : allocator) : outcome exn node * allocator :=
  match _get_pool_type_nodes st (sel_pool s) with
  | Err e => (Err e, st)
  | Ok nodes =>
    let available := available_for_selection st nodes (sel_node_list s) in
    match available with
    | [] => (Err AllNodesRunNemesisError, st)
    | _ =>
      let candidate_nodes :=
        _filter_nodes (_tester st) available (sel_is_seed s) (sel_dc_idx s) (sel_rack s)
          (sel_filter_seed s) in
      match candidate_nodes with
      | [] => (Err NoNodeMatchesCriteriaError, st)
      | _ =>
        let selected :=
          if sel_allow_only_last_node_in_rack s && bool_decide (sel_rack s ≠ None)
          then last_item candidate_nodes
          else random_choice rnd candidate_nodes in
        match selected with
        | Err e => (Err e, st)
        | Ok n => (Ok n, mark st n nemesis_name)
        end
      end
    end
  end.

Definition set_running_nemesis (n : node) (nemesis_name : string) (st : allocator)
    : bool * allocator :=
  match active_nemesis_on_nodes st !! n with
  | Some owner => (false, publish st (SettingFailed nemesis_name n owner))
  | None => (true, mark st n nemesis_name)
  end.

Definition unset_running_nemesis (n : node) (nemesis_name : string) (st : allocator) : allocator :=
  match active_nemesis_on_nodes st !! n with
  | Some owner =>
    if String.eqb owner nemesis_name then release st n
    else publish st (UnsetOtherOwner nemesis_name n owner)
  | None => publish st (UnsetNotRunning nemesis_name n)
  end.

Definition unset_running_nemesis_from_all_nodes (nemesis_name : string) (st : allocator)
    : allocator :=
  let nodes_to_release :=
    (filter (λ p : node * string, p.2 = nemesis_name)
       (map_to_list (active_nemesis_on_nodes st))).*1 in
  foldl release st nodes_to_release.

(** [old_node] may be [None] (the runner has no target yet). *)
Definition switch_target_node (old_node : option node) (new_node : node) (nemesis_name : string)
    (st : allocator) : outcome exn bool * allocator :=
  if bool_decide (old_node = Some new_node) then (Ok true, st)
  else
    match active_nemesis_on_nodes st !! new_node with
    | Some _ => (Err NodeSwitchingFailed, st)
    | None =>
      let st1 :=
        match old_node with
        | Some o =>
          match active_nemesis_on_nodes st !! o with
          | Some owner =>
            if String.eqb owner nemesis_name then release st o
            else publish st (SwitchOldOtherOwner nemesis_name o owner)
          | None => st
          end
        | None => st
        end in
      (Ok true, mark st1 new_node nemesis_name)
    end.

(** ** Context managers

    The body of the [with] statement is an arbitrary computation on the
    allocator's state; [finally] runs on its normal and exceptional ends. *)
Definition run_nemesis {A} (rnd : nat) (unique_label : string) (node_list : option (list node))
    (pool_type : pool_arg) (filter_seed : bool)
    (body : node → allocator → outcome exn A * allocator) (st : allocator)
    : outcome exn A * allocator :=
  match select_target_node rnd unique_label
          (Selection pool_type filter_seed DefaultValue None None false node_list) st with
  | (Err e, st1) => (Err e, st1)
  | (Ok reserved_node, st1) =>
    let '(r, st2) := body reserved_node st1 in
    (r, unset_running_nemesis reserved_node unique_label st2)
  end.

Definition unset_each (nodes : list node) (nemesis_name : string) (st : allocator) : allocator :=
  foldl (λ st n, unset_running_nemesis n nemesis_name st) st nodes.

(** The marking loop of [nodes_running_nemesis]; [marked] is [marked_nodes]. *)
Fixpoint mark_nodes (nodes : list node) (nemesis_name : string) (marked : list node)
    (st : allocator) : outcome exn (list node) * allocator :=
  match nodes with
  | [] => (Ok marked, st)
  | n :: nodes' =>
    match set_running_nemesis n nemesis_name st with
    | (true, st1) => mark_nodes nodes' nemesis_name (marked ++ [n]) st1
    | (false, st1) => (Err (NodeAlreadyReserved n), unset_each marked nemesis_name st1)
    end
  end.

Definition nodes_running_nemesis {A} (nodes : list node) (nemesis_name : string)
    (body : allocator → outcome exn A * allocator) (st : allocator) : outcome exn A * allocator :=
  match mark_nodes nodes nemesis_name [] st with
  | (Err e, st1) => (Err e, st1)
  | (Ok marked, st1) =>
    let '(r, st2) := body st1 in
    (r, unset_each marked nemesis_name st2)
  end.

(** [add_nodes] wrapped by the decorator: [add] is the wrapped method,
    [has_allocator] whether the tester has an allocator. *)
Definition mark_new_nodes_as_running_nemesis (add : allocator → list node * allocator)
    (has_allocator : bool) (disruption_name : option string) (st : allocator)
    : list node * allocator :=
  let '(new_nodes, st1) := add st in
  match disruption_name with
  | Some d =>
    if truthy new_nodes && has_allocator && truthy d
    then (new_nodes, foldl (λ s n, (set_running_nemesis n d s).2) st1 new_nodes)
    else (new_nodes, st1)
  | None => (new_nodes, st1)
  end.
End Ops.


(** ** Specification vocabulary *)

(** The dictionary of the allocator and the attribute on the nodes agree. *)
Definition consistent (st : allocator) : Prop :=
  active_nemesis_on_nodes st = running_nemesis st.

Definition init (t : tester) : allocator := Allocator t ∅ ∅ [].

(** What a caller asks of a target, read off the parameters' documentation. *)
Definition seed_wanted (s : selection) : option bool :=
  match sel_is_seed s with
  | SeedIs b => Some b
  | SeedNone => None
  | DefaultValue => if sel_filter_seed s then Some false else None
  end.

Definition meets_criteria (t : tester) (s : selection) (n : node) : Prop :=
  (∀ b, seed_wanted s = Some b → is_seed (attrs t n) = b) ∧
  (∀ d, sel_dc_idx s = Some d → dc_idx (attrs t n) = d) ∧
  (∀ r, sel_rack s = Some r → rack (attrs t n) = r).

Definition in_node_list (s : selection) (n : node) : Prop :=
  match sel_node_list s with
  | Some (x :: l) => n ∈ x :: l
  | _ => True
  end.

Definition free_for (st : allocator) (s : selection) (nodes : list node) (n : node) : Prop :=
  n ∈ nodes ∧ active_nemesis_on_nodes st !! n = None ∧ in_node_list s n.

(** The locked operations, as the steps threads interleave. *)
Inductive op : Type :=
  | OpSelect (rnd : nat) (nemesis : string) (s : selection)
  | OpSet (n : node) (nemesis : string)
  | OpUnset (n : node) (nemesis : string)
  | OpUnsetAll (nemesis : string)
  | OpSwitch (old : option node) (new : node) (nemesis : string).

Definition op_nemesis (o : op) : string :=
  match o with
  | OpSelect _ nm _ | OpSet _ nm | OpUnset _ nm | OpUnsetAll nm | OpSwitch _ _ nm => nm
  end.

Definition run_op (set_iter : gset node → list node) (o : op) (st : allocator) : allocator :=
  match o with
  | OpSelect rnd nm s => (select_target_node set_iter rnd nm s st).2
  | OpSet n nm => (set_running_nemesis n nm st).2
  | OpUnset n nm => unset_running_nemesis n nm st
  | OpUnsetAll nm => unset_running_nemesis_from_all_nodes nm st
  | OpSwitch old new nm => (switch_target_node old new nm st).2
  end.

Inductive step (set_iter : gset node → list node) : allocator → allocator → Prop :=
  | step_op o st : step set_iter st (run_op set_iter o st).

Definition run_ops (set_iter : gset node → list node) (os : list op) (st : allocator) : allocator :=
  foldl (λ st o, run_op set_iter o st) st os.

(** The allocator's contract: a table of locks on nodes. A nemesis takes a node nobody holds,
    and gives back a node it holds. *)
Inductive lock_step (nemesis : string) : gmap node string → gmap node string → Prop :=
  | lock_acquire n locks : locks !! n = None → lock_step nemesis locks (<[n := nemesis]> locks)
  | lock_release n locks : locks !! n = Some nemesis → lock_step nemesis locks (delete n locks).

(** The lock table a state of the allocator implements: both its dictionary and the attributes
    of the node objects hold it. *)
Definition implements (st : allocator) (locks : gmap node string) : Prop :=
  active_nemesis_on_nodes st = locks ∧ running_nemesis st = locks.

(** ** Lemmas *)
Lemma mark_consistent st n nm : consistent st → consistent (mark st n nm).
Proof. unfold consistent; simpl. congruence. Qed.
Lemma release_consistent st n : consistent st → consistent (release st n).
Proof. unfold consistent; simpl. congruence. Qed.
Lemma publish_consistent st e : consistent st → consistent (publish st e).
Proof. done. Qed.

Create HintDb alloc.
#[export] Hint Resolve mark_consistent release_consistent publish_consistent : alloc.

Lemma foldl_release_active ns st n :
  active_nemesis_on_nodes (foldl release st ns) !! n =
  if decide (n ∈ ns) then None else active_nemesis_on_nodes st !! n.
Proof.
  revert st. induction ns as [|m ns IH]; intros st; cbn [foldl].
  - by rewrite decide_False by set_solver.
  - rewrite IH; cbn [release active_nemesis_on_nodes]. destruct (decide (n = m)) as [->|Hne].
    + rewrite (decide_True (P:=m ∈ m :: ns)) by set_solver.
      case_decide; [done|]. apply lookup_delete_eq.
    + rewrite lookup_delete_ne by done. repeat case_decide; set_solver.
Qed.

Lemma foldl_release_consistent ns st : consistent st → consistent (foldl release st ns).
Proof. revert st. induction ns; simpl; auto with alloc. Qed.

Lemma filter_nodes_spec t l s n :
  n ∈ _filter_nodes t l (sel_is_seed s) (sel_dc_idx s) (sel_rack s) (sel_filter_seed s) ↔
  n ∈ l ∧ meets_criteria t s n.
Proof.
  unfold _filter_nodes, meets_criteria, seed_wanted.
  destruct (sel_is_seed s), (sel_dc_idx s), (sel_rack s), (sel_filter_seed s);
    rewrite ?list_elem_of_filter; naive_solver.
Qed.

Lemma random_choice_elem {A} rnd (l : list A) a : random_choice rnd l = Ok a → a ∈ l.
Proof.
  unfold random_choice. case_match eqn:E; [|done]. intros [= ->].
  by apply list_elem_of_lookup_2 in E.
Qed.

Lemma random_choice_total {A} rnd (l : list A) : l ≠ [] → ∃ a, random_choice rnd l = Ok a.
Proof.
  intros Hl. unfold random_choice.
  destruct (lookup_lt_is_Some_2 l (rnd mod length l)) as [a ->]; [|by eauto].
  apply Nat.mod_upper_bound. by destruct l.
Qed.

Lemma last_item_elem {A} (l : list A) a : last_item l = Ok a → a ∈ l.
Proof.
  unfold last_item. case_match eqn:E; [|done]. intros [= ->].
  apply last_Some in E as [l' ->]. set_solver.
Qed.

Lemma last_item_total {A} (l : list A) : l ≠ [] → ∃ a, last_item l = Ok a.
Proof.
  intros Hl. unfold last_item. destruct (list.last l) eqn:E; [by eauto|].
  by apply last_None in E.
Qed.

Lemma pick_elem {A} (b : bool) rnd (l : list A) :
  l ≠ [] → ∃ n, (if b then last_item l else random_choice rnd l) = Ok n ∧ n ∈ l.
Proof.
  intros Hl. destruct b.
  - destruct (last_item_total l Hl) as [n Hn]; eauto using last_item_elem.
  - destruct (random_choice_total rnd l Hl) as [n Hn]; eauto using random_choice_elem.
Qed.

Section Facts.
Context (set_iter : gset node → list node).
Hypothesis set_iter_elem : ∀ X n, n ∈ set_iter X ↔ n ∈ X.

Lemma available_spec st nodes s n :
  n ∈ available_for_selection set_iter st nodes (sel_node_list s) ↔ free_for st s nodes n.
Proof using set_iter_elem.
  unfold available_for_selection, free_for, in_node_list.
  destruct (sel_node_list s) as [[|x l]|].
  - rewrite list_elem_of_filter. naive_solver.
  - rewrite set_iter_elem, elem_of_intersection, !elem_of_list_to_set, list_elem_of_filter.
    naive_solver.
  - rewrite list_elem_of_filter. naive_solver.
Qed.

(** The four ways a selection ends. *)
Lemma select_cases rnd nm s st nodes :
  _get_pool_type_nodes st (sel_pool s) = Ok nodes →
  (∃ n, select_target_node set_iter rnd nm s st = (Ok n, mark st n nm) ∧
        free_for st s nodes n ∧ meets_criteria (_tester st) s n) ∨
  (select_target_node set_iter rnd nm s st = (Err AllNodesRunNemesisError, st) ∧
     ∀ n, ¬ free_for st s nodes n) ∨
  (select_target_node set_iter rnd nm s st = (Err NoNodeMatchesCriteriaError, st) ∧
     (∃ n, free_for st s nodes n) ∧
     ∀ n, free_for st s nodes n → ¬ meets_criteria (_tester st) s n).
Proof using set_iter_elem.
  intros Hpool. unfold select_target_node. rewrite Hpool.
  pose proof (available_spec st nodes s) as Hav.
  destruct (available_for_selection _ st nodes _) as [|a av].
  { right; left. split; [done|]. intros n Hn%Hav. set_solver. }
  pose proof (filter_nodes_spec (_tester st) (a :: av) s) as Hf.
  destruct (_filter_nodes _ _ _ _ _ _) as [|c cs].
  { right; right. split; [done|]. split; [exists a; apply Hav; set_solver|].
    intros n Hn%Hav Hc. assert (n ∈ @nil node) by (apply Hf; auto). set_solver. }
  left. destruct (pick_elem (sel_allow_only_last_node_in_rack s && bool_decide (sel_rack s ≠ None))
                    rnd (c :: cs)) as (n & Hsel & Hin); [done|].
  rewrite Hsel. apply Hf in Hin as [Hin Hcrit]. apply Hav in Hin. by eauto.
Qed.

Lemma select_state rnd nm s st :
  (select_target_node set_iter rnd nm s st).2 = st ∨
  ∃ n, (select_target_node set_iter rnd nm s st).2 = mark st n nm ∧
       active_nemesis_on_nodes st !! n = None.
Proof using set_iter_elem.
  destruct (_get_pool_type_nodes st (sel_pool s)) as [nodes|e] eqn:Hp.
  - destruct (select_cases rnd nm s st nodes Hp) as [(n & -> & (_ & Hn & _) & _)|[[-> _]|[-> _]]];
      simpl; eauto.
  - left. unfold select_target_node. by rewrite Hp.
Qed.

Lemma run_op_consistent o st : consistent st → consistent (run_op set_iter o st).
Proof using set_iter_elem.
  intros Hc. destruct o as [rnd nm s|n nm|n nm|nm|old new nm]; simpl.
  - destruct (select_state rnd nm s st) as [->|(n & -> & _)]; auto with alloc.
  - unfold set_running_nemesis. case_match; simpl; auto with alloc.
  - unfold unset_running_nemesis. case_match; [case_match|]; auto with alloc.
  - by apply foldl_release_consistent.
  - unfold switch_target_node. repeat case_match; simpl; auto 6 with alloc.
Qed.

(** Only an operation carrying the owner's label takes a node from its owner. *)
Lemma run_op_keeps_owner o st n owner :
  op_nemesis o ≠ owner →
  active_nemesis_on_nodes st !! n = Some owner →
  active_nemesis_on_nodes (run_op set_iter o st) !! n = Some owner.
Proof using set_iter_elem.
  intros Hne Hown. destruct o as [rnd nm s|m nm|m nm|nm|old new nm]; simpl in *.
  - destruct (select_state rnd nm s st) as [->|(m & -> & Hm)]; [done|].
    simpl. rewrite lookup_insert_ne; congruence.
  - unfold set_running_nemesis. case_match eqn:E; simpl; [done|].
    rewrite lookup_insert_ne; congruence.
  - unfold unset_running_nemesis. case_match eqn:E; [case_match eqn:Eo|]; simpl; try done.
    apply String.eqb_eq in Eo. rewrite lookup_delete_ne; congruence.
  - unfold unset_running_nemesis_from_all_nodes. rewrite foldl_release_active.
    case_decide as Hin; [|done].
    apply list_elem_of_fmap in Hin as ([m w] & -> & [Hw Hm]%list_elem_of_filter).
    apply elem_of_map_to_list in Hm. simpl in *. congruence.
  - unfold switch_target_node. case_bool_decide; [done|]. case_match eqn:E; [done|].
    simpl. rewrite lookup_insert_ne by congruence.
    repeat case_match; try done. simpl.
    match goal with H : String.eqb _ _ = true |- _ => apply String.eqb_eq in H end.
    rewrite lookup_delete_ne; congruence.
Qed.

Lemma run_ops_keep_owner os st n owner :
  Forall (λ o, op_nemesis o ≠ owner) os →
  active_nemesis_on_nodes st !! n = Some owner →
  active_nemesis_on_nodes (run_ops set_iter os st) !! n = Some owner.
Proof using set_iter_elem.
  revert st. induction os as [|o os IH]; intros st; [done|].
  intros [Ho Hos]%Forall_cons_1 Hn. simpl. apply IH; [done|].
  by apply run_op_keeps_owner.
Qed.

Lemma acquire_step st locks n nm :
  implements st locks → locks !! n = None → lock_step nm locks (<[n := nm]> locks) ∧ implements (mark st n nm) (<[n := nm]> locks).
Proof. intros [Ha Hr] Hn. split; [by constructor|]. split; simpl; congruence. Qed.

Lemma release_step st locks n nm :
  implements st locks → locks !! n = Some nm → lock_step nm locks (delete n locks) ∧ implements (release st n) (delete n locks).
Proof. intros [Ha Hr] Hn. split; [by constructor|]. split; simpl; congruence. Qed.

Lemma release_steps ns st locks nm :
  implements st locks → NoDup ns → (∀ n, n ∈ ns → locks !! n = Some nm) →
  ∃ locks', rtc (lock_step nm) locks locks' ∧ implements (foldl release st ns) locks'.
Proof.
  revert st locks. induction ns as [|n ns IH]; intros st locks Hi Hnd Hn; [exists locks; by split|].
  apply NoDup_cons in Hnd as [Hni Hnd]. destruct (release_step st locks n nm Hi) as [Hs Hi']; [apply Hn; by left|].
  destruct (IH (release st n) (delete n locks) Hi' Hnd) as (locks' & Hr & Himpl).
  { intros m Hm. rewrite lookup_delete_ne by (intros ->; done). apply Hn. by right. }
  exists locks'. split; [by eapply rtc_l|done].
Qed.

Lemma run_op_implements o st locks :
  implements st locks → ∃ locks', rtc (lock_step (op_nemesis o)) locks locks' ∧ implements (run_op set_iter o st) locks'.
Proof using set_iter_elem.
  intros Hi. assert (∃ locks', rtc (lock_step (op_nemesis o)) locks locks' ∧ implements st locks') as Hstay by (by exists locks).
  pose proof Hi as [Ha Hr]. destruct o as [rnd nm s|n nm|n nm|nm|old new nm]; simpl in *.
  - destruct (select_state rnd nm s st) as [->|(n & -> & Hn)]; [done|]. rewrite Ha in Hn.
    destruct (acquire_step st locks n nm Hi Hn). eauto using rtc_once.
  - unfold set_running_nemesis. rewrite Ha. destruct (locks !! n) eqn:E; [exact Hstay|].
    destruct (acquire_step st locks n nm Hi E). simpl. eauto using rtc_once.
  - unfold unset_running_nemesis. rewrite Ha. destruct (locks !! n) as [w|] eqn:E; [|exact Hstay].
    destruct (String.eqb_spec w nm) as [->|]; [|exact Hstay]. destruct (release_step st locks n nm Hi E). eauto using rtc_once.
  - unfold unset_running_nemesis_from_all_nodes. apply release_steps; [done| |].
    + pose proof (NoDup_fst_map_to_list (active_nemesis_on_nodes st)) as Hnd. revert Hnd.
      generalize (map_to_list (active_nemesis_on_nodes st)). induction l as [|p l IH]; [done|]. rewrite fmap_cons, filter_cons.
      intros [Hni Hnd]%NoDup_cons. destruct (decide _); [|by apply IH]. rewrite fmap_cons. apply NoDup_cons. split; [|by apply IH].
      intros (q & Hq & [_ Hin]%list_elem_of_filter)%list_elem_of_fmap. apply Hni, list_elem_of_fmap. eauto.
    + intros n Hin. apply list_elem_of_fmap in Hin as ([m w] & -> & [Hw Hm]%list_elem_of_filter).
      apply elem_of_map_to_list in Hm. simpl in *. congruence.
  - unfold switch_target_node. case_bool_decide as Hs; [exact Hstay|]. rewrite Ha. destruct (locks !! new) eqn:En; [exact Hstay|].
    destruct old as [o|]; [destruct (locks !! o) as [w|] eqn:Eo; [destruct (String.eqb_spec w nm) as [->|]|]|]; simpl;
      try (destruct (acquire_step st locks new nm Hi En) as [H1 [H2 H3]]; exists (<[new := nm]> locks); split; [by apply rtc_once|by split]).
    destruct (release_step st locks o nm Hi Eo) as [H1 Hi'].
    destruct (acquire_step (release st o) (delete o locks) new nm Hi') as [H2 Hi2]; [by rewrite lookup_delete_ne by congruence|].
    exists (<[new := nm]> (delete o locks)). split; [|done]. eapply rtc_l; [done|]. by apply rtc_once.
Qed.
End Facts.

(** *** Marking and unmarking sets of nodes *)
Definition mark_all (ns : list node) (nm : string) (st : allocator) : allocator :=
  foldl (λ st n, mark st n nm) st ns.

Lemma mark_all_active ns nm st n :
  active_nemesis_on_nodes (mark_all ns nm st) !! n =
  if decide (n ∈ ns) then Some nm else active_nemesis_on_nodes st !! n.
Proof.
  unfold mark_all. revert st. induction ns as [|m ns IH]; intros st; cbn [foldl].
  - by rewrite decide_False by set_solver.
  - rewrite IH; cbn [mark active_nemesis_on_nodes]. destruct (decide (n = m)) as [->|Hne].
    + rewrite (decide_True (P:=m ∈ m :: ns)) by set_solver.
      case_decide; [done|]. apply lookup_insert_eq.
    + rewrite lookup_insert_ne by done. repeat case_decide; set_solver.
Qed.

Lemma mark_all_consistent ns nm st : consistent st → consistent (mark_all ns nm st).
Proof. unfold mark_all. revert st. induction ns; simpl; auto with alloc. Qed.

(** Releasing nodes one by one when the label owns all of them. *)
Lemma unset_each_owned ns nm st :
  NoDup ns → (∀ n, n ∈ ns → active_nemesis_on_nodes st !! n = Some nm) →
  unset_each ns nm st = foldl release st ns.
Proof.
  unfold unset_each. revert st. induction ns as [|m ns IH]; intros st Hnd Hown; [done|].
  apply NoDup_cons in Hnd as [Hm Hnd]. cbn [foldl].
  unfold unset_running_nemesis at 2. rewrite Hown by set_solver.
  rewrite String.eqb_refl. apply IH; [done|].
  intros n Hn. cbn. rewrite lookup_delete_ne by set_solver. apply Hown. set_solver.
Qed.

(** Releasing freshly marked nodes restores the ownership map. *)
Lemma unset_each_restores ns nm st st' :
  NoDup ns → consistent st' →
  (∀ n, n ∈ ns → active_nemesis_on_nodes st !! n = None) →
  active_nemesis_on_nodes st' = active_nemesis_on_nodes (mark_all ns nm st) →
  consistent (unset_each ns nm st') ∧
  active_nemesis_on_nodes (unset_each ns nm st') = active_nemesis_on_nodes st.
Proof.
  intros Hnd Hc Hfree Hact.
  rewrite unset_each_owned; [|done|intros n Hn; rewrite Hact, mark_all_active; by rewrite decide_True].
  split; [by apply foldl_release_consistent|].
  apply map_eq; intros n. rewrite foldl_release_active, Hact, mark_all_active.
  repeat case_decide; try done. symmetry; auto.
Qed.

(** The marking loop either marks every node or stops at the first reserved one
    with everything it had marked given back. *)
Lemma mark_nodes_spec nodes nm pre st0 :
  NoDup pre → consistent st0 →
  (∀ n, n ∈ pre → active_nemesis_on_nodes st0 !! n = None) →
  (mark_nodes nodes nm pre (mark_all pre nm st0) = (Ok (pre ++ nodes), mark_all (pre ++ nodes) nm st0) ∧
     NoDup (pre ++ nodes) ∧ ∀ n, n ∈ nodes → active_nemesis_on_nodes st0 !! n = None) ∨
  (∃ n st', mark_nodes nodes nm pre (mark_all pre nm st0) = (Err (NodeAlreadyReserved n), st') ∧
     n ∈ nodes ∧ consistent st' ∧ active_nemesis_on_nodes st' = active_nemesis_on_nodes st0 ∧
     ¬ (NoDup (pre ++ nodes) ∧ ∀ n, n ∈ nodes → active_nemesis_on_nodes st0 !! n = None)).
Proof.
  revert pre. induction nodes as [|m nodes IH]; intros pre Hnd Hc Hfree; cbn [mark_nodes].
  { left. rewrite app_nil_r. split_and!; set_solver. }
  unfold set_running_nemesis. rewrite mark_all_active.
  destruct (decide (m ∈ pre)) as [Hin|Hnin].
  { right. eexists m, _. split; [done|].
    destruct (unset_each_restores pre nm st0
                (publish (mark_all pre nm st0) (SettingFailed nm m nm))) as [Hc' Ha'];
      auto using mark_all_consistent with alloc.
    split_and!; auto; [set_solver|]. intros [Hnd' _].
    apply NoDup_app in Hnd' as (_ & Hd & _). set_solver. }
  destruct (active_nemesis_on_nodes st0 !! m) as [owner|] eqn:Em.
  { right. eexists m, _. split; [done|].
    destruct (unset_each_restores pre nm st0
                (publish (mark_all pre nm st0) (SettingFailed nm m owner))) as [Hc' Ha'];
      auto using mark_all_consistent with alloc.
    split_and!; auto; [set_solver|]. intros [_ Hall]. rewrite Hall in Em; [done|set_solver]. }
  replace (mark (mark_all pre nm st0) m nm) with (mark_all (pre ++ [m]) nm st0)
    by (unfold mark_all; by rewrite foldl_app).
  assert (NoDup (pre ++ [m])) as Hnd'.
  { apply NoDup_app; split_and!; [done| |apply NoDup_singleton]. set_solver. }
  specialize (IH (pre ++ [m]) Hnd' Hc). rewrite <- app_assoc in IH. simpl in IH.
  destruct IH as [(H1 & H2 & H3)|(n & st' & H1 & H2 & H3 & H4 & H5)].
  - intros n Hn. rewrite elem_of_app, list_elem_of_singleton in Hn. naive_solver.
  - left. split_and!; [done..|]. intros n [->|Hn]%elem_of_cons; auto.
  - right. exists n, st'. split_and!; [done|set_solver|done|done|].
    intros [Hx Hy]. apply H5. split; [done|]. set_solver.
Qed.

(** ** Properties *)

(** C22. A selection of a supported pool ends in one of three ways: it returns a
    node of the pool that no nemesis was running on, that is in the requested
    node list and meets the seed, DC and rack criteria, and marks exactly that
    node; or it raises [AllNodesRunNemesisError], leaves the state alone, and no
    node of the pool was free; or it raises [NoNodeMatchesCriteriaError], leaves
    the state alone, and there were free nodes but none met the criteria. *)
Theorem select_target_node_correct set_iter rnd nm s st nodes :
  (∀ X n, n ∈ set_iter X ↔ n ∈ X) →
  _get_pool_type_nodes st (sel_pool s) = Ok nodes →
  match select_target_node set_iter rnd nm s st with
  | (Ok n, st') => free_for st s nodes n ∧ meets_criteria (_tester st) s n ∧ st' = mark st n nm
  | (Err AllNodesRunNemesisError, st') => st' = st ∧ ∀ n, ¬ free_for st s nodes n
  | (Err NoNodeMatchesCriteriaError, st') =>
    st' = st ∧ (∃ n, free_for st s nodes n) ∧
    ∀ n, free_for st s nodes n → ¬ meets_criteria (_tester st) s n
  | (Err _, _) => False
  end.
Proof.
  intros Hit Hp.
  destruct (select_cases set_iter Hit rnd nm s st nodes Hp)
    as [(n & -> & Hf & Hc)|[[-> Hn]|(-> & He & Hn)]]; auto.
Qed.

(** C8. Mutual exclusion of nemeses: once a selection labelled [a] returned node
    [n], then after any sequence of operations of other labels no selection
    returns [n], and [n] is still recorded as running [a]. *)
Theorem nemeses_never_share_a_node set_iter rnd rnd' a b s s' st st1 n os m st3 :
  (∀ X n, n ∈ set_iter X ↔ n ∈ X) →
  select_target_node set_iter rnd a s st = (Ok n, st1) →
  Forall (λ o, op_nemesis o ≠ a) os →
  select_target_node set_iter rnd' b s' (run_ops set_iter os st1) = (Ok m, st3) →
  m ≠ n ∧ active_nemesis_on_nodes (run_ops set_iter os st1) !! n = Some a.
Proof.
  intros Hit Hsel Hos Hsel'.
  assert (active_nemesis_on_nodes st1 !! n = Some a) as Hown.
  { destruct (_get_pool_type_nodes st (sel_pool s)) as [nodes|] eqn:Hp.
    - destruct (select_cases set_iter Hit rnd a s st nodes Hp)
        as [(? & E & _)|[[E _]|[E _]]]; rewrite E in Hsel; simplify_eq.
      apply lookup_insert_eq.
    - unfold select_target_node in Hsel. by rewrite Hp in Hsel. }
  apply (run_ops_keep_owner set_iter Hit os) in Hown; [|done].
  split; [|done]. intros ->.
  destruct (_get_pool_type_nodes (run_ops set_iter os st1) (sel_pool s')) as [nodes|] eqn:Hp.
  - destruct (select_cases set_iter Hit rnd' b s' _ nodes Hp)
      as [(? & E & (_ & Hfree & _) & _)|[[E _]|[E _]]]; rewrite E in Hsel'; simplify_eq.
  - unfold select_target_node in Hsel'. by rewrite Hp in Hsel'.
Qed.

(** C15. The allocator implements a table of node locks. It starts as the empty table, and every
    operation carried out for a nemesis is, on the table both the allocator's dictionary and the
    node objects hold, a sequence of acquisitions of free nodes and of releases of nodes that
    nemesis holds. *)
Theorem allocator_refines_locks set_iter t :
  (∀ X n, n ∈ set_iter X ↔ n ∈ X) →
  implements (init t) ∅ ∧
  ∀ o st locks, implements st locks →
    ∃ locks', rtc (lock_step (op_nemesis o)) locks locks' ∧ implements (run_op set_iter o st) locks'.
Proof. intros Hit. split; [by split|]. intros o st locks. by apply run_op_implements. Qed.

(** In every state reachable from the allocator's initial state by any
    interleaving of its operations, the allocator's dictionary and the
    [running_nemesis] attributes of the node objects agree. *)
Theorem reachable_consistent set_iter t st :
  (∀ X n, n ∈ set_iter X ↔ n ∈ X) →
  rtc (step set_iter) (init t) st →
  ∀ n, active_nemesis_on_nodes st !! n = running_nemesis st !! n.
Proof.
  intros Hit Hr. assert (consistent st) as Hc; [|by rewrite Hc].
  refine (rtc_ind_r consistent (init t) _ _ st Hr); [done|].
  intros x y _ [o] Hc. by apply run_op_consistent.
Qed.

(** C23. [nodes_running_nemesis] is all or nothing: when every requested node is
    free (and none is named twice) the body runs with all of them marked,
    otherwise [NemesisNodeAllocationError] is raised for one of the requested
    nodes without running the body; in both cases, for a body that leaves the
    ownership map as it found it, the map ends as it began, exceptions of the
    body included. *)
Theorem nodes_running_nemesis_all_or_nothing {A} nodes nm
    (body : allocator → outcome exn A * allocator) st :
  consistent st →
  (∀ s, consistent s → consistent (body s).2 ∧
        active_nemesis_on_nodes (body s).2 = active_nemesis_on_nodes s) →
  let '(r, st') := nodes_running_nemesis nodes nm body st in
  consistent st' ∧ active_nemesis_on_nodes st' = active_nemesis_on_nodes st ∧
  (NoDup nodes ∧ (∀ n, n ∈ nodes → active_nemesis_on_nodes st !! n = None) ∧
     r = (body (mark_all nodes nm st)).1 ∨
   ¬ (NoDup nodes ∧ ∀ n, n ∈ nodes → active_nemesis_on_nodes st !! n = None) ∧
     ∃ n, n ∈ nodes ∧ r = Err (NodeAlreadyReserved n)).
Proof.
  intros Hc Hbody. unfold nodes_running_nemesis.
  destruct (mark_nodes_spec nodes nm [] st) as [(E & Hnd & Hfree)|(n & st1 & E & Hn & Hc1 & Ha & Hnot)];
    [apply NoDup_nil_2|done|set_solver| |].
  - simpl in E, Hnd. rewrite E. pose proof (mark_all_consistent nodes nm st Hc) as Hm.
    destruct (Hbody _ Hm) as [Hc2 Ha2].
    destruct (body (mark_all nodes nm st)) as [r st2] eqn:Eb. simpl in *.
    destruct (unset_each_restores nodes nm st st2 Hnd Hc2 Hfree Ha2) as [Hc3 Ha3]. eauto 7.
  - simpl in E. rewrite E. eauto 8.
Qed.

(** [run_nemesis] never leaks a reservation: for a body that leaves the
    ownership map as it found it, the map after the [with] block is the map
    before it, whether the selection fails, the body returns or the body
    raises; and an error of the body is propagated unchanged. *)
Theorem run_nemesis_no_leak {A} set_iter rnd label node_list pool filter_seed
    (body : node → allocator → outcome exn A * allocator) st :
  (∀ X n, n ∈ set_iter X ↔ n ∈ X) →
  (∀ n s, active_nemesis_on_nodes (body n s).2 = active_nemesis_on_nodes s) →
  let '(r, st') := run_nemesis set_iter rnd label node_list pool filter_seed body st in
  active_nemesis_on_nodes st' = active_nemesis_on_nodes st ∧
  (∀ e, r = Err e → is_NemesisNodeAllocationError e = true ∨
     ∃ n, r = (body n (mark st n label)).1).
Proof.
  intros Hit Hbody. unfold run_nemesis.
  set (s := Selection _ _ _ _ _ _ _).
  destruct (_get_pool_type_nodes st (sel_pool s)) as [nodes|e] eqn:Hp; cycle 1.
  { unfold select_target_node. rewrite Hp. split; [done|]. intros e' [= <-].
    unfold _get_pool_type_nodes in Hp. simpl in Hp. destruct pool as [[]|]; simplify_eq. by left. }
  destruct (select_cases set_iter Hit rnd label s st nodes Hp)
    as [(n & -> & (_ & Hfree & _) & _)|[[-> _]|[-> _]]];
    [|split; [done|]; intros e [= <-]; by left..].
  pose proof (Hbody n (mark st n label)) as Ha.
  destruct (body n (mark st n label)) as [r st2] eqn:Eb. simpl in Ha.
  split; [|intros e ->; right; exists n; by rewrite Eb].
  unfold unset_running_nemesis. rewrite Ha, lookup_insert_eq, String.eqb_refl.
  simpl. rewrite Ha. by apply delete_insert_id.
Qed.

(** *** Witnesses *)
Definition ex_tester : tester :=
  Tester [1; 2; 3]
    (λ n, NodeAttrs "node" (bool_decide (n = 1)) 0 (Z.of_nat n) (bool_decide (n = 3))).
Definition ex_sel : selection := Selection (Pool data_nodes) true DefaultValue None None false None.
Definition ex_sel_all : selection := Selection (Pool all_nodes) false SeedNone None (Some 3%Z) true (Some [3; 1]).

Lemma elements_iter (X : gset node) n : n ∈ elements X ↔ n ∈ X.
Proof. apply elem_of_elements. Qed.

Lemma select_target_node_correct_witness :
  select_target_node elements 0 "a" ex_sel (init ex_tester) = (Ok 2, mark (init ex_tester) 2 "a") ∧
  match select_target_node elements 0 "a" ex_sel (init ex_tester) with
  | (Ok n, st') => free_for (init ex_tester) ex_sel [1; 2] n ∧
                   meets_criteria ex_tester ex_sel n ∧ st' = mark (init ex_tester) n "a"
  | (Err AllNodesRunNemesisError, st') =>
    st' = init ex_tester ∧ ∀ n, ¬ free_for (init ex_tester) ex_sel [1; 2] n
  | (Err NoNodeMatchesCriteriaError, st') =>
    st' = init ex_tester ∧ (∃ n, free_for (init ex_tester) ex_sel [1; 2] n) ∧
    ∀ n, free_for (init ex_tester) ex_sel [1; 2] n → ¬ meets_criteria ex_tester ex_sel n
  | (Err _, _) => False
  end.
Proof.
  split; [vm_compute; reflexivity|].
  exact (select_target_node_correct elements 0 "a" ex_sel (init ex_tester) [1; 2]
           elements_iter eq_refl).
Defined.

Lemma nemeses_never_share_a_node_witness :
  3 ≠ 2 ∧
  active_nemesis_on_nodes
    (run_ops elements [OpUnset 2 "c"; OpUnsetAll "b"] (mark (init ex_tester) 2 "a")) !! 2 = Some "a".
Proof.
  eapply (nemeses_never_share_a_node elements 0 0 "a" "b" ex_sel ex_sel_all (init ex_tester)
            (mark (init ex_tester) 2 "a") 2 [OpUnset 2 "c"; OpUnsetAll "b"] 3).
  - exact elements_iter.
  - vm_compute; reflexivity.
  - repeat constructor; discriminate.
  - vm_compute; reflexivity.
Defined.

Lemma allocator_refines_locks_witness :
  ∃ locks', rtc (lock_step "a") ∅ locks' ∧ implements (run_op elements (OpSet 1 "a") (init ex_tester)) locks'.
Proof.
  destruct (allocator_refines_locks elements ex_tester elements_iter) as [Hi Hs]. exact (Hs (OpSet 1 "a") _ _ Hi).
Defined.

Lemma reachable_consistent_witness :
  active_nemesis_on_nodes (run_op elements (OpSet 1 "a") (init ex_tester)) !! 1 =
  running_nemesis (run_op elements (OpSet 1 "a") (init ex_tester)) !! 1.
Proof.
  apply (reachable_consistent elements ex_tester); [exact elements_iter|].
  apply rtc_once. constructor.
Defined.

Lemma nodes_running_nemesis_all_or_nothing_witness :
  let st := mark (init ex_tester) 2 "b" in
  let '(r, st') := nodes_running_nemesis [1; 2] "a" (λ s, (Ok tt, s)) st in
  consistent st' ∧ active_nemesis_on_nodes st' = active_nemesis_on_nodes st ∧
  (NoDup [1; 2] ∧ (∀ n, n ∈ [1; 2] → active_nemesis_on_nodes st !! n = None) ∧
     r = Ok tt ∨
   ¬ (NoDup [1; 2] ∧ ∀ n, n ∈ [1; 2] → active_nemesis_on_nodes st !! n = None) ∧
     ∃ n, n ∈ [1; 2] ∧ r = Err (NodeAlreadyReserved n)).
Proof.
  apply (nodes_running_nemesis_all_or_nothing [1; 2] "a" (λ s, (Ok tt, s)) (mark (init ex_tester) 2 "b")).
  - reflexivity.
  - intros s Hs. split; [exact Hs|reflexivity].
Defined.

Lemma run_nemesis_no_leak_witness :
  let '(r, st') := run_nemesis elements 0 "a" None (Pool data_nodes) false
                     (λ n s, (Err (A := unit) (BodyError "boom"), s)) (init ex_tester) in
  active_nemesis_on_nodes st' = active_nemesis_on_nodes (init ex_tester) ∧
  (∀ e, r = Err e → is_NemesisNodeAllocationError e = true ∨
     ∃ n : node, r = Err (BodyError "boom")).
Proof.
  apply (run_nemesis_no_leak elements 0 "a" None (Pool data_nodes) false
           (λ n s, (Err (A := unit) (BodyError "boom"), s)) (init ex_tester)).
  - exact elements_iter.
  - reflexivity.
Defined.

End NodeAllocator.
