(* ===== verification/Selector.v ===== *)
(** * Selector expressions

    Model of [sdcm/utils/ast_utils.py], the evaluator of the logical phrases that
    select nemeses ("disruptive and not (topology_changes or schema_changes)").

    [expr] is the part of Python's [ast] the evaluator tells apart. [ast.parse]
    itself is Python's whole expression grammar; what is modelled of it is the
    fragment selectors are written in ([parse_bool]): names, [True], [False],
    [not], [and], [or] and parentheses, with the precedences of the grammar and the
    parser's collapsing of a chain of one operator into one [BoolOp]. Text outside
    the fragment is [None] there, and clients take [ast.parse] as an argument that
    agrees with [parse_bool] where the latter answers. *)
From Stdlib Require Import Ascii.
From stdpp Require Import base decidable option strings numbers gmap sets list.
From S2P Require Import Prelude.
From S2P Require Import PyString.
From S2P Require Import PyVal.
Local Open Scope py_scope.

Module Selector.

(** ** The syntax trees the evaluator visits *)
Inductive boolop : Type := And | Or.
Inductive unaryop : Type := Not | Invert | UAdd | USub.
Inductive constant : Type := CBool (b : bool) | COther.

(** [OtherNode] is any node without a visitor (a comparison, a call, ...). *)
Inductive expr : Type :=
  | BoolOp (op : boolop) (values : list expr)
  | UnaryOp (op : unaryop) (operand : expr)
  | Name (id : string)
  | Constant (value : constant)
  | OtherNode.

Inductive exn : Type :=
  | SyntaxError
  | NotImplementedError
  | ValueError
  | RuntimeError.

Abbreviation context := (gmap string pyval) (only parsing).

(** ** The evaluator *)

(** [all(...)] and [any(...)] over a generator: they stop at the first value that decides. *)
Fixpoint all_of (vs : list (outcome exn pyval)) : outcome exn pyval :=
  match vs with
  | [] => Ok (VBool true)
  | v :: vs' => try! x := v in (if truthy x then all_of vs' else Ok (VBool false))
  end.

Fixpoint any_of (vs : list (outcome exn pyval)) : outcome exn pyval :=
  match vs with
  | [] => Ok (VBool false)
  | v :: vs' => try! x := v in (if truthy x then Ok (VBool true) else any_of vs')
  end.

Definition visit_BoolOp (op : boolop) (values : list (outcome exn pyval)) : outcome exn pyval :=
  match op with And => all_of values | Or => any_of values end.

Definition visit_UnaryOp (op : unaryop) (operand : outcome exn pyval) : outcome exn pyval :=
  match op with
  | Not => try! x := operand in Ok (VBool (negb (truthy x)))
  | _ => Err NotImplementedError
  end.

Definition visit_Name (ctx : context) (id : string) : outcome exn pyval :=
  Ok (default (VBool false) (ctx !! id)).

Definition visit_Constant (value : constant) : outcome exn pyval :=
  match value with CBool b => Ok (VBool b) | COther => Err ValueError end.

Definition generic_visit : outcome exn pyval := Err RuntimeError.

Fixpoint visit (ctx : context) (node : expr) : outcome exn pyval :=
  match node with
  | BoolOp op values => visit_BoolOp op (map (visit ctx) values)
  | UnaryOp op operand => visit_UnaryOp op (visit ctx operand)
  | Name id => visit_Name ctx id
  | Constant value => visit_Constant value
  | OtherNode => generic_visit
  end.

(** ** Tokens *)
Inductive token : Type :=
  | TAnd | TOr | TNot | TLParen | TRParen
  | TBool (b : bool)
  | TName (id : string).
#[export] Instance token_eq_dec : EqDecision token.
Proof. solve_decision. Defined.

Definition is_letter (c : ascii) : bool :=
  char_in "A" "Z" c || char_in "a" "z" c || Ascii.eqb c "_".

Definition keywords : list string :=
  ["None"; "as"; "assert"; "async"; "await"; "break"; "class"; "continue"; "def"; "del"; "elif";
   "else"; "except"; "finally"; "for"; "from"; "global"; "if"; "import"; "in"; "is"; "lambda";
   "nonlocal"; "pass"; "raise"; "return"; "try"; "while"; "with"; "yield"].

(** The token of a maximal run of letters, digits and underscores. *)
Definition word_token (w : string) : option token :=
  match w with
  | EmptyString => None
  | String c _ =>
    if is_digit c then None
    else if String.eqb w "and" then Some TAnd
    else if String.eqb w "or" then Some TOr
    else if String.eqb w "not" then Some TNot
    else if String.eqb w "True" then Some (TBool true)
    else if String.eqb w "False" then Some (TBool false)
    else if bool_decide (w ∈ keywords) then None
    else Some (TName w)
  end.

(** [w] is the word read so far; the tokens of a word end with the word. *)
Definition flush (w : string) : option (list token) :=
  match w with
  | EmptyString => Some []
  | _ => t ← word_token w; Some [t]
  end.

Definition append_tokens (a b : option (list token)) : option (list token) :=
  x ← a; y ← b; Some (x ++ y).

Fixpoint lex (w : string) (s : string) : option (list token) :=
  match s with
  | EmptyString => flush w
  | String c s' =>
    if is_letter c || is_digit c then lex (w +:+ String c EmptyString) s'
    else if Ascii.eqb c " " then append_tokens (flush w) (lex EmptyString s')
    else if Ascii.eqb c "(" then append_tokens (flush w) (cons TLParen <$> lex EmptyString s')
    else if Ascii.eqb c ")" then append_tokens (flush w) (cons TRParen <$> lex EmptyString s')
    else None
  end.

(** ** Grammar

    [disjunction: conjunction ('or' conjunction)*], [conjunction: inversion ('and'
    inversion)*], [inversion: 'not' inversion | atom]. *)
Inductive inversion_t : Type :=
  | INot (i : inversion_t)
  | IName (id : string)
  | IBool (b : bool)
  | IParen (d : disjunction_t)
with conjunction_t : Type :=
  | C1 (i : inversion_t)
  | CAnd (i : inversion_t) (c : conjunction_t)
with disjunction_t : Type :=
  | D1 (c : conjunction_t)
  | DOr (c : conjunction_t) (d : disjunction_t).

Scheme inversion_mut := Induction for inversion_t Sort Prop
with conjunction_mut := Induction for conjunction_t Sort Prop
with disjunction_mut := Induction for disjunction_t Sort Prop.
Combined Scheme grammar_mut from inversion_mut, conjunction_mut, disjunction_mut.

Fixpoint tok_inv (i : inversion_t) : list token :=
  match i with
  | INot i => TNot :: tok_inv i
  | IName id => [TName id]
  | IBool b => [TBool b]
  | IParen d => TLParen :: tok_disj d ++ [TRParen]
  end
with tok_conj (c : conjunction_t) : list token :=
  match c with
  | C1 i => tok_inv i
  | CAnd i c => tok_inv i ++ TAnd :: tok_conj c
  end
with tok_disj (d : disjunction_t) : list token :=
  match d with
  | D1 c => tok_conj c
  | DOr c d => tok_conj c ++ TOr :: tok_disj d
  end.

(** One operand stays itself, more become one [BoolOp]. *)
Definition collapse (op : boolop) (es : list expr) : expr :=
  match es with
  | [e] => e
  | _ => BoolOp op es
  end.

Fixpoint ast_inv (i : inversion_t) : expr :=
  match i with
  | INot i => UnaryOp Not (ast_inv i)
  | IName id => Name id
  | IBool b => Constant (CBool b)
  | IParen d => collapse Or (asts_disj d)
  end
with asts_conj (c : conjunction_t) : list expr :=
  match c with
  | C1 i => [ast_inv i]
  | CAnd i c => ast_inv i :: asts_conj c
  end
with asts_disj (d : disjunction_t) : list expr :=
  match d with
  | D1 c => [collapse And (asts_conj c)]
  | DOr c d => collapse And (asts_conj c) :: asts_disj d
  end.
Definition ast_conj (c : conjunction_t) : expr := collapse And (asts_conj c).
Definition ast_disj (d : disjunction_t) : expr := collapse Or (asts_disj d).

(** ** Parser *)
Fixpoint p_inv (n : nat) (ts : list token) : option (inversion_t * list token) :=
  match n, ts with
  | S n, TNot :: ts => '(i, r) ← p_inv n ts; Some (INot i, r)
  | S n, TName id :: ts => Some (IName id, ts)
  | S n, TBool b :: ts => Some (IBool b, ts)
  | S n, TLParen :: ts =>
    '(d, r) ← p_disj n ts; match r with TRParen :: r' => Some (IParen d, r') | _ => None end
  | _, _ => None
  end
with p_conj (n : nat) (ts : list token) : option (conjunction_t * list token) :=
  match n with
  | O => None
  | S n =>
    '(i, r) ← p_inv n ts;
    match r with
    | TAnd :: r' => '(c, r'') ← p_conj n r'; Some (CAnd i c, r'')
    | _ => Some (C1 i, r)
    end
  end
with p_disj (n : nat) (ts : list token) : option (disjunction_t * list token) :=
  match n with
  | O => None
  | S n =>
    '(c, r) ← p_conj n ts;
    match r with
    | TOr :: r' => '(d, r'') ← p_disj n r'; Some (DOr c d, r'')
    | _ => Some (D1 c, r)
    end
  end.

Definition parse_tokens (ts : list token) : option disjunction_t :=
  '(d, r) ← p_disj (3 * length ts) ts; match r with [] => Some d | _ => None end.

(** A phrase that starts with a blank is an indentation error for [ast.parse]. *)
Definition parse_bool (s : string) : option disjunction_t :=
  match s with
  | String " " _ => None
  | _ => ts ← lex EmptyString s; parse_tokens ts
  end.

(** ** What a phrase means *)
Definition flag (ctx : context) (id : string) : bool := truthy (default (VBool false) (ctx !! id)).

Fixpoint sem_inv (val : string → bool) (i : inversion_t) : bool :=
  match i with
  | INot i => negb (sem_inv val i)
  | IName id => val id
  | IBool b => b
  | IParen d => sem_disj val d
  end
with sem_conj (val : string → bool) (c : conjunction_t) : bool :=
  match c with
  | C1 i => sem_inv val i
  | CAnd i c => sem_inv val i && sem_conj val c
  end
with sem_disj (val : string → bool) (d : disjunction_t) : bool :=
  match d with
  | D1 c => sem_conj val c
  | DOr c d => sem_conj val c || sem_disj val d
  end.

Lemma sem_ext val val' : (∀ id, val id = val' id) →
  (∀ i, sem_inv val i = sem_inv val' i) ∧ (∀ c, sem_conj val c = sem_conj val' c) ∧
  (∀ d, sem_disj val d = sem_disj val' d).
Proof. intros Hv. apply grammar_mut; cbn; congruence. Qed.

(** The evaluation returned a value of truth value [b]. *)
Definition yields (r : outcome exn pyval) (b : bool) : Prop := ∃ v, r = Ok v ∧ truthy v = b.

Lemma yields_bool b : yields (Ok (VBool b)) b.
Proof. by exists (VBool b). Qed.
#[local] Hint Resolve yields_bool : core.

Lemma all_of_yields rs bs : Forall2 yields rs bs → yields (all_of rs) (forallb id bs).
Proof.
  induction 1 as [|r b rs bs (v & -> & <-) _ IH]; [apply yields_bool|].
  simpl. destruct (truthy v); simpl; [exact IH|apply yields_bool].
Qed.

Lemma any_of_yields rs bs : Forall2 yields rs bs → yields (any_of rs) (existsb id bs).
Proof.
  induction 1 as [|r b rs bs (v & -> & <-) _ IH]; [apply yields_bool|].
  simpl. destruct (truthy v); simpl; [apply yields_bool|exact IH].
Qed.

Lemma visit_collapse ctx op es bs :
  bs ≠ [] → Forall2 yields (map (visit ctx) es) bs →
  yields (visit ctx (collapse op es))
    (match op with And => forallb id bs | Or => existsb id bs end).
Proof.
  intros Hne HF. destruct es as [|e [|e' es]].
  - by inversion HF; subst.
  - destruct bs as [|b [|]]; [done| |by inversion HF as [|????? HF']; inversion HF'].
    inversion HF; subst. cbn. destruct op; by rewrite ?andb_true_r, ?orb_false_r.
  - destruct op; [by apply all_of_yields|by apply any_of_yields].
Qed.

Fixpoint sems_conj (val : string → bool) (c : conjunction_t) : list bool :=
  match c with C1 i => [sem_inv val i] | CAnd i c => sem_inv val i :: sems_conj val c end.
Fixpoint sems_disj (val : string → bool) (d : disjunction_t) : list bool :=
  match d with D1 c => [sem_conj val c] | DOr c d => sem_conj val c :: sems_disj val d end.

Lemma sems_conj_all val c : forallb id (sems_conj val c) = sem_conj val c ∧ sems_conj val c ≠ [].
Proof. induction c as [i|i c [IH _]]; cbn; [by rewrite andb_true_r|by rewrite IH]. Qed.
Lemma sems_disj_any val d : existsb id (sems_disj val d) = sem_disj val d ∧ sems_disj val d ≠ [].
Proof. induction d as [c|c d [IH _]]; cbn; [by rewrite orb_false_r|by rewrite IH]. Qed.

(** The evaluator computes the meaning and raises nothing, on the trees of the fragment. *)
Lemma visit_grammar ctx :
  (∀ i, yields (visit ctx (ast_inv i)) (sem_inv (flag ctx) i)) ∧
  (∀ c, Forall2 yields (map (visit ctx) (asts_conj c)) (sems_conj (flag ctx) c)) ∧
  (∀ d, Forall2 yields (map (visit ctx) (asts_disj d)) (sems_disj (flag ctx) d)).
Proof.
  apply grammar_mut; cbn [ast_inv asts_conj asts_disj sem_inv sems_conj sems_disj map].
  - intros i (v & E & Hv). cbn. rewrite E. exists (VBool (negb (truthy v))). by rewrite <- Hv.
  - intros id. by eexists.
  - intros b. apply yields_bool.
  - intros d HF. destruct (sems_disj_any (flag ctx) d) as [<- Hne]. by apply (visit_collapse ctx Or).
  - auto.
  - auto.
  - intros c HF. constructor; [|constructor].
    destruct (sems_conj_all (flag ctx) c) as [<- Hne]. by apply (visit_collapse ctx And).
  - intros c HF d HF'. constructor; [|exact HF'].
    destruct (sems_conj_all (flag ctx) c) as [<- Hne]. by apply (visit_collapse ctx And).
Qed.

Lemma visit_disj ctx d : yields (visit ctx (ast_disj d)) (sem_disj (flag ctx) d).
Proof.
  destruct (sems_disj_any (flag ctx) d) as [<- Hne]. apply (visit_collapse ctx Or); [done|].
  apply visit_grammar.
Qed.

(** ** The parser and the grammar *)
Fixpoint size_inv (i : inversion_t) : nat :=
  match i with INot i => S (size_inv i) | IName _ | IBool _ => 1 | IParen d => S (size_disj d) end
with size_conj (c : conjunction_t) : nat :=
  match c with C1 i => S (size_inv i) | CAnd i c => S (size_inv i + size_conj c) end
with size_disj (d : disjunction_t) : nat :=
  match d with D1 c => S (size_conj c) | DOr c d => S (size_conj c + size_disj d) end.

Lemma size_bound :
  (∀ i, size_inv i + 2 <= 3 * length (tok_inv i)) ∧
  (∀ c, size_conj c + 1 <= 3 * length (tok_conj c)) ∧
  (∀ d, size_disj d <= 3 * length (tok_disj d)).
Proof.
  apply grammar_mut; cbn [size_inv size_conj size_disj tok_inv tok_conj tok_disj];
    intros; rewrite ?length_cons, ?length_app, ?length_cons; cbn [length]; lia.
Qed.

Definition stops_conj (r : list token) : Prop := match r with TAnd :: _ => False | _ => True end.
Definition stops_disj (r : list token) : Prop := match r with TAnd :: _ | TOr :: _ => False | _ => True end.

Lemma parse_complete_mut :
  (∀ i n r, size_inv i <= n → p_inv n (tok_inv i ++ r) = Some (i, r)) ∧
  (∀ c n r, size_conj c <= n → stops_conj r → p_conj n (tok_conj c ++ r) = Some (c, r)) ∧
  (∀ d n r, size_disj d <= n → stops_disj r → p_disj n (tok_disj d ++ r) = Some (d, r)).
Proof.
  apply grammar_mut; cbn [size_inv size_conj size_disj tok_inv tok_conj tok_disj].
  - intros i IH [|n] r Hn; [lia|]. cbn. rewrite IH by lia. done.
  - intros id [|n] r Hn; [lia|done].
  - intros b [|n] r Hn; [lia|done].
  - intros d IH [|n] r Hn; [lia|]. cbn. rewrite <- (assoc_L (++)), IH by (done || lia). done.
  - intros i IH [|n] r Hn Hr; [lia|]. cbn. rewrite IH by lia. cbn. by destruct r as [|[] r].
  - intros i IHi c IHc [|n] r Hn Hr; [lia|]. cbn.
    rewrite <- (assoc_L (++)), IHi by lia. cbn. rewrite IHc by (done || lia). done.
  - intros c IH [|n] r Hn Hr; [lia|]. cbn. rewrite IH; [|lia|by destruct r as [|[] r]].
    cbn. by destruct r as [|[] r].
  - intros c IHc d IHd [|n] r Hn Hr; [lia|]. cbn.
    rewrite <- (assoc_L (++)), IHc by (done || lia). cbn. rewrite IHd by (done || lia). done.
Qed.

Lemma parse_sound_mut n :
  (∀ ts i r, p_inv n ts = Some (i, r) → ts = tok_inv i ++ r) ∧
  (∀ ts c r, p_conj n ts = Some (c, r) → ts = tok_conj c ++ r) ∧
  (∀ ts d r, p_disj n ts = Some (d, r) → ts = tok_disj d ++ r).
Proof.
  induction n as [|n (IHi & IHc & IHd)]; [split_and!; by intros [|[]]|].
  split_and!; cbn [p_inv p_conj p_disj].
  - intros [|[] ts] x r E; simplify_eq/=; try done.
    + destruct (p_inv n ts) as [[i r']|] eqn:Ei; simplify_eq/=. by apply IHi in Ei as ->.
    + destruct (p_disj n ts) as [[d [|[] r']]|] eqn:Ed; simplify_eq/=. apply IHd in Ed as ->.
      by rewrite <- (assoc_L (++)).
  - intros ts x r E. destruct (p_inv n ts) as [[i r']|] eqn:Ei; [|done]. apply IHi in Ei as ->.
    simpl in E. destruct r' as [|[] r']; simplify_eq/=; try done.
    destruct (p_conj n r') as [[c r'']|] eqn:Ec; simplify_eq/=. apply IHc in Ec as ->.
    by rewrite <- (assoc_L (++)).
  - intros ts x r E. destruct (p_conj n ts) as [[c r']|] eqn:Ec; [|done]. apply IHc in Ec as ->.
    simpl in E. destruct r' as [|[] r']; simplify_eq/=; try done.
    destruct (p_disj n r') as [[d r'']|] eqn:Ed; simplify_eq/=. apply IHd in Ed as ->.
    by rewrite <- (assoc_L (++)).
Qed.

(** The parser accepts exactly the token lists the grammar derives. *)
Lemma parse_tokens_iff ts d : parse_tokens ts = Some d ↔ ts = tok_disj d.
Proof.
  unfold parse_tokens. split.
  - destruct (p_disj _ ts) as [[d' [|]]|] eqn:E; intros ?; simplify_eq/=.
    apply (proj2 (proj2 (parse_sound_mut _))) in E. by rewrite app_nil_r in E.
  - intros ->. pose proof (proj2 (proj2 size_bound) d).
    rewrite <- (app_nil_r (tok_disj d)) at 2.
    by rewrite (proj2 (proj2 parse_complete_mut)) by (done || lia).
Qed.
(** ** Phrases put together from others *)
Fixpoint conj_and (c : conjunction_t) (i : inversion_t) : conjunction_t :=
  match c with C1 j => CAnd j (C1 i) | CAnd j c => CAnd j (conj_and c i) end.
Fixpoint disj_and (d : disjunction_t) (i : inversion_t) : disjunction_t :=
  match d with D1 c => D1 (conj_and c i) | DOr c d => DOr c (disj_and d i) end.

(** The disjuncts before the last one, and the last one. *)
Fixpoint sem_front (val : string → bool) (d : disjunction_t) : bool :=
  match d with D1 _ => false | DOr c d => sem_conj val c || sem_front val d end.
Fixpoint sem_last (val : string → bool) (d : disjunction_t) : bool :=
  match d with D1 c => sem_conj val c | DOr _ d => sem_last val d end.

Lemma sem_front_last val d : sem_disj val d = sem_front val d || sem_last val d.
Proof. induction d as [c|c d IH]; cbn; [done|]. by rewrite IH, orb_assoc. Qed.

Lemma sem_conj_and val c i : sem_conj val (conj_and c i) = sem_conj val c && sem_inv val i.
Proof. induction c as [j|j c IH]; cbn; [done|]. by rewrite IH, andb_assoc. Qed.

Lemma sem_disj_and val d i :
  sem_disj val (disj_and d i) = sem_front val d || sem_last val d && sem_inv val i.
Proof.
  induction d as [c|c d IH]; cbn; [apply sem_conj_and|]. by rewrite IH, orb_assoc.
Qed.

Lemma sem_front_disj_and val d i : sem_front val (disj_and d i) = sem_front val d.
Proof. induction d as [c|c d IH]; cbn; [done|]. by rewrite IH. Qed.

Lemma tok_conj_and c i : tok_conj (conj_and c i) = tok_conj c ++ TAnd :: tok_inv i.
Proof. induction c as [j|j c IH]; cbn; [done|]. by rewrite IH, <- (assoc_L (++)). Qed.

Lemma tok_disj_and d i : tok_disj (disj_and d i) = tok_disj d ++ TAnd :: tok_inv i.
Proof.
  induction d as [c|c d IH]; cbn; [apply tok_conj_and|]. by rewrite IH, <- (assoc_L (++)).
Qed.

Lemma append_tokens_assoc a b c :
  append_tokens (append_tokens a b) c = append_tokens a (append_tokens b c).
Proof. destruct a, b, c; cbn; try done. by rewrite (assoc_L (++)). Qed.

Lemma append_tokens_cons t a b :
  append_tokens (cons t <$> a) b = cons t <$> append_tokens a b.
Proof. by destruct a, b. Qed.

(** A blank separates tokens. *)
Lemma lex_blank s t w :
  lex w (s +:+ String " " t) = append_tokens (lex w s) (lex EmptyString t).
Proof.
  revert w. induction s as [|c s IH]; intros w; [done|].
  change (String c s +:+ String " " t) with (String c (s +:+ String " " t)).
  cbn [lex]. rewrite !IH. repeat case_match; try done;
    by rewrite <- ?append_tokens_cons, append_tokens_assoc.
Qed.

Lemma lex_close s w : lex w (s +:+ ")") = append_tokens (lex w s) (Some [TRParen]).
Proof.
  revert w. induction s as [|c s IH]; intros w; [done|].
  change (String c s +:+ ")") with (String c (s +:+ ")")).
  cbn [lex]. rewrite !IH. repeat case_match; try done;
    by rewrite <- ?append_tokens_cons, append_tokens_assoc.
Qed.

Lemma tok_inv_nonempty i : tok_inv i ≠ [].
Proof. by destruct i. Qed.
Lemma tok_conj_nonempty c : tok_conj c ≠ [].
Proof. destruct c as [i|i c]; cbn; [apply tok_inv_nonempty|]. by destruct (tok_inv i). Qed.
Lemma tok_disj_nonempty d : tok_disj d ≠ [].
Proof. destruct d as [c|c d]; cbn; [apply tok_conj_nonempty|]. by destruct (tok_conj c). Qed.

Definition starts_blank (s : string) : bool := startswith " " s.

Lemma parse_bool_iff s d :
  parse_bool s = Some d ↔ starts_blank s = false ∧ lex EmptyString s = Some (tok_disj d).
Proof.
  assert (parse_bool s = if starts_blank s then None
          else ts ← lex EmptyString s; parse_tokens ts) as ->.
  { by destruct s as [|[[] [] [] [] [] [] [] []] s]. }
  destruct (starts_blank s); [naive_solver|].
  destruct (lex EmptyString s) as [ts|]; cbn [mbind option_bind]; [|naive_solver].
  rewrite parse_tokens_iff. naive_solver.
Qed.

Lemma parse_bool_nonempty s d : parse_bool s = Some d → s ≠ EmptyString.
Proof. by intros E ->. Qed.

Lemma starts_blank_app s t : s ≠ EmptyString → starts_blank (s +:+ t) = starts_blank s.
Proof. by destruct s as [|[[] [] [] [] [] [] [] []] s]. Qed.

(** [f"{s} and {t}"], for [t] an operand of [and], constrains the last disjunct of [s] only. *)
Lemma parse_bool_and s t d i :
  parse_bool s = Some d → lex EmptyString t = Some (tok_inv i) →
  parse_bool (s +:+ " and " +:+ t) = Some (disj_and d i).
Proof.
  intros Hs Ht. pose proof (parse_bool_nonempty s d Hs). apply parse_bool_iff in Hs as [Hb Hl].
  apply parse_bool_iff. rewrite starts_blank_app by done. split; [done|].
  change (" and " +:+ t) with (String " " ("and" +:+ String " " t)).
  rewrite !lex_blank, Hl, Ht. cbn. by rewrite tok_disj_and.
Qed.

(** ** Names *)
Definition plain_name (w : string) : bool :=
  all_chars (λ c, is_letter c || is_digit c) w && bool_decide (word_token w = Some (TName w)).
Lemma lex_word acc s :
  all_chars (λ c, is_letter c || is_digit c) s = true → lex acc s = flush (acc +:+ s).
Proof.
  revert acc. induction s as [|c s IH]; intros acc Hs; cbn [lex]; [by rewrite str_app_nil|].
  cbn in Hs. apply andb_true_iff in Hs as [Hc Hs]. rewrite Hc, IH by done.
  by rewrite str_app_assoc.
Qed.

Lemma lex_name w : plain_name w = true → lex EmptyString w = Some [TName w].
Proof.
  intros [Hw Ht]%andb_true_iff. apply bool_decide_eq_true in Ht.
  rewrite lex_word by done. change (EmptyString +:+ w) with w.
  destruct w as [|c w]; [done|]. unfold flush. by rewrite Ht.
Qed.

Lemma plain_name_blank w : plain_name w = true → w ≠ EmptyString ∧ starts_blank w = false.
Proof.
  intros [Hw Ht]%andb_true_iff. apply bool_decide_eq_true in Ht.
  split; [by intros ->|]. by destruct w as [|[[] [] [] [] [] [] [] []] w].
Qed.

(** [" or ".join(names)]. *)
Fixpoint any_name (w : string) (ws : list string) : disjunction_t :=
  match ws with
  | [] => D1 (C1 (IName w))
  | w' :: ws' => DOr (C1 (IName w)) (any_name w' ws')
  end.

Lemma lex_names w ws :
  Forall (λ w, plain_name w = true) (w :: ws) →
  lex EmptyString (join " or " (w :: ws)) = Some (tok_disj (any_name w ws)).
Proof.
  revert w. induction ws as [|w' ws IH]; intros w [Hw Hws]%Forall_cons; [by apply lex_name|].
  rewrite join_cons by done. change (" or " +:+ ?t) with (String " " ("or" +:+ String " " t)).
  rewrite !lex_blank, IH, lex_name by done. done.
Qed.

Lemma parse_names w ws :
  Forall (λ w, plain_name w = true) (w :: ws) →
  parse_bool (join " or " (w :: ws)) = Some (any_name w ws).
Proof.
  intros Hws. apply parse_bool_iff. split; [|by apply lex_names].
  apply Forall_cons in Hws as [[Hne Hb]%plain_name_blank _].
  destruct ws as [|w' ws]; [done|]. rewrite join_cons by done. by rewrite starts_blank_app.
Qed.

Lemma lex_paren t d : lex EmptyString t = Some (tok_disj d) →
  lex EmptyString ("(" +:+ t +:+ ")") = Some (tok_inv (IParen d)).
Proof.
  intros Ht. pose proof (lex_close t EmptyString) as Hc. rewrite Ht in Hc.
  change (lex EmptyString ("(" +:+ t +:+ ")"))
    with (append_tokens (Some []) (cons TLParen <$> lex EmptyString (t +:+ ")"))).
  by rewrite Hc.
Qed.

Lemma sem_any_name val w ws : sem_disj val (any_name w ws) = existsb val (w :: ws).
Proof.
  revert w. induction ws as [|w' ws IH]; intros w; cbn; [by rewrite orb_false_r|]. by rewrite IH.
Qed.
End Selector.
