(* ===== verification/NemesisRegistry.v ===== *)
(** * Nemesis registry

    Model of [sdcm/nemesis/registry.py]: discovery of the concrete nemesis classes
    under a base class and their selection by a logical phrase over flags and class
    names.

    What Python reflects about classes ([__subclasses__], [__name__],
    [inspect.isabstract], [inspect.getmembers], [getattr]) is the interface
    [ClassGraph]; the registry reads nothing else of a class. The [while] loop of
    [get_subclasses] runs on fuel and answers [None] without enough of it; the height
    of the class graph under the base class is enough. [ast.parse] is an argument. *)
From Stdlib Require Import Ascii.
From stdpp Require Import base decidable option strings numbers gmap sets list.
From S2P Require Import Prelude.
From S2P Require Import PyString.
From S2P Require Import PyVal.
From S2P Require Import Selector.
Local Open Scope py_scope.

Module NemesisRegistry.
Import Selector.

(** [getmembers c] are the names of [inspect.getmembers] with whether the member is a routine. *)
Class ClassGraph (C : Type) := {
  subclasses : C → list C;
  cls_name : C → string;
  isabstract : C → bool;
  getmembers : C → list (string * bool);
  class_attr : C → string → option pyval;
}.

Inductive reg_exn : Type :=
  | AttributeError
  | PhraseError (e : exn)
  | Diverges.

Section Registry.
Context {C : Type} `{EqDecision C, ClassGraph C}.

Definition get_members_from_class (cls : C) : list string :=
  (filter (λ m, startswith "_" m.1 = false) (filter (λ m, m.2 = false) (getmembers cls))).*1.

(** The dict comprehension; [getattr] raises for an attribute the class lacks. *)
Fixpoint get_flags_from_class (cls : C) (members : list string) : outcome reg_exn (gmap string pyval) :=
  match members with
  | [] => Ok ∅
  | m :: members' =>
    match class_attr cls m with
    | None => Err AttributeError
    | Some v => try! flags := get_flags_from_class cls members' in
        Ok (<[m := v]> flags)
    end
  end.

Record registry := Registry {
  base_class : C;
  flag_class : C;
  members : list string;
  excluded_list : list C;
}.

Definition make_registry (base flags : C) (excluded : option (list C)) : registry :=
  Registry base flags (get_members_from_class flags) (default [] excluded).

(** [list.remove]: the first occurrence. *)
Fixpoint remove_first (x : C) (l : list C) : list C :=
  match l with
  | [] => []
  | y :: l' => if decide (x = y) then l' else y :: remove_first x l'
  end.

Definition listed (r : registry) (nemesis : C) : bool :=
  negb (bool_decide (nemesis ∈ excluded_list r)) && negb (isabstract nemesis).

(** [for nemesis in tmp.copy()]. *)
Fixpoint sweep (r : registry) (copy tmp found : list C) : list C * list C :=
  match copy with
  | [] => (tmp, found)
  | nemesis :: copy' =>
    let tmp := remove_first nemesis tmp in
    let tmp := tmp ++ subclasses nemesis in
    let found := if listed r nemesis then found ++ [nemesis] else found in
    sweep r copy' tmp found
  end.

(** [while tmp]. *)
Fixpoint walk (fuel : nat) (r : registry) (tmp found : list C) : option (list C) :=
  match tmp, fuel with
  | [], _ => Some found
  | _, O => None
  | _, S fuel' => let '(tmp', found') := sweep r tmp tmp found in walk fuel' r tmp' found'
  end.

Definition get_subclasses (fuel : nat) (r : registry) : option (list C) :=
  walk fuel r (subclasses (base_class r)) [].

Section Filter.
Context (ast_parse : string → outcome exn expr) (fuel : nat).

Definition lift {A} (x : outcome exn A) : outcome reg_exn A :=
  match x with Ok a => Ok a | Err e => Err (PhraseError e) end.

Definition nemesis_context (r : registry) (nemesis : C) : outcome reg_exn (gmap string pyval) :=
  try! ctx := get_flags_from_class nemesis (members r) in
  Ok (<[cls_name nemesis := VBool true]> ctx).

(** The body of the loop: whether [nemesis] is appended. [expression_ast] is [None]
    when there is no phrase. *)
Definition selected (r : registry) (expression_ast : option expr) (nemesis : C) : outcome reg_exn bool :=
  try! ctx := nemesis_context r nemesis in
  match expression_ast with
  | None => Ok true
  | Some e => try! v := lift (visit ctx e) in Ok (truthy v)
  end.

Fixpoint filter_loop (r : registry) (expression_ast : option expr) (nemeses : list C)
    : outcome reg_exn (list C) :=
  match nemeses with
  | [] => Ok []
  | nemesis :: nemeses' =>
    try! b := selected r expression_ast nemesis in
    try! rest := filter_loop r expression_ast nemeses' in
    Ok (if b : bool then nemesis :: rest else rest)
  end.

Definition filter_subclasses (r : registry) (logical_phrase : option string)
    : outcome reg_exn (list C) :=
  try! expression_ast :=
    (if truthy logical_phrase then
       try! e := lift (ast_parse (default EmptyString logical_phrase)) in Ok (Some e)
     else Ok None) in
  match get_subclasses fuel r with
  | None => Err Diverges
  | Some nemeses => filter_loop r expression_ast nemeses
  end.
End Filter.

(** The dictionary from class names to their flags; a later class of the same name wins. *)
Fixpoint gather_loop (r : registry) (nemeses : list C) (acc : gmap string (gmap string pyval))
    : outcome reg_exn (gmap string (gmap string pyval)) :=
  match nemeses with
  | [] => Ok acc
  | nemesis :: nemeses' =>
    try! flags := get_flags_from_class nemesis (members r) in
    gather_loop r nemeses' (<[cls_name nemesis := flags]> acc)
  end.

Definition gather_properties (fuel : nat) (r : registry) : outcome reg_exn (gmap string (gmap string pyval)) :=
  match get_subclasses fuel r with
  | None => Err Diverges
  | Some nemeses => gather_loop r nemeses ∅
  end.

(** ** Discovery *)
Definition child (c d : C) : Prop := d ∈ subclasses c.

Fixpoint levels (n : nat) (l : list C) : list C :=
  match n with O => [] | S n => l ++ levels n (l ≫= subclasses) end.

Lemma sweep_spec r copy later found :
  sweep r copy (copy ++ later) found =
  (later ++ (copy ≫= subclasses), found ++ filter (λ c, listed r c = true) copy).
Proof.
  revert later found. induction copy as [|c copy IH]; intros later found.
  { by rewrite !app_nil_r. }
  cbn [sweep app remove_first]. rewrite decide_True by done.
  rewrite <- (assoc_L (++)), IH, <- (assoc_L (++)). f_equal.
  rewrite filter_cons. destruct (listed r c); [by rewrite <- (assoc_L (++))|done].
Qed.

(** A bound on the length of chains of subclasses. *)
Definition height_below (rank : C → nat) : Prop := ∀ c d, child c d → rank d < rank c.

Lemma walk_spec rank r n tmp found :
  height_below rank → (∀ c, c ∈ tmp → rank c < n) →
  walk n r tmp found = Some (found ++ filter (λ c, listed r c = true) (levels n tmp)).
Proof.
  intros Hrank. revert tmp found. induction n as [|n IH]; intros tmp found Htmp.
  { destruct tmp as [|c tmp]; [by rewrite app_nil_r|].
    specialize (Htmp c ltac:(set_solver)). lia. }
  destruct tmp as [|c tmp]; cbn [walk].
  { cbn [levels mbind list_bind app]. clear. induction n; cbn; [by rewrite app_nil_r|done]. }
  remember (c :: tmp) as l. rewrite <- (app_nil_r l) at 2. rewrite sweep_spec. cbn [app].
  rewrite IH.
  - cbn [levels]. by rewrite filter_app, (assoc_L (++)).
  - intros d (e & Hd & He)%list_elem_of_bind. specialize (Htmp e He).
    specialize (Hrank e d Hd). lia.
Qed.

Lemma elem_of_levels rank n l d :
  height_below rank → (∀ c, c ∈ l → rank c < n) →
  d ∈ levels n l ↔ ∃ c, c ∈ l ∧ rtc child c d.
Proof.
  intros Hrank. revert l. induction n as [|n IH]; intros l Hl; cbn [levels].
  { split; [set_solver|]. intros (c & Hc & _). specialize (Hl c Hc). lia. }
  rewrite elem_of_app, IH.
  - split.
    + intros [Hd|(c & (e & Hc & He)%list_elem_of_bind & Hcd)]; [by exists d|].
      exists e. split; [done|]. by eapply rtc_l.
    + intros (c & Hc & Hcd). inversion Hcd as [|? e ? Hce Hed]; subst; [by left|].
      right. exists e. split; [|done]. apply list_elem_of_bind. eauto.
  - intros d' (e & Hd & He)%list_elem_of_bind. specialize (Hl e He).
    specialize (Hrank e d' Hd). lia.
Qed.

Lemma get_subclasses_spec rank r :
  height_below rank →
  ∃ l, get_subclasses (rank (base_class r)) r = Some l ∧
       ∀ d, d ∈ l ↔ tc child (base_class r) d ∧ listed r d = true.
Proof.
  intros Hrank. unfold get_subclasses.
  assert (∀ c, c ∈ subclasses (base_class r) → rank c < rank (base_class r)) as Hl by apply Hrank.
  eexists. split; [by apply (walk_spec rank)|]. intros d. cbn [app].
  rewrite list_elem_of_filter, (elem_of_levels rank) by done. rewrite (comm (∧)). f_equiv.
  split.
  - intros (c & Hc & Hcd). by eapply tc_rtc_r; [apply tc_once|].
  - intros Ht. inversion Ht as [? ? Hbd|? e ? Hbe Hed]; subst; eauto using rtc, tc_rtc.
Qed.

(** Single inheritance below the base class. *)
Definition single_parent : Prop :=
  (∀ c, NoDup (subclasses c)) ∧ ∀ c c' d, child c d → child c' d → c = c'.
Definition antichain (l : list C) : Prop := ∀ c d, c ∈ l → d ∈ l → ¬ tc child c d.

Lemma rank_tc rank c d : height_below rank → tc child c d → rank d < rank c.
Proof.
  intros Hrank. induction 1 as [c d Hcd|c e d Hce _ IH]; [by apply Hrank|].
  specialize (Hrank c e Hce). lia.
Qed.

Lemma tc_last_step c d : tc child c d → ∃ p, rtc child c p ∧ child p d.
Proof.
  induction 1 as [c d Hcd|c e d Hce _ (p & Hep & Hpd)]; [by exists c|].
  exists p. split; [by eapply rtc_l|done].
Qed.

Lemma tc_child_rtc c d e : child c d → rtc child d e → tc child c e.
Proof. intros Hc Hd. eapply tc_rtc_r; [by apply tc_once|done]. Qed.

Lemma antichain_children l : single_parent → antichain l → antichain (l ≫= subclasses).
Proof.
  intros [_ Hp] Hl x y (q & Hqx & Hq)%list_elem_of_bind (p & Hpy & Hpl)%list_elem_of_bind Hxy.
  apply tc_last_step in Hxy as (p' & Hxp & Hp'y). rewrite (Hp p' p y Hp'y Hpy) in Hxp.
  apply (Hl q p Hq Hpl). by eapply tc_child_rtc.
Qed.

Lemma NoDup_children l : single_parent → NoDup l → NoDup (l ≫= subclasses).
Proof.
  intros [Hnd Hp]. induction 1 as [|c l Hc _ IH]; [apply NoDup_nil_2|].
  cbn. apply NoDup_app. split_and!; [done| |done].
  intros d Hd (e & Hde & He)%list_elem_of_bind. by rewrite (Hp c e d Hd Hde) in Hc.
Qed.

Lemma NoDup_levels rank n l :
  height_below rank → (∀ c, c ∈ l → rank c < n) →
  single_parent → antichain l → NoDup l → NoDup (levels n l).
Proof.
  intros Hrank Hn Hs. revert l Hn. induction n as [|n IH]; intros l Hn Ha Hl; [apply NoDup_nil_2|].
  assert (∀ d, d ∈ l ≫= subclasses → rank d < n) as Hn'.
  { intros d (e & Hd & He)%list_elem_of_bind. specialize (Hn e He). specialize (Hrank e d Hd). lia. }
  cbn [levels]. apply NoDup_app. split_and!; [done| |].
  - intros x Hx (c & (e & Hc & He)%list_elem_of_bind & Hcx)%(elem_of_levels rank); [|done..].
    apply (Ha e x He Hx). by eapply tc_child_rtc.
  - apply IH; [done|by apply antichain_children|by apply NoDup_children].
Qed.

Lemma get_subclasses_NoDup rank r l :
  height_below rank → single_parent → get_subclasses (rank (base_class r)) r = Some l → NoDup l.
Proof.
  intros Hrank Hs. unfold get_subclasses.
  assert (∀ c, c ∈ subclasses (base_class r) → rank c < rank (base_class r)) as Hl by apply Hrank.
  rewrite (walk_spec rank) by done. intros [= <-]. apply NoDup_filter.
  apply (NoDup_levels rank); [done..| |apply Hs].
  intros x y Hx Hy Hxy. apply tc_last_step in Hxy as (p & Hxp & Hpy).
  rewrite (proj2 Hs p _ y Hpy Hy) in Hxp.
  assert (tc child (base_class r) (base_class r)) as Hc by exact (tc_child_rtc _ x _ Hx Hxp).
  apply (rank_tc rank) in Hc; [lia|done].
Qed.

(** Nemesis discovery is complete and exact: for a class graph of finite height
    the loop ends within the height of the base class and returns precisely the
    classes derived from the base class, at any depth, that are neither excluded nor
    abstract; under single inheritance each of them once. *)
Theorem get_subclasses_exact rank r :
  height_below rank →
  ∃ l, get_subclasses (rank (base_class r)) r = Some l ∧
       (∀ d, d ∈ l ↔ tc child (base_class r) d ∧ d ∉ excluded_list r ∧ isabstract d = false) ∧
       (single_parent → NoDup l).
Proof.
  intros Hrank. destruct (get_subclasses_spec rank r Hrank) as (l & Hl & Hd).
  exists l. split_and!; [done| |].
  - intros d. rewrite Hd. unfold listed. rewrite andb_true_iff, !negb_true_iff, bool_decide_eq_false. done.
  - intros Hs. by eapply get_subclasses_NoDup.
Qed.

(** ** Selection *)
Definition has_flags (r : registry) (c : C) : Prop :=
  ∀ m, m ∈ members r → is_Some (class_attr c m).

(** The truth value of a name for a class: its own name, else the flag. *)
Definition class_flag (r : registry) (c : C) (id : string) : bool :=
  bool_decide (id = cls_name c) ||
  bool_decide (id ∈ members r) && truthy (default (VBool false) (class_attr c id)).

Lemma get_flags_spec (c : C) ms :
  (∀ m, m ∈ ms → is_Some (class_attr c m)) →
  ∃ flags, get_flags_from_class c ms = Ok flags ∧
    ∀ id, flags !! id = if decide (id ∈ ms) then class_attr c id else None.
Proof.
  induction ms as [|m ms IH]; intros Hm.
  { eexists. split; [done|]. intros id. by rewrite lookup_empty. }
  destruct IH as (flags & E & Hf); [set_solver|]. cbn [get_flags_from_class].
  destruct (Hm m) as [v Hv]; [set_solver|]. rewrite Hv, E. eexists. split; [done|].
  intros id. destruct (decide (id = m)) as [->|Hne].
  - rewrite lookup_insert_eq, decide_True by set_solver. done.
  - rewrite lookup_insert_ne, Hf by done. repeat case_decide; set_solver.
Qed.

Lemma nemesis_context_spec r c :
  has_flags r c →
  ∃ ctx, nemesis_context r c = Ok ctx ∧ ∀ id, flag ctx id = class_flag r c id.
Proof.
  intros Hf. destruct (get_flags_spec c (members r) Hf) as (flags & E & Hl).
  unfold nemesis_context. rewrite E. eexists. split; [done|]. intros id. unfold flag, class_flag.
  case_bool_decide as Hid; [subst; by rewrite lookup_insert_eq|].
  rewrite lookup_insert_ne, Hl by done. by case_decide; case_bool_decide.
Qed.

Lemma selected_spec r c d :
  has_flags r c → selected r (Some (ast_disj d)) c = Ok (sem_disj (class_flag r c) d).
Proof.
  intros Hf. destruct (nemesis_context_spec r c Hf) as (ctx & E & Hctx).
  unfold selected. rewrite E. destruct (visit_disj ctx d) as (v & Ev & Hv). cbn.
  rewrite Ev. cbn. by rewrite Hv, (proj2 (proj2 (sem_ext _ _ Hctx))).
Qed.

Lemma filter_loop_spec r (e : option expr) (P : C → bool) l :
  (∀ c, c ∈ l → selected r e c = Ok (P c)) →
  filter_loop r e l = Ok (filter (λ c, P c = true) l).
Proof.
  induction l as [|c l IH]; intros Hl; [done|]. cbn [filter_loop].
  rewrite Hl, IH by set_solver. cbn [obind]. rewrite filter_cons. by destruct (P c).
Qed.

Section Phrases.
Context (ast_parse : string → outcome exn expr) (fuel : nat).
Hypothesis ast_parse_fragment : ∀ s d, parse_bool s = Some d → ast_parse s = Ok (ast_disj d).

(** A phrase of the fragment selects the discovered classes that satisfy it. *)
Lemma filter_subclasses_phrase r s d l :
  parse_bool s = Some d → get_subclasses fuel r = Some l → (∀ c, c ∈ l → has_flags r c) →
  filter_subclasses ast_parse fuel r (Some s) =
  Ok (filter (λ c, sem_disj (class_flag r c) d = true) l).
Proof using ast_parse_fragment.
  intros Hs Hl Hf. unfold filter_subclasses.
  assert (truthy (Some s) = true) as ->.
  { apply parse_bool_nonempty in Hs. by destruct s. }
  cbn. rewrite (ast_parse_fragment s d Hs). cbn. rewrite Hl.
  apply filter_loop_spec. intros c Hc. apply selected_spec. auto.
Qed.

(** Without a phrase, or with an empty one, every discovered class is selected. *)
Lemma filter_subclasses_all r phrase l :
  truthy phrase = false → get_subclasses fuel r = Some l → (∀ c, c ∈ l → has_flags r c) →
  filter_subclasses ast_parse fuel r phrase = Ok l.
Proof using Type.
  intros Hp Hl Hf. unfold filter_subclasses. rewrite Hp. cbn. rewrite Hl.
  rewrite (filter_loop_spec r None (λ _, true)).
  - by rewrite filter_always.
  - intros c Hc. destruct (nemesis_context_spec r c (Hf c Hc)) as (ctx & E & _).
    unfold selected. by rewrite E.
Qed.
End Phrases.
End Registry.

(** ** An example hierarchy *)
Inductive ex_cls : Type := Flags | Base | Repair | Drain | Table | Encrypt.
#[export] Instance ex_cls_eq_dec : EqDecision ex_cls.
Proof. solve_decision. Defined.

Definition ex_attr (c : ex_cls) (a : string) : option pyval :=
  if String.eqb a "kubernetes" then Some (VBool (bool_decide (c = Repair ∨ c = Encrypt)))
  else if String.eqb a "disruptive" then Some (VBool (bool_decide (c = Drain)))
  else None.

#[local] Instance ex_graph : ClassGraph ex_cls := {|
  subclasses c := match c with Flags => [Base] | Base => [Repair; Table; Drain] | Table => [Encrypt] | _ => [] end;
  cls_name c := match c with
    | Flags => "NemesisFlags" | Base => "NemesisBaseClass" | Repair => "RepairMonkey"
    | Drain => "DrainerMonkey" | Table => "TableBase" | Encrypt => "EncryptMonkey" end;
  isabstract c := bool_decide (c = Base ∨ c = Table);
  getmembers c := [("__init__", true); ("__module__", false); ("disruptive", false); ("kubernetes", false)];
  class_attr := ex_attr;
|}.

Definition ex_rank (c : ex_cls) : nat :=
  match c with Flags => 4 | Base => 3 | Table => 1 | _ => 0 end.
Definition ex_registry : registry := make_registry Base Flags None.

Lemma ex_child c d : child c d →
  (c, d) ∈ [(Flags, Base); (Base, Repair); (Base, Table); (Base, Drain); (Table, Encrypt)].
Proof.
  unfold child. rewrite !list_elem_of_In. destruct c; cbn; intuition (subst; auto).
Qed.

Lemma ex_height : height_below ex_rank.
Proof.
  intros c d Hd%ex_child. rewrite list_elem_of_In in Hd. cbn in Hd.
  destruct c, d; cbn; first [lia|intuition congruence].
Qed.

Lemma get_subclasses_exact_witness :
  height_below ex_rank ∧ get_subclasses 3 ex_registry = Some [Repair; Drain; Encrypt] ∧
  ∃ l, get_subclasses (ex_rank (base_class ex_registry)) ex_registry = Some l ∧
       (∀ d, d ∈ l ↔ tc child (base_class ex_registry) d ∧ d ∉ excluded_list ex_registry ∧
                     isabstract d = false) ∧
       (single_parent → NoDup l).
Proof.
  split; [exact ex_height|]. split; [by vm_compute|].
  exact (get_subclasses_exact ex_rank ex_registry ex_height).
Defined.
End NemesisRegistry.
