(* ===== verification/NemesisSelection.v ===== *)
(** * Choosing the disruptions of a nemesis runner

    Model of the selection code of [NemesisRunner] ([sdcm/nemesis/__init__.py]:
    [build_disruptions_by_selector], [build_disruptions_by_name],
    [nemesis_selector], [precheck_nemesis], [shuffle_list_of_disruptions]) and of the
    runners that choose by it ([sdcm/nemesis/monkey/runners.py]:
    [FixedOrderMonkey], [CategoricalMonkey]).

    A nemesis object is its class with the number it was constructed as. Whether a
    class's constructor succeeds ([constructs]) and what [precheck] answers are
    arguments; a precheck raises an exception or returns an optional reason. Reports to
    the event system and to Argus are recorded as [report]s. Weights are rationals. *)
From Stdlib Require Import Ascii QArith.
From stdpp Require Import base decidable option strings numbers gmap sets list.
From S2P Require Import Prelude.
From S2P Require Import PyString.
From S2P Require Import PyVal.
From S2P Require Import PyDict.
From S2P Require Import Selector.
From S2P Require Import NemesisRegistry.
Local Open Scope py_scope.
Local Open Scope nat_scope.

Module NemesisSelection.
Import Selector NemesisRegistry.

Record instance (C : Type) := Instance { inst_class : C; inst_id : nat }.
Arguments Instance {C} _ _.
Arguments inst_class {C} _.
Arguments inst_id {C} _.
#[export] Instance instance_eq_dec {C} `{EqDecision C} : EqDecision (instance C).
Proof. solve_decision. Defined.

Inductive sel_exn : Type :=
  | RegistryError (e : reg_exn)
  | UnknownNames (names : list string)
  | NoneLeft
  | NegativeWeight
  | WeightTypeError
  | NoPositiveWeight.

Definition lift_reg {A} (x : outcome reg_exn A) : outcome sel_exn A :=
  match x with Ok a => Ok a | Err e => Err (RegistryError e) end.

(** The [nemesis_selector] property; [own] is [_nemesis_selector]. *)
Definition nemesis_selector (own : option string) (p : params) : pyval :=
  match own with
  | Some s => VStr s
  | None =>
    match pget "nemesis_selector" p with
    | VList [] => VStr EmptyString
    | VList (v :: _) => v
    | v => if truthy v then v else VStr EmptyString
    end
  end.

Section Build.
Context {C : Type} `{EqDecision C, ClassGraph C}.
Context (ast_parse : string → outcome exn expr) (fuel : nat).
Context (constructs : C → bool).

(** The constructor loop; a class whose constructor raises is skipped. *)
Fixpoint instantiate (k : nat) (classes : list C) : list (instance C) :=
  match classes with
  | [] => []
  | c :: classes' =>
    if constructs c then Instance c k :: instantiate (S k) classes' else instantiate k classes'
  end.

Definition kubernetes_selector (on_kubernetes : bool) (selector : option string) : option string :=
  if on_kubernetes then
    (if truthy selector then Some (default EmptyString selector +:+ " and kubernetes")
     else Some "kubernetes")
  else selector.

Definition build_disruptions_by_selector (r : registry) (on_kubernetes : bool) (selector : option string)
    : outcome reg_exn (list (instance C)) :=
  try! classes := filter_subclasses ast_parse fuel r (kubernetes_selector on_kubernetes selector) in
  Ok (instantiate 0 classes).

(** [{func.__class__.__name__: func for func in filtered}]. *)
Definition by_class_name (l : list (instance C)) : list (string * instance C) :=
  foldl (λ d i, dict_set (cls_name (inst_class i)) i d) [] l.

Definition name_selector (nemesis_selector : string) (disrupt_methods : list string) : string :=
  let method_selector := join " or " disrupt_methods in
  if truthy nemesis_selector then nemesis_selector +:+ " and (" +:+ method_selector +:+ ")"
  else method_selector.

Definition build_disruptions_by_name (r : registry) (on_kubernetes : bool) (nemesis_selector : string)
    (disrupt_methods : list string) : outcome sel_exn (list (instance C)) :=
  match get_subclasses fuel r with
  | None => Err (RegistryError Diverges)
  | Some classes =>
    let known := map cls_name classes in
    let unknown := filter (λ n, n ∉ known) disrupt_methods in
    if truthy unknown then Err (UnknownNames unknown)
    else
      let selector := name_selector nemesis_selector disrupt_methods in
      try! filtered := lift_reg (build_disruptions_by_selector r on_kubernetes (Some selector)) in
      let by_name := by_class_name filtered in
      match by_name with
      | [] => Err NoneLeft
      | _ => Ok by_name.*2
      end
  end.

(** ** FixedOrderMonkey *)
Definition fixed_order_names (nemesis_selector : string) : list string :=
  filter (λ n, n ≠ EmptyString) (map strip (split_on "," nemesis_selector)).

Fixpoint fixed_order_loop (classes_by_name : list (string * C)) (names : list string)
    (instances : list (string * instance C)) : outcome sel_exn (list (instance C)) :=
  match names with
  | [] => Ok []
  | n :: names' =>
    match dict_get n classes_by_name with
    | None => Err (UnknownNames [n])
    | Some c =>
      let '(i, instances) :=
        match dict_get n instances with
        | Some i => (i, instances)
        | None => let i := Instance c (length instances) in (i, dict_set n i instances)
        end in
      try! rest := fixed_order_loop classes_by_name names' instances in
      Ok (i :: rest)
    end
  end.

Definition resolve_fixed_order (r : registry) (names : list string) : outcome sel_exn (list (instance C)) :=
  match get_subclasses fuel r with
  | None => Err (RegistryError Diverges)
  | Some classes =>
    fixed_order_loop (foldl (λ d c, dict_set (cls_name c) c d) [] classes) names []
  end.

(** ** CategoricalMonkey *)

(** What [float(val)] makes of a configured weight: a number, [ValueError] (or nan), [TypeError]. *)
Inductive weight : Type :=
  | Number (q : Q)
  | NotNumber
  | WrongType.

Fixpoint distribution_loop (all_methods : list (string * instance C)) (dist : list (string * weight))
    : outcome sel_exn (list (instance C * Q)) :=
  match dist with
  | [] => Ok []
  | (name, w) :: dist' =>
    match dict_get name all_methods with
    | None => Err (UnknownNames [name])
    | Some m =>
      match w with
      | WrongType => Err WeightTypeError
      | NotNumber => Err NegativeWeight
      | Number q =>
        if Qle_bool 0 q then
          try! rest := distribution_loop all_methods dist' in
          Ok (if negb (Qle_bool q 0) then (m, q) :: rest else rest)
        else Err NegativeWeight
      end
    end
  end.

(** The population with its weights. *)
Definition get_disruption_distribution (r : registry) (on_kubernetes : bool) (nemesis_selector : string)
    (dist : list (string * weight)) (default_weight : Q) : outcome sel_exn (list (instance C * Q)) :=
  try! methods := lift_reg (build_disruptions_by_selector r on_kubernetes (Some nemesis_selector)) in
  let all_methods := by_class_name methods in
  try! population := distribution_loop all_methods dist in
  let population :=
    if negb (Qle_bool default_weight 0)
    then population ++ map (λ p, (p.2, default_weight))
                           (filter (λ p, p.1 ∉ dist.*1) all_methods)
    else population in
  match population with
  | [] => Err NoPositiveWeight
  | _ => Ok population
  end.

(** ** Precheck *)
Record report := Report { rep_name : string; rep_reason : string; rep_error : bool }.

(** What the first object of a class decides: [None] keeps the class. *)
Definition precheck_result (answer : outcome string (option string)) : option (string * bool) :=
  match answer with
  | Ok None => None
  | Ok (Some reason) => Some (reason, false)
  | Err message => Some (message, true)
  end.

Fixpoint precheck_loop (precheck : instance C → outcome string (option string))
    (results : gmap string (option (string * bool))) (l : list (instance C))
    : list (instance C) * list report :=
  match l with
  | [] => ([], [])
  | n :: l' =>
    let name := cls_name (inst_class n) in
    match results !! name with
    | Some res =>
      let '(runnable, excluded) := precheck_loop precheck results l' in
      (match res with None => n :: runnable | Some _ => runnable end, excluded)
    | None =>
      let res := precheck_result (precheck n) in
      let '(runnable, excluded) := precheck_loop precheck (<[name := res]> results) l' in
      match res with
      | None => (n :: runnable, excluded)
      | Some (reason, is_error) => (runnable, Report name reason is_error :: excluded)
      end
    end
  end.

(** The new [disruptions_list] and the exclusions, each reported once. *)
Definition precheck_nemesis (precheck : instance C → outcome string (option string))
    (disruptions_list : list (instance C)) : list (instance C) * list report :=
  precheck_loop precheck ∅ disruptions_list.

(** [CategoricalMonkey.precheck_nemesis]: [weight_by_nemesis] is the dict built by the
    constructor; the lookup raises [KeyError] for an object it does not know. *)
Definition categorical_precheck (precheck : instance C → outcome string (option string))
    (population : list (instance C * Q)) : option (list (instance C * Q)) * list report :=
  let weight_by_nemesis := foldl (λ d p, dict_set p.1 p.2 d) [] population in
  let '(runnable, excluded) := precheck_nemesis precheck population.*1 in
  (mapM (λ n, w ← dict_get n weight_by_nemesis; Some (n, w)) runnable, excluded).

(** ** Shuffling; [shuffle] is the runner's seeded random permutation. *)
Definition shuffle_list_of_disruptions (shuffle : list (instance C) → list (instance C))
    (p : params) (disruption_list : list (instance C)) (nemesis_multiply_factor : option Z)
    : list (instance C) :=
  let factor : Z :=
    if truthy nemesis_multiply_factor then default 0%Z nemesis_multiply_factor
    else match pget "nemesis_multiply_factor" p with
         | VInt z => if truthy z then z else 1%Z
         | _ => 1%Z
         end in
  shuffle (concat (replicate (Z.to_nat factor) disruption_list)).

(** ** Selection by a phrase *)
Lemma instantiate_classes k l : map inst_class (instantiate k l) = filter (λ c, constructs c = true) l.
Proof.
  revert k. induction l as [|c l IH]; intros k; [done|]. cbn [instantiate]. rewrite filter_cons.
  destruct (constructs c); cbn [map]; [|apply IH]. rewrite decide_True by done. f_equal. apply IH.
Qed.

Section Phrases.
Hypothesis ast_parse_fragment : ∀ s d, parse_bool s = Some d → ast_parse s = Ok (ast_disj d).

(** The classes the phrase [d] asks for, with [kubernetes] required of the last
    disjunct when the cluster is a Kubernetes one. *)
Definition selector_keeps (r : registry) (on_kubernetes : bool) (d : disjunction_t) (c : C) : bool :=
  sem_front (class_flag r c) d ||
  sem_last (class_flag r c) d && (negb on_kubernetes || class_flag r c "kubernetes").

Lemma build_by_selector_classes r k8s s d classes :
  parse_bool s = Some d → get_subclasses fuel r = Some classes →
  (∀ c, c ∈ classes → has_flags r c) →
  ∃ l, build_disruptions_by_selector r k8s (Some s) = Ok l ∧
       map inst_class l =
         filter (λ c, constructs c = true) (filter (λ c, selector_keeps r k8s d c = true) classes).
Proof using ast_parse_fragment.
  intros Hs Hc Hf. unfold build_disruptions_by_selector, kubernetes_selector.
  assert (truthy (Some s) = true) as -> by (apply parse_bool_nonempty in Hs; by destruct s).
  set (d' := if k8s then disj_and d (IName "kubernetes") else d).
  assert (parse_bool (default EmptyString (if k8s then Some (s +:+ " and kubernetes") else Some s)) = Some d') as Hd'.
  { unfold d'. destruct k8s; cbn [from_option]; unfold id; [|done]. by apply (parse_bool_and s "kubernetes"). }
  exists (instantiate 0 (filter (λ c, selector_keeps r k8s d c = true) classes)).
  split; [|apply instantiate_classes].
  assert (filter (λ c, selector_keeps r k8s d c = true) classes =
          filter (λ c, sem_disj (class_flag r c) d' = true) classes) as ->.
  { apply list_filter_iff. intros c. unfold selector_keeps, d'.
    destruct k8s; [by rewrite sem_disj_and|]. by rewrite sem_front_last, andb_true_r. }
  destruct k8s; cbn [from_option id] in *; unfold id in *; by rewrite (filter_subclasses_phrase _ _ ast_parse_fragment _ _ _ _ Hd' Hc Hf).
Qed.


(** On Kubernetes the [kubernetes] flag is required of the last disjunct of the phrase only: a
    class that satisfies one of the others is selected without it. *)
Theorem kubernetes_restricts_last_disjunct r s d classes c :
  parse_bool s = Some d → get_subclasses fuel r = Some classes →
  (∀ c, c ∈ classes → has_flags r c) →
  c ∈ classes → constructs c = true → sem_front (class_flag r c) d = true →
  ∃ l, build_disruptions_by_selector r true (Some s) = Ok l ∧ c ∈ map inst_class l.
Proof using ast_parse_fragment.
  intros Hs Hc Hf Hin Hk Hfront. destruct (build_by_selector_classes r true s d classes Hs Hc Hf) as (l & El & Hl).
  exists l. split; [done|]. rewrite Hl, !list_elem_of_filter. split; [done|]. split; [|done].
  unfold selector_keeps. by rewrite Hfront.
Qed.

Lemma by_class_name_values l :
  NoDup (map (λ i, cls_name (inst_class i)) l) → (by_class_name l).*2 = l.
Proof.
  clear. unfold by_class_name. intros Hnd.
  assert (foldl (λ d i, dict_set (cls_name (inst_class i)) i d) [] l =
          foldl (λ d p, dict_set p.1 p.2 d) [] (map (λ i, (cls_name (inst_class i), i)) l)) as ->.
  { generalize (@nil (string * instance C)) as acc. induction l as [|i l IH]; intros acc; [done|].
    apply IH. by apply NoDup_cons in Hnd as [_ ?]. }
  rewrite dict_of_pairs; cbn [app]; rewrite <- list_fmap_compose; [apply list_fmap_id|exact Hnd].
Qed.

Lemma NoDup_map_sub (l : list (instance C)) (P Q : C → Prop)
    `{∀ c, Decision (P c), ∀ c, Decision (Q c)} classes :
  map inst_class l = filter P (filter Q classes) → NoDup (map cls_name classes) →
  NoDup (map (λ i, cls_name (inst_class i)) l).
Proof.
  intros El Hnd. rewrite <- (map_map inst_class cls_name), El.
  eapply sublist_NoDup; [exact Hnd|]. apply (fmap_sublist cls_name).
  etrans; apply sublist_filter.
Qed.

(** A selector joined to requested names does not restrict to those names: when the
    runner's own selector is a disjunction, every class that satisfies one of its
    disjuncts but the last is returned for any list of requested names. *)
Theorem by_name_keeps_unrequested r k8s s d w ws classes c :
  parse_bool s = Some d → get_subclasses fuel r = Some classes →
  (∀ c, c ∈ classes → has_flags r c) → NoDup (map cls_name classes) →
  Forall (λ n, plain_name n = true) (w :: ws) → (∀ n, n ∈ w :: ws → n ∈ map cls_name classes) →
  c ∈ classes → constructs c = true → sem_front (class_flag r c) d = true →
  ∃ l, build_disruptions_by_name r k8s s (w :: ws) = Ok l ∧ c ∈ map inst_class l.
Proof using ast_parse_fragment.
  intros Hs Hc Hf Hnd Hplain Hknown Hin Hcons Hfront. unfold build_disruptions_by_name.
  rewrite Hc, filter_never by (intros n Hn Hx; by apply Hx, Hknown). cbn [truthy truthy_list].
  assert (truthy s = true) as Hts by (apply parse_bool_nonempty in Hs; by destruct s).
  unfold name_selector. rewrite Hts.
  assert (parse_bool (s +:+ " and (" +:+ join " or " (w :: ws) +:+ ")") =
          Some (disj_and d (IParen (any_name w ws)))) as Hp.
  { apply (parse_bool_and s ("(" +:+ join " or " (w :: ws) +:+ ")")); [done|].
    by apply lex_paren, lex_names. }
  destruct (build_by_selector_classes r k8s _ _ classes Hp Hc Hf) as (l & -> & Hl).
  assert (c ∈ map inst_class l) as Hcl.
  { rewrite Hl, !list_elem_of_filter. split_and!; [done| |done]. unfold selector_keeps.
    by rewrite sem_front_disj_and, Hfront. }
  cbn [lift_reg obind]. exists l. split; [|done].
  rewrite <- (by_class_name_values l) at 2 by (by eapply NoDup_map_sub).
  destruct (by_class_name l) eqn:Eb; [|done].
  rewrite <- (by_class_name_values l), Eb in Hcl by (by eapply NoDup_map_sub). by apply not_elem_of_nil in Hcl.
Qed.
End Phrases.
End Build.

(** ** Precheck *)
Section Precheck.
Context {C : Type} `{EqDecision C, ClassGraph C}.
Context (precheck : instance C → outcome string (option string)).

Definition iname (i : instance C) : string := cls_name (inst_class i).

(** What the first object of the named class in the list answered. *)
Definition decision (results : gmap string (option (string * bool))) (l : list (instance C))
    (name : string) : option (option (string * bool)) :=
  match results !! name with
  | Some res => Some res
  | None => (λ j, precheck_result (precheck j)) <$> head (filter (λ j, iname j = name) l)
  end.

Lemma decision_known results n l nm :
  is_Some (results !! iname n) → decision results (n :: l) nm = decision results l nm.
Proof.
  intros [res Hres]. unfold decision. destruct (results !! nm) eqn:E; [done|].
  rewrite filter_cons_False; [done|]. intros <-. congruence.
Qed.

Lemma decision_new results n l nm :
  results !! iname n = None →
  decision results (n :: l) nm =
  decision (<[iname n := precheck_result (precheck n)]> results) l nm.
Proof.
  intros Hres. unfold decision. destruct (decide (nm = iname n)) as [->|Hne].
  - rewrite Hres, lookup_insert_eq, filter_cons_True by done. done.
  - rewrite lookup_insert_ne by done. by rewrite filter_cons_False by done.
Qed.

Lemma precheck_loop_runnable results l :
  (precheck_loop precheck results l).1 =
  filter (λ i, decision results l (iname i) = Some None) l.
Proof.
  revert results. induction l as [|n l IH]; intros results; [done|]. cbn [precheck_loop].
  fold (iname n). destruct (results !! iname n) as [res|] eqn:Hres.
  - specialize (IH results). destruct (precheck_loop precheck results l) as [run exc].
    cbn [fst] in *. subst run. rewrite filter_cons, (decision_known results n l (iname n)) by eauto.
    rewrite (list_filter_iff (λ i, decision results (n :: l) (iname i) = Some None)
               (λ i, decision results l (iname i) = Some None))
      by (intros i; by rewrite decision_known by eauto).
    assert (decision results l (iname n) = Some res) as -> by (unfold decision; by rewrite Hres).
    destruct res; by repeat case_decide.
  - set (res := precheck_result (precheck n)). specialize (IH (<[iname n := res]> results)).
    destruct (precheck_loop precheck _ l) as [run exc]. cbn [fst] in *. subst run.
    rewrite filter_cons, (decision_new results n l (iname n)) by done.
    rewrite (list_filter_iff (λ i, decision results (n :: l) (iname i) = Some None)
               (λ i, decision (<[iname n := res]> results) l (iname i) = Some None))
      by (intros i; by rewrite decision_new).
    fold res. assert (decision (<[iname n := res]> results) l (iname n) = Some res) as ->
      by (unfold decision; by rewrite lookup_insert_eq).
    destruct res as [[]|]; by repeat case_decide.
Qed.

Lemma precheck_loop_excluded results l :
  NoDup (map rep_name (precheck_loop precheck results l).2) ∧
  ∀ rep, rep ∈ (precheck_loop precheck results l).2 ↔
    results !! rep_name rep = None ∧
    decision results l (rep_name rep) = Some (Some (rep_reason rep, rep_error rep)).
Proof.
  revert results. induction l as [|n l IH]; intros results.
  { cbn. split; [apply NoDup_nil_2|]. intros rep. unfold decision. split; [set_solver|].
    intros [E1 E2]. by rewrite E1 in E2. }
  cbn [precheck_loop]. fold (iname n). destruct (results !! iname n) as [res|] eqn:Hres.
  - specialize (IH results). destruct (precheck_loop precheck results l) as [run exc]. cbn [snd] in *.
    split; [apply IH|]. intros rep. rewrite decision_known by eauto. apply IH.
  - set (res := precheck_result (precheck n)).
    destruct (IH (<[iname n := res]> results)) as [Hnd Hin]. clear IH.
    destruct (precheck_loop precheck _ l) as [run exc]. cbn [snd] in *.
    assert (∀ rep, rep ∈ exc → rep_name rep ≠ iname n) as Hne.
    { intros rep [Hr _]%Hin E. by rewrite E, lookup_insert_eq in Hr. }
    assert (∀ rep, rep ∈ exc ↔ rep_name rep ≠ iname n ∧ results !! rep_name rep = None ∧
              decision results (n :: l) (rep_name rep) = Some (Some (rep_reason rep, rep_error rep))) as Hin'.
    { intros rep. rewrite (decision_new results n l) by done. fold res. split.
      - intros Hr. pose proof (Hne rep Hr). apply Hin in Hr as [Hr ?]. by rewrite lookup_insert_ne in Hr.
      - intros (Hn & Hr & Hd). apply Hin. by rewrite lookup_insert_ne by done. }
    assert (decision results (n :: l) (iname n) = Some res) as Hd.
    { rewrite decision_new by done. unfold decision. by rewrite lookup_insert_eq. }
    clear Hin. destruct res as [[reason err]|]; cbn [snd].
    + cbn [map]. split; [apply NoDup_cons; split; [|done]|].
      * intros (rep & Hr & Hrep)%list_elem_of_fmap. by apply (Hne rep Hrep).
      * intros rep. rewrite elem_of_cons, Hin'. split.
        -- intros [->|(_ & ? & ?)]; cbn; auto.
        -- intros [Hr Hdr]. destruct (decide (rep_name rep = iname n)) as [E|]; [left|auto].
           rewrite E, Hd in Hdr. destruct rep; cbn in *; congruence.
    + split; [done|]. intros rep. rewrite Hin'. split; [tauto|]. intros [Hr Hdr]. split_and!; [|done..].
      intros E. rewrite E, Hd in Hdr. done.
Qed.

(** The precheck splits the disruptions by the answer of the first object of each
    class: the list kept is exactly the sublist of the classes that answered [None];
    every other class is reported exactly once with its reason, as an error precisely when
    its precheck raised; so every disruption is kept or its class is reported, not both. *)
Theorem precheck_exact l :
  let '(runnable, excluded) := precheck_nemesis precheck l in
  runnable = filter (λ i, decision ∅ l (iname i) = Some None) l ∧
  NoDup (map rep_name excluded) ∧
  (∀ name reason err, Report name reason err ∈ excluded ↔
     ∃ j, head (filter (λ j, iname j = name) l) = Some j ∧
          precheck_result (precheck j) = Some (reason, err)) ∧
  (∀ i, i ∈ l → (i ∈ runnable ↔ iname i ∉ map rep_name excluded)).
Proof.
  unfold precheck_nemesis. pose proof (precheck_loop_runnable ∅ l) as Hrun.
  destruct (precheck_loop_excluded ∅ l) as [Hnd Hex].
  destruct (precheck_loop precheck ∅ l) as [run exc]. cbn [fst snd] in *. subst run.
  split_and!; [done|done| |].
  - intros name reason err. rewrite Hex. cbn. unfold decision. rewrite lookup_empty.
    split.
    + intros [_ Hd]. destruct (head _) as [j|]; [|done]. exists j. split; [done|].
      change (Some (precheck_result (precheck j)) = Some (Some (reason, err))) in Hd. congruence.
    + intros (j & -> & Hj). split; [done|]. cbn [fmap option_fmap option_map]. by rewrite Hj.
  - intros i Hi. rewrite list_elem_of_filter.
    assert (∃ o, decision ∅ l (iname i) = Some o) as [o Ho].
    { unfold decision. rewrite lookup_empty. destruct (filter (λ j, iname j = iname i) l) eqn:E; [|by eexists].
      assert (i ∈ filter (λ j, iname j = iname i) l) as Hf by (by apply list_elem_of_filter).
      rewrite E in Hf. by apply not_elem_of_nil in Hf. }
    rewrite Ho. split.
    + intros [[= ->] _] (rep & Hr & Hrep)%list_elem_of_fmap. apply Hex in Hrep as [_ Hrep]. congruence.
    + intros Hnot. split; [|done]. destruct o as [[reason err]|]; [|done]. destruct Hnot.
      apply list_elem_of_fmap. exists (Report (iname i) reason err). split; [done|]. apply Hex.
      by rewrite lookup_empty.
Qed.
End Precheck.

(** ** Weighted choice *)
Section Weights.
Context {C : Type} `{EqDecision C, ClassGraph C}.

Definition named (all_methods : list (string * instance C)) : Prop :=
  dict_wf all_methods ∧ ∀ name m, (name, m) ∈ all_methods → iname m = name.

Lemma by_class_name_named (l : list (instance C)) : named (by_class_name l).
Proof.
  unfold by_class_name.
  enough (∀ acc, named acc → named (foldl (λ d i, dict_set (iname i) i d) acc l)) as Hgen.
  { apply Hgen. split; [apply NoDup_nil_2|set_solver]. }
  induction l as [|i l IH]; intros acc [Hwf Hn]; cbn [foldl]; [done|]. apply IH.
  split; [by apply dict_set_wf|]. intros name m Hin.
  pose proof (dict_set_wf (iname i) i acc Hwf) as Hwf'.
  apply (dict_elem_get _ _ _ Hwf') in Hin. rewrite dict_get_set in Hin. case_decide; simplify_eq; [done|].
  apply Hn. by apply dict_get_elem.
Qed.

Lemma named_keys (dw : Q) (l : list (string * instance C)) :
  (∀ name m, (name, m) ∈ l → iname m = name) →
  map iname (map (λ p, (p.2, dw)) l).*1 = l.*1.
Proof.
  induction l as [|[name m] l IH]; intros Hl; [done|]. cbn. f_equal; [apply Hl; set_solver|].
  apply IH. set_solver.
Qed.

Lemma Qle_bool_false q : Qle_bool q 0 = false → (0 < q)%Q.
Proof.
  intros Hq. apply Qnot_le_lt. intros Hle. apply Qle_bool_iff in Hle. congruence.
Qed.

Lemma distribution_loop_spec all dist pop :
  named all → NoDup dist.*1 → distribution_loop all dist = Ok pop →
  NoDup (map iname pop.*1) ∧
  (∀ m w, (m, w) ∈ pop → (iname m, Number w) ∈ dist ∧ (0 < w)%Q ∧ (iname m, m) ∈ all) ∧
  (∀ name q, (name, Number q) ∈ dist → (0 < q)%Q → ∃ m, (m, q) ∈ pop ∧ iname m = name).
Proof.
  intros [Hwf Hnm]. revert pop. induction dist as [|[name w] dist IH]; intros pop Hnd Hpop; simplify_eq/=.
  { split_and!; [apply NoDup_nil_2|set_solver..]. }
  apply NoDup_cons in Hnd as [Hname Hnd].
  destruct (dict_get name all) as [m|] eqn:Em; [|done]. destruct w as [q| |]; try done.
  destruct (Qle_bool 0 q) eqn:Eq; [|done].
  destruct (distribution_loop all dist) as [rest|] eqn:Er; [|done]. cbn in Hpop.
  destruct (IH rest Hnd eq_refl) as (Hnd' & Hin & Hcov). apply dict_get_elem in Em.
  pose proof (Hnm _ _ Em) as Hm.
  destruct (Qle_bool q 0) eqn:Eq0; simplify_eq/=.
  - split_and!; [done| |].
    + intros m' w' Hm'. destruct (Hin _ _ Hm') as (? & ? & ?). set_solver.
    + intros name q' [[= -> ->]|Hd]%elem_of_cons Hq'; [|by apply Hcov].
      apply Qle_bool_iff in Eq0. by destruct (Qlt_not_le _ _ Hq').
  - split_and!.
    + apply NoDup_cons. split; [|done]. intros (m' & Hm' & Hx)%list_elem_of_fmap.
      apply list_elem_of_fmap in Hx as ([m'' w'] & -> & Hw). cbn in Hm'.
      destruct (Hin _ _ Hw) as (Hd & _). rewrite <- Hm' in Hd.
      apply Hname, list_elem_of_fmap. by exists (iname m, Number w').
    + intros m' w' [[= -> ->]|Hm']%elem_of_cons.
      * split_and!; [set_solver|by apply Qle_bool_false|done].
      * destruct (Hin _ _ Hm') as (? & ? & ?). set_solver.
    + intros name q' [[= -> ->]|Hd]%elem_of_cons Hq'; [exists m; set_solver|].
      destruct (Hcov name q' Hd Hq') as (m' & ? & ?). exists m'. set_solver.
Qed.

(** The weight the configuration gives a disruption. *)
Definition configured (dist : list (string * weight)) (default_weight : Q) (m : instance C) : option Q :=
  match dict_get (iname m) dist with
  | Some (Number q) => Some q
  | Some _ => None
  | None => Some default_weight
  end.

Lemma configured_listed dist dw m w :
  NoDup dist.*1 → (iname m, Number w) ∈ dist → configured dist dw m = Some w.
Proof. intros Hd Hm. unfold configured. by rewrite (dict_elem_get _ _ _ Hd Hm). Qed.

Lemma configured_unlisted dist dw m : iname m ∉ dist.*1 → configured dist dw m = Some dw.
Proof. intros Hm. unfold configured. by rewrite (proj2 (dict_get_None _ _)). Qed.

Lemma distribution_spec ast_parse fuel constructs r k8s s dist dw pop :
  NoDup dist.*1 →
  get_disruption_distribution ast_parse fuel constructs r k8s s dist dw = Ok pop →
  NoDup (map iname pop.*1) ∧ ∀ m w, (m, w) ∈ pop → (0 < w)%Q ∧ configured dist dw m = Some w.
Proof.
  intros Hd. unfold get_disruption_distribution.
  destruct (build_disruptions_by_selector _ _ _ _ _ _) as [methods|]; [|done]. cbn [lift_reg obind].
  remember (by_class_name methods) as all. assert (named all) as Hall by (subst; apply by_class_name_named).
  destruct (distribution_loop all dist) as [listed|] eqn:El; [|done]. cbn [obind].
  destruct (distribution_loop_spec all dist listed Hall Hd El) as (Hnd & Hin & _).
  assert (∀ m w, (m, w) ∈ listed → (0 < w)%Q ∧ configured dist dw m = Some w) as Hlisted.
  { intros m w (? & ? & _)%Hin. split; [done|]. by apply configured_listed. }
  destruct (Qle_bool dw 0) eqn:Edw; cbn [negb].
  { destruct listed; [done|]. by intros [= <-]. }
  remember (map (λ p : string * instance C, (p.2, dw)) _) as unlisted.
  assert (∀ m w, (m, w) ∈ unlisted → w = dw ∧ iname m ∉ dist.*1) as Hun.
  { subst unlisted. intros m w ([name m'] & [= -> ->] & [Hn Hm]%list_elem_of_filter)%list_elem_of_fmap.
    cbn in Hn. by rewrite (proj2 Hall _ _ Hm). }
  assert (map iname unlisted.*1 = (filter (λ p, p.1 ∉ dist.*1) all).*1) as Hkeys.
  { subst unlisted. apply named_keys. intros name m Hm.
    apply list_elem_of_filter in Hm as [_ Hm]. by apply (proj2 Hall). }
  intros E. assert (pop = listed ++ unlisted) as -> by (destruct (listed ++ unlisted); congruence).
  clear E. split.
  - rewrite fmap_app, map_app. apply NoDup_app. split_and!; [done| |].
    + intros x (m & -> & Hm)%list_elem_of_fmap Hx. rewrite Hkeys in Hx.
      apply list_elem_of_fmap in Hm as ([m' w] & -> & Hm). destruct (Hin _ _ Hm) as (Hl & _).
      apply list_elem_of_fmap in Hx as (p & Hp & [Hn _]%list_elem_of_filter).
      apply Hn. rewrite <- Hp. apply list_elem_of_fmap. by exists (iname m', Number w).
    + rewrite Hkeys. eapply sublist_NoDup; [apply Hall|]. apply fmap_sublist, sublist_filter.
  - intros m w [Hm|Hm]%elem_of_app; [by apply Hlisted|]. destruct (Hun _ _ Hm) as [-> Hn].
    split; [by apply Qle_bool_false|]. by apply configured_unlisted.
Qed.

Lemma mapM_weights (pop l : list (instance C * Q)) :
  NoDup pop.*1 → (∀ p, p ∈ l → p ∈ pop) →
  mapM (λ n, w ← dict_get n pop; Some (n, w)) l.*1 = Some l.
Proof.
  intros Hnd. induction l as [|[m w] l IH]; intros Hl; [done|]. cbn [fmap list_fmap mapM].
  rewrite (dict_elem_get m w pop Hnd) by (apply Hl; set_solver). cbn.
  rewrite IH by set_solver. done.
Qed.

Lemma filter_fst (P : instance C → Prop) `{∀ m, Decision (P m)} (pop : list (instance C * Q)) :
  filter P pop.*1 = (filter (λ p, P p.1) pop).*1.
Proof.
  induction pop as [|p pop IH]; [done|]. cbn [fmap list_fmap]. rewrite !filter_cons.
  case_decide; [|done]. cbn [fmap list_fmap]. by rewrite <- IH.
Qed.

(** The weighted runner draws only from disruptions of positive weight, each with the
    weight the configuration gives its class (its own entry, else the default), and the
    precheck drops the infeasible ones without ever detaching a weight from its
    disruption. *)
Theorem categorical_weights_kept ast_parse fuel constructs r k8s s dist dw pop precheck :
  NoDup dist.*1 →
  get_disruption_distribution ast_parse fuel constructs r k8s s dist dw = Ok pop →
  ∃ pop', (categorical_precheck precheck pop).1 = Some pop' ∧
    pop' = filter (λ p, decision precheck ∅ pop.*1 (iname p.1) = Some None) pop ∧
    ∀ m w, (m, w) ∈ pop' → (0 < w)%Q ∧ configured dist dw m = Some w.
Proof.
  intros Hd Hpop. destruct (distribution_spec _ _ _ _ _ _ _ _ _ Hd Hpop) as [Hnd Hin].
  apply NoDup_fmap_1 in Hnd. unfold categorical_precheck, precheck_nemesis.
  rewrite (dict_of_pairs []) by done. cbn [app].
  pose proof (precheck_loop_runnable precheck ∅ pop.*1) as Hrun.
  destruct (precheck_loop precheck ∅ pop.*1) as [run exc]. cbn [fst] in *. subst run.
  eexists. rewrite filter_fst. split_and!; [|done|].
  - apply mapM_weights; [done|]. intros p [_ Hp]%list_elem_of_filter. done.
  - intros m w [_ Hm]%list_elem_of_filter. by apply Hin.
Qed.
End Weights.

(** ** Examples *)
#[local] Existing Instance ex_graph.

Definition ex_parse (s : string) : outcome exn expr :=
  match parse_bool s with Some d => Ok (ast_disj d) | None => Err SyntaxError end.

Lemma ex_parse_fragment s d : parse_bool s = Some d → ex_parse s = Ok (ast_disj d).
Proof. unfold ex_parse. by intros ->. Qed.

Lemma ex_flags c : c ∈ [Repair; Drain; Encrypt] → has_flags ex_registry c.
Proof.
  intros _ m Hm. rewrite list_elem_of_In in Hm.
  destruct Hm as [<-|[<-|[]]]; unfold class_attr; cbn; by eexists.
Qed.

Definition ex_selector : disjunction_t :=
  D1 (CAnd (IName "kubernetes") (C1 (INot (IParen (DOr (C1 (IName "disruptive")) (D1 (C1 (IName "RepairMonkey")))))))).


(** On Kubernetes the selector "disruptive or RepairMonkey" builds the drain nemesis, which has
    no [kubernetes] flag. *)
Example kubernetes_restricts_last_disjunct_witness :
  class_flag ex_registry Drain "kubernetes" = false ∧
  ∃ l, build_disruptions_by_selector ex_parse 3 (λ _, true) ex_registry true (Some "disruptive or RepairMonkey") = Ok l ∧
       Drain ∈ map inst_class l.
Proof.
  split; [by vm_compute|].
  apply (kubernetes_restricts_last_disjunct ex_parse 3 (λ _, true) ex_parse_fragment ex_registry "disruptive or RepairMonkey"
    (DOr (C1 (IName "disruptive")) (D1 (C1 (IName "RepairMonkey")))) [Repair; Drain; Encrypt]);
    [by vm_compute|by vm_compute|exact ex_flags|by right; left|by vm_compute|by vm_compute].
Defined.

(** A runner whose selector is "disruptive or kubernetes" asked for the encryption nemesis
    gets the drain nemesis as well. *)
Lemma by_name_keeps_unrequested_witness :
  cls_name Drain ∉ ["EncryptMonkey"] ∧
  ∃ l, build_disruptions_by_name ex_parse 3 (λ _, true) ex_registry false
         "disruptive or kubernetes" ["EncryptMonkey"] = Ok l ∧ Drain ∈ map inst_class l.
Proof.
  split; [rewrite list_elem_of_In; cbn; intuition congruence|].
  apply (by_name_keeps_unrequested ex_parse 3 (λ _, true) ex_parse_fragment ex_registry false
           "disruptive or kubernetes" (DOr (C1 (IName "disruptive")) (D1 (C1 (IName "kubernetes"))))
           "EncryptMonkey" [] [Repair; Drain; Encrypt] Drain).
  - by vm_compute.
  - by vm_compute.
  - exact ex_flags.
  - cbn. apply (bool_decide_unpack _). by vm_compute.
  - repeat constructor.
  - intros n Hn. rewrite list_elem_of_In in *. cbn in *. intuition.
  - apply list_elem_of_In. cbn. auto.
  - done.
  - by vm_compute.
Defined.

Lemma categorical_weights_kept_witness :
  NoDup [("DrainerMonkey", Number 2); ("RepairMonkey", Number 0)].*1 ∧
  ∃ pop', (categorical_precheck (λ i, if decide (inst_class i = Drain) then Ok (Some "no quota") else Ok None)
             [(Instance Drain 1, 2%Q); (Instance Encrypt 2, 1%Q)]).1 = Some pop' ∧
    pop' = [(Instance Encrypt 2, 1%Q)] ∧
    ∀ m w, (m, w) ∈ pop' → (0 < w)%Q ∧
      configured [("DrainerMonkey", Number 2); ("RepairMonkey", Number 0)] 1 m = Some w.
Proof.
  assert (NoDup [("DrainerMonkey", Number 2); ("RepairMonkey", Number 0)].*1) as Hnd
    by (apply (bool_decide_unpack _); by vm_compute).
  split; [exact Hnd|].
  destruct (categorical_weights_kept ex_parse 3 (λ _, true) ex_registry false EmptyString
              [("DrainerMonkey", Number 2); ("RepairMonkey", Number 0)] 1
              [(Instance Drain 1, 2%Q); (Instance Encrypt 2, 1%Q)]
              (λ i, if decide (inst_class i = Drain) then Ok (Some "no quota") else Ok None) Hnd)
    as (pop' & E & Hp & Hw); [by vm_compute|].
  exists pop'. split; [exact E|]. split; [rewrite Hp; by vm_compute|exact Hw].
Defined.
End NemesisSelection.
