(* ===== verification/NemesisRunner.v ===== *)
(** * Running nemeses

    Model of the running code of [NemesisRunner] ([sdcm/nemesis/__init__.py]):
    [set_target_node], [switch_target_node], [execute_nemesis], [update_stats],
    [call_next_nemesis] and [run].

    A runner is a state the actions of [Effects] run on; it holds the node allocator
    its targets come from. What surrounds a disruption is an argument of the execution,
    [env]: the health check, the clock, the random suffix of the label, the event object
    created for it, whether entering or leaving the context managers around the body or
    the closing log lines raise, and the disruption itself, which may do anything to the
    runner. The context managers change nothing the runner reads. A [None] label is the
    empty string for the allocator. *)
From Stdlib Require Import Ascii.
From stdpp Require Import base decidable option strings numbers gmap sets list.
From S2P Require Import Prelude.
From S2P Require Import PyString.
From S2P Require Import PyDict.
From S2P Require Import Effects.
From S2P Require Import Events.
From S2P Require Import ContinuousEvents.
From S2P Require Import NodeAllocator.
From S2P Require Import NemesisRegistry.
From S2P Require Import NemesisSelection.
Local Open Scope py_scope.

Module NemesisRunner.
Import NemesisRegistry NemesisSelection Events Continuous.
Module NA := NodeAllocator.

Inductive rexn : Type :=
  | UnsupportedNemesis (msg : string)
  | MethodVersionNotFound (msg : string)
  | KillNemesis
  | OtherException (msg : string)
  | AllocationError (e : NA.exn)
  | OtherBaseException.

(** [except Exception]: [KillNemesis] derives from [BaseException]. *)
Definition is_exception (x : rexn) : bool :=
  match x with KillNemesis | OtherBaseException => false | _ => true end.

Definition is_unsupported (x : rexn) : bool :=
  match x with UnsupportedNemesis _ | MethodVersionNotFound _ => true | _ => false end.

(** [str(exc)]; the texts of the allocator's errors are not modelled. *)
Definition exc_text (x : rexn) : string :=
  match x with
  | UnsupportedNemesis m | MethodVersionNotFound m | OtherException m => m
  | _ => EmptyString
  end.

Record log_info := LogInfo {
  li_start : Z;
  li_end : Z;
  li_duration : Z;
  li_node : option nat;
  li_subtype : NemesisStatus;
  li_error : option string;
  li_skip_reason : option string;
}.

Record stat := Stat { runs : list log_info; failures : list log_info; cnt : nat }.

Record runner := Runner {
  node_allocator : NA.allocator;
  target_node : option nat;
  current_disruption : option string;
  _target_node_pool_type : NA.pool_arg;
  last_nemesis_event : option cevent;
  error_list : list string;
  duration_list : list Z;
  operation_log : list (string * log_info);
  stats : list (string * stat);
  consecutive_skips : list (string * nat);
}.

Definition set_allocator (a : NA.allocator) (s : runner) : runner :=
  Runner a (target_node s) (current_disruption s) (_target_node_pool_type s) (last_nemesis_event s)
    (error_list s) (duration_list s) (operation_log s) (stats s) (consecutive_skips s).
Definition set_target (n : option nat) (s : runner) : runner :=
  Runner (node_allocator s) n (current_disruption s) (_target_node_pool_type s) (last_nemesis_event s)
    (error_list s) (duration_list s) (operation_log s) (stats s) (consecutive_skips s).
Definition set_current (d : option string) (s : runner) : runner :=
  Runner (node_allocator s) (target_node s) d (_target_node_pool_type s) (last_nemesis_event s)
    (error_list s) (duration_list s) (operation_log s) (stats s) (consecutive_skips s).
Definition set_target_node_pool_type (p : NA.pool_arg) (s : runner) : runner :=
  Runner (node_allocator s) (target_node s) (current_disruption s) p (last_nemesis_event s)
    (error_list s) (duration_list s) (operation_log s) (stats s) (consecutive_skips s).
Definition set_skips (d : list (string * nat)) (s : runner) : runner :=
  Runner (node_allocator s) (target_node s) (current_disruption s) (_target_node_pool_type s)
    (last_nemesis_event s) (error_list s) (duration_list s) (operation_log s) (stats s) d.
Definition add_error_text (m : string) (s : runner) : runner :=
  Runner (node_allocator s) (target_node s) (current_disruption s) (_target_node_pool_type s)
    (last_nemesis_event s) (error_list s ++ [m]) (duration_list s) (operation_log s) (stats s)
    (consecutive_skips s).

(** ** Names *)
Definition upper_char (c : ascii) : ascii :=
  if char_in "a" "z" c then ascii_of_nat (nat_of_ascii c - 32) else c.

Definition capitalize (s : string) : string :=
  match s with
  | EmptyString => EmptyString
  | String c s' => String (upper_char c) (lower s')
  end.

(** [s.replace(sub, "")], for a non-empty [sub]. *)
Fixpoint erase (fuel : nat) (sub s : string) : string :=
  match fuel, s with
  | S fuel', String c s' =>
    if startswith sub s then erase fuel' sub (str_drop (String.length sub) s)
    else String c (erase fuel' sub s')
  | _, _ => s
  end.

Definition disruption_stem (disruption : string) : string :=
  if contains "_" disruption
  then join EmptyString (map capitalize (split_on "_" (erase (String.length disruption) "disrupt_" disruption)))
  else disruption.

(** [uuid] is [uuid4().hex[:8]]. *)
Definition unique_disruption_name (uuid disruption : string) : string :=
  disruption_stem disruption +:+ "-" +:+ uuid.

(** [current_disruption.rsplit("-", 1)[0]]. *)
Definition base_disruption_name (current : string) : string :=
  match split_once "-" (str_rev current) with
  | (_, Some rest) => str_rev rest
  | (_, None) => current
  end.

(** The label's stem is read back from the label: [uuid4().hex] has no dash. *)
Lemma base_of_unique u d :
  contains "-" u = false → base_disruption_name (unique_disruption_name u d) = disruption_stem d.
Proof.
  intros Hu. unfold base_disruption_name, unique_disruption_name.
  rewrite !str_rev_app, str_app_assoc.
  change (str_rev "-" +:+ ?t) with (String "-" t).
  rewrite (split_once_at "-" (str_rev u) (str_rev (disruption_stem d))).
  - apply str_rev_involutive.
  - rewrite all_chars_rev. by apply contains_char_false.
Qed.

(** ** Bookkeeping *)
Definition update_stats (disrupt : string) (status : bool) (data : log_info) (d : list (string * stat))
    : list (string * stat) :=
  let st := default (Stat [] [] 0) (dict_get disrupt d) in
  dict_set disrupt
    (Stat (if status then runs st ++ [data] else runs st)
          (if status then failures st else failures st ++ [data]) (S (cnt st))) d.

(** The [finally] block after [disrupt()], but its closing log line. *)
Definition record_outcome (disruption_name : string) (start_time end_time : Z) (nemesis_event : cevent)
    (s : runner) : runner :=
  let time_elapsed := (end_time - start_time)%Z in
  let failed := bool_decide (severity (ev nemesis_event) = ERROR) in
  let info := LogInfo start_time end_time time_elapsed (target_node s) (nemesis_status nemesis_event)
    (if failed then list.last (default [] (errors nemesis_event)) else None)
    (if is_skipped nemesis_event then Some (skip_reason nemesis_event) else None) in
  Runner (node_allocator s) (target_node s) (current_disruption s) (_target_node_pool_type s)
    (Some (set_duration (Some time_elapsed) nemesis_event))
    (error_list s) (duration_list s ++ [time_elapsed])
    (operation_log s ++ [(disruption_name, info)])
    (update_stats disruption_name (negb failed) info (stats s)) (consecutive_skips s).

Section Runner.
Context (set_iter : gset nat → list nat).
(** [nemesis_filter_seeds] of the configuration. *)
Context (filter_seed : bool).

Notation action := (act runner rexn).

Definition label (d : option string) : string := default EmptyString d.

Definition select (rnd : nat) (name : string) (sel : NA.selection) : action nat :=
  λ s, match NA.select_target_node set_iter rnd name sel (node_allocator s) with
       | (Ok n, a) => (set_allocator a s, Ok n)
       | (Err e, a) => (set_allocator a s, Err (AllocationError e))
       end.

Definition set_target_node (rnd : nat) (dc_idx rack : option Z) (is_seed : NA.seed_arg)
    (allow_only_last_node_in_rack : bool) (current : option string) : action unit :=
  modify (λ s, match target_node s with
               | Some n => set_target None (set_allocator
                   (NA.unset_running_nemesis n (label (current_disruption s)) (node_allocator s)) s)
               | None => s
               end) ;;;
  let! s := gets id in
  let! n := select rnd (if truthy current then label current else label (current_disruption s))
              (NA.Selection (_target_node_pool_type s) filter_seed is_seed dc_idx rack
                 allow_only_last_node_in_rack None) in
  modify (set_target (Some n)).

Definition switch_target_node (n : nat) : action unit :=
  (λ s, match NA.switch_target_node (target_node s) n (label (current_disruption s)) (node_allocator s) with
        | (Ok _, a) => (set_allocator a s, Ok tt)
        | (Err e, a) => (set_allocator a s, Err (AllocationError e))
        end) ;;;
  modify (set_target (Some n)).

Record env := Env {
  health : option rexn;
  start_time : Z;
  end_time : Z;
  uuid : string;
  rnd : nat;
  new_event : cevent;
  entering : option rexn;
  disrupt : action unit;
  critical_events : bool;
  finishing : option rexn;
  leaving : option rexn;
}.

Definition may_raise (x : option rexn) : action unit :=
  match x with Some e => raise e | None => ret tt end.

(** [nemesis.disrupt()] with its [except] clauses: the event and [raise_error], or the
    exception no clause takes. *)
Definition disrupt_with_handlers (e : env) : action (cevent * (option rexn * option rexn)) :=
  λ s, match disrupt e s with
       | (s', Ok _) => (s', Ok (new_event e, (None, None)))
       | (s', Err x) =>
         if is_unsupported x then (s', Ok (skip (exc_text x) (new_event e), (Some x, None)))
         else match x with
              | KillNemesis =>
                let ev := if critical_events e
                          then add_simple_error "Killed by tearDown - test fail" (new_event e)
                          else skip "Killed by tearDown - test success" (new_event e) in
                (s', Ok (ev, (Some x, None)))
              | OtherBaseException => (s', Ok (new_event e, (None, Some x)))
              | _ => (add_error_text (exc_text x) s', Ok (add_simple_error (exc_text x) (new_event e), (None, None)))
              end
       end.

(** The body of the outer [try]; the result is [raise_error]. *)
Definition guarded (e : env) (disruption_name : string) : action (option rexn) :=
  set_target_node (rnd e) None None NA.DefaultValue false None ;;;
  may_raise (entering e) ;;;
  try_finally
    (let! r := disrupt_with_handlers e in
     modify (record_outcome disruption_name (start_time e) (end_time e) r.1) ;;;
     may_raise (finishing e) ;;;
     may_raise r.2.2 ;;;
     ret r.2.1)
    (may_raise (leaving e)).

(** The outer [finally]. *)
Definition release_all : action unit :=
  modify (set_target_node_pool_type (NA.Pool NA.data_nodes)) ;;;
  modify (λ s, set_allocator
    (NA.unset_running_nemesis_from_all_nodes (label (current_disruption s)) (node_allocator s)) s) ;;;
  modify (set_target None) ;;;
  modify (set_current None).

Definition execute_nemesis (e : env) (class_name : string) (pool : NA.pool_arg) : action unit :=
  let! s := gets id in
  may_raise (if from_option is_skipped false (last_nemesis_event s) then None else health e) ;;;
  modify (set_current (Some (unique_disruption_name (uuid e) class_name))) ;;;
  let disruption_name := base_disruption_name (unique_disruption_name (uuid e) class_name) in
  modify (set_target_node_pool_type pool) ;;;
  let! raise_error := try_finally (guarded e disruption_name) release_all in
  match raise_error with
  | Some x =>
    (if is_unsupported x
     then modify (λ s, set_skips (dict_set disruption_name
            (S (default 0 (dict_get disruption_name (consecutive_skips s)))) (consecutive_skips s)) s)
     else ret tt) ;;;
    raise x
  | None => modify (set_skips [])
  end.

(** ** The loop *)
Section Run.
Context {C : Type} `{EqDecision C, ClassGraph C}.
(** [getattr(nemesis, DISRUPT_POOL_PROPERTY_NAME, DISRUPT_DEFAULT_POOL)]. *)
Context (pool_of : C → NA.pool_arg).

(** What iteration [i] of the loop meets: whether the termination event is set and the
    surroundings of the nemesis it runs. *)
Record tick := Tick { is_set : bool; surroundings : env }.

(** Why the thread ended. *)
Inductive run_end : Type :=
  | Terminated
  | CyclesCompleted
  | SkippedTooOften (nemesis_name : option string) (count : nat)
  | Killed
  | Raised (x : rexn)
  | NoRunnable.

(** [max(items, key=lambda x: x[1], default=(None, 0))]: the first maximum. *)
Definition max_skips (d : list (string * nat)) : option string * nat :=
  match d with
  | [] => (None, 0)
  | p :: d' =>
    let m := foldl (λ best q, if best.2 <? q.2 then q else best) p d' in (Some m.1, m.2)
  end.

(** [next(self.infinite_cycle)] of the [i]-th call. *)
Definition call_next_nemesis (disruptions_list : list (instance C)) (i : nat) (e : env) : action unit :=
  match disruptions_list !! (i mod length disruptions_list) with
  | None => raise (OtherException "no nemesis were selected")
  | Some n => execute_nemesis e (iname n) (pool_of (inst_class n))
  end.

(** The [while] loop from its [i]-th iteration, for at most [fuel] iterations: the state,
    the timeouts waited for, and the end when it was reached. *)
Fixpoint run_loop (fuel : nat) (ticks : nat → tick) (disruptions_list : list (instance C)) (interval : Z)
    (i : nat) (cycles_count : Z) (s : runner) : runner * list Z * option run_end :=
  match fuel with
  | O => (s, [], None)
  | S fuel' =>
    if is_set (ticks i) then (s, [], Some Terminated)
    else if (cycles_count =? 0)%Z then (s, [], Some CyclesCompleted)
    else
      match call_next_nemesis disruptions_list i (surroundings (ticks i)) s with
      | (s', Ok _) =>
        let '(s'', waits, end_) := run_loop fuel' ticks disruptions_list interval (S i) (cycles_count - 1) s' in
        (s'', interval :: waits, end_)
      | (s', Err x) =>
        if is_unsupported x then
          let '(nemesis_name, count) := max_skips (consecutive_skips s') in
          if (length disruptions_list =? 1) && (3 <=? count)
          then (s', [0%Z], Some (SkippedTooOften nemesis_name count))
          else
            let '(s'', waits, end_) := run_loop fuel' ticks disruptions_list interval (S i) (cycles_count - 1) s' in
            (s'', 0%Z :: waits, end_)
        else (s', [interval], Some (match x with KillNemesis => Killed | _ => Raised x end))
      end
  end.

(** [run]; [own_interval] is [self.interval], in seconds, [interval] the argument, in minutes. *)
Definition run (fuel : nat) (ticks : nat → tick) (precheck : instance C → outcome string (option string))
    (disruptions_list : list (instance C)) (own_interval : Z) (interval : option Z) (cycles_count : Z)
    (s : runner) : runner * list Z * option run_end :=
  let own_interval := if truthy interval then (default 0 interval * 60)%Z else own_interval in
  let '(disruptions_list, excluded) := precheck_nemesis precheck disruptions_list in
  if truthy excluded && negb (truthy disruptions_list) then (s, [], Some NoRunnable)
  else run_loop fuel ticks disruptions_list own_interval 0 cycles_count s.
End Run.

(** ** Ownership *)
Definition owner (s : runner) (n : nat) : option string :=
  NA.active_nemesis_on_nodes (node_allocator s) !! n.

Definition others_kept (l : string) (s s' : runner) : Prop :=
  ∀ n o, o ≠ l → owner s n = Some o ↔ owner s' n = Some o.

(** Preserved by every step of the body of [execute_nemesis]. *)
Definition during (l : string) (s0 s : runner) : Prop :=
  current_disruption s = Some l ∧ others_kept l s0 s.

Lemma others_kept_refl l s : others_kept l s s.
Proof. by intros n o _. Qed.

Lemma others_kept_trans l s1 s2 s3 : others_kept l s1 s2 → others_kept l s2 s3 → others_kept l s1 s3.
Proof. intros H1 H2 n o Ho. by rewrite (H1 n o Ho), (H2 n o Ho). Qed.

Lemma during_same l s0 s s' :
  current_disruption s' = current_disruption s → node_allocator s' = node_allocator s →
  during l s0 s → during l s0 s'.
Proof. intros Hc Ha [Hd Hk]. split; [congruence|]. intros n o Ho. unfold owner. rewrite Ha. by apply Hk. Qed.

Lemma during_modify l s0 f :
  (∀ s, current_disruption (f s) = current_disruption s ∧ node_allocator (f s) = node_allocator s) →
  keeps_state (during l s0) (modify f : action unit).
Proof. intros Hf s Hs. destruct (Hf s). by eapply during_same. Qed.

Lemma during_may_raise l s0 x : keeps_state (during l s0) (may_raise x).
Proof. destruct x; [apply keeps_state_raise|apply keeps_state_ret]. Qed.

Lemma unset_others l n a m o :
  o ≠ l → NA.active_nemesis_on_nodes (NA.unset_running_nemesis n l a) !! m = Some o ↔
          NA.active_nemesis_on_nodes a !! m = Some o.
Proof.
  intros Ho. unfold NA.unset_running_nemesis.
  destruct (NA.active_nemesis_on_nodes a !! n) as [own|] eqn:En; [|done].
  destruct (String.eqb_spec own l) as [->|]; [|done]. cbn.
  destruct (decide (m = n)) as [->|]; [rewrite lookup_delete_eq|by rewrite lookup_delete_ne].
  rewrite En. naive_solver.
Qed.

Hypothesis set_iter_elem : ∀ X n, n ∈ set_iter X ↔ n ∈ X.

Lemma select_others rnd l sel a m o :
  o ≠ l → NA.active_nemesis_on_nodes (NA.select_target_node set_iter rnd l sel a).2 !! m = Some o ↔
          NA.active_nemesis_on_nodes a !! m = Some o.
Proof using set_iter_elem.
  intros Ho. destruct (NA.select_state set_iter set_iter_elem rnd l sel a) as [->|(n & -> & Hn)]; [done|].
  cbn. destruct (decide (m = n)) as [->|]; [rewrite lookup_insert_eq, Hn|by rewrite lookup_insert_ne].
  naive_solver.
Qed.

Lemma during_set_target l s0 rnd dc rack seed last :
  keeps_state (during l s0) (set_target_node rnd dc rack seed last None).
Proof using set_iter_elem.
  apply keeps_state_bind.
  { intros s [Hc Hk]. cbn. destruct (target_node s) as [n|]; [|done]. cbn. split; [done|].
    intros m o Ho. rewrite (Hk m o Ho). unfold owner. cbn. rewrite Hc. symmetry. by apply unset_others. }
  intros _. intros s [Hc Hk]. unfold bind, gets, id, select, modify. cbn [truthy truthy_option]. rewrite Hc.
  pose proof (λ m o, select_others rnd l
    (NA.Selection (_target_node_pool_type s) filter_seed seed dc rack last None) (node_allocator s) m o) as Hsel.
  cbn [label from_option]. unfold id.
  destruct (NA.select_target_node _ _ _ _ _) as [[n|x] a]; cbn in *; (split; [done|]);
    intros m o Ho; rewrite (Hk m o Ho); unfold owner; cbn; symmetry; by apply Hsel.
Qed.

(** The disruption works under its own label: it leaves the runner's label alone and does
    not take or release nodes of other labels. *)
Definition well_behaved (l : string) (body : action unit) : Prop :=
  ∀ s, current_disruption s = Some l →
       current_disruption (body s).1 = Some l ∧ others_kept l s (body s).1.

Lemma during_handlers l s0 e :
  well_behaved l (disrupt e) → keeps_state (during l s0) (disrupt_with_handlers e).
Proof using Type.
  intros Hb s [Hc Hk]. unfold disrupt_with_handlers. destruct (Hb s Hc) as [Hc' Hk'].
  destruct (disrupt e s) as [s' [|x]]; cbn in *.
  - split; [done|by eapply others_kept_trans].
  - assert (during l s0 s') as Hd by (split; [done|by eapply others_kept_trans]).
    destruct x; cbn; try done; by eapply during_same.
Qed.

Lemma during_guarded l s0 e name :
  well_behaved l (disrupt e) → keeps_state (during l s0) (guarded e name).
Proof using set_iter_elem.
  intros Hb. unfold guarded. apply keeps_state_bind; [apply during_set_target|intros _].
  apply keeps_state_bind; [apply during_may_raise|intros _].
  apply keeps_state_finally; [|apply during_may_raise].
  apply keeps_state_bind; [by apply during_handlers|intros r].
  apply keeps_state_bind; [by apply during_modify|intros _].
  apply keeps_state_bind; [apply during_may_raise|intros _].
  apply keeps_state_bind; [apply during_may_raise|intros _]. apply keeps_state_ret.
Qed.

Lemma release_all_spec l s0 s :
  during l s0 s →
  (release_all s).2 = Ok tt ∧ target_node (release_all s).1 = None ∧
  current_disruption (release_all s).1 = None ∧
  _target_node_pool_type (release_all s).1 = NA.Pool NA.data_nodes ∧
  ∀ n, owner (release_all s).1 n = if decide (owner s n = Some l) then None else owner s n.
Proof using Type.
  intros [Hc Hk]. split_and!; [done..|]. intros n. unfold owner. cbn. rewrite Hc. cbn.
  unfold NA.unset_running_nemesis_from_all_nodes. rewrite NA.foldl_release_active.
  repeat case_decide; try done.
  - assert (NA.active_nemesis_on_nodes (node_allocator s) !! n = Some l) as Hx; [|done].
    match goal with H : n ∈ _ |- _ => apply list_elem_of_fmap in H as ([m w] & -> & [Hw Hm]%list_elem_of_filter) end.
    apply elem_of_map_to_list in Hm. cbn in *. congruence.
  - exfalso. match goal with H : n ∉ _ |- _ => apply H end. apply list_elem_of_fmap. exists (n, l).
    split; [done|]. apply list_elem_of_filter. split; [done|]. by apply elem_of_map_to_list.
Qed.

(** The state before the outer [try]. *)
Definition prepared (e : env) (class_name : string) (pool : NA.pool_arg) (s : runner) : runner :=
  set_target_node_pool_type pool (set_current (Some (unique_disruption_name (uuid e) class_name)) s).

Definition unhealthy (e : env) (s : runner) : option rexn :=
  if from_option is_skipped false (last_nemesis_event s) then None else health e.

Lemma execute_unhealthy e class_name pool s x :
  unhealthy e s = Some x → execute_nemesis e class_name pool s = (s, Err x).
Proof using Type. unfold unhealthy, execute_nemesis, bind, gets, id. by intros ->. Qed.

(** After the health check: the guarded body, the release, and the accounting of skips. *)
Lemma execute_healthy e class_name pool s :
  unhealthy e s = None →
  let name := base_disruption_name (unique_disruption_name (uuid e) class_name) in
  let '(s1, r) := guarded e name (prepared e class_name pool s) in
  execute_nemesis e class_name pool s =
  match r with
  | Err x => ((release_all s1).1, Err x)
  | Ok None => (set_skips [] (release_all s1).1, Ok tt)
  | Ok (Some x) =>
    (if is_unsupported x
     then set_skips (dict_set name (S (default 0 (dict_get name (consecutive_skips s1)))) (consecutive_skips s1))
            (release_all s1).1
     else (release_all s1).1, Err x)
  end.
Proof using Type.
  unfold unhealthy, execute_nemesis, bind, gets, id. intros ->. cbn [may_raise].
  unfold ret, modify. fold (prepared e class_name pool s). unfold try_finally.
  change (set_target_node_pool_type pool (set_current (Some (unique_disruption_name (uuid e) class_name)) s))
    with (prepared e class_name pool s).
  destruct (guarded e _ (prepared e class_name pool s)) as [s1 [[x|]|x]]; try done.
  cbn. by destruct (is_unsupported x).
Qed.

Lemma execute_nemesis_frees e class_name pool s :
  well_behaved (unique_disruption_name (uuid e) class_name) (disrupt e) →
  (∀ n, owner s n ≠ Some (unique_disruption_name (uuid e) class_name)) →
  let '(s', r) := execute_nemesis e class_name pool s in
  NA.active_nemesis_on_nodes (node_allocator s') = NA.active_nemesis_on_nodes (node_allocator s) ∧
  (s' = s ∧ (∃ x, health e = Some x ∧ r = Err x) ∨
   target_node s' = None ∧ current_disruption s' = None ∧
   _target_node_pool_type s' = NA.Pool NA.data_nodes).
Proof using set_iter_elem.
  intros Hb Hfresh. destruct (unhealthy e s) as [x|] eqn:Hu.
  { rewrite (execute_unhealthy _ _ _ _ _ Hu). split; [done|]. left. split; [done|]. exists x.
    unfold unhealthy in Hu. by destruct (from_option _ _ _). }
  pose proof (execute_healthy e class_name pool s Hu) as Hx. cbn zeta in Hx.
  set (l := unique_disruption_name (uuid e) class_name) in *.
  assert (during l s (prepared e class_name pool s)) as Hd0 by (split; [done|by intros n o _]).
  pose proof (during_guarded l s e (base_disruption_name l) Hb _ Hd0) as Hd.
  destruct (guarded e _ _) as [s1 r1]. cbn [fst] in Hd.
  destruct (release_all_spec l s s1 Hd) as (_ & Ht & Hc & Hp & Ho).
  assert (NA.active_nemesis_on_nodes (node_allocator (release_all s1).1) =
          NA.active_nemesis_on_nodes (node_allocator s)) as Ha.
  { apply map_eq. intros n. specialize (Ho n). unfold owner in *. rewrite Ho. clear Ho.
    destruct Hd as [_ Hk]. destruct (NA.active_nemesis_on_nodes (node_allocator s) !! n) as [o|] eqn:En.
    - assert (o ≠ l) as Hne by (intros ->; by apply (Hfresh n)).
      apply (proj1 (Hk n o Hne)) in En. unfold owner in En. rewrite En. by rewrite decide_False by congruence.
    - case_decide as Hl; [done|]. destruct (NA.active_nemesis_on_nodes (node_allocator s1) !! n) as [o|] eqn:E1; [|done].
      apply (proj2 (Hk n o ltac:(congruence))) in E1. unfold owner in E1. congruence. }
  rewrite Hx. destruct r1 as [[x|]|x]; [destruct (is_unsupported x)| |]; cbn; auto.
Qed.

(** C2. A nemesis never leaks a node. Whatever ends its execution (no node to run on, a
    failure of the surroundings, a skip, a kill, an error or a success), the map from nodes
    to the nemeses running on them is what it was before, and past the health check the
    runner has no target node, no current disruption and the default pool again. The
    disruption itself may take and release any nodes under its own label. *)
Theorem execute_nemesis_releases e class_name pool s :
  well_behaved (unique_disruption_name (uuid e) class_name) (disrupt e) →
  (∀ n, owner s n ≠ Some (unique_disruption_name (uuid e) class_name)) →
  let '(s', r) := execute_nemesis e class_name pool s in
  NA.active_nemesis_on_nodes (node_allocator s') = NA.active_nemesis_on_nodes (node_allocator s) ∧
  (s' = s ∧ (∃ x, health e = Some x ∧ r = Err x) ∨
   target_node s' = None ∧ current_disruption s' = None ∧
   _target_node_pool_type s' = NA.Pool NA.data_nodes).
Proof using set_iter_elem. exact (execute_nemesis_frees e class_name pool s). Qed.

(** ** The loop *)
Section RunFacts.
Context {C : Type} `{EqDecision C, ClassGraph C}.
Context (pool_of : C → NA.pool_arg) (ticks : nat → tick) (dl : list (instance C)) (interval : Z).

(** Every iteration's disruption works under a label of its own that nobody holds. *)
Definition fresh_labels (s : runner) : Prop :=
  ∀ i c, let l := unique_disruption_name (uuid (surroundings (ticks i))) (iname c) in
         c ∈ dl → well_behaved l (disrupt (surroundings (ticks i))) ∧ ∀ n, owner s n ≠ Some l.

Lemma call_next_releases i s :
  fresh_labels s →
  NA.active_nemesis_on_nodes (node_allocator (call_next_nemesis pool_of dl i (surroundings (ticks i)) s).1) =
  NA.active_nemesis_on_nodes (node_allocator s).
Proof using set_iter_elem.
  intros Hf. unfold call_next_nemesis. destruct (dl !! _) as [c|] eqn:Ec; [|done].
  apply list_elem_of_lookup_2 in Ec. destruct (Hf i c Ec) as [Hb Ho].
  pose proof (execute_nemesis_frees (surroundings (ticks i)) (iname c) (pool_of (inst_class c)) s Hb Ho) as Hx.
  destruct (execute_nemesis _ _ _ s). apply Hx.
Qed.

Lemma run_loop_spec fuel i cycles s :
  fresh_labels s → (0 ≤ cycles < Z.of_nat fuel)%Z ∨ (∃ k, i ≤ k < i + fuel ∧ is_set (ticks k) = true) →
  ∃ s' waits e, run_loop pool_of fuel ticks dl interval i cycles s = (s', waits, Some e) ∧
    NA.active_nemesis_on_nodes (node_allocator s') = NA.active_nemesis_on_nodes (node_allocator s) ∧
    length waits < fuel ∧ ((0 ≤ cycles)%Z → (Z.of_nat (length waits) ≤ cycles)%Z) ∧
    Forall (λ w, w = interval ∨ w = 0%Z) waits.
Proof using set_iter_elem.
  revert i cycles s. induction fuel as [|fuel IH]; intros i cycles s Hf Hend.
  { exfalso. destruct Hend as [|(k & ? & _)]; lia. }
  cbn [run_loop]. destruct (is_set (ticks i)) eqn:Et.
  { do 3 eexists. split_and!; [done..|cbn; lia|cbn; lia|done]. }
  destruct (Z.eqb_spec cycles 0) as [->|Hc].
  { do 3 eexists. split_and!; [done..|cbn; lia|cbn; lia|done]. }
  pose proof (call_next_releases i s Hf) as Ha.
  destruct (call_next_nemesis _ _ _ _ s) as [s1 r]. cbn [fst] in Ha.
  destruct (IH (S i) (cycles - 1)%Z s1) as (s2 & waits & e & E & Ha' & Hl & Hcy & Hw).
  { intros j c l Hin. destruct (Hf j c Hin) as [Hb Ho]. split; [done|].
    intros n. unfold owner. rewrite Ha. apply Ho. }
  { destruct Hend as [|(k & Hk & Hs)]; [left; lia|right]. exists k. split; [|done].
    destruct (decide (k = i)) as [->|]; [congruence|lia]. }
  destruct r as [u|x].
  - rewrite E. do 3 eexists. split_and!; [done|congruence|cbn; lia|cbn; lia|by constructor; [left|]].
  - destruct (is_unsupported x).
    + destruct (max_skips _) as [nm count]. destruct (_ && _).
      * do 3 eexists. split_and!; [done|done|cbn|cbn; lia|by repeat constructor; right].
        destruct Hend as [|(k & ? & Hs)]; [lia|]. destruct (decide (k = i)) as [->|]; [congruence|lia].
      * rewrite E. do 3 eexists. split_and!; [done|congruence|cbn; lia|cbn; lia|by constructor; [right|]].
    + do 3 eexists. split_and!; [done|done|cbn|cbn; lia|by repeat constructor; left].
      destruct Hend as [|(k & ? & Hs)]; [lia|]. destruct (decide (k = i)) as [->|]; [congruence|lia].
Qed.
End RunFacts.

(** C13. A nemesis thread ends and leaves nothing behind: with a bounded number of cycles,
    or once the termination event is set, [run] returns; a bound on the cycles bounds the
    nemeses executed, each followed by one wait for the interval, or for nothing after a
    skip; and the nodes end up owned as they were at the start. *)
Theorem run_ends_and_releases {C : Type} `{EqDecision C, ClassGraph C} (pool_of : C → NA.pool_arg)
    ticks (dl : list (instance C)) fuel precheck own_interval cycles s :
  fresh_labels ticks dl s →
  (0 ≤ cycles < Z.of_nat fuel)%Z ∨ (∃ k, k < fuel ∧ is_set (ticks k) = true) →
  ∃ s' waits e, run pool_of fuel ticks precheck dl own_interval None cycles s = (s', waits, Some e) ∧
    NA.active_nemesis_on_nodes (node_allocator s') = NA.active_nemesis_on_nodes (node_allocator s) ∧
    ((0 ≤ cycles)%Z → (Z.of_nat (length waits) ≤ cycles)%Z) ∧
    Forall (λ w, w = own_interval ∨ w = 0%Z) waits.
Proof using set_iter_elem.
  intros Hf Hend. unfold run, precheck_nemesis. cbn [truthy truthy_option].
  pose proof (precheck_loop_runnable precheck ∅ dl) as Hrun.
  destruct (precheck_loop precheck ∅ dl) as [runnable excluded]. cbn [fst] in Hrun.
  destruct (truthy excluded && negb (truthy runnable)).
  { do 3 eexists. split_and!; [done..|cbn; lia|done]. }
  destruct (run_loop_spec pool_of ticks runnable own_interval fuel 0 cycles s) as (s' & w & e & -> & Ha & _ & Hc & Hw).
  - intros i c l Hin. apply (Hf i c). subst runnable. by apply list_elem_of_filter in Hin as [_ Hin].
  - destruct Hend as [|(k & ? & ?)]; [by left|right]. exists k. split; [lia|done].
  - by exists s', w, e.
Qed.

(** ** Skips *)
Definition target_selection (pool : NA.pool_arg) : NA.selection :=
  NA.Selection pool filter_seed NA.DefaultValue None None false None.

(** A node of the pool is free and meets the criteria of [execute_nemesis]'s selection. *)
Definition eligible (s : runner) (pool : NA.pool_arg) : Prop :=
  ∃ nodes n, NA._get_pool_type_nodes (node_allocator s) pool = Ok nodes ∧
    NA.free_for (node_allocator s) (target_selection pool) nodes n ∧
    NA.meets_criteria (NA._tester (node_allocator s)) (target_selection pool) n.

Definition quiet (e : env) : Prop :=
  health e = None ∧ entering e = None ∧ finishing e = None ∧ leaving e = None.

Definition same_cluster (s s' : runner) : Prop :=
  NA._tester (node_allocator s') = NA._tester (node_allocator s) ∧
  NA.active_nemesis_on_nodes (node_allocator s') = NA.active_nemesis_on_nodes (node_allocator s).

Lemma eligible_same s s' pool : same_cluster s s' → eligible s pool → eligible s' pool.
Proof using Type.
  intros [Ht Ha] (nodes & n & Hp & (Hn & Hfree & Hl) & Hm). exists nodes, n.
  split_and!; [|split_and!|]; [|done| |done|by rewrite Ht].
  - unfold NA._get_pool_type_nodes in *. by rewrite Ht.
  - by rewrite Ha.
Qed.

Lemma set_target_eligible rnd s l :
  target_node s = None → current_disruption s = Some l → eligible s (_target_node_pool_type s) →
  ∃ n, set_target_node rnd None None NA.DefaultValue false None s =
       (set_target (Some n) (set_allocator (NA.mark (node_allocator s) n l) s), Ok tt).
Proof using set_iter_elem.
  intros Ht Hc (nodes & n & Hp & Hfree & Hm). unfold set_target_node, bind, modify, gets, id, select.
  rewrite Ht, Hc. cbn [truthy truthy_option label from_option]. unfold id.
  destruct (NA.select_cases set_iter set_iter_elem rnd l (target_selection (_target_node_pool_type s))
              (node_allocator s) nodes Hp) as [(k & E & _)|[[_ Hno]|(_ & _ & Hno)]].
  - unfold target_selection in E. rewrite E. by exists k.
  - by destruct (Hno n).
  - by destruct (Hno n).
Qed.

Lemma foldl_release_tester ns a : NA._tester (foldl NA.release a ns) = NA._tester a.
Proof using Type. revert a. induction ns as [|n ns IH]; intros a; [done|]. cbn. by rewrite IH. Qed.

(** The disruption raises [UnsupportedNemesis] before doing anything. *)
Definition unsupported (e : env) : Prop := ∃ m, ∀ s, disrupt e s = (s, Err (UnsupportedNemesis m)).

Lemma guarded_unsupported e name s l :
  quiet e → unsupported e → target_node s = None → current_disruption s = Some l →
  eligible s (_target_node_pool_type s) →
  ∃ s1 m, guarded e name s = (s1, Ok (Some (UnsupportedNemesis m))) ∧
    consecutive_skips s1 = consecutive_skips s ∧
    NA._tester (node_allocator s1) = NA._tester (node_allocator s).
Proof using set_iter_elem.
  intros (_ & He & Hfi & Hle) [m Hm] Ht Hc Hel.
  destruct (set_target_eligible (rnd e) s l Ht Hc Hel) as [n En].
  unfold guarded, bind. rewrite En, He. cbn [may_raise]. unfold ret, try_finally, disrupt_with_handlers.
  rewrite Hm, Hfi, Hle. cbn. by do 2 eexists.
Qed.

Lemma execute_unsupported e class_name pool s :
  let l := unique_disruption_name (uuid e) class_name in
  quiet e → unsupported e → target_node s = None → eligible s pool → (∀ n, owner s n ≠ Some l) →
  ∃ s' m, execute_nemesis e class_name pool s = (s', Err (UnsupportedNemesis m)) ∧
    target_node s' = None ∧ same_cluster s s' ∧
    consecutive_skips s' = dict_set (base_disruption_name l)
      (S (default 0 (dict_get (base_disruption_name l) (consecutive_skips s)))) (consecutive_skips s).
Proof using set_iter_elem.
  intros l Hq Hu Ht Hel Hfresh.
  assert (well_behaved l (disrupt e)) as Hb.
  { destruct Hu as [m Hm]. intros s0 Hc. rewrite Hm. split; [done|apply others_kept_refl]. }
  assert (unhealthy e s = None) as Hh by (unfold unhealthy; destruct Hq as [-> _]; by destruct (from_option _ _ _)).
  destruct (guarded_unsupported e (base_disruption_name l) (prepared e class_name pool s) l Hq Hu Ht eq_refl)
    as (s1 & m & Eg & Hsk & Hte).
  { cbn. eapply (eligible_same s); [done|exact Hel]. }
  pose proof (execute_healthy e class_name pool s Hh) as Hx. cbn zeta in Hx. fold l in Hx. rewrite Eg in Hx.
  pose proof (execute_nemesis_frees e class_name pool s Hb Hfresh) as Hfree. rewrite Hx in Hfree |- *.
  destruct Hfree as [Ha _]. do 2 eexists. split_and!; [done|done| |].
  - split; [|exact Ha]. cbn. unfold NA.unset_running_nemesis_from_all_nodes.
    rewrite foldl_release_tester. exact Hte.
  - cbn [is_unsupported set_skips consecutive_skips]. rewrite Hsk. done.
Qed.

(** The loop around one nemesis that skips itself with [k] skips on record. *)
Lemma run_loop_skip {C : Type} `{EqDecision C, ClassGraph C} (pool_of : C → NA.pool_arg) ticks (c : instance C)
    interval fuel i cycles s k :
  let e := surroundings (ticks i) in
  let name := disruption_stem (iname c) in
  is_set (ticks i) = false → (cycles < 0)%Z → quiet e → unsupported e → contains "-" (uuid e) = false →
  target_node s = None → eligible s (pool_of (inst_class c)) →
  (∀ n, owner s n ≠ Some (unique_disruption_name (uuid e) (iname c))) →
  consecutive_skips s = (if k =? 0 then [] else [(name, k)]) →
  ∃ s', target_node s' = None ∧ same_cluster s s' ∧ consecutive_skips s' = [(name, S k)] ∧
    run_loop pool_of (S fuel) ticks [c] interval i cycles s =
    (if 3 <=? S k then (s', [0%Z], Some (SkippedTooOften (Some name) (S k)))
     else let '(s'', waits, end_) := run_loop pool_of fuel ticks [c] interval (S i) (cycles - 1) s' in
          (s'', 0%Z :: waits, end_)).
Proof using set_iter_elem.
  intros e name Hset Hcy Hq Hu Huu Ht Hel Hfresh Hsk.
  destruct (execute_unsupported e (iname c) (pool_of (inst_class c)) s Hq Hu Ht Hel Hfresh)
    as (s' & m & Ex & Ht' & Hsame & Hsk').
  rewrite base_of_unique in Hsk' by done. fold name in Hsk'.
  assert (consecutive_skips s' = [(name, S k)]) as Hsk1.
  { rewrite Hsk', Hsk. destruct k; cbn; [done|]. by rewrite !decide_True by done. }
  exists s'. split_and!; [done..|]. cbn [run_loop]. fold e. rewrite Hset.
  destruct (Z.eqb_spec cycles 0); [lia|]. unfold call_next_nemesis.
  replace (i mod length [c]) with 0 by (symmetry; apply Nat.mod_1_r). cbn [lookup list_lookup].
  rewrite Ex. cbn [is_unsupported]. rewrite Hsk1. cbn [max_skips foldl fst snd length Nat.eqb andb].
  done.
Qed.

(** A thread whose only nemesis keeps skipping itself stops: when every disruption raises
    [UnsupportedNemesis] at once, the loop without a bound on its cycles ends after three
    executions, without waiting in between, and reports the nemesis and its three skips. *)
Theorem lone_unsupported_nemesis_stops {C : Type} `{EqDecision C, ClassGraph C} (pool_of : C → NA.pool_arg)
    ticks (c : instance C) interval fuel s :
  (∀ i, is_set (ticks i) = false ∧ quiet (surroundings (ticks i)) ∧ unsupported (surroundings (ticks i)) ∧
        contains "-" (uuid (surroundings (ticks i))) = false ∧
        ∀ n, owner s n ≠ Some (unique_disruption_name (uuid (surroundings (ticks i))) (iname c))) →
  target_node s = None → consecutive_skips s = [] → eligible s (pool_of (inst_class c)) → 3 ≤ fuel →
  ∃ s', run_loop pool_of fuel ticks [c] interval 0 (-1) s =
        (s', [0%Z; 0%Z; 0%Z], Some (SkippedTooOften (Some (disruption_stem (iname c))) 3)) ∧
        same_cluster s s'.
Proof using set_iter_elem.
  intros Hticks Ht0 Hsk0 Hel0 Hf. destruct fuel as [|[|[|fuel]]]; [lia..|].
  destruct (Hticks 0) as (A0 & B0 & C0 & D0 & E0).
  destruct (run_loop_skip pool_of ticks c interval (S (S fuel)) 0 (-1) s 0 A0 ltac:(lia) B0 C0 D0 Ht0 Hel0 E0 Hsk0)
    as (s1 & Ht1 & Hs1 & Hsk1 & ->).
  destruct (Hticks 1) as (A1 & B1 & C1 & D1 & E1).
  destruct (run_loop_skip pool_of ticks c interval (S fuel) 1 (-1 - 1) s1 1 A1 ltac:(lia) B1 C1 D1 Ht1
              (eligible_same s s1 _ Hs1 Hel0)) as (s2 & Ht2 & Hs2 & Hsk2 & E2); [|done|].
  { intros n. unfold owner. rewrite (proj2 Hs1). apply E1. }
  assert (same_cluster s s2) as Hs02 by (split; etrans; [apply Hs2|apply Hs1|apply Hs2|apply Hs1]).
  cbn [Nat.leb] in *. rewrite E2.
  destruct (Hticks 2) as (A2 & B2 & C2 & D2 & F2).
  destruct (run_loop_skip pool_of ticks c interval fuel 2 (-1 - 1 - 1) s2 2 A2 ltac:(lia) B2 C2 D2 Ht2
              (eligible_same s s2 _ Hs02 Hel0)) as (s3 & Ht3 & Hs3 & Hsk3 & E3); [|done|].
  { intros n. unfold owner. rewrite (proj2 Hs02). apply F2. }
  rewrite E3. exists s3. split; [done|]. split; etrans; [apply Hs3|apply Hs02|apply Hs3|apply Hs02].
Qed.

(** Switching the target stays within the label. *)
Lemma switch_well_behaved l n : well_behaved l (switch_target_node n).
Proof using Type.
  clear set_iter_elem set_iter. intros s Hc. unfold switch_target_node, bind, modify. rewrite Hc. cbn [label from_option]. unfold id.
  assert (∀ m o, o ≠ l →
    NA.active_nemesis_on_nodes (node_allocator s) !! m = Some o ↔
    NA.active_nemesis_on_nodes (NA.switch_target_node (target_node s) n l (node_allocator s)).2 !! m = Some o) as Hk.
  { intros m o Ho. unfold NA.switch_target_node. case_bool_decide; [done|].
    destruct (NA.active_nemesis_on_nodes (node_allocator s) !! n) as [own|] eqn:En; [done|]. cbn.
    destruct (decide (m = n)) as [->|Hne]; [rewrite lookup_insert_eq, En; naive_solver|].
    rewrite lookup_insert_ne by done. destruct (target_node s) as [t|]; [|done].
    destruct (NA.active_nemesis_on_nodes (node_allocator s) !! t) as [own|] eqn:Et; [|done].
    destruct (String.eqb_spec own l) as [->|]; [|done]. cbn.
    destruct (decide (m = t)) as [->|]; [rewrite lookup_delete_eq, Et; naive_solver|by rewrite lookup_delete_ne]. }
  destruct (NA.switch_target_node _ _ _ _) as [[b|x] a]; cbn in *; done.
Qed.
End Runner.

(** ** Examples *)
#[local] Existing Instance ex_graph.

Definition ex_env (body : act runner rexn unit) : env :=
  Env None 100 160 "0a1b2c3d" 0 (ex_cevent "i1" "DisruptionEvent" 7) None body false None None.

Definition ex_runner : runner :=
  Runner (NA.init NA.ex_tester) None None (NA.Pool NA.data_nodes) None [] [] [] [] [].

Definition ex_unsupported : act runner rexn unit := raise (UnsupportedNemesis "needs EBS").

Lemma ex_unowned n l : owner ex_runner n ≠ Some l.
Proof. unfold owner. cbn. by rewrite lookup_empty. Qed.

(** The disruption moves on to another node. *)
Definition ex_body : act runner rexn unit := switch_target_node 3.

Lemma execute_nemesis_releases_witness :
  let '(s', r) := execute_nemesis elements true (ex_env ex_body) "RepairMonkey" (NA.Pool NA.data_nodes) ex_runner in
  r = Ok tt ∧ length (operation_log s') = 1 ∧
  NA.active_nemesis_on_nodes (node_allocator s') = NA.active_nemesis_on_nodes (node_allocator ex_runner).
Proof.
  pose proof (execute_nemesis_releases elements true NA.elements_iter (ex_env ex_body) "RepairMonkey"
                (NA.Pool NA.data_nodes) ex_runner (switch_well_behaved _ 3) (λ n, ex_unowned n _)) as Hx.
  assert ((execute_nemesis elements true (ex_env ex_body) "RepairMonkey" (NA.Pool NA.data_nodes) ex_runner).2 = Ok tt ∧
          length (operation_log (execute_nemesis elements true (ex_env ex_body) "RepairMonkey"
                    (NA.Pool NA.data_nodes) ex_runner).1) = 1) as Hc by (by vm_compute).
  destruct (execute_nemesis _ _ _ _ _ _) as [s' r]. destruct Hc, Hx. auto.
Defined.

Definition ex_ticks (body : act runner rexn unit) (i : nat) : tick := Tick false (ex_env body).

Lemma run_ends_and_releases_witness :
  ∃ s' waits e, run elements true (λ _ : ex_cls, NA.Pool NA.data_nodes) 6 (ex_ticks ex_body) (λ _, Ok None)
      [Instance Repair 0; Instance Encrypt 1] 30 None 5 ex_runner = (s', waits, Some e) ∧
    NA.active_nemesis_on_nodes (node_allocator s') = NA.active_nemesis_on_nodes (node_allocator ex_runner) ∧
    ((0 ≤ 5)%Z → (Z.of_nat (length waits) ≤ 5)%Z) ∧ Forall (λ w, w = 30%Z ∨ w = 0%Z) waits.
Proof.
  apply (run_ends_and_releases elements true NA.elements_iter (λ _ : ex_cls, NA.Pool NA.data_nodes)
           (ex_ticks ex_body) [Instance Repair 0; Instance Encrypt 1] 6 (λ _, Ok None) 30 5 ex_runner).
  - intros i c l _. split; [apply switch_well_behaved|intros n; apply ex_unowned].
  - left. lia.
Defined.

Lemma lone_unsupported_nemesis_stops_witness :
  ∃ s', run_loop elements true (λ _ : ex_cls, NA.Pool NA.data_nodes) 3 (ex_ticks ex_unsupported)
          [Instance Repair 0] 30 0 (-1) ex_runner =
        (s', [0%Z; 0%Z; 0%Z], Some (SkippedTooOften (Some "RepairMonkey") 3)) ∧ same_cluster ex_runner s'.
Proof.
  assert (disruption_stem (iname (Instance Repair 0)) = "RepairMonkey") as <- by (by vm_compute).
  apply (lone_unsupported_nemesis_stops elements true NA.elements_iter (λ _ : ex_cls, NA.Pool NA.data_nodes)
           (ex_ticks ex_unsupported) (Instance Repair 0) 30 3 ex_runner).
  - intros i. split_and!; [done|done|by eexists|by vm_compute|intros n; apply ex_unowned].
  - done.
  - done.
  - exists [1; 2], 2. split_and!.
    + by vm_compute.
    + split_and!; [|done|done]. apply list_elem_of_In. by vm_compute; auto.
    + split_and!; intros b Hb; by vm_compute in Hb |- *; simplify_eq.
  - lia.
Defined.
End NemesisRunner.
