(* ===== verification/RegionFallback.v ===== *)
(** Relocation of a cluster on capacity errors:
    [sdcm/provision/common/region_fallback.py] and the gates of
    [sdcm/provision/common/fallback.py].

    The two loops are given how to provision, switch, restore and clean up; these
    callbacks are actions on an arbitrary state that may raise, and the calls made
    are recorded. A candidate iterable is a list of probes, one per step of the
    generator: a probe may raise, yield a candidate, or find its region not
    eligible. *)
From stdpp Require Import base decidable option strings numbers gmap sets list.
From S2P Require Import Prelude.
From S2P Require Import PyVal.
From S2P Require Import PyDict.
From S2P Require Import Effects.

Module RegionFallback.
#[local] Open Scope py_scope.

(** ** Gates *)
Definition FALLBACK_SUPPORTED_BACKENDS : list string := ["aws"; "gce"].
Definition SPOT_SCORING_SUPPORTED_BACKENDS : list string := ["aws"; "gce"].
Definition INSTANCE_PROVISION_ON_DEMAND : string := "on_demand".

Definition is_az_fallback_enabled (p : params) : bool :=
  let value := pget "fallback_to_next_availability_zone" p in
  if is_none value then truthy (pget "aws_fallback_to_next_availability_zone" p) else truthy value.

Definition is_region_fallback_enabled (p : params) : bool :=
  truthy (pget "fallback_to_next_region" p) &&
  existsb (is_str (pget "cluster_backend" p)) FALLBACK_SUPPORTED_BACKENDS.

Definition is_spot_capacity_scoring_enabled (p : params) (backend : string) : bool :=
  if negb (truthy (pget "use_spot_placement_scores" p)) then false
  else if negb (is_str (pget "cluster_backend" p) backend) ||
          negb (bool_decide (backend ∈ SPOT_SCORING_SUPPORTED_BACKENDS)) then false
  else negb (is_str (pget "instance_provision" p) INSTANCE_PROVISION_ON_DEMAND).

Definition candidate : Type := string * list string.

Inductive call : Type :=
  | Provision
  | Switch (region : string) (az_letters : list string)
  | Restore
  | Cleanup (region : option string)
  | Probe
  | SwitchDc (dc : nat) (region : string) (az_letters : list string)
  | CleanupAll.

#[global] Instance call_eq_dec : EqDecision call.
Proof. solve_decision. Defined.

Section Loops.
Context {S E : Type}.

(** The state with the calls made so far, and an action recorded as a call. *)
Definition traced : Type := S * list call.

Definition record {A} (c : call) (m : act S E A) : act traced E A :=
  λ st, let '(s', r) := m st.1 in ((s', st.2 ++ [c]), r).

Definition probes : Type := list (act S E (option candidate)).

(** What a backend supplies to the single-region loop. *)
Record region_ops := RegionOps {
  provision_once : act S E unit;
  switch_region : string → list string → act S E unit;
  restore_region : act S E unit;
  cleanup_region : option string → act S E unit;
  region_candidates : act S E probes;
  is_exception : E → bool;
  is_capacity_error : E → bool;
  error_factory : list string → option E → E;
}.

(** [next] of a candidate generator: the candidate and the rest of the generator. *)
Fixpoint gen_next (g : probes) : act traced E (option (candidate * probes)) :=
  match g with
  | [] => ret None
  | p :: g' =>
    let! c := record Probe p in
    match c with
    | Some c => ret (Some (c, g'))
    | None => gen_next g'
    end
  end.

Section Region.
Context (ops : region_ops).

Definition restore : act traced E unit := record Restore (restore_region ops).

(** [attempt]: [Ok None] is success, [Ok (Some exc)] a capacity error, kept as [last_error]. *)
Definition attempt (region : option string) : act traced E (option E) :=
  try_except (is_exception ops) (record Provision (provision_once ops) ;;; ret None)
    (λ exc, if negb (is_capacity_error ops exc) then restore ;;; raise exc
            else record (Cleanup region) (cleanup_region ops region) ;;; ret (Some exc)).

(** [_restoring_on_error]: an exception of the resolution restores first. *)
Definition restoring {A} (m : act traced E A) : act traced E A :=
  try_except (is_exception ops) m (λ x, restore ;;; raise x).

(** The [for] loop over the candidates, one probe of the generator at a time. *)
Fixpoint region_loop (g : probes) (tried : list string) (last_error : option E) : act traced E unit :=
  match g with
  | [] => restore ;;; raise (error_factory ops tried last_error)
  | p :: g' =>
    let! c := restoring (record Probe p) in
    match c with
    | None => region_loop g' tried last_error
    | Some (region, az_letters) =>
      record (Switch region az_letters) (switch_region ops region az_letters) ;;;
      let! r := attempt (Some region) in
      match r with
      | None => ret tt
      | Some exc => region_loop g' (tried ++ [region]) (Some exc)
      end
    end
  end.

Definition provision_with_region_fallback (original_region : option string) : act traced E unit :=
  let! r := attempt original_region in
  match r with
  | None => ret tt
  | Some exc => let! g := restoring (record Probe (region_candidates ops)) in
                region_loop g [] (Some exc)
  end.
End Region.

(** ** The multi-DC loop *)

Record dc_ops := DcOps {
  dc_candidates : nat → act S E probes;
  dc_provision_once : act S E unit;
  failed_dc_index : S → E → option nat;
  switch_dc_region : nat → string → list string → act S E unit;
  dc_restore : act S E unit;
  dc_cleanup : act S E unit;
  dc_is_exception : E → bool;
  dc_is_capacity_error : E → bool;
  dc_error_factory : option nat → E → E;
}.

Section Dc.
Context (ops : dc_ops).

Definition dc_restore_call : act traced E unit := record Restore (dc_restore ops).

(** [next_candidate]: the candidate and the dictionary of generators. *)
Definition next_candidate (dc : nat) (its : list (nat * probes))
    : act traced E (option candidate * list (nat * probes)) :=
  try_except (dc_is_exception ops)
    (let! g := (match dict_get dc its with
                | Some g => ret g
                | None => record Probe (dc_candidates ops dc)
                end) in
     let! c := gen_next g in
     match c with
     | Some (c, g') => ret (Some c, dict_set dc g' its)
     | None => ret (None, dict_set dc [] its)
     end)
    (λ x, dc_restore_call ;;; raise x).

(** One round of the [while True] loop: [None] when it returns, else the generators. *)
Definition dc_round (its : list (nat * probes)) : act traced E (option (list (nat * probes))) :=
  try_except (dc_is_exception ops) (record Provision (dc_provision_once ops) ;;; ret None)
    (λ exc,
       if negb (dc_is_capacity_error ops exc) then dc_restore_call ;;; raise exc
       else
         let! dc := gets (λ st, failed_dc_index ops st.1 exc) in
         record CleanupAll (dc_cleanup ops) ;;;
         match dc with
         | None => dc_restore_call ;;; raise (dc_error_factory ops None exc)
         | Some dc =>
           let! ci := next_candidate dc its in
           match ci.1 with
           | None => dc_restore_call ;;; raise (dc_error_factory ops (Some dc) exc)
           | Some (region, az_letters) =>
             record (SwitchDc dc region az_letters) (switch_dc_region ops dc region az_letters) ;;;
             ret (Some ci.2)
           end
         end).

(** The loop: [Ok true] when it returned, [Ok false] when the fuel ran out. *)
Fixpoint dc_loop (fuel : nat) (its : list (nat * probes)) : act traced E bool :=
  match fuel with
  | O => ret false
  | Datatypes.S fuel' =>
    let! next := dc_round its in
    match next with
    | None => ret true
    | Some its' => dc_loop fuel' its'
    end
  end.

Definition provision_with_dc_fallback (fuel : nat) : act traced E bool := dc_loop fuel [].
End Dc.

(** ** The protocol of the calls

    Where the cluster is in its life: placed somewhere and not yet tried, tried,
    cleaned up after a failure, or restored to the original placement. *)
Inductive phase : Type :=
  | Placed (region : option string)
  | Tried (region : option string)
  | Cleaned
  | Restored.

(** Which call may come in which phase. *)
Definition phase_step (p : phase) (c : call) : option phase :=
  match p, c with
  | Placed r, Provision => Some (Tried r)
  | Tried r, Cleanup r' => if decide (r = r') then Some Cleaned else None
  | Tried _, CleanupAll => Some Cleaned
  | Tried _, Restore => Some Restored
  | Cleaned, Probe => Some Cleaned
  | Cleaned, Switch r _ => Some (Placed (Some r))
  | Cleaned, SwitchDc _ _ _ => Some (Placed None)
  | Cleaned, Restore => Some Restored
  | _, _ => None
  end.

Definition phase_after (p : phase) (log : list call) : option phase :=
  foldl (λ o c, o ≫= λ p, phase_step p c) (Some p) log.

(** From a state and phase of [P], [m] makes only calls the protocol allows, and
    ends in [Q] when it returns and in [R] when it raises. *)
Definition follows {A} (p0 : phase) (P : S → phase → Prop) (m : act traced E A)
    (Q : A → S → phase → Prop) (R : E → S → phase → Prop) : Prop :=
  ∀ st ph, phase_after p0 st.2 = Some ph → P st.1 ph →
    ∃ ph', phase_after p0 (m st).1.2 = Some ph' ∧
           match (m st).2 with Ok a => Q a (m st).1.1 ph' | Err x => R x (m st).1.1 ph' end.

Lemma follows_ret {A} p0 P (a : A) Q R : (∀ s ph, P s ph → Q a s ph) → follows p0 P (ret a) Q R.
Proof. intros HQ st ph Hph HP. exists ph. split; [done|]. by apply HQ. Qed.

Lemma follows_raise {A} p0 P x (Q : A → S → phase → Prop) R :
  (∀ s ph, P s ph → R x s ph) → follows p0 P (raise x) Q R.
Proof. intros HR st ph Hph HP. exists ph. split; [done|]. by apply HR. Qed.

Lemma follows_bind {A B} p0 P (m : act traced E A) (k : A → act traced E B) Q' Q R :
  follows p0 P m Q' R → (∀ a, follows p0 (Q' a) (k a) Q R) → follows p0 P (bind m k) Q R.
Proof.
  intros Hm Hk st ph Hph HP. destruct (Hm st ph Hph HP) as (ph' & Hph' & Hr).
  unfold bind. destruct (m st) as [st' [a|x]]; simpl in *; [by eapply Hk|eauto].
Qed.

Lemma follows_try {A} p0 P ie (m : act traced E A) h Q R' R :
  follows p0 P m Q R' →
  (∀ x, ie x = true → follows p0 (R' x) (h x) Q R) →
  (∀ x s ph, ie x = false → R' x s ph → R x s ph) →
  follows p0 P (try_except ie m h) Q R.
Proof.
  intros Hm Hh Hn st ph Hph HP. destruct (Hm st ph Hph HP) as (ph' & Hph' & Hr).
  unfold try_except. destruct (m st) as [st' [a|x]]; simpl in *; [eauto|].
  destruct (ie x) eqn:Hx; [by eapply Hh|]. exists ph'. split; [done|]. by apply Hn.
Qed.

Lemma follows_record {A} p0 (P : S → phase → Prop) c (m : act S E A) Q R :
  (∀ s ph, P s ph → ∃ ph', phase_step ph c = Some ph' ∧
     match (m s).2 with Ok a => Q a (m s).1 ph' | Err x => R x (m s).1 ph' end) →
  follows p0 P (record c m) Q R.
Proof.
  intros Hstep st ph Hph HP. destruct (Hstep st.1 ph HP) as (ph' & Hs & Hm).
  exists ph'. unfold record. destruct (m st.1) as [s' r]; simpl in *. split; [|done].
  unfold phase_after in *. rewrite foldl_snoc, Hph. done.
Qed.

Lemma follows_pre {A} p0 (P P' : S → phase → Prop) (m : act traced E A) Q R :
  follows p0 P m Q R → (∀ s ph, P' s ph → P s ph) → follows p0 P' m Q R.
Proof. intros Hm HP st ph Hph HP'. eapply Hm; [done|]. by apply HP. Qed.

Lemma follows_pure {A} p0 (φ : Prop) (P P' : S → phase → Prop) (m : act traced E A) Q R :
  (∀ s ph, P' s ph → φ ∧ P s ph) → (φ → follows p0 P m Q R) → follows p0 P' m Q R.
Proof. intros HP Hm st ph Hph HP'. destruct (HP _ _ HP'). by eapply Hm. Qed.

(** An action that, from a state of [P], raises only exceptions outside [Exception]. *)
Definition no_exception {A} (ie : E → bool) (P : S → Prop) (m : act S E A) : Prop :=
  ∀ s, P s → match (m s).2 with Ok _ => True | Err x => ie x = false end.

Definition is_tried (ph : phase) : Prop := ∃ r, ph = Tried r.

(** The ways a loop may end by an exception: with the original placement restored,
    or, for an exception outside [Exception], anywhere. *)
Definition ends_restored (ie : E → bool) (K : S → Prop) (x : E) (s : S) (ph : phase) : Prop :=
  (ph = Restored ∧ K s) ∨ ie x = false.

(** Promises of the callbacks: [J] is kept by all of them while the cluster is
    being placed, [C] holds of a candidate when it is yielded, and restoring
    establishes [K]. *)
Definition good_probe (J : S → Prop) (C : candidate → S → Prop) (p : act S E (option candidate)) : Prop :=
  ∀ s, J s → J (p s).1 ∧ ∀ c, (p s).2 = Ok (Some c) → C c (p s).1.

Record region_promises (ops : region_ops) (J K : S → Prop) (C : candidate → S → Prop) : Prop := {
  provision_keeps : keeps_state J (provision_once ops);
  cleanup_keeps : ∀ r, keeps_state J (cleanup_region ops r);
  cleanup_total : ∀ r, no_exception (is_exception ops) J (cleanup_region ops r);
  candidates_keep : ∀ s, J s → J (region_candidates ops s).1 ∧
    ∀ g, (region_candidates ops s).2 = Ok g → Forall (good_probe J C) g;
  switch_keeps : ∀ r l s, J s → C (r, l) s → J (switch_region ops r l s).1;
  switch_total : ∀ r l, no_exception (is_exception ops) (λ s, J s ∧ C (r, l) s) (switch_region ops r l);
  restores : ∀ s, J s → K (restore_region ops s).1;
}.

Section RegionProtocol.
Context (ops : region_ops) (J K : S → Prop) (C : candidate → S → Prop).
Hypothesis promises : region_promises ops J K C.

Lemma restore_follows {A} p0 (P : S → phase → Prop) x (Q : A → S → phase → Prop) :
  (∀ s ph, P s ph → J s ∧ (ph = Cleaned ∨ is_tried ph)) →
  follows p0 P (restore ops ;;; raise x) Q (ends_restored (is_exception ops) K).
Proof using promises.
  intros HP. apply (follows_bind _ _ _ _ (λ _ s ph, ph = Restored ∧ K s)).
  - apply follows_record. intros s ph Hph. destruct (HP s ph Hph) as [HJ Hor]. exists Restored.
    split; [by destruct Hor as [->|[r ->]]|]. pose proof (restores _ _ _ _ promises s HJ) as HK.
    destruct (restore_region ops s) as [? [?|?]]; simpl in *; [done|by left].
  - intros _. apply follows_raise. intros s ph [-> ?]. by left.
Qed.

Lemma attempt_follows p0 region :
  follows p0 (λ s ph, J s ∧ ph = Placed region) (attempt ops region)
    (λ r s ph, J s ∧ match r with None => is_tried ph | Some _ => ph = Cleaned end)
    (ends_restored (is_exception ops) K).
Proof using promises.
  unfold attempt. apply (follows_try _ _ _ _ _ _ (λ _ s ph, J s ∧ ph = Tried region)).
  - apply (follows_bind _ _ _ _ (λ _ s ph, J s ∧ ph = Tried region)).
    + apply follows_record. intros s ph [HJ ->]. eexists. split; [reflexivity|].
      pose proof (provision_keeps _ _ _ _ promises s HJ). by destruct (provision_once ops s) as [? [?|?]].
    + intros _. apply follows_ret. intros s ph [? ->]. split; [done|]. by exists region.
  - intros x _. destruct (is_capacity_error ops x); simpl.
    + apply (follows_bind _ _ _ _ (λ _ s ph, J s ∧ ph = Cleaned)); [|intros _; by apply follows_ret].
      apply follows_record. intros s ph [HJ ->]. exists Cleaned. simpl. rewrite decide_True by done. split; [done|].
      pose proof (cleanup_keeps _ _ _ _ promises region s HJ).
      pose proof (cleanup_total _ _ _ _ promises region s HJ).
      destruct (cleanup_region ops region s) as [? [?|?]]; simpl in *; [done|by right].
    + apply restore_follows. intros s ph [? ->]. split; [done|]. right. by exists region.
  - intros x s ph Hx _. by right.
Qed.

Lemma restoring_follows {A} p0 (m : act S E A) (Q : A → S → Prop) :
  (∀ s, J s → J (m s).1 ∧ ∀ a, (m s).2 = Ok a → Q a (m s).1) →
  follows p0 (λ s ph, J s ∧ ph = Cleaned) (restoring ops (record Probe m))
    (λ a s ph, J s ∧ Q a s ∧ ph = Cleaned) (ends_restored (is_exception ops) K).
Proof using promises.
  intros Hm. unfold restoring. apply (follows_try _ _ _ _ _ _ (λ _ s ph, J s ∧ ph = Cleaned)).
  - apply follows_record. intros s ph [HJ ->]. eexists. split; [reflexivity|].
    destruct (Hm s HJ) as [HJ' HQ]. destruct (m s) as [? [?|?]]; simpl in *; auto.
  - intros x _. apply restore_follows. intros s ph [? ->]. auto.
  - intros x s ph Hx _. by right.
Qed.

Lemma region_loop_follows p0 g tried last_error :
  Forall (good_probe J C) g →
  follows p0 (λ s ph, J s ∧ ph = Cleaned) (region_loop ops g tried last_error)
    (λ _ s ph, J s ∧ is_tried ph) (ends_restored (is_exception ops) K).
Proof using promises.
  intros Hg. revert tried last_error. induction Hg as [|p g Hp _ IH]; intros tried last_error; cbn [region_loop].
  { apply restore_follows. intros s ph [? ->]. auto. }
  apply (follows_bind _ _ _ _ (λ a s ph, J s ∧ match a with Some c => C c s | None => True end ∧ ph = Cleaned)).
  { apply (restoring_follows p0 p (λ a s, match a with Some c => C c s | None => True end)).
    intros s HJ. destruct (Hp s HJ) as [? Hc]. split; [done|]. intros [c|] Hc'; auto. }
  intros [[r l]|]; [|eapply follows_pre; [apply IH|]; naive_solver].
  apply (follows_bind _ _ _ _ (λ _ s ph, J s ∧ ph = Placed (Some r))).
  - apply follows_record. intros s ph (HJ & HC & ->). eexists. split; [reflexivity|].
    pose proof (switch_keeps _ _ _ _ promises r l s HJ HC).
    pose proof (switch_total _ _ _ _ promises r l s (conj HJ HC)).
    destruct (switch_region ops r l s) as [? [?|?]]; simpl in *; [done|by right].
  - intros _. eapply follows_bind; [apply attempt_follows|]. intros [exc|]; [apply IH|].
    apply follows_ret. auto.
Qed.

Lemma region_fallback_follows original_region :
  follows (Placed original_region) (λ s ph, J s ∧ ph = Placed original_region)
    (provision_with_region_fallback ops original_region)
    (λ _ s ph, J s ∧ is_tried ph) (ends_restored (is_exception ops) K).
Proof using promises.
  unfold provision_with_region_fallback. eapply follows_bind; [apply attempt_follows|].
  intros [exc|]; [|by apply follows_ret].
  eapply follows_bind; [apply (restoring_follows _ _ (λ g _, Forall (good_probe J C) g))|].
  { intros s HJ. destruct (candidates_keep _ _ _ _ promises s HJ). auto. }
  intros g st ph Hph (HJ & Hg & ->). by apply (region_loop_follows _ g [] (Some exc) Hg st Cleaned).
Qed.

End RegionProtocol.

Lemma region_fallback_spec ops J K C original_region s :
  region_promises ops J K C →
  J s →
  let r := provision_with_region_fallback ops original_region (s, []) in
  ∃ ph, phase_after (Placed original_region) r.1.2 = Some ph ∧
    match r.2 with
    | Ok _ => J r.1.1 ∧ is_tried ph
    | Err x => is_exception ops x = true → ph = Restored ∧ K r.1.1
    end.
Proof.
  intros Hpr HJ r.
  destruct (region_fallback_follows ops J K C Hpr original_region (s, []) (Placed original_region)) as (ph & Hph & Hr);
    [done..|]. fold r in Hph, Hr. exists ph. split; [done|].
  destruct r.2 as [a|x]; [done|]. intros Hx. destruct Hr as [?|Hr]; [done|congruence].
Qed.

(** Region fallback follows its protocol: the configured region is tried
    first; a region is cleaned up after its capacity error and before any other
    region is probed or switched to; candidates are probed only once the region
    before them is exhausted; nothing is called after the original placement was
    restored. When the loop returns, the cluster is provisioned in the last
    placement and nothing was restored; when it raises an [Exception], whatever
    failed, the original placement was restored last. *)
Theorem region_fallback_restores ops J K C original_region s :
  region_promises ops J K C →
  J s →
  let r := provision_with_region_fallback ops original_region (s, []) in
  ∃ ph, phase_after (Placed original_region) r.1.2 = Some ph ∧
    match r.2 with
    | Ok _ => J r.1.1 ∧ is_tried ph
    | Err x => is_exception ops x = true → ph = Restored ∧ K r.1.1
    end.
Proof. apply region_fallback_spec. Qed.

Lemma sum_list_decreases (f f' : nat → nat) l i :
  i ∈ l → (∀ j, f' j ≤ f j) → f' i < f i → sum_list_with f' l < sum_list_with f l.
Proof.
  intros Hi Hle Hlt.
  assert (∀ l, sum_list_with f' l ≤ sum_list_with f l) as Hl.
  { intros l'. induction l' as [|j l' IH]; simpl; [done|]. specialize (Hle j). lia. }
  induction l as [|j l IH]; simpl; [set_solver|].
  apply elem_of_cons in Hi as [->|Hi]; [specialize (Hl l)|specialize (Hle j); specialize (IH Hi)]; lia.
Qed.

(** The same promises for the multi-DC loop; [n] is the number of DCs and [k]
    bounds the probes of one DC. *)
Record dc_promises (ops : dc_ops) (n k : nat) (J K : S → Prop) (C : candidate → S → Prop) : Prop := {
  dc_provision_keeps : keeps_state J (dc_provision_once ops);
  dc_cleanup_keeps : keeps_state J (dc_cleanup ops);
  dc_cleanup_total : no_exception (dc_is_exception ops) J (dc_cleanup ops);
  dc_candidates_keep : ∀ dc s, J s → J (dc_candidates ops dc s).1 ∧
    ∀ g, (dc_candidates ops dc s).2 = Ok g → Forall (good_probe J C) g ∧ length g ≤ k;
  dc_switch_keeps : ∀ dc r l s, dc < n → J s → C (r, l) s → J (switch_dc_region ops dc r l s).1;
  dc_switch_total : ∀ dc r l, dc < n →
    no_exception (dc_is_exception ops) (λ s, J s ∧ C (r, l) s) (switch_dc_region ops dc r l);
  dc_restores : ∀ s, J s → K (dc_restore ops s).1;
  dc_index_bound : ∀ s x dc, J s → failed_dc_index ops s x = Some dc → dc < n;
}.

Section DcProtocol.
Context (ops : dc_ops) (n k : nat) (J K : S → Prop) (C : candidate → S → Prop).
Hypothesis promises : dc_promises ops n k J K C.

(** The probes left: all of a DC whose generator was not started. *)
Definition probes_left (g : option probes) : nat := match g with Some g => length g | None => k end.
Definition remaining (its : list (nat * probes)) : nat :=
  sum_list_with (λ dc, probes_left (dict_get dc its)) (seq 0 n).

Definition good_its (its : list (nat * probes)) : Prop :=
  ∀ dc g, dict_get dc its = Some g → Forall (good_probe J C) g.

Lemma remaining_set dc its g :
  dc < n → length g < probes_left (dict_get dc its) → remaining (dict_set dc g its) < remaining its.
Proof.
  intros Hdc Hg. unfold remaining. apply (sum_list_decreases _ _ _ dc).
  - apply elem_of_seq. lia.
  - intros j. rewrite dict_get_set. case_decide; [subst; simpl; apply Nat.lt_le_incl, Hg|done].
  - rewrite dict_get_set, decide_True by done. done.
Qed.

Lemma remaining_nil : remaining [] = n * k.
Proof.
  unfold remaining. transitivity (length (seq 0 n) * k); [|by rewrite length_seq].
  induction (seq 0 n) as [|j l IH]; simpl in *; [done|]. by rewrite IH.
Qed.

Lemma good_its_set dc its g : good_its its → Forall (good_probe J C) g → good_its (dict_set dc g its).
Proof. intros Hi Hg dc' g'. rewrite dict_get_set. case_decide; [by intros [= <-]|apply Hi]. Qed.

Lemma dc_restore_follows {A} p0 (P : S → phase → Prop) x (Q : A → S → phase → Prop) :
  (∀ s ph, P s ph → J s ∧ (ph = Cleaned ∨ is_tried ph)) →
  follows p0 P (dc_restore_call ops ;;; raise x) Q (ends_restored (dc_is_exception ops) K).
Proof using promises.
  intros HP. apply (follows_bind _ _ _ _ (λ _ s ph, ph = Restored ∧ K s)).
  - apply follows_record. intros s ph Hph. destruct (HP s ph Hph) as [HJ Hor]. exists Restored.
    split; [by destruct Hor as [->|[r ->]]|]. pose proof (dc_restores _ _ _ _ _ _ promises s HJ) as HK.
    destruct (dc_restore ops s) as [? [?|?]]; simpl in *; [done|by left].
  - intros _. apply follows_raise. intros s ph [-> ?]. by left.
Qed.

(** [next] consumes at least one probe, and what it yields is good at that time. *)
Lemma gen_next_follows p0 g :
  Forall (good_probe J C) g →
  follows p0 (λ s ph, J s ∧ ph = Cleaned) (gen_next g)
    (λ r s ph, J s ∧ ph = Cleaned ∧
       match r with Some (c, g') => C c s ∧ Forall (good_probe J C) g' ∧ length g' < length g | None => True end)
    (λ _ s ph, J s ∧ ph = Cleaned).
Proof.
  intros Hg. induction Hg as [|p g Hp Hg IH]; cbn [gen_next]; [apply follows_ret; naive_solver|].
  apply (follows_bind _ _ _ _ (λ a s ph, J s ∧ ph = Cleaned ∧ match a with Some c => C c s | None => True end)).
  - apply follows_record. intros s ph [HJ ->]. eexists. split; [reflexivity|].
    destruct (Hp s HJ) as [HJ' Hc]. destruct (p s) as [? [[c|]|?]]; simpl in *; auto.
  - intros [c|].
    + apply follows_ret. intros s ph (? & ? & ?). split_and!; try done. simpl. lia.
    + intros st ph Hph (HJ & -> & _). destruct (IH st Cleaned Hph (conj HJ eq_refl)) as (ph' & Hph' & Hr).
      exists ph'. split; [done|]. destruct (gen_next g st) as [st' [[[c g']|]|x]]; simpl in *; [|done..].
      destruct Hr as (? & ? & ? & ? & ?). split_and!; try done. lia.
Qed.

Lemma next_candidate_follows p0 dc its :
  dc < n → good_its its →
  follows p0 (λ s ph, J s ∧ ph = Cleaned) (next_candidate ops dc its)
    (λ r s ph, J s ∧ ph = Cleaned ∧
       match r.1 with Some c => C c s ∧ good_its r.2 ∧ remaining r.2 < remaining its | None => True end)
    (ends_restored (dc_is_exception ops) K).
Proof using promises.
  intros Hdc Hits. unfold next_candidate. apply (follows_try _ _ _ _ _ _ (λ _ s ph, J s ∧ ph = Cleaned)).
  - apply (follows_bind _ _ _ _ (λ g s ph, J s ∧ ph = Cleaned ∧ Forall (good_probe J C) g ∧
                                             length g ≤ probes_left (dict_get dc its))).
    + destruct (dict_get dc its) as [g|] eqn:Hg; [apply follows_ret; naive_solver|].
      apply follows_record. intros s ph [HJ ->]. eexists. split; [reflexivity|].
      destruct (dc_candidates_keep _ _ _ _ _ _ promises dc s HJ) as [HJ' Hg'].
      destruct (dc_candidates ops dc s) as [? [g|?]]; simpl in *; [|done]. by destruct (Hg' g eq_refl).
    + intros g. apply (follows_pure _ (Forall (good_probe J C) g ∧ length g ≤ probes_left (dict_get dc its))
                         (λ s ph, J s ∧ ph = Cleaned)); [naive_solver|]. intros [Hgood Hlen].
      eapply follows_bind; [by apply gen_next_follows|]. intros [[c g']|]; [|apply follows_ret; naive_solver].
      apply follows_ret. intros s ph (? & ? & ? & ? & ?). split; [done|]. split; [done|]. split; [done|]. split; [by apply good_its_set|].
      apply remaining_set; [done|]. by eapply Nat.lt_le_trans.
  - intros x _. apply dc_restore_follows. intros s ph [? ->]. auto.
  - intros x s ph Hx _. by right.
Qed.

Lemma dc_round_follows p0 its :
  good_its its →
  follows p0 (λ s ph, J s ∧ ph = Placed None) (dc_round ops its)
    (λ r s ph, J s ∧ match r with
                     | None => is_tried ph
                     | Some its' => ph = Placed None ∧ good_its its' ∧ remaining its' < remaining its
                     end)
    (ends_restored (dc_is_exception ops) K).
Proof using promises.
  intros Hits. unfold dc_round. apply (follows_try _ _ _ _ _ _ (λ _ s ph, J s ∧ ph = Tried None)).
  - apply (follows_bind _ _ _ _ (λ _ s ph, J s ∧ ph = Tried None)).
    + apply follows_record. intros s ph [HJ ->]. eexists. split; [reflexivity|].
      pose proof (dc_provision_keeps _ _ _ _ _ _ promises s HJ). by destruct (dc_provision_once ops s) as [? [?|?]].
    + intros _. apply follows_ret. intros s ph [? ->]. split; [done|]. by exists None.
  - intros x _. destruct (dc_is_capacity_error ops x); simpl.
    2:{ apply dc_restore_follows. intros s ph [? ->]. split; [done|]. right. by exists None. }
    apply (follows_bind _ _ _ _ (λ dc s ph, J s ∧ ph = Tried None ∧ match dc with Some dc => dc < n | None => True end)).
    { intros st ph Hph [HJ ->]. exists (Tried None). simpl. split_and!; try done.
      destruct (failed_dc_index ops st.1 x) eqn:Hx; [|done]. by eapply (dc_index_bound _ _ _ _ _ _ promises). }
    intros dc. apply (follows_bind _ _ _ _ (λ _ s ph, J s ∧ ph = Cleaned ∧ match dc with Some dc => dc < n | None => True end)).
    + apply follows_record. intros s ph (HJ & -> & Hdc). eexists. split; [reflexivity|].
      pose proof (dc_cleanup_keeps _ _ _ _ _ _ promises s HJ).
      pose proof (dc_cleanup_total _ _ _ _ _ _ promises s HJ).
      destruct (dc_cleanup ops s) as [? [?|?]]; simpl in *; [done|by right].
    + intros _. destruct dc as [dc|]; cycle 1.
      { apply dc_restore_follows. naive_solver. }
      apply (follows_pure _ (dc < n) (λ s ph, J s ∧ ph = Cleaned)); [naive_solver|]. intros Hdc.
      eapply follows_bind; [by apply next_candidate_follows|]. intros [[[r l]|] its']; simpl; cycle 1.
      { apply dc_restore_follows. naive_solver. }
      apply (follows_pure _ (good_its its' ∧ remaining its' < remaining its)
               (λ s ph, J s ∧ C (r, l) s ∧ ph = Cleaned)); [naive_solver|]. intros Hgood.
      apply (follows_bind _ _ _ _ (λ _ s ph, J s ∧ ph = Placed None)); [|intros _; apply follows_ret; naive_solver].
      apply follows_record. intros s ph (HJ & HC & ->). eexists. split; [reflexivity|].
      pose proof (dc_switch_keeps _ _ _ _ _ _ promises dc r l s Hdc HJ HC).
      pose proof (dc_switch_total _ _ _ _ _ _ promises dc r l Hdc s (conj HJ HC)).
      destruct (switch_dc_region ops dc r l s) as [? [?|?]]; simpl in *; [done|by right].
  - intros x s ph Hx _. by right.
Qed.

(** With fuel above the probes left the loop does not run out of it. *)
Lemma dc_loop_follows p0 fuel its :
  good_its its → remaining its < fuel →
  follows p0 (λ s ph, J s ∧ ph = Placed None) (dc_loop ops fuel its)
    (λ b s ph, J s ∧ b = true ∧ is_tried ph) (ends_restored (dc_is_exception ops) K).
Proof using promises.
  revert its. induction fuel as [|fuel IH]; intros its Hits Hfuel; cbn [dc_loop]; [lia|].
  eapply follows_bind; [by apply dc_round_follows|]. intros [its'|]; [|apply follows_ret; naive_solver].
  apply (follows_pure _ (good_its its' ∧ remaining its' < remaining its) (λ s ph, J s ∧ ph = Placed None));
    [naive_solver|]. intros [? ?]. apply IH; [done|lia].
Qed.
End DcProtocol.

Lemma dc_fallback_spec ops n k J K C s :
  dc_promises ops n k J K C →
  J s →
  let r := provision_with_dc_fallback ops (Datatypes.S (n * k)) (s, []) in
  ∃ ph, phase_after (Placed None) r.1.2 = Some ph ∧
    match r.2 with
    | Ok b => b = true ∧ J r.1.1 ∧ is_tried ph
    | Err x => dc_is_exception ops x = true → ph = Restored ∧ K r.1.1
    end.
Proof.
  intros Hpr HJ r.
  destruct (dc_loop_follows ops n k J K C Hpr (Placed None) (Datatypes.S (n * k)) []) with (st := (s, @nil call)) (ph := Placed None)
    as (ph & Hph & Hr); [by intros ??|rewrite remaining_nil; lia|done|done|].
  change (dc_loop ops (Datatypes.S (n * k)) [] (s, [])) with r in Hr, Hph. exists ph. split; [done|].
  destruct r.2 as [b|x]; [naive_solver|]. intros Hx. destruct Hr as [?|Hr]; [done|congruence].
Qed.

(** The multi-DC loop terminates and keeps its promise: with [n] DCs and at
    most [k] candidate probes for each, [n * k + 1] rounds are always enough; every
    round cleans up before it resolves and switches; and the loop ends either with
    the cluster provisioned in the last placement and nothing restored, or, when it
    raises an [Exception], with the original placement restored last. *)
Theorem dc_fallback_terminates_and_restores ops n k J K C s :
  dc_promises ops n k J K C →
  J s →
  let r := provision_with_dc_fallback ops (Datatypes.S (n * k)) (s, []) in
  ∃ ph, phase_after (Placed None) r.1.2 = Some ph ∧
    match r.2 with
    | Ok b => b = true ∧ J r.1.1 ∧ is_tried ph
    | Err x => dc_is_exception ops x = true → ph = Restored ∧ K r.1.1
    end.
Proof. apply dc_fallback_spec. Qed.
End Loops.

(** ** Witnesses *)

(** A cloud where provisioning fails for lack of capacity as often as the state says. *)
Definition ex_provision : act nat bool unit :=
  λ s, match s with O => (0, Ok tt) | S s' => (s', Err true) end.
Definition ex_region_ops : region_ops (S := nat) (E := bool) :=
  RegionOps ex_provision (λ _ _, ret tt) (ret tt) (λ _, ret tt)
    (ret [ret (Some ("us-east4", ["b"])); ret None; ret (Some ("us-west1", ["a"]))])
    (λ _, true) (λ x, x) (λ _ _, false).
Definition ex_dc_ops : dc_ops (S := nat) (E := bool) :=
  DcOps (λ _, ret [ret (Some ("us-east4", ["b"])); ret None]) ex_provision (λ _ _, Some 0) (λ _ _ _, ret tt)
    (ret tt) (ret tt) (λ _, true) (λ x, x) (λ _ _, false).

Lemma region_fallback_restores_witness :
  let r := provision_with_region_fallback ex_region_ops (Some "us-east1") (5, []) in
  ∃ ph, phase_after (Placed (Some "us-east1")) r.1.2 = Some ph ∧
    match r.2 with
    | Ok _ => True ∧ is_tried ph
    | Err x => is_exception ex_region_ops x = true → ph = Restored ∧ True
    end.
Proof.
  apply (region_fallback_restores ex_region_ops (λ _, True) (λ _, True) (λ _ _, True)); [|exact I].
  constructor; try done. intros s _. split; [done|]. intros g [= <-]. repeat constructor.
Defined.

Lemma dc_fallback_terminates_and_restores_witness :
  let r := provision_with_dc_fallback ex_dc_ops (S (1 * 2)) (1, []) in
  ∃ ph, phase_after (Placed None) r.1.2 = Some ph ∧
    match r.2 with
    | Ok b => b = true ∧ True ∧ is_tried ph
    | Err x => dc_is_exception ex_dc_ops x = true → ph = Restored ∧ True
    end.
Proof.
  apply (dc_fallback_terminates_and_restores ex_dc_ops 1 2 (λ _, True) (λ _, True) (λ _ _, True) 1); [|exact I].
  constructor; try done.
  - intros dc s _. split; [done|]. intros g [= <-]. simpl. split; [repeat constructor|lia].
  - intros s x dc _ [= <-]. lia.
Defined.
End RegionFallback.
