(* ===== verification/GceCapacity.v ===== *)
(** GCE capacity: the classification of provisioning errors
    ([sdcm/provision/gce/capacity_errors.py]) and the ranking of zones and
    regions by Capacity Advisor ([sdcm/provision/gce/capacity_advisor.py]).

    An exception is its text. The advice service is an argument: per zone it
    answers with an obtainability, with nothing, or fails. Obtainability is a
    rational number. The cache of answers is left out: it returns an earlier
    answer of the same request. *)
From Stdlib Require Import Ascii QArith Sorting.Sorted.
From Stdlib Require String.
From stdpp Require Import base decidable option strings numbers gmap sets sorting list.
From S2P Require Import Prelude.
From S2P Require Import PyString.
From S2P Require Import PyDict.

Module GceCapacity.

(** ** Errors *)
Definition CAPACITY_ERROR_MARKERS : list string :=
  ["ZONE_RESOURCE_POOL_EXHAUSTED"; "RESOURCE_POOL_EXHAUSTED"; "stockout"].
Definition QUOTA_ERROR_MARKERS : list string := ["QUOTA_EXCEEDED"; "quotaExceeded"].
Definition TYPE_NOT_AVAILABLE_MARKERS : list string := ["RESOURCE_NOT_FOUND"; "machineTypeNotFound"].
Definition PREEMPTION_ERROR_MARKERS : list string := ["Instance failed to start due to preemption"; "PREEMPTED"].
Definition CONFIG_ERROR_MARKERS : list string :=
  ["not compatible for creating instance"; "not compatible with machine type architecture"].

Definition any_marker (markers : list string) (error_str : string) : bool :=
  existsb (λ m, contains m error_str) markers.

Definition is_config_error (exc : string) : bool := any_marker CONFIG_ERROR_MARKERS (lower exc).
Definition is_zone_capacity_error (exc : string) : bool :=
  if is_config_error exc then false else any_marker CAPACITY_ERROR_MARKERS exc.
Definition is_quota_error (exc : string) : bool := any_marker QUOTA_ERROR_MARKERS exc.
Definition is_type_unavailable_error (exc : string) : bool := any_marker TYPE_NOT_AVAILABLE_MARKERS exc.
Definition is_preemption_error (exc : string) : bool := any_marker PREEMPTION_ERROR_MARKERS exc.

Inductive error_class : Type := Config | Preemption | Capacity | Quota | TypeUnavailable | Unknown.

Definition classify_provisioning_error (exc : string) : error_class :=
  if is_config_error exc then Config
  else if is_preemption_error exc then Preemption
  else if is_zone_capacity_error exc then Capacity
  else if is_quota_error exc then Quota
  else if is_type_unavailable_error exc then TypeUnavailable
  else Unknown.

(** ** Advice *)
Record advice := Advice { zone : string; obtainability : Q }.

(** [zone.rsplit("-", 1)[-1]]. *)
Definition zone_letter (z : string) : string := List.last (split_on "-"%char z) EmptyString.

(** One zone of a request: an answer, no answer, or a failure. *)
Inductive zone_answer : Type := Answer (q : Q) | NoAnswer | QueryFailed.

(** Sorting by a key: obtainability downwards, then the name. *)
Definition better (a b : Q * string) : bool :=
  match Qcompare b.1 a.1 with
  | Lt => true
  | Gt => false
  | Eq => Stdlib.Strings.String.leb a.2 b.2
  end.

Definition by_score {A} (score : A → Q) (name : A → string) (a b : A) : Prop :=
  better (score a, name a) (score b, name b) = true.

#[global] Instance by_score_dec {A} (score : A → Q) (name : A → string) a b :
  Decision (by_score score name a b).
Proof. unfold by_score. apply _. Defined.

Definition sort_by_score {A} (score : A → Q) (name : A → string) (l : list A) : list A :=
  merge_sort (by_score score name) l.

Section Advice.
(** [query machine_types size region zone]. *)
Context (query : list string → Z → string → string → zone_answer).

(** [_collect_zone_advice]; [None] when every zone failed. *)
Definition _collect_zone_advice (machine_types : list string) (size : Z) (region : string) (zones : list string)
    : option (list advice) :=
  let answers := (λ z, (z, query machine_types size region z)) <$> zones in
  let results := omap (λ p : string * zone_answer,
                         match p.2 with Answer q => Some (Advice p.1 q) | _ => None end) answers in
  let failed := existsb (λ p : string * zone_answer, match p.2 with QueryFailed => true | _ => false end) answers in
  match results with
  | [] => if failed then None else Some []
  | _ => Some (sort_by_score obtainability zone results)
  end.

Definition get_zone_advice (machine_types : list string) (size : Z) (region : string) (zones : list string)
    : list advice :=
  if negb (truthy machine_types) || negb (truthy zones) || (size <? 1)%Z then []
  else default [] (_collect_zone_advice machine_types size region zones).

Definition Qmin_py (a b : Q) : Q := if Qle_bool a b then a else b.
Definition Qmax_py (a b : Q) : Q := if Qle_bool b a then a else b.

(** The scores of one role added to the worst so far, per letter. *)
Definition worst_of_role (worst : list (string * Q)) (adv : list advice) : list (string * Q) :=
  let by_letter := foldl (λ d a, dict_set (zone_letter (zone a)) (obtainability a) d) [] adv in
  foldl (λ w p, dict_set p.1 (Qmin_py (default p.2 (dict_get p.1 w)) p.2) w) worst by_letter.

(** The loop over the roles; [None] when a role could not be scored. *)
Fixpoint worst_scores (region : string) (zone_letters : list string)
    (role_requests : list (string * list string * Z)) (worst : list (string * Q)) : option (list (string * Q)) :=
  match role_requests with
  | [] => Some worst
  | (_, machine_types, count) :: rest =>
    if negb (truthy machine_types) || (count <? 1)%Z then worst_scores region zone_letters rest worst
    else match get_zone_advice machine_types count region ((λ l, region +:+ "-" +:+ l) <$> zone_letters) with
         | [] => None
         | adv => worst_scores region zone_letters rest (worst_of_role worst adv)
         end
  end.

Definition rank_zone_letters_for_roles (role_requests : list (string * list string * Z)) (region : string)
    (zone_letters : list string) (min_obtainability : Q) : option (list string) :=
  match zone_letters with
  | [] => Some []
  | _ =>
    worst ← worst_scores region zone_letters role_requests [];
    match worst with
    | [] => None
    | _ =>
      let scored := filter (λ l, match dict_get l worst with
                                 | Some q => Qle_bool min_obtainability q
                                 | None => false
                                 end = true) zone_letters in
      let unscored := filter (λ l, dict_get l worst = None) zone_letters in
      Some (sort_by_score (λ l, default (0 # 1)%Q (dict_get l worst)) (λ l, l) scored ++ unscored)
    end
  end.

Definition rank_regions (machine_types : list string) (size : Z) (regions : list string)
    (zones_per_region : string → list string) : option (list string) :=
  match regions with
  | [] => Some []
  | _ =>
    let best := foldl (λ d r,
                  match zones_per_region r with
                  | [] => d
                  | zones => match get_zone_advice machine_types size r zones with
                             | [] => d
                             | a :: adv => dict_set r (foldl (λ m x, Qmax_py m (obtainability x)) (obtainability a) adv) d
                             end
                  end) [] regions in
    match best with
    | [] => None
    | _ => let scored := filter (λ r, dict_get r best ≠ None) regions in
           let unscored := filter (λ r, dict_get r best = None) regions in
           Some (sort_by_score (λ r, default (0 # 1)%Q (dict_get r best)) (λ r, r) scored ++ unscored)
    end
  end.

(** ** Lemmas *)
Lemma sort_by_score_perm {A} (score : A → Q) (name : A → string) l : sort_by_score score name l ≡ₚ l.
Proof. apply merge_sort_Permutation. Qed.

(** Ranked letters are among the given ones, without repetition if these are. *)
Lemma rank_zone_letters_sub reqs region letters m ranked :
  rank_zone_letters_for_roles reqs region letters m = Some ranked → ranked ⊆+ letters.
Proof.
  unfold rank_zone_letters_for_roles. destruct letters as [|l0 letters']; [by intros [= <-]|].
  set (letters := l0 :: letters') in *. destruct (worst_scores _ _ _ _) as [worst|]; [|done]. simpl.
  destruct worst as [|w worst]; [done|]. remember (w :: worst) as ws eqn:Hws. intros [= <-].
  rewrite sort_by_score_perm. generalize letters as l. clear letters letters' l0. intros l.
  induction l as [|x l IH]; [done|]. rewrite !filter_cons.
  destruct (decide (dict_get x ws = None)) as [E|E].
  - rewrite decide_False by (by rewrite E). rewrite <- Permutation_middle. by apply submseteq_skip.
  - case_decide; [by apply submseteq_skip|by apply submseteq_cons].
Qed.

Lemma filter_split {A} (P : A → Prop) `{∀ x, Decision (P x)} l :
  filter (λ x, ¬ P x) l ++ filter P l ≡ₚ l.
Proof.
  induction l as [|x l IH]; [done|]. rewrite !filter_cons. destruct (decide (P x)).
  - rewrite decide_False by tauto. rewrite <- Permutation_middle. by constructor.
  - rewrite decide_True by tauto. by constructor.
Qed.

(** Ranking regions only reorders them. *)
Lemma rank_regions_perm machine_types size regions zpr ranked :
  rank_regions machine_types size regions zpr = Some ranked → ranked ≡ₚ regions.
Proof.
  unfold rank_regions. destruct regions as [|r0 regions']; [by intros [= <-]|].
  set (best := foldl _ _ _). clearbody best. destruct best as [|b best]; [done|]. intros [= <-].
  rewrite sort_by_score_perm. apply (filter_split (λ r, dict_get r (b :: best) = None)).
Qed.
End Advice.
End GceCapacity.
