(* ===== verification/GceZones.v ===== *)
(** Choosing GCE zones: [GceZoneResolver] of [sdcm/utils/gce_utils.py] and
    [GceAZResolver] of [sdcm/provision/gce/zone_resolver.py].

    The compute API is an argument: the zones of a region, and whether a machine
    type is offered in a zone. The configuration is its parameters, the
    environment variable that overrides the datacenter, and whether the
    availability zone was set explicitly. *)
From Stdlib Require Import Ascii QArith Sorting.Sorted.
From Stdlib Require String.
From stdpp Require Import base decidable option strings numbers gmap sets sorting list.
From S2P Require Import Prelude.
From S2P Require Import PyString.
From S2P Require Import PyVal.
From S2P Require Import PyDict.
From S2P Require Import RegionFallback.
From S2P Require Import GceCapacity.

Module GceZones.
Import RegionFallback GceCapacity.
#[local] Open Scope Z_scope.

Definition SUPPORTED_GCE_REGIONS : list string := ["us-east1"; "us-east4"; "us-west1"; "us-central1"].

(** [explicit_az] is [None] for parameters that do not know where a value came
    from; [spot_obtainability_min] is the parameter [gce_spot_obtainability_min]. *)
Record conf := Conf {
  prm : params;
  env_dc : option string;
  explicit_az : option bool;
  spot_obtainability_min : Q;
}.

Definition set_param (k : string) (v : pyval) (c : conf) : conf :=
  Conf (<[k := v]> (prm c)) (env_dc c) (explicit_az c) (spot_obtainability_min c).
Definition set_env (e : option string) (c : conf) : conf :=
  Conf (prm c) e (explicit_az c) (spot_obtainability_min c).

Definition str_items (l : list pyval) : list string :=
  omap (λ v, match v with VStr s => Some s | _ => None end) l.

(** [SCTConfiguration.gce_datacenters]: the environment first. *)
Definition gce_datacenters (c : conf) : list string :=
  match env_dc c with
  | Some s => split_ws s
  | None => match pget "gce_datacenter" (prm c) with
            | VStr s => split_ws s
            | VList l => concat (split_ws <$> str_items l)
            | _ => []
            end
  end.

Definition _region_names (c : conf) : list string :=
  match gce_datacenters c with
  | [] => match pget "gce_datacenter" (prm c) with
          | VStr s => split_ws s
          | VList l => str_items l
          | _ => []
          end
  | regions => regions
  end.

Definition _configured_az_letters (c : conf) : list string :=
  match pget "availability_zone" (prm c) with
  | VStr s => filter (λ w, truthy w = true) (strip <$> split_on ","%char s)
  | _ => []
  end.

(** ** Node counts *)

(** [int(s)] of a decimal numeral with an optional sign. *)
Definition parse_int (s : string) : option Z :=
  match strip s with
  | String "-"%char d => if isdigit d then Some (- int_of_digits d) else None
  | String "+"%char d => if isdigit d then Some (int_of_digits d) else None
  | d => if isdigit d then Some (int_of_digits d) else None
  end.

Definition _node_count_positive (v : pyval) : bool :=
  match v with
  | VNone | VStr _ => false
  | VBool b => b
  | VInt z => 0 <? z
  | VList l => existsb (λ n, match n with
                             | VInt z => 0 <? z
                             | VStr s => isdigit (drop_while (Ascii.eqb "-"%char) (strip s)) &&
                                         (0 <? default 0 (parse_int s))
                             | _ => false
                             end) l
  end.

Definition _node_count_total (v : pyval) : Z :=
  match v with
  | VInt z => z
  | VList l => foldl (λ t n, t + match n with
                                 | VInt z => z
                                 | VBool b => if b : bool then 1 else 0
                                 | VStr s => default 0 (parse_int s)
                                 | _ => 0
                                 end) 0 l
  | _ => 0
  end.

Definition _has_loaders (p : params) : bool := _node_count_positive (pget "n_loaders" p).
Definition _has_monitor (p : params) : bool := _node_count_positive (pget "n_monitor_nodes" p).
Definition _has_oracle (p : params) : bool :=
  (is_str (pget "db_type" p) "mixed_scylla" || is_str (pget "db_type" p) "mixed_cassandra") &&
  _node_count_positive (pget "n_test_oracle_db_nodes" p).
Definition _has_zero_token (p : params) : bool :=
  truthy (pget "use_zero_nodes" p) && _node_count_positive (pget "n_db_zero_token_nodes" p).
Definition _has_vector_store (p : params) : bool := _node_count_positive (pget "n_vector_store_nodes" p).
Definition _always (p : params) : bool := true.

Definition _MACHINE_TYPE_PARAM_GATES : list (string * (params → bool)) :=
  [("gce_instance_type_db", _always);
   ("gce_instance_type_loader", _has_loaders);
   ("gce_instance_type_monitor", _has_monitor);
   ("zero_token_instance_type_db", _has_zero_token);
   ("gce_instance_type_db_oracle", _has_oracle);
   ("instance_type_db_target", _always);
   ("nemesis_grow_shrink_instance_type", _always);
   ("instance_type_vector_store", _has_vector_store)].

(** Add the machine type of a parameter to a list without repetitions. *)
Definition select_type (p : params) (selected : list string) (key : string) (enabled : bool) : list string :=
  match pget key p with
  | VStr t => if truthy t && enabled && negb (bool_decide (t ∈ selected)) then selected ++ [t] else selected
  | _ => selected
  end.

Definition required_machine_types (p : params) : list string :=
  foldl (λ sel kg, select_type p sel kg.1 (kg.2 p)) [] _MACHINE_TYPE_PARAM_GATES.

Definition advised_machine_types (p : params) : list string :=
  foldl (λ sel k, select_type p sel k true) []
    ["gce_instance_type_db"; "zero_token_instance_type_db"; "instance_type_db_target"].

Definition advised_size (p : params) : Z :=
  Z.max (_node_count_total (pget "n_db_nodes" p) +
         (if _has_zero_token p then _node_count_total (pget "n_db_zero_token_nodes" p) else 0)) 1.

Definition advised_role_requests (p : params) : list (string * list string * Z) :=
  ("db", advised_machine_types p, advised_size p) ::
  omap (λ r : string * string * string,
          let '(role, type_key, count_key) := r in
          let count := _node_count_total (pget count_key p) in
          match pget type_key p with
          | VStr t => if truthy t && (0 <? count) then Some (role, [t], count) else None
          | _ => None
          end)
    [("loaders", "gce_instance_type_loader", "n_loaders");
     ("monitor", "gce_instance_type_monitor", "n_monitor_nodes")].

Definition is_capacity_advice_enabled (p : params) : bool := is_spot_capacity_scoring_enabled p "gce".

Definition _score_may_choose_az (c : conf) : bool :=
  if negb (is_capacity_advice_enabled (prm c)) then false
  else if truthy (pget "spot_score_overrides_configured_az" (prm c)) then true
  else match explicit_az c with None => false | Some b => negb b end.

(** ** Sets of strings *)
Definition str_le (a b : string) : Prop := Stdlib.Strings.String.leb a b = true.
#[global] Instance str_le_dec a b : Decision (str_le a b).
Proof. unfold str_le. apply _. Defined.
Definition sorted_set (s : gset string) : list string := merge_sort str_le (elements s).

Definition letters_of (zones : list string) : gset string := list_to_set (zone_letter <$> zones).

(** The intersection over the regions; [None] before the first. *)
Definition common_letters (region_names : list string) (supported : string → list string) : option (gset string) :=
  foldl (λ common r, Some (match common with
                           | None => letters_of (supported r)
                           | Some s => s ∩ letters_of (supported r)
                           end)) None region_names.

(** Fill up to [n] slots from [pool], skipping what is there. *)
Fixpoint backfill (n : nat) (resolved pool : list string) : list string :=
  match pool with
  | [] => resolved
  | l :: pool' =>
    if (n <=? length resolved)%nat then resolved
    else backfill n (if bool_decide (l ∈ resolved) then resolved else resolved ++ [l]) pool'
  end.

Lemma elem_of_sorted_set x s : x ∈ sorted_set s ↔ x ∈ s.
Proof. unfold sorted_set. rewrite merge_sort_Permutation. apply elem_of_elements. Qed.

Lemma elem_of_inter_fold (f : string → gset string) l s z :
  z ∈ foldl (λ s m, s ∩ f m) s l ↔ z ∈ s ∧ ∀ m, m ∈ l → z ∈ f m.
Proof. revert s. induction l as [|m l IH]; intros s; simpl; [set_solver|]. rewrite IH. set_solver. Qed.

Lemma elem_of_letters_of zones l : l ∈ letters_of zones ↔ ∃ z, z ∈ zones ∧ zone_letter z = l.
Proof. unfold letters_of. rewrite elem_of_list_to_set, list_elem_of_fmap. naive_solver. Qed.

Lemma common_letters_None regions f : common_letters regions f = None → regions = [].
Proof.
  unfold common_letters. destruct regions as [|r regions] using rev_ind; [done|]. by rewrite foldl_snoc.
Qed.

Lemma common_letters_spec regions f s l :
  common_letters regions f = Some s → (l ∈ s ↔ ∀ r, r ∈ regions → l ∈ letters_of (f r)).
Proof.
  unfold common_letters. revert s. induction regions as [|r regions IH] using rev_ind; [done|].
  intros s. rewrite foldl_snoc. intros [= <-].
  destruct (foldl _ None regions) as [s0|] eqn:E0.
  - rewrite elem_of_intersection, (IH s0) by done. set_solver.
  - assert (regions = []) as -> by (by eapply common_letters_None). set_solver.
Qed.

Lemma elem_of_take_sub (x : string) n l : x ∈ take n l → x ∈ l.
Proof. rewrite <- (take_drop n l) at 2. rewrite elem_of_app. tauto. Qed.

Lemma nth_mod_elem pick (l : list string) : l ≠ [] → nth (pick mod length l) l EmptyString ∈ l.
Proof. intros Hl. apply list_elem_of_In, nth_In, Nat.mod_upper_bound. by destruct l. Qed.

Lemma backfill_length n resolved pool :
  (length resolved <= n → length (backfill n resolved pool) <= n)%nat.
Proof.
  revert resolved. induction pool as [|l pool IH]; intros resolved Hn; simpl; [done|].
  destruct (Nat.leb_spec n (length resolved)); [done|]. apply IH. case_match; rewrite ?length_app; simpl; lia.
Qed.

Lemma backfill_elem n resolved pool l :
  (l ∈ resolved → l ∈ backfill n resolved pool) ∧
  (l ∈ backfill n resolved pool → l ∈ resolved ∨ l ∈ pool).
Proof.
  revert resolved. induction pool as [|k pool IH]; intros resolved; simpl; [set_solver|].
  destruct (n <=? length resolved)%nat; [set_solver|].
  destruct (IH (if bool_decide (k ∈ resolved) then resolved else resolved ++ [k])) as [IH1 IH2].
  case_bool_decide; set_solver.
Qed.

Inductive no_zone_error : Type := NoValidAvailabilityZoneError.

Section Api.
Context (zones_for_region : string → list string) (type_in_zone : string → string → bool).
Context (query : list string → Z → string → string → zone_answer).

Definition get_zones_for_machine_type (region machine_type : string) : list string :=
  filter (λ z, type_in_zone machine_type z = true) (zones_for_region region).

Definition get_common_zones (region : string) (machine_types preferred_zones : list string) : list string :=
  match machine_types with
  | [] => []
  | mt :: rest =>
    let common : gset string :=
      foldl (λ s m, s ∩ list_to_set (get_zones_for_machine_type region m))
        (list_to_set (get_zones_for_machine_type region mt)) rest in
    let ordered := filter (λ z, z ∈ common) preferred_zones in
    ordered ++ filter (λ z, z ∉ ordered) (sorted_set common)
  end.

Definition _common_supported_letters (region_names configured_letters machine_types : list string) : list string :=
  match common_letters region_names
          (λ r, get_common_zones r machine_types ((λ l, r +:+ "-" +:+ l) <$> configured_letters)) with
  | None => []
  | Some common =>
    if bool_decide (common = ∅) then []
    else let configured_first := filter (λ l, l ∈ common) configured_letters in
         configured_first ++ sorted_set (common ∖ list_to_set configured_first)
  end.

Definition _discover_valid_zone_letters (region_names machine_types : list string) : list string :=
  match common_letters region_names (λ r, get_common_zones r machine_types (zones_for_region r)) with
  | None => []
  | Some common => if bool_decide (common = ∅) then [] else sorted_set common
  end.

(** [Ok None] is the given list itself, [Ok (Some l)] a ranked list. *)
Definition _rank_letters_by_capacity_advice (c : conf) (region_names letters : list string)
    : outcome no_zone_error (option (list string)) :=
  if (length letters <? 2)%nat || negb (is_capacity_advice_enabled (prm c)) then Ok None
  else match region_names with
       | [region] =>
         match advised_machine_types (prm c) with
         | [] => Ok None
         | _ =>
           match rank_zone_letters_for_roles query (advised_role_requests (prm c)) region letters
                   (spot_obtainability_min c) with
           | None => Ok None
           | Some ranked =>
             let required := (1 `max` (length (_configured_az_letters c) `min` length letters))%nat in
             if (length ranked <? required)%nat then Err NoValidAvailabilityZoneError else Ok (Some ranked)
           end
         end
       | _ => Ok None
       end.

(** [GceAZResolver.resolve]; [pick] is the index [random.choice] draws. *)
Definition resolve (pick : nat) (c : conf) : outcome no_zone_error conf :=
  if negb (truthy (pget "pre_filter_unavailable_availability_zones" (prm c))) then Ok c
  else
    let machine_types := required_machine_types (prm c) in
    let region_names := _region_names c in
    match machine_types, region_names with
    | [], _ | _, [] => Ok c
    | _, _ =>
      match _configured_az_letters c with
      | [] =>
        match _discover_valid_zone_letters region_names machine_types with
        | [] => Err NoValidAvailabilityZoneError
        | valid =>
          match _rank_letters_by_capacity_advice c region_names valid with
          | Err x => Err x
          | Ok ranked =>
            let chosen := match ranked with
                          | Some r => hd EmptyString r
                          | None => nth (pick mod length valid) valid EmptyString
                          end in
            Ok (set_param "availability_zone" (VStr chosen) c)
          end
        end
      | configured =>
        match _common_supported_letters region_names configured machine_types with
        | [] => Err NoValidAvailabilityZoneError
        | supported =>
          match _rank_letters_by_capacity_advice c region_names supported with
          | Err x => Err x
          | Ok ranked =>
            let ranked_letters := default supported ranked in
            let resolved :=
              if _score_may_choose_az c then take (length configured) ranked_letters
              else backfill (length configured) (filter (λ l, l ∈ supported) configured) ranked_letters in
            if (length resolved <? length configured)%nat then Err NoValidAvailabilityZoneError
            else
              let new_value := join "," resolved in
              if is_str (pget "availability_zone" (prm c)) new_value then Ok c
              else Ok (set_param "availability_zone" (VStr new_value) c)
          end
        end
      end
    end.

(** ** Candidates *)
Definition _ordered_fallback_regions (p : params) (exclude : list string) : list string :=
  let regions := filter (λ r, r ∉ exclude) SUPPORTED_GCE_REGIONS in
  if negb (is_capacity_advice_enabled p) || (length regions <? 2)%nat then regions
  else match advised_machine_types p with
       | [] => regions
       | mts => match rank_regions query mts (advised_size p) regions zones_for_region with
                | Some (r :: ranked) => r :: ranked
                | _ => regions
                end
       end.

Definition cardinality (configured : list string) : nat :=
  match length configured with O => 1%nat | n => n end.

(** The candidate a region gives, with what the generator read when it started. *)
Definition region_candidate (configured machine_types : list string) (region : string) : option candidate :=
  let letters := _common_supported_letters [region] configured machine_types in
  if (length letters <? cardinality configured)%nat then None
  else Some (region, take (cardinality configured) letters).

Definition get_region_fallback_candidates (c : conf) : list (string * option candidate) :=
  match _region_names c with
  | [] => []
  | current :: _ =>
    (λ r, (r, region_candidate (_configured_az_letters c) (required_machine_types (prm c)) r)) <$>
      _ordered_fallback_regions (prm c) [current]
  end.

(** One region for the DC generator: the regions in use are read at that time. *)
Definition dc_candidate (configured machine_types : list string) (region : string) (now : conf) : option candidate :=
  if bool_decide (region ∈ _region_names now) then None
  else
    let letters := _common_supported_letters [region] configured machine_types in
    match configured with
    | [] => if (length letters <? cardinality configured)%nat then None
            else Some (region, take (cardinality configured) letters)
    | _ => if bool_decide (filter (λ l, l ∉ letters) configured = []) then Some (region, configured) else None
    end.

(** [get_dc_fallback_candidates]: the regions it goes over and the candidate of each. *)
Definition get_dc_fallback_candidates (dc_index : nat) (c : conf) : list (conf → option candidate) :=
  if (length (_region_names c) <=? dc_index)%nat then []
  else (λ r now, dc_candidate (_configured_az_letters c) (required_machine_types (prm c)) r now) <$>
         _ordered_fallback_regions (prm c) [].

Definition get_az_fallback_candidates (c : conf) : list (list string) :=
  match _configured_az_letters c, _region_names c with
  | [letter], regions =>
    match regions with
    | [] => []
    | _ => (λ l, [l]) <$> filter (λ l, l ∉ [letter])
             (_common_supported_letters regions [letter] (required_machine_types (prm c)))
    end
  | _, _ => []
  end.

(** ** What the chosen letters are *)

(** A zone with this letter in the region offers all the machine types. *)
Definition supported_in (machine_types : list string) (region letter : string) : Prop :=
  ∃ z, z ∈ zones_for_region region ∧ zone_letter z = letter ∧
       ∀ mt, mt ∈ machine_types → type_in_zone mt z = true.

Lemma elem_of_machine_zones region mt z :
  z ∈ get_zones_for_machine_type region mt ↔ z ∈ zones_for_region region ∧ type_in_zone mt z = true.
Proof. clear query. unfold get_zones_for_machine_type. rewrite list_elem_of_filter. tauto. Qed.

Lemma elem_of_common_zones region mts pref z :
  mts ≠ [] →
  z ∈ get_common_zones region mts pref ↔
  z ∈ zones_for_region region ∧ ∀ mt, mt ∈ mts → type_in_zone mt z = true.
Proof. clear query.
  destruct mts as [|mt mts]; [done|]. intros _. unfold get_common_zones.
  set (common := foldl _ _ _).
  assert (z ∈ common ↔ z ∈ zones_for_region region ∧ ∀ m, m ∈ mt :: mts → type_in_zone m z = true) as Hc.
  { unfold common. rewrite (elem_of_inter_fold (λ m, list_to_set (get_zones_for_machine_type region m))).
    rewrite elem_of_list_to_set, elem_of_machine_zones. setoid_rewrite elem_of_list_to_set.
    setoid_rewrite elem_of_machine_zones. set_solver. }
  rewrite <- Hc, elem_of_app, !list_elem_of_filter, elem_of_sorted_set.
  destruct (decide (z ∈ pref)); tauto.
Qed.

(** The supported letters are those supported in every region. *)
Lemma supported_letters_spec regions configured mts l :
  mts ≠ [] → regions ≠ [] →
  l ∈ _common_supported_letters regions configured mts ↔ ∀ r, r ∈ regions → supported_in mts r l.
Proof. clear query.
  intros Hm Hr. unfold _common_supported_letters.
  destruct (common_letters regions _) as [common|] eqn:E; [|by apply common_letters_None in E].
  transitivity (l ∈ common).
  - case_bool_decide as He; [set_solver|]. rewrite elem_of_app, list_elem_of_filter, elem_of_sorted_set.
    rewrite elem_of_difference, elem_of_list_to_set, list_elem_of_filter.
    destruct (decide (l ∈ configured)); tauto.
  - rewrite (common_letters_spec _ _ _ l E). unfold supported_in. setoid_rewrite elem_of_letters_of.
    setoid_rewrite elem_of_common_zones; [|done]. naive_solver.
Qed.

Lemma discover_letters_spec regions mts l :
  mts ≠ [] → regions ≠ [] →
  l ∈ _discover_valid_zone_letters regions mts → ∀ r, r ∈ regions → supported_in mts r l.
Proof. clear query.
  intros Hm Hr. unfold _discover_valid_zone_letters.
  destruct (common_letters regions _) as [common|] eqn:E; [|by apply common_letters_None in E].
  case_bool_decide; [set_solver|]. rewrite elem_of_sorted_set, (common_letters_spec _ _ _ l E).
  setoid_rewrite elem_of_letters_of. setoid_rewrite elem_of_common_zones; [|done].
  intros Hl r Hin. destruct (Hl r Hin) as (z & [? ?] & ?). by exists z.
Qed.

Lemma rank_letters_sub c regions letters ranked :
  _rank_letters_by_capacity_advice c regions letters = Ok (Some ranked) →
  (∀ l, l ∈ ranked → l ∈ letters) ∧ ranked ≠ [].
Proof.
  unfold _rank_letters_by_capacity_advice. case_match; [done|].
  destruct regions as [|region [|? ?]]; [done| |done].
  destruct (advised_machine_types (prm c)) as [|t ts]; [done|].
  destruct (rank_zone_letters_for_roles query _ region letters _) as [r|] eqn:E; [|done].
  destruct (Nat.ltb_spec (length r) (1 `max` (length (_configured_az_letters c) `min` length letters))); [done|].
  intros [= ->]. split; [|intros ->; simpl in *; lia].
  intros l Hl. apply rank_zone_letters_sub in E. by eapply elem_of_submseteq.
Qed.


(** The letters [resolve] picks for a configuration that names some. *)
Lemma resolve_configured c regions configured mts supported ranked resolved :
  mts ≠ [] → regions ≠ [] →
  supported = _common_supported_letters regions configured mts →
  _rank_letters_by_capacity_advice c regions supported = Ok ranked →
  resolved = (if _score_may_choose_az c then take (length configured) (default supported ranked)
              else backfill (length configured) (filter (λ l, l ∈ supported) configured) (default supported ranked)) →
  (length configured <= length resolved)%nat →
  length resolved = length configured ∧
  (∀ l r, l ∈ resolved → r ∈ regions → supported_in mts r l) ∧
  (_score_may_choose_az c = false → ∀ l, l ∈ configured → (∀ r, r ∈ regions → supported_in mts r l) → l ∈ resolved).
Proof.
  intros Hm Hr Hsup Hrank Hres Hlen.
  assert (∀ l, l ∈ default supported ranked → l ∈ supported) as Hpool.
  { destruct ranked as [r|]; simpl; [|done]. by apply rank_letters_sub in Hrank as [? _]. }
  assert (∀ l, l ∈ supported ↔ ∀ r, r ∈ regions → supported_in mts r l) as Hspec.
  { intros l. rewrite Hsup. by apply supported_letters_spec. }
  destruct (_score_may_choose_az c); subst resolved.
  - rewrite length_take in Hlen |- *. split; [lia|]. split; [|done].
    intros l r Hl Hin. apply Hspec; [|done]. apply Hpool. by apply elem_of_take_sub in Hl.
  - set (first := filter (λ l, l ∈ supported) configured) in *.
    assert (length first <= length configured)%nat by apply length_filter. split; [|split].
    + apply Nat.le_antisymm; [by apply backfill_length|done].
    + intros l r Hl Hin. apply Hspec; [|done]. apply backfill_elem in Hl as [Hl|Hl]; [|by apply Hpool].
      by apply list_elem_of_filter in Hl as [? _].
    + intros _ l Hl Hs. apply backfill_elem. apply list_elem_of_filter. split; [|done]. by apply Hspec.
Qed.

(** The upfront zone filter never changes the topology and never picks a bad
    zone: when it is enabled and returns, [availability_zone] holds as many letters
    as were configured (one if none was), each a zone of every region that offers
    all the machine types the test will launch; configured letters that are good
    stay unless the score may choose; nothing else of the configuration changes. *)
Theorem resolve_correct pick c c' :
  resolve pick c = Ok c' →
  truthy (pget "pre_filter_unavailable_availability_zones" (prm c)) = true →
  required_machine_types (prm c) ≠ [] →
  _region_names c ≠ [] →
  ∃ letters,
    pget "availability_zone" (prm c') = VStr (join "," letters) ∧
    length letters = cardinality (_configured_az_letters c) ∧
    (∀ l r, l ∈ letters → r ∈ _region_names c → supported_in (required_machine_types (prm c)) r l) ∧
    (_score_may_choose_az c = false → ∀ l, l ∈ _configured_az_letters c →
       (∀ r, r ∈ _region_names c → supported_in (required_machine_types (prm c)) r l) → l ∈ letters) ∧
    (∀ k, k ≠ "availability_zone" → pget k (prm c') = pget k (prm c)) ∧ env_dc c' = env_dc c.
Proof.
  unfold resolve. intros H Hpre Hmt Hreg. rewrite Hpre in H. simpl in H.
  destruct (required_machine_types (prm c)) as [|mt mts] eqn:Emt; [done|].
  destruct (_region_names c) as [|rg rgs] eqn:Erg; [done|].
  destruct (_configured_az_letters c) as [|l0 ls] eqn:Ecfg.
  - destruct (_discover_valid_zone_letters (rg :: rgs) (mt :: mts)) as [|v vs] eqn:Ev; [done|].
    destruct (_rank_letters_by_capacity_advice c (rg :: rgs) (v :: vs)) as [ranked|] eqn:Er; [|done].
    injection H as <-. eexists [_]. split; [simpl; rewrite pget_insert, decide_True by done; reflexivity|].
    split; [done|]. split; [|split; [set_solver|split; [|done]]].
    + intros l r ->%list_elem_of_singleton Hr. eapply discover_letters_spec; [done|done| |exact Hr]. rewrite Ev.
      destruct ranked as [rk|].
      * apply rank_letters_sub in Er as [Hsub Hne]. apply Hsub. destruct rk; [done|]. set_solver.
      * by apply (nth_mod_elem pick (v :: vs)).
    + intros k Hk. simpl. by rewrite pget_insert, decide_False by done.
  - destruct (_common_supported_letters (rg :: rgs) (l0 :: ls) (mt :: mts)) as [|sp sps] eqn:Es; [done|].
    destruct (_rank_letters_by_capacity_advice c (rg :: rgs) (sp :: sps)) as [ranked|] eqn:Er; [|done].
    set (resolved := if _score_may_choose_az c then _ else _) in H.
    revert H. change (S (length ls)) with (length (l0 :: ls)).
    destruct (Nat.ltb_spec (length resolved) (length (l0 :: ls))) as [|Hlen]; [done|]. intros H.
    destruct (resolve_configured c (rg :: rgs) (l0 :: ls) (mt :: mts) (sp :: sps) ranked resolved) as (Hl & Hs & Hk);
      [done|done|by rewrite Es|done|done|done|].
    exists resolved. destruct (is_str _ (join "," resolved)) eqn:Eis; injection H as <-.
    + split; [|done]. revert Eis. unfold is_str. destruct (pget "availability_zone" (prm c)); try done.
      by intros ->%String.eqb_eq.
    + simpl. split; [by rewrite pget_insert, decide_True|]. repeat (split; [done|]). split; [|done].
      intros k Hne. by rewrite pget_insert, decide_False.
Qed.

Lemma no_machine_types_no_letters region configured : _common_supported_letters [region] configured [] = [].
Proof. clear query. unfold _common_supported_letters. simpl. unfold letters_of. simpl. by case_bool_decide. Qed.

Lemma region_candidate_valid configured mts region r letters :
  region_candidate configured mts region = Some (r, letters) →
  r = region ∧ length letters = cardinality configured ∧ ∀ l, l ∈ letters → supported_in mts region l.
Proof. clear query.
  unfold region_candidate. destruct (decide (mts = [])) as [->|Hm].
  { rewrite no_machine_types_no_letters. unfold cardinality. by destruct (length configured). }
  destruct (Nat.ltb_spec (length (_common_supported_letters [region] configured mts)) (cardinality configured))
    as [|Hlen]; [done|]. intros [= <- <-]. split; [done|]. split; [rewrite length_take; lia|].
  intros l Hi%elem_of_take_sub.
  rewrite supported_letters_spec in Hi by done. apply Hi. by apply list_elem_of_singleton.
Qed.

Lemma ordered_regions_sub p exclude r :
  r ∈ _ordered_fallback_regions p exclude → r ∈ SUPPORTED_GCE_REGIONS ∧ r ∉ exclude.
Proof. clear type_in_zone.
  unfold _ordered_fallback_regions. intros Hr.
  assert (r ∈ filter (λ r, r ∉ exclude) SUPPORTED_GCE_REGIONS) as Hf; [|apply list_elem_of_filter in Hf; tauto].
  destruct (_ || _); [done|]. destruct (advised_machine_types p) as [|t ts]; [done|].
  destruct (rank_regions query (t :: ts) _ _ _) as [[|r0 ranked]|] eqn:E; [done| |done].
  apply rank_regions_perm in E. by rewrite <- E.
Qed.

(** A relocation target is a usable one: every candidate for relocating the
    cluster is another region of the supported list, with the configured number of
    zone letters, each a zone of that region offering all required machine types. *)
Theorem region_candidates_usable c region r letters :
  (region, Some (r, letters)) ∈ get_region_fallback_candidates c →
  r = region ∧ r ∈ SUPPORTED_GCE_REGIONS ∧ Some r ≠ head (_region_names c) ∧
  length letters = cardinality (_configured_az_letters c) ∧
  ∀ l, l ∈ letters → supported_in (required_machine_types (prm c)) r l.
Proof.
  unfold get_region_fallback_candidates. destruct (_region_names c) as [|cur rest]; [set_solver|].
  intros (r0 & Heq & Hr0)%list_elem_of_fmap. injection Heq as -> Hc.
  apply ordered_regions_sub in Hr0 as [Hsup Hne].
  symmetry in Hc. apply region_candidate_valid in Hc as (-> & Hlen & Hl).
  split_and!; [done|done| |done|done]. simpl. intros [= ->]. set_solver.
Qed.
End Api.

(** ** Witnesses *)
Definition ex_zones (r : string) : list string := [r +:+ "-b"; r +:+ "-c"; r +:+ "-d"].
Definition ex_offers (mt z : string) : bool := negb (String.eqb z "us-east1-c").
Definition ex_query (mts : list string) (n : Z) (r z : string) : zone_answer := NoAnswer.
Definition ex_conf : conf :=
  Conf {["gce_datacenter" := VStr "us-east1"; "availability_zone" := VStr "b, c";
         "pre_filter_unavailable_availability_zones" := VBool true;
         "gce_instance_type_db" := VStr "n2-highmem-8"]} None None 0.

Example resolve_ex : match resolve ex_zones ex_offers ex_query 0 ex_conf with
                     | Ok c => pget "availability_zone" (prm c) = VStr "b,d"
                     | Err _ => False
                     end.
Proof. vm_compute. reflexivity. Qed.

Lemma resolve_correct_witness :
  ∃ letters,
    pget "availability_zone" (prm (set_param "availability_zone" (VStr "b,d") ex_conf)) = VStr (join "," letters) ∧
    length letters = 2%nat ∧
    (∀ l r, l ∈ letters → r ∈ ["us-east1"] → supported_in ex_zones ex_offers ["n2-highmem-8"] r l) ∧
    (_score_may_choose_az ex_conf = false → ∀ l, l ∈ ["b"; "c"] →
       (∀ r, r ∈ ["us-east1"] → supported_in ex_zones ex_offers ["n2-highmem-8"] r l) → l ∈ letters) ∧
    (∀ k, k ≠ "availability_zone" →
       pget k (prm (set_param "availability_zone" (VStr "b,d") ex_conf)) = pget k (prm ex_conf)) ∧
    env_dc (set_param "availability_zone" (VStr "b,d") ex_conf) = env_dc ex_conf.
Proof.
  apply (resolve_correct ex_zones ex_offers ex_query 0 ex_conf (set_param "availability_zone" (VStr "b,d") ex_conf)).
  - vm_compute. reflexivity.
  - vm_compute. reflexivity.
  - vm_compute. discriminate.
  - vm_compute. discriminate.
Defined.

Lemma region_candidates_usable_witness :
  "us-east4" = "us-east4" ∧ "us-east4" ∈ SUPPORTED_GCE_REGIONS ∧
  Some "us-east4" ≠ head (_region_names ex_conf) ∧
  length ["b"; "c"] = cardinality (_configured_az_letters ex_conf) ∧
  ∀ l, l ∈ ["b"; "c"] → supported_in ex_zones ex_offers (required_machine_types (prm ex_conf)) "us-east4" l.
Proof.
  apply (region_candidates_usable ex_zones ex_offers ex_query ex_conf "us-east4" "us-east4" ["b"; "c"]).
  vm_compute. apply elem_of_cons. left. reflexivity.
Defined.
End GceZones.
