(* ===== verification/GceFallback.v ===== *)
(** Capacity fallback on GCE: [sdcm/provision/gce/region_fallback.py], the
    binding of the generic loops to the GCE configuration, and the retry of other
    zones before the loops.

    The state is the configuration ([gce_datacenter], [availability_zone] and the
    environment variable [SCT_GCE_DATACENTER]) and the cloud, which is arbitrary.
    The provisioning attempt, the partial cleanup of the caller, the discovery of
    leftover resources and their deletion are arguments. *)
From Stdlib Require Import Ascii QArith.
From stdpp Require Import base decidable option strings numbers gmap sets list.
From S2P Require Import Prelude.
From S2P Require Import PyString.
From S2P Require Import PyVal.
From S2P Require Import PyDict.
From S2P Require Import Effects.
From S2P Require Import RegionFallback.
From S2P Require Import GceCapacity.
From S2P Require Import GceZones.

Module GceFallback.
Import RegionFallback GceCapacity GceZones.
#[local] Open Scope py_scope.

(** The exceptions that matter, with their text; [Exhausted] is what [error_factory] makes
    and [Interrupt] one outside [Exception]. *)
Inductive gexn : Type :=
  | ZoneResourcesExhaustedError (msg : string)
  | ProvisionError (msg : string)
  | OperationPreemptedError (msg : string)
  | InstanceConfigurationError (msg : string)
  | NoValidAvailabilityZone
  | ValueError
  | IndexError
  | Exhausted
  | OtherException (msg : string)
  | Interrupt.

Definition exc_str (x : gexn) : string :=
  match x with
  | ZoneResourcesExhaustedError m | ProvisionError m | OperationPreemptedError m | InstanceConfigurationError m
  | OtherException m => m
  | _ => EmptyString
  end.

Definition gce_is_exception (x : gexn) : bool := match x with Interrupt => false | _ => true end.

Definition gce_is_capacity_error (x : gexn) : bool :=
  match x with
  | ZoneResourcesExhaustedError _ => true
  | ProvisionError m => is_zone_capacity_error m
  | _ => false
  end.

(** ** Placement *)
Definition current_datacenters (c : conf) : list string :=
  match pget "gce_datacenter" (prm c) with
  | VList l => str_items l
  | VStr s => split_ws s
  | _ => []
  end.

Definition gce_switch_region (region : string) (az_letters : list string) (c : conf) : conf :=
  set_param "availability_zone" (VStr (join "," az_letters))
    (set_param "gce_datacenter" (VStr region) (set_env (Some region) c)).

Definition gce_restore_region (region : option string) (az : pyval) (env_region : option string) (c : conf) : conf :=
  let c := set_env env_region c in
  let c := match region with Some r => set_param "gce_datacenter" (VStr r) c | None => c end in
  set_param "availability_zone" az c.

Definition gce_switch_dc_region (dc : nat) (region : string) (c : conf) : option conf :=
  let dcs := current_datacenters c in
  if (dc <? length dcs)%nat
  then let joined := join " " (<[dc := region]> dcs) in
       Some (set_param "gce_datacenter" (VStr joined) (set_env (Some joined) c))
  else None.

(** The first configured region whose name occurs in the message. *)
Fixpoint find_region (message : string) (regions : list string) (i : nat) : option nat :=
  match regions with
  | [] => None
  | r :: rs => if truthy r && contains r message then Some i else find_region message rs (S i)
  end.

Definition _failed_dc_index (c : conf) (x : gexn) : option nat :=
  find_region (exc_str x) (current_datacenters c) 0.

Section Gce.
Context {W : Type}.
Record gstate := GState { gconf : conf; cloud : W }.
Definition gact := act gstate gexn.
Definition provisioner : Type := string * nat.

Context (provision_once_ : gact unit) (partial_cleanup : option (gact unit)).
Context (discover_regions : gact (list provisioner)) (provisioner_cleanup : provisioner → gact unit).
Context (zones_for_region : string → list string) (type_in_zone : string → string → bool).
Context (query : list string → Z → string → string → zone_answer).

Definition on_conf (f : conf → conf) : gact unit := modify (λ g, GState (f (gconf g)) (cloud g)).

Definition run_partial_cleanup : gact unit :=
  match partial_cleanup with Some m => m | None => ret tt end.

(** The sweep of one region: every failure in it is logged and swallowed. *)
Definition sweep_region (region : option string) : gact unit :=
  let! found := try_except gce_is_exception
                  (let! provisioners := discover_regions in ret (Some provisioners))
                  (λ _, ret None) in
  match found with
  | None => ret tt
  | Some provisioners =>
    for_each provisioners (λ p,
      if bool_decide (Some p.1 = region)
      then try_except gce_is_exception (provisioner_cleanup p) (λ _, ret tt)
      else ret tt)
  end.

Definition gce_cleanup_region (partial : bool) (region : option string) : gact unit :=
  (if partial then run_partial_cleanup else ret tt) ;;; sweep_region region.

(** [dict.fromkeys(current_datacenters(params))]: without repetitions, in order. *)
Fixpoint fromkeys (l : list string) (seen : list string) : list string :=
  match l with
  | [] => []
  | x :: l' => if bool_decide (x ∈ seen) then fromkeys l' seen else x :: fromkeys l' (seen ++ [x])
  end.

Definition cleanup_all_regions : gact unit :=
  run_partial_cleanup ;;;
  let! dcs := gets (λ g, current_datacenters (gconf g)) in
  for_each (fromkeys dcs []) (λ r, gce_cleanup_region false (Some r)).

(** ** Zones first: [provision_with_az_fallback] *)
Definition set_az (v : pyval) : gact unit := on_conf (set_param "availability_zone" v).

Definition az_attempt (original_az : pyval) : gact (option gexn) :=
  try_except gce_is_exception (provision_once_ ;;; ret None)
    (λ exc, if negb (gce_is_capacity_error exc) then set_az original_az ;;; raise exc else ret (Some exc)).

Fixpoint az_loop (original_az : pyval) (candidates : list (list string)) (last_error : gexn) : gact unit :=
  match candidates with
  | [] => set_az original_az ;;; raise last_error
  | az_letters :: rest =>
    cleanup_all_regions ;;;
    set_az (VStr (join "," az_letters)) ;;;
    let! r := az_attempt original_az in
    match r with
    | None => ret tt
    | Some exc => az_loop original_az rest exc
    end
  end.

Definition provision_with_zone_retry : gact unit :=
  let! original_az := gets (λ g, pget "availability_zone" (prm (gconf g))) in
  let! r := az_attempt original_az in
  match r with
  | None => ret tt
  | Some exc =>
    let! candidates := gets (λ g, get_az_fallback_candidates zones_for_region type_in_zone (gconf g)) in
    az_loop original_az candidates exc
  end.

(** The gate is read once, when the attempt is wrapped. *)
Definition provision_with_az_fallback (c : conf) : gact unit :=
  if is_az_fallback_enabled (prm c) then provision_with_zone_retry else provision_once_.

(** ** The bindings *)
Definition enforce_single_region_gate (c : conf) : option gexn :=
  if (length (gce_datacenters c) =? 1)%nat then None else Some ValueError.

(** The probes of a generator over regions that read what they need at the start. *)
Definition fixed_probes (cs : list (option candidate)) : list (gact (option candidate)) :=
  (λ c, ret c) <$> cs.

Definition gce_region_ops (attempt_ : gact unit) (c0 : conf) : region_ops (S := gstate) (E := gexn) :=
  RegionOps attempt_
    (λ r l, on_conf (gce_switch_region r l))
    (on_conf (gce_restore_region (head (gce_datacenters c0)) (pget "availability_zone" (prm c0)) (env_dc c0)))
    (gce_cleanup_region true)
    (gets (λ g, fixed_probes (get_region_fallback_candidates zones_for_region type_in_zone query (gconf g)).*2))
    gce_is_exception gce_is_capacity_error (λ _ _, Exhausted).

Definition gce_provision_with_region_fallback (attempt_ : gact unit) : act (traced (S := gstate)) gexn unit :=
  let! c0 := gets (λ st, gconf st.1) in
  match enforce_single_region_gate c0 with
  | Some x => raise x
  | None => provision_with_region_fallback (gce_region_ops attempt_ c0) (head (gce_datacenters c0))
  end.

Definition original_datacenters (c0 : conf) : option string :=
  match gce_datacenters c0 with [] => None | dcs => Some (join " " dcs) end.

Definition gce_dc_ops (attempt_ : gact unit) (c0 : conf) : dc_ops (S := gstate) (E := gexn) :=
  DcOps
    (λ dc, gets (λ g,
       (λ (f : conf → option candidate) (g : gstate), (g, Ok (f (gconf g)))) <$>
         get_dc_fallback_candidates zones_for_region type_in_zone query dc (gconf g)))
    attempt_
    (λ g x, _failed_dc_index (gconf g) x)
    (λ dc r _ g, match gce_switch_dc_region dc r (gconf g) with
                 | Some c => (GState c (cloud g), Ok tt)
                 | None => (g, Err IndexError)
                 end)
    (on_conf (gce_restore_region (original_datacenters c0)
       (pget "availability_zone" (prm c0)) (env_dc c0)))
    cleanup_all_regions gce_is_exception gce_is_capacity_error (λ _ _, Exhausted).

Definition gce_provision_with_dc_fallback (fuel : nat) (attempt_ : gact unit)
    : act (traced (S := gstate)) gexn bool :=
  let! c0 := gets (λ st, gconf st.1) in
  provision_with_dc_fallback (gce_dc_ops attempt_ c0) fuel.

(** [provision_with_fallback]: by the number of datacenters. *)
Definition provision_with_fallback (fuel : nat) (attempt_ : gact unit) : act (traced (S := gstate)) gexn bool :=
  let! c0 := gets (λ st, gconf st.1) in
  if (1 <? length (gce_datacenters c0))%nat
  then gce_provision_with_dc_fallback fuel attempt_
  else gce_provision_with_region_fallback attempt_ ;;; ret true.

(** ** What the callbacks keep *)

(** An action of the cloud: it does not touch the configuration. *)
Definition frames {A} (m : gact A) : Prop := ∀ g, gconf (m g).1 = gconf g.

(** Everything but the placement is as in [c0]. *)
Definition others_same (c0 c : conf) : Prop :=
  (∀ k, k ≠ "gce_datacenter" → k ≠ "availability_zone" → pget k (prm c) = pget k (prm c0)) ∧
  explicit_az c = explicit_az c0 ∧ spot_obtainability_min c = spot_obtainability_min c0.

(** The placement is the original one. *)
Definition placement_restored (c0 c : conf) : Prop :=
  others_same c0 c ∧ gce_datacenters c = gce_datacenters c0 ∧
  pget "availability_zone" (prm c) = pget "availability_zone" (prm c0) ∧ env_dc c = env_dc c0 ∧
  (current_datacenters c0 = gce_datacenters c0 → current_datacenters c = gce_datacenters c0).

Lemma others_same_az c0 c v : others_same c0 c → others_same c0 (set_param "availability_zone" v c).
Proof.
  intros (Hk & ? & ?). split; [|done]. intros k H1 H2. simpl. rewrite pget_insert, decide_False by done. auto.
Qed.

Lemma others_same_dc c0 c v : others_same c0 c → others_same c0 (set_param "gce_datacenter" v c).
Proof.
  intros (Hk & ? & ?). split; [|done]. intros k H1 H2. simpl. rewrite pget_insert, decide_False by done. auto.
Qed.

Lemma others_same_env c0 c e : others_same c0 c → others_same c0 (set_env e c).
Proof. done. Qed.

Lemma others_same_restore c0 c r az e : others_same c0 c → others_same c0 (gce_restore_region r az e c).
Proof.
  intros Hc. unfold gce_restore_region. apply others_same_az. destruct r; [apply others_same_dc|]; done.
Qed.

Lemma frames_bind {A B} (m : gact A) (k : A → gact B) : frames m → (∀ a, frames (k a)) → frames (bind m k).
Proof.
  intros Hm Hk g. unfold bind. specialize (Hm g). destruct (m g) as [g' [a|x]]; simpl in *; [|done].
  by rewrite Hk.
Qed.

Lemma frames_try {A} (m : gact A) h : frames m → (∀ x, frames (h x)) → frames (try_except gce_is_exception m h).
Proof.
  intros Hm Hh g. unfold try_except. specialize (Hm g). destruct (m g) as [g' [a|x]]; simpl in *; [done|].
  destruct (gce_is_exception x); [by rewrite Hh|done].
Qed.

Lemma frames_ret {A} (a : A) : frames (ret a).
Proof. done. Qed.

Lemma frames_for_each {A} (l : list A) (b : A → gact unit) : (∀ x, frames (b x)) → frames (for_each l b).
Proof.
  intros Hb. induction l as [|x l IH]; cbn [for_each]; [apply frames_ret|]. apply frames_bind; auto.
Qed.

(** An action that raises no [Exception]. *)
Definition quiet {A} (m : gact A) : Prop := no_exception gce_is_exception (λ _, True) m.

Lemma quiet_bind {A B} (m : gact A) (k : A → gact B) : quiet m → (∀ a, quiet (k a)) → quiet (bind m k).
Proof.
  intros Hm Hk g _. unfold bind. specialize (Hm g I). destruct (m g) as [g' [a|x]]; simpl in *; [|done].
  by apply Hk.
Qed.

Lemma quiet_try {A} (m : gact A) h : (∀ x, quiet (h x)) → quiet (try_except gce_is_exception m h).
Proof.
  intros Hh g _. unfold try_except. destruct (m g) as [g' [a|x]]; simpl; [done|].
  destruct (gce_is_exception x) eqn:Hx; [by apply Hh|done].
Qed.

Lemma quiet_for_each {A} (l : list A) (b : A → gact unit) : (∀ x, quiet (b x)) → quiet (for_each l b).
Proof. intros Hb. induction l as [|x l IH]; cbn [for_each]; [done|]. apply quiet_bind; auto. Qed.

(** *** Invariants of the cloud *)
Section CloudInvariant.
Context (I : W → Prop).

Definition keeps_cloud {A} (m : gact A) : Prop := keeps_state (λ g, I (cloud g)) m.

(** Provisioning and cleaning up keep [I]. *)
Definition cloud_invariant : Prop :=
  keeps_cloud provision_once_ ∧ keeps_cloud discover_regions ∧ (∀ p, keeps_cloud (provisioner_cleanup p)) ∧
  (∀ m, partial_cleanup = Some m → keeps_cloud m).

Lemma on_conf_keeps f : keeps_cloud (on_conf f).
Proof. by intros g Hg. Qed.
Lemma gets_keeps {A} (f : gstate → A) : keeps_cloud (gets f).
Proof. by intros g Hg. Qed.

Hypothesis invariant : cloud_invariant.

Lemma run_partial_cleanup_keeps : keeps_cloud run_partial_cleanup.
Proof using invariant.
  destruct invariant as (_ & _ & _ & H). unfold run_partial_cleanup. destruct partial_cleanup; [by apply H|].
  apply keeps_state_ret.
Qed.

Lemma cleanup_region_keeps_cloud b r : keeps_cloud (gce_cleanup_region b r).
Proof using invariant.
  pose proof run_partial_cleanup_keeps. destruct invariant as (_ & Hd & Hp & _).
  unfold gce_cleanup_region, sweep_region, keeps_cloud in *.
  apply keeps_state_bind; [destruct b; auto with effects|]. intros _.
  apply keeps_state_bind; [apply keeps_state_try; auto with effects|].
  intros [ps|]; [|auto with effects]. apply keeps_state_for_each. intros p.
  case_bool_decide; auto with effects.
Qed.

Lemma cleanup_all_keeps : keeps_cloud cleanup_all_regions.
Proof using invariant.
  apply keeps_state_bind; [apply run_partial_cleanup_keeps|]. intros _.
  apply keeps_state_bind; [apply gets_keeps|]. intros dcs. apply keeps_state_for_each. intros r.
  apply cleanup_region_keeps_cloud.
Qed.

Lemma az_attempt_keeps az : keeps_cloud (az_attempt az).
Proof using invariant.
  destruct invariant as (Ho & _). apply keeps_state_try; [apply keeps_state_bind; [done|auto with effects]|].
  intros x. destruct (negb _); [|auto with effects]. apply keeps_state_bind; [apply on_conf_keeps|auto with effects].
Qed.

Lemma az_loop_keeps az cands last : keeps_cloud (az_loop az cands last).
Proof using invariant.
  revert last. induction cands as [|l cands IH]; intros last; cbn [az_loop].
  { apply keeps_state_bind; [apply on_conf_keeps|auto with effects]. }
  apply keeps_state_bind; [apply cleanup_all_keeps|]. intros _.
  apply keeps_state_bind; [apply on_conf_keeps|]. intros _.
  apply keeps_state_bind; [apply az_attempt_keeps|]. intros [x|]; [apply IH|auto with effects].
Qed.

Lemma az_fallback_keeps c : keeps_cloud (provision_with_az_fallback c).
Proof using invariant.
  unfold provision_with_az_fallback, provision_with_zone_retry. destruct (is_az_fallback_enabled _); [|exact (proj1 invariant)].
  apply keeps_state_bind; [apply gets_keeps|]. intros az.
  apply keeps_state_bind; [apply az_attempt_keeps|]. intros [x|]; [|auto with effects].
  apply keeps_state_bind; [apply gets_keeps|]. intros cands. apply az_loop_keeps.
Qed.
End CloudInvariant.

(** The caller's partial cleanup neither touches the configuration nor raises. *)
Hypothesis partial_cleanup_ok : ∀ m, partial_cleanup = Some m → frames m ∧ quiet m.
Hypothesis provision_frames : frames provision_once_.
Hypothesis discover_frames : frames discover_regions.
Hypothesis provisioner_cleanup_frames : ∀ p, frames (provisioner_cleanup p).

Lemma run_partial_cleanup_ok : frames run_partial_cleanup ∧ quiet run_partial_cleanup.
Proof using partial_cleanup_ok. unfold run_partial_cleanup. destruct partial_cleanup; [by apply partial_cleanup_ok|done]. Qed.

Lemma sweep_region_ok r : frames (sweep_region r) ∧ quiet (sweep_region r).
Proof using discover_frames provisioner_cleanup_frames.
  unfold sweep_region. split.
  - apply frames_bind; [apply frames_try; [by apply frames_bind|done]|]. intros [ps|]; [|done].
    apply frames_for_each. intros p. case_bool_decide; [by apply frames_try|done].
  - apply quiet_bind; [by apply quiet_try|]. intros [ps|]; [|done].
    apply quiet_for_each. intros p. case_bool_decide; [by apply quiet_try|done].
Qed.

Lemma gce_cleanup_region_ok b r : frames (gce_cleanup_region b r) ∧ quiet (gce_cleanup_region b r).
Proof using partial_cleanup_ok discover_frames provisioner_cleanup_frames.
  unfold gce_cleanup_region. destruct run_partial_cleanup_ok, (sweep_region_ok r).
  split; [apply frames_bind|apply quiet_bind]; by destruct b.
Qed.

Lemma cleanup_all_ok : frames cleanup_all_regions ∧ quiet cleanup_all_regions.
Proof using partial_cleanup_ok discover_frames provisioner_cleanup_frames.
  unfold cleanup_all_regions. destruct run_partial_cleanup_ok.
  split; [apply frames_bind|apply quiet_bind]; try done; intros _; [apply frames_bind|apply quiet_bind]; try done;
    intros dcs; [apply frames_for_each|apply quiet_for_each]; intros r; by apply gce_cleanup_region_ok.
Qed.

(** *** Zones *)

(** Only the zone differs from [c]. *)
Definition same_but_az (c c' : conf) : Prop := ∃ v, c' = c ∨ c' = set_param "availability_zone" v c.

Lemma set_param_twice k v v' c : set_param k v (set_param k v' c) = set_param k v c.
Proof. unfold set_param. simpl. by rewrite insert_insert_eq. Qed.

Lemma same_but_az_set c c' v : same_but_az c c' → set_param "availability_zone" v c' = set_param "availability_zone" v c.
Proof. intros (w & [->| ->]); [done|]. apply set_param_twice. Qed.

(** What an attempt in some zones does: it returns with the zone it had, keeps it on
    a capacity error, and puts the original back before any other [Exception]. *)
Lemma az_attempt_spec az c g :
  same_but_az c (gconf g) →
  let r := az_attempt az g in
  same_but_az c (gconf r.1) ∧
  match r.2 with
  | Ok _ => gconf r.1 = gconf g
  | Err x => gce_is_exception x = true → gconf r.1 = set_param "availability_zone" az c
  end.
Proof using provision_frames.
  intros Hc. unfold az_attempt, try_except, bind. pose proof (provision_frames g) as Hp.
  destruct (provision_once_ g) as [g' [[]|x]]; simpl in *; [by rewrite Hp|].
  destruct (gce_is_exception x) eqn:Hx; simpl; [|rewrite Hp; split; [done|congruence]].
  destruct (gce_is_capacity_error x); simpl; [by rewrite Hp|].
  rewrite Hp, (same_but_az_set c) by done. split; [|done]. exists az. by right.
Qed.

Lemma az_loop_spec az c cands last g :
  same_but_az c (gconf g) →
  let r := az_loop az cands last g in
  same_but_az c (gconf r.1) ∧
  match r.2 with
  | Ok _ => True
  | Err x => gce_is_exception x = true → gconf r.1 = set_param "availability_zone" az c
  end.
Proof using partial_cleanup_ok provision_frames discover_frames provisioner_cleanup_frames.
  revert last g. induction cands as [|l cands IH]; intros last g Hc; cbn [az_loop]; unfold bind.
  { simpl. rewrite (same_but_az_set c) by done. split; [|done]. exists az. by right. }
  destruct cleanup_all_ok as [Hf Hq]. specialize (Hf g). specialize (Hq g I).
  destruct (cleanup_all_regions g) as [g1 [[]|x]]; simpl in *.
  2:{ rewrite Hf. split; [done|congruence]. }
  rewrite Hf, (same_but_az_set c) by done.
  set (g2 := GState (set_param "availability_zone" (VStr (join "," l)) c) (cloud g1)).
  assert (same_but_az c (gconf g2)) as H2 by (eexists; by right).
  pose proof (az_attempt_spec az c g2 H2) as Ha. destruct (az_attempt az g2) as [g3 [[exc|]|x]]; simpl in *.
  - destruct Ha as [Ha _]. by apply IH.
  - by destruct Ha.
  - done.
Qed.

Lemma zone_retry_spec g :
  let r := provision_with_zone_retry g in
  same_but_az (gconf g) (gconf r.1) ∧
  match r.2 with
  | Ok _ => True
  | Err x => gce_is_exception x = true →
      pget "availability_zone" (prm (gconf r.1)) = pget "availability_zone" (prm (gconf g))
  end.
Proof using partial_cleanup_ok provision_frames discover_frames provisioner_cleanup_frames.
  unfold provision_with_zone_retry, bind, gets. simpl. set (az := pget _ _).
  assert (same_but_az (gconf g) (gconf g)) as Hg by (exists VNone; by left).
  pose proof (az_attempt_spec az (gconf g) g Hg) as Ha. destruct (az_attempt az g) as [g1 [[exc|]|x]]; simpl in *.
  - destruct Ha as [Ha _]. pose proof (az_loop_spec az (gconf g)
      (get_az_fallback_candidates zones_for_region type_in_zone (gconf g1)) exc g1 Ha) as Hl.
    destruct (az_loop _ _ _ g1) as [g2 [[]|x]]; simpl in *; [done|]. destruct Hl as [? Hl]. split; [done|].
    intros Hx. rewrite (Hl Hx). simpl. by rewrite pget_insert, decide_True.
  - by destruct Ha.
  - destruct Ha as [? Ha]. split; [done|]. intros Hx. rewrite (Ha Hx). simpl. by rewrite pget_insert, decide_True.
Qed.

Lemma az_fallback_same_but_az c g :
  same_but_az (gconf g) (gconf (provision_with_az_fallback c g).1).
Proof using partial_cleanup_ok provision_frames discover_frames provisioner_cleanup_frames.
  unfold provision_with_az_fallback. destruct (is_az_fallback_enabled _); [by apply zone_retry_spec|].
  exists VNone. left. apply provision_frames.
Qed.

Lemma same_but_az_others c0 c c' : same_but_az c c' → others_same c0 c → others_same c0 c'.
Proof. intros (v & [->| ->]) Hc; [done|]. by apply others_same_az. Qed.

(** *** Datacenters *)
Lemma gce_datacenters_words c : Forall word (gce_datacenters c).
Proof.
  unfold gce_datacenters. destruct (env_dc c); [apply split_ws_words|].
  destruct (pget "gce_datacenter" (prm c)) as [| | |w|l]; try constructor; [apply split_ws_words|].
  induction (str_items l) as [|x xs IH]; simpl; [constructor|]. apply Forall_app. split; [apply split_ws_words|done].
Qed.

(** Writing back the joined datacenters and the environment restores the list. *)
Lemma restore_datacenters c0 c r :
  r = join " " (gce_datacenters c0) →
  gce_datacenters (gce_restore_region (Some r) (pget "availability_zone" (prm c0)) (env_dc c0) c) = gce_datacenters c0.
Proof.
  intros ->. unfold gce_datacenters at 1, gce_restore_region. simpl.
  destruct (env_dc c0) as [e|] eqn:Ee; [unfold gce_datacenters; by rewrite Ee|].
  rewrite !pget_insert, decide_False, decide_True by done. apply split_ws_join, gce_datacenters_words.
Qed.

Lemma restore_placement c0 c r :
  r = join " " (gce_datacenters c0) → others_same c0 c →
  placement_restored c0 (gce_restore_region (Some r) (pget "availability_zone" (prm c0)) (env_dc c0) c).
Proof.
  intros Hr Hc. split_and!; [by apply others_same_restore|by apply restore_datacenters| |done|].
  - unfold gce_restore_region. simpl. by rewrite pget_insert, decide_True.
  - intros _. subst r. unfold current_datacenters, gce_restore_region. simpl.
    rewrite !pget_insert, decide_False, decide_True by done. apply split_ws_join, gce_datacenters_words.
Qed.

Lemma on_conf_quiet f : quiet (on_conf f).
Proof. done. Qed.

(** *** Several datacenters *)
Definition distinct_dcs (n : nat) (c : conf) : Prop :=
  gce_datacenters c = current_datacenters c ∧ NoDup (gce_datacenters c) ∧ length (gce_datacenters c) = n.

Lemma same_but_az_dcs c c' :
  same_but_az c c' → gce_datacenters c' = gce_datacenters c ∧ current_datacenters c' = current_datacenters c.
Proof.
  intros (v & [->| ->]); [done|]. unfold gce_datacenters, current_datacenters. simpl.
  by rewrite pget_insert, decide_False.
Qed.

Lemma distinct_dcs_same_but_az n c c' : same_but_az c c' → distinct_dcs n c → distinct_dcs n c'.
Proof. intros Hs. unfold distinct_dcs. by destruct (same_but_az_dcs _ _ Hs) as [-> ->]. Qed.

Lemma NoDup_insert_fresh (l : list string) i r : NoDup l → r ∉ l → NoDup (<[i := r]> l).
Proof.
  rewrite !NoDup_alt. intros Hl Hr j k x Hj Hk.
  apply list_lookup_insert_Some in Hj, Hk.
  destruct Hj as [(? & <- & _)|[? Hj]], Hk as [(? & ? & _)|[? Hk]]; subst; try done;
    [by apply list_elem_of_lookup_2 in Hk|by apply list_elem_of_lookup_2 in Hj|by eapply Hl].
Qed.

Lemma switch_dc_spec n dc r c c0 :
  dc < n → distinct_dcs n c → r ∉ gce_datacenters c → word r → others_same c0 c →
  ∃ c', gce_switch_dc_region dc r c = Some c' ∧ distinct_dcs n c' ∧ others_same c0 c'.
Proof.
  intros Hdc (Hcur & Hnd & Hn) Hr Hw Ho. unfold gce_switch_dc_region. rewrite <- Hcur.
  destruct (Nat.ltb_spec dc (length (gce_datacenters c))); [|lia]. eexists. split; [reflexivity|].
  split; [|by apply others_same_dc].
  assert (split_ws (join " " (<[dc:=r]> (gce_datacenters c))) = <[dc:=r]> (gce_datacenters c)) as Hsp.
  { apply split_ws_join, Forall_insert; [apply gce_datacenters_words|done]. }
  set (c' := set_param _ _ _).
  assert (gce_datacenters c' = <[dc:=r]> (gce_datacenters c)) as Hg by exact Hsp.
  assert (current_datacenters c' = <[dc:=r]> (gce_datacenters c)) as Hc.
  { unfold current_datacenters, c'. simpl. by rewrite pget_insert, decide_True. }
  unfold distinct_dcs. rewrite Hg, Hc. split_and!; [done|by apply NoDup_insert_fresh|by rewrite length_insert].
Qed.

Lemma dc_candidate_free n configured mts region c r l :
  0 < n → distinct_dcs n c → dc_candidate zones_for_region type_in_zone configured mts region c = Some (r, l) →
  r = region ∧ r ∉ gce_datacenters c.
Proof. clear query provision_frames discover_frames provisioner_cleanup_frames partial_cleanup_ok.
  intros Hn (_ & _ & Hlen) Hc.
  assert (_region_names c = gce_datacenters c) as Hrn
    by (unfold _region_names; destruct (gce_datacenters c); simpl in *; [lia|done]).
  unfold dc_candidate in Hc. rewrite Hrn in Hc. case_bool_decide; [done|].
  destruct configured; repeat case_match; simplify_eq; done.
Qed.

Lemma ordered_regions_short p exclude :
  length (_ordered_fallback_regions zones_for_region query p exclude) ≤ 4.
Proof.
  assert (length (filter (λ r, r ∉ exclude) SUPPORTED_GCE_REGIONS) ≤ 4) as Hf
    by apply (length_filter (λ r, r ∉ exclude) SUPPORTED_GCE_REGIONS).
  unfold _ordered_fallback_regions. destruct (_ || _); [done|].
  destruct (advised_machine_types p) as [|t ts]; [done|].
  destruct (rank_regions query (t :: ts) _ _ _) as [[|r0 ranked]|] eqn:E; [done| |done].
  apply rank_regions_perm in E. by rewrite E.
Qed.

Lemma supported_regions_words : Forall word SUPPORTED_GCE_REGIONS.
Proof. repeat constructor; discriminate. Qed.

Lemma region_candidate_word c region cand :
  (region, Some cand) ∈ get_region_fallback_candidates zones_for_region type_in_zone query c → word cand.1.
Proof.
  unfold get_region_fallback_candidates. destruct (_region_names c) as [|cur rest]; [intros Hin; inversion Hin|].
  intros (r0 & Heq & Hr0)%list_elem_of_fmap. injection Heq as -> Hc.
  apply ordered_regions_sub in Hr0 as [Hsup _]. destruct cand as [r l].
  symmetry in Hc. apply region_candidate_valid in Hc as (-> & _ & _).
  by apply (proj1 (Forall_forall _ _) supported_regions_words).
Qed.

Lemma gce_region_promises I c c0 r :
  cloud_invariant I → gce_datacenters c0 = [r] →
  region_promises (gce_region_ops (provision_with_az_fallback c) c0)
    (λ g, (others_same c0 (gconf g) ∧ gce_datacenters (gconf g) ≠ []) ∧ I (cloud g))
    (λ g, placement_restored c0 (gconf g) ∧ I (cloud g)) (λ cand _, word cand.1).
Proof using partial_cleanup_ok provision_frames discover_frames provisioner_cleanup_frames.
  intros HI Hr. constructor; simpl.
  - intros g [[Hg Hne] Hi]. pose proof (az_fallback_same_but_az c g) as Hs.
    split; [|by apply az_fallback_keeps]. split; [by eapply same_but_az_others|].
    by destruct (same_but_az_dcs _ _ Hs) as [-> _].
  - intros r' g [Hg Hi]. destruct (gce_cleanup_region_ok true r') as [Hf _]. rewrite Hf. split; [done|].
    by apply cleanup_region_keeps_cloud.
  - intros r' g _. by apply gce_cleanup_region_ok.
  - intros g Hg. split; [done|]. intros ps [= <-]. apply Forall_fmap, Forall_forall.
    intros c' ([reg c''] & -> & Hin)%list_elem_of_fmap g' Hg'. split; [done|]. intros cand [= Hc]. simpl in Hc. subst c''.
    by eapply region_candidate_word.
  - intros r' l g [[Hg _] Hi] Hw. split; [|done]. split; [by apply others_same_az, others_same_dc|].
    unfold gce_datacenters. simpl. change r' with (join " " [r']) at 1.
    rewrite split_ws_join; [done|by constructor].
  - done.
  - intros g [[Hg _] Hi]. replace (head (gce_datacenters c0)) with (Some (join " " (gce_datacenters c0))) by (by rewrite Hr).
    split; [by apply restore_placement|done].
Qed.

Lemma gce_dc_promises I c c0 n :
  cloud_invariant I → 0 < n → gce_datacenters c0 ≠ [] →
  dc_promises (gce_dc_ops (provision_with_az_fallback c) c0) n 4
    (λ g, (others_same c0 (gconf g) ∧ distinct_dcs n (gconf g)) ∧ I (cloud g))
    (λ g, placement_restored c0 (gconf g) ∧ I (cloud g))
    (λ cand g, cand.1 ∉ gce_datacenters (gconf g) ∧ word cand.1).
Proof using partial_cleanup_ok provision_frames discover_frames provisioner_cleanup_frames.
  intros HI Hn Hne. constructor; simpl.
  - intros g [[Ho Hd] Hi]. pose proof (az_fallback_same_but_az c g) as Hs.
    split; [|by apply az_fallback_keeps]. split; [by eapply same_but_az_others|by eapply distinct_dcs_same_but_az].
  - intros g [Hg Hi]. destruct cleanup_all_ok as [Hf _]. rewrite Hf. split; [done|by apply cleanup_all_keeps].
  - intros g _. by apply cleanup_all_ok.
  - intros dc g Hg. split; [done|]. intros ps [= <-]. split.
    + unfold get_dc_fallback_candidates. case_match; [constructor|]. rewrite <- list_fmap_compose.
      apply Forall_fmap, Forall_forall. intros r Hr g' [[Ho Hd] Hi]. split; [done|]. intros [r' l] Hc. simpl in Hc.
      injection Hc as Hc. apply (dc_candidate_free n) in Hc as [-> Hfree]; [|done..]. split; [done|]. simpl.
      apply ordered_regions_sub in Hr as [Hr _]. by apply (proj1 (Forall_forall _ _) supported_regions_words).
    + unfold get_dc_fallback_candidates. case_match; simpl; [lia|]. rewrite !length_fmap. apply ordered_regions_short.
  - intros dc r l g Hdc [[Ho Hd] Hi] [Hr Hw]. destruct (switch_dc_spec n dc r (gconf g) c0) as (c' & -> & ? & ?); done.
  - intros dc r l Hdc g [[[Ho Hd] Hi] [Hr Hw]]. destruct (switch_dc_spec n dc r (gconf g) c0) as (c' & -> & ? & ?); done.
  - intros g [[Ho _] Hi].
    replace (original_datacenters c0) with (Some (join " " (gce_datacenters c0)))
      by (unfold original_datacenters; by destruct (gce_datacenters c0)).
    split; [by apply restore_placement|done].
  - intros g x dc [[_ (Hcur & _ & Hlen)] _] Hx. unfold _failed_dc_index in Hx. rewrite <- Hcur in Hx.
    assert (∀ l i j, find_region (exc_str x) l i = Some j → j < i + length l) as Hfind.
    { induction l as [|r l IH]; intros i j; simpl; [done|]. case_match; [intros [= <-]; lia|].
      intros ?%IH. lia. }
    apply Hfind in Hx. lia.
Qed.

(** Zone retry is transparent to the region loop: it changes nothing but the
    zone, and when it gives up with an [Exception], be it the last zone's capacity
    error or any other failure of an attempt, the configured zone is back. *)
Theorem zone_retry_restores_zone g :
  let r := provision_with_zone_retry g in
  same_but_az (gconf g) (gconf r.1) ∧
  match r.2 with
  | Ok _ => True
  | Err x => gce_is_exception x = true →
      pget "availability_zone" (prm (gconf r.1)) = pget "availability_zone" (prm (gconf g))
  end.
Proof using partial_cleanup_ok provision_frames discover_frames provisioner_cleanup_frames.
  apply zone_retry_spec.
Qed.

(** How the fallback ends. *)
Lemma gce_fallback_spec I c g :
  cloud_invariant I → I (cloud g) →
  (1 < length (gce_datacenters (gconf g)) →
   current_datacenters (gconf g) = gce_datacenters (gconf g) ∧ NoDup (gce_datacenters (gconf g))) →
  let n := length (gce_datacenters (gconf g)) in
  let r := provision_with_fallback (S (n * 4)) (provision_with_az_fallback c) (g, []) in
  match r.2 with
  | Ok b => b = true ∧ I (cloud r.1.1) ∧ others_same (gconf g) (gconf r.1.1) ∧
            gce_datacenters (gconf r.1.1) ≠ [] ∧
            (1 < n → NoDup (gce_datacenters (gconf r.1.1)) ∧ length (gce_datacenters (gconf r.1.1)) = n)
  | Err x => gce_is_exception x = true → placement_restored (gconf g) (gconf r.1.1) ∧ I (cloud r.1.1)
  end.
Proof using partial_cleanup_ok provision_frames discover_frames provisioner_cleanup_frames.
  intros HI Hi Hmulti n r.
  assert (others_same (gconf g) (gconf g)) as Hself by done.
  unfold r, provision_with_fallback, bind, gets at 1. simpl. fold n.
  destruct (Nat.ltb_spec 1 n) as [Hn|Hn].
  - unfold gce_provision_with_dc_fallback, bind, gets. simpl. destruct (Hmulti Hn) as [Hcur Hnd].
    assert (gce_datacenters (gconf g) ≠ []) as Hne
      by (unfold n in Hn; destruct (gce_datacenters (gconf g)); simpl in *; [lia|done]).
    destruct (dc_fallback_spec (gce_dc_ops (provision_with_az_fallback c) (gconf g)) n 4 _ _ _ g
                (gce_dc_promises I c (gconf g) n HI ltac:(lia) Hne)) as (ph & _ & Hr); [done|].
    destruct (provision_with_dc_fallback _ _ _) as [st [b|x]]; simpl in *; [|tauto].
    destruct Hr as (-> & [[Ho (_ & Hd1 & Hd2)] Hi'] & _). split_and!; [done|done|done| |done].
    intros E. rewrite E in Hd2. simpl in Hd2. lia.
  - unfold gce_provision_with_region_fallback, bind, gets. simpl. unfold enforce_single_region_gate. fold n.
    destruct (Nat.eqb_spec n 1) as [H1|H1]; [|done]. simpl.
    destruct (gce_datacenters (gconf g)) as [|r0 [|? ?]] eqn:E; try done. simpl.
    destruct (region_fallback_spec (gce_region_ops (provision_with_az_fallback c) (gconf g)) _ _ _ (Some r0) g
                (gce_region_promises I c (gconf g) r0 HI E)) as (ph & _ & Hr); [by rewrite E|].
    destruct (provision_with_region_fallback _ _ _) as [st [b|x]]; simpl in *; [|tauto].
    destruct Hr as [[[Ho Hdc] Hi'] _]. split_and!; [done|done|done|done|]. intros; lia.
Qed.
(** C1. GCE capacity fallback never leaves the configuration half relocated:
    whichever loop the number of datacenters selects, and whatever the attempts
    with their zone retries do, the run ends; when it raises an [Exception] the
    datacenters, the zone and the environment variable are the original ones; when
    it returns, nothing but the placement has changed, and a multi-DC cluster still
    has its datacenters in as many pairwise different regions. *)
Theorem gce_fallback_restores_placement c g :
  (1 < length (gce_datacenters (gconf g)) →
   current_datacenters (gconf g) = gce_datacenters (gconf g) ∧ NoDup (gce_datacenters (gconf g))) →
  let n := length (gce_datacenters (gconf g)) in
  let r := provision_with_fallback (S (n * 4)) (provision_with_az_fallback c) (g, []) in
  match r.2 with
  | Ok b => b = true ∧ others_same (gconf g) (gconf r.1.1) ∧
            (1 < n → NoDup (gce_datacenters (gconf r.1.1)) ∧ length (gce_datacenters (gconf r.1.1)) = n)
  | Err x => gce_is_exception x = true → placement_restored (gconf g) (gconf r.1.1)
  end.
Proof using partial_cleanup_ok provision_frames discover_frames provisioner_cleanup_frames.
  intros Hmulti. assert (cloud_invariant (λ _, True)) as HI by (by repeat split).
  pose proof (gce_fallback_spec (λ _, True) c g HI I Hmulti) as H. cbv zeta in *.
  destruct (provision_with_fallback _ _ _) as [st [b|x]]; simpl in *; tauto.
Qed.
End Gce.

(** The wrong datacenter can be blamed: a capacity error that names a zone of
    [europe-west12] is attributed to the datacenter in [europe-west1] when that is
    configured before it, because a region is looked for as a substring. *)
Theorem failed_dc_prefix_misattributed c before after :
  current_datacenters c = ["europe-west1"; "europe-west12"] →
  _failed_dc_index c (ZoneResourcesExhaustedError (before +:+ "europe-west12-a" +:+ after)) = Some 0.
Proof.
  intros Hc. unfold _failed_dc_index. rewrite Hc.
  change (before +:+ "europe-west12-a" +:+ after) with (before +:+ "europe-west1" +:+ ("2-a" +:+ after)).
  cbn [find_region exc_str]. by rewrite contains_app.
Qed.

(** ** Witnesses *)

(** A cloud that refuses a number of attempts for lack of capacity. *)
Definition ex_attempt : gact (W := nat) unit :=
  λ g, match cloud g with
       | O => (g, Ok tt)
       | S n => (GState (gconf g) n, Err (ZoneResourcesExhaustedError "us-east1-b ZONE_RESOURCE_POOL_EXHAUSTED"))
       end.
Definition ex_discover : gact (W := nat) (list provisioner) := ret [("us-east1", 0)].
Definition ex_delete (p : provisioner) : gact (W := nat) unit := ret tt.
Definition ex_gstate (n : nat) : gstate (W := nat) := GState ex_conf n.

Lemma ex_attempt_frames : frames ex_attempt.
Proof. intros g. unfold ex_attempt. by destruct (cloud g). Defined.

Lemma zone_retry_restores_zone_witness :
  let r := provision_with_zone_retry ex_attempt None ex_discover ex_delete ex_zones ex_offers (ex_gstate 9) in
  same_but_az ex_conf (gconf r.1) ∧
  match r.2 with
  | Ok _ => True
  | Err x => gce_is_exception x = true →
      pget "availability_zone" (prm (gconf r.1)) = pget "availability_zone" (prm ex_conf)
  end.
Proof.
  apply (zone_retry_restores_zone ex_attempt None ex_discover ex_delete ex_zones ex_offers) with (g := ex_gstate 9).
  - intros m. discriminate.
  - exact ex_attempt_frames.
  - intros g. reflexivity.
  - intros p g. reflexivity.
Defined.

Lemma gce_fallback_restores_placement_witness :
  let r := provision_with_fallback None ex_discover ex_delete ex_zones ex_offers ex_query 5
             (provision_with_az_fallback ex_attempt None ex_discover ex_delete ex_zones ex_offers ex_conf)
             (ex_gstate 20, []) in
  match r.2 with
  | Ok b => b = true ∧ others_same ex_conf (gconf r.1.1) ∧
            (1 < 1 → NoDup (gce_datacenters (gconf r.1.1)) ∧ length (gce_datacenters (gconf r.1.1)) = 1)
  | Err x => gce_is_exception x = true → placement_restored ex_conf (gconf r.1.1)
  end.
Proof.
  apply (gce_fallback_restores_placement ex_attempt None ex_discover ex_delete ex_zones ex_offers ex_query)
    with (c := ex_conf) (g := ex_gstate 20).
  - intros m. discriminate.
  - exact ex_attempt_frames.
  - intros g. reflexivity.
  - intros p g. reflexivity.
  - vm_compute. intros H. exfalso. lia.
Defined.

Lemma failed_dc_prefix_misattributed_witness :
  _failed_dc_index (set_param "gce_datacenter" (VStr "europe-west1 europe-west12") ex_conf)
    (ZoneResourcesExhaustedError "The zone europe-west12-a does not have enough resources") = Some 0.
Proof.
  apply (failed_dc_prefix_misattributed
           (set_param "gce_datacenter" (VStr "europe-west1 europe-west12") ex_conf)
           "The zone " " does not have enough resources").
  vm_compute. reflexivity.
Defined.
End GceFallback.
