(* ===== verification/SpotScores.v ===== *)
(** * Ranking AWS placements by spot score

    Model of [sdcm/provision/aws/spot_placement_score.py]. The two API calls are
    arguments: [page] answers one request for scores with its entries and the token of the
    next page, [az_ids] lists the availability zones of a region with their identifiers; an
    exception is [None]. Pages are followed for at most [max_pages] pages of a chunk of
    regions, beyond which the scores count as unavailable. The time-limited cache of answers
    is not modelled: [get_scores] asks anew. *)
From Stdlib Require Import Ascii QArith.
From Stdlib Require String.
From stdpp Require Import base decidable option strings numbers gmap sets sorting list.
From S2P Require Import Prelude.
From S2P Require Import PyString.
From S2P Require Import PyDict.
From S2P Require Import GceCapacity.

Module SpotScores.
Import GceCapacity.
#[local] Open Scope Z_scope.

Definition SPOT_PLACEMENT_SCORE_MAX_REGIONS : nat := 10.

(** [az_letter] is [None] for scores of whole regions. *)
Record placement := Placement {
  p_region : string;
  p_score : Z;
  p_az_letter : option string;
}.

Definition location (p : placement) : string :=
  if truthy (p_az_letter p) then p_region p +:+ default EmptyString (p_az_letter p) else p_region p.

Fixpoint chunks (fuel : nat) (regions : list string) : list (list string) :=
  match fuel, regions with
  | S fuel', _ :: _ =>
    take SPOT_PLACEMENT_SCORE_MAX_REGIONS regions :: chunks fuel' (drop SPOT_PLACEMENT_SCORE_MAX_REGIONS regions)
  | _, _ => []
  end.

Definition _chunk_regions (regions : list string) : list (list string) := chunks (length regions) regions.

(** One entry of a response. *)
Record entry := Entry {
  e_region : option string;
  e_score : option Z;
  e_zone_id : option string;
}.

Section Api.
Context (page : list string → Z → bool → list string → option string → option (list entry * option string)).
Context (az_ids : string → option (list (string * string))).
Context (max_pages : nat).

Definition _zone_id_to_letter (region : string) : list (string * string) :=
  match az_ids region with
  | None => []
  | Some zones => foldl (λ d z, dict_set z.1 (str_drop (String.length region) z.2) d) [] zones
  end.

(** The [while True] loop over the pages of one chunk. *)
Fixpoint read_pages (fuel : nat) (call : option string → option (list entry * option string))
    (next_token : option string) : option (list entry) :=
  match fuel with
  | O => None
  | S fuel' =>
    '(entries, next) ← call next_token;
    if truthy next then rest ← read_pages fuel' call next; Some (entries ++ rest)
    else Some entries
  end.

Definition _query_scores (instance_types : list string) (target_capacity : Z) (regions : list string)
    (single_az : bool) : option (list entry) :=
  answers ← mapM (λ chunk, read_pages max_pages (page instance_types target_capacity single_az chunk) None)
              (_chunk_regions regions);
  Some (concat answers).

(** The score an entry gives, if any. *)
Definition scored_entry (single_az : bool) (e : entry) : option placement :=
  region ← e_region e;
  score ← e_score e;
  if negb (truthy region) then None
  else if single_az then
    zone_id ← e_zone_id e;
    az_letter ← dict_get zone_id (_zone_id_to_letter region);
    Some (Placement region score (Some az_letter))
  else Some (Placement region score None).

Definition _get_scores (instance_types : list string) (target_capacity : Z) (regions : list string)
    (single_az : bool) : option (list placement) :=
  if negb (truthy instance_types) || negb (truthy regions) || (target_capacity <? 1) then Some []
  else
    raw_scores ← _query_scores instance_types target_capacity regions single_az;
    Some (sort_by_score (λ p, inject_Z (p_score p)) location (omap (scored_entry single_az) raw_scores)).

(** The scores, or nothing when they cannot be had. *)
Definition get_scores (instance_types : list string) (target_capacity : Z) (regions : list string)
    (single_az : bool) : list placement :=
  default [] (_get_scores instance_types target_capacity regions single_az).

(** The scores of one role added to the worst so far, per letter. *)
Definition worst_of (worst : list (string * Z)) (scores : list placement) : list (string * Z) :=
  let by_letter := foldl (λ d p, if truthy (p_az_letter p)
                                 then dict_set (default EmptyString (p_az_letter p)) (p_score p) d else d) [] scores in
  foldl (λ w q, dict_set q.1 (Z.min (default q.2 (dict_get q.1 w)) q.2) w) worst by_letter.

Fixpoint worst_for_roles (region : string) (role_requests : list (string * list string * Z))
    (worst : list (string * Z)) : option (list (string * Z)) :=
  match role_requests with
  | [] => Some worst
  | (_, instance_types, count) :: rest =>
    if negb (truthy instance_types) || (count <? 1) then worst_for_roles region rest worst
    else match get_scores instance_types count [region] true with
         | [] => None
         | scores => worst_for_roles region rest (worst_of worst scores)
         end
  end.

(** [None] when a role could not be scored. *)
Definition rank_az_letters_for_roles (role_requests : list (string * list string * Z)) (region : string)
    (az_letters : list string) (min_score : Z) : option (list string) :=
  match az_letters with
  | [] => Some []
  | _ =>
    worst ← worst_for_roles region role_requests [];
    match worst with
    | [] => None
    | _ =>
      let scored := filter (λ l, match dict_get l worst with Some s => min_score <=? s | None => false end = true)
                      az_letters in
      let unscored := filter (λ l, dict_get l worst = None) az_letters in
      Some (sort_by_score (λ l, inject_Z (default 0 (dict_get l worst))) (λ l, l) scored ++ unscored)
    end
  end.

Definition rank_regions_by_score (instance_types : list string) (target_capacity : Z) (regions : list string)
    : list string :=
  match regions with
  | [] => []
  | _ =>
    match get_scores instance_types target_capacity regions false with
    | [] => regions
    | scores =>
      let by_region := foldl (λ d p, dict_set (p_region p) (p_score p) d) [] scores in
      let scored := filter (λ r, dict_get r by_region ≠ None) regions in
      let unscored := filter (λ r, dict_get r by_region = None) regions in
      sort_by_score (λ r, inject_Z (default 0 (dict_get r by_region))) (λ r, r) scored ++ unscored
    end
  end.

(** ** Lemmas *)
Lemma chunks_spec fuel regions :
  (length regions <= fuel)%nat →
  concat (chunks fuel regions) = regions ∧
  Forall (λ c, c ≠ [] ∧ (length c <= SPOT_PLACEMENT_SCORE_MAX_REGIONS)%nat) (chunks fuel regions).
Proof.
  clear. revert regions. induction fuel as [|fuel IH]; intros [|r regions] Hf; [done|simpl in Hf; lia|done|].
  destruct (IH (drop SPOT_PLACEMENT_SCORE_MAX_REGIONS (r :: regions))) as [IH1 IH2].
  { rewrite length_drop. unfold SPOT_PLACEMENT_SCORE_MAX_REGIONS. simpl in *. lia. }
  cbn [chunks concat]. split; [by rewrite IH1, take_drop|]. constructor; [|done].
  split; [done|]. rewrite length_take. lia.
Qed.

(** Ranked letters are among the given ones. *)
Lemma rank_az_letters_sub reqs region letters m ranked :
  rank_az_letters_for_roles reqs region letters m = Some ranked → ranked ⊆+ letters.
Proof.
  unfold rank_az_letters_for_roles. destruct letters as [|l0 letters']; [by intros [= <-]|].
  set (letters := l0 :: letters') in *. destruct (worst_for_roles _ _ _) as [worst|]; [|done]. simpl.
  destruct worst as [|w worst]; [done|]. remember (w :: worst) as ws eqn:Hws. intros [= <-].
  rewrite sort_by_score_perm. generalize letters as l. clear. intros l.
  induction l as [|x l IH]; [done|]. rewrite !filter_cons.
  destruct (decide (dict_get x ws = None)) as [E|E].
  - rewrite decide_False by (by rewrite E). rewrite <- Permutation_middle. by apply submseteq_skip.
  - case_decide; [by apply submseteq_skip|by apply submseteq_cons].
Qed.

(** Ranking regions only reorders them. *)
Lemma rank_regions_by_score_perm types capacity regions :
  rank_regions_by_score types capacity regions ≡ₚ regions.
Proof.
  unfold rank_regions_by_score. destruct regions as [|r regions]; [done|].
  destruct (get_scores _ _ _ _) as [|s scores]; [done|]. set (by_region := foldl _ _ _). clearbody by_region.
  rewrite sort_by_score_perm. apply (filter_split (λ r, dict_get r by_region = None)).
Qed.
End Api.
End SpotScores.
