(* ===== verification/AwsZones.v ===== *)
(** * Choosing AWS availability zones

    Model of [AZResolver] and the pre-flight probe of [sdcm/provision/aws/az_resolver.py],
    of [AwsRegion.get_common_availability_zones] ([sdcm/utils/aws_region.py]) and of the
    property [region_names] of the configuration.

    The EC2 API is an argument: which zones of a region offer some instance types
    ([offerings], which may raise), whether the VPCs of two regions have an active peering ([peering_code]:
    [None] when the lookup raises or finds nothing) and the spot scores of [SpotScores].
    The configuration is its parameters, the environment variable that overrides the
    region, and whether the availability zone was set explicitly ([None]: unknown).

    A node count written as a numeral with several signs, which [int] rejects with an
    exception, counts as no nodes. *)
From Stdlib Require Import Ascii QArith.
From Stdlib Require String.
From stdpp Require Import base decidable option strings numbers gmap sets sorting list.
From S2P Require Import Prelude.
From S2P Require Import PyString.
From S2P Require Import PyVal.
From S2P Require Import PyDict.
From S2P Require Import Effects.
From S2P Require Import RegionFallback.
From S2P Require Import GceZones.
From S2P Require Import SpotScores.
Local Open Scope py_scope.

Module AwsZones.
Import RegionFallback SpotScores.
#[local] Open Scope Z_scope.

Definition AWS_SUPPORTED_REGIONS : list string :=
  ["eu-west-1"; "eu-west-2"; "eu-west-3"; "us-west-2"; "us-east-1"; "us-east-2"; "eu-north-1";
   "eu-central-1"; "ca-central-1"].

Record conf := Conf {
  prm : params;
  env_region : option string;
  explicit_az : option bool;
}.

Definition set_param (k : string) (v : pyval) (c : conf) : conf :=
  Conf (<[k := v]> (prm c)) (env_region c) (explicit_az c).

(** [SCTConfiguration.region_names]: the environment first. *)
Definition region_names (c : conf) : list string :=
  match env_region c with
  | Some s => split_ws s
  | None => match pget "region_name" (prm c) with
            | VStr s => split_ws s
            | VList l => concat (split_ws <$> GceZones.str_items l)
            | _ => []
            end
  end.

Definition _region_names (c : conf) : list string :=
  match region_names c with
  | [] => match pget "region_name" (prm c) with VStr s => split_ws s | _ => [] end
  | regions => regions
  end.

Definition _configured_az_letters (c : conf) : list string :=
  match pget "availability_zone" (prm c) with
  | VStr s => filter (λ w, truthy w = true) (strip <$> split_on ","%char s)
  | _ => []
  end.

(** ** Node counts and gates *)

(** [str(n).strip().lstrip("-").isdigit()] and [int(n)]. *)
Definition count_item (v : pyval) : option Z :=
  match v with
  | VInt z => Some z
  | VStr s => if isdigit (drop_while (Ascii.eqb "-"%char) (strip s)) then GceZones.parse_int s else None
  | _ => None
  end.

Definition _node_count_positive (v : pyval) : bool :=
  match v with
  | VNone | VStr _ => false
  | VBool b => b
  | VInt z => 0 <? z
  | VList l => existsb (λ n, 0 <? default 0 (count_item n)) l
  end.

Definition _node_count_total (v : pyval) : Z :=
  match v with
  | VNone | VBool _ | VStr _ => 0
  | VInt z => Z.max z 0
  | VList l => foldl (λ t n, t + Z.max (default 0 (count_item n)) 0) 0 l
  end.

Definition _has_loaders (p : params) : bool := _node_count_positive (pget "n_loaders" p).
Definition _has_monitor (p : params) : bool := _node_count_positive (pget "n_monitor_nodes" p).
Definition _has_oracle (p : params) : bool :=
  (is_str (pget "db_type" p) "mixed_scylla" || is_str (pget "db_type" p) "mixed_cassandra") &&
  _node_count_positive (pget "n_test_oracle_db_nodes" p).
Definition _has_zero_token (p : params) : bool :=
  truthy (pget "use_zero_nodes" p) && _node_count_positive (pget "n_db_zero_token_nodes" p).
Definition _has_vector_store (p : params) : bool := _node_count_positive (pget "n_vector_store_nodes" p).
Definition _always (p : params) : bool := true.

Definition _INSTANCE_TYPE_PARAM_GATES : list (string * (params → bool)) :=
  [("instance_type_db", _always);
   ("instance_type_loader", _has_loaders);
   ("instance_type_monitor", _has_monitor);
   ("zero_token_instance_type_db", _has_zero_token);
   ("instance_type_db_oracle", _has_oracle);
   ("instance_type_db_target", _always);
   ("nemesis_grow_shrink_instance_type", _always);
   ("instance_type_vector_store", _has_vector_store)].

Definition required_instance_types (p : params) : list string :=
  foldl (λ sel kg, GceZones.select_type p sel kg.1 (kg.2 p)) [] _INSTANCE_TYPE_PARAM_GATES.

Definition scored_instance_types (p : params) : list string :=
  foldl (λ sel k, GceZones.select_type p sel k true) []
    ["instance_type_db"; "zero_token_instance_type_db"; "instance_type_db_target"].

Definition spot_target_capacity (p : params) : Z :=
  Z.max (_node_count_total (pget "n_db_nodes" p) +
         (if _has_zero_token p then _node_count_total (pget "n_db_zero_token_nodes" p) else 0)) 1.

Definition scored_role_requests (p : params) : list (string * list string * Z) :=
  ("db", scored_instance_types p, spot_target_capacity p) ::
  omap (λ r : string * string * string,
          let '(role, type_key, count_key) := r in
          let count := _node_count_total (pget count_key p) in
          match pget type_key p with
          | VStr t => if truthy t && (0 <? count) then Some (role, [t], count) else None
          | _ => None
          end)
    [("loaders", "instance_type_loader", "n_loaders");
     ("monitor", "instance_type_monitor", "n_monitor_nodes")].

Definition is_spot_placement_scoring_enabled (p : params) : bool := is_spot_capacity_scoring_enabled p "aws".

Definition _score_may_choose_az (c : conf) : bool :=
  if negb (is_spot_placement_scoring_enabled (prm c)) then false
  else if truthy (pget "spot_score_overrides_configured_az" (prm c)) then true
  else match explicit_az c with None => false | Some b => negb b end.

Definition int_param (v : pyval) : Z :=
  match v with
  | VInt z => z
  | VStr s => default 0 (GceZones.parse_int s)
  | VBool true => 1
  | _ => 0
  end.

(** What a resolver raises: no zone is left, or the EC2 API raised. *)
Inductive zone_exn {E : Type} : Type :=
  | NoValidAvailabilityZoneError
  | ApiRaised (e : E).
Arguments zone_exn : clear implicits.

Definition api_result {E A} (r : outcome E A) : outcome (zone_exn E) A :=
  match r with Ok a => Ok a | Err e => Err (ApiRaised e) end.

(** The zones of the offerings that are offerings of type [t]. *)
Definition azs_of_type (found : list (string * string)) (t : string) : gset string :=
  list_to_set (omap (λ o : string * string, if String.eqb o.1 t then Some o.2 else None) found).

(** What [get_common_availability_zones] makes of the offerings it was answered. *)
Definition common_zones (found : list (string * string)) (instance_types preferred_azs : list string) : list string :=
  match instance_types with
  | [] => []
  | t :: rest =>
    let common := foldl (λ s t', s ∩ azs_of_type found t') (azs_of_type found t) rest in
    let ordered := filter (λ z, z ∈ common) preferred_azs in
    ordered ++ filter (λ z, z ∉ ordered) (GceZones.sorted_set common)
  end.

Section Api.
Context {E : Type}.
(** [describe_instance_type_offerings] in a region for some types: the type and the zone of
    every offering, or an exception. *)
Context (offerings : string → list string → outcome E (list (string * string))).
Context (peering_code : string → string → option string).
Context (page : list string → Z → bool → list string → option string → option (list entry * option string)).
Context (az_ids : string → option (list (string * string))) (max_pages : nat).

Definition get_common_availability_zones (region : string) (instance_types preferred_azs : list string)
    : outcome E (list string) :=
  match instance_types with
  | [] => Ok []
  | _ => try! found := offerings region instance_types in Ok (common_zones found instance_types preferred_azs)
  end.

Definition letters_in (region : string) (azs : list string) : gset string :=
  list_to_set (str_drop (String.length region) <$> azs).

Fixpoint common_letters (regions : list string) (supported : string → outcome E (list string))
    (common : option (gset string)) : outcome E (option (gset string)) :=
  match regions with
  | [] => Ok common
  | r :: regions' =>
    try! supported_full := supported r in
    let letters := letters_in r supported_full in
    common_letters regions' supported (Some (match common with None => letters | Some s => s ∩ letters end))
  end.

Definition _common_supported_letters (regions configured_letters instance_types : list string)
    : outcome E (list string) :=
  try! common := common_letters regions
    (λ r, get_common_availability_zones r instance_types ((λ l, r +:+ l) <$> configured_letters)) None in
  Ok match common with
     | None => []
     | Some common =>
       if bool_decide (common = ∅) then []
       else let configured_first := filter (λ l, l ∈ common) configured_letters in
            configured_first ++ GceZones.sorted_set (common ∖ list_to_set configured_first)
     end.

Definition _supported_az_letters (c : conf) : outcome E (list string) :=
  match required_instance_types (prm c), _region_names c with
  | [], _ | _, [] => Ok (_configured_az_letters c)
  | types, regions => _common_supported_letters regions (_configured_az_letters c) types
  end.

Definition _rank_letters_by_spot_score (c : conf) (regions letters : list string)
    : outcome (zone_exn E) (list string) :=
  if (length letters <? 2)%nat || negb (is_spot_placement_scoring_enabled (prm c)) then Ok letters
  else match regions with
       | [region] =>
         let min_score := int_param (pget "spot_placement_score_min" (prm c)) in
         match rank_az_letters_for_roles page az_ids max_pages (scored_role_requests (prm c)) region letters min_score with
         | None => Ok letters
         | Some ranked =>
           let required := (length (_configured_az_letters c) `min` length letters)%nat in
           if (length ranked <? required)%nat then Err NoValidAvailabilityZoneError else Ok ranked
         end
       | _ => Ok letters
       end.

Definition resolve (c : conf) : outcome (zone_exn E) conf :=
  if negb (truthy (pget "pre_filter_unavailable_availability_zones" (prm c))) then Ok c
  else
    match required_instance_types (prm c), _region_names c with
    | [], _ | _, [] => Ok c
    | instance_types, regions =>
      let configured := _configured_az_letters c in
      try! supported := api_result (_common_supported_letters regions configured instance_types) in
      match supported with
      | [] => Err NoValidAvailabilityZoneError
      | _ =>
        try! ranked := _rank_letters_by_spot_score c regions supported in
        let resolved :=
          if _score_may_choose_az c then take (length configured) ranked
          else GceZones.backfill (length configured) (filter (λ l, l ∈ supported) configured) ranked in
        let new_value := join "," resolved in
        if is_str (pget "availability_zone" (prm c)) new_value then Ok c
        else Ok (set_param "availability_zone" (VStr new_value) c)
      end
    end.

(** ** Fallback within the region *)

(** One step of the inner loop; [seen] holds the candidates so far. *)
Definition try_letter (primary : list string) (slot : nat) (candidates : list (list string)) (letter : string)
    : list (list string) :=
  if bool_decide (letter ∈ primary) then candidates
  else let candidate := <[slot := letter]> primary in
       if bool_decide (candidate ∈ candidates) then candidates else candidates ++ [candidate].

Definition replace_one_slot (primary supported : list string) : list (list string) :=
  foldl (λ candidates slot, foldl (try_letter primary slot) candidates supported) [primary]
    (seq 0 (length primary)).

Definition primary_letters (c : conf) (configured ranked : list string) : list string :=
  if _score_may_choose_az c then take (length configured) ranked
  else GceZones.backfill (length configured) (filter (λ l, l ∈ ranked) configured) ranked.

Definition get_fallback_candidates (c : conf) : outcome (zone_exn E) (list (list string)) :=
  match _configured_az_letters c with
  | [] => Ok []
  | configured =>
    try! supported := api_result (_supported_az_letters c) in
    match supported with
    | [] => Ok [configured]
    | _ =>
      try! ranked := _rank_letters_by_spot_score c (_region_names c) supported in
      match primary_letters c configured ranked with
      | [] => Ok [configured]
      | primary => Ok (replace_one_slot primary ranked)
      end
    end
  end.

(** ** Fallback to another region *)
Definition _blocked_by_dns_names (c : conf) : bool := truthy (pget "use_dns_names" (prm c)).

Definition _is_region_peered (current_region candidate_region : string) : bool :=
  bool_decide (peering_code current_region candidate_region = Some "active").

Definition _ordered_fallback_regions (p : params) (exclude : list string) : list string :=
  let regions := filter (λ r, r ∉ exclude) AWS_SUPPORTED_REGIONS in
  if negb (is_spot_placement_scoring_enabled p) || (length regions <? 2)%nat then regions
  else match rank_regions_by_score page az_ids max_pages (scored_instance_types p) (spot_target_capacity p) regions with
       | [] => regions
       | ranked => ranked
       end.

(** The candidate [region] gives when it is peered with the regions in [peers]. *)
Definition region_candidate (peers configured instance_types : list string) (region : string)
    : outcome E (option candidate) :=
  if negb (forallb (λ peer, _is_region_peered peer region) peers) then Ok None
  else
    try! letters := _common_supported_letters [region] configured instance_types in
    let needed := GceZones.cardinality configured in
    Ok (if (length letters <? needed)%nat then None else Some (region, take needed letters)).

Fixpoint region_candidates (peers configured instance_types regions : list string) : outcome E (list candidate) :=
  match regions with
  | [] => Ok []
  | r :: regions' =>
    try! found := region_candidate peers configured instance_types r in
    try! rest := region_candidates peers configured instance_types regions' in
    Ok (match found with Some cand => cand :: rest | None => rest end)
  end.

Definition get_region_fallback_candidates (c : conf) : outcome E (list candidate) :=
  if _blocked_by_dns_names c then Ok []
  else match _region_names c with
       | [] => Ok []
       | current :: _ =>
         region_candidates [current] (_configured_az_letters c) (required_instance_types (prm c))
           (_ordered_fallback_regions (prm c) [current])
       end.

Definition get_dc_fallback_candidates (dc_index : nat) (c : conf) : outcome E (list candidate) :=
  if _blocked_by_dns_names c then Ok []
  else
    let regions := _region_names c in
    if (length regions <=? dc_index)%nat then Ok []
    else
      let staying := take dc_index regions ++ drop (S dc_index) regions in
      let instance_types := match pget "instance_type_db" (prm c) with
                            | VStr t => if truthy t then [t] else []
                            | _ => []
                            end in
      region_candidates staying (_configured_az_letters c) instance_types
        (_ordered_fallback_regions (prm c) regions).

Definition get_preferred_spot_region (c : conf) : outcome E (option candidate) :=
  let margin := int_param (pget "spot_score_region_relocation_margin" (prm c)) in
  match _region_names c, scored_instance_types (prm c) with
  | [current], (_ :: _) as types =>
    if (margin <=? 0) || negb (is_spot_placement_scoring_enabled (prm c)) then Ok None
    else
      let scored := get_scores page az_ids max_pages types (spot_target_capacity (prm c))
                      (current :: filter (λ r, r ≠ current) AWS_SUPPORTED_REGIONS) false in
      let by_region := foldl (λ d p, dict_set (p_region p) (p_score p) d) [] scored in
      match dict_get current by_region with
      | None => Ok None
      | Some current_score =>
        try! candidates := get_region_fallback_candidates c in
        Ok (List.find (λ cand : candidate, match dict_get cand.1 by_region with
                                           | Some s => margin <=? s - current_score
                                           | None => false
                                           end) candidates)
      end
  | _, _ => Ok None
  end.

(** ** What the chosen letters are *)

(** A zone with this letter in the region is offered for all the instance types. *)
Definition supported_in (instance_types : list string) (region letter : string) : Prop :=
  ∃ found z, offerings region instance_types = Ok found ∧
    str_drop (String.length region) z = letter ∧ ∀ t, t ∈ instance_types → (t, z) ∈ found.

Lemma elem_of_azs_of_type found t z : z ∈ azs_of_type found t ↔ (t, z) ∈ found.
Proof using Type. clear.
  unfold azs_of_type. rewrite elem_of_list_to_set, list_elem_of_omap. split.
  - intros ([t' z'] & Hin & Ho). simpl in Ho. by destruct (String.eqb_spec t' t) as [->|]; simplify_eq.
  - intros Hin. exists (t, z). split; [done|]. simpl. by rewrite String.eqb_refl.
Qed.

Lemma elem_of_offered_zones found types pref z :
  types ≠ [] → z ∈ common_zones found types pref ↔ ∀ t, t ∈ types → (t, z) ∈ found.
Proof using Type. clear.
  destruct types as [|t types]; [done|]. intros _. unfold common_zones. set (common := foldl _ _ _).
  assert (z ∈ common ↔ ∀ t', t' ∈ t :: types → (t', z) ∈ found) as Hc.
  { unfold common. rewrite (GceZones.elem_of_inter_fold (azs_of_type found)).
    rewrite elem_of_azs_of_type. setoid_rewrite elem_of_azs_of_type. set_solver. }
  rewrite <- Hc, elem_of_app, !list_elem_of_filter, GceZones.elem_of_sorted_set.
  destruct (decide (z ∈ pref)); tauto.
Qed.

Lemma elem_of_letters_in region azs l :
  l ∈ letters_in region azs ↔ ∃ z, z ∈ azs ∧ str_drop (String.length region) z = l.
Proof using Type. clear. unfold letters_in. rewrite elem_of_list_to_set, list_elem_of_fmap. naive_solver. Qed.

(** The letters of a region, from what its offerings were answered. *)
Lemma region_letters_spec region types pref azs l :
  types ≠ [] → get_common_availability_zones region types pref = Ok azs →
  l ∈ letters_in region azs ↔ supported_in types region l.
Proof using Type. clear peering_code page az_ids max_pages.
  intros Ht. unfold get_common_availability_zones, supported_in. destruct types as [|t types]; [done|].
  destruct (offerings region (t :: types)) as [found|x]; [|done]. cbn [obind]. intros H. assert (azs = common_zones found (t :: types) pref) as -> by congruence. clear H.
  rewrite elem_of_letters_in. split.
  - intros (z & Hz & Hl). exists found, z. split_and!; [done..|]. by apply (elem_of_offered_zones found _ pref).
  - intros (found' & z & [= <-] & Hl & Hz). exists z. split; [|done]. by apply elem_of_offered_zones.
Qed.

Lemma aws_common_letters_spec regions f acc s :
  common_letters regions f acc = Ok s →
  (regions ≠ [] ∨ acc ≠ None → s ≠ None) ∧
  ∀ s', s = Some s' → ∀ l, l ∈ s' ↔
    (∀ a, acc = Some a → l ∈ a) ∧ ∀ r, r ∈ regions → ∃ azs, f r = Ok azs ∧ l ∈ letters_in r azs.
Proof using Type. clear.
  revert acc. induction regions as [|r regions IH]; intros acc; cbn [common_letters].
  { intros [= <-]. split; [intros [?|?]; done|]. intros s' -> l. split.
    - intros Hl. split; [by intros a [= <-]|by intros r ?%not_elem_of_nil].
    - intros [Hl _]. by apply Hl. }
  destruct (f r) as [azs|x] eqn:Ef; [|done]. cbn [obind]. intros [H1 H2]%IH. split; [intros _; apply H1; by right|].
  intros s' -> l. rewrite (H2 s' eq_refl l). split.
  - intros [Ha Hr]. specialize (Ha _ eq_refl). split.
    + intros a ->. set_solver.
    + intros r' [->|Hr']%elem_of_cons; [|by apply Hr]. exists azs. split; [done|]. destruct acc; set_solver.
  - intros [Ha Hr]. destruct (Hr r) as (azs' & Ef' & Hl); [left|]. rewrite Ef in Ef'. injection Ef' as <-. split.
    + intros a [= <-]. destruct acc as [a|]; [|done]. apply elem_of_intersection. split; [by apply Ha|done].
    + intros r' Hr'. apply Hr. by right.
Qed.

(** The supported letters are those supported in every region. *)
Lemma aws_supported_letters_spec regions configured types letters l :
  types ≠ [] → regions ≠ [] → _common_supported_letters regions configured types = Ok letters →
  l ∈ letters ↔ ∀ r, r ∈ regions → supported_in types r l.
Proof using Type. clear peering_code page az_ids max_pages.
  intros Hm Hr. unfold _common_supported_letters.
  destruct (common_letters regions _ None) as [common|] eqn:E1; [|done]. cbn [obind]. intros [= <-].
  apply aws_common_letters_spec in E1 as [Hne Hc]. destruct common as [common|]; [|by destruct Hne; [left|]].
  specialize (Hc common eq_refl l). transitivity (l ∈ common).
  - case_bool_decide as He; [set_solver|]. rewrite elem_of_app, list_elem_of_filter, GceZones.elem_of_sorted_set.
    rewrite elem_of_difference, elem_of_list_to_set, list_elem_of_filter.
    destruct (decide (l ∈ configured)); tauto.
  - rewrite Hc. split.
    + intros [_ Hall] r Hin. destruct (Hall r Hin) as (azs & Ha & Hl). by apply (region_letters_spec _ _ _ _ _ Hm Ha).
    + intros Hall. split; [done|]. intros r Hin. destruct (Hall r Hin) as (found & z & Ho & Hz).
      assert (∃ azs, get_common_availability_zones r types ((λ l, r +:+ l) <$> configured) = Ok azs) as [azs Ha].
      { unfold get_common_availability_zones. rewrite Ho. destruct types; [done|]. by eexists. }
      exists azs. split; [done|]. apply (region_letters_spec _ _ _ _ _ Hm Ha). by exists found, z.
Qed.

Lemma supported_letters_NoDup regions configured types letters :
  NoDup configured → _common_supported_letters regions configured types = Ok letters → NoDup letters.
Proof using Type. clear peering_code page az_ids max_pages.
  intros Hc. unfold _common_supported_letters. destruct (common_letters _ _ _) as [common|]; [|done].
  cbn [obind]. intros [= <-]. destruct common as [common|]; [|apply NoDup_nil_2].
  case_bool_decide; [apply NoDup_nil_2|]. apply NoDup_app. split_and!.
  - by apply NoDup_filter.
  - intros l Hl. rewrite GceZones.elem_of_sorted_set, elem_of_difference, elem_of_list_to_set. tauto.
  - unfold GceZones.sorted_set. rewrite merge_sort_Permutation. apply NoDup_elements.
Qed.

Lemma aws_rank_letters_sub c regions letters ranked :
  _rank_letters_by_spot_score c regions letters = Ok ranked →
  ranked ⊆+ letters ∧ (letters ≠ [] → _configured_az_letters c ≠ [] → ranked ≠ []).
Proof using Type.
  unfold _rank_letters_by_spot_score. destruct (_ || _); [by intros [= <-]|].
  destruct regions as [|region [|? ?]]; [by intros [= <-]| |by intros [= <-]].
  destruct (rank_az_letters_for_roles _ _ _ _ _ _ _) as [r|] eqn:Er; [|by intros [= <-]].
  apply rank_az_letters_sub in Er. case_match eqn:Hlen; [done|]. intros [= <-]. split; [done|].
  apply Nat.ltb_ge in Hlen. intros Hl Hc ->. destruct letters, (_configured_az_letters c); simpl in *; try done; lia.
Qed.
End Api.
(** ** Candidate lists *)
Lemma NoDup_insert_new {A} (l : list A) i x : NoDup l → x ∉ l → NoDup (<[i := x]> l).
Proof.
  revert i. induction l as [|y l IH]; intros i Hl Hx; [done|].
  apply NoDup_cons in Hl as [Hy Hl]. apply not_elem_of_cons in Hx as [Hxy Hx].
  destruct i as [|i]; simpl; apply NoDup_cons; [done|]. split; [|by apply IH].
  intros Hin. apply list_elem_of_lookup_1 in Hin as [j Hj].
  destruct (decide (i = j)) as [->|Hne].
  - destruct (decide (j < length l)%nat) as [Hlt|Hge].
    + rewrite list_lookup_insert_eq in Hj by done. by simplify_eq.
    + rewrite list_insert_ge in Hj by lia. by apply Hy, list_elem_of_lookup_2 with j.
  - rewrite list_lookup_insert_ne in Hj by done. by apply Hy, list_elem_of_lookup_2 with j.
Qed.

Lemma NoDup_submseteq_sub {A} (l k : list A) : l ⊆+ k → NoDup k → NoDup l.
Proof.
  intros (k' & Hl & Hk)%submseteq_sublist_l Hnd. rewrite <- Hk in Hnd. by eapply sublist_NoDup.
Qed.

Lemma elem_of_insert {A} (l : list A) i x y : y ∈ <[i := x]> l → y = x ∨ y ∈ l.
Proof.
  intros [j Hj]%list_elem_of_lookup_1. destruct (decide (i = j)) as [->|Hne].
  - destruct (decide (j < length l)%nat) as [Hlt|Hge].
    + rewrite list_lookup_insert_eq in Hj by done. left. by simplify_eq.
    + rewrite list_insert_ge in Hj by lia. right. by apply list_elem_of_lookup_2 with j.
  - rewrite list_lookup_insert_ne in Hj by done. right. by apply list_elem_of_lookup_2 with j.
Qed.

Lemma backfill_NoDup n resolved pool : NoDup resolved → NoDup (GceZones.backfill n resolved pool).
Proof.
  revert resolved. induction pool as [|l pool IH]; intros resolved Hr; simpl; [done|].
  case_match; [done|]. apply IH. case_bool_decide; [done|]. apply NoDup_app.
  split_and!; [done|set_solver|apply NoDup_singleton].
Qed.

Lemma backfill_nonempty n resolved pool :
  n ≠ 0%nat → pool ≠ [] → GceZones.backfill n resolved pool ≠ [].
Proof.
  intros Hn Hp E. destruct pool as [|l pool]; [done|]. simpl in E.
  destruct (Nat.leb_spec n (length resolved)); [destruct resolved; simpl in *; [lia|done]|].
  assert (l ∈ (if bool_decide (l ∈ resolved) then resolved else resolved ++ [l])) as Hl
    by (case_bool_decide; set_solver).
  apply (proj1 (GceZones.backfill_elem n _ pool l)) in Hl. rewrite E in Hl. by apply not_elem_of_nil in Hl.
Qed.

Lemma try_letters_spec primary slot supported acc :
  NoDup acc →
  NoDup (foldl (try_letter primary slot) acc supported) ∧
  head acc = (if acc then None else head (foldl (try_letter primary slot) acc supported)) ∧
  ∀ cand, cand ∈ foldl (try_letter primary slot) acc supported ↔
    cand ∈ acc ∨ ∃ l, l ∈ supported ∧ l ∉ primary ∧ cand = <[slot := l]> primary.
Proof.
  revert acc. induction supported as [|l supported IH]; intros acc Hacc; cbn [foldl].
  { split; [done|]. split; [by destruct acc|]. set_solver. }
  assert (NoDup (try_letter primary slot acc l) ∧
    (acc ≠ [] → try_letter primary slot acc l ≠ [] ∧ head (try_letter primary slot acc l) = head acc) ∧
    ∀ cand, cand ∈ try_letter primary slot acc l ↔ cand ∈ acc ∨ l ∉ primary ∧ cand = <[slot := l]> primary)
    as (Hnd & Hhd & Hin).
  { unfold try_letter. case_bool_decide as Hp; [set_solver|]. case_bool_decide as Hc; [set_solver|].
    split_and!; [|by destruct acc|set_solver]. apply NoDup_app. split_and!; [done|set_solver|apply NoDup_singleton]. }
  destruct (IH _ Hnd) as (IH1 & IH2 & IH3). split; [done|]. split.
  - destruct acc as [|a acc]; [done|]. destruct Hhd as [Hne Hh]; [done|]. rewrite <- Hh, IH2.
    by destruct (try_letter primary slot (a :: acc) l).
  - intros cand. rewrite IH3, Hin. set_solver.
Qed.

Lemma replace_one_slot_spec primary supported :
  NoDup (replace_one_slot primary supported) ∧
  head (replace_one_slot primary supported) = Some primary ∧
  ∀ cand, cand ∈ replace_one_slot primary supported ↔
    cand = primary ∨ ∃ slot l, (slot < length primary)%nat ∧ l ∈ supported ∧ l ∉ primary ∧
                               cand = <[slot := l]> primary.
Proof.
  unfold replace_one_slot.
  assert (∀ slots acc, NoDup acc → head acc = Some primary →
    let r := foldl (λ candidates slot, foldl (try_letter primary slot) candidates supported) acc slots in
    NoDup r ∧ head r = Some primary ∧
    ∀ cand, cand ∈ r ↔ cand ∈ acc ∨ ∃ slot l, slot ∈ slots ∧ l ∈ supported ∧ l ∉ primary ∧
                                              cand = <[slot := l]> primary) as Hgen.
  { induction slots as [|slot slots IH]; intros acc Hacc Hh; cbn [foldl]; [set_solver|].
    destruct (try_letters_spec primary slot supported acc Hacc) as (Hnd & Hhd & Hin).
    destruct (IH _ Hnd) as (I1 & I2 & I3); [destruct acc; [done|congruence]|].
    split_and!; [done|done|]. intros cand. rewrite I3, Hin. clear. set_solver. }
  destruct (Hgen (seq 0 (length primary)) [primary]) as (H1 & H2 & H3); [apply NoDup_singleton|done|].
  split_and!; [done|done|]. intros cand. rewrite H3, list_elem_of_singleton.
  setoid_rewrite elem_of_seq. split; intros [?|(slot & l & ? & ?)]; [by left|right|by left|right];
    exists slot, l; (split; [lia|done]).
Qed.

(** The upfront filter writes nothing but the zones. *)
Lemma resolve_changes_az {E} (offerings : string → list string → outcome E (list (string * string))) page az_ids max_pages c c' :
  resolve offerings page az_ids max_pages c = Ok c' →
  c' = c ∨ ∃ v, c' = set_param "availability_zone" v c.
Proof.
  unfold resolve. case_match; [intros [= <-]; by left|].
  destruct (required_instance_types (prm c)), (_region_names c); try (intros [= <-]; by left).
  destruct (_common_supported_letters _ _ _ _) as [[|? ?]|]; [done| |done]. cbn [obind api_result].
  destruct (_rank_letters_by_spot_score _ _ _ _ _ _); [|done]. cbn [obind].
  case_match; intros [= <-]; [by left|right; by eexists].
Qed.

Section Shape.
Context {E : Type} (offerings : string → list string → outcome E (list (string * string))).
Context (page : list string → Z → bool → list string → option string → option (list entry * option string)).
Context (az_ids : string → option (list (string * string))) (max_pages : nat).

Lemma primary_letters_spec c configured ranked :
  configured ≠ [] → ranked ≠ [] → NoDup configured → NoDup ranked →
  let primary := primary_letters c configured ranked in
  primary ≠ [] ∧ (length primary <= length configured)%nat ∧ NoDup primary ∧ ∀ l, l ∈ primary → l ∈ ranked.
Proof.
  intros Hc Hr Hnc Hnr. unfold primary_letters. destruct (_score_may_choose_az c).
  - split_and!; [by destruct ranked, configured|rewrite length_take; lia| |].
    + eapply sublist_NoDup; [exact Hnr|apply sublist_take].
    + intros l Hl. by apply GceZones.elem_of_take_sub in Hl.
  - split_and!.
    + apply backfill_nonempty; [by destruct configured|done].
    + apply GceZones.backfill_length, length_filter.
    + by apply backfill_NoDup, NoDup_filter.
    + intros l [Hl|Hl]%GceZones.backfill_elem; [|done]. by apply list_elem_of_filter in Hl as [? _].
Qed.

(** The zones to try when capacity runs out keep the shape of the configuration: the
    candidates are pairwise different, none has more zones than configured, all have the
    same number, no zone twice, and every zone of every candidate offers all the instance
    types the test launches in every region; each later candidate replaces one zone of the
    first by a zone that is not in it, and every such replacement is among them. *)
Theorem fallback_candidates_shape c cands :
  get_fallback_candidates offerings page az_ids max_pages c = Ok cands →
  NoDup (_configured_az_letters c) → _configured_az_letters c ≠ [] →
  required_instance_types (prm c) ≠ [] → _region_names c ≠ [] →
  _supported_az_letters offerings c ≠ Ok [] →
  ∃ primary, head cands = Some primary ∧ NoDup cands ∧
    (length primary <= length (_configured_az_letters c))%nat ∧
    (∀ cand, cand ∈ cands → length cand = length primary ∧ NoDup cand ∧
       (∀ l r, l ∈ cand → r ∈ _region_names c → supported_in offerings (required_instance_types (prm c)) r l) ∧
       (cand = primary ∨ ∃ slot l, l ∉ primary ∧ cand = <[slot := l]> primary)) ∧
    (is_spot_placement_scoring_enabled (prm c) = false → ∀ slot l,
       (slot < length primary)%nat → l ∉ primary →
       (∀ r, r ∈ _region_names c → supported_in offerings (required_instance_types (prm c)) r l) →
       <[slot := l]> primary ∈ cands).
Proof.
  unfold get_fallback_candidates. intros H Hnd Hc Ht Hr Hs.
  destruct (_configured_az_letters c) as [|l0 ls] eqn:Ec; [done|].
  destruct (_supported_az_letters offerings c) as [[|s0 ss]|] eqn:Es; [done| |done]. cbn [obind api_result] in H.
  destruct (_rank_letters_by_spot_score _ _ _ c _ (s0 :: ss)) as [ranked|] eqn:Er; [|done]. cbn [obind] in H.
  pose proof (aws_rank_letters_sub _ _ _ _ _ _ _ Er) as [Hsub Hne]. rewrite Ec in Hne.
  assert (_common_supported_letters offerings (_region_names c) (l0 :: ls) (required_instance_types (prm c)) = Ok (s0 :: ss)) as Esup.
  { rewrite <- Es. unfold _supported_az_letters. rewrite Ec.
    destruct (required_instance_types (prm c)), (_region_names c); done. }
  assert (∀ l, l ∈ s0 :: ss ↔ ∀ r, r ∈ _region_names c →
            supported_in offerings (required_instance_types (prm c)) r l) as Hsup
    by (intros l; by apply (aws_supported_letters_spec offerings _ (l0 :: ls))).
  assert (NoDup ranked) as Hndr.
  { eapply NoDup_submseteq_sub; [exact Hsub|]. by apply (supported_letters_NoDup offerings _ _ _ _ Hnd Esup). }
  destruct (primary_letters_spec c (l0 :: ls) ranked) as (P1 & P2 & P3 & P4); [done|by apply Hne|done|done|].
  set (primary := primary_letters c (l0 :: ls) ranked) in *. clearbody primary.
  assert (cands = replace_one_slot primary ranked) as -> by (destruct primary; [done|by simplify_eq]).
  destruct (replace_one_slot_spec primary ranked) as (R1 & R2 & R3).
  exists primary. split_and!; [done|done|done| |].
  - intros cand Hcand. apply R3 in Hcand as [->|(slot & l & Hslot & Hl & Hnl & ->)].
    + split_and!; [done|done| |by left]. intros l r Hl Hrr. apply Hsup; [|done].
      eapply elem_of_submseteq; [by apply P4|done].
    + split_and!; [apply length_insert|by apply NoDup_insert_new| |right; by exists slot, l].
      intros l' r [->|Hl']%elem_of_insert Hrr; apply Hsup; try done;
        (eapply elem_of_submseteq; [|exact Hsub]); [done|by apply P4].
  - intros Hoff slot l Hslot Hnl Hall. apply R3. right. exists slot, l. split_and!; [done| |done|done].
    assert (ranked = s0 :: ss) as ->; [|by apply Hsup]. unfold _rank_letters_by_spot_score in Er.
    rewrite Hoff, orb_true_r in Er. by simplify_eq.
Qed.
End Shape.
(** ** Relocation *)
Section Relocation.
Context {E : Type} (offerings : string → list string → outcome E (list (string * string))).
Context (peering_code : string → string → option string).
Context (page : list string → Z → bool → list string → option string → option (list entry * option string)).
Context (az_ids : string → option (list (string * string))) (max_pages : nat).

Lemma no_types_no_letters region configured : _common_supported_letters offerings [region] configured [] = Ok [].
Proof. unfold _common_supported_letters. simpl. unfold letters_in. simpl. by case_bool_decide. Qed.

Lemma aws_region_candidate_valid peers configured types region r letters :
  region_candidate offerings peering_code peers configured types region = Ok (Some (r, letters)) →
  r = region ∧ (∀ peer, peer ∈ peers → peering_code peer region = Some "active") ∧
  length letters = GceZones.cardinality configured ∧ ∀ l, l ∈ letters → supported_in offerings types region l.
Proof.
  unfold region_candidate. destruct (forallb _ peers) eqn:Hp; [|done]. cbn [negb].
  destruct (decide (types = [])) as [->|Ht].
  { rewrite no_types_no_letters. unfold GceZones.cardinality. by destruct (length configured). }
  destruct (_common_supported_letters offerings [region] configured types) as [ls|] eqn:El; [|done]. cbn [obind].
  case_match eqn:Hlen; [done|]. apply Nat.ltb_ge in Hlen. intros [= <- <-]. split_and!; [done| | |].
  - intros peer Hin. rewrite forallb_forall in Hp. apply list_elem_of_In, Hp in Hin.
    by apply bool_decide_eq_true in Hin.
  - rewrite length_take. lia.
  - intros l Hl%GceZones.elem_of_take_sub. rewrite (aws_supported_letters_spec offerings [region] configured types ls l) in Hl by done.
    apply Hl. by apply list_elem_of_singleton.
Qed.

Lemma elem_of_region_candidates peers configured types regions cands cand :
  region_candidates offerings peering_code peers configured types regions = Ok cands → cand ∈ cands →
  ∃ region, region ∈ regions ∧ region_candidate offerings peering_code peers configured types region = Ok (Some cand).
Proof. clear page az_ids max_pages.
  revert cands. induction regions as [|r regions IH]; intros cands; cbn [region_candidates].
  { intros [= <-] []%not_elem_of_nil. }
  destruct (region_candidate _ _ _ _ _ r) as [found|] eqn:Ef; [|done]. cbn [obind].
  destruct (region_candidates _ _ _ _ _ regions) as [rest|]; [|done]. cbn [obind]. intros [= <-] Hin.
  destruct found as [f|]; [apply elem_of_cons in Hin as [->|Hin]; [exists r; split; [left|done]|]|];
    destruct (IH rest eq_refl Hin) as (region & ? & ?); exists region; (split; [by right|done]).
Qed.

Lemma aws_ordered_regions_sub p exclude r :
  r ∈ _ordered_fallback_regions page az_ids max_pages p exclude → r ∈ AWS_SUPPORTED_REGIONS ∧ r ∉ exclude.
Proof. clear offerings peering_code.
  unfold _ordered_fallback_regions. intros Hr.
  assert (r ∈ filter (λ r, r ∉ exclude) AWS_SUPPORTED_REGIONS) as Hf; [|apply list_elem_of_filter in Hf; tauto].
  destruct (_ || _); [done|].
  pose proof (rank_regions_by_score_perm page az_ids max_pages (scored_instance_types p) (spot_target_capacity p)
                (filter (λ r, r ∉ exclude) AWS_SUPPORTED_REGIONS)) as Hp.
  destruct (rank_regions_by_score _ _ _ _ _ _) as [|r0 ranked]; [done|]. by rewrite <- Hp.
Qed.

(** A DC is only ever relocated to a region it can work from: a candidate for the DC at
    [dc_index] is a supported region no DC of the test is in, peered with the region of every
    DC that stays, with the configured number of zone letters, each a zone of the region that
    offers the DB instance type; and there is none when nodes are addressed by DNS names. *)
Theorem dc_relocation_candidates_usable dc_index c cands r letters :
  get_dc_fallback_candidates offerings peering_code page az_ids max_pages dc_index c = Ok cands →
  (r, letters) ∈ cands →
  truthy (pget "use_dns_names" (prm c)) = false ∧
  r ∈ AWS_SUPPORTED_REGIONS ∧ r ∉ _region_names c ∧
  (∀ i peer, _region_names c !! i = Some peer → i ≠ dc_index → peering_code peer r = Some "active") ∧
  length letters = GceZones.cardinality (_configured_az_letters c) ∧
  ∀ l, l ∈ letters → ∀ t, pget "instance_type_db" (prm c) = VStr t → t ≠ EmptyString →
    supported_in offerings [t] r l.
Proof.
  unfold get_dc_fallback_candidates, _blocked_by_dns_names.
  destruct (truthy (pget "use_dns_names" (prm c))); [by intros [= <-] ?%not_elem_of_nil|].
  case_match; [by intros [= <-] ?%not_elem_of_nil|]. intros Hcands (region & Hr & Hc)%(elem_of_region_candidates _ _ _ _ _ _ Hcands).
  apply aws_ordered_regions_sub in Hr as [Hsup Hnot].
  apply aws_region_candidate_valid in Hc as (-> & Hpeer & Hlen & Hlet). split_and!; [done..| |done|].
  - intros i peer Hi Hne. apply Hpeer. apply elem_of_app.
    destruct (decide (i < dc_index)%nat); [left|right].
    + apply list_elem_of_lookup_2 with i. rewrite lookup_take. by rewrite decide_True by lia.
    + apply list_elem_of_lookup_2 with (i - S dc_index)%nat. rewrite lookup_drop. rewrite <- Hi. f_equal. lia.
  - intros l Hl t Ht Hne. specialize (Hlet l Hl). rewrite Ht in Hlet. by destruct t.
Qed.
End Relocation.

(** ** Pre-flight probe *)
Inductive probe_exn : Type :=
  | NoRegion | NoSubnet | NoSecurityGroup | AmiLookupFailed | LaunchFailed
  | ProvisioningCapacityExhausted (failures : list string).

(** [run_instances]: the instances launched, a [ClientError] (of the capacity class or not),
    or another exception. *)
Inductive launch_result : Type :=
  | Launched (ids : list nat)
  | ClientError (capacity : bool)
  | OtherFailure.

Section Probe.
(** The probes' view of the account: subnets by zone, security groups by region, AMIs by
    instance type, launches, and whether a termination request succeeds. *)
Context (subnet security_group : string → bool) (ami_for_type : string → bool).
Context (launch : string → launch_result) (terminates : list nat → bool).

(** The state is the list of probe instances that are running. *)
Notation probe := (act (list nat) probe_exn).

Definition terminate (instance_ids : list nat) : probe unit :=
  modify (λ running, if terminates instance_ids then filter (λ i, i ∉ instance_ids) running else running).

Definition probe_type (instance_type : string) : probe bool :=
  if negb (ami_for_type instance_type) then raise AmiLookupFailed
  else match launch instance_type with
       | Launched instance_ids =>
         modify (λ running, running ++ instance_ids) ;;;
         try_finally (ret true) (if truthy instance_ids then terminate instance_ids else ret tt)
       | ClientError capacity => ret (negb capacity)
       | OtherFailure => raise LaunchFailed
       end.

Fixpoint probe_types (types : list string) (results : list (string * bool)) : probe (list (string * bool)) :=
  match types with
  | [] => ret results
  | t :: types' => let! ok := probe_type t in probe_types types' (dict_set t ok results)
  end.

Definition last_char (s : string) : string :=
  match str_rev s with String ch _ => String ch EmptyString | EmptyString => EmptyString end.

Definition probe_capacity_for_types (c : conf) (types : list string) (az : string) : probe (list (string * bool)) :=
  match types with
  | [] => ret []
  | _ =>
    match _region_names c with
    | [] => raise NoRegion
    | region :: _ =>
      let region_az := if startswith region az then az else region +:+ last_char az in
      if negb (subnet region_az) then raise NoSubnet
      else if negb (security_group region) then raise NoSecurityGroup
      else probe_types types []
    end
  end.

Definition _DYNAMIC_ADD_TYPE_PARAMS : list string :=
  ["instance_type_db_target"; "nemesis_grow_shrink_instance_type"].

Fixpoint probe_zones (c : conf) (types az_letters failures : list string) : probe (list string) :=
  match az_letters with
  | [] => ret failures
  | letter :: az_letters' =>
    let! results := probe_capacity_for_types c types letter in
    probe_zones c types az_letters'
      (failures ++ omap (λ p : string * bool, if p.2 then None else Some (p.1 +:+ "@" +:+ letter)) results)
  end.

Definition run_pre_flight_capacity_probe (c : conf) : probe unit :=
  if negb (truthy (pget "pre_flight_capacity_probe" (prm c))) then ret tt
  else
    let types := omap (λ k, match pget k (prm c) with VStr t => if truthy t then Some t else None | _ => None end)
                   _DYNAMIC_ADD_TYPE_PARAMS in
    match types, _configured_az_letters c with
    | [], _ | _, [] => ret tt
    | _, az_letters =>
      let! failures := probe_zones c types az_letters [] in
      (if truthy failures then raise (ProvisioningCapacityExhausted failures) else ret tt)
    end.

Hypothesis terminations_succeed : ∀ t ids, launch t = Launched ids → terminates ids = true.

(** No probe instance outlives its probe when terminations succeed. *)
Lemma probe_type_no_leak (running0 : list nat) t :
  (∀ ids, launch t = Launched ids → ∀ i, i ∈ ids → i ∉ running0) →
  keeps_state (λ running, running = running0) (probe_type t).
Proof using terminations_succeed.
  clear subnet security_group. intros Hfresh running ->. unfold probe_type. destruct (ami_for_type t); [|done]. cbn [negb].
  destruct (launch t) as [ids| |] eqn:El; [|done|done].
  destruct ids as [|i ids]; [cbn; by rewrite app_nil_r|].
  cbn. rewrite (terminations_succeed t (i :: ids) El). specialize (Hfresh (i :: ids) eq_refl).
  rewrite filter_app, filter_always, filter_never by (intros x Hx Hn; by apply Hn || set_solver || by apply (Hfresh x)).
  apply app_nil_r.
Qed.

Lemma pre_flight_no_leak (running0 : list nat) c :
  (∀ t ids, launch t = Launched ids → ∀ i, i ∈ ids → i ∉ running0) →
  keeps_state (λ running, running = running0) (run_pre_flight_capacity_probe c).
Proof using terminations_succeed.
  intros Hfresh.
  assert (∀ types results, keeps_state (λ running, running = running0) (probe_types types results)) as Htypes.
  { induction types as [|t types IH]; intros results; [apply keeps_state_ret|].
    apply keeps_state_bind; [apply probe_type_no_leak; eauto|auto]. }
  assert (∀ types az, keeps_state (λ running, running = running0) (probe_capacity_for_types c types az)) as Hcap.
  { intros types az. unfold probe_capacity_for_types. destruct types; [apply keeps_state_ret|].
    destruct (_region_names c); [apply keeps_state_raise|].
    destruct (subnet _), (security_group _); try apply keeps_state_raise. apply Htypes. }
  assert (∀ types zones failures, keeps_state (λ running, running = running0) (probe_zones c types zones failures)) as Hz.
  { intros types. induction zones as [|z zones IH]; intros failures; [apply keeps_state_ret|].
    apply keeps_state_bind; auto. }
  unfold run_pre_flight_capacity_probe. case_match; [apply keeps_state_ret|].
  case_match; [apply keeps_state_ret|]. case_match; [apply keeps_state_ret|].
  apply keeps_state_bind; [apply Hz|]. intros failures. case_match; [apply keeps_state_raise|apply keeps_state_ret].
Qed.
End Probe.

(** ** Examples *)
Definition ex_offerings {E} (region : string) (types : list string) : outcome E (list (string * string)) :=
  Ok (t ← types; (λ l, (t, region +:+ l)) <$>
        (if String.eqb t "i4i.large" then ["a"; "b"; "c"; "d"] else ["a"; "b"; "c"; "d"; "e"])).
Definition ex_page (ts : list string) (n : Z) (b : bool) (rs : list string) (tk : option string)
    : option (list entry * option string) := None.
Definition ex_conf : conf :=
  Conf {["region_name" := VStr "eu-west-1"; "availability_zone" := VStr "a,b,c";
         "instance_type_db" := VStr "i4i.large"; "n_loaders" := VInt 1;
         "instance_type_loader" := VStr "c6i.xlarge"]} None None.

Lemma fallback_candidates_shape_witness :
  ∃ primary, head [["a"; "b"; "c"]; ["d"; "b"; "c"]; ["a"; "d"; "c"]; ["a"; "b"; "d"]] = Some primary ∧
    NoDup [["a"; "b"; "c"]; ["d"; "b"; "c"]; ["a"; "d"; "c"]; ["a"; "b"; "d"]] ∧
    (length primary <= 3)%nat.
Proof.
  destruct (fallback_candidates_shape (E := unit) ex_offerings ex_page (λ _, None) 1 ex_conf
              [["a"; "b"; "c"]; ["d"; "b"; "c"]; ["a"; "d"; "c"]; ["a"; "b"; "d"]])
    as (primary & H1 & H2 & H3 & _).
  - by vm_compute.
  - apply (bool_decide_unpack _). by vm_compute.
  - by vm_compute.
  - by vm_compute.
  - by vm_compute.
  - by vm_compute.
  - exists primary. split; [exact H1|]. split; [exact H2|]. exact H3.
Defined.

Definition ex_conf2 : conf :=
  Conf {["region_name" := VStr "eu-west-1 us-east-1"; "availability_zone" := VStr "a";
         "instance_type_db" := VStr "i4i.large"]} None None.

Lemma dc_relocation_candidates_usable_witness :
  "eu-west-2" ∉ _region_names ex_conf2 ∧
  (∀ i peer, _region_names ex_conf2 !! i = Some peer → i ≠ 1%nat → Some "active" = Some "active").
Proof.
  destruct (dc_relocation_candidates_usable (E := unit) ex_offerings (λ _ _, Some "active") ex_page (λ _, None) 1 1 ex_conf2
              ((λ r, (r, ["a"])) <$> filter (λ r, r ∉ ["eu-west-1"; "us-east-1"]) AWS_SUPPORTED_REGIONS)
              "eu-west-2" ["a"]) as (_ & _ & Hn & Hp & _).
  - by vm_compute.
  - apply list_elem_of_In. vm_compute. by left.
  - split; [exact Hn|exact Hp].
Defined.
End AwsZones.
