(* ===== verification/Placement.v ===== *)
(** * The placement handed from provisioning to the test run

    Model of the resolved-placement methods of [TestConfig] ([sdcm/test_config.py]) and of
    [SCTConfiguration._apply_resolved_placement] ([sdcm/sct_config/config.py]).

    Provisioning and the test run are two processes; what the first chose reaches the second
    through a file named after the test. The file system maps paths to files, a file that
    exists but cannot be opened being [None]; writing is taken to succeed. YAML is an
    argument: [safe_dump] and [safe_load], the latter with no result for malformed text. *)
From Stdlib Require Import Ascii QArith.
From stdpp Require Import base decidable option strings numbers gmap sets list.
From S2P Require Import Prelude.
From S2P Require Import PyString.
From S2P Require Import PyVal.
From S2P Require Import PyRepr.
From S2P Require Import PyDict.
From S2P Require Import GceZones.
From S2P Require Import AwsZones.
Local Open Scope py_scope.

Module Placement.

(** ** YAML documents *)
Inductive yaml : Type :=
  | YVal (v : pyval)
  | YDict (d : list (string * yaml)).

(** [d.get(key)]. *)
Definition yget (k : string) (d : list (string * yaml)) : yaml := default (YVal VNone) (dict_get k d).

#[export] Instance truthy_yaml : Truthy yaml :=
  λ y, match y with YVal v => truthy v | YDict d => match d with [] => false | _ => true end end.

(** [str(y)]. *)
Fixpoint repr_yaml (y : yaml) : string :=
  match y with
  | YVal v => repr_pyval v
  | YDict d => "{" +:+ join ", " ((λ p : string * yaml, repr_str p.1 +:+ ": " +:+ repr_yaml p.2) <$> d) +:+ "}"
  end.
Definition str_yaml (y : yaml) : string := match y with YVal v => str_pyval v | _ => repr_yaml y end.

(** [os.path.join(a, b)]. *)
Definition path_join (a b : string) : string :=
  if startswith "/" b then b
  else if negb (truthy a) || endswith "/" a then a +:+ b
  else a +:+ "/" +:+ b.

Definition RESOLVED_PLACEMENT_FILENAME : string := "resolved_placement.yaml".

Section Handoff.
Context {content : Type} (safe_dump : yaml → content) (safe_load : content → option yaml).
Context (base_logdir : string).

Notation files := (gmap string (option content)).

Definition resolved_placement_file_path (test_id : string) : string :=
  path_join (path_join base_logdir test_id) RESOLVED_PLACEMENT_FILENAME.

Definition payload (test_id : string) (region_name availability_zone : pyval) (amis : list (string * yaml)) : yaml :=
  YDict ([("test_id", YVal (VStr test_id)); ("region_name", YVal region_name);
          ("availability_zone", YVal availability_zone)] ++
         match amis with [] => [] | _ => [("amis", YDict amis)] end).

Definition write_resolved_placement (test_id : string) (region_name availability_zone : pyval)
    (amis : list (string * yaml)) (fs : files) : files :=
  <[resolved_placement_file_path test_id := Some (safe_dump (payload test_id region_name availability_zone amis))]> fs.

Definition read_resolved_placement (test_id : string) (fs : files) : option (list (string * yaml)) :=
  match fs !! resolved_placement_file_path test_id with
  | None => None
  | Some file =>
    match file ≫= safe_load with
    | None => None
    | Some data =>
      match data with
      | YDict d => if String.eqb (str_yaml (yget "test_id" d)) test_id then Some d else None
      | YVal _ => None
      end
    end
  end.

Definition persist_resolved_placement_if_changed (test_id : string) (original_region region_name : option string)
    (availability_zone : pyval) (amis : list (string * yaml)) (fs : files) : files :=
  if truthy region_name && truthy original_region && negb (bool_decide (region_name = original_region))
  then write_resolved_placement test_id (from_option VStr VNone region_name) availability_zone amis fs
  else fs.

Definition delete_resolved_placement (test_id : string) (fs : files) : files :=
  delete (resolved_placement_file_path test_id) fs.

(** ** Applying it *)

(** The parameters and the environment of the process, with [_resolved_placement_source_region]. *)
Record settings := Settings {
  prm : params;
  environ : gmap string string;
  source_region : option string;
}.

(** What the zone and region code sees of them. *)
Definition gce_view (s : settings) : GceZones.conf :=
  GceZones.Conf (prm s) (environ s !! "SCT_GCE_DATACENTER") None 0%Q.
Definition aws_view (s : settings) : AwsZones.conf :=
  AwsZones.Conf (prm s) (environ s !! "SCT_REGION_NAME") None.
Definition region_names (s : settings) : list string := AwsZones.region_names (aws_view s).

Inductive apply_error : Type := TypeError | AttributeError | ValidationError.

(** [self[k] = v]. *)
Definition set_key (k : string) (v : pyval) (s : settings) : settings :=
  Settings (<[k := v]> (prm s)) (environ s) (source_region s).

(** [os.environ[var] = v; self[key] = v]: the environment holds only strings. *)
Definition set_both (var key : string) (v : yaml) (s : settings) : outcome apply_error settings :=
  match v with
  | YVal (VStr x) => Ok (set_key key (VStr x) (Settings (prm s) (<[var := x]> (environ s)) (source_region s)))
  | _ => Err TypeError
  end.

(** [for key, value in amis.items(): self[key] = value]; a nested dictionary is not a
    value of a parameter. *)
Fixpoint set_amis (amis : list (string * yaml)) (s : settings) : outcome apply_error settings :=
  match amis with
  | [] => Ok s
  | (k, YVal v) :: amis' => set_amis amis' (set_key k v s)
  | (_, YDict _) :: _ => Err ValidationError
  end.

Definition apply_region (placement : list (string * yaml)) (s : settings) : outcome apply_error settings :=
  let original_region_list := match region_names s with [] => None | rs => Some (join " " rs) end in
  let original_first_region := head (region_names s) in
  let region_name := yget "region_name" placement in
  let amis := yget "amis" placement in
  if negb (truthy region_name) then Ok s
  else if is_str (pget "cluster_backend" (prm s)) "gce"
  then set_both "SCT_GCE_DATACENTER" "gce_datacenter" region_name s
  else
    try! s1 := set_both "SCT_REGION_NAME" "region_name" region_name s in
    if truthy amis then match amis with YDict d => set_amis d s1 | YVal _ => Err AttributeError end
    else if truthy original_region_list && negb (String.eqb (str_yaml region_name) (default EmptyString original_region_list))
    then Ok (Settings (prm s1) (environ s1) original_first_region)
    else Ok s1.

Definition _apply_resolved_placement (fs : files) (s0 : settings) : outcome apply_error settings :=
  let s := Settings (prm s0) (environ s0) None in
  if truthy (environ s !! "SCT_IGNORE_RESOLVED_PLACEMENT") then Ok s
  else
    let test_id := if truthy (pget "reuse_cluster" (prm s)) then pget "reuse_cluster" (prm s) else pget "test_id" (prm s) in
    if negb (truthy test_id) || is_str test_id "None" then Ok s
    else
      match read_resolved_placement (str_pyval test_id) fs with
      | None | Some [] => Ok s
      | Some placement =>
        try! s1 := apply_region placement s in
        let availability_zone := yget "availability_zone" placement in
        if truthy availability_zone then set_both "SCT_AVAILABILITY_ZONE" "availability_zone" availability_zone s1
        else Ok s1
      end.

(** ** The round trip *)

Definition set_amis_keys (amis : list (string * pyval)) (s : settings) : settings :=
  foldl (λ s p, set_key p.1 p.2 s) s amis.

Lemma set_amis_eq amis s : set_amis ((λ p : string * pyval, (p.1, YVal p.2)) <$> amis) s = Ok (set_amis_keys amis s).
Proof. revert s. induction amis as [|[k v] amis IH]; intros s; [done|]. simpl. apply IH. Qed.

Lemma set_amis_get amis s k :
  NoDup amis.*1 →
  pget k (prm (set_amis_keys amis s)) = from_option id (pget k (prm s)) (dict_get k amis) ∧
  environ (set_amis_keys amis s) = environ s ∧ source_region (set_amis_keys amis s) = source_region s.
Proof.
  revert s. induction amis as [|[k' v] amis IH]; intros s Hnd; [done|].
  apply NoDup_cons in Hnd as [Hk Hnd]. destruct (IH (set_key k' v s) Hnd) as (Hg & He & Hs).
  change (set_amis_keys ((k', v) :: amis) s) with (set_amis_keys amis (set_key k' v s)).
  split; [|done]. rewrite Hg. cbn [dict_get]. simpl. rewrite pget_insert.
  case_decide as Hd; [|done]. subst k'. apply dict_get_None in Hk. simpl in Hk. by rewrite Hk.
Qed.

(** The test the settings are of. *)
Definition handoff_id (s : settings) : pyval :=
  if truthy (pget "reuse_cluster" (prm s)) then pget "reuse_cluster" (prm s) else pget "test_id" (prm s).

Definition on_gce (s : settings) : bool := is_str (pget "cluster_backend" (prm s)) "gce".

Definition cluster_regions (gce : bool) (s : settings) : list string :=
  if gce then GceZones.gce_datacenters (gce_view s) else region_names s.

(** The settings read a handoff for test [t]. *)
Definition takes_handoff (t : string) (s : settings) : Prop :=
  truthy (environ s !! "SCT_IGNORE_RESOLVED_PLACEMENT") = false ∧
  handoff_id s = VStr t ∧ t ≠ EmptyString ∧ t ≠ "None".

Lemma apply_takes t fs s :
  takes_handoff t s →
  _apply_resolved_placement fs s =
  match read_resolved_placement t fs with
  | None | Some [] => Ok (Settings (prm s) (environ s) None)
  | Some placement =>
    try! s1 := apply_region placement (Settings (prm s) (environ s) None) in
    if truthy (yget "availability_zone" placement)
    then set_both "SCT_AVAILABILITY_ZONE" "availability_zone" (yget "availability_zone" placement) s1 else Ok s1
  end.
Proof.
  intros (Hi & Hid & Hne & HN). unfold _apply_resolved_placement. cbn [prm environ]. rewrite Hi.
  change (if truthy (pget "reuse_cluster" (prm s)) then _ else _) with (handoff_id s). rewrite Hid. cbn [is_str].
  destruct (String.eqb_spec t "None"); [done|]. by destruct t.
Qed.

Lemma join_words_truthy regions : regions ≠ [] → Forall word regions → truthy (join " " regions) = true.
Proof.
  intros Hne Hw. destruct (join " " regions) as [|c j] eqn:E; [|done].
  apply split_ws_join in Hw. rewrite E in Hw. by rewrite <- Hw in Hne.
Qed.

(** What applying a region list to settings changes. *)
Lemma apply_region_spec s regions az amis t d :
  regions ≠ [] → Forall word regions → NoDup amis.*1 → "region_name" ∉ amis.*1 →
  payload t (VStr (join " " regions)) az ((λ p : string * pyval, (p.1, YVal p.2)) <$> amis) = YDict d →
  ∃ s1, apply_region d s = Ok s1 ∧ cluster_regions (on_gce s) s1 = regions ∧
    (on_gce s = false → (∀ k v, (k, v) ∈ amis → pget k (prm s1) = v) ∧ (amis ≠ [] → source_region s1 = source_region s)) ∧
    (∀ k, k ∉ ["region_name"; "gce_datacenter"] ++ amis.*1 → pget k (prm s1) = pget k (prm s)).
Proof.
  intros Hne Hw Hnd Hreg Hd. unfold apply_region. injection Hd as <-.
  change (yget "region_name" _) with (YVal (VStr (join " " regions))).
  replace (yget "amis" _) with (match amis with [] => YVal VNone
    | _ => YDict ((λ p : string * pyval, (p.1, YVal p.2)) <$> amis) end) by (by destruct amis).
  change (truthy (YVal (VStr (join " " regions)))) with (truthy (join " " regions)).
  rewrite join_words_truthy by done. cbn [negb]. change (is_str (pget "cluster_backend" (prm s)) "gce") with (on_gce s).
  unfold cluster_regions. destruct (on_gce s); cbn [set_both].
  - eexists. split; [done|]. split; [|split; [done|]].
    + unfold GceZones.gce_datacenters. simpl. rewrite lookup_insert_eq. by apply split_ws_join.
    + intros k Hk. simpl. rewrite pget_insert, decide_False by set_solver. done.
  - set (s1 := set_key "region_name" _ _).
    assert (region_names s1 = regions) as H1.
    { unfold region_names, AwsZones.region_names. simpl. rewrite lookup_insert_eq. by apply split_ws_join. }
    destruct amis as [|a amis].
    + cbn [truthy truthy_yaml truthy_pyval].
      assert (∀ src, let s2 := Settings (prm s1) (environ s1) src in region_names s2 = regions) as Hs2 by done.
      destruct (_ && _); eexists; (split; [done|]); (split; [apply Hs2 || apply H1|]); (split; [set_solver|]);
        intros k Hk; simpl; rewrite pget_insert, decide_False by set_solver; done.
    + cbn iota. change (truthy (YDict _)) with true. cbn iota.
      exists (set_amis_keys (a :: amis) s1). split; [exact (set_amis_eq (a :: amis) s1)|].
      split; [|split].
      * destruct (set_amis_get (a :: amis) s1 "region_name") as (Hg & He & _); [exact Hnd|].
        unfold region_names, AwsZones.region_names, aws_view. cbn [AwsZones.env_region AwsZones.prm]. rewrite He. simpl.
        rewrite lookup_insert_eq. by apply split_ws_join.
      * intros _. split; [|intros _; by destruct (set_amis_get (a :: amis) s1 EmptyString Hnd) as (_ & _ & ->)].
        intros k v Hkv. destruct (set_amis_get (a :: amis) s1 k) as (Hg & _ & _); [done|]. rewrite Hg.
        by rewrite (dict_elem_get k v).
      * intros k Hk. destruct (set_amis_get (a :: amis) s1 k) as (Hg & _ & _); [done|]. rewrite Hg.
        rewrite (proj2 (dict_get_None k (a :: amis))) by set_solver. simpl.
        rewrite pget_insert, decide_False by set_solver. done.
Qed.

(** What a document dumped is when it is loaded. *)
Hypothesis yaml_roundtrip : ∀ y, safe_load (safe_dump y) = Some y.

Lemma read_written t r az amis fs :
  read_resolved_placement t (write_resolved_placement t r az amis fs) =
  match payload t r az amis with YDict d => Some d | YVal _ => None end.
Proof using yaml_roundtrip.
  unfold read_resolved_placement, write_resolved_placement. rewrite lookup_insert_eq. simpl.
  rewrite yaml_roundtrip. unfold yget. simpl. by rewrite String.eqb_refl.
Qed.

(** A handoff is for its test only: even when the paths coincide the guard refuses it. *)
Lemma read_other t t' r az amis fs :
  t ≠ t' →
  read_resolved_placement t' (write_resolved_placement t r az amis fs) = read_resolved_placement t' fs ∨
  read_resolved_placement t' (write_resolved_placement t r az amis fs) = None.
Proof using yaml_roundtrip.
  intros Hne. unfold read_resolved_placement, write_resolved_placement.
  destruct (decide (resolved_placement_file_path t = resolved_placement_file_path t')) as [->|Hp].
  - right. rewrite lookup_insert_eq. simpl. rewrite yaml_roundtrip. unfold yget. simpl.
    destruct (String.eqb_spec t t'); [done|]. done.
  - left. by rewrite lookup_insert_ne.
Qed.

(** Applying what was written: the zone is taken over unless it is empty. *)
Lemma apply_written fs s t regions az amis :
  takes_handoff t s → regions ≠ [] → Forall word regions → text_or_none az →
  NoDup amis.*1 → "region_name" ∉ amis.*1 → "availability_zone" ∉ amis.*1 →
  ∃ s', _apply_resolved_placement
          (write_resolved_placement t (VStr (join " " regions)) az
             ((λ p : string * pyval, (p.1, YVal p.2)) <$> amis) fs) s = Ok s' ∧
    cluster_regions (on_gce s) s' = regions ∧
    (if truthy az then pget "availability_zone" (prm s') = az ∧ ∀ a, az = VStr a → environ s' !! "SCT_AVAILABILITY_ZONE" = Some a
     else pget "availability_zone" (prm s') = pget "availability_zone" (prm s)) ∧
    (on_gce s = false → (∀ k v, (k, v) ∈ amis → pget k (prm s') = v) ∧ (amis ≠ [] → source_region s' = None)) ∧
    (∀ k, k ∉ ["region_name"; "gce_datacenter"; "availability_zone"] ++ amis.*1 → pget k (prm s') = pget k (prm s)).
Proof using yaml_roundtrip.
  intros Ht Hne Hw Haz Hnd Hr Ha. rewrite (apply_takes t) by done. rewrite read_written.
  destruct (payload t _ _ _) as [v|d] eqn:Ed; [done|].
  assert (yget "availability_zone" d = YVal az) as Hy by (by injection Ed as <-).
  destruct (apply_region_spec (Settings (prm s) (environ s) None) regions az amis t d) as (s1 & Hs1 & Hc & Hm & Hk);
    [done..|].
  destruct d as [|p d']; [done|]. set (d := p :: d') in *. rewrite Hs1, Hy.
  change (truthy (YVal az)) with (truthy az).
  change (on_gce (Settings (prm s) (environ s) None)) with (on_gce s) in *.
  destruct (truthy az) eqn:Etr.
  2:{ exists s1. split_and!; [done|done| |done|]; [apply Hk; set_solver|]. intros k Hkk. apply Hk. set_solver. }
  destruct Haz as [->|[a ->]]; [done|]. eexists. split; [done|]. split_and!.
  - rewrite <-Hc. unfold cluster_regions. destruct (on_gce s).
    + unfold GceZones.gce_datacenters. simpl. rewrite lookup_insert_ne, pget_insert, decide_False by done. done.
    + unfold region_names, AwsZones.region_names. simpl. rewrite lookup_insert_ne, pget_insert, decide_False by done. done.
  - simpl. by rewrite pget_insert, decide_True.
  - intros a' [= <-]. simpl. by rewrite lookup_insert_eq.
  - intros Hg. destruct (Hm Hg) as [H1 H2]. split; [|done]. intros k v Hkv. simpl. rewrite pget_insert, decide_False; [by apply H1|].
    intros ->. apply Ha. by apply (list_elem_of_fmap_2 fst) in Hkv.
  - intros k Hkk. simpl. rewrite pget_insert, decide_False by set_solver. apply Hk. set_solver.
Qed.

(** C29. The test run takes over the placement the provisioning chose: a configuration of the
    same test, loaded in another process, that applies the handoff written for regions, zones
    and machine images has exactly those regions, those zones (in the environment, too) and,
    outside GCE, those images, with nothing left to translate between regions; every other
    parameter keeps its value. *)
Theorem handoff_roundtrip fs s t regions az amis :
  takes_handoff t s → regions ≠ [] → Forall word regions → az ≠ EmptyString →
  NoDup amis.*1 → "region_name" ∉ amis.*1 → "availability_zone" ∉ amis.*1 →
  ∃ s', _apply_resolved_placement
          (write_resolved_placement t (VStr (join " " regions)) (VStr az)
             ((λ p : string * pyval, (p.1, YVal p.2)) <$> amis) fs) s = Ok s' ∧
    cluster_regions (on_gce s) s' = regions ∧
    pget "availability_zone" (prm s') = VStr az ∧ environ s' !! "SCT_AVAILABILITY_ZONE" = Some az ∧
    (on_gce s = false → (∀ k v, (k, v) ∈ amis → pget k (prm s') = v) ∧ (amis ≠ [] → source_region s' = None)) ∧
    (∀ k, k ∉ ["region_name"; "gce_datacenter"; "availability_zone"] ++ amis.*1 → pget k (prm s') = pget k (prm s)).
Proof using yaml_roundtrip.
  intros Ht Hne Hw Haz Hnd Hr Ha.
  destruct (apply_written fs s t regions (VStr az) amis) as (s' & Hs & Hc & Hz & Hrest); try done; [right; by exists az|].
  exists s'. destruct az as [|c az]; [done|]. destruct Hz as [Hz He]. split_and!; [done|done|done|by apply He|apply Hrest..].
Qed.
End Handoff.

(** ** Witnesses *)

(** Files that hold the document itself. *)
Definition ex_load (y : yaml) : option yaml := Some y.
Definition ex_run : settings :=
  Settings (<["cluster_backend" := VStr "aws"]> (<["test_id" := VStr "0f3c"]> (<["region_name" := VStr "eu-west-1"]> ∅))) ∅ None.

(** A cluster relocated to us-east-1 and us-west-2. *)
Lemma handoff_roundtrip_witness :
  ∃ s', _apply_resolved_placement ex_load "/sct"
          (write_resolved_placement id "/sct" "0f3c" (VStr "us-east-1 us-west-2") (VStr "a,b")
             [("ami_id_db_scylla", YVal (VStr "ami-1"))] ∅) ex_run = Ok s' ∧
    region_names s' = ["us-east-1"; "us-west-2"] ∧ pget "ami_id_db_scylla" (prm s') = VStr "ami-1".
Proof.
  destruct (handoff_roundtrip id ex_load "/sct" (λ _, eq_refl) ∅ ex_run "0f3c" ["us-east-1"; "us-west-2"] "a,b"
    [("ami_id_db_scylla", VStr "ami-1")]) as (s' & H1 & H2 & _ & _ & H3 & _).
  - repeat split; try discriminate.
  - discriminate.
  - repeat constructor; discriminate.
  - discriminate.
  - apply NoDup_singleton.
  - apply (bool_decide_unpack _). vm_compute. exact I.
  - apply (bool_decide_unpack _). vm_compute. exact I.
  - exists s'. split; [exact H1|]. split; [exact H2|]. apply H3; [reflexivity|]. apply list_elem_of_here.
Defined.
End Placement.
