(* ===== verification/AwsFallback.v ===== *)
(** * AWS capacity fallback

    Model of [sdcm/provision/aws/region_fallback.py], [sdcm/provision/aws/capacity_errors.py],
    of the fallback loops of [SCTProvisionAWSLayout] ([sdcm/sct_provision/aws/layout.py]) and
    of [SCTConfiguration.resolve_amis] ([sdcm/sct_config/config.py]).

    The state is the configuration, which the loops relocate, with the cloud: everything
    provisioning and cleaning up change. Provisioning, clean-up and the lookups of machine
    images are arguments. Provisioning of the whole cluster may change the configuration, as
    reserving capacity does; clean-up, and provisioning with several DCs, for which reservations
    are refused, only read it. The attribute [target_db_image_ids] of the configuration is kept
    among its parameters. *)
From Stdlib Require Import Ascii QArith.
From stdpp Require Import base decidable option strings numbers gmap sets list.
From S2P Require Import Prelude.
From S2P Require Import PyString.
From S2P Require Import PyVal.
From S2P Require Import PyDict.
From S2P Require Import Effects.
From S2P Require Import RegionFallback.
From S2P Require Import GceZones.
From S2P Require Import SpotScores.
From S2P Require Import AwsZones.
Local Open Scope py_scope.

Module AwsFallback.
Import RegionFallback SpotScores AwsZones.

(** ** Errors *)

(** A [ClientError] has a code and a text; errors carry the region they were tagged with. *)
Inductive aexn : Type :=
  | ClientError (code text : string) (failed_region : option string)
  | ProvisioningCapacityExhausted (failed_region : option string)
  | CapacityReservationError
  | RegionAMINotFoundError
  | NoValidAvailabilityZone
  | ValueError
  | RuntimeError
  | OtherException
  | NonException.

Definition is_exception (x : aexn) : bool := match x with NonException => false | _ => true end.

Definition CAPACITY_ERROR_CODES : list string :=
  ["InsufficientInstanceCapacity"; "Unsupported"; "InsufficientCapacity"].

Definition is_letter (c : ascii) : bool := char_in "A" "Z" c || char_in "a" "z" c.

Fixpoint span_letters (s : string) : string * string :=
  match s with
  | String c s' => if is_letter c then let '(a, b) := span_letters s' in (String c a, b) else (EmptyString, s)
  | EmptyString => (EmptyString, EmptyString)
  end.

(** [re.findall(r"An error occurred \(([A-Za-z]+)\)", s)]. *)
Fixpoint find_codes (fuel : nat) (s : string) : list string :=
  match fuel, s with
  | S fuel', String c s' =>
    let prefix := "An error occurred (" in
    if startswith prefix s then
      let '(code, rest) := span_letters (str_drop (String.length prefix) s) in
      if truthy code && startswith ")" rest then code :: find_codes fuel' (str_drop 1 rest)
      else find_codes fuel' s'
    else find_codes fuel' s'
  | _, _ => []
  end.

Definition is_capacity_error (x : aexn) : bool :=
  match x with
  | ClientError code text _ =>
    existsb (λ c, bool_decide (c ∈ CAPACITY_ERROR_CODES)) (code :: find_codes (String.length text) text)
  | _ => false
  end.

Definition attach_failed_region (region : option string) (x : aexn) : aexn :=
  match x with
  | ClientError code text _ => ClientError code text region
  | ProvisioningCapacityExhausted _ => ProvisioningCapacityExhausted region
  | _ => x
  end.

Definition get_failed_region (x : aexn) : option string :=
  match x with
  | ClientError _ _ r | ProvisioningCapacityExhausted r => r
  | _ => None
  end.

(** [except (ClientError, ProvisioningCapacityExhausted)] that does not re-raise. *)
Definition is_exhaustion (x : aexn) : bool :=
  match x with
  | ClientError _ _ _ => is_capacity_error x
  | ProvisioningCapacityExhausted _ => true
  | _ => false
  end.

(** ** Machine images *)
Definition AMI_ID_PARAMS : list string :=
  ["ami_id_db_scylla"; "ami_id_loader"; "ami_id_monitor"; "ami_id_db_cassandra"; "ami_id_db_oracle";
   "ami_id_vector_store"].

Lemma region_name_not_ami : "region_name" ∉ AMI_ID_PARAMS.
Proof. apply (bool_decide_unpack _). by vm_compute. Qed.

Lemma aws_supported_regions_words r : r ∈ AWS_SUPPORTED_REGIONS → word r.
Proof.
  intros Hr. assert (Forall (λ w, bool_decide (w ≠ EmptyString) && no_space w = true) AWS_SUPPORTED_REGIONS) as Hw
    by (apply (bool_decide_unpack _); by vm_compute).
  rewrite Forall_forall in Hw. apply Hw in Hr as [H1 H2]%andb_true_iff. by apply bool_decide_eq_true in H1.
Qed.

(** ** Regions tried *)
Fixpoint index_of (r : string) (l : list string) : option nat :=
  match l with
  | [] => None
  | x :: l' => if String.eqb x r then Some 0 else S <$> index_of r l'
  end.

(** [tried_by_dc] as the pairs of a DC and a region it tried. *)
Definition tried_regions := gset (nat * string).

Definition all_pairs (n : nat) : tried_regions :=
  list_to_set (i ← seq 0 n; (λ r, (i, r)) <$> AWS_SUPPORTED_REGIONS).

Lemma elem_of_all_pairs n i r : (i, r) ∈ all_pairs n ↔ (i < n)%nat ∧ r ∈ AWS_SUPPORTED_REGIONS.
Proof.
  unfold all_pairs. rewrite elem_of_list_to_set, list_elem_of_bind. setoid_rewrite list_elem_of_fmap.
  setoid_rewrite elem_of_seq. split.
  - intros (j & (r' & [= -> ->] & ?) & ?). split; [lia|done].
  - intros [? ?]. exists i. split; [by exists r|lia].
Qed.

(** What a relocation leaves to try. *)
Definition untried (n : nat) (tried : tried_regions) : nat := size (all_pairs n ∖ tried).

Lemma untried_add n tried p :
  p ∈ all_pairs n → p ∉ tried → (untried n (tried ∪ {[p]}) < untried n tried)%nat.
Proof.
  unfold untried. generalize (all_pairs n) as all. intros all Hp Ht. apply subset_size. split; [set_solver|].
  intros Hsub. assert (p ∈ all ∖ (tried ∪ {[p]})) by (apply Hsub; set_solver). set_solver.
Qed.

Lemma untried_mono n tried tried' : tried ⊆ tried' → (untried n tried' <= untried n tried)%nat.
Proof. unfold untried. generalize (all_pairs n) as all. intros all Ht. apply subseteq_size. set_solver. Qed.

Lemma untried_le n tried : (untried n tried <= size (all_pairs n))%nat.
Proof. unfold untried. generalize (all_pairs n) as all. intros all. apply subseteq_size. set_solver. Qed.

Lemma all_pairs_size n : (size (all_pairs n) <= n * length AWS_SUPPORTED_REGIONS)%nat.
Proof.
  unfold all_pairs. set (l := seq 0 n ≫= _).
  assert (length l = n * length AWS_SUPPORTED_REGIONS)%nat as <-.
  { unfold l. clear l. generalize 0%nat as k. induction n as [|n IH]; intros k; [done|].
    cbn [seq mbind list_bind]. rewrite length_app, length_fmap. cbn [Nat.mul]. f_equal. apply IH. }
  unfold size, set_size. cbn. apply submseteq_length, NoDup_submseteq; [apply NoDup_elements|].
  intros p. by rewrite elem_of_elements, elem_of_list_to_set.
Qed.

Lemma index_of_lt r l i : index_of r l = Some i → (i < length l)%nat ∧ l !! i = Some r.
Proof.
  revert i. induction l as [|x l IH]; intros i; cbn; [done|].
  destruct (String.eqb_spec x r) as [->|]; [intros [= <-]; split; [lia|done]|].
  destruct (index_of r l) as [j|]; [|done]. intros [= <-]. destruct (IH j eq_refl). split; [lia|done].
Qed.

Section Fallback.
Context {W : Type}.
(** [_ami_params_snapshot], [convert_name_to_ami_if_needed] and [find_equivalent_ami]. *)
Context (intent : string → option string).
Context (convert_name : string → list string → outcome aexn string).
Context (find_equivalent_ami : string → string → list string → outcome aexn (list string)).

Record state := State { sconf : conf; cloud : W }.
Notation action := (act state aexn).

Definition on_conf (f : conf → conf) : action unit := modify (λ s, State (f (sconf s)) (cloud s)).
Definition set_param (k : string) (v : pyval) : action unit := on_conf (AwsZones.set_param k v).
Definition set_env_region (e : option string) : action unit :=
  on_conf (λ c, Conf (prm c) e (explicit_az c)).
Definition conf_get (k : string) : action pyval := gets (λ s, pget k (prm (sconf s))).
Definition lift {A} (r : outcome aexn A) : action A := λ s, (s, r).
Definition on_cloud {A} (f : conf → W → W * outcome aexn A) : action A :=
  λ s, let '(w, r) := f (sconf s) (cloud s) in (State (sconf s) w, r).

(** The images of the words of [value] in the regions, in order. *)
Fixpoint remap_words (amis : list string) (source_region region : string) : outcome aexn (list string) :=
  match amis with
  | [] => Ok []
  | a :: amis' =>
    try! matches := find_equivalent_ami a source_region [region] in
    match matches with
    | [] => Err RegionAMINotFoundError
    | m :: _ => try! rest := remap_words amis' source_region region in Ok (m :: rest)
    end
  end.

Fixpoint remap_regions (amis : list string) (source_region : string) (regions : list string)
    : outcome aexn (list string) :=
  match regions with
  | [] => Ok []
  | r :: regions' =>
    try! a := remap_words amis source_region r in
    try! b := remap_regions amis source_region regions' in
    Ok (a ++ b)
  end.

Definition _remap_amis_to_regions (value source_region : string) (regions : list string) : outcome aexn string :=
  try! remapped := remap_regions (split_ws value) source_region regions in
  Ok (join " " remapped).

(** The body of the loop over the image parameters. *)
Definition resolve_ami (regions : list string) (source_region : option string) (key : string) : action unit :=
  let! current := conf_get key in
  let by_id :=
    match current, source_region with
    | VStr value, Some source =>
      if truthy value && truthy source then
        let! v := lift (_remap_amis_to_regions value source regions) in set_param key (VStr v)
      else ret tt
    | _, _ => ret tt
    end in
  match intent key with
  | Some original =>
    if negb (truthy original) then by_id
    else match split_ws original with
         | [] => raise OtherException
         | w :: _ =>
           if startswith "ami-" w then by_id
           else let! v := lift (convert_name original regions) in set_param key (VStr v)
         end
  | None => by_id
  end.

Fixpoint remap_each (values : list string) (source : string) (regions : list string)
    : outcome aexn (list pyval) :=
  match values with
  | [] => Ok []
  | v :: values' =>
    try! a := _remap_amis_to_regions v source regions in
    try! rest := remap_each values' source regions in
    Ok (VStr a :: rest)
  end.

Definition resolve_amis (regions : list string) (source_region : option string) : action unit :=
  let! backend := conf_get "cluster_backend" in
  if negb (is_str backend "aws") then ret tt
  else
    for_each AMI_ID_PARAMS (resolve_ami regions source_region) ;;;
    let! targets := conf_get "target_db_image_ids" in
    match targets, source_region with
    | VList (_ :: _ as l), Some source =>
      if truthy source then
        let! l' := lift (remap_each (GceZones.str_items l) source regions) in set_param "target_db_image_ids" (VList l')
      else ret tt
    | _, _ => ret tt
    end.

(** ** Relocating *)
Context (invalidate_caches : W → W) (reset_reservations : W → W).

Definition enforce_single_region_gate : action unit :=
  let! regions := gets (λ s, region_names (sconf s)) in
  if (length regions =? 1)%nat then ret tt else raise ValueError.

Definition enforce_multi_dc_fallback_supported : action unit :=
  let! reservation := conf_get "use_capacity_reservation" in
  let! host := conf_get "use_dedicated_host" in
  if truthy reservation || truthy host then raise ValueError else ret tt.

Definition switch_region (region : string) (az_letters : list string) (source_region : option string) : action unit :=
  resolve_amis [region] source_region ;;;
  set_env_region (Some region) ;;;
  set_param "region_name" (VStr region) ;;;
  set_param "availability_zone" (VStr (join "," az_letters)) ;;;
  on_cloud (λ _ w, (invalidate_caches w, Ok tt)) ;;;
  on_cloud (λ _ w, (reset_reservations w, Ok tt)).

Definition _resolve_relocated_ami (original_intent : option string) (current_ami : string) (dc_index region_count : nat)
    (source_region target_region : string) : outcome aexn string :=
  let tokens := split_ws (default EmptyString original_intent) in
  match tokens with
  | w :: _ =>
    if negb (startswith "ami-" w) then
      let name := if (length tokens =? region_count)%nat then default EmptyString (tokens !! dc_index) else w in
      match convert_name name [target_region] with
      | Err ValueError => Err RegionAMINotFoundError
      | Err x => Err x
      | Ok value =>
        match split_ws value with
        | a :: _ => if startswith "ami-" a then Ok a else Err RegionAMINotFoundError
        | [] => Err RegionAMINotFoundError
        end
      end
    else
      try! matches := find_equivalent_ami current_ami source_region [target_region] in
      match matches with [] => Err RegionAMINotFoundError | m :: _ => Ok m end
  | [] =>
    try! matches := find_equivalent_ami current_ami source_region [target_region] in
    match matches with [] => Err RegionAMINotFoundError | m :: _ => Ok m end
  end.

(** The loop that collects the new values; nothing is written yet. *)
Fixpoint pending_amis (c : conf) (keys : list string) (dc_index : nat) (source_region target_region : string)
    : outcome aexn (list (string * string)) :=
  match keys with
  | [] => Ok []
  | key :: keys' =>
    match pget key (prm c) with
    | VStr value =>
      if negb (truthy value) then pending_amis c keys' dc_index source_region target_region
      else
        let amis := split_ws value in
        let region_count := length (region_names c) in
        if negb ((length amis =? 1)%nat || (length amis =? region_count)%nat) then Err ValueError
        else
          match amis !! dc_index with
          | None => pending_amis c keys' dc_index source_region target_region
          | Some ami =>
            try! new := _resolve_relocated_ami (intent key) ami dc_index region_count source_region target_region in
            try! rest := pending_amis c keys' dc_index source_region target_region in
            Ok ((key, join " " (<[dc_index := new]> amis)) :: rest)
          end
    | _ => pending_amis c keys' dc_index source_region target_region
    end
  end.

Definition remap_dc_ami (dc_index : nat) (source_region target_region : string) : action unit :=
  let! c := gets sconf in
  let! pending := lift (pending_amis c AMI_ID_PARAMS dc_index source_region target_region) in
  for_each pending (λ p, set_param p.1 (VStr p.2)).

Definition switch_dc_region (dc_index : nat) (region source_region : string) : action unit :=
  remap_dc_ami dc_index source_region region ;;;
  let! regions := gets (λ s, region_names (sconf s)) in
  let joined := join " " (<[dc_index := region]> regions) in
  set_env_region (Some joined) ;;;
  set_param "region_name" (VStr joined) ;;;
  on_cloud (λ _ w, (invalidate_caches w, Ok tt)).

Definition restore_region (region : option string) (availability_zone : pyval) (env_region : option string)
    : action unit :=
  set_env_region env_region ;;;
  (match region with Some r => set_param "region_name" (VStr r) | None => ret tt end) ;;;
  set_param "availability_zone" availability_zone.

(** ** Provisioning with fallback *)
Context (offerings : string → list string → outcome aexn (list (string * string))).
Context (peering_code : string → string → option string).
Context (page : list string → Z → bool → list string → option string → option (list entry * option string)).
Context (az_ids : string → option (list (string * string))) (max_pages : nat).
(** [_do_provision], [_cleanup_partial_provision], the sweep of an abandoned region and
    [_clear_cluster_caches]. *)
Context (do_provision : action unit).
Context (cleanup_partial_provision : conf → W → W * outcome aexn unit).
Context (sweep_region : string → W → W * outcome aexn unit) (clear_cluster_caches : W → W).

(** [SCTCapacityReservation.is_capacity_reservation_enabled]. *)
Definition is_capacity_reservation_enabled (p : params) : bool :=
  let single_dc := match pget "n_db_nodes" p with
                   | VList l => (length l =? 1)%nat
                   | _ => false
                   end in
  let simulated := match pget "simulated_regions" p with VInt z => (0 <? z)%Z | _ => false end in
  is_str (pget "cluster_backend" p) "aws" && truthy (pget "test_id" p) && negb (truthy (pget "reuse_cluster" p)) &&
  match pget "use_capacity_reservation" p with VBool b => b | _ => false end &&
  is_str (pget "instance_provision" p) "on_demand" && (single_dc || simulated).

Definition zone_error (x : zone_exn aexn) : aexn :=
  match x with AwsZones.NoValidAvailabilityZoneError => NoValidAvailabilityZone | ApiRaised e => e end.

Definition resolve_az : action unit :=
  λ s, match resolve offerings page az_ids max_pages (sconf s) with
       | Ok c => (State c (cloud s), Ok tt)
       | Err x => (s, Err (zone_error x))
       end.

Definition fallback_candidates : action (list (list string)) :=
  λ s, match get_fallback_candidates offerings page az_ids max_pages (sconf s) with
       | Ok l => (s, Ok l)
       | Err x => (s, Err (zone_error x))
       end.

(** The loop over the zones; [first] is [attempt_idx == 0]. *)
Fixpoint az_attempts (candidates : list (list string)) (first : bool) (last_error : option aexn)
    : action (bool * option aexn) :=
  match candidates with
  | [] => ret (true, last_error)
  | candidate :: rest =>
    set_param "availability_zone" (VStr (join "," candidate)) ;;;
    (if first then ret tt else on_cloud (λ _ w, (clear_cluster_caches w, Ok tt))) ;;;
    let! r := caught do_provision in
    match r with
    | Ok _ => ret (false, last_error)
    | Err x =>
      if is_exhaustion x then on_cloud cleanup_partial_provision ;;; az_attempts rest false (Some x)
      else raise x
    end
  end.

Definition _provision_az_loop (candidates : list (list string)) : action (bool * option aexn) :=
  let! original_az := conf_get "availability_zone" in
  let! r := az_attempts candidates true None in
  (if r.1 : bool then set_param "availability_zone" original_az else ret tt) ;;;
  ret r.

Definition _provision_capacity_aware : action (bool * option aexn) :=
  let! r := caught do_provision in
  match r with
  | Ok _ => ret (false, None)
  | Err x => if is_exhaustion x then ret (true, Some x) else raise x
  end.

Definition _attempt_region : action (bool * option aexn) :=
  resolve_az ;;;
  let! p := gets (λ s, prm (sconf s)) in
  if is_capacity_reservation_enabled p then
    let! r := caught do_provision in
    match r with
    | Ok _ => ret (false, None)
    | Err CapacityReservationError => ret (true, Some CapacityReservationError)
    | Err x => if is_exhaustion x then ret (true, Some x) else raise x
    end
  else if negb (is_az_fallback_enabled p) then _provision_capacity_aware
  else
    let! candidates := fallback_candidates in
    match candidates with
    | [] => _provision_capacity_aware
    | _ => _provision_az_loop candidates
    end.

(** [_provision_once]: no relocation to another region. *)
Definition _provision_once : action unit :=
  resolve_az ;;;
  let! p := gets (λ s, prm (sconf s)) in
  if is_capacity_reservation_enabled p || negb (is_az_fallback_enabled p) then do_provision
  else
    let! candidates := fallback_candidates in
    match candidates with
    | [] => do_provision
    | _ => let! r := _provision_az_loop candidates in
           if r.1 : bool then raise RuntimeError else ret tt
    end.

Definition cleanup_region (region : option string) : action unit :=
  on_cloud cleanup_partial_provision ;;;
  match region with
  | Some r => if truthy r then on_cloud (λ _, sweep_region r) else ret tt
  | None => ret tt
  end.

Definition _relocate_to_preferred_spot_region : action unit :=
  let! c := gets sconf in
  let! preferred := lift (get_preferred_spot_region offerings peering_code page az_ids max_pages c) in
  match preferred with
  | None => ret tt
  | Some (target_region, az_letters) =>
    try_except is_exception (switch_region target_region az_letters (head (region_names c))) (λ _, ret tt)
  end.

Section Relocations.
(** What is put back when the fallback gives up. *)
Context (original_region : option string) (original_az : pyval) (original_env_region : option string).

Definition give_back : action unit := restore_region original_region original_az original_env_region.

(** One attempt in the region the configuration names; [next] goes on after an exhausted one. *)
Definition attempt_then (source_region : option string) (next : action unit) : action unit :=
  let! r := caught _attempt_region in
  match r with
  | Err x => (if is_exception x then give_back else ret tt) ;;; raise x
  | Ok (region_exhausted, _) =>
    if region_exhausted : bool then cleanup_region source_region ;;; next else ret tt
  end.

Fixpoint region_attempts (candidates : list candidate) (source_region : option string) : action unit :=
  match candidates with
  | [] => give_back ;;; raise RuntimeError
  | (target_region, az_letters) :: rest =>
    let! r := caught (switch_region target_region az_letters source_region) in
    match r with
    | Ok _ => attempt_then (Some target_region) (region_attempts rest (Some target_region))
    | Err RegionAMINotFoundError => region_attempts rest source_region
    | Err x => raise x
    end
  end.
End Relocations.

Definition _provision_with_region_fallback : action unit :=
  enforce_single_region_gate ;;;
  let! c := gets sconf in
  let original_region := head (region_names c) in
  _relocate_to_preferred_spot_region ;;;
  let! c1 := gets sconf in
  let source_region := match region_names c1 with [] => original_region | r :: _ => Some r end in
  let! candidates := lift (get_region_fallback_candidates offerings peering_code page az_ids max_pages c1) in
  attempt_then original_region (pget "availability_zone" (prm c)) (env_region c) source_region
    (region_attempts original_region (pget "availability_zone" (prm c)) (env_region c) candidates source_region).

(** ** Several data centers *)
(** Provisioning of the placement group and of the pre-flight probe, of the DB cluster but the
    regions that are done, of the other clusters; the clean-up of one region; and the
    instances there are, by region. *)
Context (provision_first provision_others : conf → W → W * outcome aexn unit).
Context (has_db_cluster : W → bool).
Context (provision_db : gset nat → conf → W → W * outcome aexn unit).
Context (cleanup_dc_region : string → conf → W → W * outcome aexn unit).
Context (instance_regions : W → list (option string)).

Definition _completed_db_region_ids (c : conf) (w : W) : gset nat :=
  list_to_set (omap (λ o, r ← o; index_of r (region_names c)) (instance_regions w)).

Fixpoint relocate_to (dc_index : nat) (failed_region : string) (targets : list string) (tried : tried_regions)
    : action tried_regions :=
  match targets with
  | [] => raise RuntimeError
  | target :: rest =>
    let tried := tried ∪ {[(dc_index, target)]} in
    let! r := caught (switch_dc_region dc_index target failed_region) in
    match r with
    | Ok _ => ret tried
    | Err RegionAMINotFoundError => relocate_to dc_index failed_region rest tried
    | Err x => raise x
    end
  end.

Definition _relocate_failed_db_dc (x : aexn) (tried : tried_regions) : action tried_regions :=
  let! c := gets sconf in
  match get_failed_region x ≫= λ r, (λ i, (r, i)) <$> index_of r (region_names c) with
  | None => raise x
  | Some (failed_region, dc_index) =>
    on_cloud (cleanup_dc_region failed_region) ;;;
    let tried := tried ∪ {[(dc_index, failed_region)]} in
    let! c := gets sconf in
    let! found := lift (get_dc_fallback_candidates offerings peering_code page az_ids max_pages dc_index c) in
    relocate_to dc_index failed_region (filter (λ r, (dc_index, r) ∉ tried) found.*1) tried
  end.

(** The [while True] loop; [None] when [fuel] rounds were not enough. *)
Fixpoint db_rounds (fuel : nat) (tried : tried_regions) : action (option unit) :=
  match fuel with
  | O => ret None
  | S fuel' =>
    let! r := caught (on_cloud (λ c w, provision_db (_completed_db_region_ids c w) c w)) in
    match r with
    | Ok _ => ret (Some tt)
    | Err x =>
      if is_exhaustion x then
        let! tried' := _relocate_failed_db_dc x tried in db_rounds fuel' tried'
      else raise x
    end
  end.

Definition _provision_db_with_dc_fallback (fuel : nat) : action (option unit) :=
  let! db := gets (λ s, has_db_cluster (cloud s)) in
  if negb db then ret (Some tt) else db_rounds fuel ∅.

Definition _restore_region_names (names : list string) (availability_zone : pyval) (env_region : option string)
    : action unit :=
  set_env_region env_region ;;;
  set_param "region_name" (VStr (join " " names)) ;;;
  set_param "availability_zone" availability_zone.

Definition _provision_with_multi_dc_fallback (fuel : nat) : action (option unit) :=
  enforce_multi_dc_fallback_supported ;;;
  let! c := gets sconf in
  try_except is_exception
    (resolve_az ;;;
     on_cloud provision_first ;;;
     let! r := _provision_db_with_dc_fallback fuel in
     match r with
     | None => ret None
     | Some _ => on_cloud provision_others ;;; ret (Some tt)
     end)
    (λ x, _restore_region_names (region_names c) (pget "availability_zone" (prm c)) (env_region c) ;;; raise x).

(** [provision] of the layout. *)
Definition provision (fuel : nat) : action (option unit) :=
  let! c := gets sconf in
  if is_region_fallback_enabled (prm c) then
    if (1 <? length (region_names c))%nat then _provision_with_multi_dc_fallback fuel
    else _provision_with_region_fallback ;;; ret (Some tt)
  else _provision_once ;;; ret (Some tt).

(** ** The placement *)
Definition placement (c : conf) : list string * pyval * option string :=
  (region_names c, pget "availability_zone" (prm c), env_region c).

Lemma region_names_words c : Forall word (region_names c).
Proof.
  unfold region_names. destruct (env_region c); [apply split_ws_words|].
  destruct (pget "region_name" (prm c)); try constructor; [apply split_ws_words|].
  apply Forall_concat, Forall_fmap, Forall_forall. intros s _. apply split_ws_words.
Qed.

(** Writing the original names back gives the original placement. *)
Lemma placement_restored c c' :
  env_region c' = env_region c → pget "region_name" (prm c') = VStr (join " " (region_names c)) →
  pget "availability_zone" (prm c') = pget "availability_zone" (prm c) → placement c' = placement c.
Proof.
  intros He Hr Ha. unfold placement. rewrite He, Ha. f_equal. f_equal.
  pose proof (region_names_words c) as Hw. unfold region_names at 1. rewrite He, Hr.
  destruct (env_region c) as [e|] eqn:Ee; [unfold region_names; by rewrite Ee|]. by apply split_ws_join.
Qed.

Lemma restore_region_placement c r s :
  region_names c = [r] →
  placement (sconf (restore_region (Some r) (pget "availability_zone" (prm c)) (env_region c) s).1) = placement c.
Proof.
  intros Hr. apply placement_restored; [done| |]; cbn; unfold pget at 1.
  - rewrite lookup_insert_ne, lookup_insert_eq by done. by rewrite Hr.
  - by rewrite lookup_insert_eq.
Qed.

Lemma restore_names_placement c s :
  placement (sconf (_restore_region_names (region_names c) (pget "availability_zone" (prm c)) (env_region c) s).1) =
  placement c.
Proof.
  apply placement_restored; [done| |]; cbn; unfold pget at 1.
  - by rewrite lookup_insert_ne, lookup_insert_eq by done.
  - by rewrite lookup_insert_eq.
Qed.

(** ** One region *)
Section OneRegion.
Context (c0 : conf) (region : string).
Hypothesis one_region : region_names c0 = [region].
Hypothesis cleanup_raises_no_exception :
  (∀ c w x, (cleanup_partial_provision c w).2 = Err x → is_exception x = false) ∧
  ∀ r w x, (sweep_region r w).2 = Err x → is_exception x = false.
Hypothesis switches_lack_images : ∀ r letters source s x,
  (switch_region r letters source s).2 = Err x → x = RegionAMINotFoundError ∨ is_exception x = false.

Definition restores (m : action unit) : Prop :=
  ∀ s x, (m s).2 = Err x → is_exception x = true → placement (sconf (m s).1) = placement c0.

Lemma cleanup_region_err r s x : (cleanup_region r s).2 = Err x → is_exception x = false.
Proof using cleanup_raises_no_exception.
  destruct cleanup_raises_no_exception as [H1 H2]. unfold cleanup_region, bind, on_cloud.
  specialize (H1 (sconf s) (cloud s)). destruct (cleanup_partial_provision _ _) as [w [|y]].
  - destruct r as [r|]; [|done]. case_match; [|done]. cbn. specialize (H2 r w).
    destruct (sweep_region r w) as [w' [|y]]; [done|]. apply H2.
  - apply H1.
Qed.

Lemma attempt_then_restores source next :
  restores next →
  restores (attempt_then (Some region) (pget "availability_zone" (prm c0)) (env_region c0) source next).
Proof using one_region cleanup_raises_no_exception.
  intros Hnext s x. unfold attempt_then, bind, caught.
  destruct (_attempt_region s) as [s1 [[[] e]|y]].
  - pose proof (cleanup_region_err source s1) as Hc. destruct (cleanup_region source s1) as [s2 [|y]]; [apply Hnext|].
    intros [= ->] Hx. by rewrite (Hc x eq_refl) in Hx.
  - done.
  - destruct (is_exception y) eqn:Hy; cbn [ret]; unfold raise.
    + intros [= ->] _. by apply restore_region_placement.
    + intros [= ->]. congruence.
Qed.

Lemma region_attempts_restores candidates source :
  restores (region_attempts (Some region) (pget "availability_zone" (prm c0)) (env_region c0) candidates source).
Proof using one_region cleanup_raises_no_exception switches_lack_images.
  revert source. induction candidates as [|[target letters] rest IH]; intros source s x; cbn [region_attempts].
  { unfold bind, raise, give_back. intros _ _. by apply restore_region_placement. }
  unfold bind, caught. pose proof (switches_lack_images target letters source s) as Hsw.
  destruct (switch_region target letters source s) as [s1 [u|y]].
  - by apply attempt_then_restores.
  - destruct (Hsw y eq_refl) as [->|Hy]; [apply IH|].
    destruct y; try done. intros [= <-]. done.
Qed.
End OneRegion.

Lemma no_margin_no_relocation s :
  (int_param (pget "spot_score_region_relocation_margin" (prm (sconf s))) <= 0)%Z →
  _relocate_to_preferred_spot_region s = (s, Ok tt).
Proof using Type.
  intros Hm. unfold _relocate_to_preferred_spot_region, bind, gets, lift, get_preferred_spot_region.
  destruct (_region_names (sconf s)) as [|r [|? ?]], (scored_instance_types (prm (sconf s))); try done.
  by rewrite (proj2 (Z.leb_le _ _) Hm).
Qed.

(** An upfront relocation that raises an Exception raises it before anything is changed. *)
Lemma spot_relocation_err s s1 x :
  _relocate_to_preferred_spot_region s = (s1, Err x) → is_exception x = true → s1 = s.
Proof using Type.
  unfold _relocate_to_preferred_spot_region, bind, gets, lift.
  destruct (get_preferred_spot_region _ _ _ _ _ _) as [[[t ls]|]|y]; [|done|by intros [= <- _]].
  unfold try_except. destruct (switch_region t ls _ s) as [s2 [|y]]; [done|].
  destruct (is_exception y) eqn:Hy; [done|]. intros [= _ ->]. congruence.
Qed.

(** C6. AWS region fallback puts the placement back. Clean-ups raise no Exception, a relocation
    can only fail for the lack of an image, and either upfront spot relocation is off or the
    candidate regions can be listed after it; provisioning may fail in any way and change the
    configuration. Then whatever Exception ends the fallback (the gate, a lookup of offerings,
    an error of provisioning, all regions exhausted), region, zones and the environment override
    are those configured at the start. *)
Theorem aws_region_fallback_restores s x :
  (∀ c w y, (cleanup_partial_provision c w).2 = Err y → is_exception y = false) ∧
  (∀ r w y, (sweep_region r w).2 = Err y → is_exception y = false) →
  (∀ r letters source s x, (switch_region r letters source s).2 = Err x →
     x = RegionAMINotFoundError ∨ is_exception x = false) →
  (int_param (pget "spot_score_region_relocation_margin" (prm (sconf s))) <= 0)%Z ∨
  (∀ c y, get_region_fallback_candidates offerings peering_code page az_ids max_pages c = Err y →
     is_exception y = false) →
  (_provision_with_region_fallback s).2 = Err x → is_exception x = true →
  placement (sconf (_provision_with_region_fallback s).1) = placement (sconf s).
Proof.
  intros Hclean Hswitch Hlist. unfold _provision_with_region_fallback, enforce_single_region_gate, bind, gets, lift.
  destruct (region_names (sconf s)) as [|r [|r' rs]] eqn:Er; cbn [length Nat.eqb]; [done| |done].
  unfold ret. rewrite Er. cbn [head].
  destruct (_relocate_to_preferred_spot_region s) as [s1 [u|y]] eqn:Ep.
  - destruct (get_region_fallback_candidates _ _ _ _ _ (sconf s1)) as [cands|y] eqn:Eg.
    + apply (attempt_then_restores (sconf s) r Er Hclean). by apply region_attempts_restores.
    + intros [= ->] Hx. destruct Hlist as [Hm|Hl]; [|by rewrite (Hl _ _ Eg) in Hx].
      rewrite (no_margin_no_relocation s Hm) in Ep. by injection Ep as <- _.
  - intros [= ->] Hx. by apply spot_relocation_err in Ep as ->.
Qed.

(** ** Several DCs *)
(** The DCs are as many as at the start, in pairwise different regions if they were. *)
Definition dcs_ok (n : nat) (distinct : Prop) (s : state) : Prop :=
  length (region_names (sconf s)) = n ∧ (distinct → NoDup (region_names (sconf s))).

Lemma pending_keys c keys dc source target pending :
  pending_amis c keys dc source target = Ok pending → ∀ k v, (k, v) ∈ pending → k ∈ keys.
Proof using Type.
  revert pending. induction keys as [|key keys IH]; intros pending; cbn [pending_amis]; [intros [= <-] k v []%not_elem_of_nil|].
  assert (∀ p, pending_amis c keys dc source target = Ok p → ∀ k v, (k, v) ∈ p → k ∈ key :: keys) as Hskip
    by (intros p Hp k v Hk; apply elem_of_cons; right; by eapply IH).
  destruct (pget key (prm c)) as [| | |value|]; try apply Hskip.
  case_match; [apply Hskip|]. case_match; [done|]. destruct (split_ws value !! dc) as [ami|]; [|apply Hskip].
  destruct (_resolve_relocated_ami _ _ _ _ _ _) as [new|]; [|done]. cbn [obind].
  destruct (pending_amis c keys dc source target) as [rest|] eqn:Er; [|done]. cbn [obind]. intros [= <-] k v.
  rewrite elem_of_cons. intros [[= -> _]|Hk]; [apply elem_of_cons; by left|]. by apply (Hskip rest eq_refl k v).
Qed.

Lemma region_names_set k v c : k ≠ "region_name" → region_names (AwsZones.set_param k v c) = region_names c.
Proof using Type. intros Hk. unfold region_names. cbn. by rewrite pget_insert, decide_False by done. Qed.

Lemma set_each_region_names (pending : list (string * string)) s :
  (∀ k v, (k, v) ∈ pending → k ≠ "region_name") →
  (for_each pending (λ p, set_param p.1 (VStr p.2)) s).2 = Ok tt ∧
  region_names (sconf (for_each pending (λ p, set_param p.1 (VStr p.2)) s).1) = region_names (sconf s).
Proof using Type.
  revert s. induction pending as [|[k v] pending IH]; intros s Hk; [done|]. cbn [for_each].
  unfold bind, set_param at 1 3, on_conf, modify. cbn [fst snd].
  destruct (IH (State (AwsZones.set_param k (VStr v) (sconf s)) (cloud s))) as [H1 H2].
  { intros k' v' Hk'. apply (Hk k' v'), elem_of_cons. by right. }
  split; [exact H1|]. rewrite H2. cbn [sconf]. apply region_names_set, (Hk k v), elem_of_cons. by left.
Qed.

(** Image remapping writes all images or none. *)
Lemma remap_dc_ami_spec dc source target s :
  let '(s', r) := remap_dc_ami dc source target s in
  match r with
  | Err _ => s' = s
  | Ok _ => region_names (sconf s') = region_names (sconf s)
  end.
Proof using Type.
  unfold remap_dc_ami, bind, gets, lift.
  destruct (pending_amis (sconf s) AMI_ID_PARAMS dc source target) as [pending|] eqn:Ep; [|done].
  destruct (set_each_region_names pending s) as [H1 H2].
  { intros k v Hk ->. exact (region_name_not_ami (pending_keys _ _ _ _ _ _ Ep _ _ Hk)). }
  destruct (for_each pending _ s) as [s' r]. cbn [fst snd] in *. by subst r.
Qed.

Lemma switch_dc_region_spec dc target source s :
  word target → (dc < length (region_names (sconf s)))%nat →
  let '(s', r) := switch_dc_region dc target source s in
  match r with
  | Err _ => s' = s
  | Ok _ => region_names (sconf s') = <[dc := target]> (region_names (sconf s))
  end.
Proof using Type.
  intros Hw Hdc. unfold switch_dc_region, bind at 1. pose proof (remap_dc_ami_spec dc source target s) as Hr.
  destruct (remap_dc_ami dc source target s) as [s1 [u|x]]; [|done].
  unfold bind, gets, set_env_region, set_param, on_conf, modify, on_cloud. cbn [sconf].
  unfold region_names at 1. cbn. rewrite Hr. apply split_ws_join.
  apply Forall_insert; [apply region_names_words|done].
Qed.

Lemma relocate_to_spec dc failed targets tried s s' tried' :
  Forall word targets → (dc < length (region_names (sconf s)))%nat →
  relocate_to dc failed targets tried s = (s', Ok tried') →
  ∃ target, target ∈ targets ∧ region_names (sconf s') = <[dc := target]> (region_names (sconf s)) ∧
            tried ∪ {[(dc, target)]} ⊆ tried'.
Proof using Type.
  revert tried s. induction targets as [|target rest IH]; intros tried s Hw Hdc; [done|].
  apply Forall_cons in Hw as [Hw Hws]. cbn [relocate_to]. unfold bind, caught.
  pose proof (switch_dc_region_spec dc target failed s Hw Hdc) as Hsw.
  destruct (switch_dc_region dc target failed s) as [s1 [u|x]].
  - intros [= <- <-]. exists target. split_and!; [by left|done|done].
  - subst s1. destruct x; try done. intros E.
    destruct (IH _ s Hws Hdc E) as (t & Ht & Hn & Hsub). exists t. split_and!; [by right|done|].
    intros p Hp. apply Hsub. apply elem_of_union in Hp as [Hp|Hp]; apply elem_of_union; [|by right].
    left. apply elem_of_union. by left.
Qed.

Lemma dc_candidate_regions dc c found r :
  get_dc_fallback_candidates offerings peering_code page az_ids max_pages dc c = Ok found → r ∈ found.*1 →
  r ∈ AWS_SUPPORTED_REGIONS ∧ r ∉ region_names c.
Proof using Type.
  intros Hf ([r' letters] & -> & Hc)%list_elem_of_fmap. revert Hf. unfold get_dc_fallback_candidates.
  destruct (_blocked_by_dns_names c); [intros [= <-]; by apply not_elem_of_nil in Hc|].
  destruct (length (_region_names c) <=? dc)%nat eqn:Hlen; [intros [= <-]; by apply not_elem_of_nil in Hc|].
  intros Hf. destruct (elem_of_region_candidates _ _ _ _ _ _ _ _ Hf Hc) as (region & Hr & Hcand).
  apply aws_ordered_regions_sub in Hr as [Hs Hn].
  apply aws_region_candidate_valid in Hcand as (-> & _). split; [done|].
  revert Hn. unfold _region_names. destruct (region_names c); [intros _; apply not_elem_of_nil|done].
Qed.

Lemma relocate_failed_spec n distinct x tried s s' tried' :
  dcs_ok n distinct s → _relocate_failed_db_dc x tried s = (s', Ok tried') →
  dcs_ok n distinct s' ∧ (untried n tried' < untried n tried)%nat.
Proof using Type.
  intros [Hn Hd]. unfold _relocate_failed_db_dc, bind at 1, gets at 1.
  destruct (get_failed_region x ≫= _) as [[failed dc]|] eqn:Ef; [|done].
  apply bind_Some in Ef as (r & _ & (i & Hi & [= <- <-])%fmap_Some).
  apply index_of_lt in Hi as [Hdc _].
  unfold bind, on_cloud, gets, lift. destruct (cleanup_dc_region failed (sconf s) (cloud s)) as [w [u|y]]; [|done].
  cbn [sconf]. destruct (get_dc_fallback_candidates _ _ _ _ _ dc (sconf s)) as [found|] eqn:Eg; [|done].
  intros E. apply relocate_to_spec in E as (target & Ht & Hnames & Hsub); [| |done].
  - apply list_elem_of_filter in Ht as [Hnew Ht]. apply (dc_candidate_regions _ _ _ _ Eg) in Ht as [Hsup Hout].
    cbn [sconf] in Hnames. split.
    + split; [by rewrite Hnames, length_insert|]. intros Hx. rewrite Hnames. by apply NoDup_insert_new, Hout; auto.
    + assert ((dc, target) ∈ all_pairs n) as Hp by (apply elem_of_all_pairs; rewrite <- Hn; done).
      eapply Nat.lt_le_trans; [|by apply (untried_mono n tried (tried ∪ {[(dc, failed)]})), union_subseteq_l].
      eapply Nat.le_lt_trans; [by apply untried_mono|]. by apply untried_add.
  - apply Forall_forall. intros t [_ Ht]%list_elem_of_filter. apply (dc_candidate_regions _ _ _ _ Eg) in Ht as [Ht _].
    by apply aws_supported_regions_words.
Qed.

Lemma db_rounds_spec n distinct fuel tried s :
  dcs_ok n distinct s → (untried n tried < fuel)%nat →
  (db_rounds fuel tried s).2 ≠ Ok None ∧
  ((db_rounds fuel tried s).2 = Ok (Some tt) → dcs_ok n distinct (db_rounds fuel tried s).1).
Proof using Type.
  revert tried s. induction fuel as [|fuel IH]; intros tried s Hok Hf; [by apply Nat.nlt_0_r in Hf|].
  cbn [db_rounds]. unfold bind, caught, on_cloud.
  destruct (provision_db _ (sconf s) (cloud s)) as [w [u|x]]; [done|].
  destruct (is_exhaustion x); [|done].
  assert (dcs_ok n distinct (State (sconf s) w)) as Hok1 by exact Hok.
  destruct (_relocate_failed_db_dc x tried (State (sconf s) w)) as [s2 [tried2|y]] eqn:Er; [|done].
  apply (relocate_failed_spec n distinct) in Er as [Hok2 Hlt]; [|done].
  apply IH; [done|]. eapply Nat.lt_le_trans; [exact Hlt|]. by apply Nat.lt_succ_r.
Qed.

Lemma resolve_az_region_names s :
  region_names (sconf (resolve_az s).1) = region_names (sconf s).
Proof using Type.
  unfold resolve_az. destruct (resolve offerings page az_ids max_pages (sconf s)) as [c|] eqn:Er; [|done].
  apply resolve_changes_az in Er as [->|[v ->]]; [done|]. cbn [fst sconf]. by apply region_names_set.
Qed.

(** The parameters multi-DC fallback never writes keep their values. *)
Definition others_kept (c0 : conf) (s : state) : Prop :=
  ∀ k, k ∉ "region_name" :: "availability_zone" :: AMI_ID_PARAMS → pget k (prm (sconf s)) = pget k (prm c0).

Lemma set_param_others c0 k v :
  k ∈ "region_name" :: "availability_zone" :: AMI_ID_PARAMS → keeps_state (others_kept c0) (set_param k v).
Proof using Type. intros Hk s Hs k' Hk'. cbn. rewrite pget_insert, decide_False by (by intros ->). by apply Hs. Qed.

Lemma set_env_others c0 e : keeps_state (others_kept c0) (set_env_region e).
Proof using Type. by intros s Hs. Qed.

Lemma on_cloud_others {A} c0 (f : conf → W → W * outcome aexn A) : keeps_state (others_kept c0) (on_cloud f).
Proof using Type. intros s Hs. unfold on_cloud. by destruct (f (sconf s) (cloud s)). Qed.

Lemma caught_others {A} c0 (m : action A) : keeps_state (others_kept c0) m → keeps_state (others_kept c0) (caught m).
Proof using Type. intros Hm s Hs. specialize (Hm s Hs). unfold caught. by destruct (m s) as [s' [|]]. Qed.

Lemma switch_dc_others c0 dc target source : keeps_state (others_kept c0) (switch_dc_region dc target source).
Proof using Type.
  unfold switch_dc_region. apply keeps_state_bind.
  - unfold remap_dc_ami. intros s Hs. unfold bind, gets, lift.
    destruct (pending_amis (sconf s) AMI_ID_PARAMS dc source target) as [pending|] eqn:Ep; [|done].
    pose proof (pending_keys _ _ _ _ _ _ Ep) as Hk. clear Ep. revert s Hs Hk.
    induction pending as [|[k v] pending IH]; intros s Hs Hk; [done|]. cbn [for_each]. unfold bind.
    apply (IH (set_param k (VStr v) s).1); [|intros k' v' Hin; apply (Hk k' v'); by right].
    apply set_param_others; [do 2 right; apply (Hk k v); left|done].
  - intros _ s Hs. unfold bind at 1, gets. revert s Hs. intros s. generalize (region_names (sconf s)) as regions.
    intros regions. revert s. apply keeps_state_bind; [apply set_env_others|]. intros _.
    apply keeps_state_bind; [apply set_param_others; left|]. intros _. apply on_cloud_others.
Qed.

Lemma db_rounds_others c0 fuel tried : keeps_state (others_kept c0) (db_rounds fuel tried).
Proof using Type.
  assert (∀ dc failed targets tried, keeps_state (others_kept c0) (relocate_to dc failed targets tried)) as Hrel.
  { intros dc failed targets. induction targets as [|t targets IH]; intros tried'; [apply keeps_state_raise|].
    apply keeps_state_bind; [apply caught_others, switch_dc_others|].
    intros [?|[]]; auto using keeps_state_ret, keeps_state_raise. }
  revert tried. induction fuel as [|fuel IH]; intros tried; [apply keeps_state_ret|].
  apply keeps_state_bind; [apply caught_others, on_cloud_others|]. intros [?|x]; [apply keeps_state_ret|].
  destruct (is_exhaustion x); [|apply keeps_state_raise]. apply keeps_state_bind; [|intros tried'; apply IH].
  intros s Hs. unfold _relocate_failed_db_dc, bind at 1, gets at 1. destruct (get_failed_region x ≫= _) as [[failed dc]|]; [|done].
  revert s Hs. apply keeps_state_bind; [apply on_cloud_others|]. intros _ s Hs. unfold bind, gets, lift.
  destruct (get_dc_fallback_candidates _ _ _ _ _ _ _); [by apply Hrel|done].
Qed.

Lemma resolve_az_others c0 : keeps_state (others_kept c0) resolve_az.
Proof using Type.
  intros s Hs. unfold resolve_az. destruct (resolve offerings page az_ids max_pages (sconf s)) as [c|] eqn:Er; [|done].
  apply resolve_changes_az in Er as [->|[v ->]]; [done|]. apply (set_param_others c0 "availability_zone" v); [right; left|done].
Qed.

Lemma multi_dc_others fuel s :
  others_kept (sconf s) (_provision_with_multi_dc_fallback fuel s).1.
Proof using Type.
  set (c0 := sconf s). assert (keeps_state (others_kept c0) (_provision_with_multi_dc_fallback fuel)) as H; [|by apply H].
  unfold _provision_with_multi_dc_fallback. apply keeps_state_bind.
  { intros s' Hs'. unfold enforce_multi_dc_fallback_supported, bind, conf_get, gets. by case_match. }
  intros _ s' Hs'. unfold bind at 1, gets at 1. revert s' Hs'. intros s'. generalize (sconf s') as c. intros c. revert s'.
  apply keeps_state_try.
  - apply keeps_state_bind; [apply resolve_az_others|]. intros _.
    apply keeps_state_bind; [apply on_cloud_others|]. intros _.
    apply keeps_state_bind.
    + intros s' Hs'. unfold _provision_db_with_dc_fallback, bind, gets. case_match; [done|]. by apply db_rounds_others.
    + intros [?|]; [|apply keeps_state_ret]. apply keeps_state_bind; [apply on_cloud_others|]. intros _. apply keeps_state_ret.
  - intros x. apply keeps_state_bind; [|intros _; apply keeps_state_raise]. unfold _restore_region_names.
    apply keeps_state_bind; [apply set_env_others|]. intros _.
    apply keeps_state_bind; [|intros _]; apply set_param_others; [left|right; left].
Qed.

(** The loop ends; the placement is put back on failure and well formed on success. *)
Lemma multi_dc_outcome fuel s :
  (length (region_names (sconf s)) * length AWS_SUPPORTED_REGIONS < fuel)%nat →
  let '(s', r) := _provision_with_multi_dc_fallback fuel s in
  r ≠ Ok None ∧
  (∀ x, r = Err x → is_exception x = true → placement (sconf s') = placement (sconf s)) ∧
  (r = Ok (Some tt) → length (region_names (sconf s')) = length (region_names (sconf s)) ∧
                      (NoDup (region_names (sconf s)) → NoDup (region_names (sconf s')))).
Proof using Type.
  intros Hfuel. unfold _provision_with_multi_dc_fallback, enforce_multi_dc_fallback_supported, bind at 1 2 3, conf_get, gets.
  destruct (truthy _ || truthy _); [done|]. unfold ret at 1, bind at 1. unfold try_except.
  set (n := length (region_names (sconf s))) in *. set (distinct := NoDup (region_names (sconf s))).
  assert (∀ s1 x, placement (sconf ((_restore_region_names (region_names (sconf s))
            (pget "availability_zone" (prm (sconf s))) (env_region (sconf s)) ;;; raise x) s1 : state * outcome aexn (option unit)).1)
          = placement (sconf s)) as Hback by (intros s1 x; apply restore_names_placement).
  set (body := bind resolve_az _). assert (
    (body s).2 ≠ Ok None ∧ ((body s).2 = Ok (Some tt) → dcs_ok n distinct (body s).1)) as [Hb1 Hb2].
  { unfold body, bind, on_cloud. pose proof (resolve_az_region_names s) as Hr.
    destruct (resolve_az s) as [s1 [u|x]]; [|done]. cbn [fst] in Hr.
    destruct (provision_first (sconf s1) (cloud s1)) as [w [u'|x]]; [|done].
    assert (dcs_ok n distinct (State (sconf s1) w)) as Hok by (split; cbn [sconf]; rewrite Hr; [done|by intros ?]).
    unfold _provision_db_with_dc_fallback, bind, gets. destruct (has_db_cluster _); cbn [negb].
    - destruct (db_rounds_spec n distinct fuel ∅ (State (sconf s1) w) Hok) as [D1 D2].
      { eapply Nat.le_lt_trans; [|exact Hfuel]. etrans; [apply untried_le|apply all_pairs_size]. }
      destruct (db_rounds fuel ∅ _) as [s2 [[[]|]|x]]; cbn [fst snd] in *; [|done|done].
      destruct (provision_others (sconf s2) (cloud s2)) as [w2 [|]]; [|done]. cbn. split; [done|]. intros _. by apply D2.
    - cbn. destruct (provision_others (sconf s1) w) as [w2 [|]]; [|done]. split; [done|]. by intros _. }
  destruct (body s) as [s1 [o|x]]; cbn [fst snd] in *.
  - split_and!; [done|done|]. intros [= ->]. by apply Hb2.
  - destruct (is_exception x) eqn:Hx; [|split_and!; [done| |done]; intros y [= <-]; congruence].
    specialize (Hback s1 x). unfold bind in *.
    destruct (_restore_region_names _ _ _ s1) as [s2 [u|y]] eqn:Erest; cbn [fst] in Hback; [|by cbn in Erest].
    by split_and!.
Qed.
(** C7. Multi-DC fallback on AWS ends, and puts the placement back on failure: with at most one
    round per DC and supported region, and one more, the DB cluster is provisioned or the
    fallback gives up; after any Exception region names, zones and the environment override are
    those configured at the start; after a success there are as many DCs as before, still in
    pairwise different regions. In either case nothing else of the configuration is changed but
    the image parameters, which are not put back: the images of a relocated DC stay those of the
    region it was moved to. *)
Theorem aws_multi_dc_terminates_and_restores fuel s :
  (length (region_names (sconf s)) * length AWS_SUPPORTED_REGIONS < fuel)%nat →
  let '(s', r) := _provision_with_multi_dc_fallback fuel s in
  r ≠ Ok None ∧
  (∀ x, r = Err x → is_exception x = true → placement (sconf s') = placement (sconf s)) ∧
  (r = Ok (Some tt) → length (region_names (sconf s')) = length (region_names (sconf s)) ∧
                      (NoDup (region_names (sconf s)) → NoDup (region_names (sconf s')))) ∧
  ∀ k, k ∉ "region_name" :: "availability_zone" :: AMI_ID_PARAMS → pget k (prm (sconf s')) = pget k (prm (sconf s)).
Proof using Type.
  intros Hfuel. pose proof (multi_dc_outcome fuel s Hfuel) as H. pose proof (multi_dc_others fuel s) as Ho.
  destruct (_provision_with_multi_dc_fallback fuel s) as [s' r]. destruct H as (H1 & H2 & H3). by split_and!.
Qed.
End Fallback.

(** ** Examples *)

(** The images of the test are named "scylla-db"; the second fallback region has none. *)
Definition ex_intent (k : string) : option string :=
  if String.eqb k "ami_id_db_scylla" then Some "scylla-db" else None.
Definition ex_convert (name : string) (regions : list string) : outcome aexn string :=
  if bool_decide (regions = ["eu-west-3"]) then Err ValueError else Ok "ami-1".
Definition ex_convert_all (name : string) (regions : list string) : outcome aexn string := Ok "ami-1".
Definition ex_find (ami source : string) (regions : list string) : outcome aexn (list string) :=
  Ok (if String.eqb ami "ami-loader" then [] else ["ami-9"]).

(** The cloud counts attempts; there is no capacity anywhere. *)
Definition ex_provision : act state aexn unit :=
  λ s, (State (sconf s) (S (cloud s)), Err (ProvisioningCapacityExhausted None)).
Definition ex_cleanup (c : conf) (w : nat) : nat * outcome aexn unit := (w, Ok tt).
Definition ex_sweep (r : string) (w : nat) : nat * outcome aexn unit := (w, Ok tt).

Definition ex_state : state :=
  State (Conf {["region_name" := VStr "eu-west-1"; "availability_zone" := VStr "a"; "cluster_backend" := VStr "aws";
                "instance_type_db" := VStr "i4i.large"; "ami_id_db_scylla" := VStr "ami-0"]} None None) 0.

Definition ex_region_fallback (convert : string → list string → outcome aexn string) : act (@state nat) aexn unit :=
  _provision_with_region_fallback ex_intent convert ex_find id id ex_offerings (λ _ _, Some "active") ex_page
    (λ _, None) 1 ex_provision ex_cleanup ex_sweep id.

(** A failed relocation strands the test: with an image given by name, a fallback region
    without that image raises [ValueError] while the images are looked up, which ends the fallback
    before the remaining regions were tried and leaves the configuration in the region of the
    previous attempt, not in the configured one. *)
Theorem aws_switch_failure_strands :
  region_names (sconf ex_state) = ["eu-west-1"] ∧
  (ex_region_fallback ex_convert ex_state).2 = Err ValueError ∧
  region_names (sconf (ex_region_fallback ex_convert ex_state).1) = ["eu-west-2"].
Proof. split_and!; by vm_compute. Qed.

(** A relocation for which one image is missing has already replaced the others. *)
Theorem aws_switch_region_partial_images :
  let s := State (Conf {["region_name" := VStr "eu-west-1"; "cluster_backend" := VStr "aws";
                         "ami_id_db_scylla" := VStr "ami-0"; "ami_id_loader" := VStr "ami-loader"]} None None) 0 in
  let '(s', r) := switch_region (λ _, None) ex_convert ex_find id id "eu-west-2" ["a"] (Some "eu-west-1") s in
  r = Err RegionAMINotFoundError ∧ region_names (sconf s') = ["eu-west-1"] ∧
  pget "ami_id_db_scylla" (prm (sconf s')) = VStr "ami-9".
Proof. vm_compute. by split_and!. Qed.

(** The upfront relocation is not undone when the candidate regions cannot be listed after it:
    the scores send the test from eu-west-1 to eu-west-2, and asking for the offerings of
    eu-west-1, now a candidate, fails; the fallback ends in eu-west-2. *)
Definition ex_offerings_fail (region : string) (types : list string) : outcome aexn (list (string * string)) :=
  if String.eqb region "eu-west-1" then Err (ClientError "RequestLimitExceeded" "slow down" None)
  else ex_offerings region types.
Definition ex_scores (ts : list string) (n : Z) (b : bool) (rs : list string) (tk : option string)
    : option (list entry * option string) :=
  Some ((λ r, Entry (Some r) (Some (if String.eqb r "eu-west-2" then 9 else 1)%Z) None) <$> rs, None).
Definition ex_state_spot : state :=
  State (AwsZones.set_param "spot_score_region_relocation_margin" (VInt 3) (AwsZones.set_param "use_spot_placement_scores" (VBool true)
          (AwsZones.set_param "instance_provision" (VStr "spot") (sconf ex_state)))) 0.

Theorem aws_listing_failure_strands :
  let run := _provision_with_region_fallback ex_intent ex_convert_all ex_find id id ex_offerings_fail
               (λ _ _, Some "active") ex_scores (λ _, None) 1 ex_provision ex_cleanup ex_sweep id ex_state_spot in
  region_names (sconf ex_state_spot) = ["eu-west-1"] ∧
  run.2 = Err (ClientError "RequestLimitExceeded" "slow down" None) ∧ region_names (sconf run.1) = ["eu-west-2"].
Proof. split_and!; by vm_compute. Qed.

(** When every named image exists everywhere, only a missing equivalent fails a relocation. *)
Lemma ex_remap_err values source regions x :
  remap_regions ex_find values source regions = Err x → x = RegionAMINotFoundError.
Proof.
  assert (∀ amis r, remap_words ex_find amis source r = Err x → x = RegionAMINotFoundError) as Hw.
  { induction amis as [|a amis IH]; intros r; [done|]. cbn. case_match; cbn; [by intros [= <-]|].
    destruct (remap_words _ _ _ _) as [|y] eqn:E; [done|]. cbn. intros [= ->]. by eapply IH. }
  revert x Hw. induction regions as [|r regions IH]; intros x Hw; [done|]. cbn.
  destruct (remap_words _ _ _ _) as [|y] eqn:E; cbn; [|intros [= ->]; by eapply Hw].
  destruct (remap_regions _ _ _ _) as [|y] eqn:E'; [done|]. cbn. intros [= ->]. by apply IH.
Qed.

Lemma ex_remap_amis_err v source regions x :
  _remap_amis_to_regions ex_find v source regions = Err x → x = RegionAMINotFoundError.
Proof.
  unfold _remap_amis_to_regions. destruct (remap_regions _ _ _ _) as [|y] eqn:E; [done|]. cbn. intros [= ->].
  by eapply ex_remap_err.
Qed.

Lemma ex_remap_each_err l source regions x :
  remap_each ex_find l source regions = Err x → x = RegionAMINotFoundError.
Proof.
  induction l as [|v l IH]; [done|]. cbn.
  destruct (_remap_amis_to_regions _ _ _ _) as [|y] eqn:E; cbn; [|intros [= ->]; by eapply ex_remap_amis_err].
  destruct (remap_each _ _ _ _); [done|]. cbn. intros [= ->]. by apply IH.
Qed.

Lemma ex_resolve_ami_err regions source k (s : @state nat) x :
  (resolve_ami ex_intent ex_convert_all ex_find regions source k s).2 = Err x → x = RegionAMINotFoundError.
Proof.
  unfold resolve_ami, bind, conf_get, gets. set (by_id := match pget k (prm (sconf s)) with VStr _ => _ | _ => _ end).
  assert ((by_id s).2 = Err x → x = RegionAMINotFoundError) as Hid.
  { unfold by_id. destruct (pget k (prm (sconf s))), source as [src|]; try done. case_match; [|done].
    unfold lift. destruct (_remap_amis_to_regions _ _ _ _) as [|y] eqn:E; [done|]. intros [= ->].
    by eapply ex_remap_amis_err. }
  clearbody by_id. unfold ex_intent. by destruct (String.eqb k "ami_id_db_scylla").
Qed.

Lemma ex_switch_err r letters source (s : @state nat) x :
  (switch_region ex_intent ex_convert_all ex_find id id r letters source s).2 = Err x →
  x = RegionAMINotFoundError ∨ is_exception x = false.
Proof.
  intros H. left. unfold switch_region, bind at 1 in H.
  destruct (resolve_amis ex_intent ex_convert_all ex_find [r] source s) as [s1 [u|y]] eqn:E; [done|].
  injection H as ->. revert E. unfold resolve_amis, bind, conf_get, gets.
  destruct (is_str (pget "cluster_backend" (prm (sconf s))) "aws"); [|done]. cbn [negb].
  destruct (for_each AMI_ID_PARAMS _ s) as [s2 [u|y]] eqn:Ef.
  - destruct (pget "target_db_image_ids" (prm (sconf s2))) as [| | | |[|v l]], source as [src|]; try done.
    case_match; [|done]. unfold lift. destruct (remap_each _ _ _ _) as [|y] eqn:E; [done|]. intros [= _ ->].
    by eapply ex_remap_each_err.
  - intros [= _ ->]. revert s Ef. generalize AMI_ID_PARAMS as keys. induction keys as [|k keys IH]; intros s; [done|].
    cbn [for_each]. unfold bind. pose proof (ex_resolve_ami_err [r] source k s x) as Hk.
    destruct (resolve_ami _ _ _ _ _ _ s) as [s3 [|]]; [apply IH|]. intros [= _ ->]. by apply Hk.
Qed.

Lemma ex_cleanup_fine c w x : (ex_cleanup c w).2 = Err x → is_exception x = false.
Proof. done. Qed.
Lemma ex_sweep_fine r w x : (ex_sweep r w).2 = Err x → is_exception x = false.
Proof. done. Qed.
Lemma ex_no_margin :
  (int_param (pget "spot_score_region_relocation_margin" (prm (sconf ex_state))) <= 0)%Z.
Proof. by vm_compute. Qed.

Lemma aws_region_fallback_restores_witness :
  (ex_region_fallback ex_convert_all ex_state).2 = Err RuntimeError ∧
  placement (sconf (ex_region_fallback ex_convert_all ex_state).1) = (["eu-west-1"], VStr "a", None).
Proof.
  assert ((ex_region_fallback ex_convert_all ex_state).2 = Err RuntimeError) as He by (by vm_compute).
  split; [exact He|].
  exact (aws_region_fallback_restores ex_intent ex_convert_all ex_find id id ex_offerings (λ _ _, Some "active") ex_page
           (λ _, None) 1 ex_provision ex_cleanup ex_sweep id ex_state RuntimeError
           (conj ex_cleanup_fine ex_sweep_fine) ex_switch_err (or_introl ex_no_margin) He eq_refl).
Defined.

(** Two DCs; the first has no capacity until it has moved away from eu-west-1. *)
Definition ex_state2 : state :=
  State (Conf {["region_name" := VStr "eu-west-1 us-east-1"; "availability_zone" := VStr "a"; "cluster_backend" := VStr "aws";
                "instance_type_db" := VStr "i4i.large"; "ami_id_db_scylla" := VStr "ami-0 ami-0"]} None None) 0.
Definition ex_provision_db (done : gset nat) (c : conf) (w : nat) : nat * outcome aexn unit :=
  if bool_decide ("eu-west-1" ∈ region_names c) then (S w, Err (ProvisioningCapacityExhausted (Some "eu-west-1")))
  else (S w, Ok tt).

Lemma aws_multi_dc_terminates_and_restores_witness :
  let '(s', r) := _provision_with_multi_dc_fallback ex_intent ex_convert_all ex_find id ex_offerings
    (λ _ _, Some "active") ex_page (λ _, None) 1 ex_cleanup ex_cleanup (λ _, true) ex_provision_db
    (λ _, ex_cleanup) (λ _, []) 19 ex_state2 in
  region_names (sconf s') = ["eu-west-2"; "us-east-1"] ∧ r ≠ Ok None.
Proof.
  pose proof (aws_multi_dc_terminates_and_restores ex_intent ex_convert_all ex_find id ex_offerings
    (λ _ _, Some "active") ex_page (λ _, None) 1 ex_cleanup ex_cleanup (λ _, true) ex_provision_db
    (λ _, ex_cleanup) (λ _, []) 19 ex_state2) as Hx.
  assert (region_names (sconf (_provision_with_multi_dc_fallback ex_intent ex_convert_all ex_find id ex_offerings
    (λ _ _, Some "active") ex_page (λ _, None) 1 ex_cleanup ex_cleanup (λ _, true) ex_provision_db
    (λ _, ex_cleanup) (λ _, []) 19 ex_state2).1) = ["eu-west-2"; "us-east-1"]) as Hr by (by vm_compute).
  destruct (_provision_with_multi_dc_fallback _ _ _ _ _ _ _ _ _ _ _ _ _ _ _ _ _) as [s' r].
  split; [exact Hr|]. apply Hx. vm_compute. lia.
Defined.

(** The images of a DC that was relocated stay those of the region it was moved to when the
    fallback fails and the regions are put back: no region has capacity for the first DC. *)
Theorem aws_multi_dc_images_stay_remapped :
  let run := _provision_with_multi_dc_fallback ex_intent (λ _ _, Ok "ami-1") ex_find id ex_offerings
    (λ _ _, Some "active") ex_page (λ _, None) 1 ex_cleanup ex_cleanup (λ _, true)
    (λ _ c w, (S w, Err (ProvisioningCapacityExhausted (head (region_names c)))))
    (λ _, ex_cleanup) (λ _, []) 19 ex_state2 in
  run.2 = Err RuntimeError ∧ placement (sconf run.1) = placement (sconf ex_state2) ∧
  pget "ami_id_db_scylla" (prm (sconf ex_state2)) = VStr "ami-0 ami-0" ∧
  pget "ami_id_db_scylla" (prm (sconf run.1)) = VStr "ami-1 ami-0".
Proof. split_and!; by vm_compute. Qed.
End AwsFallback.
