(* ===== verification/AwsReservations.v ===== *)
(** * Capacity reservations and dedicated hosts on AWS

    Model of [sdcm/provision/aws/capacity_reservation.py] and
    [sdcm/provision/aws/dedicated_host.py]: the two registries of what the run holds in one
    zone, how it is reserved with fallback to the next zone, and how it is given back. The
    state holds the configuration, the class attributes and the calls made to AWS. *)
From Stdlib Require Import Ascii String ZArith Lia.
From stdpp Require Import base decidable option strings numbers list gmap.
From S2P Require Import Prelude.
From S2P Require Import PyString.
From S2P Require Import PyInt.
From S2P Require Import PyVal.
From S2P Require Import PyDict.
From S2P Require Import PyLiteral.
From S2P Require Import Effects.
From S2P Require Import CloudCalls.
From S2P Require Import GceZones.
From S2P Require Import AwsZones.
From S2P Require Import AwsFallback.
Local Open Scope py_scope.
Local Open Scope Z_scope.

Module AwsReservations.
Import Cloud.

(** ** State *)

(** Zone (letter or name) to instance type to identifier. *)
Abbreviation registry := (list (string * list (string * string))) (only parsing).

Record rstate := RState {
  rconf : AwsZones.conf;
  reservations : registry;           (* SCTCapacityReservation.reservations *)
  hosts : registry;                  (* SCTDedicatedHosts.hosts *)
  hosts_reservations : option registry; (* SCTDedicatedHosts.reservations *)
  keep_alive_host : bool;            (* TestConfig.KEEP_ALIVE_DEDICATED_HOST *)
}.
Definition set_conf c s := RState c (reservations s) (hosts s) (hosts_reservations s) (keep_alive_host s).
Definition set_reservations r s := RState (rconf s) r (hosts s) (hosts_reservations s) (keep_alive_host s).
Definition set_hosts h s := RState (rconf s) (reservations s) h (hosts_reservations s) (keep_alive_host s).
Definition set_hosts_reservations r s := RState (rconf s) (reservations s) (hosts s) r (keep_alive_host s).
Definition set_keep_alive b s := RState (rconf s) (reservations s) (hosts s) (hosts_reservations s) b.

Definition prm (s : rstate) := AwsZones.prm (rconf s).
Definition str_param (k : string) (s : rstate) : string :=
  match pget k (prm s) with VStr v => v | _ => EmptyString end.

(** The last character, when there is one. *)
Definition last_letter (s : string) : option string :=
  match str_rev s with String c _ => Some (String c EmptyString) | EmptyString => None end.

Section Api.
Context (cloud : list event → ∀ c : call, outcome cexn (resp c)).
(** [all_aws_regions()] and the tags of [TestConfig.common_tags()]. *)
Context (all_aws_regions : list string) (common_tags : tags).
Abbreviation action := (act (cstate rstate) cexn).

Definition set_param (k : string) (v : pyval) : action unit :=
  set_own (λ s, set_conf (AwsZones.set_param k v (rconf s)) s).

(** [params.region_names[0]] *)
Definition first_region : action string :=
  let! regions := get_own (λ s, AwsZones.region_names (rconf s)) in
  match regions with r :: _ => ret r | [] => raise IndexError end.

(** [s[-1]] *)
Definition last_char (s : string) : action string :=
  match last_letter s with Some letter => ret letter | None => raise IndexError end.

(** ** The capacity a run needs *)

(** [sum(v)] of a list of numbers. *)
Fixpoint sum_items (l : list pyval) : outcome cexn Z :=
  match l with
  | [] => Ok 0
  | VInt z :: l' => try! n := sum_items l' in Ok (z + n)
  | VBool b :: l' => try! n := sum_items l' in Ok (Z.b2z b + n)
  | _ :: _ => Err TypeError
  end.
Definition py_sum (v : pyval) : outcome cexn Z := match v with VList l => sum_items l | _ => Err TypeError end.

(** [int(v)] *)
Definition to_int (v : pyval) : outcome cexn Z :=
  match v with
  | VInt z => Ok z
  | VBool b => Ok (Z.b2z b)
  | VStr s => match py_int s with Some z => Ok z | None => Err ValueError end
  | _ => Err TypeError
  end.
Definition _to_int_sum (value : pyval) : outcome cexn Z :=
  match value with
  | VList l => foldr (λ v acc, try! z := to_int v in try! n := acc in Ok (z + n)) (Ok 0) l
  | _ => if truthy value then to_int value else Ok 0
  end.

(** [instance_counts[k] += n] of a [defaultdict(int)]. *)
Definition add_count (k : string) (n : Z) (d : list (string * Z)) : list (string * Z) :=
  dict_set k (default 0 (dict_get k d) + n) d.

Definition type_param (k : string) (p : params) : string := match pget k p with VStr s => s | _ => EmptyString end.

Definition _get_cr_request_based_on_sct_config (p : params) : outcome cexn (list (string * Z) * pyval) :=
  let nemesis_node_count := match pget "nemesis_add_node_cnt" p with VInt z => z | _ => 0 end in
  try! cluster_max_size := py_sum (let t := pget "cluster_target_size" p in if truthy t then t else pget "n_db_nodes" p) in
  try! (counts, cluster_max_size) :=
    (if truthy (pget "use_zero_nodes" p) then
       try! zero_token_nodes := py_sum (pget "n_db_zero_token_nodes" p) in
       if truthy (pget "zero_token_instance_type_db" p)
       then Ok (add_count (type_param "zero_token_instance_type_db" p) zero_token_nodes [], cluster_max_size)
       else Ok ([], cluster_max_size + zero_token_nodes)
     else Ok ([], cluster_max_size)) in
  let '(counts, cluster_max_size) :=
    if truthy (pget "nemesis_grow_shrink_instance_type" p)
    then (add_count (type_param "nemesis_grow_shrink_instance_type" p) nemesis_node_count counts, cluster_max_size)
    else (counts, cluster_max_size + nemesis_node_count) in
  let counts := add_count (type_param "instance_type_db" p) cluster_max_size counts in
  try! counts :=
    (if truthy (pget "instance_type_db_target" p) then
       try! n := _to_int_sum (pget "n_db_nodes" p) in Ok (add_count (type_param "instance_type_db_target" p) n counts)
     else Ok counts) in
  try! counts :=
    (if truthy (pget "instance_type_db_oracle" p) &&
        (is_str (pget "db_type" p) "mixed_scylla" || is_str (pget "db_type" p) "mixed_cassandra") then
       try! n := _to_int_sum (pget "n_test_oracle_db_nodes" p) in Ok (add_count (type_param "instance_type_db_oracle" p) n counts)
     else Ok counts) in
  try! loaders := py_sum (pget "n_loaders" p) in
  let counts := add_count (type_param "instance_type_loader" p) loaders counts in
  Ok (filter (λ kv, 0 < kv.2) counts, pget "test_duration" p).

(** ** Capacity reservations *)
Definition test_filters (test_id state : string) : list ec2_filter := [Filter "tag:TestId" [test_id]; Filter "state" [state]].

Definition record_reservation (result : registry) (zone itype id : string) : registry :=
  dict_set zone (dict_set itype id (default [] (dict_get zone result))) result.

(** The reservations found, by letter, and the letter of the last one. *)
Fixpoint collect (found : list reservation) (result : registry) (last : pyval) : action (registry * pyval) :=
  match found with
  | [] => ret (result, last)
  | r :: found' =>
    let! letter := last_char (cr_zone r) in
    collect found' (record_reservation result letter (cr_type r) (cr_id r)) (VStr letter)
  end.

Definition get_cr_from_aws (force_fetch : bool) : action unit :=
  let! p := get_own prm in
  if (negb (AwsFallback.is_capacity_reservation_enabled p) && negb force_fetch) || negb (truthy (pget "test_id" p))
  then ret tt
  else
    let! test_id := get_own (str_param "test_id") in
    let! region := first_region in
    let! found := api cloud (DescribeReservations region (test_filters test_id "active")) in
    let! (result, availability_zone) := collect found [] (pget "availability_zone" p) in
    (if truthy result then set_param "availability_zone" availability_zone else ret tt) ;;;
    set_own (set_reservations result).

(** [AwsRegion(region).get_common_availability_zones] *)
Definition get_common_availability_zones (region : string) (instance_types preferred_azs : list string)
    : action (list string) :=
  match instance_types with
  | [] => ret []
  | _ =>
    let! found := api cloud (DescribeOfferings region instance_types) in
    ret (AwsZones.common_zones found instance_types preferred_azs)
  end.

Definition _get_supported_availability_zones (instance_types : list string) (region : string) (availability_zone : pyval)
    : action (list string) :=
  let text := match availability_zone with VStr s => s | _ => EmptyString end in
  let parts := filter (λ part, truthy part = true) (strip <$> split_on "," text) in
  let preferred := match parts with first_letter :: _ => [region +:+ first_letter] | [] => [] end in
  get_common_availability_zones region instance_types preferred.

Definition _create (region zone itype : string) (count : Z) (duration : pyval) (group_arn : option string)
    : action (option string) :=
  match duration with
  | VInt minutes =>
    let! r := caught (api cloud (CreateReservation region zone itype count minutes group_arn)) in
    ret (match r with Ok id => Some id | Err _ => None end)
  | _ => ret None
  end.

Definition is_client_error (x : cexn) : bool := match x with ClientError => true | _ => false end.

Definition _cancel_reservations (region : string) (r : registry) : action unit :=
  for_each r (λ zone, for_each zone.2 (λ item, ignoring is_client_error (api cloud (CancelReservation region item.2)))).

Definition sleep_if_grouped (group_arn : option string) : action unit :=
  match group_arn with Some arn => if truthy arn then pause 30 else ret tt | None => ret tt end.

(** The reservations of one zone, one per instance type. When one cannot be had, those of the
    dictionary are cancelled and it is emptied. *)
Fixpoint reserve_types (region zone letter : string) (duration : pyval) (group_arn : option string)
    (request : list (string * Z)) (reserved : registry) : action registry :=
  match request with
  | [] => ret reserved
  | (itype, count) :: request' =>
    let! cr_id := _create region zone itype count duration group_arn in
    if truthy cr_id
    then reserve_types region zone letter duration group_arn request'
           (record_reservation reserved letter itype (default EmptyString cr_id))
    else _cancel_reservations region reserved ;;; sleep_if_grouped group_arn ;;; ret []
  end.

Fixpoint reserve_zones (region : string) (duration : pyval) (group_arn : option string)
    (request : list (string * Z)) (zones : list string) (reserved : registry) : action unit :=
  match zones with
  | [] => raise CapacityReservationError
  | zone :: zones' =>
    let! letter := last_char zone in
    let! reserved := reserve_types region zone letter duration group_arn request (dict_set letter [] reserved) in
    if truthy reserved
    then set_param "availability_zone" (VStr letter) ;;; set_own (set_reservations reserved)
    else reserve_zones region duration group_arn request zones' reserved
  end.

Definition find_group (region test_id : string) : action (option string) :=
  let! use := get_own (λ s, truthy (pget "use_placement_group" (prm s))) in
  if use : bool then
    let! groups := api cloud (DescribeGroups region [Filter "tag:TestId" [test_id]]) in
    match groups with
    | [] => raise CapacityReservationError
    | _ => match pg_arn <$> filter (λ g, pg_state g = "available") groups with
           | arn :: _ => ret (Some arn)
           | [] => raise IndexError
           end
    end
  else ret None.

Definition of_outcome {A} (r : outcome cexn A) : action A := match r with Ok a => ret a | Err x => raise x end.

Definition reserve : action unit :=
  let! p := get_own prm in
  if negb (AwsFallback.is_capacity_reservation_enabled p) then ret tt
  else
    get_cr_from_aws false ;;;
    let! found := get_own reservations in
    if truthy found then ret tt
    else
      let! region := first_region in
      let! test_id := get_own (str_param "test_id") in
      let! group_arn := find_group region test_id in
      let! p := get_own prm in
      let! (request, duration) := of_outcome (_get_cr_request_based_on_sct_config p) in
      let! zones := _get_supported_availability_zones request.*1 region (pget "availability_zone" p) in
      reserve_zones region duration group_arn request zones [].

(** [reservations[availability_zone][instance_type]] *)
Definition get_id (availability_zone instance_type : string) : action string :=
  let! r := get_own reservations in
  match zone ← dict_get availability_zone r; dict_get instance_type zone with
  | Some id => ret id
  | None => raise KeyError
  end.

Definition cancel : action unit :=
  let! r := get_own reservations in
  if negb (truthy r) then ret tt
  else let! region := first_region in _cancel_reservations region r ;;; set_own (set_reservations []).

Definition cancel_region (test_id region : string) : action unit :=
  ignoring is_client_error (
    let! found := api cloud (DescribeReservations region (test_filters test_id "active")) in
    for_each found (λ r, ignoring is_client_error (api cloud (CancelReservation region (cr_id r))))).

(** The regions are handled in parallel and what they raise is ignored. *)
Definition cancel_all_regions (test_id : pyval) : action unit :=
  if negb (truthy test_id) then ret tt
  else for_each all_aws_regions (λ region,
         ignoring (λ _, true) (cancel_region (match test_id with VStr s => s | _ => EmptyString end) region)).

(** ** Dedicated hosts *)
Definition get_host (s : rstate) (availability_zone instance_type : string) : option string :=
  zone ← dict_get availability_zone (hosts s); dict_get instance_type zone.

Definition is_dedicated_hosts_enabled (p : params) : bool :=
  is_str (pget "cluster_backend" p) "aws" && (truthy (pget "test_id" p) || truthy (pget "reuse_cluster" p)) &&
  truthy (pget "instance_type_db" p) && match pget "use_dedicated_host" p with VBool b => b | _ => false end &&
  is_str (pget "instance_provision" p) "on_demand".

Definition allocate (region zone itype : string) (quantity : Z) (t : tags) : action (option string) :=
  let! r := caught (api cloud (AllocateHost region zone itype quantity t)) in
  ret (match r with Ok (id :: _) => Some id | _ => None end).

Fixpoint host_zones (region itype : string) (t : tags) (zones : list string) : action unit :=
  match zones with
  | [] => raise EnvironmentError
  | zone :: zones' =>
    let! host_id := allocate region zone itype 1 t in
    if truthy host_id then
      let! letter := last_char zone in
      set_param "availability_zone" (VStr letter) ;;;
      set_own (λ s, set_hosts (dict_set zone [(itype, default EmptyString host_id)] (hosts s)) s)
    else host_zones region itype t zones'
  end.

Definition list_ids (v : pyval) : option (list string) :=
  match v with
  | VList l => if truthy v then Some (GceZones.str_items l) else None
  | VStr s => if truthy s then Some [s] else None
  | _ => None
  end.

Definition reserve_hosts : action unit :=
  let! p := get_own prm in
  if negb (is_dedicated_hosts_enabled p) then ret tt
  else
    set_own (set_keep_alive (is_str (pget "post_behavior_dedicated_host" p) "keep")) ;;;
    let test_id := type_param (if truthy (pget "reuse_cluster" p) then "reuse_cluster" else "test_id") p in
    let! region := first_region in
    let! found := match list_ids (pget "aws_dedicated_host_ids" p) with
                  | Some ids => api cloud (DescribeHosts region (Some ids) [Filter "state" ["available"]])
                  | None => api cloud (DescribeHosts region None (test_filters test_id "available"))
                  end in
    match found with
    | h :: _ =>
      set_own (λ s, set_hosts (dict_set (h_zone h) [(h_type h, h_id h)] (hosts s)) s) ;;;
      let! letter := last_char (h_zone h) in
      set_param "availability_zone" (VStr letter)
    | [] =>
      let! keep := get_own keep_alive_host in
      let t := if keep : bool then dict_set "keep" "alive" common_tags else common_tags in
      let t := dict_set "TestId" test_id t in
      let itype := type_param "instance_type_db" p in
      match pget "availability_zone" p with
      | VStr az =>
        let initial_az := region +:+ az in
        let! zones := get_common_availability_zones (substring 0 (String.length initial_az - 1) initial_az) [itype]
                        (if truthy initial_az then [initial_az] else []) in
        host_zones region itype t zones
      | _ => raise TypeError
      end
    end.

(** [exponential_retry] of a release: ten attempts on [ClientError], which an answer that names
    hosts not released also is; then [TimeoutError]. The waits between the attempts are left out. *)
Fixpoint release_attempts (n : nat) (region : string) (ids : list string) : action unit :=
  match n with
  | O => raise TimeoutError
  | S n' =>
    let! r := caught (api cloud (ReleaseHosts region ids)) in
    match r with
    | Ok false => ret tt
    | Ok true | Err ClientError => release_attempts n' region ids
    | Err x => raise x
    end
  end.
Definition _release_hosts (region : string) (r : registry) : action unit :=
  for_each r (λ zone, for_each zone.2 (λ item, release_attempts 10 region [item.2])).

Definition release : action unit :=
  let! h := get_own hosts in
  if negb (truthy h) then ret tt
  else
    let! keep := get_own keep_alive_host in
    if keep : bool then ret tt
    else
      let! region := first_region in
      _release_hosts region h ;;;
      set_own (set_hosts_reservations (Some [])).

Definition aws_filters (d : tags_dict) : list ec2_filter := (λ kv, Filter ("tag:" +:+ kv.1) (tag_values kv.2)) <$> d.

(** The hosts by region, of the regions that could be listed. The pauses of up to a second
    before each call are left out. *)
Definition list_hosts (d : tags_dict) (regions : list string) : action (list (string * list host)) :=
  by_region (λ region, api cloud (DescribeHosts region None (aws_filters d))) regions [].

Definition without_node_type (d : tags_dict) : tags_dict := filter (λ kv, kv.1 ≠ "NodeType") d.

Definition release_by_tags (d : tags_dict) (regions : list string) (dry_run : bool) : action unit :=
  let d := without_node_type d in
  if negb (truthy d) then raise AssertionError
  else
    let! found := list_hosts d (if truthy regions then regions else all_aws_regions) in
    for_each found (λ rh, for_each rh.2 (λ h,
      if dry_run then ret tt else _release_hosts rh.1 [(rh.1, [("instance_type", h_id h)])])).
End Api.

(** ** What the run holds *)
Definition created_by (e : event) : option string :=
  match e with
  | Event c r => match c return outcome cexn (resp c) → option string with
                 | CreateReservation _ _ _ _ _ _ => λ r, match r with Ok id => Some id | Err _ => None end
                 | _ => λ _, None
                 end r
  end.
(** The reservation a call asks AWS to cancel, whatever the answer. *)
Definition asked_by (e : event) : option string :=
  match ev_call e with CancelReservation _ id => Some id | _ => None end.

(** The reservations made that AWS was never asked to cancel. *)
Definition kept (h : list event) : list string :=
  filter (λ id, id ∉ omap asked_by h) (omap created_by h).

Lemma kept_other h e : created_by e = None → asked_by e = None → kept (h ++ [e]) = kept h.
Proof. intros H1 H2. unfold kept. rewrite !omap_app. cbn. by rewrite H1, H2, !app_nil_r. Qed.

Lemma kept_created h e id : created_by e = Some id → asked_by e = None → id ∉ omap asked_by h →
  kept (h ++ [e]) = kept h ++ [id].
Proof.
  intros H1 H2 Hid. unfold kept. rewrite !omap_app. cbn. rewrite H1, H2, app_nil_r, filter_app.
  by rewrite filter_cons_True by done.
Qed.

Lemma kept_asked h e id : created_by e = None → asked_by e = Some id →
  kept (h ++ [e]) = filter (λ x, x ≠ id) (kept h).
Proof.
  intros H1 H2. unfold kept. rewrite !omap_app. cbn. rewrite H1, H2, app_nil_r, list_filter_filter.
  apply list_filter_iff. intros x. set_solver.
Qed.

Lemma kept_sub h : kept h ⊆ omap created_by h.
Proof. intros x. unfold kept. rewrite list_elem_of_filter. tauto. Qed.

(** AWS made the reservation [item] (type and identifier) for the instances [wanted] (type and
    number) in the zone. *)
Definition reserved_in (region zone : string) (minutes : Z) (arn : option string) (h : list event)
    (wanted : string * Z) (item : string * string) : Prop :=
  item.1 = wanted.1 ∧ Event (CreateReservation region zone wanted.1 wanted.2 minutes arn) (Ok item.2) ∈ h.

Lemma reserved_in_mono region zone minutes arn h h' request inner :
  (∀ e, e ∈ h → e ∈ h') → Forall2 (reserved_in region zone minutes arn h) request inner →
  Forall2 (reserved_in region zone minutes arn h') request inner.
Proof. intros Hh Hf. eapply Forall2_impl; [exact Hf|]. intros w i [? ?]. split; auto. Qed.

Lemma reserved_types region zone minutes arn h request inner :
  Forall2 (reserved_in region zone minutes arn h) request inner → inner.*1 = request.*1.
Proof. induction 1 as [|w i request inner [Hi _] _ IH]; [done|]. cbn. by rewrite Hi, IH. Qed.

Section Holding.
Context (cloud : list event → ∀ c : call, outcome cexn (resp c)).
(** AWS gives every reservation an identifier of its own. *)
Hypothesis fresh_ids : ∀ h region zone itype count minutes arn id,
  cloud h (CreateReservation region zone itype count minutes arn) = Ok id →
  id ∉ omap created_by h ∧ id ∉ omap asked_by h ∧ id ≠ EmptyString.
(** A cancellation that fails fails with an error of the API. *)
Hypothesis cancel_errors : ∀ h region id x, cloud h (CancelReservation region id) = Err x → x = ClientError.

(** Besides [held], the run keeps the reservations [ids], all different. *)
Definition holds (held ids : list string) (h : list event) : Prop :=
  kept h = held ++ ids ∧ NoDup ids ∧ ∀ x, x ∈ ids → x ∉ held.

Lemma create_holds held ids region zone itype count duration arn s s' r :
  holds held ids (hist s) → _create cloud region zone itype count duration arn s = (s', r) →
  own s' = own s ∧ (∀ e, e ∈ hist s → e ∈ hist s') ∧
  ((∃ id minutes, r = Ok (Some id) ∧ id ≠ EmptyString ∧ duration = VInt minutes ∧ holds held (ids ++ [id]) (hist s') ∧
      reserved_in region zone minutes arn (hist s') (itype, count) (itype, id)) ∨
   (r = Ok None ∧ holds held ids (hist s'))).
Proof using Type*.
  intros (Hl & Hnd & Hdis). unfold _create. destruct duration as [| |minutes| |]; try by (intros [= <- <-]; split_and!; [done|done|by right]).
  unfold bind, caught, api. destruct (cloud (hist s) _) as [id|x] eqn:E; intros [= <- <-]; cbn [own hist];
    (split; [done|]); (split; [intros e He; apply elem_of_app; by left|]).
  - left. exists id, minutes. destruct (fresh_ids _ _ _ _ _ _ _ _ E) as (Hc & Hx & Hne). split_and!; [done..| |].
    + assert (Hnew : id ∉ kept (hist s)) by (intros ?; by apply Hc, kept_sub).
      split; [rewrite (kept_created _ _ id), Hl by done; by rewrite (assoc_L (++))|]. rewrite Hl, elem_of_app in Hnew.
      split; [apply NoDup_app; split_and!; [done|set_solver|apply NoDup_singleton]|]. set_solver.
    + split; [done|]. apply elem_of_app. right. apply list_elem_of_singleton. done.
  - right. split; [done|]. by split; [rewrite kept_other|].
Qed.

Lemma cancel_list_holds region held ids (items : list (string * string)) (s : cstate rstate) :
  items.*2 = ids → holds held ids (hist s) →
  ∃ s', for_each items (λ item, ignoring is_client_error (api cloud (CancelReservation region item.2))) s = (s', Ok tt) ∧
        own s' = own s ∧ kept (hist s') = held.
Proof using Type*.
  revert ids s. induction items as [|[t id] items IH]; intros ids s <- (Hl & Hnd & Hdis); simpl in *.
  - exists s. by rewrite Hl, app_nil_r.
  - apply NoDup_cons in Hnd as [Hid Hnd].
    destruct (IH items.*2 (CState (hist s ++ [Event (CancelReservation region id) (cloud (hist s) (CancelReservation region id))]) (own s))) as (s' & E & Ho & Hh); [done| |].
    + split; [|split; [done|set_solver]]. cbn [hist]. rewrite (kept_asked _ _ id), Hl; [|done|done].
      rewrite filter_app, filter_cons_False by (by intros []). rewrite !filter_always; [done| |]; set_solver.
    + exists s'. split; [|done]. unfold bind at 1, ignoring, try_except, api at 1. cbn [snd].
      pose proof (cancel_errors (hist s) region id) as Hc.
      destruct (cloud (hist s) (CancelReservation region id)) as [[]|x]; [exact E|]. rewrite (Hc x eq_refl) in *. exact E.
Qed.

Lemma record_same letter itype id inner :
  record_reservation [(letter, inner)] letter itype id = [(letter, dict_set itype id inner)].
Proof. unfold record_reservation. cbn. by rewrite !decide_True by done. Qed.

Lemma sleep_if_grouped_spec arn (s : cstate rstate) :
  ∃ s', sleep_if_grouped arn s = (s', Ok tt) ∧ own s' = own s ∧ kept (hist s') = kept (hist s).
Proof.
  unfold sleep_if_grouped. destruct arn as [a|]; [|by exists s]. destruct (truthy a); [|by exists s].
  eexists. split; [done|]. cbn [own hist]. split; [done|]. by rewrite kept_other.
Qed.

(** One zone serves the whole request, or what it gave is cancelled and the dictionary empty. *)
Lemma reserve_types_holds held region zone letter duration arn request done_ (inner : list (string * string)) s s' r :
  NoDup (inner.*1 ++ request.*1) → holds held inner.*2 (hist s) →
  (∀ minutes, duration = VInt minutes → Forall2 (reserved_in region zone minutes arn (hist s)) done_ inner) →
  reserve_types cloud region zone letter duration arn request [(letter, inner)] s = (s', r) →
  own s' = own s ∧
  ((∃ inner', r = Ok [(letter, inner')] ∧ holds held inner'.*2 (hist s') ∧
      (request ≠ [] → ∃ minutes, duration = VInt minutes) ∧
      ∀ minutes, duration = VInt minutes → Forall2 (reserved_in region zone minutes arn (hist s')) (done_ ++ request) inner') ∨
   (r = Ok [] ∧ kept (hist s') = held)).
Proof using Type*.
  revert done_ inner s. induction request as [|[itype count] request IH]; intros done_ inner s Hnd Hh Hd; cbn [reserve_types].
  { intros [= <- <-]. split; [done|]. left. exists inner. by rewrite app_nil_r. }
  unfold bind at 1. destruct (_create cloud region zone itype count duration arn s) as [s1 r1] eqn:E1.
  destruct (create_holds held inner.*2 _ _ _ _ _ _ _ _ _ Hh E1) as (Ho & Hmono & [(id & minutes & -> & Hne & Edur & Hh1 & Hres)|[-> Hh1]]).
  - destruct id as [|c id]; [done|]. cbn [truthy truthy_option truthy_string default]. rewrite record_same.
    assert (Hk : dict_get itype inner = None).
    { apply dict_get_None. intros Hi. apply NoDup_app in Hnd as (_ & Hdis & _). apply (Hdis _ Hi). left. }
    rewrite (dict_set_new _ _ _ Hk). intros Hr.
    destruct (IH (done_ ++ [(itype, count)]) (inner ++ [(itype, String c id)]) s1) as [Ho1 Hend].
    + rewrite fmap_app, <- (assoc_L (++)). exact Hnd.
    + by rewrite fmap_app.
    + intros m Em. apply Forall2_app; [by eapply reserved_in_mono, Hd|]. rewrite Edur in Em. injection Em as <-. by constructor.
    + exact Hr.
    + split; [congruence|]. destruct Hend as [(inner' & -> & Hh' & _ & Hf)|?]; [left|by right].
      exists inner'. rewrite <- (assoc_L (++)) in Hf. split_and!; [done|done|by exists minutes|done].
  - cbn [truthy truthy_option]. unfold _cancel_reservations. cbn [for_each snd].
    destruct (cancel_list_holds region held inner.*2 inner s1) as (s2 & E2 & Ho2 & Hl2); [done..|].
    destruct (sleep_if_grouped_spec arn s2) as (s3 & E3 & Ho3 & Hl3).
    unfold bind. rewrite E2. cbn [ret]. unfold ret at 1. rewrite E3. intros [= <- <-]. split; [congruence|]. right.
    split; [done|congruence].
Qed.

(** What [reserve_zones] leaves: everything in one zone, recorded, or nothing. *)
Lemma reserve_zones_holds held region duration arn request zones s s' r :
  NoDup request.*1 → request ≠ [] → kept (hist s) = held →
  reserve_zones cloud region duration arn request zones [] s = (s', r) →
  match r with
  | Ok _ => ∃ minutes zone letter inner, duration = VInt minutes ∧ zone ∈ zones ∧ last_letter zone = Some letter ∧
            own s' = set_reservations [(letter, inner)] (set_conf (AwsZones.set_param "availability_zone" (VStr letter) (rconf (own s))) (own s)) ∧
            Forall2 (reserved_in region zone minutes arn (hist s')) request inner ∧ NoDup inner.*2 ∧
            kept (hist s') = held ++ inner.*2
  | Err _ => kept (hist s') = held ∧ own s' = own s
  end.
Proof using Type*.
  intros Hnd Hne. revert s. induction zones as [|zone zones IH]; intros s Hl; cbn [reserve_zones]; [by intros [= <- <-]|].
  unfold last_char at 1. destruct (last_letter zone) as [letter|] eqn:Ez; [|by intros [= <- <-]].
  unfold bind at 1. cbn [ret]. unfold bind at 1. cbn [dict_set].
  destruct (reserve_types _ _ _ _ _ _ _ _ s) as [s1 r1] eqn:E1.
  assert (Hh0 : holds held [] (hist s)) by (split; [by rewrite Hl, app_nil_r|split; [constructor|set_solver]]).
  destruct (reserve_types_holds held region zone letter duration arn request [] [] s s1 r1 Hnd Hh0 (λ _ _, List.Forall2_nil _) E1)
    as [Ho [(inner & -> & (Hk & Hn & _) & Hm & Hf)|[-> Hl1]]].
  - cbn [truthy truthy_list]. unfold bind, set_param, set_own, modify. intros [= <- <-]. cbn [own hist].
    destruct (Hm Hne) as [minutes Em]. exists minutes, zone, letter, inner. split; [done|]. split; [left|]. split; [done|]. rewrite Ho. split; [done|].
    split; [by apply Hf|]. done.
  - cbn [truthy truthy_list]. intros Hr. specialize (IH s1 Hl1 Hr). destruct r as [?|?].
    + destruct IH as (m & z & l & i & Hm & Hz & Hrest). exists m, z, l, i. rewrite Ho in Hrest. split; [done|]. split; [by right|]. done.
    + by rewrite <- Ho.
Qed.

Lemma add_count_wf k n d : dict_wf d → dict_wf (add_count k n d).
Proof. apply dict_set_wf. Qed.

Lemma request_wf p request duration : _get_cr_request_based_on_sct_config p = Ok (request, duration) → NoDup request.*1.
Proof.
  unfold _get_cr_request_based_on_sct_config. intros H.
  assert (H0 : dict_wf ([] : list (string * Z))) by constructor.
  repeat match goal with
  | H : obind ?c _ = Ok _ |- _ => let E := fresh in destruct c as [?|?] eqn:E; cbn [obind] in H; [|done]
  | H : (if ?b then _ else _) = Ok _ |- _ => destruct b
  | H : (let '(_, _) := ?x in _) = Ok _ |- _ => destruct x eqn:?
  | H : (if ?b then _ else _) = (_, _) |- _ => destruct b
  | H : _ = Ok _ |- _ => progress simplify_eq/=
  end; simplify_eq/=; apply dict_filter_wf; eauto 10 using add_count_wf.
Qed.

(** Reading keeps what is kept. *)
Lemma get_common_zones_spec region types preferred (s s' : cstate rstate) r :
  get_common_availability_zones cloud region types preferred s = (s', r) →
  own s' = own s ∧ kept (hist s') = kept (hist s) ∧
  ∀ zones, r = Ok zones → (types = [] ∧ zones = []) ∨
    ∃ offered, types ≠ [] ∧ Event (DescribeOfferings region types) (Ok offered) ∈ hist s' ∧
      ∀ zone, zone ∈ zones → ∀ t, t ∈ types → (t, zone) ∈ offered.
Proof.
  unfold get_common_availability_zones. destruct types as [|t types]; [intros [= <- <-]; split_and!; [done..|]; intros zones [= <-]; by left|].
  unfold bind, api. destruct (cloud _ _) as [offered|x] eqn:E; intros H; unfold ret in H; simplify_eq; cbn [own hist];
    (split; [done|]); (split; [by rewrite kept_other|]); [|done].
  intros zones [= <-]. right. exists offered. split; [done|]. split; [apply elem_of_app; right; apply list_elem_of_singleton; by rewrite <- E|].
  intros zone Hz. by apply (AwsZones.elem_of_offered_zones offered (t :: types) preferred).
Qed.

Lemma first_region_spec (s s' : cstate rstate) r :
  first_region s = (s', r) → s' = s ∧ ∀ region, r = Ok region → head (AwsZones.region_names (rconf (own s))) = Some region.
Proof. unfold first_region, bind, get_own, gets. destruct (AwsZones.region_names _); intros [= <- <-]; (split; [done|]); [done|]. by intros region [= <-]. Qed.

Lemma find_group_spec region test_id (s s' : cstate rstate) r :
  find_group cloud region test_id s = (s', r) → own s' = own s ∧ kept (hist s') = kept (hist s).
Proof.
  unfold find_group, bind, get_own, gets, api. destruct (truthy _); [|by intros [= <- <-]].
  destruct (cloud _ _) as [[|g gs]|x]; [|destruct (pg_arn <$> _)|]; intros H; cbn in H; unfold ret, raise in H; simplify_eq;
    (split; [done|cbn [hist]; by rewrite kept_other]).
Qed.

(** What the registry is when the reservations of the test are read back, and the zone of the
    last of them. *)
Definition letter_of (r : reservation) : string := default EmptyString (last_letter (cr_zone r)).
Definition recorded (found : list reservation) : registry :=
  foldl (λ d r, record_reservation d (letter_of r) (cr_type r) (cr_id r)) [] found.
Definition last_zone (found : list reservation) (az : pyval) : pyval := foldl (λ _ r, VStr (letter_of r)) az found.

Lemma reservations_collected found result last (s s' : cstate rstate) r :
  collect found result last s = (s', r) →
  s' = s ∧ ∀ a, r = Ok a →
    a = (foldl (λ d r, record_reservation d (letter_of r) (cr_type r) (cr_id r)) result found, last_zone found last).
Proof.
  revert result last. induction found as [|f found IH]; intros result last; cbn [collect].
  { intros [= <- <-]. split; [done|]. by intros a [= <-]. }
  unfold bind at 1, last_char. destruct (last_letter (cr_zone f)) as [l|] eqn:El; [|by intros [= <- <-]].
  unfold ret at 1. intros [-> Hr]%IH. split; [done|]. intros a Ha. rewrite (Hr a Ha). cbn [foldl]. unfold last_zone. cbn [foldl].
  unfold letter_of. by rewrite El.
Qed.

Lemma record_nonempty d l t i : record_reservation d l t i ≠ [].
Proof. unfold record_reservation. destruct d as [|[k v] d]; cbn; [done|]. by case_match. Qed.

Lemma recorded_nonempty found : found ≠ [] → recorded found ≠ [].
Proof.
  unfold recorded. destruct found as [|f found] using rev_ind; [done|]. intros _. rewrite foldl_snoc. apply record_nonempty.
Qed.

Definition with_reservations (reserved : registry) (az : pyval) (s : rstate) : rstate :=
  set_reservations reserved (set_conf (AwsZones.set_param "availability_zone" az (rconf s)) s).

Lemma get_cr_spec s s' r :
  AwsFallback.is_capacity_reservation_enabled (prm (own s)) = true → get_cr_from_aws cloud false s = (s', r) →
  kept (hist s') = kept (hist s) ∧
  match r with
  | Err _ => own s' = own s
  | Ok _ => ∃ region found, head (AwsZones.region_names (rconf (own s))) = Some region ∧
      hist s' = hist s ++ [Event (DescribeReservations region (test_filters (str_param "test_id" (own s)) "active")) (Ok found)] ∧
      ((found = [] ∧ own s' = set_reservations [] (own s)) ∨
       (found ≠ [] ∧ own s' = with_reservations (recorded found) (last_zone found (pget "availability_zone" (prm (own s)))) (own s)))
  end.
Proof.
  intros Hen. unfold get_cr_from_aws. unfold bind at 1, get_own at 1, gets at 1. rewrite Hen. cbn [negb andb orb].
  assert (truthy (pget "test_id" (prm (own s))) = true) as ->.
  { revert Hen. unfold AwsFallback.is_capacity_reservation_enabled. rewrite !andb_true_iff. tauto. }
  cbn [negb]. unfold bind at 1, get_own at 1, gets at 1. unfold bind at 1.
  destruct (first_region s) as [s1 [region|x]] eqn:Er; apply first_region_spec in Er as [-> Hreg]; [|by intros [= <- <-]].
  unfold bind at 1, api. destruct (cloud _ _) as [found|x] eqn:E.
  2:{ intros [= <- <-]. cbn [hist own]. split; [by rewrite kept_other|done]. }
  unfold bind at 1. destruct (collect found [] _ _) as [s2 [[result az]|x]] eqn:Ec; apply reservations_collected in Ec as [-> Hc].
  2:{ intros [= <- <-]. cbn [hist own]. split; [by rewrite kept_other|done]. }
  specialize (Hc _ eq_refl). injection Hc as -> ->. fold (recorded found). intros H.
  assert (s' = CState (hist s ++ [Event (DescribeReservations region (test_filters (str_param "test_id" (own s)) "active")) (Ok found)])
           (if bool_decide (found = []) then set_reservations [] (own s)
            else with_reservations (recorded found) (last_zone found (pget "availability_zone" (prm (own s)))) (own s)) ∧ r = Ok tt) as [-> ->].
  { unfold bind, set_param, set_own, modify in H. case_bool_decide as Hf; [subst found; by injection H as <- <-|].
    pose proof (recorded_nonempty found Hf) as Hn. destruct (recorded found) as [|x l]; [done|]. by injection H as <- <-. }
  cbn [hist own]. split; [by rewrite kept_other|]. exists region, found. split; [by apply Hreg|]. split; [done|].
  case_bool_decide; [by left|by right].
Qed.

Lemma reserve_zones_emits region duration arn request zones reserved :
  emits (λ _, True) (reserve_zones cloud region duration arn request zones reserved).
Proof.
  assert (∀ zone itype count, emits (λ _, True) (_create cloud region zone itype count duration arn)) as Hcr.
  { intros zone itype count. unfold _create. destruct duration; auto using emits_ret.
    apply emits_bind_all; [by apply emits_caught, emits_api|]. intros. apply emits_ret. }
  assert (∀ r, emits (λ _, True) (_cancel_reservations cloud region r)) as Hca.
  { intros r. apply emits_for_each. intros z _. apply emits_for_each. intros i _. by apply emits_ignoring, emits_api. }
  assert (emits (λ _, True) (sleep_if_grouped arn)) as Hsl.
  { unfold sleep_if_grouped. destruct arn as [a|]; [|apply emits_ret]. case_match; [by apply emits_pause|apply emits_ret]. }
  assert (∀ zone letter reserved, emits (λ _, True) (reserve_types cloud region zone letter duration arn request reserved)) as Ht.
  { intros zone letter. induction request as [|[t n] req IH]; intros d; cbn [reserve_types]; [apply emits_ret|].
    apply emits_bind_all; [auto|]. intros id. case_match; [apply IH|]. auto using emits_bind_all, emits_ret. }
  revert reserved. induction zones as [|z zones IH]; intros reserved; cbn [reserve_zones]; [apply emits_raise|].
  apply emits_bind_all; [unfold last_char; case_match; auto using emits_ret, emits_raise|]. intros letter.
  apply emits_bind_all; [auto|]. intros d. case_match; [|apply IH]. unfold set_param. auto using emits_bind_all, emits_set.
Qed.

(** The state [reserve] leaves when it reserved what [p] asks for. *)
Definition newly_reserved (s s' : cstate rstate) : Prop :=
  ∃ region request minutes arn offered zone letter inner,
    head (AwsZones.region_names (rconf (own s))) = Some region ∧
    _get_cr_request_based_on_sct_config (prm (own s)) = Ok (request, VInt minutes) ∧
    Event (DescribeOfferings region request.*1) (Ok offered) ∈ hist s' ∧ (∀ t, t ∈ request.*1 → (t, zone) ∈ offered) ∧
    last_letter zone = Some letter ∧
    Forall2 (reserved_in region zone minutes arn (hist s')) request inner ∧ NoDup inner.*2 ∧
    own s' = with_reservations [(letter, inner)] (VStr letter) (own s) ∧
    kept (hist s') = kept (hist s) ++ inner.*2.

(** The state [reserve] leaves when AWS had reservations of the test. *)
Definition found_reserved (s s' : cstate rstate) : Prop :=
  ∃ region found, head (AwsZones.region_names (rconf (own s))) = Some region ∧ found ≠ [] ∧
    hist s' = hist s ++ [Event (DescribeReservations region (test_filters (str_param "test_id" (own s)) "active")) (Ok found)] ∧
    own s' = with_reservations (recorded found) (last_zone found (pget "availability_zone" (prm (own s)))) (own s).

Lemma reserve_outcome s s' r :
  AwsFallback.is_capacity_reservation_enabled (prm (own s)) = true → reserve cloud s = (s', r) →
  match r with
  | Ok _ => found_reserved s s' ∨ newly_reserved s s'
  | Err _ => kept (hist s') = kept (hist s) ∧ (own s' = own s ∨ own s' = set_reservations [] (own s))
  end.
Proof using Type*.
  intros Hen. unfold reserve. unfold bind at 1, get_own at 1, gets at 1. rewrite Hen. cbn [negb].
  unfold bind at 1. destruct (get_cr_from_aws cloud false s) as [s1 [[]|x]] eqn:E1; apply get_cr_spec in E1 as [Hl Hc]; try done.
  2:{ intros [= <- <-]. auto. }
  destruct Hc as (region & found & Hreg & Hh & Hown). unfold bind at 1, get_own at 1, gets at 1.
  destruct Hown as [[-> Ho]|[Hf Ho]].
  2:{ assert (reservations (own s1) = recorded found) as -> by (by rewrite Ho).
      pose proof (recorded_nonempty found Hf) as Hn. destruct (recorded found) eqn:Er; [done|].
      intros [= <- <-]. left. exists region, found. by rewrite Er. }
  assert (reservations (own s1) = []) as -> by (by rewrite Ho). cbn [truthy truthy_list].
  unfold bind at 1. destruct (first_region s1) as [s2 [region'|x]] eqn:Er; apply first_region_spec in Er as [-> Hr'];
    [|intros [= <- <-]; auto].
  specialize (Hr' _ eq_refl). rewrite Ho in Hr'. cbn [rconf set_reservations] in Hr'. rewrite Hreg in Hr'. injection Hr' as <-.
  unfold bind at 1, get_own at 1, gets at 1. unfold bind at 1.
  destruct (find_group _ _ _ s1) as [s2 [arn|x]] eqn:Eg; apply find_group_spec in Eg as [Ho2 Hl2];
    [|intros [= <- <-]; split; [congruence|right; congruence]].
  unfold bind at 1, get_own at 1, gets at 1. unfold bind at 1, of_outcome.
  assert (prm (own s2) = prm (own s)) as -> by (by rewrite Ho2, Ho).
  destruct (_get_cr_request_based_on_sct_config (prm (own s))) as [[request duration]|x] eqn:Eq;
    [|intros [= <- <-]; split; [congruence|right; congruence]].
  cbn [ret]. unfold bind at 1, _get_supported_availability_zones.
  destruct (get_common_availability_zones cloud _ _ _ s2) as [s3 [zones|x]] eqn:Ez; apply get_common_zones_spec in Ez as (Ho3 & Hl3 & Hz);
    [|intros [= <- <-]; split; [congruence|right; congruence]].
  intros Hr. destruct (Hz _ eq_refl) as [[_ ->]|(offered & Hne & Hev & Hoff)].
  { cbn in Hr. injection Hr as <- <-. split; [congruence|right; congruence]. }
  destruct (reserve_zones_emits region duration arn request zones [] s3) as (new & Hnew & _). rewrite Hr in Hnew. cbn [fst] in Hnew.
  apply (reserve_zones_holds (kept (hist s))) in Hr; [|by eapply request_wf|by intros ->|congruence].
  destruct r as [[]|x]; [|split; [tauto|right; destruct Hr; congruence]]. right.
  destruct Hr as (minutes & zone & letter & inner & -> & Hzin & Hlast & Hown & Hf & Hnd & Hk).
  exists region, request, minutes, arn, offered, zone, letter, inner. split_and!; try done.
  - rewrite Hnew. apply elem_of_app. by left.
  - by apply Hoff.
  - by rewrite Hown, Ho3, Ho2, Ho.
Qed.
End Holding.


(** A cloud with two zones, the first of which has no room for the loaders; a cancellation of
    what was made there fails. *)
Definition sample_id (h : list event) : string := foldr append "cr" (omap created_by h ++ omap asked_by h).
Definition sample_cloud (h : list event) (c : call) : outcome cexn (resp c) :=
  match c return outcome cexn (resp c) with
  | DescribeReservations _ _ => Ok []
  | CreateReservation _ zone itype _ _ _ =>
    if String.eqb zone "us-east-1a" && String.eqb itype "c6i.2xlarge" then Err ClientError else Ok (sample_id h)
  | CancelReservation _ _ => Err ClientError
  | DescribeOfferings _ types => Ok (t ← types; [(t, "us-east-1a"); (t, "us-east-1b")])
  | _ => Err OtherError
  end.
Definition sample_state : cstate rstate :=
  CState [] (RState (AwsZones.Conf (list_to_map
    [("cluster_backend", VStr "aws"); ("test_id", VStr "42"); ("use_capacity_reservation", VBool true);
     ("instance_provision", VStr "on_demand"); ("n_db_nodes", VList [VInt 3]); ("simulated_regions", VInt 0);
     ("region_name", VStr "us-east-1"); ("availability_zone", VStr "a"); ("instance_type_db", VStr "i4i.large");
     ("instance_type_loader", VStr "c6i.2xlarge"); ("n_loaders", VList [VInt 2]); ("test_duration", VInt 60)])
    None None) [] [] None false).

Lemma foldr_append_length (l : list string) t x : x ∈ l → (String.length x <= String.length (foldr append t l) - String.length t)%nat.
Proof.
  assert (Ht : ∀ l, (String.length t <= String.length (foldr append t l))%nat).
  { clear. induction l as [|y l IH]; simpl; [done|]. rewrite (PyLiteral.str_length_app y). lia. }
  induction l as [|y l IH]; [by intros ?%elem_of_nil|]. specialize (Ht l).
  intros [->|Hx]%elem_of_cons; simpl; rewrite (PyLiteral.str_length_app _ (foldr append t l)); [lia|]. specialize (IH Hx). lia.
Qed.

Lemma sample_id_fresh h : sample_id h ∉ omap created_by h ++ omap asked_by h ∧ sample_id h ≠ EmptyString.
Proof.
  assert (H2 : ∀ l, (2 <= String.length (foldr append "cr" l))%nat).
  { induction l as [|y l IH]; simpl; [done|]. rewrite (PyLiteral.str_length_app y). lia. }
  unfold sample_id. split.
  - intros Hin. apply (foldr_append_length _ "cr") in Hin. specialize (H2 (omap created_by h ++ omap asked_by h)).
    change (String.length "cr") with 2%nat in Hin. lia.
  - intros E. specialize (H2 (omap created_by h ++ omap asked_by h)). rewrite E in H2. cbn in H2. lia.
Qed.


(** ** Releasing dedicated hosts *)

Lemma release_attempts_own cloud n region ids (s : cstate rstate) : own (release_attempts cloud n region ids s).1 = own s.
Proof.
  revert s. induction n as [|n IH]; intros s; [done|]. cbn. unfold bind, caught, api.
  destruct (cloud (hist s) (ReleaseHosts region ids)) as [[]|[]]; try done; by rewrite IH.
Qed.

Lemma _release_hosts_own cloud region r (s : cstate rstate) : own (_release_hosts cloud region r s).1 = own s.
Proof.
  unfold _release_hosts. assert (H : keeps_state (λ s', own s' = own s) (for_each r (λ zone, for_each zone.2 (λ item, release_attempts cloud 10 region [item.2])))).
  { apply keeps_state_for_each. intros zone. apply keeps_state_for_each. intros item s' <-. apply release_attempts_own. }
  by apply H.
Qed.

(** The registry of hosts is not emptied by a release: it sets the attribute [reservations] of the
    class, so [get_host] goes on answering with hosts that are gone. *)
Lemma released_hosts_still_registered cloud (s s' : cstate rstate) zone itype :
  release cloud s = (s', Ok tt) → get_host (own s') zone itype = get_host (own s) zone itype.
Proof.
  unfold release. unfold bind at 1, get_own at 1, gets at 1. case_match; [by intros [= <-]|].
  unfold bind at 1, get_own at 1, gets at 1. case_match; [by intros [= <-]|].
  unfold bind at 1. destruct (first_region s) as [s1 [region|x]] eqn:E; apply first_region_spec in E as [-> _]; [|done].
  unfold bind. pose proof (_release_hosts_own cloud region (hosts (own s)) s) as Ho.
  destruct (_release_hosts cloud region (hosts (own s)) s) as [s2 [[]|x]]; [|done].
  intros [= <-]. cbn in *. unfold get_host. cbn. by rewrite Ho.
Qed.
End AwsReservations.
