(* ===== verification/Cleanup.v ===== *)
(** * Cleaning up what a test run created

    Model of [sdcm/utils/resources_cleanup.py] with the listing functions of
    [sdcm/utils/common.py] and [sdcm/utils/oci_utils.py] it goes by: the cleaners of each kind
    of resource, [clean_cloud_resources], which runs those of the backend one after another
    with their failures isolated, and the post behaviors that decide which node types go.

    Work the source runs in parallel over regions or instances happens here in the order of the
    list, and the pauses before listing calls are left out. *)
From Stdlib Require Import Ascii String ZArith Lia.
From stdpp Require Import base decidable option strings numbers list gmap.
From S2P Require Import Prelude.
From S2P Require Import PyString.
From S2P Require Import PyVal.
From S2P Require Import PyRepr.
From S2P Require Import PyDict.
From S2P Require Import Effects.
From S2P Require Import CloudCalls.
From S2P Require Import GceZones.
From S2P Require Import AwsZones.
From S2P Require Import AwsReservations.
Local Open Scope py_scope.
Local Open Scope Z_scope.

Module Cleanup.
Import Cloud AwsReservations.

(** ** Matching tags *)

(** Every tag looked for is there with an allowed value. *)
Definition tags_match (d : tags_dict) (t : tags) : bool :=
  forallb (λ kv, match dict_get kv.1 t with Some v => tag_allows kv.2 v | None => false end) d.

(** [_oci_tags_match] *)
Definition _oci_tags_match (resource_tags : tags) (d : tags_dict) : bool := tags_match d resource_tags.

(** [filter_gce_by_tags]: the name is enough when it is looked for. Empty keys are dropped from
    the metadata of an instance. *)
Definition gce_meta_to_dict (t : tags) : tags := foldl (λ m kv, if truthy kv.1 then dict_set kv.1 kv.2 m else m) [] t.
Definition gce_matches (d : tags_dict) (r : resource) : bool :=
  match dict_get "Name" d with
  | Some (TStr name) => String.eqb name (r_name r) || tags_match d (gce_meta_to_dict (r_tags r))
  | _ => tags_match d (gce_meta_to_dict (r_tags r))
  end.
Definition filter_gce_by_tags (d : tags_dict) (l : list resource) : list resource :=
  filter (λ r, gce_matches d r = true) l.

(** ["NodeType" in tags_dict and "k8s" not in tags_dict.get("NodeType")] *)
Definition keeps_k8s (d : tags_dict) : bool :=
  match dict_get "NodeType" d with
  | Some (TList l) => negb (bool_decide ("k8s" ∈ l))
  | Some (TStr s) => negb (contains "k8s" s)
  | None => false
  end.
Definition filter_k8s_clusters_by_tags (d : tags_dict) (l : list resource) : list resource :=
  if keeps_k8s d then [] else filter_gce_by_tags (without_node_type d) l.

(** The label docker looks for: any value of [NodeType] will do at first. *)
Definition docker_label (kv : string * tagval) : string :=
  if String.eqb kv.1 "NodeType" then "NodeType"
  else kv.1 +:+ "=" +:+ match kv.2 with TStr s => s | TList l => repr_pyval (VList (VStr <$> l)) end.

(** Its tags, and which OCI resources are to stay. *)
Definition oci_keep_action (t : tags) : string :=
  lower (match dict_get "keep_action" t with Some a => if truthy a then a else "terminate" | None => "terminate" end).
Definition oci_terminates (t : tags) : bool :=
  String.eqb (oci_keep_action t) "terminate" || String.eqb (oci_keep_action t) EmptyString.

Section Cleaners.
Context (cloud : list event → ∀ c : call, outcome cexn (resp c)).
Context (all_aws_regions cached_aws_regions : list string).
Context (oci_regions : list string).
Abbreviation action := (act (cstate rstate) cexn).

Definition any_exception (x : cexn) : bool := true.

(** [assert tags_dict] *)
Definition assert_tags (d : tags_dict) (m : action unit) : action unit :=
  if truthy d then m else raise AssertionError.
Definition or_all (regions : list string) : list string := if truthy regions then regions else all_aws_regions.
Definition unless (dry_run : bool) (m : action unit) : action unit := if dry_run then ret tt else m.

(** ** AWS *)
Definition list_instances_aws (d : tags_dict) (regions : list string) : action (list (string * list resource)) :=
  by_region (λ region,
    let! l := api cloud (DescribeInstances region (aws_filters d)) in
    ret (filter (λ i, r_state i ≠ "terminated") l)) regions [].

Definition clean_instance_aws (dry_run : bool) (region : string) (i : resource) : action unit :=
  let name := default "N/A" (dict_get "Name" (r_tags i)) in
  if bool_decide (dict_get "NodeType" (r_tags i) = Some "sct-runner") then ret tt
  else unless dry_run (
    api cloud (TerminateInstance region (r_id i)) ;;;
    (if existsb (String.eqb (r_state i)) ["shutting-down"; "terminated"] then ret tt else api cloud (ReportCosts [name])) ;;;
    api cloud (TerminateInArgus name)).
Definition clean_instances_aws (d : tags_dict) (regions : list string) (dry_run : bool) : action unit :=
  assert_tags d (
    let! found := list_instances_aws d (or_all regions) in
    for_each found (λ rl, for_each rl.2 (clean_instance_aws dry_run rl.1))).

(** The fleet requests of a region to cancel; what cannot be listed is passed over. *)
Definition fleet_matches (d : tags_dict) (f : resource) : bool :=
  existsb (String.eqb (r_state f)) ["submitted"; "active"; "modifying"] && tags_match d (r_tags f).
Definition clean_fleets_region (d : tags_dict) (dry_run : bool) (region : string) : action bool :=
  let! r := caught (api cloud (DescribeSpotFleets region)) in
  match r with
  | Err ClientError => ret false
  | Err x => raise x
  | Ok fleets =>
    let request_ids := r_id <$> filter (λ f, fleet_matches d f = true) fleets in
    if negb (truthy request_ids) || dry_run then ret false
    else
      let! c := caught (api cloud (CancelSpotFleets region request_ids)) in
      match c with Ok _ => ret true | Err ClientError => ret false | Err x => raise x end
  end.
Fixpoint clean_fleets (d : tags_dict) (dry_run : bool) (regions : list string) (any_cancelled : bool) : action bool :=
  match regions with
  | [] => ret any_cancelled
  | region :: regions' =>
    let! c := clean_fleets_region d dry_run region in clean_fleets d dry_run regions' (any_cancelled || c)
  end.
Definition clean_spot_fleet_requests_aws (d : tags_dict) (regions : list string) (dry_run : bool) : action unit :=
  assert_tags d (
    let! any_cancelled := clean_fleets d dry_run (if truthy regions then regions else cached_aws_regions) false in
    if any_cancelled : bool then pause 30 else ret tt).

Definition clean_elastic_ips_aws (d : tags_dict) (regions : list string) (dry_run : bool) : action unit :=
  assert_tags d (
    let! found := by_region (λ region, api cloud (DescribeAddresses region (aws_filters d))) (or_all regions) [] in
    for_each found (λ rl, for_each rl.2 (λ eip : address,
      (match a_association eip with
       | Some association => if truthy association then unless dry_run (api cloud (DisassociateAddress rl.1 association)) else ret tt
       | None => ret tt
       end) ;;;
      unless dry_run (api cloud (ReleaseAddress rl.1 (a_allocation eip)))))).

Definition clean_test_security_groups (d : tags_dict) (regions : list string) (dry_run : bool) : action unit :=
  assert_tags d (
    let! found := by_region (λ region, api cloud (DescribeSecurityGroups region (aws_filters (without_node_type d)))) (or_all regions) [] in
    for_each found (λ rl, for_each rl.2 (λ group_id,
      unless dry_run (ignoring any_exception (api cloud (DeleteSecurityGroup rl.1 group_id)))))).

Definition clean_placement_groups_aws (d : tags_dict) (regions : list string) (dry_run : bool) : action unit :=
  retrying 30 10 (assert_tags (without_node_type d) (
    let! found := by_region (λ region,
        let! l := api cloud (DescribeGroups region (aws_filters (without_node_type d))) in
        ret (filter (λ g, pg_state g ≠ "deleted") l)) (or_all regions) [] in
    for_each found (λ rl, for_each rl.2 (λ g, unless dry_run (api cloud (DeleteGroup rl.1 (pg_name g))))))).

(** [arn.split("/")[1]] *)
Definition arn_name (arn : string) : outcome cexn string :=
  match split_on "/" arn with _ :: name :: _ => Ok name | _ => Err IndexError end.
Definition on_arn (f : string → action unit) (arn : string) : action unit :=
  ignoring any_exception (match arn_name arn with Ok name => f name | Err x => raise x end).

Definition clean_load_balancers_aws (d : tags_dict) (regions : list string) (dry_run : bool) : action unit :=
  if keeps_k8s d then ret tt
  else assert_tags d (
    let! found := by_region (λ region, api cloud (GetResources region "elasticloadbalancing:loadbalancer" (without_node_type d)))
                    (or_all regions) [] in
    for_each found (λ rl, for_each rl.2 (λ arn, unless dry_run (on_arn (λ name, api cloud (DeleteLoadBalancer rl.1 name)) arn)))).

Definition clean_cloudformation_stacks_aws (d : tags_dict) (regions : list string) (dry_run : bool) : action unit :=
  if keeps_k8s d then ret tt
  else assert_tags d (
    let! found := by_region (λ region, api cloud (GetResources region "cloudformation:stack" (without_node_type d)))
                    (or_all regions) [] in
    for_each found (λ rl, for_each rl.2 (λ arn, unless dry_run (on_arn (λ name, api cloud (DeleteStack rl.1 name)) arn)))).

Definition clean_launch_templates_aws (d : tags_dict) (regions : list string) (dry_run : bool) : action unit :=
  assert_tags d (
    let! found := by_region (λ region, api cloud (DescribeLaunchTemplates region (without_node_type d))) (or_all regions) [] in
    for_each found (λ rl, for_each rl.2 (λ lt, unless dry_run (ignoring any_exception (
      api cloud (DeleteLaunchTemplate rl.1 (match lt_name lt with Some n => if truthy n then n else lt_id lt | None => lt_id lt end))))))).

(** [any("db" in node_type for node_type in tags_dict.get("NodeType", []))]: of one text, its
    characters are gone through. *)
Definition clean_aws_kms_alias (d : tags_dict) (regions : list string) : action unit :=
  let test_id := match dict_get "TestId" d with Some (TStr s) => s | _ => "TestIdNotFound" end in
  let db := match dict_get "NodeType" d with Some (TList l) => existsb (contains "db") l | _ => false end in
  if db then api cloud (DeleteKmsAlias regions ("alias/testid-" +:+ test_id)) else ret tt.

(** [cluster_tags.get(key) == value]: a list of allowed values is not equal to any text. *)
Definition emr_matches (d : tags_dict) (c : resource) : bool :=
  forallb (λ kv, match kv.2 with TStr s => bool_decide (dict_get kv.1 (r_tags c) = Some s) | TList _ => false end) d.
Definition list_emr_clusters (d : tags_dict) (region : string) : action (list resource) :=
  let! l := api cloud (ListEmrClusters region) in ret (filter (λ c, emr_matches d c = true) l).
Definition clean_emr_region (d : tags_dict) (dry_run : bool) (region : string) : action unit :=
  let! clusters := list_emr_clusters d region in
  for_each clusters (λ c, unless dry_run (ignoring any_exception (api cloud (TerminateJobFlow region (r_id c))))).
Definition clean_emr_clusters (d : tags_dict) (regions : list string) (dry_run : bool) : action unit :=
  assert_tags d (for_each (or_all regions) (λ region, ignoring any_exception (clean_emr_region d dry_run region))).

(** ** Kubernetes clusters *)

(** The clusters of the regions. A region that cannot be listed ends the listing with nothing. *)
Fixpoint eks_named (region : string) (names : list string) : action (list (string * resource)) :=
  match names with
  | [] => ret []
  | name :: names' =>
    let! r := caught (api cloud (DescribeEksCluster region name)) in
    let! rest := eks_named region names' in
    ret (match r with Ok c => (region, c) :: rest | Err _ => rest end)
  end.
Fixpoint eks_clusters (regions : list string) (found : list (string * resource)) : action (list (string * resource)) :=
  match regions with
  | [] => ret found
  | region :: regions' =>
    let! r := caught (api cloud (ListEksClusters region)) in
    match r with
    | Err _ => ret []
    | Ok names => let! l := eks_named region names in eks_clusters regions' (found ++ l)
    end
  end.
Definition list_clusters_eks (d : tags_dict) (regions : list string) : action (list (string * resource)) :=
  let! l := eks_clusters (or_all regions) [] in
  ret (if truthy d
       then if keeps_k8s d then [] else filter (λ rc, gce_matches (without_node_type d) rc.2 = true) l
       else l).
Definition clean_clusters_eks (d : tags_dict) (regions : list string) (dry_run : bool) : action unit :=
  if keeps_k8s d then ret tt
  else assert_tags d (
    let! clusters := list_clusters_eks d regions in
    for_each clusters (λ rc, unless dry_run (ignoring any_exception (api cloud (DestroyEksCluster rc.1 (r_name rc.2)))))).

Definition list_clusters_gke (project : string) (d : tags_dict) : action (list resource) :=
  let! r := caught (api cloud (ListGkeClusters project)) in
  let l := match r with Ok l => l | Err _ => [] end in
  ret (if truthy d then filter_k8s_clusters_by_tags d l else l).
Definition clean_clusters_gke (project : string) (d : tags_dict) (dry_run : bool) : action unit :=
  if keeps_k8s d then ret tt
  else assert_tags d (
    let! clusters := list_clusters_gke project d in
    for_each clusters (λ c, unless dry_run (ignoring any_exception (api cloud (DestroyGkeCluster project (r_name c)))))).

(** The disks without a user, whatever test they are from. *)
Definition clean_orphaned_gke_disks (project : string) (d : tags_dict) (dry_run : bool) : action unit :=
  if keeps_k8s d then ret tt
  else ignoring any_exception (
    let! r := caught (api cloud (ListOrphanedGkeDisks project)) in
    unless dry_run (for_each (match r with Ok l => l | Err _ => [] end)
      (λ zd, api cloud (DeleteGkeDisks project zd.1 zd.2)))).

(** ** GCE *)

(** Only running instances are listed, whether [running] is asked for or not. *)
Definition list_instances_gce (project : string) (d : tags_dict) (running : bool) : action (list gce_instance) :=
  let! all := api cloud (ListGceInstances project) in
  let instances := if truthy d then filter (λ i, gce_matches d (gi_resource i) = true) all else all in
  ret (if running then filter (λ i, r_state (gi_resource i) = "RUNNING") instances
       else filter (λ i, ¬ (r_state (gi_resource i) ≠ "RUNNING")) instances).

Definition delete_instance (project : string) (dry_run : bool) (i : gce_instance) : action unit :=
  unless dry_run (
    api cloud (DeleteGceInstance project (r_name (gi_resource i)) (List.last (split_on "/" (gi_zone i)) EmptyString)) ;;;
    api cloud (ReportCosts [r_name (gi_resource i)]) ;;;
    api cloud (TerminateInArgus (r_name (gi_resource i)))).

(** [ParallelObject(l).run(f, ignore_exceptions=False)]: all run, then it fails if one did. *)
Fixpoint parallel {A} (f : A → action unit) (l : list A) (failed : bool) : action unit :=
  match l with
  | [] => if failed then raise ParallelObjectException else ret tt
  | x :: l' =>
    let! r := caught (f x) in parallel f l' (match r with Ok _ => failed | Err _ => true end)
  end.

Definition clean_instances_gce (project : string) (d : tags_dict) (dry_run : bool) : action unit :=
  assert_tags d (
    let! instances := list_instances_gce project d false in
    parallel (delete_instance project dry_run) instances false).

(** ** Azure *)
Definition clean_azure_region (d : tags_dict) (dry_run : bool) (region : string) : action unit :=
  let! all_instances := api cloud (ListAzureInstances region) in
  let instances_to_clean := filter (λ i, tags_match d (r_tags i) = true) all_instances in
  unless dry_run (
    if (length all_instances =? length instances_to_clean)%nat then
      api cloud (CleanupAzureRegion region) ;;;
      api cloud (ReportCosts (r_name <$> instances_to_clean)) ;;;
      for_each instances_to_clean (λ i, api cloud (TerminateInArgus (r_name i)))
    else
      for_each instances_to_clean (λ i, api cloud (TerminateAzureInstance region (r_name i))) ;;;
      api cloud (ReportCosts (r_name <$> instances_to_clean))).
Definition clean_instances_azure (d : tags_dict) (regions : list string) (dry_run : bool) : action unit :=
  assert_tags d (
    let test_id := match dict_get "TestId" d with Some (TStr s) => s | _ => EmptyString end in
    let! provisioners := api cloud (DiscoverAzureRegions test_id regions) in
    for_each provisioners (clean_azure_region d dry_run)).

(** ** Docker *)

(** [label in node_type_values], of a list or of a text. *)
Definition label_in (label : option string) (v : tagval) : outcome cexn bool :=
  match v, label with
  | TList l, Some t => Ok (bool_decide (t ∈ l))
  | TList _, None => Ok false
  | TStr s, Some t => Ok (contains t s)
  | TStr _, None => Err TypeError
  end.
(** The containers whose node type, read again, is among those asked for. *)
Fixpoint reloaded (v : tagval) (l : list resource) (kept : list resource) : action (list resource) :=
  match l with
  | [] => ret kept
  | c :: l' =>
    let! c := api cloud (ReloadContainer (r_id c)) in
    let! b := of_outcome (label_in (dict_get "NodeType" (r_tags c)) v) in
    reloaded v l' (if b : bool then kept ++ [c] else kept)
  end.
Definition list_resources_docker (d : tags_dict) : action (list resource * list string) :=
  let! current := api cloud CurrentContainerId in
  let labels := docker_label <$> d in
  let! containers := api cloud (ListContainers labels) in
  let! containers :=
    (match dict_get "NodeType" d with
     | Some v => if truthy v then reloaded v containers [] else ret containers
     | None => ret containers
     end) in
  let containers := if truthy current then filter (λ c, Some (r_id c) ≠ current) containers else containers in
  let containers := filter (λ c, r_state c ≠ "removing") containers in
  let! images := api cloud (ListImages labels) in
  ret (containers, images).

Definition clean_resources_docker (d : tags_dict) (dry_run : bool) : action unit :=
  assert_tags d (
    let! (containers, images) := list_resources_docker d in
    for_each containers (λ c, try_except any_exception (
      (let! _ := api cloud (ReloadContainer (r_id c)) in ret tt) ;;;
      api cloud DockerInfo ;;;
      unless dry_run (api cloud (RemoveContainer (r_id c)))) (λ _, api cloud DockerInfo)) ;;;
    for_each images (λ i, try_except any_exception (
      api cloud DockerInfo ;;;
      unless dry_run (api cloud (RemoveImage i))) (λ _, api cloud DockerInfo))).

(** ** OCI *)

(** The instances of the regions; a region whose listing the service refuses is passed over. *)
Fixpoint list_instances_oci (d : tags_dict) (regions : list string) : action (list (string * list resource)) :=
  match regions with
  | [] => ret []
  | region :: regions' =>
    let! r := caught (api cloud (ListOciInstances region)) in
    match r with
    | Err ClientError => list_instances_oci d regions'
    | Err x => raise x
    | Ok l =>
      let! rest := list_instances_oci d regions' in
      ret ((region, filter (λ i, tags_match d (r_tags i) = true) l) :: rest)
    end
  end.

Definition clean_instance_oci (dry_run : bool) (region : string) (i : resource) : action unit :=
  if bool_decide (dict_get "NodeType" (r_tags i) = Some "sct-runner") then ret tt
  else if negb (oci_terminates (r_tags i)) then
    if String.eqb (r_state i) "RUNNING" && negb dry_run
    then ignoring any_exception (api cloud (StopOciInstance region (r_id i)))
    else ret tt
  else unless dry_run (ignoring any_exception (
    api cloud (TerminateOciInstance region (r_id i)) ;;;
    (if existsb (String.eqb (r_state i)) ["TERMINATING"; "TERMINATED"] then ret tt else api cloud (ReportCosts [r_name i])) ;;;
    api cloud (TerminateInArgus (r_name i)))).
Definition clean_instances_oci (d : tags_dict) (dry_run : bool) : action unit :=
  if negb (truthy d) then ret tt
  else
    let! found := list_instances_oci d oci_regions in
    for_each found (λ rl, for_each rl.2 (clean_instance_oci dry_run rl.1)).

(** [delete_oci_volume_with_retry]: only a volume still attached is tried again. *)
Fixpoint delete_oci_volume_with_retry (attempts : nat) (region id : string) : action unit :=
  match attempts with
  | O => ret tt
  | S attempts' =>
    let! r := caught (api cloud (DeleteOciVolume region id)) in
    match r with
    | Err VolumeAttached =>
      if (1 <=? attempts')%nat then pause 5 ;;; delete_oci_volume_with_retry attempts' region id else ret tt
    | _ => ret tt
    end
  end.
Definition clean_volume_oci (d : tags_dict) (dry_run : bool) (region : string) (v : resource) : action unit :=
  if negb (contains "-vol-" (r_name v)) then ret tt
  else if negb (truthy (r_tags v) && _oci_tags_match (r_tags v) d) then ret tt
  else if negb (oci_terminates (r_tags v)) then ret tt
  else unless dry_run (delete_oci_volume_with_retry 60 region (r_id v)).
Definition clean_orphan_block_volumes_oci (d : tags_dict) (dry_run : bool) : action unit :=
  if negb (truthy d) then ret tt
  else for_each oci_regions (λ region,
    let! r := caught (api cloud (ListOciVolumes region)) in
    match r with Ok l => for_each l (clean_volume_oci d dry_run region) | Err _ => ret tt end).

(** ** All of them *)

(** [with cleanup_step(name): m]: what [m] raises is noted and the cleanup goes on. *)
Definition cleanup_step (name : string) (m : action unit) (failures : list string) : action (list string) :=
  let! r := caught m in
  ret (match r with Ok _ => failures | Err _ => failures ++ [name] end).
Fixpoint run_steps (steps : list (string * action unit)) (failures : list string) : action (list string) :=
  match steps with
  | [] => ret failures
  | (name, m) :: steps' => let! failures := cleanup_step name m failures in run_steps steps' failures
  end.
Definition steps_if (b : bool) (steps : list (string * action unit)) : list (string * action unit) := if b then steps else [].

Definition cleanup_regions (s : rstate) : list string :=
  let names := AwsZones.region_names (rconf s) in
  if truthy (pget "fallback_to_next_region" (prm s))
  then GceZones.sorted_set (list_to_set AwsZones.AWS_SUPPORTED_REGIONS ∪ list_to_set names)
  else names.

Definition cancel_reservations (dry_run : bool) : action unit :=
  let! regions := get_own (λ s, AwsZones.region_names (rconf s)) in
  let! test_id := get_own (λ s, pget "test_id" (prm s)) in
  (if truthy regions then get_cr_from_aws cloud true ;;; cancel cloud else cancel_all_regions cloud all_aws_regions test_id) ;;;
  (if negb dry_run && truthy test_id then cancel_all_regions cloud all_aws_regions test_id else ret tt).

(** The steps of a backend, in order; no backend means all clouds. *)
Definition backend_steps (backend : string) (aws_regions : list string) (project : string) (azure_regions : list string)
    (d : tags_dict) (dry_run : bool) : list (string * action unit) :=
  let among l := existsb (String.eqb backend) l in
  let any := EmptyString in
  let test_id := match dict_get "TestId" d with Some (TStr s) => s | _ => EmptyString end in
  steps_if (among ["k8s-eks"; any])
    [("EKS clusters", clean_clusters_eks d aws_regions dry_run);
     ("AWS launch templates", clean_launch_templates_aws d aws_regions dry_run);
     ("AWS load balancers", clean_load_balancers_aws d aws_regions dry_run);
     ("AWS CloudFormation stacks", clean_cloudformation_stacks_aws d aws_regions dry_run)] ++
  steps_if (among ["k8s-gke"; any])
    [("GKE clusters", clean_clusters_gke project d dry_run);
     ("GKE orphaned disks", clean_orphaned_gke_disks project d dry_run)] ++
  steps_if (among ["aws"; any]) [("EMR clusters", clean_emr_clusters d aws_regions dry_run)] ++
  steps_if (among ["aws"; "k8s-eks"; any])
    ([("AWS spot fleet requests", clean_spot_fleet_requests_aws d aws_regions dry_run);
      ("AWS instances", clean_instances_aws d aws_regions dry_run);
      ("AWS capacity reservations", cancel_reservations dry_run);
      ("AWS dedicated hosts", release_by_tags cloud all_aws_regions d aws_regions dry_run);
      ("AWS elastic IPs", clean_elastic_ips_aws d aws_regions dry_run);
      ("AWS security groups", clean_test_security_groups d aws_regions dry_run);
      ("AWS placement groups", clean_placement_groups_aws d aws_regions dry_run)] ++
     steps_if (String.eqb backend "aws" && negb dry_run) [("AWS KMS aliases", clean_aws_kms_alias d (or_all aws_regions))] ++
     steps_if (negb dry_run && truthy test_id) [("AWS resolved placement", api cloud (DeleteResolvedPlacement test_id))]) ++
  steps_if (among ["gce"; "k8s-gke"; any]) [("GCE instances", clean_instances_gce project d dry_run)] ++
  steps_if (among ["azure"; any]) [("Azure instances", clean_instances_azure d azure_regions dry_run)] ++
  steps_if (negb (startswith "k8s-local" backend)) [("Docker resources", clean_resources_docker d dry_run)] ++
  steps_if (among ["xcloud"]) [("xcloud clusters", api cloud (CleanScyllaCloud d))] ++
  steps_if (among ["oci"; any])
    [("OCI instances", clean_instances_oci d dry_run); ("OCI block volumes", clean_orphan_block_volumes_oci d dry_run)].

(** The failures are only logged. *)
Definition cleanup_steps (backend : string) (aws_regions : list string) (project : string) (azure_regions : list string)
    (d : tags_dict) (dry_run : bool) : action (option bool) :=
  let! _ := run_steps (backend_steps backend aws_regions project azure_regions d dry_run) [] in
  ret (Some true).

Definition cleanup_project (s : rstate) : string :=
  if truthy (pget "gce_project" (prm s)) then str_param "gce_project" s else "gcp-sct-project-1".
Definition cleanup_azure_regions (s : rstate) : list string :=
  match pget "azure_region_name" (prm s) with VList l => GceZones.str_items l | VStr r => [r] | _ => [] end.

Definition clean_cloud_resources (d : tags_dict) (dry_run : bool) : action (option bool) :=
  if negb (dict_in "TestId" d) && negb (dict_in "RunByUser" d) then ret (Some false)
  else
    let! backend := get_own (str_param "cluster_backend") in
    let! aws_regions := get_own cleanup_regions in
    let! project := get_own cleanup_project in
    let! azure_regions := get_own cleanup_azure_regions in
    if startswith "k8s-local" backend then ret None
    else if String.eqb backend "baremetal" then api cloud (CleanBaremetal d) ;;; ret (Some true)
    else cleanup_steps backend aws_regions project azure_regions d dry_run.
End Cleaners.

(** ** Post behaviors *)

(** The node types of each kind of node. *)
Definition node_kinds (db_type : pyval) : list (string * list string) :=
  let db_types := if is_str db_type "cassandra" then ["cs-db"]
                  else if is_str db_type "mixed" then ["scylla-db"; "cs-db"]
                  else if is_str db_type "mixed_scylla" then ["scylla-db"; "oracle-db"]
                  else if is_str db_type "mixed_cassandra" then ["scylla-db"; "oracle-db"]
                  else ["scylla-db"] in
  [("db_nodes", db_types); ("monitor_nodes", ["monitor"]); ("loader_nodes", ["loader"]);
   ("vector_store_nodes", ["vector-store"]); ("k8s_cluster", ["k8s"]); ("emr_cluster", ["emr"])].
(** [get_post_behavior_actions]: the node types of each kind and what to do with them. *)
Definition get_post_behavior_actions (p : params) : list (string * (list string * pyval)) :=
  (λ kt, (kt.1, (kt.2, pget ("post_behavior_" +:+ kt.1) p))) <$> node_kinds (pget "db_type" p).

(** [get_testrun_status]: the lines of the logs, when the directory of the run is found. Without a
    critical log the status is a text, to which lines cannot be added. *)
Definition get_testrun_status (testrun_dir : bool) (critical_log error_log : option (list string)) (only_critical : bool)
    : outcome cexn (option (list string)) :=
  if negb testrun_dir then Ok None
  else match critical_log, (if only_critical then None else error_log) with
       | Some lines, Some more => Ok (Some (lines ++ more))
       | None, Some _ => Err TypeError
       | Some lines, None => Ok (Some lines)
       | None, None => Ok (Some [])
       end.

(** Whether the nodes of an action go, after the critical events of the run. *)
Definition destroys (critical_events : option (list string)) (action : pyval) : bool :=
  if is_str action "keep" then false
  else if is_str action "destroy" then true
  else is_str action "keep-on-failure" && negb (truthy critical_events).
Definition node_types_to_cleanup (critical_events : option (list string)) (actions : list (string * (list string * pyval))) : list string :=
  mjoin ((λ a, if destroys critical_events a.2.2 then a.2.1 else []) <$> actions).

Section PostBehavior.
Context (cloud : list event → ∀ c : call, outcome cexn (resp c)).
Context (all_aws_regions cached_aws_regions oci_regions : list string).

Definition clean_resources_according_post_behavior (params : tags_dict) (testrun_dir : bool) (critical_log : option (list string))
    (dry_run : bool) : act (cstate rstate) cexn unit :=
  let! critical_events := of_outcome (get_testrun_status testrun_dir critical_log None true) in
  let! p := get_own prm in
  let types := node_types_to_cleanup critical_events (get_post_behavior_actions p) in
  let! _ := clean_cloud_resources cloud all_aws_regions cached_aws_regions oci_regions (dict_set "NodeType" (TList types) params) dry_run in
  ret tt.
End PostBehavior.

(** On other backends than bare metal the steps do the work. *)
Lemma clean_cloud_steps cloud all_aws_regions cached_aws_regions oci_regions d dry_run s :
  str_param "cluster_backend" (own s) ≠ "baremetal" →
  clean_cloud_resources cloud all_aws_regions cached_aws_regions oci_regions d dry_run s =
    if negb (dict_in "TestId" d) && negb (dict_in "RunByUser" d) then (s, Ok (Some false))
    else if startswith "k8s-local" (str_param "cluster_backend" (own s)) then (s, Ok None)
    else cleanup_steps cloud all_aws_regions cached_aws_regions oci_regions (str_param "cluster_backend" (own s))
           (cleanup_regions (own s)) (cleanup_project (own s)) (cleanup_azure_regions (own s)) d dry_run s.
Proof.
  intros Hbm. unfold clean_cloud_resources. case_match; [done|].
  do 4 (unfold bind at 1, get_own at 1, gets at 1). case_match; [done|]. by rewrite (proj2 (String.eqb_neq _ _) Hbm).
Qed.

(** The calls that change nothing. *)
Definition reads (c : call) : bool :=
  match c with
  | Sleep _ | DescribeReservations _ _ | DescribeOfferings _ _ | DockerInfo | DescribeGroups _ _ | DescribeHosts _ _ _ | DescribeInstances _ _ | DescribeSpotFleets _
  | DescribeAddresses _ _ | DescribeSecurityGroups _ _ | GetResources _ _ _ | DescribeLaunchTemplates _ _ | ListEmrClusters _
  | ListEksClusters _ | DescribeEksCluster _ _ | ListGkeClusters _ | ListOrphanedGkeDisks _ | ListGceInstances _
  | DiscoverAzureRegions _ _ | ListAzureInstances _ | CurrentContainerId | ListContainers _ | ReloadContainer _ | ListImages _
  | ListOciInstances _ | ListOciVolumes _ => true
  | _ => false
  end.

(** ** What a cleanup deletes *)

(** The nodes of a test, as the clouds know them. *)
Inductive node : Type :=
  | AwsNode (region id : string) | FleetNode (region id : string) | EmrNode (region id : string)
  | GceNode (project name : string) | AzureNode (region name : string) | OciNode (region id : string)
  | Container (id : string).

Section Deleted.
(** The instances of the test in an Azure region, which go with the region's resource group. *)
Context (azure_nodes : string → list string).

Definition deleted (e : event) : list node :=
  match ev_call e with
  | TerminateInstance region id => [AwsNode region id]
  | CancelSpotFleets region ids => FleetNode region <$> ids
  | TerminateJobFlow region id => [EmrNode region id]
  | DeleteGceInstance project name _ => [GceNode project name]
  | CleanupAzureRegion region => AzureNode region <$> azure_nodes region
  | TerminateAzureInstance region name => [AzureNode region name]
  | TerminateOciInstance region id => [OciNode region id]
  | RemoveContainer id => [Container id]
  | _ => []
  end.
Definition destroys_k8s (e : event) : bool :=
  match ev_call e with DestroyEksCluster _ _ | DestroyGkeCluster _ _ => true | _ => false end.
Definition not_modelled (e : event) : bool :=
  match ev_call e with CleanBaremetal _ | CleanScyllaCloud _ => true | _ => false end.

Context (node_type : node → option string) (types : list string).

(** Only nodes of the types in [types] go. *)
Definition spares (e : event) : Prop :=
  (∀ n, n ∈ deleted e → ∃ t, node_type n = Some t ∧ t ∈ types) ∧ (destroys_k8s e = true → "k8s" ∈ types) ∧
  not_modelled e = false.

Lemma spares_harmless c r : deleted (Event c r) = [] → destroys_k8s (Event c r) = false → not_modelled (Event c r) = false →
  spares (Event c r).
Proof. intros H1 H2 H3. unfold spares. rewrite H1, H2. split; [by intros n ?%elem_of_nil|done]. Qed.

Lemma spares_reads c r : reads c = true → spares (Event c r).
Proof. intros Hc. apply spares_harmless; by destruct c. Qed.

Lemma spares_one c r n t : deleted (Event c r) = [n] → destroys_k8s (Event c r) = false → not_modelled (Event c r) = false →
  node_type n = Some t → t ∈ types → spares (Event c r).
Proof. intros H1 H2 H3 Hn Ht. unfold spares. rewrite H1, H2. split; [|done]. intros n' ->%list_elem_of_singleton. eauto. Qed.
End Deleted.

(** Actions that delete no node: every call is looked at. *)
Ltac harmless := apply spares_harmless; reflexivity.
Ltac emit_step :=
  first [ apply emits_ret | apply emits_raise | apply emits_get | apply emits_set
        | apply emits_retrying; [harmless|] | apply emits_pause; harmless | apply emits_api; intros ?; harmless
        | apply emits_caught | apply emits_ignoring | apply emits_try; [|intros ?] | apply emits_by_region; intros ?
        | apply emits_for_each; intros ? ? | apply emits_bind_all; [|intros ?]
        | case_match ].
Ltac emits_none := repeat (unfold assert_tags, unless, on_arn; emit_step).

(** ** Listing *)

(** Running steps adds what the steps add. *)
Lemma emits_run_steps (Q : event → Prop) steps failures :
  Forall (λ step, emits Q step.2) steps → emits Q (run_steps steps failures).
Proof.
  intros Hs. revert failures. induction Hs as [|[name m] steps Hm Hs IH]; intros failures; cbn [run_steps]; [apply emits_ret|].
  apply emits_bind_all; [|apply IH]. unfold cleanup_step. apply emits_bind_all; [by apply emits_caught|]. intros r. apply emits_ret.
Qed.

Lemma steps_if_Forall (Q : string * act (cstate rstate) cexn unit → Prop) b steps :
  (b = true → Forall Q steps) → Forall Q (steps_if b steps).
Proof. intros H. destruct b; [by apply H|constructor]. Qed.

Section Listing.
Context (cloud : list event → ∀ c : call, outcome cexn (resp c)) (Q : event → Prop).
Hypothesis reads_ok : ∀ c r, reads c = true → Q (Event c r).

Lemma emits_read {P} c : reads c = true → emits (P := P) Q (api cloud c).
Proof using reads_ok. intros Hc. apply emits_api. intros h. by apply reads_ok. Qed.

Lemma emits_eks_clusters regions found : emits Q (eks_clusters cloud regions found).
Proof using reads_ok.
  assert (Hn : ∀ region names, emits Q (eks_named cloud region names)).
  { intros region names. induction names as [|n names IH]; cbn [eks_named]; auto using emits_ret, emits_bind_all, emits_caught, emits_read. }
  revert found. induction regions as [|r rs IH]; intros found; cbn [eks_clusters]; [apply emits_ret|].
  apply emits_bind_all; [by apply emits_caught, emits_read|]. intros [names|x]; [|apply emits_ret].
  apply emits_bind_all; [apply Hn|]. intros l. apply IH.
Qed.

Lemma emits_of_outcome {A} (r : outcome cexn A) : emits Q (of_outcome r).
Proof. destruct r; [apply emits_ret|apply emits_raise]. Qed.

Lemma emits_reloaded v l kept : emits Q (reloaded cloud v l kept).
Proof using reads_ok.
  revert kept. induction l as [|c l IH]; intros kept; cbn [reloaded]; [apply emits_ret|].
  apply emits_bind_all; [by apply emits_read|]. intros c'. apply emits_bind_all; [apply emits_of_outcome|]. intros b. apply IH.
Qed.

Lemma emits_oci_list d regions : emits Q (list_instances_oci cloud d regions).
Proof using reads_ok.
  induction regions as [|r rs IH]; cbn [list_instances_oci]; [apply emits_ret|].
  apply emits_bind_all; [by apply emits_caught, emits_read|]. intros [l|x]; [|by destruct x; first [exact IH | apply emits_raise]].
  apply emits_bind_all; [exact IH|]. intros rest. apply emits_ret.
Qed.

Lemma emits_first_region : emits Q first_region.
Proof. unfold first_region. apply emits_bind_all; [apply emits_get|]. intros [|r rs]; [apply emits_raise|apply emits_ret]. Qed.

Lemma emits_get_cr force : emits Q (get_cr_from_aws cloud force).
Proof using reads_ok.
  assert (Hc : ∀ found result last, emits Q (collect found result last)).
  { induction found as [|r found IH]; intros result last; cbn [collect]; [apply emits_ret|].
    apply emits_bind_all; [|intros letter; apply IH]. unfold last_char. case_match; [apply emits_ret|apply emits_raise]. }
  unfold get_cr_from_aws. apply emits_bind_all; [apply emits_get|]. intros p. case_match; [apply emits_ret|].
  apply emits_bind_all; [apply emits_get|]. intros test_id. apply emits_bind_all; [apply emits_first_region|]. intros region.
  apply emits_bind_all; [by apply emits_read|]. intros found. apply emits_bind_all; [apply Hc|]. intros [result az].
  apply emits_bind_all; [|intros _; apply emits_set]. case_match; [apply emits_set|apply emits_ret].
Qed.

(** Cancelling reservations, when that is allowed. *)
Hypothesis cancel_ok : ∀ region id r, Q (Event (CancelReservation region id) r).

Lemma emits_cancel_reservations regions dry_run : emits Q (cancel_reservations cloud regions dry_run).
Proof using Type*.
  assert (Hall : ∀ t, emits Q (cancel_all_regions cloud regions t)).
  { intros t. unfold cancel_all_regions. case_match; [apply emits_ret|]. apply emits_for_each. intros region _.
    apply emits_ignoring, emits_ignoring, emits_bind_all; [by apply emits_read|]. intros found.
    apply emits_for_each. intros r _. apply emits_ignoring, emits_api. intros h. apply cancel_ok. }
  unfold cancel_reservations. apply emits_bind_all; [apply emits_get|]. intros names. apply emits_bind_all; [apply emits_get|]. intros test_id.
  apply emits_bind_all; [|intros _; case_match; [apply Hall|apply emits_ret]]. case_match; [|apply Hall].
  apply emits_bind_all; [apply emits_get_cr|]. intros _. unfold cancel. apply emits_bind_all; [apply emits_get|]. intros r.
  case_match; [apply emits_ret|]. apply emits_bind_all; [apply emits_first_region|]. intros region.
  apply emits_bind_all; [|intros _; apply emits_set]. unfold _cancel_reservations.
  apply emits_for_each. intros z _. apply emits_for_each. intros item _. apply emits_ignoring, emits_api. intros h. apply cancel_ok.
Qed.
End Listing.

Lemma filter_all_length {A} (P : A → Prop) `{∀ x, Decision (P x)} (l : list A) : length (filter P l) = length l → filter P l = l.
Proof.
  induction l as [|x l IH]; [done|]. rewrite filter_cons. case_decide; intros Hl; [simpl in Hl; by rewrite IH by lia|].
  pose proof (length_filter P l). simpl in Hl. lia.
Qed.

Section Spared.
Context (cloud : list event → ∀ c : call, outcome cexn (resp c)).
Context (all_aws_regions cached_aws_regions oci_regions : list string).
Context (azure_nodes : string → list string) (node_type : node → option string) (types : list string).
Abbreviation spared := (spares azure_nodes node_type types).

Lemma spared_elastic_ips d regions dry_run : emits spared (clean_elastic_ips_aws cloud all_aws_regions d regions dry_run).
Proof. unfold clean_elastic_ips_aws. emits_none. Qed.
Lemma spared_security_groups d regions dry_run : emits spared (clean_test_security_groups cloud all_aws_regions d regions dry_run).
Proof. unfold clean_test_security_groups. emits_none. Qed.
Lemma spared_placement_groups d regions dry_run : emits spared (clean_placement_groups_aws cloud all_aws_regions d regions dry_run).
Proof. unfold clean_placement_groups_aws. emits_none. Qed.
Lemma spared_load_balancers d regions dry_run : emits spared (clean_load_balancers_aws cloud all_aws_regions d regions dry_run).
Proof. unfold clean_load_balancers_aws. emits_none. Qed.
Lemma spared_stacks d regions dry_run : emits spared (clean_cloudformation_stacks_aws cloud all_aws_regions d regions dry_run).
Proof. unfold clean_cloudformation_stacks_aws. emits_none. Qed.
Lemma spared_templates d regions dry_run : emits spared (clean_launch_templates_aws cloud all_aws_regions d regions dry_run).
Proof. unfold clean_launch_templates_aws. emits_none. Qed.
Lemma spared_kms d regions : emits spared (clean_aws_kms_alias cloud d regions).
Proof. unfold clean_aws_kms_alias. emits_none. Qed.
Lemma spared_disks project d dry_run : emits spared (clean_orphaned_gke_disks cloud project d dry_run).
Proof. unfold clean_orphaned_gke_disks. emits_none. Qed.
Lemma spared_volume attempts region id : emits spared (delete_oci_volume_with_retry cloud attempts region id).
Proof.
  induction attempts as [|n IH]; cbn [delete_oci_volume_with_retry]; [emits_none|].
  apply emits_bind_all; [emits_none|]. intros [|[]]; try apply emits_ret. case_match; [|apply emits_ret].
  apply emits_bind_all; [emits_none|]. intros _. apply IH.
Qed.
Lemma spared_volumes d dry_run : emits spared (clean_orphan_block_volumes_oci cloud oci_regions d dry_run).
Proof. unfold clean_orphan_block_volumes_oci, clean_volume_oci. emits_none; apply spared_volume. Qed.

(** What the clouds report of the nodes: their types, and no more than the filters ask for. *)
Definition passes (f : ec2_filter) (t : tags) : Prop :=
  ∀ k, f_name f = "tag:" +:+ k → ∃ v, dict_get k t = Some v ∧ v ∈ f_values f.
Hypothesis aws_reports : ∀ h region fs l i,
  cloud h (DescribeInstances region fs) = Ok l → i ∈ l →
  node_type (AwsNode region (r_id i)) = dict_get "NodeType" (r_tags i) ∧ ∀ f, f ∈ fs → passes f (r_tags i).
Hypothesis fleets_reported : ∀ h region l i,
  cloud h (DescribeSpotFleets region) = Ok l → i ∈ l → node_type (FleetNode region (r_id i)) = dict_get "NodeType" (r_tags i).
Hypothesis gce_reports : ∀ h project l i,
  cloud h (ListGceInstances project) = Ok l → i ∈ l →
  node_type (GceNode project (r_name (gi_resource i))) = dict_get "NodeType" (gce_meta_to_dict (r_tags (gi_resource i))).
Hypothesis azure_reports : ∀ h region l,
  cloud h (ListAzureInstances region) = Ok l →
  azure_nodes region = r_name <$> l ∧ ∀ i, i ∈ l → node_type (AzureNode region (r_name i)) = dict_get "NodeType" (r_tags i).
Hypothesis oci_reports : ∀ h region l i,
  cloud h (ListOciInstances region) = Ok l → i ∈ l → node_type (OciNode region (r_id i)) = dict_get "NodeType" (r_tags i).
Hypothesis docker_reports : ∀ h id c,
  cloud h (ReloadContainer id) = Ok c → r_id c = id ∧ node_type (Container id) = dict_get "NodeType" (r_tags c).

Context (d : tags_dict).
Hypothesis asked : dict_get "NodeType" d = Some (TList types).
Hypothesis no_name : dict_get "Name" d = None.

Lemma matching_type t : tags_match d t = true → ∃ v, dict_get "NodeType" t = Some v ∧ v ∈ types.
Proof using asked.
  unfold tags_match. intros H. rewrite forallb_forall in H.
  specialize (H _ (proj1 (list_elem_of_In _ _) (dict_get_elem _ _ _ asked))). simpl in H.
  destruct (dict_get "NodeType" t) as [v|]; [|done]. exists v. split; [done|]. by apply bool_decide_eq_true in H.
Qed.

Lemma spared_instances regions dry_run : emits spared (clean_instances_aws cloud all_aws_regions d regions dry_run).
Proof using asked aws_reports.
  unfold clean_instances_aws, assert_tags. case_match; [|emits_none].
  apply (emits_bind _ _ _ (Forall (λ rl, ∀ i, i ∈ rl.2 → ∃ t, node_type (AwsNode rl.1 (r_id i)) = Some t ∧ t ∈ types))).
  - unfold list_instances_aws. emits_none.
  - apply (gives_by_region _ (λ region l, ∀ i, i ∈ l → ∃ t, node_type (AwsNode region (r_id i)) = Some t ∧ t ∈ types)); [|constructor].
    intros region. eapply gives_bind.
    + apply (gives_api _ (DescribeInstances region (aws_filters d)) (λ l, ∀ i, i ∈ l → ∃ t, node_type (AwsNode region (r_id i)) = Some t ∧ t ∈ types)).
      intros h l Hl i Hi. destruct (aws_reports _ _ _ _ _ Hl Hi) as [Ht Hf]. rewrite Ht.
      destruct (Hf (Filter "tag:NodeType" types)) with (k := "NodeType") as (v & Hv & Hin); [|done|eauto].
      apply list_elem_of_fmap. exists ("NodeType", TList types). split; [done|]. by apply dict_get_elem.
    + intros l Hl. apply gives_ret. intros i Hi%list_elem_of_filter. apply Hl, Hi.
  - intros found Hf. apply emits_for_each. intros [region l] Hrl. apply emits_for_each. intros i Hi. cbn [fst snd].
    eapply Forall_forall in Hf as Hi'; [|exact Hrl]. destruct (Hi' i Hi) as (t & Ht & Hin).
    unfold clean_instance_aws. case_match; [emits_none|]. unfold unless. case_match; [emits_none|].
    apply emits_bind_all; [apply emits_api; intros h'; by eapply spares_one|]. intros _. emits_none.
Qed.

Lemma spared_fleets_region dry_run region : emits spared (clean_fleets_region cloud d dry_run region).
Proof using asked fleets_reported.
  unfold clean_fleets_region.
  apply (emits_bind _ _ _ (λ r, match r with Ok l => ∀ i, i ∈ l → node_type (FleetNode region (r_id i)) = dict_get "NodeType" (r_tags i) | Err _ => True end)).
  - emits_none.
  - apply gives_caught, (gives_api _ (DescribeSpotFleets region)). eauto.
  - intros [l|x]; [|intros _; emits_none]. intros Hl. case_match; [emits_none|].
    apply emits_bind_all; [|intros r; emits_none]. apply emits_caught, emits_api. intros h. split; [|done].
    intros n. cbn [deleted ev_call]. rewrite list_elem_of_fmap. intros (id & -> & Hid).
    apply list_elem_of_fmap in Hid as (i & -> & [Hm Hi]%list_elem_of_filter). rewrite (Hl i Hi).
    apply andb_true_iff in Hm as [_ Hm]. apply matching_type in Hm as (v & -> & ?). eauto.
Qed.
Lemma spared_fleets regions dry_run : emits spared (clean_spot_fleet_requests_aws cloud cached_aws_regions d regions dry_run).
Proof using asked fleets_reported.
  unfold clean_spot_fleet_requests_aws, assert_tags. case_match; [|emits_none].
  apply emits_bind_all; [|intros []; emits_none]. generalize false.
  induction (if truthy regions then regions else cached_aws_regions) as [|r rs IH]; intros b; cbn; [emits_none|].
  apply emits_bind_all; [apply spared_fleets_region|]. intros c. apply IH.
Qed.

Lemma spared_emr regions dry_run : emits spared (clean_emr_clusters cloud all_aws_regions d regions dry_run).
Proof using asked.
  unfold clean_emr_clusters, assert_tags. case_match; [|emits_none].
  apply emits_for_each. intros region _. apply emits_ignoring. unfold clean_emr_region.
  apply (emits_bind _ _ _ (λ l, l = [])); [unfold list_emr_clusters; emits_none| |intros l ->; emits_none].
  unfold list_emr_clusters. eapply gives_bind; [apply gives_any|]. intros l _. apply gives_ret.
  apply filter_never. intros c _ Hc. unfold emr_matches in Hc. rewrite forallb_forall in Hc.
  specialize (Hc _ (proj1 (list_elem_of_In _ _) (dict_get_elem _ _ _ asked))). done.
Qed.

Lemma gce_match_type r : gce_matches d r = true → ∃ v, dict_get "NodeType" (gce_meta_to_dict (r_tags r)) = Some v ∧ v ∈ types.
Proof using asked no_name. unfold gce_matches. rewrite no_name. apply matching_type. Qed.

Lemma spared_gce project dry_run : emits spared (clean_instances_gce cloud project d dry_run).
Proof using asked no_name gce_reports.
  unfold clean_instances_gce, assert_tags. case_match; [|emits_none].
  apply (emits_bind _ _ _ (λ l, ∀ i, i ∈ l → ∃ t, node_type (GceNode project (r_name (gi_resource i))) = Some t ∧ t ∈ types)).
  - unfold list_instances_gce. emits_none.
  - unfold list_instances_gce. eapply gives_bind.
    + apply (gives_api _ (ListGceInstances project)). intros h l Hl. exact (λ i Hi, gce_reports h project l i Hl Hi).
    + cbn beta. intros l Hl. apply gives_ret. rewrite H. intros i [_ [Hm Hi]%list_elem_of_filter]%list_elem_of_filter.
      rewrite (Hl i Hi). by apply gce_match_type.
  - intros l Hl. generalize false. induction l as [|i l IH]; intros b; cbn; [emits_none|].
    apply emits_bind_all; [|intros r; apply IH; intros; apply Hl; by right].
    apply emits_caught. unfold delete_instance, unless. case_match; [emits_none|].
    destruct (Hl i) as (t & Ht & Hin); [left|].
    apply emits_bind_all; [apply emits_api; intros h'; by eapply spares_one|]. intros _. emits_none.
Qed.

Lemma spared_azure regions dry_run : emits spared (clean_instances_azure cloud d regions dry_run).
Proof using asked azure_reports.
  unfold clean_instances_azure, assert_tags. case_match; [|emits_none].
  apply emits_bind_all; [emits_none|]. intros provisioners. apply emits_for_each. intros region _. unfold clean_azure_region.
  apply (emits_bind _ _ _ (λ l, azure_nodes region = r_name <$> l ∧
           ∀ i, i ∈ l → node_type (AzureNode region (r_name i)) = dict_get "NodeType" (r_tags i))).
  - emits_none.
  - apply (gives_api _ (ListAzureInstances region)). eauto.
  - intros l [Hall Hl].
    assert (Hm : ∀ i, i ∈ filter (λ i, tags_match d (r_tags i) = true) l → ∃ t, node_type (AzureNode region (r_name i)) = Some t ∧ t ∈ types).
    { intros i [Hm Hi]%list_elem_of_filter. rewrite (Hl i Hi). by apply matching_type. }
    unfold unless. destruct dry_run; [emits_none|]. destruct (_ =? _)%nat eqn:Hlen.
    + apply emits_bind_all; [|intros _; emits_none]. apply emits_api. intros h. split; [|done]. cbn [deleted ev_call].
      rewrite Hall. intros n. rewrite list_elem_of_fmap. intros (name & -> & (i & -> & Hi)%list_elem_of_fmap). apply Hm.
      apply Nat.eqb_eq in Hlen. by rewrite (filter_all_length _ _ (eq_sym Hlen)).
    + apply emits_bind_all; [|intros _; emits_none]. apply emits_for_each. intros i Hi. apply emits_api. intros h.
      destruct (Hm i Hi) as (t & ? & ?). by eapply spares_one.
Qed.

Lemma spared_oci dry_run : emits spared (clean_instances_oci cloud oci_regions d dry_run).
Proof using asked oci_reports.
  unfold clean_instances_oci. case_match; [emits_none|].
  apply (emits_bind _ _ _ (Forall (λ rl, ∀ i, i ∈ rl.2 → ∃ t, node_type (OciNode rl.1 (r_id i)) = Some t ∧ t ∈ types))).
  - apply emits_oci_list, spares_reads.
  - induction oci_regions as [|r rs IH]; cbn [list_instances_oci]; [apply gives_ret; constructor|].
    eapply gives_bind; [apply gives_caught, (gives_api _ (ListOciInstances r)); intros h l Hl; exact (λ i Hi, oci_reports h r l i Hl Hi)|].
    intros [l|x] Hl; [|by destruct x; first [exact IH | intros s a]].
    eapply gives_bind; [exact IH|]. intros rest Hrest. apply gives_ret. constructor; [|done].
    intros i [Hm Hi]%list_elem_of_filter. cbn [fst]. rewrite (Hl i Hi). by apply matching_type.
  - intros found Hf. apply emits_for_each. intros [region l] Hrl. apply emits_for_each. intros i Hi. cbn [fst snd].
    eapply Forall_forall in Hf as Hi'; [|exact Hrl]. destruct (Hi' i Hi) as (t & Ht & Hin).
    unfold clean_instance_oci. case_match; [emits_none|]. case_match; [emits_none|]. unfold unless. case_match; [emits_none|].
    apply emits_ignoring, emits_bind_all; [apply emits_api; intros h'; by eapply spares_one|]. intros _. emits_none.
Qed.

(** The containers found have one of the types, provided there is one. *)
Definition of_types (c : resource) : Prop := ∃ t, node_type (Container (r_id c)) = Some t ∧ t ∈ types.

Lemma reloaded_types l kept : Forall of_types kept → gives (reloaded cloud (TList types) l kept) (Forall of_types).
Proof using docker_reports.
  revert kept. induction l as [|c l IH]; intros kept Hk; cbn [reloaded]; [by apply gives_ret|].
  eapply gives_bind; [apply (gives_api _ (ReloadContainer (r_id c))); intros h c' Hc; exact (docker_reports h _ c' Hc)|].
  intros c' [Hid Ht]. eapply gives_bind with (R := λ b, b = true → of_types c').
  - unfold label_in, of_types. rewrite Hid, Ht. destruct (dict_get "NodeType" (r_tags c')) as [t|].
    + apply gives_ret. intros Hb%bool_decide_eq_true. eauto.
    + by apply gives_ret.
  - intros [] Hb; apply IH; [|done]. apply Forall_app. split; [done|]. by apply Forall_singleton, Hb.
Qed.

Lemma spared_docker dry_run : types ≠ [] → emits spared (clean_resources_docker cloud d dry_run).
Proof using asked docker_reports.
  intros Hne. unfold clean_resources_docker, assert_tags. case_match; [|emits_none].
  assert (Ht : truthy (TList types) = true) by (by destruct types).
  apply (emits_bind _ _ _ (λ ci, Forall of_types ci.1)); unfold list_resources_docker; rewrite ?asked, ?Ht.
  - emits_none. apply emits_reloaded, spares_reads.
  - eapply gives_bind; [apply gives_any|]. intros current _. eapply gives_bind; [apply gives_any|]. intros l _.
    eapply gives_bind; [by apply reloaded_types, Forall_nil|]. intros kept Hk.
    eapply gives_bind; [apply gives_any|]. intros images _. apply gives_ret. cbn [fst].
    assert (Hfil : ∀ (Q : resource → Prop) `{∀ x, Decision (Q x)} l', Forall of_types l' → Forall of_types (filter Q l')).
    { intros Q ? l' Hl'. apply Forall_forall. intros x [_ Hx]%list_elem_of_filter. by eapply Forall_forall in Hl'. }
    apply Hfil. case_match; [by apply Hfil|done].
  - intros [containers images] Hc. cbn [fst] in Hc. apply emits_bind_all; [|intros _; emits_none].
    apply emits_for_each. intros c Hin. eapply Forall_forall in Hc; [|exact Hin]. destruct Hc as (t & ? & ?).
    apply emits_try; [|intros _; emits_none]. apply emits_bind_all; [emits_none|]. intros _.
    apply emits_bind_all; [emits_none|]. intros _. unfold unless. case_match; [emits_none|].
    apply emits_api. intros h. by eapply spares_one.
Qed.

Lemma k8s_asked : keeps_k8s d = false → "k8s" ∈ types.
Proof using asked. unfold keeps_k8s. rewrite asked. intros H%negb_false_iff. by apply bool_decide_eq_true in H. Qed.

Lemma spares_k8s c r : deleted azure_nodes (Event c r) = [] → not_modelled (Event c r) = false → "k8s" ∈ types → spared (Event c r).
Proof. intros H1 H2 H3. unfold spares. rewrite H1. split; [by intros n ?%elem_of_nil|done]. Qed.

Lemma spared_eks regions dry_run : emits spared (clean_clusters_eks cloud all_aws_regions d regions dry_run).
Proof using asked.
  unfold clean_clusters_eks, assert_tags, list_clusters_eks. destruct (keeps_k8s d) eqn:Hk; [emits_none|]. case_match; [|emits_none].
  apply emits_bind_all; [apply emits_bind_all; [apply emits_eks_clusters, spares_reads|intros; emits_none]|]. intros clusters.
  apply emits_for_each. intros c _. unfold unless. case_match; [emits_none|]. apply emits_ignoring, emits_api. intros h.
  by apply spares_k8s, k8s_asked.
Qed.

Lemma spared_gke project dry_run : emits spared (clean_clusters_gke cloud project d dry_run).
Proof using asked.
  unfold clean_clusters_gke, assert_tags, list_clusters_gke. destruct (keeps_k8s d) eqn:Hk; [emits_none|]. case_match; [|emits_none].
  apply emits_bind_all; [emits_none|]. intros clusters. apply emits_for_each. intros c _. unfold unless. case_match; [emits_none|].
  apply emits_ignoring, emits_api. intros h. by apply spares_k8s, k8s_asked.
Qed.

Lemma spared_reservations dry_run : emits spared (cancel_reservations cloud all_aws_regions dry_run).
Proof. apply emits_cancel_reservations; [apply spares_reads|]. intros region id r. harmless. Qed.

Lemma spared_hosts regions dry_run : emits spared (release_by_tags cloud all_aws_regions d regions dry_run).
Proof.
  assert (Hr : ∀ n region ids, emits spared (release_attempts cloud n region ids)).
  { induction n as [|n IH]; intros region ids; cbn [release_attempts]; [emits_none|].
    apply emits_bind_all; [emits_none|]. intros [[]|[]]; first [apply IH | emits_none]. }
  unfold release_by_tags. cbv zeta. case_match; [emits_none|]. apply emits_bind_all; [unfold list_hosts; emits_none|].
  intros found. apply emits_for_each. intros rh _. apply emits_for_each. intros h _. case_match; [emits_none|].
  unfold _release_hosts. apply emits_for_each. intros z _. apply emits_for_each. intros item _. apply Hr.
Qed.

Lemma spared_steps backend regions project azure dry_run :
  types ≠ [] → backend ≠ "xcloud" →
  emits spared (cleanup_steps cloud all_aws_regions cached_aws_regions oci_regions backend regions project azure d dry_run).
Proof using Type*.
  intros Hne Hx. unfold cleanup_steps. apply emits_bind_all; [|intros ?; apply emits_ret]. apply emits_run_steps.
  unfold backend_steps. cbv zeta.
  repeat first [ apply Forall_app_2 | apply steps_if_Forall; intros ?Hb | apply Forall_cons_2 | apply Forall_nil_2 ]; cbn [snd].
  all: first
      [ apply spared_eks | apply spared_templates | apply spared_load_balancers | apply spared_stacks | apply spared_gke
      | apply spared_disks | apply spared_emr | apply spared_fleets | apply spared_instances | apply spared_reservations
      | apply spared_hosts | apply spared_elastic_ips | apply spared_security_groups | apply spared_placement_groups
      | apply spared_kms | apply spared_gce | apply spared_azure | by apply spared_docker | apply spared_oci
      | apply spared_volumes | apply emits_api; intros ?; harmless
      | exfalso; cbn in Hb; rewrite orb_false_r in Hb; by apply String.eqb_eq in Hb ].
Qed.

Lemma spared_cloud dry_run s :
  types ≠ [] → str_param "cluster_backend" (own s) ≠ "baremetal" → str_param "cluster_backend" (own s) ≠ "xcloud" →
  ∃ new, hist (clean_cloud_resources cloud all_aws_regions cached_aws_regions oci_regions d dry_run s).1 = hist s ++ new ∧ Forall spared new.
Proof using Type*.
  intros Hne Hbm Hx. rewrite (clean_cloud_steps cloud all_aws_regions cached_aws_regions oci_regions d dry_run s Hbm).
  repeat case_match; [exact (emits_ret spared _ s)..|]. by apply spared_steps.
Qed.
End Spared.

(** ** Kept nodes *)

(** The clouds report the types of the nodes they list, AWS applies the filters it is given, and
    the listing of an Azure region is complete. *)
Record reports_truly (cloud : list event → ∀ c : call, outcome cexn (resp c)) (azure_nodes : string → list string)
    (node_type : node → option string) : Prop := {
  aws_true h region fs l i : cloud h (DescribeInstances region fs) = Ok l → i ∈ l →
    node_type (AwsNode region (r_id i)) = dict_get "NodeType" (r_tags i) ∧ ∀ f, f ∈ fs → passes f (r_tags i);
  fleets_true h region l i : cloud h (DescribeSpotFleets region) = Ok l → i ∈ l →
    node_type (FleetNode region (r_id i)) = dict_get "NodeType" (r_tags i);
  gce_true h project l i : cloud h (ListGceInstances project) = Ok l → i ∈ l →
    node_type (GceNode project (r_name (gi_resource i))) = dict_get "NodeType" (gce_meta_to_dict (r_tags (gi_resource i)));
  azure_true h region l : cloud h (ListAzureInstances region) = Ok l →
    azure_nodes region = r_name <$> l ∧ ∀ i, i ∈ l → node_type (AzureNode region (r_name i)) = dict_get "NodeType" (r_tags i);
  oci_true h region l i : cloud h (ListOciInstances region) = Ok l → i ∈ l →
    node_type (OciNode region (r_id i)) = dict_get "NodeType" (r_tags i);
  docker_true h id c : cloud h (ReloadContainer id) = Ok c →
    r_id c = id ∧ node_type (Container id) = dict_get "NodeType" (r_tags c);
}.

Lemma kinds_disjoint db_type a b t : a ∈ node_kinds db_type → b ∈ node_kinds db_type → t ∈ a.2 → t ∈ b.2 → a = b.
Proof.
  assert (H : Forall (λ a : string * list string, Forall (λ b : string * list string, a = b ∨ Forall (λ t, t ∉ b.2) a.2) (node_kinds db_type)) (node_kinds db_type)).
  { unfold node_kinds. cbv zeta. repeat case_match; apply (bool_decide_eq_true_1 (Forall _ _)); vm_compute; reflexivity. }
  intros Ha Hb Hta Htb. eapply Forall_forall in H; [|exact Ha]. eapply Forall_forall in H; [|exact Hb].
  destruct H as [?|H]; [done|]. by eapply Forall_forall in H.
Qed.

Lemma kept_not_cleaned ce p key tys act t :
  (key, (tys, act)) ∈ get_post_behavior_actions p → destroys ce act = false → t ∈ tys →
  t ∉ node_types_to_cleanup ce (get_post_behavior_actions p).
Proof.
  unfold get_post_behavior_actions. intros Hk Hd Ht Hin. apply list_elem_of_fmap in Hk as ([k l] & [= -> -> ->] & Hk).
  unfold node_types_to_cleanup in Hin. apply list_elem_of_join in Hin as (l' & Htl & Hl').
  apply list_elem_of_fmap in Hl' as (a & -> & Ha). apply list_elem_of_fmap in Ha as ([k' l''] & -> & Hk').
  cbn [fst snd] in *. destruct (destroys ce (pget ("post_behavior_" +:+ k') p)) eqn:Hd'; [|by apply elem_of_nil in Htl].
  pose proof (kinds_disjoint _ _ _ t Hk Hk' Ht Htl) as [= -> ->]. congruence.
Qed.

Lemma is_str_true v s : is_str v s = true → v = VStr s.
Proof. unfold is_str. destruct v; try done. by intros ->%String.eqb_eq. Qed.

(** A type to clean up is one of a kind of node whose behavior says so. *)
Lemma cleaned_kind ce p t :
  t ∈ node_types_to_cleanup ce (get_post_behavior_actions p) →
  ∃ key tys act, (key, (tys, act)) ∈ get_post_behavior_actions p ∧ t ∈ tys ∧
    (act = VStr "destroy" ∨ act = VStr "keep-on-failure" ∧ truthy ce = false).
Proof.
  unfold node_types_to_cleanup. intros (l & Hl & ([key [tys act]] & -> & Ha)%list_elem_of_fmap)%list_elem_of_join.
  cbn [fst snd] in Hl. destruct (destroys ce act) eqn:Hd; [|by apply elem_of_nil in Hl].
  exists key, tys, act. split; [done|]. split; [done|]. unfold destroys in Hd.
  destruct (is_str act "keep"); [done|]. destruct (is_str act "destroy") eqn:E1; [left; by apply is_str_true|].
  apply andb_true_iff in Hd as [E2 Hc]. right. split; [by apply is_str_true|]. by apply negb_true_iff in Hc.
Qed.


(** ** Dry runs *)
Definition reads_or_cancels (e : event) : Prop :=
  reads (ev_call e) = true ∨ ∃ region id, ev_call e = CancelReservation region id.

Ltac dry_step :=
  first [ apply emits_ret | apply emits_raise | apply emits_get | apply emits_set
        | apply emits_retrying; [left; reflexivity|] | apply emits_pause; left; reflexivity | apply emits_api; intros ?; left; reflexivity
        | apply emits_caught | apply emits_ignoring | apply emits_try; [|intros ?] | apply emits_by_region; intros ?
        | apply emits_for_each; intros ? ? | apply emits_bind_all; [|intros ?]
        | apply emits_eks_clusters; intros ? ? ?; left; assumption | apply emits_reloaded; intros ? ? ?; left; assumption
        | apply emits_oci_list; intros ? ? ?; left; assumption
        | case_match ].
Ltac dry := repeat (unfold assert_tags, on_arn; dry_step).

Section DryRun.
Context (cloud : list event → ∀ c : call, outcome cexn (resp c)).
Context (all_aws_regions cached_aws_regions oci_regions : list string).
Abbreviation quiet := (emits reads_or_cancels).

Lemma dry_parallel {A} (f : A → act (cstate rstate) cexn unit) l failed : (∀ x, quiet (f x)) → quiet (parallel f l failed).
Proof.
  intros Hf. revert failed. induction l as [|x l IH]; intros failed; cbn [parallel]; [dry|].
  apply emits_bind_all; [by apply emits_caught|]. intros r. apply IH.
Qed.

Lemma dry_fleets d regions any : quiet (clean_fleets cloud d true regions any).
Proof.
  revert any. induction regions as [|r rs IH]; intros any; cbn [clean_fleets]; [dry|].
  apply emits_bind_all; [|intros c; apply IH]. unfold clean_fleets_region. apply emits_bind_all; [dry|].
  intros [l|[]]; cbv zeta; rewrite ?orb_true_r; dry.
Qed.

Lemma dry_steps backend regions project azure d : backend ≠ "xcloud" →
  quiet (cleanup_steps cloud all_aws_regions cached_aws_regions oci_regions backend regions project azure d true).
Proof.
  intros Hx. unfold cleanup_steps. apply emits_bind_all; [|intros ?; apply emits_ret]. apply emits_run_steps.
  unfold backend_steps. cbv zeta.
  repeat first [ apply Forall_app_2 | apply steps_if_Forall; intros ?Hb | apply Forall_cons_2 | apply Forall_nil_2 ]; cbn [snd].
  all: try (exfalso; cbn in Hb; rewrite orb_false_r in Hb; by apply String.eqb_eq in Hb).
  all: try (exfalso; rewrite ?andb_false_r in Hb; done).
  all: unfold clean_clusters_eks, list_clusters_eks, clean_launch_templates_aws, clean_load_balancers_aws,
    clean_cloudformation_stacks_aws, clean_clusters_gke, list_clusters_gke, clean_orphaned_gke_disks, clean_emr_clusters,
    clean_emr_region, list_emr_clusters, clean_spot_fleet_requests_aws, clean_instances_aws, clean_instance_aws, list_instances_aws,
    clean_elastic_ips_aws, clean_test_security_groups, clean_placement_groups_aws, clean_instances_azure, clean_azure_region,
    clean_resources_docker, list_resources_docker, clean_instances_oci, clean_instance_oci,
    clean_orphan_block_volumes_oci, clean_volume_oci, clean_instances_gce, list_instances_gce, release_by_tags, list_hosts.
  all: try (apply emits_cancel_reservations; [by intros ? ? ?; left|by intros ? ? ?; right; eauto]).
  all: cbv beta iota zeta delta [unless]; dry.
  all: try first [apply dry_fleets | apply dry_parallel; intros i; apply emits_ret].
  all: match goal with H : _ && negb true = true |- _ => by rewrite andb_false_r in H end.
Qed.

Lemma dry_cloud d s :
  str_param "cluster_backend" (own s) ≠ "baremetal" → str_param "cluster_backend" (own s) ≠ "xcloud" →
  ∃ new, hist (clean_cloud_resources cloud all_aws_regions cached_aws_regions oci_regions d true s).1 = hist s ++ new ∧
         Forall reads_or_cancels new.
Proof.
  intros Hbm Hx. rewrite (clean_cloud_steps cloud all_aws_regions cached_aws_regions oci_regions d true s Hbm).
  repeat case_match; [exact (emits_ret reads_or_cancels _ s)..|]. by apply dry_steps.
Qed.
End DryRun.

(** A dry run changes nothing but capacity reservations. On every backend but bare metal and
    Scylla Cloud, whatever the clouds answer, every call that [clean_cloud_resources] makes with
    [dry_run] is one that reads, with one exception: the capacity reservations of the test are
    cancelled as in a real cleanup. *)
Theorem dry_run_only_cancels_reservations cloud all_aws_regions cached_aws_regions oci_regions d s :
  str_param "cluster_backend" (own s) ≠ "baremetal" → str_param "cluster_backend" (own s) ≠ "xcloud" →
  ∃ new, hist (clean_cloud_resources cloud all_aws_regions cached_aws_regions oci_regions d true s).1 = hist s ++ new ∧
         ∀ e, e ∈ new → reads (ev_call e) = true ∨ ∃ region id, ev_call e = CancelReservation region id.
Proof.
  intros Hbm Hx. destruct (dry_cloud cloud all_aws_regions cached_aws_regions oci_regions d s Hbm Hx) as (new & H & Hf).
  exists new. split; [done|]. intros e He. by eapply Forall_forall in Hf.
Qed.

(** ** Isolated steps *)

(** The steps that raise when all are run one after another. *)
Fixpoint raising (steps : list (string * act (cstate rstate) cexn unit)) (s : cstate rstate) : list string :=
  match steps with
  | [] => []
  | (name, m) :: steps' => (match (m s).2 with Ok _ => [] | Err _ => [name] end) ++ raising steps' (m s).1
  end.

Lemma run_steps_all steps failures s :
  run_steps steps failures s = (foldl (λ s step, (step.2 s).1) s steps, Ok (failures ++ raising steps s)).
Proof.
  revert failures s. induction steps as [|[name m] steps IH]; intros failures s; cbn [run_steps raising foldl snd].
  { by rewrite app_nil_r. }
  unfold bind, cleanup_step, bind, caught. destruct (m s) as [s' [u|x]]; cbn [fst snd ret]; rewrite IH; [done|].
  by rewrite (assoc_L (++)).
Qed.

(** C33. No failure of a step stops the cleanup. For tags that name a test or a user, on every
    backend but bare metal, and whatever every single call answers or raises,
    [clean_cloud_resources] returns: [None], having done nothing, for a local Kubernetes, and
    otherwise [True], having run every step of the backend in order, each from where the one
    before it ended, whether or not that one raised; the cleanup of the local docker containers
    is one of them. The failures noted are the names of exactly the steps that raised, in order. *)
Theorem cleanup_finishes cloud all_aws_regions cached_aws_regions oci_regions d dry_run s :
  dict_in "TestId" d = true ∨ dict_in "RunByUser" d = true → str_param "cluster_backend" (own s) ≠ "baremetal" →
  let r := clean_cloud_resources cloud all_aws_regions cached_aws_regions oci_regions d dry_run s in
  let steps := backend_steps cloud all_aws_regions cached_aws_regions oci_regions (str_param "cluster_backend" (own s))
    (cleanup_regions (own s)) (cleanup_project (own s)) (cleanup_azure_regions (own s)) d dry_run in
  if startswith "k8s-local" (str_param "cluster_backend" (own s)) then r = (s, Ok None)
  else r = (foldl (λ s step, (step.2 s).1) s steps, Ok (Some true)) ∧
       ("Docker resources", clean_resources_docker cloud d dry_run) ∈ steps ∧
       (run_steps steps [] s).2 = Ok (raising steps s).
Proof.
  intros Hd Hbm. cbv zeta. rewrite (clean_cloud_steps cloud all_aws_regions cached_aws_regions oci_regions d dry_run s Hbm).
  assert (Hid : negb (dict_in "TestId" d) && negb (dict_in "RunByUser" d) = false) by (destruct Hd as [-> | ->]; [done|by rewrite andb_false_r]).
  rewrite Hid. destruct (startswith "k8s-local" _) eqn:Hk; [done|]. split_and!.
  - unfold cleanup_steps, bind. by rewrite run_steps_all.
  - unfold backend_steps. cbv zeta. rewrite Hk. cbn [negb]. do 6 (apply elem_of_app; right). apply elem_of_app. left. left.
  - by rewrite run_steps_all.
Qed.

(** ** A run of the cleanup *)

(** A database node and a loader in a region, a reservation, a dedicated host and a container. *)
Definition sample_nodes : list resource :=
  [Resource "i-db" "db-1" [("NodeType", "scylla-db"); ("TestId", "42")] "running";
   Resource "i-loader" "loader-1" [("NodeType", "loader"); ("TestId", "42")] "running"].
Definition filter_passes (f : ec2_filter) (t : tags) : bool :=
  match dict_get (str_drop 4 (f_name f)) t with Some v => bool_decide (v ∈ f_values f) | None => false end.
Definition sample_cloud (h : list event) (c : call) : outcome cexn (resp c) :=
  match c return outcome cexn (resp c) with
  | DescribeInstances _ fs => Ok (filter (λ i, forallb (λ f, filter_passes f (r_tags i)) fs = true) sample_nodes)
  | DescribeReservations _ _ => Ok [Reservation "us-east-1a" "i4i.large" "cr-1"]
  | DescribeHosts _ _ _ => Ok [Host "h-1" "us-east-1a" "i4i.large"]
  | CurrentContainerId => Ok None
  | ListContainers _ => Ok [Resource "c-db" "db-2" [("NodeType", "scylla-db"); ("TestId", "42")] "running"]
  | ReloadContainer id => Ok (Resource id "db-2" [("NodeType", "scylla-db"); ("TestId", "42")] "running")
  | ListImages _ => Ok []
  | ReleaseHosts _ _ => Ok false
  | TerminateInstance _ _ | CancelReservation _ _ | RemoveContainer _ | DockerInfo => Ok tt
  | _ => Err OtherError
  end.
Definition sample_type (n : node) : option string :=
  match n with AwsNode _ "i-loader" => Some "loader" | AwsNode _ _ | Container _ => Some "scylla-db" | _ => None end.

Lemma sample_reports : reports_truly sample_cloud (λ _, []) sample_type.
Proof.
  split; try (intros; done).
  - intros h region fs l i [= <-] [Hf Hi]%list_elem_of_filter. split.
    + unfold sample_nodes in Hi. rewrite !elem_of_cons, elem_of_nil in Hi. by destruct Hi as [->|[->|[]]].
    + intros f Hin k Hk. rewrite forallb_forall in Hf. specialize (Hf f (proj1 (list_elem_of_In _ _) Hin)).
      unfold filter_passes in Hf. rewrite Hk in Hf. change (str_drop 4 ("tag:" +:+ k)) with k in Hf.
      destruct (dict_get k (r_tags i)) as [v|]; [|done]. exists v. split; [done|]. by apply bool_decide_eq_true in Hf.
  - by intros h id c [= <-].
Qed.

Definition sample_behavior (db loader : string) : cstate rstate :=
  CState [] (RState (AwsZones.Conf (list_to_map
    [("cluster_backend", VStr "aws"); ("region_name", VStr "us-east-1"); ("test_id", VStr "42");
     ("post_behavior_db_nodes", VStr db); ("post_behavior_loader_nodes", VStr loader);
     ("post_behavior_monitor_nodes", VStr "keep"); ("post_behavior_vector_store_nodes", VStr "keep");
     ("post_behavior_k8s_cluster", VStr "keep"); ("post_behavior_emr_cluster", VStr "keep");
     ("post_behavior_dedicated_host", VStr "keep")]) None None) [] [] None true).
Definition sample_clean (critical : option (list string)) (dry_run : bool) (s : cstate rstate) :=
  clean_resources_according_post_behavior sample_cloud ["us-east-1"] ["us-east-1"] [] [("TestId", TStr "42")] true critical dry_run s.
Definition calls_made (s : cstate rstate) : list call := filter (λ c, reads c = false) (ev_call <$> hist s).


Example sample_cleaned :
  calls_made (sample_clean (Some ["boom"]) false (sample_behavior "keep-on-failure" "destroy")).1 =
  [TerminateInstance "us-east-1" "i-loader"; ReportCosts ["N/A"]; CancelReservation "us-east-1" "cr-1";
   CancelReservation "us-east-1" "cr-1"; ReleaseHosts "us-east-1" ["h-1"]; DeleteResolvedPlacement "42"].
Proof. vm_compute. reflexivity. Qed.

Lemma dry_run_only_cancels_reservations_witness :
  ∃ new, hist (clean_cloud_resources sample_cloud ["us-east-1"] ["us-east-1"] [] [("TestId", TStr "42")] true (sample_behavior "keep" "destroy")).1 =
         [] ++ new ∧ ∀ e, e ∈ new → reads (ev_call e) = true ∨ ∃ region id, ev_call e = CancelReservation region id.
Proof.
  apply (dry_run_only_cancels_reservations sample_cloud ["us-east-1"] ["us-east-1"] [] [("TestId", TStr "42")] (sample_behavior "keep" "destroy"));
    by vm_compute.
Defined.

Lemma cleanup_finishes_witness :
  (clean_cloud_resources sample_cloud ["us-east-1"] ["us-east-1"] [] [("TestId", TStr "42")] false (sample_behavior "keep" "destroy")).2 = Ok (Some true).
Proof.
  pose proof (cleanup_finishes sample_cloud ["us-east-1"] ["us-east-1"] [] [("TestId", TStr "42")] false (sample_behavior "keep" "destroy")) as H.
  cbv zeta in H. change (startswith "k8s-local" _) with false in H.
  destruct H as [H _]; [left; reflexivity|by vm_compute|]. by rewrite H.
Defined.

(** ** What the cleanup does not do *)

(** With every kind of node kept there is no type to ask docker for, and all containers of the
    run are removed. *)
Example kept_containers_removed :
  RemoveContainer "c-db" ∈ calls_made (sample_clean (Some ["boom"]) false (sample_behavior "keep" "keep")).1.
Proof. apply list_elem_of_In. vm_compute. auto 10. Qed.

(** A dry run cancels a reservation. *)
Example dry_run_cancels :
  calls_made (sample_clean None true (sample_behavior "keep" "destroy")).1 = [CancelReservation "us-east-1" "cr-1"].
Proof. vm_compute. reflexivity. Qed.

(** Dedicated hosts to be kept are released with the rest. *)
Example kept_host_released :
  ReleaseHosts "us-east-1" ["h-1"] ∈ calls_made (sample_clean None false (sample_behavior "keep" "keep")).1.
Proof. apply list_elem_of_In. vm_compute. auto 10. Qed.

(** EMR clusters are never found by a list of node types. *)
Lemma emr_list_never_matches d l c : dict_get "NodeType" d = Some (TList l) → emr_matches d c = false.
Proof.
  intros Hd. apply not_true_is_false. unfold emr_matches. rewrite forallb_forall. intros H.
  specialize (H _ (proj1 (list_elem_of_In _ _) (dict_get_elem _ _ _ Hd))). done.
Qed.

(** Instances of GCE that do not run are not listed, so not deleted, whatever is asked for. *)
Lemma stopped_gce_not_listed cloud project d running s l i :
  (list_instances_gce cloud project d running s).2 = Ok l → i ∈ l → r_state (gi_resource i) = "RUNNING".
Proof.
  unfold list_instances_gce, bind, api. destruct (cloud _ _) as [all|]; [|done]. intros [= <-] Hi.
  destruct running; apply list_elem_of_filter in Hi as [Hs _]; [done|]. by destruct (decide (r_state (gi_resource i) = "RUNNING")).
Qed.

(** One region that cannot be listed hides the EKS clusters of all the regions before it. *)
Lemma eks_region_failure cloud region rest found s x :
  cloud (hist s) (ListEksClusters region) = Err x → (eks_clusters cloud (region :: rest) found s).2 = Ok [].
Proof. intros Hx. cbn [eks_clusters]. unfold bind, caught, api. by rewrite Hx. Qed.

(** Without the directory of the run it counts as free of critical events. *)
Example missing_run_cleans : destroys None (VStr "keep-on-failure") = true ∧ get_testrun_status false (Some ["boom"]) None true = Ok None.
Proof. done. Qed.

(** Errors without critical events cannot be collected. *)
Example error_log_alone : get_testrun_status true None (Some ["error"]) false = Err TypeError.
Proof. reflexivity. Qed.
End Cleanup.
