(* ===== verification/RunnerCleanup.v ===== *)
(** * The runners of tests and their cleanup

    Model of the part of [sdcm/sct_runner.py] that finds the instances tests ran from and lets
    them go: [SctRunnerInfo] as each provider reads it from the tags of an instance, the
    filters of [list_sct_runners], the tags [keep], [keep_action] and [logs_collected] that
    [update_sct_runner_tags] and [_manage_runner_keep_tag_value] write, and [clean_sct_runners]
    with the decision of [_process_sct_runner].

    The clock is a function of the history; runners that the source handles in a thread pool are
    handled here in the order of the list. *)
From Stdlib Require Import Ascii String ZArith Lia.
From stdpp Require Import base decidable option strings numbers list.
From S2P Require Import Prelude.
From S2P Require Import PyString.
From S2P Require Import PyInt.
From S2P Require Import PyDate.
From S2P Require Import PyDict.
From S2P Require Import Effects.
From S2P Require Import CloudCalls.
From S2P Require Import Cleanup.
Local Open Scope py_scope.
Local Open Scope Z_scope.

Module RunnerCleanup.
Import Cloud.

(** ** Launch times *)
Definition get_current_datetime_formatted (now : Z) : string := Date.strftime (Date.of_timestamp now).
Definition datetime_from_formatted (date_string : string) : option Z := Date.timestamp <$> Date.strptime date_string.

(** ** [SctRunnerInfo] *)

(** The [keep] field: the text of a tag, or the number that was just written to it. *)
Inductive keepval : Type := KText (s : string) | KHours (z : Z).
#[export] Instance truthy_keepval : Truthy keepval := λ k, match k with KText s => truthy s | KHours z => truthy z end.

Record runner := Runner {
  sct_runner_class : provider;
  instance : rinstance;
  instance_name : string;
  public_ips : list string;
  test_id : option string;
  launch_time : option Z;
  keep : option keepval;
  keep_action : option string;
  logs_collected : bool
}.

Definition with_keep (k : keepval) (r : runner) : runner :=
  Runner (sct_runner_class r) (instance r) (instance_name r) (public_ips r) (test_id r) (launch_time r) (Some k)
    (keep_action r) (logs_collected r).
Definition with_keep_action (a : string) (r : runner) : runner :=
  Runner (sct_runner_class r) (instance r) (instance_name r) (public_ips r) (test_id r) (launch_time r) (keep r)
    (Some a) (logs_collected r).

(** [int(self.keep)] *)
Definition keep_int (k : option keepval) : outcome cexn Z :=
  match k with
  | None => Err TypeError
  | Some (KHours z) => Ok z
  | Some (KText s) => match py_int s with Some z => Ok z | None => Err ValueError end
  end.

(** ** What the providers list *)
Definition str_to_bool (bool_as_str : option string) : bool :=
  match bool_as_str with
  | Some s => bool_decide (lower s ∈ ["true"; "yes"; "y"; "1"]%string)
  | None => false
  end.

Definition aws_tags_to_dict (tags_list : tags) : tags := foldl (λ d kv, dict_set kv.1 kv.2 d) [] tags_list.

(** The [launch_time] tag, when it is there and can be read. *)
Definition launch_tag (t : tags) : option Z :=
  match dict_get "launch_time" t with
  | Some s => if truthy s then datetime_from_formatted s else None
  | None => None
  end.

Definition info_of (p : provider) (i : rinstance) (name : string) (t : tags) (launch : option Z) : runner :=
  Runner p i name (ri_ips i) (dict_get "TestId" t) launch (KText <$> dict_get "keep" t) (dict_get "keep_action" t)
    (str_to_bool (dict_get "logs_collected" t)).

Definition aws_info (i : rinstance) : outcome cexn runner :=
  let t := aws_tags_to_dict (ri_tags i) in
  let name := match dict_get "Name" t with Some n => n +:+ " (" +:+ ri_id i +:+ ")" | None => ri_id i end in
  match ri_created i with Some launch => Ok (info_of Aws i name t (Some launch)) | None => Err KeyError end.

(** The time of creation stands in for a launch time that is not tagged. *)
Definition gce_info (i : rinstance) : outcome cexn runner :=
  let t := Cleanup.gce_meta_to_dict (ri_tags i) in
  match launch_tag t, ri_created i with
  | Some launch, _ => Ok (info_of Gce i (ri_name i) t (Some launch))
  | None, Some created => Ok (info_of Gce i (ri_name i) t (Some created))
  | None, None => Err ValueError
  end.
Definition azure_info (i : rinstance) : outcome cexn runner :=
  Ok (info_of Azure i (ri_name i) (ri_tags i) (launch_tag (ri_tags i))).
Definition oci_info (i : rinstance) : outcome cexn runner :=
  let launch_time := match launch_tag (ri_tags i) with Some l => Some l | None => ri_created i end in
  Ok (info_of Oci i (ri_name i) (ri_tags i) launch_time).

Definition runner_info (p : provider) : rinstance → outcome cexn runner :=
  match p with Aws => aws_info | Gce => gce_info | Azure => azure_info | Oci => oci_info end.

Fixpoint runner_infos (p : provider) (l : list rinstance) : outcome cexn (list runner) :=
  match l with
  | [] => Ok []
  | i :: l' => try! r := runner_info p i in try! rs := runner_infos p l' in Ok (r :: rs)
  end.

Definition _get_runner_user_tag (r : runner) : option string :=
  match sct_runner_class r with
  | Aws => dict_get "RunByUser" (aws_tags_to_dict (ri_tags (instance r)))
  | Gce => dict_get "RunByUser" (Cleanup.gce_meta_to_dict (ri_tags (instance r)))
  | Azure | Oci => dict_get "RunByUser" (ri_tags (instance r))
  end.

(** ** Filters *)

(** [test_id]: not given, one id, or the tuple of the command line. *)
Inductive test_ids : Type := NoId | OneId (s : string) | ManyIds (l : list string).
#[export] Instance truthy_test_ids : Truthy test_ids :=
  λ t, match t with NoId => false | OneId s => truthy s | ManyIds l => truthy l end.

(** [runner.test_id != test_id]: no string equals a tuple. *)
Definition id_differs (i : option string) (t : test_ids) : bool :=
  match t with OneId s => negb (bool_decide (i = Some s)) | NoId => bool_decide (i ≠ None) | ManyIds _ => true end.
Definition passes_test_id (t : test_ids) (r : runner) : bool :=
  if truthy t then
    match t with
    | ManyIds l => if negb (existsb (λ s, bool_decide (test_id r = Some s)) l) then false else negb (id_differs (test_id r) t)
    | _ => negb (id_differs (test_id r) t)
    end
  else true.

Definition passes (test_runner_ip user : option string) (t : test_ids) (r : runner) : bool :=
  if truthy test_runner_ip && negb (existsb (λ ip, bool_decide (test_runner_ip = Some ip)) (public_ips r)) then false
  else if truthy user && negb (bool_decide (_get_runner_user_tag r = user)) then false
  else passes_test_id t r.

Definition sct_runner_classes (backend : option string) : list provider :=
  let b := default EmptyString backend in
  if contains "aws" b || existsb (String.eqb b) ["k8s-eks"; "docker"] then [Aws]
  else if contains "gce" b || String.eqb b "k8s-gke" then [Gce]
  else if contains "azure" b then [Azure]
  else if contains "oci" b then [Oci]
  else [Aws; Gce; Azure; Oci].

Section Runners.
Context (cloud : list event → ∀ c : call, outcome cexn (resp c)).
(** [datetime.now], and the same at second precision. *)
Context (utc_now : list event → Z).
Abbreviation action := (act (cstate unit) cexn).

Definition of_outcome {A} (o : outcome cexn A) : action A := match o with Ok a => ret a | Err x => raise x end.
Definition read_clock : action Z := gets (λ s, utc_now (hist s)).

Fixpoint list_classes (ps : list provider) : action (list runner) :=
  match ps with
  | [] => ret []
  | p :: ps' =>
    let! l := api cloud (ListRunners p) in
    let! rs := of_outcome (runner_infos p l) in
    let! rest := list_classes ps' in ret (rs ++ rest)
  end.

Definition list_sct_runners (backend test_runner_ip user : option string) (t : test_ids) : action (list runner) :=
  let! rs := list_classes (sct_runner_classes backend) in
  ret (filter (λ r, passes test_runner_ip user t r = true) rs).

(** ** Tags and termination *)
Definition aws_set_tags (r : runner) (t : tags) : action unit :=
  match split_on "(" (instance_name r) with
  | _ :: part :: _ => api cloud (TagRunner Aws (str_replace part ")" EmptyString) t)
  | _ => raise IndexError
  end.
Definition gce_set_tags (r : runner) (t : tags) : action unit :=
  api cloud (TagRunner Gce (ri_name (instance r)) ((λ kv, (kv.1, lower kv.2)) <$> t)).
Definition azure_set_tags (r : runner) (t : tags) : action unit :=
  api cloud (TagRunner Azure (ri_id (instance r)) t).
(** The tags that are there are sent along. *)
Definition oci_set_tags (r : runner) (t : tags) : action unit :=
  let our_tags := foldl (λ d kv, dict_set kv.1 kv.2 d) (ri_tags (instance r)) t in
  api cloud (TagRunner Oci (ri_id (instance r)) our_tags).
Definition set_tags (r : runner) (t : tags) : action unit :=
  match sct_runner_class r with
  | Aws => aws_set_tags r t
  | Gce => gce_set_tags r t
  | Azure => azure_set_tags r t
  | Oci => oci_set_tags r t
  end.

Definition terminate (r : runner) : action unit := api cloud (TerminateRunner (sct_runner_class r) (ri_id (instance r))).

Definition update_sct_runner_tags (backend test_runner_ip test_id : option string) (t : tags) : action unit :=
  if negb (truthy test_runner_ip) && negb (truthy test_id) then raise ValueError
  else
    let! found := caught (
      if truthy test_runner_ip then list_sct_runners backend test_runner_ip None NoId
      else list_sct_runners backend None None (match test_id with Some i => OneId i | None => NoId end)) in
    match found with
    | Err _ | Ok [] => ret tt
    | Ok (r :: _) => ignoring Cleanup.any_exception (set_tags r t)
    end.

Definition hours_since (now launch : Z) : Z := (now - launch) / 3600.

Definition _manage_runner_keep_tag_value (now : Z) (timeout_flag : bool) (r : runner) (dry_run : bool) : action runner :=
  match launch_time r with
  | None => raise TypeError
  | Some launch =>
    let current_run_time_hrs := hours_since now launch in
    if timeout_flag && logs_collected r then
      let! k := of_outcome (keep_int (keep r)) in
      let new_keep_value := k - current_run_time_hrs + 6 in
      if 0 <? new_keep_value then
        (if dry_run then ret tt else set_tags r [("keep", str_Z new_keep_value)]) ;;;
        ret (with_keep (KHours new_keep_value) r)
      else ret r
    else if logs_collected r then
      (if dry_run then ret tt else set_tags r [("keep", "0"); ("keep_action", "terminate")]) ;;;
      ret (with_keep_action "terminate" (with_keep (KHours 0) r))
    else
      let new_keep_value := current_run_time_hrs + 48 in
      (if dry_run then ret tt else set_tags r [("keep", str_Z new_keep_value)]) ;;;
      ret (with_keep (KHours new_keep_value) r)
  end.

(** The reasons to skip a runner that has a [keep] tag. *)
Definition keeps (now : Z) (r : runner) : outcome cexn bool :=
  if negb (bool_decide (keep_action r = Some "terminate")) then Ok true
  else match launch_time r with
       | None => Ok true
       | Some launch =>
         match keep_int (keep r) with
         | Ok k => Ok (now - launch <? k * 3600)
         | Err ValueError => Ok false
         | Err x => Err x
         end
       end.

(** The end of [_process_sct_runner], once the tags were looked after. *)
Definition terminate_unless_kept (dry_run force : bool) (now : Z) (r : runner) : action bool :=
  let! skip := (if negb force && truthy (keep r) then of_outcome (keeps now r) else ret false) in
  if (skip : bool) || dry_run then ret false
  else let! t := caught (terminate r) in ret (match t with Ok _ => true | Err _ => false end).

Definition _process_sct_runner (test_runner_ip : option string) (dry_run force : bool) (r : runner) : action bool :=
  let sct_runner_name := match sct_runner_class r with
    | Aws => default EmptyString (head (split_on " " (instance_name r)))
    | _ => instance_name r end in
  let! timeout_flag :=
    (if truthy (public_ips r) && bool_decide (sct_runner_class r = Aws) then
       let! stdout := api cloud (ReadTimeoutEvents sct_runner_name (test_id r)) in ret (truthy (A := option string) stdout)
     else ret false) in
  let! now := read_clock in
  let! r := (if negb dry_run && truthy test_runner_ip then _manage_runner_keep_tag_value now timeout_flag r dry_run else ret r) in
  terminate_unless_kept dry_run force now r.

(** The tasks all run; the first exception is raised when their results are read. *)
Fixpoint process_all (f : runner → action bool) (l : list runner) : action Z :=
  match l with
  | [] => ret 0
  | r :: l' =>
    let! res := caught (f r) in let! n := caught (process_all f l') in
    match res, n with
    | Err x, _ | Ok _, Err x => raise x
    | Ok b, Ok n => ret ((if b : bool then 1 else 0) + n)
    end
  end.

Definition clean_sct_runners (test_runner_ip backend user : option string) (t : test_ids) (dry_run force : bool) : action unit :=
  let! l := list_sct_runners backend test_runner_ip user t in
  if negb dry_run && truthy test_runner_ip && force then
    match l with [] => raise IndexError | r :: _ => terminate r end
  else process_all (_process_sct_runner test_runner_ip dry_run force) l ;;; ret tt.

(** ** Which runners go *)

(** A runner may go when it has no [keep] tag, or when it is to be terminated, is known to have
    run for its hours, or its hours cannot be read. *)
Definition due (now : Z) (r : runner) : Prop :=
  truthy (keep r) = false ∨
  keep_action r = Some "terminate" ∧
  ∃ launch, launch_time r = Some launch ∧ ∀ k, keep_int (keep r) = Ok k → k * 3600 <= now - launch.

(** A runner that a provider of the backend listed and that passes the filters. *)
Definition listed (backend test_runner_ip user : option string) (t : test_ids) (r : runner) : Prop :=
  passes test_runner_ip user t r = true ∧
  ∃ h p l i, p ∈ sct_runner_classes backend ∧ cloud h (ListRunners p) = Ok l ∧ i ∈ l ∧ runner_info p i = Ok r.

Lemma runner_infos_elem p l rs r : runner_infos p l = Ok rs → r ∈ rs → ∃ i, i ∈ l ∧ runner_info p i = Ok r.
Proof.
  revert rs. induction l as [|i l IH]; intros rs; simpl; [intros [= <-] []%elem_of_nil|].
  destruct (runner_info p i) as [r'|] eqn:E; [|done]. simpl. destruct (runner_infos p l) as [rs'|]; [|done].
  intros [= <-] [->|Hr]%elem_of_cons; [by exists i; split; [left|]|].
  destruct (IH rs' eq_refl Hr) as (j & Hj & Ej). exists j. split; [by right|done].
Qed.

Lemma gives_list_classes ps :
  gives (list_classes ps) (Forall (λ r, ∃ h p l i, p ∈ ps ∧ cloud h (ListRunners p) = Ok l ∧ i ∈ l ∧ runner_info p i = Ok r)).
Proof using Type.
  induction ps as [|p ps IH]; simpl; [by apply gives_ret|].
  apply (gives_bind _ _ (λ l, ∃ h, cloud h (ListRunners p) = Ok l)); [apply gives_api; eauto|]. intros l [h Hl].
  apply (gives_bind _ _ (λ rs, runner_infos p l = Ok rs)).
  { intros s rs. unfold of_outcome. by destruct runner_infos; intros [= ->]. }
  intros rs Hrs. eapply gives_bind; [apply IH|]. intros rest Hrest. apply gives_ret. apply Forall_app. split.
  - apply Forall_forall. intros r Hr. destruct (runner_infos_elem _ _ _ _ Hrs Hr) as (i & Hi & Ei).
    exists h, p, l, i. split; [left|done].
  - eapply Forall_impl; [exact Hrest|]. intros r (h' & p' & l' & i & Hp & Hl'). exists h', p', l', i. split; [by right|done].
Qed.

Lemma gives_list_sct_runners backend ip user t :
  gives (list_sct_runners backend ip user t) (Forall (listed backend ip user t)).
Proof using Type.
  eapply gives_bind; [apply gives_list_classes|]. intros rs Hrs. apply gives_ret. apply Forall_forall.
  intros r [Hp Hr]%list_elem_of_filter. rewrite Forall_forall in Hrs. split; [done|]. by apply Hrs.
Qed.

(** *** What a cleanup does *)
Definition no_termination (e : event) : Prop := ∀ p id, ev_call e ≠ TerminateRunner p id.

Lemma emits_list_classes ps : emits no_termination (list_classes ps).
Proof using Type.
  induction ps as [|p ps IH]; simpl; [apply emits_ret|]. apply emits_bind_all; [by apply emits_api; intros h ??|].
  intros l. apply emits_bind_all; [by destruct runner_infos; [apply emits_ret|apply emits_raise]|].
  intros rs. apply emits_bind_all; [done|]. intros. apply emits_ret.
Qed.
Lemma emits_list backend ip user t : emits no_termination (list_sct_runners backend ip user t).
Proof using Type. apply emits_bind_all; [apply emits_list_classes|]. intros. apply emits_ret. Qed.

Lemma emits_set_tags r t : emits no_termination (set_tags r t).
Proof using Type.
  unfold set_tags, aws_set_tags. destruct (sct_runner_class r); [|by apply emits_api; intros ? ??..].
  destruct split_on as [|? [|? ?]]; [apply emits_raise..|by apply emits_api; intros ? ??].
Qed.

Lemma emits_manage now f r dry : emits no_termination (_manage_runner_keep_tag_value now f r dry).
Proof using Type.
  unfold _manage_runner_keep_tag_value. destruct (launch_time r); [|apply emits_raise].
  assert (∀ t : tags, ∀ r' : runner, emits no_termination (bind (if dry then ret tt else set_tags r t) (λ _, ret r'))) as H.
  { intros t r'. apply emits_bind_all; [destruct dry; [apply emits_ret|apply emits_set_tags]|]. intros. apply emits_ret. }
  destruct (f && logs_collected r); [|by destruct (logs_collected r)].
  apply emits_bind_all; [by destruct keep_int; [apply emits_ret|apply emits_raise]|].
  intros k. destruct (_ <? _); [done|apply emits_ret].
Qed.

(** The runner as it is after its tags were looked after. *)
Lemma gives_manage now f r dry :
  gives (_manage_runner_keep_tag_value now f r dry) (λ r', sct_runner_class r' = sct_runner_class r ∧ instance r' = instance r ∧
    (logs_collected r = false → ∃ launch, launch_time r = Some launch ∧ launch_time r' = Some launch ∧ keep r' = Some (KHours (hours_since now launch + 48)))).
Proof using Type.
  unfold _manage_runner_keep_tag_value. destruct (launch_time r) as [launch|] eqn:El; [|by intros s a].
  assert (∀ (m : action unit) r' (R : runner → Prop), R r' → gives (bind m (λ _, ret r')) R) as H.
  { intros m r' R HR. eapply gives_bind; [apply gives_any|]. intros. by apply gives_ret. }
  destruct (logs_collected r) eqn:Eq.
  - destruct (f && true).
    + eapply gives_bind; [apply gives_any|]. intros k _. destruct (_ <? _); [by apply H|by apply gives_ret].
    + by apply H.
  - rewrite andb_false_r. apply H. repeat split; [done..|]. intros _. simpl. eauto.
Qed.

(** One runner is terminated only if it is not a dry run, and the runner is due or the cleanup forced. *)
Definition terminates_only (Q : Prop) (r : runner) (e : event) : Prop :=
  ∀ p id, ev_call e = TerminateRunner p id → Q ∧ sct_runner_class r = p ∧ ri_id (instance r) = id.

Lemma no_termination_only Q r {A} (m : action A) : emits no_termination m → emits (terminates_only Q r) m.
Proof using Type. apply emits_weaken. intros e H p id E. by edestruct H. Qed.

Lemma gives_keeps now r : gives (of_outcome (keeps now r)) (λ skip, truthy (keep r) = true → skip = false → due now r).
Proof using Type.
  unfold keeps. intros s skip. destruct (bool_decide_reflect (keep_action r = Some "terminate")) as [Ha|]; simpl; [|by intros [= <-]].
  destruct (launch_time r) as [launch|] eqn:El; [|by intros [= <-]]. unfold due.
  destruct (keep_int (keep r)) as [k|[]] eqn:Ek; simpl; try done; intros [= <-] _.
  - intros Hlt%Z.ltb_ge. right. split; [done|]. exists launch. split; [done|]. by intros k' [= <-].
  - intros _. right. split; [done|]. exists launch. by split.
Qed.

Lemma emits_terminate_unless_kept dry force now r :
  emits (terminates_only (dry = false ∧ (force = true ∨ due now r)) r) (terminate_unless_kept dry force now r).
Proof using Type.
  unfold terminate_unless_kept.
  apply (emits_bind _ _ _ (λ skip, skip = false → force = true ∨ due now r)).
  - apply no_termination_only. destruct (negb force && _); [|apply emits_ret].
    destruct (keeps now r); [apply emits_ret|apply emits_raise].
  - destruct force; simpl; [by intros s a; left|]. destruct (truthy (keep r)) eqn:Et; simpl.
    + intros s a Ha Hf. right. by apply (gives_keeps now r s a).
    + intros s a _ _. by right; left.
  - intros [|] Hskip; [apply emits_ret|]. destruct dry; [apply emits_ret|]. simpl.
    apply emits_bind_all; [|intros; apply emits_ret]. apply emits_caught, emits_api. intros h p id [= <- <-]. auto.
Qed.

(** What the timeout lookup and the clock add. *)
Lemma emits_lookup Q r (b : bool) name ti :
  emits (P := unit) (terminates_only Q r) (if b then let! o := api cloud (ReadTimeoutEvents name ti) in ret (truthy (A := option string) o) else ret false).
Proof using Type.
  apply no_termination_only. destruct b; [|apply emits_ret]. apply emits_bind_all; [by apply emits_api; intros h ??|].
  intros. apply emits_ret.
Qed.

Lemma process_without_ip ip dry force r :
  truthy ip = false →
  emits (terminates_only (dry = false ∧ (force = true ∨ ∃ h, due (utc_now h) r)) r) (_process_sct_runner ip dry force r).
Proof using Type.
  intros Hip. unfold _process_sct_runner. apply emits_bind_all; [apply emits_lookup|]. intros f.
  apply (emits_bind _ _ _ (λ now, ∃ h, now = utc_now h)).
  { intros s. exists []. by rewrite app_nil_r. } { intros s a [= <-]. eauto. }
  intros now [h ->]. rewrite Hip, andb_false_r. apply (emits_bind _ _ _ (λ r', r' = r)); [apply emits_ret|by apply gives_ret|].
  intros r' ->. eapply emits_weaken; [|apply emits_terminate_unless_kept]. intros e He p id E.
  destruct (He p id E) as ((? & ?) & ?). naive_solver.
Qed.

(** After a run whose logs were not collected, its runner is kept for two more days. *)
Lemma not_due_uncollected now launch r :
  launch <= now → launch_time r = Some launch → keep r = Some (KHours (hours_since now launch + 48)) → ¬ due now r.
Proof using Type.
  intros Hle Hl Hk [Ht|(_ & l & Hl' & Hd)]; unfold hours_since in *.
  - rewrite Hk in Ht. apply negb_false_iff, Z.eqb_eq in Ht.
    assert (0 <= (now - launch) / 3600) by (apply Z.div_pos; lia). lia.
  - rewrite Hl in Hl'. injection Hl' as <-. specialize (Hd _ ltac:(rewrite Hk; done)).
    pose proof (Z.mod_pos_bound (now - launch) 3600). pose proof (Z.div_mod (now - launch) 3600). lia.
Qed.

Lemma process_managed ip dry r (Q : runner → Prop) :
  truthy ip = true →
  (∀ h f, gives (_manage_runner_keep_tag_value (utc_now h) f r dry) (λ r',
     sct_runner_class r' = sct_runner_class r ∧ instance r' = instance r ∧ (due (utc_now h) r' → Q r))) →
  emits (terminates_only (dry = false ∧ Q r) r) (_process_sct_runner ip dry false r).
Proof using Type.
  intros Hip HQ. unfold _process_sct_runner. apply emits_bind_all; [apply emits_lookup|]. intros f.
  apply (emits_bind _ _ _ (λ now, ∃ h, now = utc_now h)).
  { intros s. exists []. by rewrite app_nil_r. } { intros s a [= <-]. eauto. }
  intros now [h ->]. rewrite Hip. destruct dry; simpl.
  - apply emits_bind_all; [apply emits_ret|]. intros r'. eapply emits_weaken; [|apply emits_terminate_unless_kept].
    intros e He p id E. by destruct (He p id E) as ((? & ?) & ?).
  - eapply emits_bind; [apply no_termination_only, emits_manage|apply HQ|]. intros r' (Hc & Hi & Hdue).
    eapply emits_weaken; [|apply emits_terminate_unless_kept]. intros e He p id E.
    destruct (He p id E) as ((_ & [|Hd]) & <- & <-); [done|]. rewrite Hc, Hi. auto.
Qed.

Lemma process_with_ip ip dry r :
  truthy ip = true → (∀ h launch, launch_time r = Some launch → launch <= utc_now h) →
  emits (terminates_only (dry = false ∧ logs_collected r = true) r) (_process_sct_runner ip dry false r).
Proof using Type.
  intros Hip Hclock. apply (process_managed _ _ _ (λ r, logs_collected r = true)); [done|]. intros h f s r' Hr'.
  destruct (gives_manage _ _ _ _ _ _ Hr') as (Hc & Hi & Hk). repeat split; [done..|]. intros Hdue.
  destruct (logs_collected r) eqn:El; [done|]. destruct (Hk eq_refl) as (launch & Hl & Hl' & Hkeep). exfalso.
  by eapply not_due_uncollected; [eapply Hclock|..|exact Hdue].
Qed.

(** Forced, with an address: only dry runs come here, and they terminate nothing. *)
Lemma process_forced ip dry r : negb dry && truthy ip && true = false →
  truthy ip = true → emits (terminates_only (dry = false) r) (_process_sct_runner ip dry true r).
Proof using Type.
  intros Hd Hip. rewrite Hip in Hd. destruct dry; [|done]. unfold _process_sct_runner. rewrite Hip. cbn [negb andb].
  apply emits_bind_all; [apply emits_lookup|]. intros f.
  apply emits_bind_all; [intros s; exists []; by rewrite app_nil_r|]. intros now.
  apply emits_bind_all; [apply emits_ret|]. intros r'. eapply emits_weaken; [|apply emits_terminate_unless_kept].
  intros e He p id E. by destruct (He p id E) as ((? & ?) & ?).
Qed.

Lemma emits_process_all (Q : event → Prop) f l : (∀ r, r ∈ l → emits Q (f r)) → emits (P := unit) Q (process_all f l).
Proof using Type.
  induction l as [|r l IH]; intros H; simpl; [apply emits_ret|].
  apply emits_bind_all; [apply emits_caught, H; left|]. intros res.
  apply emits_bind_all; [apply emits_caught, IH; intros; apply H; by right|].
  intros n. destruct res, n; (apply emits_ret || apply emits_raise).
Qed.

Lemma clean_terminates ip backend user t dry force (Q : runner → Prop) :
  negb dry && truthy ip && force = false →
  (∀ r, listed backend ip user t r → emits (terminates_only (Q r) r) (_process_sct_runner ip dry force r)) →
  emits (λ e, ∀ p id, ev_call e = TerminateRunner p id →
    ∃ r, listed backend ip user t r ∧ sct_runner_class r = p ∧ ri_id (instance r) = id ∧ Q r) (clean_sct_runners ip backend user t dry force).
Proof using Type.
  intros Hforce HQ. eapply emits_bind; [|apply gives_list_sct_runners|].
  { eapply emits_weaken; [|apply emits_list]. intros e He p id E. by edestruct He. }
  intros l Hl. rewrite Hforce. apply emits_bind_all; [|intros; apply emits_ret].
  apply emits_process_all. intros r Hr. rewrite Forall_forall in Hl. eapply emits_weaken; [|apply HQ, Hl, Hr].
  intros e He p id E. destruct (He p id E) as (? & ? & ?). exists r. auto.
Qed.

(** A forced cleanup of one address terminates the first runner listed. *)
Lemma forced_terminates ip backend user t :
  truthy ip = true →
  emits (λ e, ∀ p id, ev_call e = TerminateRunner p id →
    ∃ r, listed backend ip user t r ∧ sct_runner_class r = p ∧ ri_id (instance r) = id) (clean_sct_runners ip backend user t false true).
Proof using Type.
  intros Hip. eapply emits_bind; [|apply gives_list_sct_runners|].
  { eapply emits_weaken; [|apply emits_list]. intros e He p id E. by edestruct He. }
  intros l Hl. rewrite Hip. cbn [negb andb]. destruct l as [|r l]; [apply emits_raise|].
  apply Forall_cons in Hl as [Hr _]. apply emits_api. intros h p id [= <- <-]. by exists r.
Qed.

(** C25. Which runners a cleanup terminates. Every runner it terminates was listed by a provider
    of the backend and passes the filters (address, user, test), and it is no dry run. Without
    force, a cleanup that is not for one address terminates only runners that are due: without a
    [keep] tag, or to be terminated and past the hours of their tag (or with hours that cannot
    be read). A cleanup for the address of a run, which rewrites the tags of its runner,
    terminates only runners whose logs were collected. The runners were launched in the past. *)
Theorem only_due_runners_terminated test_runner_ip backend user t dry_run force :
  (∀ r h launch, listed backend test_runner_ip user t r → launch_time r = Some launch → launch <= utc_now h) →
  emits (λ e, ∀ p id, ev_call e = TerminateRunner p id →
    ∃ r, listed backend test_runner_ip user t r ∧ sct_runner_class r = p ∧ ri_id (instance r) = id ∧ dry_run = false ∧
      (force = true ∨ if truthy test_runner_ip then logs_collected r = true else ∃ h, due (utc_now h) r))
    (clean_sct_runners test_runner_ip backend user t dry_run force).
Proof using Type.
  intros Hclock. destruct (negb dry_run && truthy test_runner_ip && force) eqn:Hforce.
  - apply andb_true_iff in Hforce as [[Hdry Hip]%andb_true_iff ->]. apply negb_true_iff in Hdry as ->.
    eapply emits_weaken; [|by apply forced_terminates]. intros e He p id E. destruct (He p id E) as (r & ? & ? & ?).
    exists r. split_and!; [done..|by left].
  - apply (clean_terminates _ _ _ _ _ _ (λ r, dry_run = false ∧
      (force = true ∨ if truthy test_runner_ip then logs_collected r = true else ∃ h, due (utc_now h) r))); [done|].
    intros r Hr. destruct (truthy test_runner_ip) eqn:Hip; [|by apply process_without_ip].
    destruct force.
    + eapply emits_weaken; [|apply (process_forced test_runner_ip dry_run r); [by rewrite Hip|done]]. intros e He p id E. destruct (He p id E) as (? & ? & ?). split_and!; auto.
    + eapply emits_weaken; [|apply process_with_ip; [done|intros h launch; by apply Hclock]].
      intros e He p id E. destruct (He p id E) as ((? & ?) & ? & ?). split_and!; auto.
Qed.

(** The cleanup after a test run, for the runner with its address, terminates only runners
    whose logs were collected: the others are kept two more days, whatever their tags say. *)
Theorem uncollected_runners_stay ip backend user t dry_run :
  truthy ip = true →
  (∀ r h launch, listed backend ip user t r → launch_time r = Some launch → launch <= utc_now h) →
  emits (λ e, ∀ p id, ev_call e = TerminateRunner p id →
    ∃ r, listed backend ip user t r ∧ sct_runner_class r = p ∧ ri_id (instance r) = id ∧ dry_run = false ∧ logs_collected r = true)
    (clean_sct_runners ip backend user t dry_run false).
Proof using Type.
  intros Hip Hclock. apply (clean_terminates _ _ _ _ _ _ (λ r, dry_run = false ∧ logs_collected r = true)).
  - by rewrite !andb_false_r.
  - intros r Hr. apply process_with_ip; [done|]. intros h launch. by apply Hclock.
Qed.

(** A runner whose logs were collected, with no timeout in its events, is terminated at the end. *)
Lemma collected_runner_goes ip force r launch s :
  truthy ip = true → logs_collected r = true → launch_time r = Some launch →
  (∀ h name ti, cloud h (ReadTimeoutEvents name ti) = Ok None) →
  (∀ h p id t, cloud h (TagRunner p id t) = Ok tt) →
  (sct_runner_class r = Aws → (2 <= List.length (split_on "(" (instance_name r)))%nat) →
  ∃ h a, hist (_process_sct_runner ip false force r s).1 =
    h ++ [Event (TerminateRunner (sct_runner_class r) (ri_id (instance r))) a].
Proof using Type.
  intros Hip Hc Hl Hssh Htag Haws. unfold _process_sct_runner.
  assert (∀ s now, ∃ h a, hist (bind (_manage_runner_keep_tag_value now false r false)
      (λ r', terminate_unless_kept false force now r') s).1 =
      h ++ [Event (TerminateRunner (sct_runner_class r) (ri_id (instance r))) a]) as Hend.
  { intros s' now. unfold _manage_runner_keep_tag_value. rewrite Hl, Hc. simpl. unfold bind.
    assert (∀ t s, ∃ h, set_tags r t s = (h, Ok tt)) as Hset.
    { intros t s''. unfold set_tags, aws_set_tags, gce_set_tags, azure_set_tags, oci_set_tags. destruct (sct_runner_class r) eqn:Er;
        [specialize (Haws eq_refl); destruct split_on as [|? [|? ?]]; simpl in Haws; [lia..|]|..];
        unfold api; rewrite Htag; eauto. }
    destruct (Hset [("keep", "0"); ("keep_action", "terminate")] s') as [h ->].
    unfold terminate_unless_kept. simpl. rewrite andb_false_r. simpl. unfold bind, ret, caught, terminate, api. simpl. eauto. }
  unfold bind at 1. rewrite Hip. destruct (truthy (public_ips r) && _); simpl; [|apply Hend].
  unfold bind at 1, api. rewrite Hssh. simpl. apply Hend.
Qed.
End Runners.

(** ** Tags written and read back *)

(** An instance after its tags were set: AWS, Azure and OCI keep the tags that are not named. *)
Definition with_tags (t : tags) (i : rinstance) : rinstance :=
  RInstance (ri_id i) (ri_name i) (foldl (λ d kv, dict_set kv.1 kv.2 d) (ri_tags i) t) (ri_labels i) (ri_zone i) (ri_ips i) (ri_created i).
(** GCE sets labels. *)
Definition with_labels (l : tags) (i : rinstance) : rinstance :=
  RInstance (ri_id i) (ri_name i) (ri_tags i) l (ri_zone i) (ri_ips i) (ri_created i).

Lemma aws_tags_to_dict_wf t : dict_wf t → aws_tags_to_dict t = t.
Proof. intros Ht. unfold aws_tags_to_dict. by rewrite dict_of_pairs. Qed.

(** Reading the instance again, only the [keep] field is another one. *)
Lemma runner_info_with_keep p i r v :
  p ≠ Gce → dict_wf (ri_tags i) → runner_info p i = Ok r →
  ∃ r', runner_info p (with_tags [("keep", v)] i) = Ok r' ∧ keep r' = Some (KText v) ∧
    keep_action r' = keep_action r ∧ launch_time r' = launch_time r.
Proof.
  intros Hp Hwf Hr. destruct p; [|done|..]; simpl in *; unfold aws_info, azure_info, oci_info in *; simpl in *.
  - destruct (ri_created i); [|done]. injection Hr as <-.
    rewrite !aws_tags_to_dict_wf by (by try apply dict_set_wf).
    eexists; split; [done|]. simpl. by rewrite !dict_get_set.
  - injection Hr as <-. eexists; split; [done|]. simpl. unfold launch_tag. by rewrite !dict_get_set.
  - injection Hr as <-. eexists; split; [done|]. simpl. unfold launch_tag. by rewrite !dict_get_set.
Qed.

(** When the logs of a run were not collected, what the cleanup after the run writes on its
    runner, on AWS, Azure and OCI, keeps it from every other cleanup of the next 47 hours. *)
Theorem uncollected_runner_kept_later cloud p i r f launch now now' :
  p ≠ Gce → dict_wf (ri_tags i) → runner_info p i = Ok r → logs_collected r = false →
  launch_time r = Some launch → launch <= now → now' < now + 47 * 3600 →
  ∃ t r2, _manage_runner_keep_tag_value cloud now f r false = (set_tags cloud r t ;;; ret r2) ∧
    ∃ r', runner_info p (with_tags t i) = Ok r' ∧ ¬ due now' r'.
Proof.
  intros Hp Hwf Hr Hc Hl Hle Hnow. unfold _manage_runner_keep_tag_value. rewrite Hl, Hc, andb_false_r.
  eexists _, _. split; [done|].
  destruct (runner_info_with_keep p i r (str_Z (hours_since now launch + 48)) Hp Hwf Hr) as (r' & E & Hk & _ & Hl').
  exists r'. split; [done|]. intros [Ht|(_ & l & El & Hd)].
  - rewrite Hk in Ht. unfold hours_since in Ht. pose proof (Z.div_pos (now - launch) 3600).
    pose proof (str_Z_digits ((now - launch) / 3600 + 48) ltac:(lia)) as [Hne _]%andb_true_iff. change (truthy (str_Z ((now - launch) / 3600 + 48)) = false) in Ht. congruence.
  - rewrite Hl', Hl in El. injection El as <-. rewrite Hk in Hd. simpl in Hd. rewrite py_int_str_Z in Hd.
    specialize (Hd _ eq_refl). unfold hours_since in Hd.
    pose proof (Z.mod_pos_bound (now - launch) 3600). pose proof (Z.div_mod (now - launch) 3600). lia.
Qed.

(** What GCE is asked to write is not where the runner is read from. *)
Lemma gce_labels_ignored l i : runner_info Gce (with_labels l i) = (try! r := runner_info Gce i in
  Ok (Runner Gce (with_labels l i) (instance_name r) (public_ips r) (test_id r) (launch_time r) (keep r) (keep_action r) (logs_collected r))).
Proof. unfold runner_info, gce_info. simpl. destruct (launch_tag _); [done|]. by destruct (ri_created i). Qed.

(** The ids of the command line, a tuple, match no runner. *)
Lemma many_ids_match_none x l r : passes_test_id (ManyIds (x :: l)) r = false.
Proof. unfold passes_test_id. simpl. by destruct (negb _). Qed.

(** A forced cleanup for an address that no runner has fails on the first of none. *)
Lemma forced_cleanup_of_none cloud utc_now ip backend user t s s' :
  truthy ip = true → list_sct_runners cloud backend ip user t s = (s', Ok []) →
  clean_sct_runners cloud utc_now ip backend user t false true s = (s', Err IndexError).
Proof. intros Hip Hl. unfold clean_sct_runners, bind. by rewrite Hl, Hip. Qed.

(** ** A cloud with three runners *)
Definition sample_runners (p : provider) : list rinstance :=
  match p with
  | Aws => [RInstance "i-1" EmptyString [("NodeType", "sct-runner"); ("Name", "runner-a"); ("TestId", "T1"); ("keep", "24"); ("keep_action", "terminate")] [] "us-east-1a" ["10.0.0.1"] (Some 0);
            RInstance "i-2" EmptyString [("NodeType", "sct-runner"); ("TestId", "T2"); ("logs_collected", "True")] [] "us-east-1a" ["10.0.0.2"] (Some 0)]
  | Azure => [RInstance "vm-3" "runner-c" [("TestId", "T3"); ("keep", "24"); ("keep_action", "terminate"); ("logs_collected", "True"); ("launch_time", "January 01, 1970, 00:00:00")] [] "eastus" ["10.0.0.3"] None]
  | _ => []
  end.
Definition sample_provider (h : list event) (c : call) : outcome cexn (resp c) :=
  match c with
  | ListRunners p => Ok (sample_runners p)
  | ReadTimeoutEvents _ _ => Ok None
  | TagRunner _ _ _ | TerminateRunner _ _ => Ok tt
  | _ => Err OtherError
  end.
(** ** Launch times are read as they were written *)

(** The launch time that a runner is tagged with at its creation reads back as the same second. *)
Theorem launch_time_roundtrip now :
  1 <= Date.year (Date.of_timestamp now) <= 9999 →
  datetime_from_formatted (get_current_datetime_formatted now) = Some now.
Proof.
  intros Hy. unfold datetime_from_formatted, get_current_datetime_formatted.
  rewrite Date.strptime_strftime by (by apply Date.of_timestamp_valid). simpl. by rewrite Date.timestamp_of.
Qed.
Lemma launch_time_roundtrip_witness :
  get_current_datetime_formatted 1767225599 = "December 31, 2025, 23:59:59"%string ∧
  datetime_from_formatted (get_current_datetime_formatted 1767225599) = Some 1767225599.
Proof. split; [by vm_compute|]. apply launch_time_roundtrip. by vm_compute. Defined.

(** ** Runs *)
Definition calls_of {A} (r : cstate unit * A) : list call := ev_call <$> hist r.1.
Definition started := CState (P := unit) [] tt.

(** Ten hours after the launch, the sweep takes only the runner without a [keep] tag. *)
Example sample_sweep :
  calls_of (clean_sct_runners sample_provider (λ _, 36000) None None None NoId false false started) =
  [ListRunners Aws; ListRunners Gce; ListRunners Azure; ListRunners Oci;
   ReadTimeoutEvents "runner-a" (Some "T1"); ReadTimeoutEvents "i-2" (Some "T2"); TerminateRunner Aws "i-2"]%string.
Proof. by vm_compute. Qed.

(** The cleanup after run [T1] keeps its runner for 58 hours, that after [T3] terminates its own. *)
Example sample_after_run :
  calls_of (clean_sct_runners sample_provider (λ _, 36000) (Some "10.0.0.1") (Some "aws") None NoId false false started) =
  [ListRunners Aws; ReadTimeoutEvents "runner-a" (Some "T1"); TagRunner Aws "i-1" [("keep", "58")]] ∧
  calls_of (clean_sct_runners sample_provider (λ _, 36000) (Some "10.0.0.3") (Some "azure") None NoId false false started) =
  [ListRunners Azure; TagRunner Azure "vm-3" [("keep", "0"); ("keep_action", "terminate")]; TerminateRunner Azure "vm-3"]%string.
Proof. by vm_compute. Qed.

(** A runner without a name cannot be tagged, and is not terminated though its logs are there. *)
Example unnamed_runner_not_tagged :
  clean_sct_runners sample_provider (λ _, 36000) (Some "10.0.0.2") (Some "aws") None NoId false false started =
  (CState [Event (ListRunners Aws) (Ok (sample_runners Aws)); Event (ReadTimeoutEvents "i-2" (Some "T2")) (Ok None)] tt, Err IndexError).
Proof. by vm_compute. Qed.

(** After a timeout 20 hours into a run, a runner with 24 hours to live is terminated at once:
    the hours that are left and six more are counted from its launch. *)
Example timed_out_runner_goes :
  let cloud h (c : call) := match c as c return outcome cexn (resp c) with
    | ReadTimeoutEvents _ _ => Ok (Some "TestTimeoutEvent") | c => sample_provider h c end in
  let r := Runner Aws (RInstance "i-4" EmptyString [] [] "us-east-1a" [] None) "runner-d (i-4)" ["10.0.0.4"] (Some "T4") (Some 0)
    (Some (KText "24")) (Some "terminate") true in
  calls_of (_process_sct_runner cloud (λ _, 72000) (Some "10.0.0.4") false false r started) =
  [ReadTimeoutEvents "runner-d" (Some "T4"); TagRunner Aws "i-4" [("keep", "10")]; TerminateRunner Aws "i-4"]%string.
Proof. by vm_compute. Qed.

Lemma sample_launches backend ip user t r (h : list event) launch :
  listed sample_provider backend ip user t r → launch_time r = Some launch → launch <= 36000.
Proof.
  intros (_ & h' & p & l & i & _ & Hl & Hi & Hr) E.
  injection Hl as <-. destruct p; simpl in Hi; rewrite ?elem_of_cons, elem_of_nil in Hi; [|done| |done].
  - destruct Hi as [->|[->|[]]]; injection Hr as <-; injection E as <-; lia.
  - destruct Hi as [->|[]]. injection Hr as <-. vm_compute in E. injection E as <-. lia.
Qed.

Lemma only_due_runners_terminated_witness :
  TerminateRunner Azure "vm-3" ∈ calls_of (clean_sct_runners sample_provider (λ _, 36000) (Some "10.0.0.3") (Some "azure") None NoId false false started) ∧
  emits (λ e, ∀ p id, ev_call e = TerminateRunner p id →
    ∃ r, listed sample_provider (Some "azure") (Some "10.0.0.3") None NoId r ∧ sct_runner_class r = p ∧ ri_id (instance r) = id ∧
      false = false ∧ (false = true ∨ logs_collected r = true))
    (clean_sct_runners sample_provider (λ _, 36000) (Some "10.0.0.3") (Some "azure") None NoId false false).
Proof.
  split; [apply list_elem_of_In; vm_compute; auto 10|].
  apply (only_due_runners_terminated sample_provider (λ _, 36000) (Some "10.0.0.3") (Some "azure") None NoId false false).
  intros r h launch. apply (sample_launches _ _ _ _ r h).
Defined.

Lemma uncollected_runners_stay_witness :
  emits (λ e, ∀ p id, ev_call e = TerminateRunner p id →
    ∃ r, listed sample_provider (Some "aws") (Some "10.0.0.1") None NoId r ∧ sct_runner_class r = p ∧ ri_id (instance r) = id ∧
      false = false ∧ logs_collected r = true)
    (clean_sct_runners sample_provider (λ _, 36000) (Some "10.0.0.1") (Some "aws") None NoId false false).
Proof.
  apply uncollected_runners_stay; [done|]. intros r h launch. apply (sample_launches _ _ _ _ r h).
Defined.

Lemma uncollected_runner_kept_later_witness :
  ∃ t r2 r, _manage_runner_keep_tag_value sample_provider 36000 false r false = (set_tags sample_provider r t ;;; ret r2) ∧
    ∃ r', runner_info Aws (with_tags t (RInstance "i-1" EmptyString [("Name", "runner-a"); ("keep", "24"); ("keep_action", "terminate")] [] "us-east-1a" ["10.0.0.1"] (Some 0))) = Ok r'
      ∧ ¬ due (36000 + 46 * 3600) r'.
Proof.
  set (i := RInstance _ _ _ _ _ _ _).
  destruct (uncollected_runner_kept_later sample_provider Aws i
    (info_of Aws i "runner-a (i-1)" (ri_tags i) (Some 0)) false 0 36000 (36000 + 46 * 3600)) as (t & r2 & Hm & Hr); [done| |done..|].
  - apply (bool_decide_unpack _). by vm_compute.
  - eauto.
Defined.
End RunnerCleanup.
