(* ===== verification/InstanceMatcher.v ===== *)
(** * Choosing an instance type by its hardware

    Model of [sdcm/utils/cloud_catalog/instance_matcher.py] and of the catalog it searches
    ([instance_catalog.py]): the constraints of a sizing as they are written and parsed, the ones
    that roles imply, the filter, the order of preference, and the memory of flexible shapes.

    Amounts and prices are the exact numbers of [PyNum]; the catalog is an argument. *)
From Stdlib Require Import Ascii String ZArith Lia QArith Qcanon Lqa.
From stdpp Require Import base decidable option strings numbers list.
From S2P Require Import Prelude.
From S2P Require Import PyString.
From S2P Require Import PyOrder.
From S2P Require Import PyNum.
From S2P Require Import PyInt.
From S2P Require Import PyDict.
Local Open Scope py_scope.
Local Open Scope Z_scope.

Module InstanceMatcher.

(** ** The catalog *)
Inductive price : Type := Flat (q : num) | ByRegion (d : list (string * num)).

Record InstanceTypeInfo := Info {
  instance_type : string;
  cloud : string;
  family : string;
  vcpus : Z;
  memory_gb : num;
  local_disk_gb : num;
  local_disk_count : Z;
  arch : string;
  price_per_hour : option price;
  min_memory_gb : option num;
  max_memory_gb : option num;
  spot_price_per_hour : option price
}.

Definition _price_for_region (p : option price) (region : option string) : option num :=
  match p with
  | None => None
  | Some (Flat q) => Some q
  | Some (ByRegion d) =>
    match (if truthy region then r ← region; dict_get r d else None) with
    | Some q => Some q
    | None => match d with (_, q) :: _ => Some q | [] => None end
    end
  end.
Definition get_price (i : InstanceTypeInfo) (region : option string) : option num := _price_for_region (price_per_hour i) region.
Definition get_spot_price (i : InstanceTypeInfo) (region : option string) : option num :=
  _price_for_region (spot_price_per_hour i) region.

(** ** Constraints *)
Inductive operator : Type := OEq | OGte | OGt | OLte | OLt | ORange.
Inductive cvalue : Type := CNum (q : num) | CPair (lo hi : num) | CText (s : string).
Record Constraint := MkConstraint { field : string; op : operator; value : cvalue }.

Inductive mexn : Type :=
  | ValueError | TypeError | AttributeError
  | NoMatchingInstanceError (constraints : list Constraint) (candidates_checked : nat).

(** Values as they come from a configuration: a float has its text along, and [ROther] is a list or
    a mapping, by its text. *)
Inductive raw : Type :=
  | RInt (z : Z) | RFloat (q : num) (text : string) | RBool (b : bool) | RStr (s : string) | RNone | ROther (text : string).
Definition str_raw (r : raw) : string :=
  match r with
  | RInt z => str_Z z | RFloat _ t => t | RStr s => s | ROther t => t
  | RBool b => if b then "True" else "False" | RNone => "None"
  end%string.

Definition _ALIAS_TO_FIELD : list (string * string) :=
  [("vcpu", "vcpus"); ("vcpus", "vcpus"); ("memory", "memory_gb"); ("memory_gb", "memory_gb"); ("disk", "local_disk_gb");
   ("local_disk_gb", "local_disk_gb"); ("local_disk_count", "local_disk_count"); ("arch", "arch")]%string.
Definition ARCH_ALIASES : list (string * string) :=
  [("arm64", "arm64"); ("arm", "arm64"); ("x86_64", "x86_64"); ("x86", "x86_64"); ("amd64", "x86_64")]%string.

(** [(\d+(?:\.\d+)?)\s*(gb|tb)?], scaled by its unit. *)
Definition skip_spaces (s : string) : string := drop_while is_space s.
Definition read_unit (s : string) : num * string :=
  match s with
  | String a (String b rest) =>
    if String.eqb (lower (String a (String b EmptyString))) "gb" then (num_of_Z 1, rest)
    else if String.eqb (lower (String a (String b EmptyString))) "tb" then (num_of_Z 1024, rest)
    else (num_of_Z 1, s)
  | _ => (num_of_Z 1, s)
  end.
Definition read_quantity (s : string) : option (num * string) :=
  '(n, s) ← read_decimal s;
  let '(mult, s) := read_unit (skip_spaces s) in Some (num_mul n mult, s).
Definition read_dash (s : string) : option string :=
  match skip_spaces s with String c s' => if Ascii.eqb c "-" then Some (skip_spaces s') else None | EmptyString => None end.
Definition at_end {A} (r : option (A * string)) : option A :=
  match r with Some (a, EmptyString) => Some a | _ => None end.

(** [>=|<=|>|<], and the white space after it. *)
Definition read_operator (s : string) : option (operator * string) :=
  match s with
  | String c s' =>
    let followed (strict weak : operator) := match s' with
      | String d s'' => if Ascii.eqb d "=" then (weak, skip_spaces s'') else (strict, skip_spaces s')
      | EmptyString => (strict, EmptyString) end in
    if Ascii.eqb c ">" then Some (followed OGt OGte) else if Ascii.eqb c "<" then Some (followed OLt OLte) else None
  | EmptyString => None
  end.

Definition _RANGE_RE (s : string) : option (num * num) :=
  '(lo, s) ← read_quantity s; s ← read_dash s; hi ← at_end (read_quantity s); Some (lo, hi).
Definition _CMP_RE (s : string) : option (operator * num) :=
  '(o, s) ← read_operator s; n ← at_end (read_quantity s); Some (o, n).
Definition _PLAIN_NUM_RE (s : string) : option num := at_end (read_quantity s).

Definition _parse_memory_or_disk (fld : string) (r : raw) : outcome mexn Constraint :=
  let raw_str := match r with RInt _ | RFloat _ _ | RBool _ => str_raw r | _ => strip (str_raw r) end in
  match _RANGE_RE raw_str with
  | Some (lo_val, hi_val) => if py_lt hi_val lo_val then Err ValueError else Ok (MkConstraint fld ORange (CPair lo_val hi_val))
  | None =>
    match _CMP_RE raw_str with
    | Some (o, n) => Ok (MkConstraint fld o (CNum n))
    | None =>
      match _PLAIN_NUM_RE raw_str with
      | Some n => Ok (MkConstraint fld OGte (CNum n))
      | None => Err ValueError
      end
    end
  end.

(** [\d+] *)
Definition read_int (s : string) : option (Z * string) :=
  let '(ds, rest) := span_while is_digit s in if truthy ds then Some (int_of_digits ds, rest) else None.

Definition _parse_vcpu (r : raw) : outcome mexn Constraint :=
  match r with
  | RInt z => Ok (MkConstraint "vcpus" OEq (CNum (num_of_Z z)))
  | RBool b => Ok (MkConstraint "vcpus" OEq (CNum (num_of_Z (Z.b2z b))))
  | RStr s =>
    let s := strip s in
    match '(lo, s) ← read_int s; s ← read_dash s; hi ← at_end (read_int s); Some (lo, hi) with
    | Some (lo, hi) =>
      if hi <? lo then Err ValueError else Ok (MkConstraint "vcpus" ORange (CPair (num_of_Z lo) (num_of_Z hi)))
    | None =>
      match '(o, s) ← read_operator s; n ← at_end (read_int s); Some (o, n) with
      | Some (o, n) => Ok (MkConstraint "vcpus" o (CNum (num_of_Z n)))
      | None => if isdigit s then Ok (MkConstraint "vcpus" OEq (CNum (num_of_Z (int_of_digits s)))) else Err ValueError
      end
    end
  | _ => Err ValueError
  end.

Definition _parse_arch (r : raw) : outcome mexn Constraint :=
  match dict_get (lower (strip (str_raw r))) ARCH_ALIASES with
  | Some a => Ok (MkConstraint "arch" OEq (CText a))
  | None => Err ValueError
  end.

Definition parse_field (canonical : string) (v : raw) : outcome mexn Constraint :=
  if String.eqb canonical "vcpus" then _parse_vcpu v
  else if String.eqb canonical "arch" then _parse_arch v
  else _parse_memory_or_disk canonical v.

Fixpoint parse_items (items : list (string * raw)) (seen_fields : list string) : outcome mexn (list Constraint) :=
  match items with
  | [] => Ok []
  | (key, v) :: items' =>
    match dict_get key _ALIAS_TO_FIELD with
    | None => parse_items items' seen_fields
    | Some canonical =>
      if existsb (String.eqb canonical) seen_fields then parse_items items' seen_fields
      else try! c := parse_field canonical v in
           try! rest := parse_items items' (canonical :: seen_fields) in Ok (c :: rest)
    end
  end.

Definition parse_constraints (d : list (string * raw)) : outcome mexn (list Constraint) :=
  if dict_in "vcpu" d || dict_in "vcpus" d then parse_items d [] else Err ValueError.

(** ** Literal types *)
Definition _LITERAL_PREFIXES : list string := ["Standard_"; "VM."; "BM."; "DenseIO."; "Optimized3."]%string.
(** [^[a-z]\d[a-z]*-[a-z]+-\d+] *)
Definition _GCE_PATTERN (s : string) : bool :=
  let is_lower := char_in "a" "z" in
  match s with
  | String a (String b s') =>
    if is_lower a && is_digit b then
      match (span_while is_lower s').2 with
      | String c s2 =>
        let '(w, s3) := span_while is_lower s2 in
        if Ascii.eqb c "-" && truthy w then
          match s3 with String e (String d _) => Ascii.eqb e "-" && is_digit d | _ => false end
        else false
      | EmptyString => false
      end
    else false
  | _ => false
  end.
Definition is_literal_instance_type (r : raw) : bool :=
  match r with
  | RStr s =>
    let stripped := strip s in
    contains "." stripped || existsb (λ p, startswith p stripped) _LITERAL_PREFIXES || _GCE_PATTERN stripped
  | _ => false
  end.

(** ** Matching *)

(** [getattr(instance, field)] of the fields that a constraint can name. *)
Inductive attr : Type := ANum (q : num) | AText (s : string).
Definition getattr (i : InstanceTypeInfo) (fld : string) : outcome mexn attr :=
  if String.eqb fld "vcpus" then Ok (ANum (num_of_Z (vcpus i)))
  else if String.eqb fld "memory_gb" then Ok (ANum (memory_gb i))
  else if String.eqb fld "local_disk_gb" then Ok (ANum (local_disk_gb i))
  else if String.eqb fld "local_disk_count" then Ok (ANum (num_of_Z (local_disk_count i)))
  else if String.eqb fld "arch" then Ok (AText (arch i))
  else if String.eqb fld "family" then Ok (AText (family i))
  else if String.eqb fld "cloud" then Ok (AText (cloud i))
  else if String.eqb fld "instance_type" then Ok (AText (instance_type i))
  else Err AttributeError.

Definition _matches_flex_memory (min_mem max_mem : num) (o : operator) (v : cvalue) : outcome mexn bool :=
  match o, v with
  | OEq, CNum x => Ok (py_le min_mem x && py_le x max_mem)
  | OGte, CNum x => Ok (py_le x max_mem)
  | OGt, CNum x => Ok (py_lt x max_mem)
  | OLte, CNum x => Ok (py_le min_mem x)
  | OLt, CNum x => Ok (py_lt min_mem x)
  | ORange, CPair lo hi => Ok (py_le lo max_mem && py_le min_mem hi)
  | _, _ => Err TypeError
  end.

(** The comparison of an attribute; a text is only equal to a text, and not ordered with numbers. *)
Definition compare_attr (a : attr) (o : operator) (v : cvalue) : outcome mexn bool :=
  match o, a, v with
  | OEq, ANum x, CNum y => Ok (bool_decide (x = y))
  | OEq, AText x, CText y => Ok (String.eqb x y)
  | OEq, _, _ => Ok false
  | OGte, ANum x, CNum y => Ok (py_le y x)
  | OGt, ANum x, CNum y => Ok (py_lt y x)
  | OLte, ANum x, CNum y => Ok (py_le x y)
  | OLt, ANum x, CNum y => Ok (py_lt x y)
  | ORange, ANum x, CPair lo hi => Ok (py_le lo x && py_le x hi)
  | _, _, _ => Err TypeError
  end.

Definition _matches_constraint (i : InstanceTypeInfo) (c : Constraint) : outcome mexn bool :=
  try! a := getattr i (field c) in
  match String.eqb (field c) "memory_gb", min_memory_gb i, max_memory_gb i with
  | true, Some min_mem, Some max_mem => _matches_flex_memory min_mem max_mem (op c) (value c)
  | _, _, _ => compare_attr a (op c) (value c)
  end.

(** [all(_matches_constraint(inst, c) for c in parsed)] *)
Fixpoint matches_all (i : InstanceTypeInfo) (cs : list Constraint) : outcome mexn bool :=
  match cs with
  | [] => Ok true
  | c :: cs' => try! b := _matches_constraint i c in if b : bool then matches_all i cs' else Ok false
  end.
Fixpoint matching (l : list InstanceTypeInfo) (cs : list Constraint) : outcome mexn (list InstanceTypeInfo) :=
  match l with
  | [] => Ok []
  | i :: l' => try! b := matches_all i cs in try! rest := matching l' cs in Ok (if b : bool then i :: rest else rest)
  end.

(** ** Flexible shapes *)
Definition clamp (min_mem max_mem x : num) : num := py_max min_mem (py_min x max_mem).

Definition flex_memory (i : InstanceTypeInfo) (min_mem max_mem : num) (cs : list Constraint) (mem_per_vcpu : num) : num :=
  let default_mem := clamp min_mem max_mem (num_mul (num_of_Z (vcpus i)) mem_per_vcpu) in
  match find (λ c, String.eqb (field c) "memory_gb") cs with
  | None => default_mem
  | Some c =>
    match op c, value c with
    | OEq, CNum x | OGte, CNum x | OGt, CNum x => clamp min_mem max_mem x
    | OLte, CNum x | OLt, CNum x => py_min default_mem x
    | ORange, CPair lo _ => clamp min_mem max_mem lo
    | _, _ => min_mem
    end
  end.

Definition with_memory (i : InstanceTypeInfo) (t : string) (m : num) : InstanceTypeInfo :=
  Info t (cloud i) (family i) (vcpus i) m (local_disk_gb i) (local_disk_count i) (arch i) (price_per_hour i)
    (min_memory_gb i) (max_memory_gb i) (spot_price_per_hour i).

Definition _resolve_flex_instance (i : InstanceTypeInfo) (cs : list Constraint) (mem_per_vcpu : num) : InstanceTypeInfo :=
  match min_memory_gb i, max_memory_gb i with
  | Some min_mem, Some max_mem =>
    let actual_mem := num_ceil (flex_memory i min_mem max_mem cs mem_per_vcpu) in
    let t := match split_on ":" (instance_type i) with
      | [_; _] => instance_type i +:+ ":" +:+ str_Z actual_mem
      | _ => instance_type i end in
    with_memory i t (num_of_Z actual_mem)
  | _, _ => i
  end.

(** ** What roles imply *)
Record RoleConfig := Role {
  category : string; implicit_constraints : list (string * raw); arch_source : string; role_arch : option string }.

Definition has_field (cs : list Constraint) (fld : string) : bool := existsb (λ c, String.eqb (field c) fld) cs.

Definition implicit_constraint (fld : string) (r : raw) : outcome mexn Constraint :=
  match r with
  | RInt z => Ok (MkConstraint fld OEq (CNum (num_of_Z z)))
  | RFloat q _ => Ok (MkConstraint fld OEq (CNum q))
  | RBool b => Ok (MkConstraint fld OEq (CNum (num_of_Z (Z.b2z b))))
  | _ => _parse_memory_or_disk fld r
  end.
(** The fields that are there are those of the parsed constraints, before any is added. *)
Fixpoint implied (existing : list Constraint) (items : list (string * raw)) : outcome mexn (list Constraint) :=
  match items with
  | [] => Ok []
  | (fld, r) :: items' =>
    if has_field existing fld || String.eqb fld "local_disk_count" && has_field existing "local_disk_gb"
    then implied existing items'
    else try! c := implicit_constraint fld r in try! rest := implied existing items' in Ok (c :: rest)
  end.
Definition _apply_implicit_constraints (parsed : list Constraint) (role_cfg : RoleConfig) : outcome mexn (list Constraint) :=
  try! more := implied parsed (implicit_constraints role_cfg) in Ok (parsed ++ more).

Definition _apply_implicit_constraints_fallback (parsed : list Constraint) (role : string) : list Constraint :=
  let no_disk cs := negb (has_field cs "local_disk_gb" || has_field cs "local_disk_count") in
  let parsed := if existsb (String.eqb role) ["db"; "db_oracle"; "zero_token"]%string && no_disk parsed
    then parsed ++ [MkConstraint "local_disk_count" OGt (CNum (num_of_Z 0))] else parsed in
  if existsb (String.eqb role) ["loader"; "monitor"]%string && no_disk parsed
  then parsed ++ [MkConstraint "local_disk_count" OEq (CNum (num_of_Z 0))] else parsed.

(** ** The choice *)
Record SizingConfig := Sizing {
  roles : list (string * RoleConfig); sort_order : list string; mem_per_vcpu : option num }.

Record InstanceCatalog := Catalog {
  instances : list InstanceTypeInfo;
  preferred_families : list (string * list (string * list string));
  cloud_defaults : list (string * option string); (* the [arch] of a cloud's defaults *)
  sizing_config : option SizingConfig
}.

Definition get_instances (c : InstanceCatalog) (cloud_ : string) : list InstanceTypeInfo :=
  filter (λ i, cloud i = cloud_) (instances c).

(** [{fam: idx for idx, fam in enumerate(families)}.get(family)] *)
Fixpoint family_rank (families : list string) (idx : Z) (fam : string) : option Z :=
  match families with
  | [] => None
  | f :: families' =>
    match family_rank families' (idx + 1) fam with
    | Some r => Some r
    | None => if String.eqb f fam then Some idx else None
    end
  end.

Definition sort_field (families : list string) (region : option string) (fld : string) (i : InstanceTypeInfo) : option extnum :=
  if String.eqb fld "preferred_family_rank" then
    Some (Fin (num_of_Z (default (Z.of_nat (List.length families)) (family_rank families 0 (family i)))))
  else if String.eqb fld "price_per_hour" then Some (match get_price i region with Some q => Fin q | None => Inf end)
  else if String.eqb fld "vcpus" then Some (Fin (num_of_Z (vcpus i)))
  else if String.eqb fld "memory_gb" then Some (Fin (memory_gb i))
  else if String.eqb fld "local_disk_gb" then Some (Fin (local_disk_gb i))
  else None.

Definition _build_sort_key (order : list string) (families : list string) (region : option string) (i : InstanceTypeInfo)
    : list extnum :=
  omap (λ fld, sort_field families region fld i)
    (if truthy order then order else ["preferred_family_rank"; "price_per_hour"; "vcpus"]%string).

Definition is_arch (c : Constraint) : bool := String.eqb (field c) "arch".

Definition effective_arch (c : InstanceCatalog) (role cloud_ : string) (role_cfg : option RoleConfig)
    (parsed_arch : option Constraint) (arch_ : option string) : cvalue :=
  match arch_, parsed_arch with
  | Some a, _ => CText (default a (dict_get (lower (strip a)) ARCH_ALIASES))
  | None, Some p => value p
  | None, None =>
    let cloud_default_arch := match dict_get cloud_ (cloud_defaults c) with Some (Some a) => a | _ => "x86_64"%string end in
    CText (match role_cfg with
      | Some r =>
        if String.eqb (arch_source r) "cloud_default" then cloud_default_arch
        else match role_arch r with Some a => if truthy a then a else "x86_64" | None => "x86_64" end
      | None => if existsb (String.eqb role) ["db"; "db_oracle"; "zero_token"] then cloud_default_arch else "x86_64"
      end)%string
  end.

(** The constraints of a choice: the parsed ones, the architecture and those of the role. *)
Definition all_constraints (c : InstanceCatalog) (role cloud_ : string) (constraints : list (string * raw)) (arch_ : option string)
    : outcome mexn (list Constraint) :=
  try! parsed := parse_constraints constraints in
  let role_cfg := sizing ← sizing_config c; dict_get role (roles sizing) in
  let parsed_arch := find is_arch parsed in
  let arch_constraint := MkConstraint "arch" OEq (effective_arch c role cloud_ role_cfg parsed_arch arch_) in
  let parsed := match parsed_arch, arch_ with
    | None, _ => parsed ++ [arch_constraint]
    | Some _, Some _ => filter (λ k, is_arch k = false) parsed ++ [arch_constraint]
    | Some _, None => parsed end in
  match role_cfg with
  | Some r => _apply_implicit_constraints parsed r
  | None => Ok (_apply_implicit_constraints_fallback parsed role)
  end.

(** Candidates of a preferred family, when there are any. *)
Definition narrowed (families : list string) (candidates : list InstanceTypeInfo) : list InstanceTypeInfo :=
  match filter (λ i, is_Some (family_rank families 0 (family i))) candidates with
  | [] => candidates
  | preferred => preferred
  end.

Definition select_instance (c : InstanceCatalog) (role cloud_ : string) (constraints : list (string * raw))
    (arch_ region : option string) : outcome mexn InstanceTypeInfo :=
  try! parsed := all_constraints c role cloud_ constraints arch_ in
  let families := default [] (by_cloud ← dict_get role (preferred_families c); dict_get cloud_ by_cloud) in
  let cloud_instances := get_instances c cloud_ in
  try! candidates := matching cloud_instances parsed in
  let order := match sizing_config c with Some sizing => sort_order sizing | None => [] end in
  match sorted (_build_sort_key order families region) (narrowed families candidates) with
  | [] => Err (NoMatchingInstanceError parsed (List.length cloud_instances))
  | best :: _ =>
    let mem := default (num_of_Z 4) (sizing ← sizing_config c; mem_per_vcpu sizing) in
    Ok (_resolve_flex_instance best parsed mem)
  end.

(** ** Constraints are well formed *)
Definition hardware_fields : list string := ["vcpus"; "memory_gb"; "local_disk_gb"; "local_disk_count"]%string.

(** An equality with an architecture, a comparison of a number, or a range that is not empty. *)
Definition constraint_ok (c : Constraint) : Prop :=
  match value c with
  | CText _ => op c = OEq ∧ field c = "arch"%string
  | CNum _ => op c ≠ ORange ∧ field c ∈ hardware_fields
  | CPair lo hi => op c = ORange ∧ field c ∈ hardware_fields ∧ py_le lo hi = true
  end.

Lemma read_operator_cmp s o s' : read_operator s = Some (o, s') → o ≠ ORange.
Proof.
  unfold read_operator. destruct s as [|c s]; [done|].
  repeat (destruct (Ascii.eqb c _); [destruct s as [|d s]; [|destruct (Ascii.eqb d _)]; congruence|]). done.
Qed.

Lemma parse_memory_ok fld r c : fld ∈ hardware_fields → _parse_memory_or_disk fld r = Ok c → constraint_ok c ∧ field c = fld.
Proof.
  intros Hf. unfold _parse_memory_or_disk. set (t := match r with RInt _ | RFloat _ _ | RBool _ => _ | _ => _ end). clearbody t.
  destruct (_RANGE_RE t) as [[lo hi]|].
  { destruct (py_lt hi lo) eqn:E; [done|]. intros [= <-]. rewrite py_lt_le in E. apply negb_false_iff in E. by repeat split. }
  destruct (_CMP_RE t) as [[o n]|] eqn:E.
  { intros [= <-]. unfold _CMP_RE in E. destruct (read_operator t) as [[o' t']|] eqn:Eo; [|done]. simpl in E.
    destruct (at_end _); [|done]. injection E as <- _. apply read_operator_cmp in Eo. done. }
  destruct (_PLAIN_NUM_RE t); [|done]. intros [= <-]. done.
Qed.

Lemma parse_vcpu_ok r c : _parse_vcpu r = Ok c → constraint_ok c ∧ field c = "vcpus"%string.
Proof.
  assert ("vcpus"%string ∈ hardware_fields) as Hf by left.
  unfold _parse_vcpu. destruct r as [z|q t|b|s| |t]; [by intros [= <-]|done|by intros [= <-]| |done|done]. generalize (strip s). intros t.
  destruct ('(lo, s) ← read_int t; s ← read_dash s; hi ← at_end (read_int s); Some (lo, hi)) as [[lo hi]|].
  { destruct (Z.ltb_spec hi lo); [done|]. intros [= <-]. split; [|done]. split; [done|]. split; [done|]. by apply num_le_of_Z. }
  destruct (read_operator t) as [[o t']|] eqn:Eo; simpl.
  - destruct (at_end _); simpl; [intros [= <-]; by apply read_operator_cmp in Eo|]. destruct (isdigit t); [|done]. by intros [= <-].
  - destruct (isdigit t); [|done]. by intros [= <-].
Qed.

Lemma parse_field_ok canonical v c :
  canonical ∈ _ALIAS_TO_FIELD.*2 → parse_field canonical v = Ok c → constraint_ok c ∧ field c = canonical.
Proof.
  intros Hc. unfold parse_field. destruct (String.eqb_spec canonical "vcpus") as [->|Hv]; [apply parse_vcpu_ok|].
  destruct (String.eqb_spec canonical "arch") as [->|Ha].
  { unfold _parse_arch. destruct (dict_get _ ARCH_ALIASES); [|done]. by intros [= <-]. }
  apply parse_memory_ok. unfold _ALIAS_TO_FIELD, hardware_fields in *. simpl in Hc. rewrite !elem_of_cons, elem_of_nil in *. tauto.
Qed.

Lemma parse_items_ok items seen cs :
  parse_items items seen = Ok cs → Forall (λ c, constraint_ok c ∧ field c ∉ seen) cs ∧ NoDup (field <$> cs).
Proof.
  revert seen cs. induction items as [|[key v] items IH]; intros seen cs; cbn [parse_items]; [intros [= <-]; by split; constructor|].
  destruct (dict_get key _ALIAS_TO_FIELD) as [canonical|] eqn:Ek; [|apply IH].
  destruct (existsb (String.eqb canonical) seen) eqn:Es; [apply IH|].
  destruct (parse_field canonical v) as [c|] eqn:Ec; [|done]. simpl.
  destruct (parse_items items (canonical :: seen)) as [rest|] eqn:Er; [|done]. intros [= <-].
  apply dict_get_elem in Ek. apply parse_field_ok in Ec as [Hok <-]; [|apply list_elem_of_fmap; by exists (key, canonical)].
  destruct (IH _ _ Er) as [Hrest Hnd].
  assert (field c ∉ seen) as Hseen.
  { intros Hin. apply not_true_iff_false in Es. apply Es. apply existsb_exists. exists (field c). split; [by apply list_elem_of_In|by apply String.eqb_refl]. }
  split.
  - constructor; [done|]. eapply Forall_impl; [exact Hrest|]. intros k [Hk Hn]. split; [done|]. intros H. apply Hn. by right.
  - simpl. constructor; [|done]. intros (k & Ef & Hk)%list_elem_of_fmap. rewrite Forall_forall in Hrest.
    destruct (Hrest k Hk) as [_ Hn]. apply Hn. rewrite <- Ef. by left.
Qed.

(** ** Matching well-formed constraints does not fail *)
Lemma matches_constraint_total i c : constraint_ok c → ∃ b, _matches_constraint i c = Ok b.
Proof.
  unfold constraint_ok, hardware_fields, _matches_constraint, getattr. destruct c as [fld o v]. simpl.
  destruct v as [q|lo hi|t]; [intros [Ho Hf]|intros (-> & Hf & _)|intros [-> ->]; simpl; eauto];
    rewrite !elem_of_cons, elem_of_nil in Hf; destruct Hf as [->|[->|[->|[->|[]]]]]; simpl;
    destruct (min_memory_gb i), (max_memory_gb i); try destruct o; try done; eauto.
Qed.
Lemma matches_all_total i cs : Forall constraint_ok cs → ∃ b, matches_all i cs = Ok b.
Proof.
  induction 1 as [|c cs Hc _ [b IH]]; simpl; [eauto|]. destruct (matches_constraint_total i c Hc) as [[] ->]; simpl; eauto.
Qed.

(** The instance satisfies the constraints. *)
Definition fits (cs : list Constraint) (i : InstanceTypeInfo) : bool :=
  match matches_all i cs with Ok b => b | Err _ => false end.
Lemma matching_spec l cs : Forall constraint_ok cs → matching l cs = Ok (filter (λ i, fits cs i = true) l).
Proof.
  intros Hcs. induction l as [|i l IH]; [done|]. simpl. destruct (matches_all_total i cs Hcs) as [b Hb].
  rewrite Hb. simpl. rewrite IH. simpl. rewrite filter_cons.
  assert (fits cs i = b) as -> by (unfold fits; by rewrite Hb). by destruct b.
Qed.

Lemma fits_each cs i k : fits cs i = true → k ∈ cs → _matches_constraint i k = Ok true.
Proof.
  unfold fits. induction cs as [|c cs IH]; [by intros _ ?%elem_of_nil|]. simpl.
  destruct (_matches_constraint i c) as [[]|] eqn:E; simpl; try done. intros H [->|Hk]%elem_of_cons; [done|by apply IH].
Qed.

(** ** All constraints of a choice *)
Definition role_ok (r : RoleConfig) : Prop := Forall (λ fr, fr.1 ∈ hardware_fields) (implicit_constraints r).

Lemma implied_ok existing items cs :
  Forall (λ fr, fr.1 ∈ hardware_fields) items → implied existing items = Ok cs → Forall constraint_ok cs.
Proof.
  intros Hi. revert cs. induction Hi as [|[fld r] items Hf _ IH]; intros cs; cbn [implied]; [intros [= <-]; constructor|].
  destruct (_ || _); [apply IH|]. destruct (implicit_constraint fld r) as [c|] eqn:Ec; [|done]. simpl.
  destruct (implied existing items) as [rest|]; [|done]. intros [= <-]. constructor; [|by apply IH].
  destruct r; simpl in Ec; try (by eapply parse_memory_ok); by injection Ec as <-.
Qed.

Lemma effective_arch_text c role cloud_ rc pa a :
  (∀ p, pa = Some p → constraint_ok p ∧ is_arch p = true) → ∃ t, effective_arch c role cloud_ rc pa a = CText t.
Proof.
  intros Hp. unfold effective_arch. destruct a as [a|]; [eauto|]. destruct pa as [p|]; [|eauto].
  destruct (Hp p eq_refl) as [Hok Ha%String.eqb_eq]. unfold constraint_ok, hardware_fields in Hok.
  destruct (value p); [| |eauto]; exfalso; rewrite Ha, !elem_of_cons, elem_of_nil in Hok; naive_solver.
Qed.

Lemma all_constraints_ok c role cloud_ d a parsed :
  (∀ sizing r, sizing_config c = Some sizing → dict_get role (roles sizing) = Some r → role_ok r) →
  all_constraints c role cloud_ d a = Ok parsed → Forall constraint_ok parsed.
Proof.
  intros Hrole. unfold all_constraints, parse_constraints. destruct (_ || _); [|done].
  destruct (parse_items d []) as [user|] eqn:Eu; [|done]. simpl. destruct (parse_items_ok _ _ _ Eu) as [Hu _].
  assert (Forall constraint_ok user) as Huser by (eapply Forall_impl; [exact Hu|by intros k []]). clear Hu Eu.
  set (rc := sizing ← sizing_config c; dict_get role (roles sizing)).
  assert (Hpa : ∀ p, find is_arch user = Some p → constraint_ok p ∧ is_arch p = true).
  { intros p Hp. apply find_some in Hp as [Hin Ha]. split; [|done]. rewrite Forall_forall in Huser. apply Huser. by apply list_elem_of_In. }
  destruct (effective_arch_text c role cloud_ rc (find is_arch user) a Hpa) as [t ->].
  set (parsed0 := match find is_arch user, a with None, _ => _ | Some _, Some _ => _ | Some _, None => _ end).
  assert (Forall constraint_ok parsed0) as H0.
  { subst parsed0. destruct (find is_arch user), a; try done; apply Forall_app; (split; [|apply Forall_singleton; by split]); try done.
    apply Forall_forall. intros k [_ Hk]%list_elem_of_filter. rewrite Forall_forall in Huser. auto. }
  clearbody parsed0. destruct rc as [r|] eqn:Er.
  - unfold _apply_implicit_constraints. destruct (implied parsed0 _) as [more|] eqn:Em; [|done]. intros [= <-].
    apply Forall_app. split; [done|]. eapply implied_ok; [|exact Em].
    subst rc. destruct (sizing_config c) as [sizing|] eqn:Es; [|done]. by apply (Hrole sizing).
  - intros [= <-]. unfold _apply_implicit_constraints_fallback.
    assert (H : ∀ (b : bool) cs o, Forall constraint_ok cs → o ≠ ORange →
      Forall constraint_ok (if b then cs ++ [MkConstraint "local_disk_count" o (CNum (num_of_Z 0))] else cs)).
    { intros [] cs o Hcs Ho; [|done]. apply Forall_app. split; [done|]. apply Forall_singleton. split; [done|]. by do 3 right; left. }
    apply H; [by apply H|done].
Qed.

Lemma parse_field_err canonical v x : parse_field canonical v = Err x → x = ValueError.
Proof.
  unfold parse_field, _parse_vcpu, _parse_arch, _parse_memory_or_disk. intros H.
  repeat case_match; simplify_eq; done.
Qed.
Lemma parse_items_err items seen x : parse_items items seen = Err x → x = ValueError.
Proof.
  revert seen. induction items as [|[key v] items IH]; intros seen; cbn [parse_items]; [done|].
  destruct (dict_get key _ALIAS_TO_FIELD) as [canonical|]; [|apply IH]. destruct (existsb _ seen); [apply IH|].
  destruct (parse_field canonical v) eqn:Ec; simpl; [|intros [= <-]; by eapply parse_field_err].
  destruct (parse_items items (canonical :: seen)) eqn:Ei; simpl; [done|]. intros [= <-]. by eapply IH.
Qed.
Lemma implied_err existing items x : implied existing items = Err x → x = ValueError.
Proof.
  induction items as [|[fld r] items IH]; cbn [implied]; [done|]. destruct (_ || _); [done|].
  destruct (implicit_constraint fld r) as [k|e] eqn:Ec; simpl.
  - destruct (implied existing items) as [|e] eqn:Ei; simpl; [done|]. intros [= <-]. by apply IH.
  - intros [= <-]. destruct r; simpl in Ec; try done; unfold _parse_memory_or_disk in Ec; repeat case_match; simplify_eq; done.
Qed.
Lemma all_constraints_err c role cloud_ d a x : all_constraints c role cloud_ d a = Err x → x = ValueError.
Proof.
  unfold all_constraints, parse_constraints. destruct (_ || _); [|by intros [= <-]].
  destruct (parse_items d []) as [user|e] eqn:Eu; simpl; [|intros [= <-]; by eapply parse_items_err].
  destruct (sizing ← _; _) as [r|]; [|done]. unfold _apply_implicit_constraints.
  destruct (implied _ _) as [|e] eqn:Ei; simpl; [done|]. intros [= <-]. by eapply implied_err.
Qed.

(** The constraints that were asked for are among them, but for an architecture that is overridden. *)
Lemma user_constraints_kept c role cloud_ d a user parsed k :
  parse_constraints d = Ok user → all_constraints c role cloud_ d a = Ok parsed → k ∈ user →
  (is_arch k = true → a = None) → k ∈ parsed.
Proof.
  intros Hu Hall Hk Ha. unfold all_constraints in Hall. rewrite Hu in Hall. simpl in Hall.
  set (parsed0 := match find is_arch user, a with None, _ => _ | Some _, Some _ => _ | Some _, None => _ end) in Hall.
  assert (k ∈ parsed0) as H0.
  { subst parsed0. destruct (find is_arch user), a; try done; apply elem_of_app; left; try done.
    apply list_elem_of_filter. split; [|done]. destruct (is_arch k); [by discriminate Ha|done]. }
  clearbody parsed0. destruct (sizing ← _; _) as [r|].
  - unfold _apply_implicit_constraints in Hall. destruct (implied _ _); [|done]. injection Hall as <-. apply elem_of_app. by left.
  - injection Hall as <-. unfold _apply_implicit_constraints_fallback. repeat case_match; rewrite ?elem_of_app; auto.
Qed.

Definition preferred (families : list string) (i : InstanceTypeInfo) : Prop := is_Some (family_rank families 0 (family i)).

Lemma narrowed_spec families l i :
  i ∈ narrowed families l → i ∈ l ∧ ∀ j, j ∈ l →
    (preferred families j → preferred families i) ∧ ((preferred families i → preferred families j) → j ∈ narrowed families l).
Proof.
  unfold narrowed. destruct (filter _ l) as [|p ps] eqn:E.
  - intros Hi. split; [done|]. intros j Hj. split; [|done]. intros Hp. exfalso.
    assert (j ∈ filter (λ i, is_Some (family_rank families 0 (family i))) l) as H by (by apply list_elem_of_filter).
    rewrite E in H. by apply elem_of_nil in H.
  - rewrite <- E. intros [Hp Hi]%list_elem_of_filter. split; [done|]. intros j Hj. split; [done|].
    intros Hij. apply list_elem_of_filter. split; [by apply Hij|done].
Qed.

Definition families_of (c : InstanceCatalog) (role cloud_ : string) : list string :=
  default [] (by_cloud ← dict_get role (preferred_families c); dict_get cloud_ by_cloud).
Definition rank (c : InstanceCatalog) (role cloud_ : string) (region : option string) : InstanceTypeInfo → list extnum :=
  _build_sort_key (match sizing_config c with Some sizing => sort_order sizing | None => [] end) (families_of c role cloud_) region.

(** ** The memory of flexible shapes *)
Lemma clamp_spec lo hi x : (this lo <= this hi)%Q →
  (this lo <= this (clamp lo hi x) <= this hi)%Q ∧
  ((this x <= this hi)%Q → (this x <= this (clamp lo hi x))%Q ∧ ((this lo <= this x)%Q → this (clamp lo hi x) == this x)%Q ∧
    (∀ y, (this x <= y)%Q → (this lo <= y)%Q → (this (clamp lo hi x) <= y)%Q)).
Proof.
  intros Hle. unfold clamp. destruct (py_min_spec x hi) as [[H1 H2] H3]. destruct (py_max_spec lo (py_min x hi)) as [[H4 H5] H6].
  assert (this (py_max lo (py_min x hi)) == this lo ∨ this (py_max lo (py_min x hi)) == this (py_min x hi))%Q as Hm
    by (destruct H6 as [H6|H6]; rewrite H6; [by left|by right]).
  assert (this (py_min x hi) == this x ∨ this (py_min x hi) == this hi)%Q as Hn
    by (destruct H3 as [H3|H3]; rewrite H3; [by left|by right]).
  split; [split; [lra|destruct Hm; lra]|]. intros Hx. split; [destruct Hn; lra|]. split; [|intros y ? ?]; destruct Hm, Hn; lra.
Qed.

(** A constraint on whole gigabytes, with a bound that can be met. *)
Definition whole (c : Constraint) : Prop :=
  match value c with
  | CNum q => ∃ v, q = num_of_Z v
  | CPair lo hi => ∃ l h, lo = num_of_Z l ∧ hi = num_of_Z h ∧ l <= h
  | CText _ => False
  end.

Lemma flex_memory_spec i mn mx c cs mem :
  mn <= mx → find (λ c, String.eqb (field c) "memory_gb") cs = Some c → whole c → op c ≠ OGt → op c ≠ OLt →
  _matches_flex_memory (num_of_Z mn) (num_of_Z mx) (op c) (value c) = Ok true →
  let m := num_ceil (flex_memory i (num_of_Z mn) (num_of_Z mx) cs mem) in
  mn <= m <= mx ∧ compare_attr (ANum (num_of_Z m)) (op c) (value c) = Ok true.
Proof.
  intros Hle Hc Hw Hgt Hlt Hm m. subst m. unfold flex_memory. rewrite Hc. unfold whole in Hw.
  set (d := clamp (num_of_Z mn) (num_of_Z mx) _).
  assert (this (num_of_Z mn) <= this (num_of_Z mx))%Q as HleQ by (apply num_le_iff; by apply num_le_of_Z).
  pose proof (clamp_spec _ _ (num_mul (num_of_Z (vcpus i)) mem) HleQ) as [Hd _]. fold d in Hd. clearbody d.
  destruct (value c) as [q|lo hi|t]; [destruct Hw as [v ->]|destruct Hw as (l & h & -> & -> & Hlh)|done].
  - pose proof (clamp_spec _ _ (num_of_Z v) HleQ) as [Hb Hcl]. rewrite !num_of_Z_this in *.
    set (k := clamp _ _ _) in *. clearbody k.
    destruct (op c); simpl in Hm |- *; try done; injection Hm as Hm.
    + apply andb_true_iff in Hm as [H1%num_le_of_Z H2%num_le_of_Z]. rewrite Zle_Qle in H1, H2.
      destruct (Hcl H2) as (_ & E & _). specialize (E H1).
      assert (num_ceil k = v) as -> by (apply Z.le_antisymm; [apply num_ceil_le|apply num_le_ceil]; lra).
      rewrite !Zle_Qle. split; [done|]. f_equal. by apply bool_decide_true.
    + apply num_le_of_Z in Hm as H2. rewrite Zle_Qle in H2. destruct (Hcl H2) as (Hk & _ & _).
      split; [split; [apply num_le_ceil|apply num_ceil_le]; lra|]. f_equal. apply num_le_of_Z. by apply num_le_ceil.
    + apply num_le_of_Z in Hm as H2. rewrite Zle_Qle in H2. destruct (py_min_spec d (num_of_Z v)) as [[Hmin1 Hmin2] Hmin3].
      rewrite num_of_Z_this in Hmin2. split.
      * split; [apply num_le_ceil; destruct Hmin3 as [->| ->]; rewrite ?num_of_Z_this; lra|apply num_ceil_le; lra].
      * f_equal. apply num_le_of_Z. by apply num_ceil_le.
  - pose proof (clamp_spec _ _ (num_of_Z l) HleQ) as [Hb Hcl]. rewrite !num_of_Z_this in *.
    set (k := clamp _ _ _) in *. clearbody k. destruct (op c); simpl in Hm |- *; try done. injection Hm as Hm.
    apply andb_true_iff in Hm as [H1%num_le_of_Z H2%num_le_of_Z]. rewrite Zle_Qle in H1, H2, Hlh.
    destruct (Hcl H1) as (Hk & _ & Hy). specialize (Hy (inject_Z h)). rewrite !num_of_Z_this in Hy. specialize (Hy Hlh H2).
    split; [split; [apply num_le_ceil|apply num_ceil_le]; lra|].
    f_equal. apply andb_true_iff. split; apply num_le_of_Z; [by apply num_le_ceil|by apply num_ceil_le].
Qed.

(** The value of the attribute satisfies the constraint. *)
Definition satisfies (i : InstanceTypeInfo) (k : Constraint) : Prop :=
  ∃ a, getattr i (field k) = Ok a ∧ compare_attr a (op k) (value k) = Ok true.
Definition flexible (i : InstanceTypeInfo) : Prop := is_Some (min_memory_gb i) ∧ is_Some (max_memory_gb i).

Lemma matches_satisfies i k :
  _matches_constraint i k = Ok true → (field k = "memory_gb" → ¬ flexible i) → satisfies i k.
Proof.
  unfold _matches_constraint, satisfies, flexible. intros Hm Hf. destruct (getattr i (field k)) as [a|]; [|done]. exists a. split; [done|].
  simpl in Hm. destruct (String.eqb_spec (field k) "memory_gb") as [E|_]; [|done]. specialize (Hf E).
  destruct (min_memory_gb i), (max_memory_gb i); try done. exfalso. eauto.
Qed.

(** Settling the memory of a flexible shape changes nothing else of the hardware. *)
Lemma resolved_satisfies i cs mem k :
  constraint_ok k → satisfies i k → (field k = "memory_gb" → ¬ flexible i) → satisfies (_resolve_flex_instance i cs mem) k.
Proof.
  intros Hok (a & Ha & Hc) Hf. exists a. split; [|done]. unfold _resolve_flex_instance.
  destruct (min_memory_gb i) eqn:Emin, (max_memory_gb i) eqn:Emax; try done.
  assert (field k ≠ "memory_gb"%string) as Hne by (intros E; apply (Hf E); unfold flexible; rewrite Emin, Emax; eauto).
  assert (field k ≠ "instance_type"%string) as Hni.
  { intros E. assert ("instance_type"%string ∉ hardware_fields) as Hn by (by apply (bool_decide_unpack (_ ∉ _))).
    unfold constraint_ok in Hok. rewrite E in Hok. destruct (value k); naive_solver. }
  rewrite <-Ha. unfold getattr, with_memory. cbn [vcpus memory_gb local_disk_gb local_disk_count arch family cloud instance_type].
  apply String.eqb_neq in Hne, Hni. by rewrite Hne, Hni.
Qed.

Lemma resolved_memory i cs c mem mn mx :
  find (λ c, String.eqb (field c) "memory_gb") cs = Some c → _matches_constraint i c = Ok true →
  min_memory_gb i = Some (num_of_Z mn) → max_memory_gb i = Some (num_of_Z mx) → mn <= mx → whole c → op c ≠ OGt → op c ≠ OLt →
  satisfies (_resolve_flex_instance i cs mem) c.
Proof.
  intros Hc Hm Hmn Hmx Hle Hw Hgt Hlt. pose proof (find_some _ _ Hc) as [_ Hf].
  unfold _matches_constraint, getattr in Hm. rewrite Hf, Hmn, Hmx in Hm. apply String.eqb_eq in Hf. rewrite Hf in Hm. simpl in Hm.
  destruct (flex_memory_spec i mn mx c cs mem) as [_ H2]; [done..|].
  unfold satisfies, _resolve_flex_instance. rewrite Hf, Hmn, Hmx. simpl. eauto.
Qed.

(** A flexible shape that was chosen gets a whole number of gigabytes within its limits that
    satisfies the memory constraint it was chosen for, when the limits and the constraint are in
    whole gigabytes and the constraint is not a strict one. *)
Theorem flex_memory_fits i cs c mem mn mx :
  min_memory_gb i = Some (num_of_Z mn) → max_memory_gb i = Some (num_of_Z mx) → mn <= mx →
  find (λ c, String.eqb (field c) "memory_gb") cs = Some c → whole c → op c ≠ OGt → op c ≠ OLt →
  _matches_constraint i c = Ok true →
  ∃ m, memory_gb (_resolve_flex_instance i cs mem) = num_of_Z m ∧ mn <= m <= mx ∧
    compare_attr (ANum (memory_gb (_resolve_flex_instance i cs mem))) (op c) (value c) = Ok true.
Proof.
  intros Hmn Hmx Hle Hc Hw Hgt Hlt Hm. pose proof (find_some _ _ Hc) as [_ Hf].
  unfold _matches_constraint, getattr in Hm. rewrite Hf, Hmn, Hmx in Hm. apply String.eqb_eq in Hf. rewrite Hf in Hm. simpl in Hm.
  destruct (flex_memory_spec i mn mx c cs mem) as [H1 H2]; [done..|].
  unfold _resolve_flex_instance. rewrite Hmn, Hmx. simpl. eauto.
Qed.

(** C18. For a catalog whose roles imply constraints on the hardware only: the choice is an entry of
    the cloud's catalog that matches every constraint that was asked for, the architecture and what
    the role implies; one of a preferred family if any such entry is; and among those none comes
    before it in the order of the sizing configuration. The instance that is returned is that entry,
    with its memory settled if it is a flexible shape: it satisfies every constraint, a flexible
    shape all those that are not on its memory, and the one on its memory when that is not strict
    and the limits of the shape and the constraint are in whole gigabytes. The choice fails only
    because a constraint cannot be read, or because no entry matches them all. *)
Theorem select_instance_exact c role cloud_ d a region :
  (∀ sizing r, sizing_config c = Some sizing → dict_get role (roles sizing) = Some r → role_ok r) →
  match select_instance c role cloud_ d a region with
  | Ok chosen => ∃ user parsed best mem,
      parse_constraints d = Ok user ∧ all_constraints c role cloud_ d a = Ok parsed ∧
      (∀ k, k ∈ user → (is_arch k = true → a = None) → k ∈ parsed) ∧
      chosen = _resolve_flex_instance best parsed mem ∧ best ∈ get_instances c cloud_ ∧
      (∀ k, k ∈ parsed → _matches_constraint best k = Ok true) ∧
      (∀ k, k ∈ parsed → (field k = "memory_gb" → ¬ flexible best) → satisfies chosen k) ∧
      (∀ k mn mx, find (λ k, String.eqb (field k) "memory_gb") parsed = Some k →
        min_memory_gb best = Some (num_of_Z mn) → max_memory_gb best = Some (num_of_Z mx) → mn <= mx →
        whole k → op k ≠ OGt → op k ≠ OLt → satisfies chosen k) ∧
      ∀ i, i ∈ get_instances c cloud_ → fits parsed i = true →
        (preferred (families_of c role cloud_) i → preferred (families_of c role cloud_) best) ∧
        ((preferred (families_of c role cloud_) best → preferred (families_of c role cloud_) i) →
         py_le (rank c role cloud_ region best) (rank c role cloud_ region i) = true)
  | Err (NoMatchingInstanceError parsed n) =>
      all_constraints c role cloud_ d a = Ok parsed ∧ n = List.length (get_instances c cloud_) ∧
      ∀ i, i ∈ get_instances c cloud_ → fits parsed i = false
  | Err x => x = ValueError ∧ all_constraints c role cloud_ d a = Err ValueError
  end.
Proof.
  intros Hrole. unfold select_instance. fold (families_of c role cloud_).
  destruct (all_constraints c role cloud_ d a) as [parsed|x] eqn:Eall; simpl.
  2: { apply all_constraints_err in Eall as ->. done. }
  pose proof (all_constraints_ok _ _ _ _ _ _ Hrole Eall) as Hok. rewrite (matching_spec _ _ Hok). simpl.
  set (l := filter (λ i, fits parsed i = true) (get_instances c cloud_)).
  fold (rank c role cloud_ region).
  destruct (sorted (rank c role cloud_ region) (narrowed (families_of c role cloud_) l)) as [|best rest] eqn:Es.
  - split; [done|]. split; [done|]. intros i Hi. apply not_true_iff_false. intros Hf. rewrite sorted_nil in Es by apply _.
    assert (l = []) as El by (unfold narrowed in Es; destruct (filter _ l); [done|discriminate]).
    assert (i ∈ l) as Hil by (by apply list_elem_of_filter). rewrite El in Hil. by apply elem_of_nil in Hil.
  - apply sorted_head_least in Es as [Hb Hleast]; [|apply _]. apply narrowed_spec in Hb as [Hb Hn].
    apply list_elem_of_filter in Hb as [Hfit Hb].
    destruct (parse_constraints d) as [user|] eqn:Eu; [|unfold all_constraints in Eall; rewrite Eu in Eall; done].
    eexists user, parsed, best, _. split; [done|]. split; [done|]. split; [intros k; by eapply user_constraints_kept|].
    assert (∀ k, k ∈ parsed → _matches_constraint best k = Ok true) as Hmatch by (intros k Hk; by eapply fits_each).
    split; [done|]. split; [done|]. split; [done|]. split; [|split].
    + intros k Hk Hf. rewrite Forall_forall in Hok. apply resolved_satisfies; auto. apply matches_satisfies; auto.
    + intros k mn mx Hk. apply resolved_memory; [done|]. apply Hmatch. by apply find_some in Hk as [Hk%list_elem_of_In _].
    + intros i Hi Hf. assert (i ∈ l) as Hil by (by apply list_elem_of_filter). destruct (Hn i Hil) as [Hp Hin].
      split; [done|]. intros Himp. apply Hleast, Hin, Himp.
Qed.

(** ** A catalog *)
Definition gb (z : Z) : num := num_of_Z z.
Definition sample_flex : InstanceTypeInfo :=
  Info "VM.Standard.E4.Flex:4" "oci" "E4.Flex" 8 (gb 32) (gb 0) 0 "x86_64" (Some (Flat (gb 1))) (Some (gb 4)) (Some (gb 64)) None.
Definition sample_catalog : InstanceCatalog := Catalog
  [Info "i4i.xlarge" "aws" "i4i" 4 (gb 32) (gb 937) 1 "x86_64" (Some (ByRegion [("us-east-1", gb 3); ("eu-west-1", gb 5)])) None None None;
   Info "i8g.xlarge" "aws" "i8g" 4 (gb 32) (gb 937) 1 "arm64" (Some (Flat (gb 2))) None None None;
   Info "m5.xlarge" "aws" "m5" 4 (gb 16) (gb 0) 0 "x86_64" (Some (Flat (gb 1))) None None None;
   Info "i7i.xlarge" "aws" "i7i" 4 (gb 32) (gb 937) 1 "x86_64" (Some (Flat (gb 4))) None None None; sample_flex]
  [("db", [("aws", ["i7i"; "i4i"])])] [("aws", Some "x86_64")]
  (Some (Sizing [("db", Role "storage" [("local_disk_count", RStr ">0")] "cloud_default" None)] [] None)).

Definition chosen_type (r : outcome mexn InstanceTypeInfo) : option string :=
  match r with Ok i => Some (instance_type i) | Err _ => None end.

Example sample_choices :
  chosen_type (select_instance sample_catalog "db" "aws" [("vcpu", RInt 4); ("memory", RStr ">=16gb")] None None) = Some "i7i.xlarge" ∧
  chosen_type (select_instance sample_catalog "db" "aws" [("vcpu", RStr "2-8"); ("arch", RStr "arm")] None None) = Some "i8g.xlarge" ∧
  chosen_type (select_instance sample_catalog "loader" "oci" [("vcpu", RStr ">4"); ("memory", RStr "16.5-0.5tb")] None None)
    = Some "VM.Standard.E4.Flex:4:17" ∧
  chosen_type (select_instance sample_catalog "db" "aws" [("vcpus", RInt 4); ("disk", RStr ">=1tb")] None None) = None.
Proof. vm_compute. repeat split. Qed.

Lemma select_instance_exact_witness :
  ∃ best parsed, best ∈ get_instances sample_catalog "aws" ∧ (∀ k, k ∈ parsed → _matches_constraint best k = Ok true) ∧
    all_constraints sample_catalog "db" "aws" [("vcpu", RInt 4)] None = Ok parsed.
Proof.
  assert (Hrole : ∀ sizing r, sizing_config sample_catalog = Some sizing → dict_get "db" (roles sizing) = Some r → role_ok r).
  { intros sizing r [= <-] [= <-]. apply Forall_singleton. by do 3 right; left. }
  pose proof (select_instance_exact sample_catalog "db" "aws" [("vcpu", RInt 4)] None None Hrole) as H.
  assert (Hok : chosen_type (select_instance sample_catalog "db" "aws" [("vcpu", RInt 4)] None None) = Some "i7i.xlarge")
    by (vm_compute; reflexivity).
  destruct (select_instance sample_catalog "db" "aws" [("vcpu", RInt 4)] None None) as [chosen|x]; [|discriminate Hok].
  destruct H as (user & parsed & best & mem & _ & Hall & _ & _ & Hbest & Hk & _). exists best, parsed. auto.
Defined.

Lemma flex_memory_fits_witness :
  ∃ m, memory_gb (_resolve_flex_instance sample_flex [MkConstraint "memory_gb" ORange (CPair (gb 24) (gb 48))] (gb 4)) = num_of_Z m ∧
    4 <= m <= 64.
Proof.
  destruct (flex_memory_fits sample_flex [MkConstraint "memory_gb" ORange (CPair (gb 24) (gb 48))]
    (MkConstraint "memory_gb" ORange (CPair (gb 24) (gb 48))) (gb 4) 4 64) as (m & H1 & H2 & _);
    [done|done|lia|done| |done|done|by vm_compute|eauto].
  exists 24, 48. by repeat split.
Defined.

(** A strict bound is met with equality: more than 16 gigabytes were asked for, and 16 are given. *)
Example flex_gt_violated :
  let c := MkConstraint "memory_gb" OGt (CNum (gb 16)) in
  _matches_constraint sample_flex c = Ok true ∧
  num_ceil (memory_gb (_resolve_flex_instance sample_flex [c] (gb 4))) = 16 ∧
  compare_attr (ANum (memory_gb (_resolve_flex_instance sample_flex [c] (gb 4)))) OGt (CNum (gb 16)) = Ok false.
Proof. vm_compute. repeat split. Qed.
End InstanceMatcher.
