(* ===== verification/RunCost.v ===== *)
(** * What a run will cost

    Model of [sdcm/utils/cloud_catalog/cost.py] and of the prices it goes by
    ([sdcm/utils/cloud_catalog/pricing.py]): rates from the catalog, AWS spot prices with their
    cache per region, and the estimate of a run before anything is provisioned.

    The catalog and EC2's spot price history are arguments; EC2 is asked call by call and may
    fail. Prices and hours are the exact numbers of [PyNum]. *)
From Stdlib Require Import Ascii String ZArith Lia QArith Qcanon Lqa.
From stdpp Require Import base decidable option strings numbers list gmap.
From S2P Require Import Prelude.
From S2P Require Import PyString.
From S2P Require Import PyOrder.
From S2P Require Import PyNum.
From S2P Require Import PyVal.
From S2P Require Import PyRepr.
From S2P Require Import PyDict.
From S2P Require Import Effects.
From S2P Require Import InstanceMatcher.
Local Open Scope py_scope.
Local Open Scope Z_scope.

Module RunCost.
Import InstanceMatcher.

Definition num_div (x y : num) : num := (x / y)%Qc.
Definition num_sum (l : list num) : num := foldr num_add (num_of_Z 0) l.

(** ** Rates *)
Record InstanceRate := Rate { rate_price : option num; rate_is_spot : bool }.

(** A price of 0, or none, is unknown. *)
Definition from_raw (price : option num) (spot : bool) : InstanceRate :=
  match price with
  | Some q => if py_le q (num_of_Z 0) then Rate None spot else Rate (Some q) spot
  | None => Rate None spot
  end.
Definition unknown (spot : bool) : InstanceRate := Rate None spot.

Definition get_instance (c : InstanceCatalog) (cloud_ itype : string) : option InstanceTypeInfo :=
  find (λ i, String.eqb (cloud i) cloud_ && String.eqb (instance_type i) itype) (instances c).

Inductive perr : Type := KeyError | PricingError.

(** The spot price of a type in a zone of a region. *)
Record spot_entry := SpotEntry { se_type : string; se_zone : string; se_price : num }.

(** The cache of [AWSPricing], by region, type and zone, and the requests made for it. *)
Record pricing := Pricing {
  spot_cache : list (string * list (string * list (string * num)));
  requests : list (string * list string)
}.

(** [dict.fromkeys(l)] *)
Fixpoint fromkeys (l : list string) (seen : list string) : list string :=
  match l with
  | [] => seen
  | t :: l' => fromkeys l' (if bool_decide (t ∈ seen) then seen else seen ++ [t])
  end.
Definition wanted_types (l : list string) : list string := filter (λ t, truthy t = true) (fromkeys l []).

Definition mean (l : list num) : num := num_div (num_sum l) (num_of_Z (Z.of_nat (List.length l))).

Definition _REGION_PARAMS : list (string * string) :=
  [("aws", "region_name"); ("gce", "gce_datacenter"); ("azure", "azure_region_name"); ("oci", "oci_region_name")]%string.
Definition SIZING_ROLE_PARAMS : list (string * list (string * string)) :=
  [("aws", [("db", "instance_type_db"); ("db_oracle", "instance_type_db_oracle"); ("zero_token", "zero_token_instance_type_db");
            ("loader", "instance_type_loader"); ("monitor", "instance_type_monitor")]);
   ("gce", [("db", "gce_instance_type_db"); ("db_oracle", "gce_instance_type_db_oracle");
            ("loader", "gce_instance_type_loader"); ("monitor", "gce_instance_type_monitor")]);
   ("azure", [("db", "azure_instance_type_db"); ("db_oracle", "azure_instance_type_db_oracle");
              ("loader", "azure_instance_type_loader"); ("monitor", "azure_instance_type_monitor")]);
   ("oci", [("db", "oci_instance_type_db"); ("db_oracle", "oci_instance_type_db_oracle");
            ("loader", "oci_instance_type_loader"); ("monitor", "oci_instance_type_monitor")])]%string.
Definition _ROLE_NODE_COUNTS : list (string * string) :=
  [("db", "n_db_nodes"); ("db_oracle", "n_test_oracle_db_nodes"); ("zero_token", "n_db_zero_token_nodes");
   ("loader", "n_loaders"); ("monitor", "n_monitor_nodes")]%string.
Definition _ROLE_PARAMS (cloud_ : string) : list (string * (string * string)) :=
  omap (λ rt, count ← dict_get rt.1 _ROLE_NODE_COUNTS; Some (rt.1, (rt.2, count))) (default [] (dict_get cloud_ SIZING_ROLE_PARAMS)).
Definition _BACKEND_TO_CLOUD : list (string * string) :=
  [("aws", "aws"); ("aws-siren", "aws"); ("k8s-eks", "aws"); ("gce", "gce"); ("gce-siren", "gce"); ("k8s-gke", "gce");
   ("azure", "azure"); ("oci", "oci")]%string.

(** ** Reading the configuration *)
(** [str(v)] of a value that is not falsy, but for dicts, which are none of the values here. *)
Definition text_of (v : pyval) : string := if truthy v then str_pyval v else EmptyString.
Definition int_of (v : pyval) : Z := match v with VInt z => z | _ => 0 end.
(** [sum(config.get(param) or [])], of a list of numbers. *)
Definition sum_of (v : pyval) : Z := match v with VList l => foldr Z.add 0 (int_of <$> l) | _ => 0 end.

Definition backend_to_cloud (backend : string) (xcloud_provider : pyval) : option string :=
  if String.eqb backend "xcloud" then (if truthy xcloud_provider then Some (text_of xcloud_provider) else None)
  else dict_get backend _BACKEND_TO_CLOUD.
Definition oracle_cluster_in_use (db_type : string) : bool := existsb (String.eqb db_type) ["mixed_scylla"; "mixed_cassandra"]%string.

Definition effective_test_duration (p : params) : Z :=
  if truthy (pget "stress_duration" p)
  then Z.abs (int_of (pget "prepare_stress_duration" p)) + Z.abs (int_of (pget "stress_duration" p)) + 60
  else Z.abs (int_of (pget "test_duration" p)).

Definition _node_count (p : params) (role param : string) : Z :=
  let count := sum_of (pget param p) in
  if String.eqb role "db" then Z.max count (sum_of (pget "cluster_target_size" p)) else count.

Definition _first_region (p : params) (param : string) : string :=
  let value := match pget param p with VList l => join " " (str_pyval <$> l) | v => text_of v end in
  default EmptyString (head (split_ws value)).

(** ** Costs *)
Definition SECONDS_PER_HOUR : num := num_of_Z 3600.
Definition cost_for (rate : InstanceRate) (seconds : num) : option num :=
  match rate_price rate with
  | Some q => if py_lt seconds (num_of_Z 0) then None else Some (num_mul q (num_div seconds SECONDS_PER_HOUR))
  | None => None
  end.

Record RoleCost := MkRoleCost {
  rc_role : string; rc_type : string; rc_count : Z; rc_rate : InstanceRate; rc_cost : option num;
  rc_on_demand_rate : InstanceRate; rc_on_demand_cost : option num }.

Record RunCostEstimate := Estimate {
  total : option num; duration_hours : num; is_spot : bool; estimate_roles : list RoleCost; partial : bool;
  on_demand_total : option num; fallback_to_on_demand : bool }.

Definition may_fall_back (e : RunCostEstimate) : bool :=
  is_spot e && fallback_to_on_demand e && bool_decide (is_Some (on_demand_total e)).
Definition unpriced_roles (e : RunCostEstimate) : list string :=
  rc_role <$> filter (λ r, rc_cost r = None) (estimate_roles e).

Definition _XCLOUD_MANAGED_ROLES : list string := ["db"; "zero_token"]%string.
Definition BUNDLED_LOCAL_SSD_FAMILIES : list string := ["z3"]%string.

Definition role_is_spot (backend cloud_ : string) (spot : bool) (role itype : string) : bool :=
  if String.eqb backend "xcloud" && existsb (String.eqb role) _XCLOUD_MANAGED_ROLES then false
  else if String.eqb cloud_ "gce" && existsb (String.eqb (split_once "-" itype).1) BUNDLED_LOCAL_SSD_FAMILIES then false
  else spot.

(** The roles of a run that have nodes, with their types and numbers of nodes. *)
Definition planned (p : params) (cloud_ : string) : list (string * string * Z) :=
  omap (λ r : string * (string * string), let '(role, (type_param, count_param)) := r in
    if String.eqb role "db_oracle" && negb (oracle_cluster_in_use (text_of (pget "db_type" p))) then None
    else let node_count := _node_count p role count_param in
         if 0 <? node_count then Some (role, strip (text_of (pget type_param p)), node_count) else None)
    (_ROLE_PARAMS cloud_).

Definition total_of (l : list num) : option num := if truthy l then Some (num_sum l) else None.

Section Estimating.
Context (catalog : InstanceCatalog).
Context (spot_history : list (string * list string) → string → list string → outcome perr (list spot_entry)).
Abbreviation action := (act pricing perr).

Definition catalog_price (cloud_ region itype : string) : option num :=
  i ← get_instance catalog cloud_ itype; get_price i (Some region).
Definition catalog_spot_price (cloud_ region itype : string) : option num :=
  i ← get_instance catalog cloud_ itype; get_spot_price i (Some region).

Definition _catalog_lookup (cloud_ region itype : string) (spot : bool) : option num :=
  let lookup := if spot then catalog_spot_price else catalog_price in
  match lookup cloud_ region itype with
  | Some q => Some q
  | None => match split_on ":" itype with
            | [shape; ocpus; _] => lookup cloud_ region (shape +:+ ":" +:+ ocpus)
            | _ => None
            end
  end.

(** [get_hourly_rate(..., catalog_only=True)] *)
Definition get_hourly_rate (cloud_ region itype : string) (spot : bool) : InstanceRate :=
  if negb (dict_in cloud_ _REGION_PARAMS) || negb (truthy itype) then unknown spot
  else from_raw (_catalog_lookup cloud_ region itype spot) spot.

(** ** AWS spot prices *)
Definition add_entry (per_az : list (string * list (string * num))) (e : spot_entry) : list (string * list (string * num)) :=
  match dict_get (se_type e) per_az with
  | Some azs => dict_set (se_type e) (dict_set (se_zone e) (se_price e) azs) per_az
  | None => per_az
  end.

Definition means (types : list string) (d : list (string * list (string * num))) : list (string * num) :=
  omap (λ t, match dict_get t d with
             | Some azs => if truthy azs then Some (t, mean azs.*2) else None
             | None => None end) types.

Definition cached_types (region : string) (s : pricing) : list (string * list (string * num)) :=
  default [] (dict_get region (spot_cache s)).

Definition get_spot_instance_prices (region : string) (instance_types : list string) : action (list (string * num)) :=
  let wanted := wanted_types instance_types in
  if negb (truthy wanted) then ret []
  else
    let! cached := gets (cached_types region) in
    if forallb (λ t, dict_in t cached) wanted then ret (means wanted cached)
    else
      let! sent := gets requests in
      modify (λ s, Pricing (spot_cache s) (requests s ++ [(region, wanted)])) ;;;
      match spot_history sent region wanted with
      | Err x => raise x
      | Ok entries =>
        let per_az := foldl add_entry ((λ t, (t, [])) <$> wanted) entries in
        modify (λ s, Pricing
          (dict_set region (foldl (λ d kv, dict_set kv.1 kv.2 d) (cached_types region s) per_az) (spot_cache s)) (requests s)) ;;;
        ret (means wanted per_az)
      end.

Definition resolve_spot_rates (cloud_ region : string) (instance_types : list string) : action (list (string * InstanceRate)) :=
  let wanted := wanted_types instance_types in
  if negb (dict_in cloud_ _REGION_PARAMS) || negb (truthy wanted) then ret []
  else if negb (String.eqb cloud_ "aws") then ret ((λ t, (t, get_hourly_rate cloud_ region t true)) <$> wanted)
  else
    let! prices := caught (get_spot_instance_prices region wanted) in
    ret (match prices with
         | Err _ => (λ t, (t, unknown true)) <$> wanted
         | Ok prices => (λ t, (t, from_raw (dict_get t prices) true)) <$> wanted
         end).

(** ** The estimate *)
Definition role_cost (backend cloud_ region : string) (spot : bool) (hours : num) (spot_rates : list (string * InstanceRate))
    (r : string * string * Z) : RoleCost :=
  let '(role, itype, node_count) := r in
  if negb (truthy itype) then MkRoleCost role "(unresolved)" node_count (unknown false) None (unknown false) None
  else
    let on_demand_rate := get_hourly_rate cloud_ region itype false in
    let rate := if role_is_spot backend cloud_ spot role itype
      then default (unknown true) (dict_get itype spot_rates) else on_demand_rate in
    let scaled c := match c with Some per_node => Some (num_mul per_node (num_of_Z node_count)) | None => None end in
    MkRoleCost role itype node_count rate (scaled (cost_for rate (num_mul hours SECONDS_PER_HOUR)))
      on_demand_rate (scaled (cost_for on_demand_rate (num_mul hours SECONDS_PER_HOUR))).

(** The second loop over the roles, once the spot rates are known. *)
Definition cost_roles (p : params) (backend cloud_ region : string) (spot : bool) (hours : num)
    (spot_rates : list (string * InstanceRate)) : list RoleCost :=
  omap (λ r : string * (string * string), let '(role, (type_param, count_param)) := r in
    if String.eqb role "db_oracle" && negb (oracle_cluster_in_use (text_of (pget "db_type" p))) then None
    else
      let itype := strip (text_of (pget type_param p)) in
      let node_count := _node_count p role count_param in
      if node_count <=? 0 then None
      else Some (role_cost backend cloud_ region spot hours spot_rates (role, itype, node_count)))
    (_ROLE_PARAMS cloud_).

Definition estimate_run_cost (p : params) (duration_minutes : option num) : action RunCostEstimate :=
  let backend := text_of (pget "cluster_backend" p) in
  let duration_min := default (num_of_Z (effective_test_duration p)) duration_minutes in
  let hours := num_div duration_min (num_of_Z 60) in
  let spot := contains "spot" (lower (text_of (pget "instance_provision" p))) in
  let fallback := truthy (pget "instance_provision_fallback_on_demand" p) in
  match backend_to_cloud backend (pget "xcloud_provider" p) with
  | None => ret (Estimate None hours spot [] true None fallback)
  | Some cloud_ =>
    match dict_get cloud_ _REGION_PARAMS with
    | None => raise KeyError
    | Some region_param =>
      let region := _first_region p region_param in
      let spot_types := (λ r, r.1.2) <$> filter (λ r : string * string * Z,
        truthy r.1.2 && role_is_spot backend cloud_ spot r.1.1 r.1.2 = true) (planned p cloud_) in
      let! spot_rates := (if truthy spot_types then resolve_spot_rates cloud_ region spot_types else ret []) in
      let roles := cost_roles p backend cloud_ region spot hours spot_rates in
      ret (Estimate (total_of (omap rc_cost roles)) hours spot roles
        (existsb (λ r, bool_decide (rc_cost r = None)) roles || negb (truthy roles))
        (total_of (omap rc_on_demand_cost roles)) fallback)
    end
  end.
End Estimating.

(** ** The cache *)
Lemma fromkeys_nodup l seen : NoDup seen → NoDup (fromkeys l seen).
Proof.
  revert seen. induction l as [|t l IH]; intros seen Hs; simpl; [done|]. apply IH.
  case_bool_decide as Ht; [done|]. apply NoDup_app. split; [done|]. split; [|apply NoDup_singleton].
  by intros x Hx ->%list_elem_of_singleton.
Qed.
Lemma wanted_nodup l : NoDup (wanted_types l).
Proof. apply NoDup_filter, fromkeys_nodup. constructor. Qed.

Lemma add_entry_keys d e t : is_Some (dict_get t (add_entry d e)) ↔ is_Some (dict_get t d).
Proof.
  unfold add_entry. destruct (dict_get (se_type e) d) as [azs|] eqn:E; [|done]. rewrite dict_get_set.
  case_decide as Ht; [|done]. subst. rewrite E. split; intros; by eexists.
Qed.
Lemma add_entry_wf d e : dict_wf d → dict_wf (add_entry d e).
Proof. intros Hd. unfold add_entry. destruct (dict_get _ d); [by apply dict_set_wf|done]. Qed.
Lemma add_entries_spec entries d : dict_wf d →
  dict_wf (foldl add_entry d entries) ∧ ∀ t, is_Some (dict_get t (foldl add_entry d entries)) ↔ is_Some (dict_get t d).
Proof.
  revert d. induction entries as [|e entries IH]; intros d Hd; simpl; [done|].
  destruct (IH (add_entry d e)) as [Hwf Hk]; [by apply add_entry_wf|]. split; [done|]. intros t. by rewrite Hk, add_entry_keys.
Qed.

(** [d.update(more)] *)
Lemma dict_get_update {V} t (more d : list (string * V)) : dict_wf more →
  dict_get t (foldl (λ d kv, dict_set kv.1 kv.2 d) d more) = match dict_get t more with Some v => Some v | None => dict_get t d end.
Proof.
  revert d. induction more as [|[k v] more IH]; intros d Hwf; simpl; [done|].
  apply NoDup_cons in Hwf as [Hk Hwf]. rewrite IH by done. rewrite dict_get_set. case_decide as Ht.
  - subst. assert (dict_get k more = None) as -> by (by apply dict_get_None). done.
  - by destruct (dict_get t more).
Qed.

Lemma empty_entries_get (l : list string) t :
  dict_get t ((λ t, (t, [])) <$> l : list (string * list (string * num))) = if bool_decide (t ∈ l) then Some [] else None.
Proof.
  induction l as [|x l IH]; [done|]. cbn [fmap list_fmap dict_get].
  destruct (decide (t = x)) as [->|Hx]; [by rewrite bool_decide_true by left|]. rewrite IH.
  assert (bool_decide (t ∈ x :: l) = bool_decide (t ∈ l)) as -> by (apply bool_decide_ext; rewrite elem_of_cons; naive_solver). done.
Qed.

Lemma means_ext types d d' : (∀ t, t ∈ types → dict_get t d = dict_get t d') → means types d = means types d'.
Proof.
  intros H. apply list_omap_ext, Forall_Forall2_diag, Forall_forall. intros t Ht. by rewrite H.
Qed.

Section Cache.
Context (spot_history : list (string * list string) → string → list string → outcome perr (list spot_entry)).

Lemma answered_from_cache region types s :
  (∀ t, t ∈ wanted_types types → is_Some (dict_get t (cached_types region s))) →
  get_spot_instance_prices spot_history region types s = (s, Ok (means (wanted_types types) (cached_types region s))).
Proof.
  intros Hin. unfold get_spot_instance_prices. set (w := wanted_types types) in *. clearbody w.
  destruct (truthy w) eqn:Ew; simpl; [|by destruct w]. unfold bind, gets.
  assert (forallb (λ t, dict_in t (cached_types region s)) w = true) as ->; [|done].
  apply forallb_forall. intros x Hx. apply bool_decide_true, Hin. by apply list_elem_of_In.
Qed.

Lemma answer_is_cached region types s s' prices :
  get_spot_instance_prices spot_history region types s = (s', Ok prices) →
  (∀ t, t ∈ wanted_types types → is_Some (dict_get t (cached_types region s'))) ∧
  prices = means (wanted_types types) (cached_types region s').
Proof.
  unfold get_spot_instance_prices. pose proof (wanted_nodup types) as Hnd. set (w := wanted_types types) in *. clearbody w.
  destruct (truthy w) eqn:Ew; simpl.
  2: { destruct w; [|done]. intros [= <- <-]. split; [by intros t ?%elem_of_nil|done]. }
  unfold bind, gets. destruct (forallb _ w) eqn:Ecache.
  { intros [= <- <-]. split; [|done]. intros t Ht. rewrite forallb_forall in Ecache.
    specialize (Ecache t ltac:(by apply list_elem_of_In)). by apply bool_decide_eq_true in Ecache. }
  simpl. destruct (spot_history _ region w) as [entries|]; [|done]. simpl. intros [= <- <-].
  set (per_az := foldl add_entry _ entries).
  destruct (add_entries_spec entries ((λ t, (t, [])) <$> w)) as [Hwf Hkeys].
  { unfold dict_wf. rewrite <- list_fmap_compose, (list_fmap_ext _ id) by done. by rewrite list_fmap_id. }
  fold per_az in Hwf, Hkeys.
  assert (∀ t, t ∈ w → is_Some (dict_get t per_az)) as Hin.
  { intros t Ht. apply Hkeys. rewrite empty_entries_get, bool_decide_true by done. eauto. }
  unfold cached_types. simpl. rewrite dict_get_set, decide_True by done. simpl.
  set (d := foldl (λ d kv, dict_set kv.1 kv.2 d) _ per_az).
  assert (∀ t, t ∈ w → dict_get t d = dict_get t per_az) as Hd.
  { intros t Ht. unfold d. rewrite dict_get_update by done. by destruct (Hin t Ht) as [v ->]. }
  split; [intros t Ht; rewrite Hd by done; by apply Hin|]. apply means_ext. intros t Ht. by rewrite Hd.
Qed.

(** EC2 is asked once for the spot prices of a type in a region: after prices were read, a later
    request for some of the same types in the region is answered without a call, from the prices
    that the first answer was made of. *)
Theorem spot_prices_cached region types types' s s' prices :
  get_spot_instance_prices spot_history region types s = (s', Ok prices) →
  (∀ t, t ∈ wanted_types types' → t ∈ wanted_types types) →
  prices = means (wanted_types types) (cached_types region s') ∧
  get_spot_instance_prices spot_history region types' s' = (s', Ok (means (wanted_types types') (cached_types region s'))).
Proof.
  intros Hget Hsub. destruct (answer_is_cached _ _ _ _ _ Hget) as [Hin ->]. split; [done|].
  apply answered_from_cache. intros t Ht. by apply Hin, Hsub.
Qed.
End Cache.

(** ** The estimate *)
Section Estimate.
Context (catalog : InstanceCatalog).
Context (spot_history : list (string * list string) → string → list string → outcome perr (list spot_entry)).

(** Known prices are above 0. *)
Definition rate_ok (r : InstanceRate) : Prop := match rate_price r with Some q => py_lt (num_of_Z 0) q = true | None => True end.
Lemma from_raw_ok q spot : rate_ok (from_raw q spot).
Proof.
  unfold rate_ok, from_raw. destruct q as [q|]; [|done]. destruct (py_le q (num_of_Z 0)) eqn:E; [done|]. simpl.
  by rewrite py_lt_le, E.
Qed.
Lemma hourly_rate_ok cloud_ region t spot : rate_ok (get_hourly_rate catalog cloud_ region t spot).
Proof. unfold get_hourly_rate. destruct (_ || _); [done|apply from_raw_ok]. Qed.

Lemma spot_rates_ok cloud_ region types s s' rates :
  resolve_spot_rates catalog spot_history cloud_ region types s = (s', Ok rates) → Forall (λ tr, rate_ok tr.2) rates.
Proof.
  unfold resolve_spot_rates. destruct (_ || _); [by intros [= _ <-]|].
  destruct (negb _); [intros [= _ <-]; apply Forall_fmap, Forall_true; intros t; apply hourly_rate_ok|].
  unfold bind, caught. destruct (get_spot_instance_prices _ _ _ _) as [s1 [prices|x]]; intros [= _ <-];
    apply Forall_fmap, Forall_true; intros t; [apply from_raw_ok|done].
Qed.

(** The cost of the nodes of a role for the hours of the run. *)
Definition nodes_cost (hours q : num) (count : Z) : num := num_mul (num_mul q hours) (num_of_Z count).

Lemma cost_for_hours r hours :
  cost_for r (num_mul hours SECONDS_PER_HOUR) =
  match rate_price r with Some q => if py_lt hours (num_of_Z 0) then None else Some (num_mul q hours) | None => None end.
Proof.
  unfold cost_for. destruct (rate_price r) as [q|]; [|done].
  assert (num_div (num_mul hours SECONDS_PER_HOUR) SECONDS_PER_HOUR = hours) as ->.
  { unfold num_div, num_mul. apply Qcdiv_mult_l. intros H. by apply (f_equal num_ceil) in H. }
  assert (py_lt (num_mul hours SECONDS_PER_HOUR) (num_of_Z 0) = py_lt hours (num_of_Z 0)) as ->; [|done].
  apply eq_true_iff_eq. rewrite !num_lt_iff, num_mul_this. unfold SECONDS_PER_HOUR. rewrite !num_of_Z_this.
  change (inject_Z 3600) with 3600%Q. change (inject_Z 0) with 0%Q. split; intros; lra.
Qed.

(** What is known of the cost of a role. *)
Definition cost_ok (hours : num) (r : RoleCost) : Prop :=
  match rc_cost r with
  | Some c => ∃ q, rate_price (rc_rate r) = Some q ∧ py_lt (num_of_Z 0) q = true ∧ c = nodes_cost hours q (rc_count r)
  | None => rate_price (rc_rate r) = None ∨ py_lt hours (num_of_Z 0) = true
  end.

Lemma role_cost_ok backend cloud_ region spot hours rates r :
  Forall (λ tr, rate_ok tr.2) rates →
  let rc := role_cost catalog backend cloud_ region spot hours rates r in
  cost_ok hours rc ∧ (rc_role rc, rc_count rc) = (r.1.1, r.2).
Proof.
  intros Hrates. destruct r as [[role itype] count]. unfold role_cost. destruct (truthy itype); simpl; [|by split; [left|]].
  split; [|done]. unfold cost_ok. simpl. rewrite cost_for_hours. set (rate := if role_is_spot _ _ _ _ _ then _ else _).
  assert (rate_ok rate) as Hok.
  { subst rate. destruct (role_is_spot _ _ _ _ _); [|apply hourly_rate_ok].
    destruct (dict_get itype rates) as [x|] eqn:E; [|done]. apply dict_get_elem in E.
    rewrite Forall_forall in Hrates. apply (Hrates _ E). }
  clearbody rate. unfold rate_ok in Hok. destruct (rate_price rate) as [q|]; [|by left].
  destruct (py_lt hours (num_of_Z 0)) eqn:E; [by right|]. eauto.
Qed.

Lemma existsb_unpriced l : existsb (λ r, bool_decide (rc_cost r = None)) l || negb (truthy l) = false ↔ l ≠ [] ∧ Forall (λ r, rc_cost r ≠ None) l.
Proof.
  rewrite orb_false_iff. rewrite Forall_forall. split.
  - intros [H1 H2]. split; [by destruct l|]. intros r Hr Hn. apply not_true_iff_false in H1. apply H1.
    apply existsb_exists. exists r. split; [by apply list_elem_of_In|by apply bool_decide_true].
  - intros [H1 H2]. split; [|by destruct l]. apply not_true_iff_false. intros (r & Hr & Hn)%existsb_exists.
    apply bool_decide_eq_true in Hn. by apply (H2 r); [apply list_elem_of_In|].
Qed.

Lemma total_of_known hours l :
  l ≠ [] → Forall (λ r, rc_cost r ≠ None) l → Forall (cost_ok hours) l →
  total_of (omap rc_cost l) = Some (num_sum ((λ r, nodes_cost hours (default (num_of_Z 0) (rate_price (rc_rate r))) (rc_count r)) <$> l)).
Proof.
  intros Hne Hk Hok.
  assert (omap rc_cost l = (λ r, nodes_cost hours (default (num_of_Z 0) (rate_price (rc_rate r))) (rc_count r)) <$> l) as ->.
  { clear Hne. induction l as [|r l IH]; [done|]. apply Forall_cons in Hk as [Hr Hk]. apply Forall_cons in Hok as [Hc Hok].
    cbn [omap list_omap fmap list_fmap]. unfold cost_ok in Hc. destruct (rc_cost r) as [c|]; [|done].
    destruct Hc as (q & -> & _ & ->). simpl. f_equal. by apply IH. }
  unfold total_of. by destruct l.
Qed.

(** The nodes a run has in a role, by what the configuration asks for: the database cluster at the
    largest size it grows to, the oracle cluster of tests that compare with one only. *)
Definition nodes_of_run (p : params) (role : string) : Z :=
  let asked param := sum_of (pget param p) in
  if String.eqb role "db" then Z.max (asked "n_db_nodes") (asked "cluster_target_size")
  else if String.eqb role "db_oracle"
  then if oracle_cluster_in_use (text_of (pget "db_type" p)) then asked "n_test_oracle_db_nodes" else 0
  else if String.eqb role "zero_token" then asked "n_db_zero_token_nodes"
  else if String.eqb role "loader" then asked "n_loaders"
  else if String.eqb role "monitor" then asked "n_monitor_nodes"
  else 0.

Lemma cost_roles_planned p backend cloud_ region spot hours rates :
  cost_roles catalog p backend cloud_ region spot hours rates = role_cost catalog backend cloud_ region spot hours rates <$> planned p cloud_.
Proof.
  unfold cost_roles, planned. induction (_ROLE_PARAMS cloud_) as [|[role [tp cp]] l IH]; [done|]. cbn [omap list_omap].
  destruct (_ && _); [done|]. destruct (Z.leb_spec (_node_count p role cp) 0), (Z.ltb_spec 0 (_node_count p role cp)); try lia; [done|].
  cbn [fmap list_fmap]. by f_equal.
Qed.

Definition known_roles : list string := _ROLE_NODE_COUNTS.*1.
Lemma positive_role p role : 0 < nodes_of_run p role → role ∈ known_roles.
Proof.
  unfold nodes_of_run, known_roles, _ROLE_NODE_COUNTS. cbn [fmap list_fmap fst]. rewrite !elem_of_cons.
  repeat match goal with |- context [String.eqb role ?r] => destruct (String.eqb_spec role r) as [->|]; [tauto|] end. intros Hz; lia.
Qed.
Lemma node_count_of_run p role param : dict_get role _ROLE_NODE_COUNTS = Some param →
  (role = "db_oracle"%string → oracle_cluster_in_use (text_of (pget "db_type" p)) = true) →
  _node_count p role param = nodes_of_run p role.
Proof.
  intros Hget Ho. assert (role ∈ known_roles) as Hr.
  { apply dict_get_elem in Hget. apply list_elem_of_fmap. by exists (role, param). }
  unfold known_roles, _ROLE_NODE_COUNTS in Hr. cbn [fmap list_fmap fst] in Hr. rewrite !elem_of_cons, elem_of_nil in Hr.
  destruct Hr as [->|[->|[->|[->|[->|[]]]]]]; injection Hget as <-; unfold _node_count, nodes_of_run; cbn [String.eqb Ascii.eqb Bool.eqb];
    rewrite ?Ho by done; done.
Qed.
Lemma role_params_count cloud_ role tp cp : (role, (tp, cp)) ∈ _ROLE_PARAMS cloud_ → dict_get role _ROLE_NODE_COUNTS = Some cp.
Proof.
  unfold _ROLE_PARAMS. rewrite list_elem_of_omap. intros ([r t] & _ & H). cbn [fst snd] in H.
  destruct (dict_get r _ROLE_NODE_COUNTS) eqn:E; [|done]. cbn in H. congruence.
Qed.

Lemma planned_iff p cloud_ role n :
  (role, n) ∈ ((λ r, (r.1.1, r.2)) <$> planned p cloud_) ↔ role ∈ (_ROLE_PARAMS cloud_).*1 ∧ n = nodes_of_run p role ∧ 0 < n.
Proof.
  rewrite list_elem_of_fmap. unfold planned. split.
  - intros ([[r t] m] & [= -> ->] & H). apply list_elem_of_omap in H as ([r0 [tp cp]] & Hin & H).
    destruct (String.eqb r0 "db_oracle" && _) eqn:Eo; [done|]. destruct (Z.ltb_spec 0 (_node_count p r0 cp)) as [Hpos|]; [|done].
    injection H as <- _ <-. split; [apply list_elem_of_fmap; by exists (r0, (tp, cp))|].
    rewrite <-(node_count_of_run p r0 cp) by (first [by eapply role_params_count|intros ->; by destruct (oracle_cluster_in_use _)]). done.
  - intros ([[r [tp cp]] [-> Hin]]%list_elem_of_fmap & -> & Hpos). cbn [fst] in *.
    assert (r = "db_oracle"%string → oracle_cluster_in_use (text_of (pget "db_type" p)) = true) as Ho.
    { intros ->. unfold nodes_of_run in Hpos. cbn [String.eqb Ascii.eqb Bool.eqb] in Hpos. by destruct (oracle_cluster_in_use _). }
    pose proof (node_count_of_run p r cp (role_params_count _ _ _ _ Hin) Ho) as Hn.
    exists (r, strip (text_of (pget tp p)), nodes_of_run p r). split; [done|]. apply list_elem_of_omap. exists (r, (tp, cp)). split; [done|].
    rewrite Hn. destruct (String.eqb_spec r "db_oracle") as [E|]; [rewrite (Ho E)|]; cbn [negb andb];
      (destruct (Z.ltb_spec 0 (nodes_of_run p r)); [done|lia]).
Qed.

(** Zero-token nodes are a feature of AWS. *)
Definition cloud_has_nodes (p : params) (cloud_ : string) : Prop :=
  cloud_ = "aws"%string ∨ nodes_of_run p "zero_token" <= 0.

Lemma role_priced p cloud_ role : is_Some (dict_get cloud_ _REGION_PARAMS) → cloud_has_nodes p cloud_ →
  0 < nodes_of_run p role → role ∈ (_ROLE_PARAMS cloud_).*1.
Proof.
  intros [param Hc%dict_get_elem] Hz Hpos. pose proof (positive_role p role Hpos) as Hr.
  assert (role = "zero_token"%string → cloud_ = "aws"%string) as Hzero by (intros ->; destruct Hz; [done|lia]).
  assert (Forall (λ c, Forall (λ r, (r = "zero_token" → c = "aws")%string → r ∈ (_ROLE_PARAMS c).*1) known_roles) _REGION_PARAMS.*1) as Hall.
  { repeat (constructor; [repeat (constructor; [intros H; apply (bool_decide_unpack (_ ∈ _)); vm_compute; (exact I || by specialize (H eq_refl))|]); constructor|]). constructor. }
  rewrite Forall_forall in Hall. specialize (Hall cloud_ ltac:(apply list_elem_of_fmap; by exists (cloud_, param))).
  rewrite Forall_forall in Hall. by apply Hall.
Qed.

Lemma role_params_nodup cloud_ : is_Some (dict_get cloud_ _REGION_PARAMS) → NoDup (_ROLE_PARAMS cloud_).*1.
Proof.
  intros [param Hc%dict_get_elem]. assert (Forall (λ c, NoDup (_ROLE_PARAMS c).*1) _REGION_PARAMS.*1) as Hall
    by (apply (bool_decide_unpack (Forall _ _)); vm_compute; exact I).
  rewrite Forall_forall in Hall. apply Hall, list_elem_of_fmap. by exists (cloud_, param).
Qed.
Lemma planned_nodup p cloud_ : is_Some (dict_get cloud_ _REGION_PARAMS) → NoDup ((λ r, r.1.1) <$> planned p cloud_).
Proof.
  intros Hc. pose proof (role_params_nodup cloud_ Hc) as Hnd. eapply sublist_NoDup; [exact Hnd|]. unfold planned. clear Hnd.
  induction (_ROLE_PARAMS cloud_) as [|[role [tp cp]] l IH]; [done|]. cbn [omap list_omap fmap list_fmap fst].
  destruct (_ && _); [by constructor|]. destruct (0 <? _); [cbn [fmap list_fmap fst]; by constructor|by constructor].
Qed.


(** An estimate asks EC2 for spot prices at most once, and only for a run with spot nodes on AWS. *)
Theorem estimate_asks_once p dur s :
  ∃ new, requests (estimate_run_cost catalog spot_history p dur s).1 = requests s ++ new ∧
    (List.length new <= 1)%nat ∧
    (new ≠ [] → backend_to_cloud (text_of (pget "cluster_backend" p)) (pget "xcloud_provider" p) = Some "aws" ∧
                contains "spot" (lower (text_of (pget "instance_provision" p))) = true).
Proof.
  assert (Hget : ∀ region types s, ∃ new, requests (get_spot_instance_prices spot_history region types s).1 = requests s ++ new ∧ (List.length new <= 1)%nat).
  { intros region types s0. unfold get_spot_instance_prices, bind, gets. destruct (negb _); [exists []; rewrite app_nil_r; split; [done|simpl; lia]|].
    destruct (forallb _ _); [exists []; rewrite app_nil_r; split; [done|simpl; lia]|]. simpl.
    destruct (spot_history _ _ _); simpl; eexists; (split; [done|simpl; lia]). }
  assert (none : ∃ new, requests s = requests s ++ new ∧ (List.length new <= 1)%nat ∧
    (new ≠ [] → backend_to_cloud (text_of (pget "cluster_backend" p)) (pget "xcloud_provider" p) = Some "aws" ∧
                contains "spot" (lower (text_of (pget "instance_provision" p))) = true)).
  { exists []. rewrite app_nil_r. split; [done|]. split; [simpl; lia|done]. }
  unfold estimate_run_cost. destruct (backend_to_cloud _ _) as [cloud_|] eqn:Ec; [|done].
  destruct (dict_get cloud_ _REGION_PARAMS); [|done]. set (types := _ <$> filter _ _). unfold bind.
  assert (Hspot : truthy types = true → contains "spot" (lower (text_of (pget "instance_provision" p))) = true).
  { subst types. destruct (filter _ _) as [|r l] eqn:E; [done|]. intros _.
    assert (r ∈ filter (λ r : string * string * Z, truthy r.1.2 && role_is_spot (text_of (pget "cluster_backend" p)) cloud_
      (contains "spot" (lower (text_of (pget "instance_provision" p)))) r.1.1 r.1.2 = true) (planned p cloud_)) as Hr by (rewrite E; left).
    apply list_elem_of_filter in Hr as [[_ Hr]%andb_true_iff _]. unfold role_is_spot in Hr. by repeat case_match. }
  destruct (truthy types); [|done]. specialize (Hspot eq_refl). unfold resolve_spot_rates.
  destruct (_ || _); [done|]. destruct (String.eqb_spec cloud_ "aws") as [->|]; simpl; [|done].
  unfold bind, caught. destruct (Hget (_first_region p s0) (wanted_types types) s) as (new & Hnew & Hlen).
  destruct (get_spot_instance_prices _ _ _ s) as [s1 r]. simpl in *. exists new. auto.
Qed.
End Estimate.

(** ** Estimates *)
Definition sample_history (sent : list (string * list string)) (region : string) (types : list string)
    : outcome perr (list spot_entry) :=
  if String.eqb region "us-east-1" then
    Ok [SpotEntry "i7i.xlarge" "us-east-1a" (gb 2); SpotEntry "i7i.xlarge" "us-east-1b" (gb 4); SpotEntry "c7i.large" "us-east-1a" (gb 1)]
  else Err PricingError.

Definition sample_run : params :=
  <["cluster_backend" := VStr "aws"]> (<["region_name" := VStr "us-east-1 eu-west-1"]> (<["instance_provision" := VStr "spot"]>
  (<["instance_provision_fallback_on_demand" := VBool true]>
  (<["n_db_nodes" := VList [VInt 3; VInt 3]]> (<["instance_type_db" := VStr "i7i.xlarge"]>
  (<["n_loaders" := VList [VInt 2]]> (<["instance_type_loader" := VStr "c7i.large"]>
  (<["test_duration" := VInt 120]> ∅)))))))).

Definition fresh : pricing := Pricing [] [].
Definition summary (r : pricing * outcome perr RunCostEstimate) : option (option Z * bool * option Z * bool) :=
  match r.2 with
  | Ok e => Some (num_ceil <$> total e, partial e, num_ceil <$> on_demand_total e, may_fall_back e)
  | Err _ => None
  end.

(** Six nodes at 3 and two loaders at 1 for two hours cost 40. Of the loaders only the spot price is
    known: the total on demand is that of the six nodes at 4, the loaders are not in it, and the
    estimate is not marked partial. *)
Example ceiling_without_loaders :
  summary (estimate_run_cost sample_catalog sample_history sample_run None fresh) = Some (Some 40, false, Some 48, true) ∧
  (let! e := estimate_run_cost sample_catalog sample_history sample_run None in
   ret ((λ r, (rc_role r, bool_decide (is_Some (rc_cost r)), bool_decide (is_Some (rc_on_demand_cost r)))) <$> estimate_roles e)) fresh
  = (Pricing [("us-east-1", [("i7i.xlarge", [("us-east-1a", gb 2); ("us-east-1b", gb 4)]); ("c7i.large", [("us-east-1a", gb 1)])])]
       [("us-east-1", ["i7i.xlarge"; "c7i.large"])], Ok [("db", true, true); ("loader", true, false)]).
Proof. vm_compute. split; reflexivity. Qed.

(** With fewer database nodes the total on demand, said to be the ceiling, is below the spot total. *)
Example ceiling_below_total :
  summary (estimate_run_cost sample_catalog sample_history (<["n_db_nodes" := VList [VInt 1]]> sample_run) None fresh)
  = Some (Some 10, false, Some 8, true).
Proof. vm_compute. reflexivity. Qed.

(** Zero-token nodes are in the estimate on AWS only. *)
Example zero_token_nodes_unlisted cloud_ : cloud_ ∈ ["gce"; "azure"; "oci"]%string →
  "zero_token"%string ∉ (_ROLE_PARAMS cloud_).*1.
Proof.
  intros H. rewrite !elem_of_cons, elem_of_nil in H. destruct H as [->|[->|[->|[]]]]; vm_compute; intros H;
    by repeat (apply elem_of_cons in H as [H|H]; [discriminate H|]); apply elem_of_nil in H.
Qed.


Lemma spot_prices_cached_witness :
  ∃ s' prices, get_spot_instance_prices sample_history "us-east-1" ["i7i.xlarge"; "c7i.large"] fresh = (s', Ok prices) ∧
    get_spot_instance_prices sample_history "us-east-1" ["c7i.large"] s' =
      (s', Ok (means (wanted_types ["c7i.large"]) (cached_types "us-east-1" s'))).
Proof.
  destruct (get_spot_instance_prices sample_history "us-east-1" ["i7i.xlarge"; "c7i.large"] fresh) as [s' [prices|x]] eqn:E;
    [|discriminate E].
  exists s', prices. split; [done|].
  apply (spot_prices_cached sample_history "us-east-1" ["i7i.xlarge"; "c7i.large"] ["c7i.large"] fresh s' prices E).
  intros t Ht. vm_compute in Ht |- *. by right.
Defined.
End RunCost.
