(* ===== verification/Sizing.v ===== *)
(** * Instance sizes and provisioning of a configuration

    Model of two decisions of [SCTConfiguration] ([sdcm/sct_config/config.py]): the instance
    types that [_resolve_instance_sizes] puts in the place of hardware constraints, by the
    matcher of [InstanceMatcher] and with its cache of resolutions, and the choice between spot
    and on-demand instances of [_apply_duration_based_provision_policy]. *)
From Stdlib Require Import Ascii String ZArith Lia.
From stdpp Require Import base decidable option strings numbers list gmap.
From S2P Require Import Prelude.
From S2P Require Import PyString.
From S2P Require Import PyOrder.
From S2P Require Import PyNum.
From S2P Require Import PyVal.
From S2P Require Import PyDict.
From S2P Require Import Effects.
From S2P Require Import InstanceMatcher.
From S2P Require Import RunCost.
Local Open Scope py_scope.
Local Open Scope Z_scope.

Module Sizing.
Import InstanceMatcher RunCost.

(** ** Values and state *)

(** A parameter: not set, a type or another text, or the constraints of a sizing. *)
Inductive sval : Type := SNone | SStr (s : string) | SDict (d : list (string * raw)).
#[export] Instance truthy_sval : Truthy sval :=
  λ v, match v with SNone => false | SStr s => truthy s | SDict d => truthy d end.

(** What the cache is keyed by: numbers and booleans are equal whatever their type; lists and
    mappings cannot be part of a key. *)
Inductive rawkey : Type := KNum (q : num) | KStr (s : string) | KNone.
#[export] Instance rawkey_eq_dec : EqDecision rawkey.
Proof. solve_decision. Defined.
Definition raw_key (r : raw) : option rawkey :=
  match r with
  | RInt z => Some (KNum (num_of_Z z)) | RFloat q _ => Some (KNum q) | RBool b => Some (KNum (num_of_Z (Z.b2z b)))
  | RStr s => Some (KStr s) | RNone => Some KNone | ROther _ => None
  end.
Definition key : Type := string * string * list (string * rawkey).
Definition cache_key (role cloud_ : string) (d : list (string * raw)) : option key :=
  items ← mapM (λ kv, k ← raw_key kv.2; Some (kv.1, k)) (sorted fst d); Some (role, cloud_, items).

(** The configuration, the variables of the environment that are to be merged into it, the cache
    of resolutions of the process, and the architectures that were resolved. *)
Record sstate := SState {
  self : list (string * sval);
  env : option (list (string * sval));
  cache : list (key * (string * string));
  resolved_arch : list (string * string)
}.

Inductive sexn : Type := SValueError | SUncaught (x : mexn).
(** How reading the catalog fails. *)
Inductive cexn : Type := FileNotFoundError | InvalidCatalog.

Definition get_from (d : list (string * sval)) (k : string) : sval := default SNone (dict_get k d).
(** [(env.get(k) if env else None) or self.get(k)] *)
Definition env_or_self (k : string) (s : sstate) : sval :=
  let from_env := match env s with Some e => get_from e k | None => SNone end in
  if truthy from_env then from_env else get_from (self s) k.
Definition in_env (k : string) (s : sstate) : bool := match env s with Some e => dict_in k e | None => false end.
Definition as_text (v : sval) : string := match v with SStr t => t | _ => EmptyString end.

Definition set_param (k : string) (v : sval) (s : sstate) : sstate :=
  if in_env k s
  then SState (self s) (dict_set k v <$> env s) (cache s) (resolved_arch s)
  else SState (dict_set k v (self s)) (env s) (cache s) (resolved_arch s).
Definition pop_env (k : string) (s : sstate) : sstate :=
  SState (self s) (dict_del k <$> env s) (cache s) (resolved_arch s).

Definition _SIZING_SKIP_BACKENDS : list string :=
  ["docker"; "baremetal"; "k8s-local-kind"; "k8s-local-kind-aws"; "k8s-local-kind-gce"]%string.
Definition AGNOSTIC_FALLBACK : list (string * string) :=
  [("db", "sizing_db"); ("db_oracle", "sizing_db_oracle"); ("zero_token", "sizing_db"); ("loader", "sizing_loader");
   ("monitor", "sizing_monitor")]%string.

Section Resolving.
Context (catalog : outcome cexn InstanceCatalog).
Abbreviation action := (act sstate sexn).

(** What the body of the [try] raises: no catalog, or one of the exceptions of the matcher. *)
Definition looked_up (role cloud_ : string) (d : list (string * raw)) : outcome (option mexn) InstanceTypeInfo :=
  match catalog with
  | Err FileNotFoundError => Err None
  | Err InvalidCatalog => Err (Some ValueError)
  | Ok c => match select_instance c role cloud_ d None None with Ok i => Ok i | Err x => Err (Some x) end
  end.

(** The type and architecture for constraints, from the cache or from the catalog. A fallback that
    cannot be resolved is given up; other constraints have to be resolved if there is a catalog. *)
Definition resolve_dict (role cloud_ param_name : string) (is_fallback : bool) (d : list (string * raw))
    : action (option (string * string)) :=
  match cache_key role cloud_ d with
  | None => raise (SUncaught TypeError)
  | Some k =>
    let! cached := gets (λ s, dict_get k (cache s)) in
    match cached with
    | Some r => ret (Some r)
    | None =>
      match looked_up role cloud_ d with
      | Ok i =>
        modify (λ s, SState (self s) (env s) (dict_set k (instance_type i, arch i) (cache s)) (resolved_arch s)) ;;;
        ret (Some (instance_type i, arch i))
      | Err None => modify (pop_env param_name) ;;; ret None
      | Err (Some (NoMatchingInstanceError _ _)) | Err (Some ValueError) =>
        if is_fallback then modify (pop_env param_name) ;;; ret None else raise SValueError
      | Err (Some x) => raise (SUncaught x)
      end
    end
  end.

Definition store (role param_name : string) (r : string * string) : action unit :=
  (if truthy r.2 then modify (λ s, SState (self s) (env s) (cache s) (dict_set role r.2 (resolved_arch s))) else ret tt) ;;;
  modify (set_param param_name (SStr r.1)).

Definition resolve_value (role cloud_ param_name : string) (is_fallback : bool) (v : sval) : action unit :=
  match v with
  | SDict d =>
    let! r := resolve_dict role cloud_ param_name is_fallback d in
    match r with Some r => store role param_name r | None => ret tt end
  | _ => ret tt
  end.

(** The sizing of a role that has no type of its own. *)
Definition resolve_fallback (cloud_ role param_name : string) : action unit :=
  match dict_get role AGNOSTIC_FALLBACK with
  | None => ret tt
  | Some fallback_param =>
    if String.eqb fallback_param param_name then ret tt
    else
      let! fallback_value := gets (env_or_self fallback_param) in
      resolve_value role cloud_ param_name true fallback_value
  end.

(** The value of a parameter: that of the environment if it is there. *)
Definition effective (k : string) (s : sstate) : sval :=
  match env s with
  | Some e => match dict_get k e with Some v => v | None => get_from (self s) k end
  | None => get_from (self s) k
  end.

Definition resolve_role (cloud_ db_type : string) (rp : string * string) : action unit :=
  let '(role, param_name) := rp in
  if String.eqb role "db_oracle" && negb (oracle_cluster_in_use db_type) then ret tt
  else
    let! v := gets (effective param_name) in
    if truthy v then resolve_value role cloud_ param_name false v else resolve_fallback cloud_ role param_name.

Definition sizing_cloud (s : sstate) : option string :=
  let backend := as_text (env_or_self "cluster_backend" s) in
  if existsb (String.eqb backend) _SIZING_SKIP_BACKENDS then None
  else backend_to_cloud backend (VStr (as_text (env_or_self "xcloud_provider" s))).

Definition _resolve_instance_sizes : action unit :=
  let! cloud_ := gets sizing_cloud in
  match cloud_ with
  | None => ret tt
  | Some cloud_ =>
    let! db_type := gets (env_or_self "db_type") in
    for_each (default [] (dict_get cloud_ SIZING_ROLE_PARAMS)) (resolve_role cloud_ (as_text db_type))
  end.
End Resolving.

(** ** What a resolution leaves behind *)

(** The constraints that decide the type of a role, and whether they are its fallback. *)
Definition request (role param_name : string) (s : sstate) : option (bool * list (string * raw)) :=
  let v := effective param_name s in
  if truthy v then match v with SDict d => Some (false, d) | _ => None end
  else
    fallback_param ← dict_get role AGNOSTIC_FALLBACK;
    if String.eqb fallback_param param_name then None
    else match env_or_self fallback_param s with SDict d => Some (true, d) | _ => None end.

Definition same_param (k : string) (s s' : sstate) : Prop :=
  dict_get k (self s) = dict_get k (self s') ∧ dict_get k <$> env s = dict_get k <$> env s'.

Lemma same_param_refl k s : same_param k s s.
Proof. done. Qed.
Lemma same_param_trans k s1 s2 s3 : same_param k s1 s2 → same_param k s2 s3 → same_param k s1 s3.
Proof. intros [? ?] [? ?]. split; congruence. Qed.
Lemma same_effective k s s' : same_param k s s' → effective k s = effective k s'.
Proof.
  intros [Hs He]. unfold effective, get_from. rewrite Hs.
  destruct (env s), (env s'); simpl in He; try done. injection He as ->. done.
Qed.
Lemma same_env_or_self k s s' : same_param k s s' → env_or_self k s = env_or_self k s'.
Proof.
  intros [Hs He]. unfold env_or_self, get_from. rewrite Hs.
  destruct (env s), (env s'); simpl in He; try done. injection He as ->. done.
Qed.
Lemma same_get_from k s s' : same_param k s s' → get_from (self s) k = get_from (self s') k.
Proof. intros [Hs _]. unfold get_from. by rewrite Hs. Qed.

Lemma same_set_param k p v s : k ≠ p → same_param k s (set_param p v s).
Proof.
  intros Hk. unfold set_param, same_param. destruct (in_env p s); simpl; [split; [done|]|split; [|done]].
  - destruct (env s); simpl; [|done]. by rewrite dict_get_set, decide_False.
  - by rewrite dict_get_set, decide_False.
Qed.
Lemma same_pop_env k p s : k ≠ p → same_param k s (pop_env p s).
Proof. intros Hk. split; [done|]. simpl. destruct (env s); simpl; [|done]. by rewrite dict_get_del, decide_False. Qed.
Lemma effective_set_param p v s : effective p (set_param p v s) = v.
Proof.
  unfold set_param, effective, get_from, in_env, dict_in. destruct (env s) as [e|]; simpl.
  2: { by rewrite dict_get_set, decide_True. }
  destruct (dict_get p e) eqn:Ep; simpl; rewrite ?Ep; simpl; by rewrite dict_get_set, decide_True.
Qed.
Lemma effective_pop_env p s : effective p (pop_env p s) = get_from (self s) p.
Proof. unfold effective. simpl. destruct (env s); simpl; [|done]. by rewrite dict_get_del, decide_True. Qed.

Section Resolved.
Context (catalog : outcome cexn InstanceCatalog).

(** The cache holds results of the matcher only. *)
Definition sound (s : sstate) : Prop :=
  ∀ k r, dict_get k (cache s) = Some r → ∃ role cloud_ d i,
    cache_key role cloud_ d = Some k ∧ looked_up catalog role cloud_ d = Ok i ∧ r = (instance_type i, arch i).

(** How a role stands in [s'] for what was asked in [s]. *)
Definition sized (cloud_ role param_name : string) (s s' : sstate) : Prop :=
  match request role param_name s with
  | None => effective param_name s' = effective param_name s
  | Some (is_fallback, d) =>
    (∃ d' i, cache_key role cloud_ d' = cache_key role cloud_ d ∧ looked_up catalog role cloud_ d' = Ok i ∧
       effective param_name s' = SStr (instance_type i) ∧
       (truthy (arch i) = true → dict_get role (resolved_arch s') = Some (arch i))) ∨
    (∃ x, looked_up catalog role cloud_ d = Err x ∧ (is_fallback = true ∨ x = None) ∧
       effective param_name s' = get_from (self s) param_name)
  end.

(** Why a role makes the resolution fail. *)
Definition at_fault (cloud_ role param_name : string) (s : sstate) (e : sexn) : Prop :=
  ∃ is_fallback d, request role param_name s = Some (is_fallback, d) ∧
    match e with
    | SValueError => is_fallback = false ∧ ∃ x, looked_up catalog role cloud_ d = Err (Some x)
    | SUncaught x => x = TypeError ∧ cache_key role cloud_ d = None ∨
        looked_up catalog role cloud_ d = Err (Some x) ∧ x ≠ ValueError ∧ ∀ cs n, x ≠ NoMatchingInstanceError cs n
    end.

Definition skipped (db_type role : string) : bool := String.eqb role "db_oracle" && negb (oracle_cluster_in_use db_type).

Lemma resolve_role_request cloud_ db_type role param_name s : skipped db_type role = false →
  resolve_role catalog cloud_ db_type (role, param_name) s =
    match request role param_name s with
    | None => (s, Ok tt)
    | Some (fb, d) => resolve_value catalog role cloud_ param_name fb (SDict d) s
    end.
Proof.
  intros Hs. unfold resolve_role, request. fold (skipped db_type role). rewrite Hs.
  unfold bind at 1, gets at 1. cbv beta iota zeta. destruct (truthy (effective param_name s)).
  { by destruct (effective param_name s). }
  unfold resolve_fallback. destruct (dict_get role AGNOSTIC_FALLBACK) as [fp|]; [|done]. cbn [mbind option_bind].
  destruct (String.eqb fp param_name); [done|]. unfold bind, gets. by destruct (env_or_self fp s).
Qed.

Definition frame (role param_name : string) (s s' : sstate) : Prop :=
  (∀ k, k ≠ param_name → same_param k s s') ∧
  (∀ ρ, ρ ≠ role → dict_get ρ (resolved_arch s) = dict_get ρ (resolved_arch s')).

Lemma store_spec role param_name r s :
  ∃ s', store role param_name r s = (s', Ok tt) ∧ cache s' = cache s ∧ frame role param_name s s' ∧
    effective param_name s' = SStr r.1 ∧ (truthy r.2 = true → dict_get role (resolved_arch s') = Some r.2).
Proof.
  assert (Hset : ∀ t, let t' := set_param param_name (SStr r.1) t in
      cache t' = cache t ∧ resolved_arch t' = resolved_arch t) by (intros t; unfold set_param; by case_match).
  assert (Hsame : ∀ k t, k ≠ param_name → same_param k s t → same_param k s (set_param param_name (SStr r.1) t))
    by (intros k t Hk Ht; eapply same_param_trans; [done|by apply same_set_param]).
  unfold store, bind. destruct (truthy r.2) eqn:Ea; (eexists; split; [reflexivity|]);
    (split; [by rewrite (proj1 (Hset _))|]); (split; [split; [by intros; apply Hsame|intros ρ Hρ]|split; [apply effective_set_param|]]);
    rewrite (proj2 (Hset _)); cbn [resolved_arch]; try done; rewrite dict_get_set;
    [by rewrite decide_False|by rewrite decide_True].
Qed.

Lemma frame_refl role p s : frame role p s s.
Proof. done. Qed.
Lemma frame_pop role p s : frame role p s (pop_env p s).
Proof. split; [|done]. intros k Hk. by apply same_pop_env. Qed.

Definition role_outcome (cloud_ role p : string) (s s' : sstate) (r : outcome sexn unit) : Prop :=
  sound s' ∧ frame role p s s' ∧
  match r with Ok _ => sized cloud_ role p s s' | Err e => at_fault cloud_ role p s e end.

Lemma found_outcome cloud_ role p fb d d' i s t :
  request role p s = Some (fb, d) → cache_key role cloud_ d' = cache_key role cloud_ d →
  looked_up catalog role cloud_ d' = Ok i → sound t → frame role p s t →
  let '(s', r) := store role p (instance_type i, arch i) t in role_outcome cloud_ role p s s' r.
Proof.
  intros Hr Hd Hi Ht [Hp Ha]. destruct (store_spec role p (instance_type i, arch i) t) as (s' & -> & Hc & [Hp' Ha'] & He & Hr').
  split; [unfold sound; by rewrite Hc|]. split.
  - split; [intros k Hk; eapply same_param_trans; eauto|]. intros ρ Hρ. by rewrite Ha, Ha'.
  - unfold sized. rewrite Hr. left. by exists d', i.
Qed.

Lemma given_up_outcome cloud_ role p fb d x s :
  request role p s = Some (fb, d) → looked_up catalog role cloud_ d = Err x → fb = true ∨ x = None → sound s →
  role_outcome cloud_ role p s (pop_env p s) (Ok tt).
Proof.
  intros Hr Hx Hfb Hs. split; [done|]. split; [apply frame_pop|]. unfold sized. rewrite Hr. right. exists x.
  split; [done|]. split; [done|]. apply effective_pop_env.
Qed.

Lemma sound_add role cloud_ d i k s : sound s → cache_key role cloud_ d = Some k → looked_up catalog role cloud_ d = Ok i →
  sound (SState (self s) (env s) (dict_set k (instance_type i, arch i) (cache s)) (resolved_arch s)).
Proof.
  intros Hs Hk Hi k' r. cbn [cache]. rewrite dict_get_set. case_decide as E; [|apply Hs]. subst k'. intros [= <-].
  by exists role, cloud_, d, i.
Qed.

Lemma cache_key_role role cloud_ d role' cloud' d' k :
  cache_key role cloud_ d = Some k → cache_key role' cloud' d' = Some k → role' = role ∧ cloud' = cloud_.
Proof. unfold cache_key. intros (? & _ & [= <-])%bind_Some (? & _ & [= -> -> _])%bind_Some. done. Qed.

Lemma resolve_value_outcome cloud_ role p fb d s : sound s → request role p s = Some (fb, d) →
  let '(s', r) := resolve_value catalog role cloud_ p fb (SDict d) s in role_outcome cloud_ role p s s' r.
Proof.
  intros Hs Hr. unfold resolve_value, resolve_dict.
  destruct (cache_key role cloud_ d) as [k|] eqn:Ek.
  2: { split; [done|]. split; [done|]. exists fb, d. split; [done|]. by left. }
  unfold bind, gets. destruct (dict_get k (cache s)) as [r|] eqn:Ec.
  - destruct (Hs _ _ Ec) as (role' & cloud' & d' & i & Hk & Hi & ->).
    destruct (cache_key_role _ _ _ _ _ _ _ Ek Hk) as [-> ->]. simpl.
    eapply (found_outcome cloud_ role p fb d d'); eauto using frame_refl. congruence.
  - destruct (looked_up catalog role cloud_ d) as [i|[x|]] eqn:Ei; simpl.
    + eapply (found_outcome cloud_ role p fb d d); eauto using sound_add. done.
    + assert (Hother : x ≠ ValueError → (∀ cs n, x ≠ NoMatchingInstanceError cs n) →
        role_outcome cloud_ role p s s (Err (SUncaught x))).
      { intros H1 H2. split; [done|]. split; [done|]. exists fb, d. split; [done|]. by right. }
      destruct x; try (by apply Hother); destruct fb; simpl;
        try (eapply given_up_outcome; eauto; by left); (split; [done|]; split; [done|]; exists false, d; split; [done|]; eauto).
    + eapply given_up_outcome; eauto.
Qed.

Lemma same_request role p s s' :
  (∀ fp, dict_get role AGNOSTIC_FALLBACK = Some fp → same_param fp s s') → same_param p s s' →
  request role p s = request role p s'.
Proof.
  intros Hf Hp. unfold request. rewrite (same_effective p s s') by done. destruct (truthy _); [done|].
  destruct (dict_get role AGNOSTIC_FALLBACK) as [fp|]; [|done]. cbn [mbind option_bind].
  by rewrite (same_env_or_self fp s s') by auto.
Qed.

(** Roles that do not interfere: no parameter or role twice, and no parameter a fallback. *)
Definition separate (l : list (string * string)) : Prop :=
  NoDup l.*1 ∧ NoDup l.*2 ∧ Forall (λ fp, fp ∉ l.*2) AGNOSTIC_FALLBACK.*2.
#[local] Instance separate_dec l : Decision (separate l).
Proof. unfold separate. apply _. Defined.

Definition resolution (cloud_ db_type : string) (l : list (string * string)) (s s' : sstate) (r : outcome sexn unit) : Prop :=
  sound s' ∧ (∀ k, k ∉ l.*2 → same_param k s s') ∧
  (∀ ρ, ρ ∉ l.*1 → dict_get ρ (resolved_arch s) = dict_get ρ (resolved_arch s')) ∧
  match r with
  | Ok _ => ∀ role p, (role, p) ∈ l → if skipped db_type role then effective p s' = effective p s else sized cloud_ role p s s'
  | Err e => ∃ role p, (role, p) ∈ l ∧ skipped db_type role = false ∧ at_fault cloud_ role p s e
  end.

Lemma role_step cloud_ db_type role p s : sound s →
  let '(s', r) := resolve_role catalog cloud_ db_type (role, p) s in
  sound s' ∧ frame role p s s' ∧
  (if skipped db_type role then r = Ok tt ∧ s' = s
   else match r with Ok _ => sized cloud_ role p s s' | Err e => at_fault cloud_ role p s e end).
Proof.
  intros Hs. destruct (skipped db_type role) eqn:Ek.
  { unfold resolve_role. fold (skipped db_type role). rewrite Ek. done. }
  rewrite resolve_role_request by done. destruct (request role p s) as [[fb d]|] eqn:Er.
  - by apply resolve_value_outcome.
  - split; [done|]. split; [done|]. unfold sized. by rewrite Er.
Qed.

Lemma sized_later cloud_ role p s s1 s2 : same_param p s1 s2 →
  dict_get role (resolved_arch s1) = dict_get role (resolved_arch s2) → sized cloud_ role p s s1 → sized cloud_ role p s s2.
Proof.
  intros Hp Ha. unfold sized. rewrite <-(same_effective p s1 s2) by done. rewrite <-Ha. done.
Qed.
Lemma sized_earlier cloud_ role p s s1 s2 : request role p s = request role p s1 → same_param p s s1 →
  sized cloud_ role p s1 s2 → sized cloud_ role p s s2.
Proof.
  intros Hr Hp. unfold sized. rewrite Hr. rewrite (same_effective p s s1), (same_get_from p s s1) by done. done.
Qed.

Lemma loop_spec cloud_ db_type l s : separate l → sound s →
  let '(s', r) := for_each l (resolve_role catalog cloud_ db_type) s in resolution cloud_ db_type l s s' r.
Proof.
  revert s. induction l as [|[role p] l IH]; intros s (Hn1 & Hn2 & Hf) Hs; rewrite Forall_forall in Hf.
  { split; [done|]. split; [done|]. split; [done|]. intros ? ? ?%not_elem_of_nil. done. }
  apply NoDup_cons in Hn1 as [Hr Hn1]. apply NoDup_cons in Hn2 as [Hp Hn2]. cbn [for_each]. unfold bind.
  pose proof (role_step cloud_ db_type role p s Hs) as Hstep.
  destruct (resolve_role catalog cloud_ db_type (role, p) s) as [s1 [[]|e]]; destruct Hstep as (Hs1 & [Hk Ha] & Hout).
  2: { split; [done|]. split; [intros k Hin; apply Hk; set_solver|]. split; [intros ρ Hin; apply Ha; set_solver|].
       destruct (skipped db_type role) eqn:Ek; [by destruct Hout|]. exists role, p. split; [left|done]. }
  assert (Hsep : separate l) by (split; [done|]; split; [done|];
    apply Forall_forall; intros fp Hfp; specialize (Hf fp Hfp); set_solver).
  specialize (IH s1 Hsep Hs1). destruct (for_each l (resolve_role catalog cloud_ db_type) s1) as [s2 r].
  destruct IH as (Hs2 & Hk2 & Ha2 & Hout2).
  assert (Hrole : ∀ role' p', (role', p') ∈ l → same_param p' s s1 ∧ request role' p' s = request role' p' s1).
  { intros role' p' Hin. assert (p' ∈ l.*2) by (apply list_elem_of_fmap; by exists (role', p')).
    assert (Hp' : same_param p' s s1) by (apply Hk; set_solver). split; [done|]. apply same_request; [|done].
    intros fp Hfp%dict_get_elem. apply Hk. assert (fp ∉ ((role, p) :: l).*2); [|set_solver].
    apply Hf, list_elem_of_fmap. by exists (role', fp). }
  split; [done|]. split; [intros k Hin; eapply same_param_trans; [apply Hk|apply Hk2]; set_solver|].
  split; [intros ρ Hin; rewrite Ha by set_solver; apply Ha2; set_solver|].
  destruct r as [[]|e].
  - intros role' p' [[= -> ->]|Hin]%elem_of_cons.
    + destruct (skipped db_type role); [destruct Hout as [_ ->]; symmetry; by apply same_effective, Hk2|].
      eapply sized_later; [by apply Hk2|by apply Ha2|done].
    + destruct (Hrole _ _ Hin) as [Hp' Hreq]. specialize (Hout2 _ _ Hin). destruct (skipped db_type role').
      * rewrite Hout2. symmetry. by apply same_effective.
      * by eapply sized_earlier.
  - destruct Hout2 as (role' & p' & Hin & Hsk & fb & d & Hreq & He). destruct (Hrole _ _ Hin) as [_ Hreq'].
    exists role', p'. split; [by right|]. split; [done|]. exists fb, d. split; [congruence|done].
Qed.

Lemma tables_separate cloud_ : separate (default [] (dict_get cloud_ SIZING_ROLE_PARAMS)).
Proof.
  assert (Forall (λ t, separate t.2) SIZING_ROLE_PARAMS) as Hall.
  { apply (bool_decide_unpack _). vm_compute. exact I. }
  destruct (dict_get cloud_ SIZING_ROLE_PARAMS) as [l|] eqn:E; simpl; [|apply (bool_decide_unpack _); vm_compute; exact I].
  apply dict_get_elem in E. rewrite Forall_forall in Hall. by apply (Hall _ E).
Qed.
End Resolved.

(** C38. The sizes of a configuration whose cache holds results of the matcher only. For a backend
    without a known cloud nothing changes. Otherwise, if the resolution returns, every role of the
    cloud that is in use stands as asked: one without constraints keeps its type; one with
    constraints of its own or a fallback has the type that the matcher gives for constraints with
    the same cache key, and the architecture of that type is recorded; a fallback that the matcher
    refuses, or constraints without a catalog, leave the value of the configuration. If it raises,
    a role in use has constraints at fault: a [ValueError] is for constraints of its own that the
    matcher refuses, never for a fallback. No other parameter changes, and the cache stays sound. *)
Theorem sizes_resolved catalog s : sound catalog s →
  let '(s', r) := _resolve_instance_sizes catalog s in
  match sizing_cloud s with
  | None => s' = s ∧ r = Ok tt
  | Some cloud_ =>
    resolution catalog cloud_ (as_text (env_or_self "db_type" s)) (default [] (dict_get cloud_ SIZING_ROLE_PARAMS)) s s' r
  end.
Proof.
  intros Hs. unfold _resolve_instance_sizes, bind, gets. destruct (sizing_cloud s) as [cloud_|]; [|done].
  apply loop_spec; [apply tables_separate|done].
Qed.

(** ** A configuration *)
Definition sample_config (db : list (string * raw)) (known : list (key * (string * string))) : sstate :=
  SState [("cluster_backend", SStr "aws"); ("instance_type_monitor", SStr "t3.large")]
    (Some [("instance_type_db", SDict db); ("sizing_loader", SDict [("vcpus", RInt 4); ("arch", RStr "arm")]);
           ("sizing_db_oracle", SDict [("vcpu", RInt 2)])]) known [].
Definition final (s : sstate) : sstate := (_resolve_instance_sizes (Ok sample_catalog) s).1.
Definition ends_well (s : sstate) : bool :=
  match (_resolve_instance_sizes (Ok sample_catalog) s).2 with Ok _ => true | Err _ => false end.

Lemma sizes_resolved_witness :
  let s := sample_config [("vcpu", RInt 4)] [] in
  ends_well s = true ∧ effective "instance_type_db" (final s) = SStr "i7i.xlarge" ∧
  sized (Ok sample_catalog) "aws" "loader" "instance_type_loader" s (final s).
Proof.
  intros s. assert (Hok : ends_well s = true) by (vm_compute; reflexivity).
  split; [done|]. split; [vm_compute; reflexivity|].
  assert (Hs : sound (Ok sample_catalog) s) by (intros k r [=]).
  pose proof (sizes_resolved (Ok sample_catalog) s Hs) as H. unfold ends_well in Hok. unfold final.
  destruct (_resolve_instance_sizes (Ok sample_catalog) s) as [s' [[]|e]]; [|discriminate Hok].
  destruct H as (_ & _ & _ & H). apply (H "loader"%string "instance_type_loader"%string). right. right. right. left.
Defined.

(** The key of the cache forgets the order of the constraints, which decides between two names of
    one field, and the type of a number, which decides whether it can be read: constraints that
    are refused on their own are resolved after others with the same key. *)
Example resolution_depends_on_cache :
  let first := [("vcpu", RInt 4); ("vcpus", RInt 8)] in
  let second := [("vcpus", RInt 8); ("vcpu", RInt 4)] in
  ends_well (sample_config second []) = false ∧
  effective "instance_type_db" (final (sample_config second (cache (final (sample_config first []))))) = SStr "i7i.xlarge" ∧
  ends_well (sample_config [("vcpu", RFloat (gb 4) "4.0")] []) = false ∧
  ends_well (sample_config [("vcpu", RFloat (gb 4) "4.0")] (cache (final (sample_config [("vcpu", RInt 4)] [])))) = true.
Proof. vm_compute. repeat split. Qed.

(** ** Spot or on demand *)

(** [explicit]: whether the parameter was set outside of the defaults. *)
Definition _apply_duration_based_provision_policy (explicit : bool) (p : params) : params :=
  let requested_auto := is_str (pget "instance_provision" p) "auto" in
  let use v := <["instance_provision" := VStr v]> p in
  let backend := pget "cluster_backend" p in
  if negb (is_str backend "aws" || is_str backend "gce" || is_str backend "azure") then
    if requested_auto then use "on_demand"%string else p
  else if negb requested_auto && explicit then p
  else
    let threshold := pget "spot_max_test_duration" p in
    let test_duration := effective_test_duration p in
    if negb (truthy threshold) || negb (truthy test_duration) then
      if requested_auto then use "on_demand"%string else p
    else
      let desired := if int_of threshold <? test_duration then "on_demand"%string else "spot"%string in
      let current := pget "instance_provision" p in
      if is_str current desired || String.eqb desired "spot" && is_str current "spot_fleet" then p else use desired.

Lemma pget_set k k' v p : pget k (<[k' := v]> p) = if decide (k = k') then v else pget k p.
Proof. unfold pget. case_decide as E; [subst; by rewrite lookup_insert_eq|by rewrite lookup_insert_ne]. Qed.

(** Whether the policy decides: on a backend with spot instances, asked for or not overridden, and
    with both durations known. *)
Definition decides (explicit : bool) (p : params) : bool :=
  existsb (is_str (pget "cluster_backend" p)) ["aws"; "gce"; "azure"]%string &&
  (is_str (pget "instance_provision" p) "auto" || negb explicit) &&
  truthy (pget "spot_max_test_duration" p) && truthy (effective_test_duration p).

Lemma is_str_eq v t : is_str v t = true → v = VStr t.
Proof. destruct v; simpl; try done. by intros ->%String.eqb_eq. Qed.

Lemma policy_duration_kept v p : effective_test_duration (<["instance_provision" := v]> p) = effective_test_duration p.
Proof. unfold effective_test_duration. by rewrite !pget_set, !decide_False. Qed.

(** What the policy sets [instance_provision] to, if anything. *)
Lemma policy_shape explicit p :
  let p' := _apply_duration_based_provision_policy explicit p in
  p' = p ∨ ∃ v, p' = <["instance_provision" := VStr v]> p.
Proof. unfold _apply_duration_based_provision_policy. cbv zeta. repeat case_match; eauto. Qed.

Lemma policy_outcome explicit p :
  let before := pget "instance_provision" p in
  let after := pget "instance_provision" (_apply_duration_based_provision_policy explicit p) in
  if decides explicit p then
    if int_of (pget "spot_max_test_duration" p) <? effective_test_duration p then after = VStr "on_demand"
    else after = VStr "spot" ∨ after = VStr "spot_fleet" ∧ before = VStr "spot_fleet"
  else after = if is_str before "auto" then VStr "on_demand" else before.
Proof.
  unfold _apply_duration_based_provision_policy, decides. cbn [existsb]. cbv zeta. rewrite orb_false_r, orb_assoc.
  assert (Hset : ∀ v, pget "instance_provision" (<["instance_provision" := v]> p) = v) by (intros; by rewrite pget_set, decide_True).
  destruct (is_str _ "aws" || _ || _); cbn [negb andb]; [|by destruct (is_str _ "auto")].
  destruct (is_str (pget "instance_provision" p) "auto") eqn:Ea; destruct explicit; cbn [negb andb orb]; try done;
    destruct (truthy (pget "spot_max_test_duration" p)), (truthy (effective_test_duration p)); cbn [negb andb orb]; try done;
    destruct (_ <? _); cbn [String.eqb Ascii.eqb Bool.eqb andb];
    repeat (case_match; simplify_eq); rewrite ?Hset; eauto;
    repeat match goal with H : is_str _ _ || _ = true |- _ => apply orb_true_iff in H as [H|H] end;
    repeat match goal with H : _ && is_str _ _ = true |- _ => apply andb_true_iff in H as [H ?] end; try done; eauto using is_str_eq.
Qed.

Lemma decides_kept explicit p v : is_str v "auto" = false →
  decides explicit (<["instance_provision" := v]> p) = true → decides explicit p = true.
Proof.
  intros Hv. unfold decides. rewrite policy_duration_kept, !pget_set, !(decide_False (P := _ = "instance_provision"%string)) by done.
  rewrite decide_True, Hv, !andb_true_iff, !orb_true_iff by done. intros [[[? [?|?]] ?] ?]; [done|auto].
Qed.

Lemma policy_keeps explicit p : is_str (pget "instance_provision" p) "auto" = false →
  (decides explicit p = true →
   if int_of (pget "spot_max_test_duration" p) <? effective_test_duration p then pget "instance_provision" p = VStr "on_demand"
   else pget "instance_provision" p = VStr "spot" ∨ pget "instance_provision" p = VStr "spot_fleet") →
  _apply_duration_based_provision_policy explicit p = p.
Proof.
  unfold _apply_duration_based_provision_policy, decides. cbn [existsb]. cbv zeta. rewrite orb_false_r, orb_assoc.
  intros ->. destruct (is_str _ "aws" || _ || _); cbn [negb andb orb]; [|done]. destruct explicit; cbn [negb andb orb]; [done|].
  destruct (truthy (pget "spot_max_test_duration" p)), (truthy (effective_test_duration p)); cbn [negb andb orb]; try done.
  intros Hd. specialize (Hd eq_refl). destruct (_ <? _); [by rewrite Hd|]. by destruct Hd as [->| ->].
Qed.

Lemma policy_settled explicit p :
  let p' := _apply_duration_based_provision_policy explicit p in
  is_str (pget "instance_provision" p') "auto" = false → _apply_duration_based_provision_policy explicit p' = p'.
Proof.
  cbv zeta. intros Hauto. pose proof (policy_outcome explicit p) as Hout. cbv zeta in Hout. apply policy_keeps; [done|].
  destruct (policy_shape explicit p) as [E|[v E]]; rewrite E in *; intros Hd.
  - rewrite Hd in Hout. destruct (_ <? _); tauto.
  - rewrite pget_set, decide_True in Hauto by done. rewrite (decides_kept _ _ _ Hauto Hd) in Hout.
    rewrite policy_duration_kept, (pget_set "spot_max_test_duration"), decide_False by done. destruct (_ <? _); tauto.
Qed.

(** The policy changes [instance_provision] only, and ['auto'] never survives it. Where it
    decides, the provisioning is on demand exactly if the effective duration is above the
    threshold, and otherwise spot, or the spot fleet that was there. Where it does not, ['auto']
    becomes on demand and any other value stays. A second application changes nothing. *)
Theorem provision_follows_duration explicit p :
  let p' := _apply_duration_based_provision_policy explicit p in
  let before := pget "instance_provision" p in
  let after := pget "instance_provision" p' in
  (∀ k, k ≠ "instance_provision"%string → pget k p' = pget k p) ∧ is_str after "auto" = false ∧
  (if decides explicit p then
     if int_of (pget "spot_max_test_duration" p) <? effective_test_duration p then after = VStr "on_demand"
     else after = VStr "spot" ∨ after = VStr "spot_fleet" ∧ before = VStr "spot_fleet"
   else after = if is_str before "auto" then VStr "on_demand" else before) ∧
  _apply_duration_based_provision_policy explicit p' = p'.
Proof.
  cbv zeta. pose proof (policy_outcome explicit p) as Hout. cbv zeta in Hout.
  assert (Hauto : is_str (pget "instance_provision" (_apply_duration_based_provision_policy explicit p)) "auto" = false).
  { destruct (decides explicit p); [destruct (_ <? _); [by rewrite Hout|by destruct Hout as [->|[-> _]]]|].
    rewrite Hout. by destruct (is_str (pget "instance_provision" p) "auto") eqn:Ea. }
  split; [|split; [done|split; [done|]]].
  - intros k Hk. destruct (policy_shape explicit p) as [->|[v ->]]; [done|]. by rewrite pget_set, decide_False.
  - by apply policy_settled.
Qed.
End Sizing.
