(* ===== verification/ConfigLoading.v ===== *)
(** * Loading a configuration

    Model of how [SCTConfiguration] gets its values: the converters of
    [sdcm/sct_config/types.py], the variables of the environment with their nested keys
    ([sdcm/utils/nested_env_key.py], [_load_environment_variables] of
    [sdcm/sct_config/config.py]), the merge with its [++] syntax ([sdcm/sct_config/helpers.py]),
    the layers of [SCTConfiguration.__init__], and the keystore variables that a configuration
    exports for the rest of the process.

    Values are those of YAML and JSON ([json] of [PyJson]). Arguments are [ast.literal_eval],
    [yaml.safe_load], [anyconfig.merge], and the check that pydantic makes of a value after its
    converter. *)
From Stdlib Require Import Ascii String ZArith Lia.
From stdpp Require Import base decidable option strings numbers list gmap.
From S2P Require Import Prelude.
From S2P Require Import PyString.
From S2P Require Import PyInt.
From S2P Require Import PyDict.
From S2P Require Import PyJson.
Local Open Scope py_scope.
Local Open Scope Z_scope.

Module ConfigLoading.

Inductive cerr : Type := ValueError | SyntaxError | TypeError | AssertionError | OtherError.

(** ** Converters *)
Definition _TRUTHY : list string := ["y"; "yes"; "t"; "true"; "on"; "1"]%string.
Definition _FALSY : list string := ["n"; "no"; "f"; "false"; "off"; "0"]%string.
Definition strtobool (value : string) : outcome cerr bool :=
  let normalised := lower (strip value) in
  if existsb (String.eqb normalised) _TRUTHY then Ok true
  else if existsb (String.eqb normalised) _FALSY then Ok false
  else Err ValueError.

Definition _str (value : json) : outcome cerr json :=
  match value with JNull | JStr _ => Ok value | _ => Err ValueError end.
Definition _boolean (value : json) : outcome cerr json :=
  match value with
  | JNull | JBool _ => Ok value
  | JStr s => try! b := strtobool s in Ok (JBool b)
  | _ => Err ValueError
  end.

Definition is_text (v : json) : bool := match v with JStr _ => true | _ => false end.
Definition is_whole (v : json) : bool := match v with JInt _ => true | _ => false end.

Definition positive_int_or_none (value : json) : outcome cerr json :=
  match value with
  | JNull => Ok JNull
  | JInt n => if 1 <=? n then Ok value else Err ValueError
  | JStr s =>
    if negb (truthy (strip s)) then Ok JNull
    else match py_int (strip s) with
         | Some n => if 1 <=? n then Ok (JInt n) else Err ValueError
         | None => Err ValueError
         end
  | _ => Err ValueError
  end.

Section Converters.
Context (literal_eval safe_load : string → outcome cerr json).

Definition list_of_texts (l : list json) : outcome cerr json :=
  if forallb is_text l then Ok (JList l) else Err ValueError.
Definition str_or_list_or_eval (value : json) : outcome cerr json :=
  match value with
  | JNull => Ok JNull
  | JStr s =>
    match literal_eval (strip s) with
    | Err ValueError | Err SyntaxError => Ok (JList (if truthy s then [JStr s] else []))
    | Err x => Err x
    | Ok (JStr parsed) => Ok (JList (if truthy parsed then [JStr parsed] else []))
    | Ok (JList l) => list_of_texts l
    | Ok _ => Err ValueError
    end
  | JList l => list_of_texts l
  | _ => Err ValueError
  end.

Definition list_of_wholes (l : list json) : outcome cerr json :=
  if forallb is_whole l then Ok (JList l) else Err ValueError.
Definition int_or_list_or_eval (value : json) : outcome cerr json :=
  match value with
  | JNull => Ok JNull
  | JInt _ => Ok (JList [value])
  | JList l => list_of_wholes l
  | JStr s =>
    match literal_eval (strip s) with
    | Ok (JList l) => list_of_wholes l
    | Ok (JInt n) => Ok (JList [JInt n])
    | Ok _ | Err ValueError | Err SyntaxError => Err ValueError
    | Err x => Err x
    end
  | _ => Err ValueError
  end.

Definition dict_or_str (value : json) : outcome cerr json :=
  match value with
  | JNull => Ok JNull
  | JStr s =>
    match literal_eval s with
    | Ok (JObj d) => Ok (JObj d)
    | _ => match safe_load s with Ok (JObj d) => Ok (JObj d) | _ => Err ValueError end
    end
  | JObj _ => Ok value
  | _ => Err ValueError
  end.

(** Of values that are not pydantic models. *)
Definition dict_or_str_or_pydantic (value : json) : outcome cerr json :=
  match value with
  | JNull => Ok JNull
  | JStr s => match literal_eval s with Ok v => Ok v | Err _ => Err ValueError end
  | JObj _ => Ok value
  | _ => Err ValueError
  end.

Inductive converter : Type := String_ | StringOrList | IntOrList | OptionalPositiveInt | DictOrStr | DictOrStrOrPydantic | Boolean.
Definition convert (c : converter) : json → outcome cerr json :=
  match c with
  | String_ => _str | StringOrList => str_or_list_or_eval | IntOrList => int_or_list_or_eval
  | OptionalPositiveInt => positive_int_or_none | DictOrStr => dict_or_str
  | DictOrStrOrPydantic => dict_or_str_or_pydantic | Boolean => _boolean
  end.
End Converters.

(** ** Names of variables *)
Definition upper_char (c : ascii) : ascii :=
  if char_in "a" "z" c then ascii_of_nat (nat_of_ascii c - 32) else c.
Definition upper (s : string) : string := map_chars upper_char s.

(** [s.split(sep, maxsplit=1)[0]] *)
Fixpoint before (sep s : string) : string :=
  if startswith sep s then EmptyString
  else match s with EmptyString => EmptyString | String c s' => String c (before sep s') end.

Definition NESTED_ENV_SEPARATORS : list string := ["."; "__"]%string.
Definition nested_env_subkey (env_key prefix sep : string) : option string :=
  let full_prefix := prefix +:+ sep in
  if startswith full_prefix env_key then Some (before sep (str_drop (String.length full_prefix) env_key)) else None.

Definition _nested_env_subkey (env_key field_env sep : string) : option string :=
  sub_key ← nested_env_subkey env_key field_env sep;
  Some (if String.eqb sep "__" then lower sub_key else sub_key).

(** [key.find(sep)] *)
Fixpoint find (sep key : string) (pos : nat) : option nat :=
  if startswith sep key then Some pos
  else match key with EmptyString => None | String _ key' => find sep key' (S pos) end.
Fixpoint earliest (separators : list string) (key : string) (sep : option (nat * nat)) : option (nat * nat) :=
  match separators with
  | [] => sep
  | s :: separators' =>
    earliest separators' key
      (match find s key 0, sep with
       | Some pos, None => Some (pos, String.length s)
       | Some pos, Some (sep_pos, _) => if (pos <? sep_pos)%nat then Some (pos, String.length s) else sep
       | None, _ => sep
       end)
  end.
Definition split_earliest_nested_key (key : string) (separators : list string) : option (string * string) :=
  '(sep_pos, sep_len) ← earliest separators key None;
  Some (String.substring 0 sep_pos key, str_drop (sep_pos + sep_len) key).

(** ** Variables of the environment *)

(** A field of the model: what it is declared with. *)
Record model_field := Field {
  field_name : string; exclude : bool; is_ignored_field : bool; before_validator : option converter; appendable : bool
}.

Abbreviation environ := (list (string * string)).

Definition _is_self_exported_keystore_env (env exported : environ) (env_name : string) : bool :=
  match dict_get env_name exported with
  | Some v => match dict_get env_name env with Some v' => String.eqb v' v | None => false end
  | None => false
  end.

(** [l.insert(i, x)] for an index that is not negative. *)
Definition py_insert {A} (i : nat) (x : A) (l : list A) : list A := take i l ++ x :: drop i l.

(** [d.update(d')] *)
Definition dict_update (d d' : list (string * json)) : list (string * json) := foldl (λ d kv, dict_set kv.1 kv.2 d) d d'.

Definition nested_keys (env : environ) (field_env : string) : list (string * string) :=
  mjoin ((λ sep, omap (λ kv, sub_key ← _nested_env_subkey kv.1 field_env sep; Some (kv.1, sub_key)) env) <$> NESTED_ENV_SEPARATORS).

(** One nested variable into the list or the dictionary that is being built. *)
Definition add_nested (env : environ) (acc : list json * list (string * json)) (kn : string * string)
    : list json * list (string * json) :=
  let '(key, nest_key) := kn in
  let nested_value := JStr (strip (default EmptyString (dict_get key env))) in
  if isdigit nest_key then (py_insert (Z.to_nat (int_of_digits nest_key)) nested_value acc.1, acc.2)
  else (acc.1, dict_set nest_key nested_value acc.2).

Definition with_nested (env : environ) (name : string) (keys : list (string * string)) (vars : list (string * json))
    : list (string * json) :=
  match keys with
  | [] => vars
  | _ =>
    let '(list_value, dict_value) := foldl (add_nested env) ([], []) keys in
    match dict_get name vars with
    | Some (JObj ((_ :: _) as current_value)) => dict_set name (JObj (dict_update current_value dict_value)) vars
    | _ => dict_set name (match list_value with [] => JObj dict_value | _ => JList list_value end) vars
    end
  end.

Section Environment.
Context (literal_eval safe_load : string → outcome cerr json) (fields : list model_field).

Definition from_env_func (f : model_field) (raw : json) : outcome cerr json :=
  match before_validator f with Some c => convert literal_eval safe_load c raw | None => Ok raw end.

Definition env_name (f : model_field) : string := "SCT_" +:+ upper (field_name f).
Definition read_field (env : environ) (vars : list (string * json)) (f : model_field) : outcome cerr (list (string * json)) :=
  let field_env := env_name f in
  try! vars :=
    match dict_get field_env env with
    | None => Ok vars
    | Some raw_value =>
      match from_env_func f (JStr (strip raw_value)) with
      | Ok v => Ok (dict_set (field_name f) v vars)
      | Err _ => Err ValueError
      end
    end in
  Ok (with_nested env (field_name f) (nested_keys env field_env) vars).
Definition load_field (env exported : environ) (vars : list (string * json)) (f : model_field)
    : outcome cerr (list (string * json)) :=
  if exclude f || is_ignored_field f then Ok vars
  else if _is_self_exported_keystore_env env exported (env_name f) then Ok vars
  else if existsb (λ kv, startswith (env_name f) kv.1) env then read_field env vars f
  else Ok vars.

Fixpoint load_fields (env exported : environ) (fs : list model_field) (vars : list (string * json))
    : outcome cerr (list (string * json)) :=
  match fs with
  | [] => Ok vars
  | f :: fs' => try! vars := load_field env exported vars f in load_fields env exported fs' vars
  end.
Definition _load_environment_variables (env exported : environ) : outcome cerr (list (string * json)) :=
  load_fields env exported fields [].

(** ** Merging *)
Abbreviation config := (gmap string json).

Definition is_config_option_appendable (option_name : string) : outcome cerr bool :=
  match List.find (λ f, negb (is_ignored_field f) && String.eqb (field_name f) option_name) fields with
  | Some f => Ok (appendable f)
  | None => Err ValueError
  end.

(** What pydantic makes of a value after its converter, and [anyconfig.merge] with [MS_DICTS]. *)
Context (core : string → json → outcome cerr json) (ac_merge : config → list (string * json) → outcome cerr config).

Definition validate (k : string) (v : json) : outcome cerr json :=
  match List.find (λ f, String.eqb (field_name f) k) fields with
  | Some f => try! v := from_env_func f v in core k v
  | None => core k v
  end.
Definition setitem (k : string) (v : json) (d1 : config) : outcome cerr config :=
  match d1 !! k with None => Err ValueError | Some _ => try! v := validate k v in Ok (<[k := v]> d1) end.
Definition getitem (k : string) (d1 : config) : outcome cerr json :=
  match d1 !! k with Some v => Ok v | None => Err ValueError end.

(** [a += s] for a text [s]: a list is extended by its characters. *)
Definition iadd (a : json) (s : string) : outcome cerr json :=
  match a with
  | JStr a => Ok (JStr (a +:+ s))
  | JList l => Ok (JList (l ++ ((λ c, JStr (String c EmptyString)) <$> list_ascii_of_string s)))
  | _ => Err TypeError
  end.

Definition init_if_none (k : string) (empty : json) (d1 : config) : outcome cerr config :=
  match d1 !! k with None | Some JNull => setitem k empty d1 | _ => Ok d1 end.
Definition assert_appendable (k : string) : outcome cerr unit :=
  try! b := is_config_option_appendable k in if (b : bool) then Ok tt else Err AssertionError.

Definition append_value (key : string) (value : json) (d1 : config) (d2 : list (string * json))
    : outcome cerr (config * list (string * json)) :=
  match value with
  | JStr s =>
    if startswith "++" s then
      try! _ := assert_appendable key in
      try! d1 := init_if_none key (JStr EmptyString) d1 in
      try! cur := getitem key d1 in
      try! new := iadd cur (str_drop 2 s) in
      try! d1 := setitem key new d1 in
      Ok (d1, dict_del key d2)
    else Ok (d1, d2)
  | JList (JStr s :: rest) =>
    if startswith "++" s then
      try! _ := assert_appendable key in
      try! d1 := init_if_none key (JList []) d1 in
      try! cur := getitem key d1 in
      match cur with
      | JList l => Ok (<[key := JList (l ++ rest)]> d1, dict_del key d2)
      | _ => Err OtherError
      end
    else Ok (d1, d2)
  | _ => Ok (d1, d2)
  end.
Fixpoint append_values (items : list (string * json)) (d1 : config) (d2 : list (string * json))
    : outcome cerr (config * list (string * json)) :=
  match items with
  | [] => Ok (d1, d2)
  | (key, value) :: items' => try! r := append_value key value d1 d2 in append_values items' r.1 r.2
  end.
Definition merge_dicts_append_strings (d1 : config) (d2 : list (string * json)) : outcome cerr config :=
  try! r := append_values d2 d1 d2 in ac_merge r.1 r.2.

(** ** Layers *)

Definition aws_supported_regions : list string :=
  ["eu-west-1"; "eu-west-2"; "eu-west-3"; "us-west-2"; "us-east-1"; "us-east-2"; "eu-north-1"; "eu-central-1"; "ca-central-1"]%string.

(** [self.get] joins a list of regions by blanks, which splits into the same names. *)
Definition region_names (env : list (string * json)) (self : config) : outcome cerr (list string) :=
  let names := match dict_get "region_name"%string env with
               | None | Some JNull => default JNull (self !! "region_name"%string)
               | Some v => v
               end in
  match names with
  | JNull => Ok []
  | JStr s => Ok (mjoin (split_ws <$> split_ws s))
  | JList l => if forallb is_text l then Ok (mjoin ((λ v, match v with JStr s => split_ws s | _ => [] end) <$> l)) else Err OtherError
  | _ => Err TypeError
  end.

(** The data of regions: a configuration has no [__delitem__], so it cannot be loaded with any. *)
Definition load_region_data (self : config) (env : list (string * json)) : outcome cerr unit :=
  if truthy (default JNull (self !! "regions_data"%string)) then Err TypeError
  else
    let cluster_backend := default (default JNull (self !! "cluster_backend"%string)) (dict_get "cluster_backend"%string env) in
    try! names := region_names env self in
    if match cluster_backend with JStr b => existsb (String.eqb b) ["aws"; "aws-siren"; "k8s-eks"]%string | _ => false end
    then if forallb (λ r, existsb (String.eqb r) aws_supported_regions) names then Ok tt else Err ValueError
    else Ok tt.

(** The values of the configuration after the defaults, the user's files if there are any, and the
    environment. Sizes are resolved before the last step, in the configuration and in what the
    environment gives; here that is an argument. *)
Definition load_layers (resolve_sizes : config → list (string * json) → outcome cerr (config * list (string * json)))
    (self : config) (defaults : list (string * json)) (files : option (list (string * json))) (env : list (string * json))
    : outcome cerr config :=
  try! self := merge_dicts_append_strings self defaults in
  try! self := match files with None => Ok self | Some files => merge_dicts_append_strings self files end in
  try! _ := load_region_data self env in
  try! r := resolve_sizes self env in
  merge_dicts_append_strings r.1 r.2.

Definition _explicitly_set_params (files : option (list (string * json))) (env : list (string * json)) : list string :=
  (default [] files).*1 ++ env.*1.
Definition is_explicitly_set (files : option (list (string * json))) (env : list (string * json)) (param_name : string) : bool :=
  existsb (String.eqb param_name) (_explicitly_set_params files env).
End Environment.

(** ** Keystore variables *)

(** The environment of the process, and what configurations exported into it. *)
Record process := Process { environment : environ; _KEYSTORE_ENV_EXPORTED : environ }.

Definition keystore_params : list string := ["keystore_backend"; "keystore_sm_prefix"; "keystore_sm_region"]%string.
(** The three parameters are texts or not set. *)
Definition propagate_param (get : string → option string) (p : process) (param : string) : process :=
  let env_name := "SCT_" +:+ upper param in
  let '(Process env exported) := p in
  match get param with
  | None | Some EmptyString => p
  | Some value =>
    if negb (dict_in env_name env) || _is_self_exported_keystore_env env exported env_name
    then Process (dict_set env_name value env) (dict_set env_name value exported)
    else Process env (dict_del env_name exported)
  end.

Definition _propagate_keystore_env (p : process) (get : string → option string) : process :=
  foldl (propagate_param get) p keystore_params.

(** ** What converters give *)
Definition has_type (c : converter) (v : json) : Prop :=
  v = JNull ∨
  match c with
  | String_ => ∃ s, v = JStr s
  | StringOrList => ∃ l, v = JList l ∧ Forall (λ x, ∃ s, x = JStr s) l
  | IntOrList => ∃ l, v = JList l ∧ Forall (λ x, ∃ z, x = JInt z) l
  | OptionalPositiveInt => ∃ z, v = JInt z ∧ 1 <= z
  | DictOrStr => ∃ d, v = JObj d
  | Boolean => ∃ b, v = JBool b
  | DictOrStrOrPydantic => True
  end.

Lemma forallb_Forall {A} (f : A → bool) (P : A → Prop) l : (∀ x, f x = true ↔ P x) → forallb f l = true ↔ Forall P l.
Proof.
  intros Hf. induction l as [|x l IH]; simpl; [by rewrite Forall_nil|]. by rewrite andb_true_iff, Forall_cons, Hf, IH.
Qed.
Lemma texts_spec l : forallb is_text l = true ↔ Forall (λ x, ∃ s, x = JStr s) l.
Proof. apply forallb_Forall. intros []; naive_solver. Qed.
Lemma wholes_spec l : forallb is_whole l = true ↔ Forall (λ x, ∃ z, x = JInt z) l.
Proof. apply forallb_Forall. intros []; naive_solver. Qed.

Lemma list_of_texts_ok l w : list_of_texts l = Ok w → has_type StringOrList w.
Proof.
  unfold list_of_texts. destruct (forallb is_text l) eqn:E; [|done]. intros [= <-]. right. exists l. by rewrite <-texts_spec.
Qed.
Lemma list_of_wholes_ok l w : list_of_wholes l = Ok w → has_type IntOrList w.
Proof.
  unfold list_of_wholes. destruct (forallb is_whole l) eqn:E; [|done]. intros [= <-]. right. exists l. by rewrite <-wholes_spec.
Qed.
Lemma one_text_ok s w : Ok (E := cerr) (JList (if truthy s then [JStr s] else [])) = Ok w → has_type StringOrList w.
Proof. intros [= <-]. right. eexists. split; [done|]. destruct (truthy s); repeat constructor; eauto. Qed.

Section Typed.
Context (literal_eval safe_load : string → outcome cerr json).

Lemma str_or_list_typed v w : str_or_list_or_eval literal_eval v = Ok w → has_type StringOrList w.
Proof.
  destruct v as [| | | |s|l|]; simpl; try done; [intros [= <-]; by left| |apply list_of_texts_ok].
  destruct (literal_eval (strip s)) as [[| | | |t|l|]|[]]; try done; eauto using one_text_ok, list_of_texts_ok.
Qed.
Lemma int_or_list_typed v w : int_or_list_or_eval literal_eval v = Ok w → has_type IntOrList w.
Proof.
  assert (Hone : ∀ z, Ok (E := cerr) (JList [JInt z]) = Ok w → has_type IntOrList w).
  { intros z [= <-]. right. eexists. split; [done|]. repeat constructor; eauto. }
  destruct v as [| |z| |s|l|]; simpl; try done; [intros [= <-]; by left|by apply Hone| |apply list_of_wholes_ok].
  destruct (literal_eval (strip s)) as [[| |z| | |l|]|[]]; try done; [apply Hone|apply list_of_wholes_ok].
Qed.
Lemma positive_typed v w : positive_int_or_none v = Ok w → has_type OptionalPositiveInt w.
Proof.
  assert (Hone : ∀ z, (if 1 <=? z then Ok (JInt z) else Err ValueError) = Ok w → has_type OptionalPositiveInt w).
  { intros z. destruct (Z.leb_spec 1 z); [|done]. intros [= <-]. right. eauto. }
  destruct v as [| |z| |s| |]; simpl; try done; [intros [= <-]; by left|apply Hone|].
  destruct (truthy (strip s)); simpl; [|intros [= <-]; by left]. destruct (py_int (strip s)); [apply Hone|done].
Qed.

Lemma typed_fixed c v : c ≠ DictOrStrOrPydantic → has_type c v → convert literal_eval safe_load c v = Ok v.
Proof.
  intros Hc [->|H]; [by destruct c|].
  destruct c; simpl in H; try done; try (by destruct H as [? ->]).
  - destruct H as (l & -> & Hl). simpl. unfold list_of_texts. by rewrite (proj2 (texts_spec l) Hl).
  - destruct H as (l & -> & Hl). simpl. unfold list_of_wholes. by rewrite (proj2 (wholes_spec l) Hl).
  - destruct H as (z & -> & Hz). simpl. by rewrite (proj2 (Z.leb_le 1 z) Hz).
Qed.

Lemma convert_types c v w : convert literal_eval safe_load c v = Ok w → has_type c w.
Proof.
  destruct c; simpl; [| apply str_or_list_typed|apply int_or_list_typed|apply positive_typed| | |].
  - destruct v; simpl; try done; intros [= <-]; [by left|right; eauto].
  - destruct v as [| | | |s| |]; simpl; try done; [intros [= <-]; by left| |intros [= <-]; right; eauto].
    destruct (literal_eval s) as [[]|]; destruct (safe_load s) as [[]|]; try done; intros [= <-]; right; eauto.
  - by right.
  - destruct v as [|b| | |s| |]; simpl; try done; [intros [= <-]; by left|intros [= <-]; right; eauto|].
    destruct (strtobool s); simpl; [|done]. intros [= <-]. right. eauto.
Qed.
End Typed.

Lemma convert_null literal_eval safe_load c v : c ≠ DictOrStrOrPydantic →
  convert literal_eval safe_load c v = Ok JNull ↔ v = JNull ∨ c = OptionalPositiveInt ∧ ∃ s, v = JStr s ∧ strip s = EmptyString.
Proof.
  intros Hc. split.
  - assert (∀ l, list_of_texts l ≠ Ok JNull) by (intros l; unfold list_of_texts; by destruct (forallb _ _)).
    assert (∀ l, list_of_wholes l ≠ Ok JNull) by (intros l; unfold list_of_wholes; by destruct (forallb _ _)).
    destruct c, v as [| | | |s| |]; cbn [convert]; try done; try (by left); try (by intros ?%H); try (by intros ?%H0).
    + cbn. destruct (literal_eval (strip s)) as [[]|[]]; try done; by intros ?%H.
    + cbn. destruct (literal_eval (strip s)) as [[]|[]]; try done; by intros ?%H0.
    + cbn. by destruct (1 <=? z)%Z.
    + cbn. destruct (strip s) as [|a t] eqn:E; cbn [truthy truthy_string negb]; [by eauto 6|].
      destruct (py_int _); [|done]. by destruct (1 <=? z)%Z.
    + cbn. destruct (literal_eval s) as [[]|]; destruct (safe_load s) as [[]|]; done.
    + cbn. by destruct (strtobool s).
  - intros [->|(-> & s & -> & Hs)]; [by destruct c|]. cbn. by rewrite Hs.
Qed.

(** C37. The converters of configuration values except the one for models of pydantic, whatever
    [ast.literal_eval] and [yaml.safe_load] read: a value that a converter gives has the type it is
    for (a text, a list of texts only, a list of integers only, an integer from 1, a mapping, a
    boolean) or is [None], and it is [None] exactly for [None] and, where a positive integer is
    expected, for a blank text; the values of that type are exactly those it leaves as they are, so
    converting again changes nothing. *)
Theorem converters_typed literal_eval safe_load c v w : c ≠ DictOrStrOrPydantic →
  convert literal_eval safe_load c v = Ok w →
  has_type c w ∧ (w = JNull ↔ v = JNull ∨ c = OptionalPositiveInt ∧ ∃ s, v = JStr s ∧ strip s = EmptyString) ∧
  convert literal_eval safe_load c w = Ok w ∧ (has_type c v ↔ v = w).
Proof.
  intros Hc Hv. pose proof (convert_types _ _ _ _ _ Hv) as Hw. split; [done|]. split.
  { rewrite <-(convert_null literal_eval safe_load c v Hc), Hv. split; [by intros ->|by intros [= ->]]. }
  split; [by apply typed_fixed|].
  split; [|by intros ->]. intros H. apply (typed_fixed literal_eval safe_load) in H; [|done]. congruence.
Qed.

(** A reader of literals that reads one text. *)
Definition read_one (t : string) (v : json) (s : string) : outcome cerr json := if String.eqb s t then Ok v else Err SyntaxError.

Lemma converters_typed_witness :
  let w := JList [JInt 3; JInt 1] in
  convert (read_one "[3, 1]" w) (read_one "x" JNull) IntOrList (JStr " [3, 1] ") = Ok w ∧ has_type IntOrList w.
Proof.
  intros w.
  assert (H : convert (read_one "[3, 1]" w) (read_one "x" JNull) IntOrList (JStr " [3, 1] ") = Ok w) by (vm_compute; reflexivity).
  split; [exact H|]. apply (converters_typed (read_one "[3, 1]" w) (read_one "x" JNull) IntOrList _ _ ltac:(discriminate) H).
Defined.

(** ** Which variables a field reads *)

(** The variable of a field, and those with a nested key. *)
Definition claims (field_env key : string) : bool :=
  String.eqb key field_env || existsb (λ sep, startswith (field_env +:+ sep) key) NESTED_ENV_SEPARATORS.

(** Names without a separator, and without an underscore at their end. *)
Fixpoint clean (s : string) : bool :=
  match s with
  | EmptyString => true
  | String c s' =>
    negb (Ascii.eqb c ".") &&
    (negb (Ascii.eqb c "_") || match s' with String d _ => negb (Ascii.eqb d "_") | EmptyString => false end) && clean s'
  end.

Lemma before_dot f t : clean f = true → before "." (f +:+ t) = f +:+ before "." t.
Proof.
  induction f as [|c f IH]; [done|]. cbn [clean]. rewrite !andb_true_iff. intros [[Hc _] Hf].
  change (String c f +:+ t) with (String c (f +:+ t)). cbn [before startswith].
  apply negb_true_iff in Hc. rewrite Ascii.eqb_sym in Hc. rewrite Hc. simpl. by rewrite (IH Hf).
Qed.
Lemma before_underscores f t : clean f = true → before "__" (f +:+ t) = f +:+ before "__" t.
Proof.
  induction f as [|c f IH]; [done|]. cbn [clean]. rewrite !andb_true_iff. intros [[_ Hc] Hf].
  change (String c f +:+ t) with (String c (f +:+ t)). cbn [before].
  assert (Hno : startswith "__" (String c (f +:+ t)) = false); [|by rewrite Hno, (IH Hf)].
  cbn [startswith]. rewrite (Ascii.eqb_sym "_" c). destruct (Ascii.eqb c "_"); [|done]. simpl in Hc.
  destruct f as [|d f]; [done|]. change (String d f +:+ t) with (String d (f +:+ t)). cbn [startswith].
  apply negb_true_iff in Hc. by rewrite Ascii.eqb_sym, Hc.
Qed.

(** The name of the field that a variable belongs to. *)
Definition owner (key : string) : string := before "." (before "__" key).

Lemma claims_owner f key : clean f = true → claims f key = true → owner key = f.
Proof.
  intros Hf. unfold claims, owner. rewrite orb_true_iff. intros [->%String.eqb_eq|H].
  { rewrite <-(str_app_nil f) at 1. rewrite before_underscores, before_dot by done. apply str_app_nil. }
  cbn [existsb NESTED_ENV_SEPARATORS] in H. rewrite orb_false_r, orb_true_iff, !startswith_spec in H.
  destruct H as [[t ->]|[t ->]]; rewrite str_app_assoc, before_underscores by done.
  - change ("." +:+ t) with (String "." t). cbn [before startswith]. rewrite before_dot by done. apply str_app_nil.
  - change ("__" +:+ t) with (String "_" (String "_" t)). cbn. rewrite str_app_nil.
    rewrite <-(str_app_nil f) at 1. rewrite before_dot by done. apply str_app_nil.
Qed.

Definition claimed (field_env : string) (env : environ) : environ := filter (λ kv, claims field_env kv.1 = true) env.

Lemma dict_get_claimed f key env : claims f key = true → dict_get key (claimed f env) = dict_get key env.
Proof.
  intros Hk. unfold claimed. induction env as [|[k v] env IH]; [done|]. rewrite filter_cons. cbn [dict_get].
  destruct (decide (key = k)) as [<-|Hne]; case_decide as Hd; try done; cbn [dict_get]; [by rewrite decide_True|by rewrite decide_False].
Qed.

Lemma subkey_claims f sep key sub : sep ∈ NESTED_ENV_SEPARATORS → _nested_env_subkey key f sep = Some sub → claims f key = true.
Proof.
  intros Hsep. unfold _nested_env_subkey, nested_env_subkey. destruct (startswith (f +:+ sep) key) eqn:E; [|done]. intros _.
  unfold claims. apply orb_true_iff. right. apply existsb_exists. exists sep. split; [by apply list_elem_of_In|done].
Qed.

Lemma omap_filter {A B} (g : A → option B) (P : A → Prop) `{∀ x, Decision (P x)} (l : list A) :
  (∀ x, is_Some (g x) → P x) → omap g (filter P l) = omap g l.
Proof.
  intros Hg. induction l as [|x l IH]; [done|]. rewrite filter_cons. case_decide as Hd; cbn; [by rewrite IH|].
  destruct (g x) eqn:E; [|done]. destruct Hd. apply Hg. rewrite E. eauto.
Qed.

Lemma nested_keys_claimed f env : nested_keys (claimed f env) f = nested_keys env f.
Proof.
  unfold nested_keys. f_equal. apply list_fmap_ext. intros i sep Hsep. apply omap_filter.
  intros [k v] [x Hx]. simpl in *. destruct (_nested_env_subkey k f sep) as [sub|] eqn:E; [|done].
  eapply subkey_claims; [by eapply list_elem_of_lookup_2|done].
Qed.
Lemma nested_keys_own f env : Forall (λ kn, claims f kn.1 = true) (nested_keys env f).
Proof.
  apply Forall_forall. intros [k n] Hin. unfold nested_keys in Hin.
  apply list_elem_of_join in Hin as (l & Hkn & Hl). apply list_elem_of_fmap in Hl as (sep & -> & Hsep).
  apply list_elem_of_omap in Hkn as ([k' v] & _ & Hkn). simpl in Hkn.
  destruct (_nested_env_subkey k' f sep) as [sub|] eqn:E; [|done]. injection Hkn as <- <-. by eapply subkey_claims.
Qed.

Lemma with_nested_claimed f env name keys vars : Forall (λ kn, claims f kn.1 = true) keys →
  with_nested (claimed f env) name keys vars = with_nested env name keys vars.
Proof.
  intros Hk. unfold with_nested. destruct keys as [|kn keys]; [done|].
  assert (Hf : ∀ acc, foldl (add_nested (claimed f env)) acc (kn :: keys) = foldl (add_nested env) acc (kn :: keys)); [|by rewrite Hf].
  revert Hk. generalize (kn :: keys). clear. intros l Hl. induction Hl as [|[k n] l Hk Hl IH]; intros acc; [done|]. cbn [foldl].
  rewrite IH. f_equal. unfold add_nested. by rewrite dict_get_claimed.
Qed.

Lemma with_nested_local env name keys vars :
  (∀ k, k ≠ name → dict_get k (with_nested env name keys vars) = dict_get k vars) ∧
  (∀ vars', dict_get name vars' = dict_get name vars →
     dict_get name (with_nested env name keys vars') = dict_get name (with_nested env name keys vars)).
Proof.
  unfold with_nested. destruct keys as [|kn keys]; [done|]. destruct (foldl _ _ _) as [lv dv]. split.
  - intros k Hk. repeat case_match; by rewrite dict_get_set, decide_False.
  - intros vars' ->. destruct (dict_get name vars) as [[| | | | | |[|]]|]; by rewrite !dict_get_set, !decide_True.
Qed.

Section Owners.
Context (literal_eval safe_load : string → outcome cerr json).
Abbreviation read_field := (read_field literal_eval safe_load).
Abbreviation load_field := (load_field literal_eval safe_load).
Abbreviation load_fields := (load_fields literal_eval safe_load).

Lemma claims_self f : claims f f = true.
Proof. unfold claims. by rewrite String.eqb_refl. Qed.
Lemma claims_prefix f key : claims f key = true → startswith f key = true.
Proof.
  unfold claims. rewrite orb_true_iff. intros [->%String.eqb_eq|(sep & _ & [t ->]%startswith_spec)%existsb_exists].
  - apply startswith_refl.
  - rewrite str_app_assoc. apply startswith_app.
Qed.

Lemma nothing_to_read env vars f : existsb (λ kv, startswith (env_name f) kv.1) env = false → read_field env vars f = Ok vars.
Proof.
  intros Hno.
  assert (Hc : ∀ key v, (key, v) ∈ env → claims (env_name f) key = true → False).
  { intros key v Hin Hc. apply claims_prefix in Hc. apply not_true_iff_false in Hno. apply Hno, existsb_exists.
    exists (key, v). by rewrite <-list_elem_of_In. }
  unfold ConfigLoading.read_field. destruct (dict_get (env_name f) env) as [raw|] eqn:E.
  { apply dict_get_elem in E. destruct (Hc _ _ E (claims_self _)). }
  destruct (nested_keys env (env_name f)) as [|[k n] l] eqn:En; [done|].
  rewrite <-nested_keys_claimed in En. unfold nested_keys in En.
  assert (Hnil : claimed (env_name f) env = []).
  { unfold claimed. apply filter_never. intros [k' v'] Hin Hk. by eapply Hc. }
  by rewrite Hnil in En.
Qed.

Lemma read_field_claimed env vars f : read_field (claimed (env_name f) env) vars f = read_field env vars f.
Proof.
  unfold ConfigLoading.read_field. rewrite dict_get_claimed, nested_keys_claimed by apply claims_self.
  destruct (dict_get (env_name f) env) as [raw|]; [destruct (from_env_func _ _ f _); [|done]|]; simpl;
    by rewrite (with_nested_claimed _ _ _ _ _ (nested_keys_own _ _)).
Qed.
Lemma load_field_claimed env exported vars f :
  load_field (claimed (env_name f) env) exported vars f = load_field env exported vars f.
Proof.
  assert (Hgate : ∀ env, (if existsb (λ kv, startswith (env_name f) kv.1) env then read_field env vars f else Ok vars) = read_field env vars f).
  { intros e. destruct (existsb _ e) eqn:E; [done|]. by rewrite nothing_to_read. }
  unfold ConfigLoading.load_field. rewrite !Hgate, read_field_claimed. unfold _is_self_exported_keystore_env.
  by rewrite dict_get_claimed by apply claims_self.
Qed.

(** A field reads and writes the value under its own name only. *)
Lemma load_field_local env exported vars vars' f : dict_get (field_name f) vars' = dict_get (field_name f) vars →
  match load_field env exported vars f, load_field env exported vars' f with
  | Ok a, Ok b => dict_get (field_name f) b = dict_get (field_name f) a ∧ ∀ k, k ≠ field_name f → dict_get k a = dict_get k vars
  | Err x, Err y => x = y
  | _, _ => False
  end.
Proof.
  intros Heq. unfold ConfigLoading.load_field. destruct (exclude f || is_ignored_field f); [done|].
  destruct (_is_self_exported_keystore_env _ _ _); [done|]. destruct (existsb _ env); [|done].
  unfold ConfigLoading.read_field. destruct (dict_get (env_name f) env) as [raw|]; simpl.
  - destruct (from_env_func _ _ f _) as [v|x]; [|done]. simpl. split.
    + apply with_nested_local. by rewrite !dict_get_set, !decide_True.
    + intros k Hk. rewrite (proj1 (with_nested_local _ _ _ _)) by done. by rewrite dict_get_set, decide_False.
  - split; [by apply with_nested_local|]. intros k Hk. by apply with_nested_local.
Qed.

Lemma load_fields_local env exported fs vars out : NoDup (field_name <$> fs) →
  (∀ f, f ∈ fs → dict_get (field_name f) vars = None) → load_fields env exported fs vars = Ok out →
  (∀ k, k ∉ field_name <$> fs → dict_get k out = dict_get k vars) ∧
  ∀ f, f ∈ fs → ∃ own, load_field env exported [] f = Ok own ∧ dict_get (field_name f) out = dict_get (field_name f) own.
Proof.
  revert vars. induction fs as [|f fs IH]; intros vars Hnd Hnone; cbn [ConfigLoading.load_fields].
  { intros [= <-]. split; [done|]. by intros f ?%not_elem_of_nil. }
  apply NoDup_cons in Hnd as [Hf Hnd].
  pose proof (load_field_local env exported vars [] f) as Hloc. rewrite (Hnone f) in Hloc by left. specialize (Hloc eq_refl).
  destruct (load_field env exported vars f) as [a|x]; [|done]. destruct (load_field env exported [] f) as [own|] eqn:Eown; [|done].
  destruct Hloc as [Hown Hframe]. simpl. intros Hrest.
  apply IH in Hrest as [Hother Heach]; [|done|].
  2: { intros g Hg. rewrite Hframe; [apply Hnone; by right|]. intros E. apply Hf. rewrite <-E. by apply list_elem_of_fmap_2. }
  split.
  - intros k Hk. rewrite Hother by set_solver. apply Hframe. set_solver.
  - intros g [->|Hg]%elem_of_cons; [|by apply Heach]. exists own. split; [done|]. rewrite Hother by done. done.
Qed.
End Owners.

(** C20. Reading the environment, for a model without two fields of one name. The value of a field is
    what the variables of that field alone give: the variable named after it and those that add a
    nested key to this name. Nothing else is read, so nothing but fields gets a value. Fields with
    names free of the separators never share a variable. *)
Theorem variables_read_by_owner literal_eval safe_load fields env exported vars : NoDup (field_name <$> fields) →
  _load_environment_variables literal_eval safe_load fields env exported = Ok vars →
  (∀ f, f ∈ fields → ∃ own,
     load_field literal_eval safe_load (claimed (env_name f) env) exported [] f = Ok own ∧
     dict_get (field_name f) vars = dict_get (field_name f) own) ∧
  (∀ k, k ∉ field_name <$> fields → dict_get k vars = None) ∧
  (∀ f g key, clean (env_name f) = true → clean (env_name g) = true →
     claims (env_name f) key = true → claims (env_name g) key = true → env_name f = env_name g).
Proof.
  intros Hnd Hload. apply load_fields_local in Hload as [Hother Heach]; [|done|done]. split; [|split; [done|]].
  - intros f Hf. destruct (Heach f Hf) as (own & Hown & Hval). exists own. by rewrite load_field_claimed.
  - intros f g key Hf Hg Hkf Hkg. apply claims_owner in Hkf; [|done]. apply claims_owner in Hkg; [|done]. congruence.
Qed.

Definition sample_fields : list model_field :=
  [Field "sizing_db" false false (Some DictOrStr) false; Field "sizing_db_oracle" false false (Some DictOrStr) false;
   Field "stress_cmd" false false (Some StringOrList) true; Field "append_scylla_args" false false (Some String_) true;
   Field "instance_provision" false false (Some String_) true; Field "keystore_backend" false false (Some String_) false].
Definition no_literal (s : string) : outcome cerr json := Err SyntaxError.
Definition sample_environ : environ :=
  [("HOME", "/root"); ("SCT_SIZING_DB_ORACLE__VCPU", " 4"); ("SCT_SIZING_DB.memory", "32"); ("SCT_STRESS_CMD.1", "b"); ("SCT_STRESS_CMD.0", "a");
   ("SCT_APPEND_SCYLLA_ARGS", "++ --smp 2 "); ("SCT_KEYSTORE_BACKEND", "s3")]%string.

Lemma variables_read_by_owner_witness :
  ∃ vars own, _load_environment_variables no_literal no_literal sample_fields sample_environ [("SCT_KEYSTORE_BACKEND", "s3")]%string = Ok vars ∧
    vars = [("sizing_db", JObj [("memory", JStr "32")]); ("sizing_db_oracle", JObj [("vcpu", JStr "4")]);
            ("stress_cmd", JList [JStr "a"; JStr "b"]); ("append_scylla_args", JStr "++ --smp 2")]%string ∧
    dict_get "sizing_db"%string own = dict_get "sizing_db"%string vars.
Proof.
  assert (Hnd : NoDup (field_name <$> sample_fields)) by (apply (bool_decide_unpack _); vm_compute; exact I).
  assert (H : ∃ vars, _load_environment_variables no_literal no_literal sample_fields sample_environ [("SCT_KEYSTORE_BACKEND", "s3")]%string = Ok vars)
    by (eexists; vm_compute; reflexivity).
  destruct H as [vars H]. pose proof (variables_read_by_owner _ _ _ _ _ _ Hnd H) as [Hown _].
  destruct (Hown (Field "sizing_db" false false (Some DictOrStr) false) ltac:(left)) as (own & _ & Heq).
  exists vars, own. split; [exact H|]. split; [|symmetry; exact Heq]. vm_compute in H. congruence.
Defined.

(** The list of nested variables depends on the order of the environment. *)
Example nested_list_order :
  let load env := _load_environment_variables no_literal no_literal sample_fields env [] in
  load [("SCT_STRESS_CMD.0", "a"); ("SCT_STRESS_CMD.1", "b"); ("SCT_STRESS_CMD.2", "c")]%string
    = Ok [("stress_cmd", JList [JStr "a"; JStr "b"; JStr "c"])]%string ∧
  load [("SCT_STRESS_CMD.2", "c"); ("SCT_STRESS_CMD.1", "b"); ("SCT_STRESS_CMD.0", "a")]%string
    = Ok [("stress_cmd", JList [JStr "a"; JStr "c"; JStr "b"])]%string.
Proof. split; vm_compute; reflexivity. Qed.

(** ** What a layer does to a field *)

(** What a value appends: text to a text, or elements to a list. *)
Inductive appended : Type := AppendText (t : string) | AppendElements (l : list json).
Definition appends (v : json) : option appended :=
  match v with
  | JStr s => if startswith "++" s then Some (AppendText (str_drop 2 s)) else None
  | JList (JStr s :: rest) => if startswith "++" s then Some (AppendElements rest) else None
  | _ => None
  end.
Definition nothing_of (a : appended) : json := match a with AppendText _ => JStr EmptyString | AppendElements _ => JList [] end.

Definition is_null (v : option json) : bool := match v with Some JNull => true | _ => false end.
Definition is_obj (v : option json) : bool := match v with Some (JObj _) => true | _ => false end.

Section Layers.
Context (literal_eval safe_load : string → outcome cerr json) (fields : list model_field).
Context (core : string → json → outcome cerr json) (ac_merge : gmap string json → list (string * json) → outcome cerr (gmap string json)).
Abbreviation validate := (validate literal_eval safe_load fields core).
Abbreviation append_value := (append_value literal_eval safe_load fields core).
Abbreviation append_values := (append_values literal_eval safe_load fields core).
Abbreviation merge := (merge_dicts_append_strings literal_eval safe_load fields core ac_merge).

(** From the value of a field before a layer to the value after it. *)
Inductive layer (k : string) : option json → option json → option json → Prop :=
  | layer_keep cur : layer k cur None cur
  | layer_replace cur v w : appends v = None → validate k v = Ok w → layer k cur (Some v) (Some w)
  | layer_append cur v a start w :
      appends v = Some a → is_config_option_appendable fields k = Ok true →
      (if is_null cur then validate k (nothing_of a) = Ok start else cur = Some start) →
      match a with
      | AppendText t => ∃ new, iadd start t = Ok new ∧ validate k new = Ok w
      | AppendElements l => ∃ l0, start = JList l0 ∧ w = JList (l0 ++ l)
      end →
      layer k cur (Some v) (Some w).

Lemma assert_appendable_ok k u : assert_appendable fields k = Ok u → is_config_option_appendable fields k = Ok true.
Proof. unfold assert_appendable. by destruct (is_config_option_appendable fields k) as [[]|]. Qed.

Lemma init_if_none_spec k e d d' : init_if_none literal_eval safe_load fields core k e d = Ok d' →
  (∀ k', k' ≠ k → d' !! k' = d !! k') ∧
  ∃ start, d' !! k = Some start ∧ if is_null (d !! k) then validate k e = Ok start else d !! k = Some start.
Proof.
  unfold init_if_none, setitem. destruct (d !! k) as [v|] eqn:E; [|done].
  destruct (is_null (Some v)) eqn:Hn.
  - destruct v; try done. destruct (ConfigLoading.validate _ _ _ _ k e) as [w|]; [|done]. intros [= <-]. split; [|by exists w; rewrite lookup_insert_eq].
    intros k' Hk. by rewrite lookup_insert_ne.
  - intros H. assert (d' = d) as -> by (destruct v; simplify_eq/=; done). split; [done|]. by exists v.
Qed.

Lemma append_value_spec k v d1 d2 d1' d2' : append_value k v d1 d2 = Ok (d1', d2') →
  (∀ k', k' ≠ k → d1' !! k' = d1 !! k' ∧ dict_get k' d2' = dict_get k' d2) ∧
  match appends v with
  | None => d1' = d1 ∧ d2' = d2
  | Some _ => layer k (d1 !! k) (Some v) (d1' !! k) ∧ dict_get k d2' = None
  end.
Proof.
  assert (Hdel : ∀ k', k' ≠ k → dict_get k' (dict_del k d2) = dict_get k' d2) by (intros; by rewrite dict_get_del, decide_False).
  assert (Hgone : dict_get k (dict_del k d2) = None) by (by rewrite dict_get_del, decide_True).
  unfold ConfigLoading.append_value, appends. destruct v as [| | | |s|[|[| | | |s| |] rest]|]; try (intros [= <- <-]; done).
  - destruct (startswith "++" s) eqn:Es; [|by intros [= <- <-]].
    destruct (assert_appendable fields k) eqn:Ea; [|done]. cbn [obind]. destruct (init_if_none _ _ _ _ k _ d1) as [d|] eqn:Ei; [|done]. cbn [obind].
    destruct (init_if_none_spec _ _ _ _ Ei) as (Ho & start & Hs & Hcur). unfold getitem, setitem. rewrite Hs. cbn [obind].
    destruct (iadd start (str_drop 2 s)) as [new|] eqn:En; [|done]. cbn [obind].
    destruct (ConfigLoading.validate _ _ _ _ k new) as [w|] eqn:Ew; [|done]. intros [= <- <-].
    split; [intros k' Hk; by rewrite lookup_insert_ne, Ho, Hdel|]. split; [|done]. rewrite lookup_insert_eq.
    eapply layer_append with (a := AppendText (str_drop 2 s)); [unfold appends; by rewrite Es|by eapply assert_appendable_ok|exact Hcur|eauto].
  - destruct (startswith "++" s) eqn:Es; [|by intros [= <- <-]].
    destruct (assert_appendable fields k) eqn:Ea; [|done]. cbn [obind]. destruct (init_if_none _ _ _ _ k _ d1) as [d|] eqn:Ei; [|done]. cbn [obind].
    destruct (init_if_none_spec _ _ _ _ Ei) as (Ho & start & Hs & Hcur). unfold getitem. rewrite Hs. cbn [obind].
    destruct start as [| | | | |l|]; try done. intros [= <- <-].
    split; [intros k' Hk; by rewrite lookup_insert_ne, Ho, Hdel|]. split; [|done]. rewrite lookup_insert_eq.
    eapply layer_append with (a := AppendElements rest); [unfold appends; by rewrite Es|by eapply assert_appendable_ok|exact Hcur|eauto].
Qed.

Lemma append_values_spec items d1 d2 d1' d2' : NoDup items.*1 → append_values items d1 d2 = Ok (d1', d2') →
  ∀ k, match dict_get k items with
       | None => d1' !! k = d1 !! k ∧ dict_get k d2' = dict_get k d2
       | Some v =>
         match appends v with
         | None => d1' !! k = d1 !! k ∧ dict_get k d2' = dict_get k d2
         | Some _ => layer k (d1 !! k) (Some v) (d1' !! k) ∧ dict_get k d2' = None
         end
       end.
Proof.
  revert d1 d2. induction items as [|[key v] items IH]; intros d1 d2; cbn [ConfigLoading.append_values].
  { intros _ [= <- <-] k. done. }
  intros [Hkey Hnd]%NoDup_cons. destruct (append_value key v d1 d2) as [[e1 e2]|] eqn:Ev; [|done]. cbn [obind fst snd]. intros Hrest k.
  destruct (append_value_spec _ _ _ _ _ _ Ev) as [Hother Hv]. specialize (IH _ _ Hnd Hrest k). cbn [dict_get].
  destruct (decide (k = key)) as [->|Hk].
  - rewrite (proj2 (dict_get_None key items) Hkey) in IH. destruct IH as [-> ->].
    destruct (appends v); [done|]. by destruct Hv as [-> ->].
  - destruct (Hother k Hk) as [<- <-]. exact IH.
Qed.

(** The documented behaviour of [anyconfig.merge]: other keys stay, and a value replaces what is
    there unless that is a dictionary. *)
Context (merge_other : ∀ c d c' k, ac_merge c d = Ok c' → dict_get k d = None → c' !! k = c !! k).
Context (merge_plain : ∀ c d c' k v, ac_merge c d = Ok c' → dict_get k d = Some v → is_obj (c !! k) = false →
  ∃ w, validate k v = Ok w ∧ c' !! k = Some w).

Lemma merge_layer d1 d2 d1' k : dict_wf d2 → merge d1 d2 = Ok d1' → is_obj (d1 !! k) = false → layer k (d1 !! k) (dict_get k d2) (d1' !! k).
Proof using merge_other merge_plain.
  intros Hwf. unfold merge_dicts_append_strings. destruct (append_values d2 d1 d2) as [[e1 e2]|] eqn:Ea; [|done]. cbn [obind fst snd].
  intros Hm Hobj. pose proof (append_values_spec _ _ _ _ _ Hwf Ea k) as Hk. destruct (dict_get k d2) as [v|] eqn:Ek.
  - destruct (appends v) eqn:Eapp.
    + destruct Hk as [Hl Hgone]. by rewrite (merge_other _ _ _ k Hm Hgone).
    + destruct Hk as [H1 H2]. destruct (merge_plain _ _ _ k v Hm) as (w & Hw & ->); [done|by rewrite H1|]. by apply layer_replace.
  - destruct Hk as [H1 H2]. rewrite (merge_other _ _ _ k Hm) by done. rewrite H1. apply layer_keep.
Qed.

(** A field that is never a mapping. *)
Definition scalar (k : string) : Prop := ∀ v w, validate k v = Ok w → is_obj (Some w) = false.

Lemma layer_scalar k cur v new : scalar k → is_obj cur = false → layer k cur v new → is_obj new = false.
Proof.
  intros Hk Hcur H. inversion H as [|? v' w _ Hw|? v' a start w _ _ _ Ha]; subst; [done|by eapply Hk|].
  destruct a; [destruct Ha as (? & _ & Hw); by eapply Hk|by destruct Ha as (? & _ & ->)].
Qed.

(** The resolution of sizes leaves a field alone. *)
Definition not_sized (resolve_sizes : gmap string json → list (string * json) → outcome cerr (gmap string json * list (string * json)))
    (k : string) : Prop :=
  ∀ c e c' e', resolve_sizes c e = Ok (c', e') → dict_wf e → c' !! k = c !! k ∧ dict_get k e' = dict_get k e ∧ dict_wf e'.

Lemma three_layers resolve_sizes self defaults files env c k : dict_wf defaults → dict_wf (default [] files) → dict_wf env →
  scalar k → not_sized resolve_sizes k → is_obj (self !! k) = false →
  load_layers literal_eval safe_load fields core ac_merge resolve_sizes self defaults files env = Ok c →
  ∃ v1 v2, layer k (self !! k) (dict_get k defaults) v1 ∧ layer k v1 (dict_get k (default [] files)) v2 ∧ layer k v2 (dict_get k env) (c !! k).
Proof using merge_other merge_plain.
  intros Hd Hf He Hk Hr Hs. unfold load_layers. destruct (merge self defaults) as [s1|] eqn:E1; [|done]. cbn [obind].
  destruct (match files with None => _ | Some fs => merge s1 fs end) as [s2|] eqn:E2; [|done]. cbn [obind].
  destruct (load_region_data s2 env); [|done]. cbn [obind]. destruct (resolve_sizes s2 env) as [[s3 env3]|] eqn:E; [|done]. cbn [obind fst snd].
  intros E3. destruct (Hr _ _ _ _ E He) as (Hc & Hget & He3).
  pose proof (merge_layer _ _ _ k Hd E1 Hs) as L1. pose proof (layer_scalar _ _ _ _ Hk Hs L1) as O1.
  assert (L2 : layer k (s1 !! k) (dict_get k (default [] files)) (s2 !! k)).
  { destruct files as [fs|]; [by apply merge_layer|]. injection E2 as <-. apply layer_keep. }
  pose proof (layer_scalar _ _ _ _ Hk O1 L2) as O2.
  exists (s1 !! k), (s2 !! k). split; [done|]. split; [done|]. rewrite <-Hc, <-Hget. apply merge_layer; [done..|by rewrite Hc].
Qed.
End Layers.

Section InOrder.
Context (literal_eval safe_load : string → outcome cerr json) (fields : list model_field) (core : string → json → outcome cerr json).
Context (ac_merge : gmap string json → list (string * json) → outcome cerr (gmap string json)).
Context (resolve_sizes : gmap string json → list (string * json) → outcome cerr (gmap string json * list (string * json))).
Hypothesis ac_merge_other : ∀ c d c' k, ac_merge c d = Ok c' → dict_get k d = None → c' !! k = c !! k.
Hypothesis ac_merge_plain : ∀ c d c' k v, ac_merge c d = Ok c' → dict_get k d = Some v → is_obj (c !! k) = false →
  ∃ w, validate literal_eval safe_load fields core k v = Ok w ∧ c' !! k = Some w.

Abbreviation layer := (layer literal_eval safe_load fields core).
Abbreviation load_layers := (load_layers literal_eval safe_load fields core ac_merge resolve_sizes).

(** The value of a layer decides, unless it appends. *)
Definition decides (k : string) (v : json) (new : option json) : Prop :=
  appends v = None → ∃ w, validate literal_eval safe_load fields core k v = Ok w ∧ new = Some w.

Lemma layer_decides k cur v new : layer k cur (Some v) new → decides k v new.
Proof. intros H Happ. inversion H; subst; [eauto|congruence]. Qed.
Lemma layer_nothing k cur new : layer k cur None new → new = cur.
Proof. intros H. by inversion H. Qed.

Lemma not_set_anywhere files env k : is_explicitly_set files env k = false →
  dict_get k (default [] files) = None ∧ dict_get k env = None.
Proof.
  unfold is_explicitly_set, _explicitly_set_params. intros Hx.
  assert (Hin : k ∉ (default [] files).*1 ++ env.*1).
  { intros Hin. apply not_true_iff_false in Hx. apply Hx, existsb_exists. exists k. by rewrite <-list_elem_of_In, String.eqb_eq. }
  rewrite elem_of_app in Hin. split; apply dict_get_None; tauto.
Qed.

(** C19. The layers of a configuration, for a field that is not a mapping, that the resolution of
    sizes leaves alone, and that the user sets in the configuration files or in the environment but
    not in both: its value goes from the model through the defaults and then through what the user
    gives, and each of them keeps it, replaces it by its own converted value, or appends to it,
    which only appendable fields allow. So a value the user gives that does not append decides, and
    a field that is not explicitly set has what the defaults make of it. (Of a field set in both,
    see [environment_over_files].) *)
Theorem layers_in_order self defaults files env c k :
  dict_wf defaults → dict_wf (default [] files) → dict_wf env →
  scalar literal_eval safe_load fields core k → not_sized resolve_sizes k → is_obj (self !! k) = false →
  load_layers self defaults files env = Ok c →
  dict_get k (default [] files) = None ∨ dict_get k env = None →
  let given := match dict_get k env with Some v => Some v | None => dict_get k (default [] files) end in
  (∃ v1, layer k (self !! k) (dict_get k defaults) v1 ∧ layer k v1 given (c !! k)) ∧
  (∀ v, given = Some v → decides k v (c !! k)) ∧
  (is_explicitly_set files env k = false → layer k (self !! k) (dict_get k defaults) (c !! k)).
Proof using ac_merge_other ac_merge_plain.
  intros Hd Hf He Hk Hr Hs Hl Hone given.
  destruct (three_layers _ _ _ _ _ ac_merge_other ac_merge_plain _ _ _ _ _ _ _ Hd Hf He Hk Hr Hs Hl) as (v1 & v2 & L1 & L2 & L3).
  assert (layer k v1 given (c !! k)) as L.
  { subst given. destruct (dict_get k env); [|by apply layer_nothing in L3 as ->].
    destruct Hone as [E|]; [|done]. rewrite E in L2. by apply layer_nothing in L2 as ->. }
  split; [by exists v1|]. split; [intros v Hv; rewrite Hv in L; by eapply layer_decides|].
  intros [Ef Ee]%not_set_anywhere. subst given. rewrite Ef, Ee in L. by apply layer_nothing in L as ->.
Qed.

(** Of a field set both in the files and in the environment, the environment is the last layer: its
    value decides unless it appends. *)
Theorem environment_over_files self defaults files env c k :
  dict_wf defaults → dict_wf (default [] files) → dict_wf env →
  scalar literal_eval safe_load fields core k → not_sized resolve_sizes k → is_obj (self !! k) = false →
  load_layers self defaults files env = Ok c →
  (∃ v1 v2, layer k (self !! k) (dict_get k defaults) v1 ∧ layer k v1 (dict_get k (default [] files)) v2 ∧
    layer k v2 (dict_get k env) (c !! k)) ∧
  (∀ v, dict_get k env = Some v → decides k v (c !! k)).
Proof using ac_merge_other ac_merge_plain.
  intros Hd Hf He Hk Hr Hs Hl.
  destruct (three_layers _ _ _ _ _ ac_merge_other ac_merge_plain _ _ _ _ _ _ _ Hd Hf He Hk Hr Hs Hl) as (v1 & v2 & L1 & L2 & L3).
  split; [by exists v1, v2|]. intros v Hv. rewrite Hv in L3. by eapply layer_decides.
Qed.
End InOrder.

(** ** A configuration *)

(** A merge that replaces every value, and a model that takes any converted value. *)
Fixpoint replace_all (fields : list model_field) (c : gmap string json) (d : list (string * json)) : outcome cerr (gmap string json) :=
  match d with
  | [] => Ok c
  | (k, v) :: d' => try! c := replace_all fields c d' in setitem no_literal no_literal fields (λ _, Ok) k v c
  end.

Lemma replace_all_spec fields c d c' k : replace_all fields c d = Ok c' →
  match dict_get k d with
  | None => c' !! k = c !! k
  | Some v => ∃ w, validate no_literal no_literal fields (λ _, Ok) k v = Ok w ∧ c' !! k = Some w
  end.
Proof.
  revert c'. induction d as [|[k' v] d IH]; intros c'; cbn [replace_all dict_get]; [by intros [= <-]|].
  destruct (replace_all fields c d) as [c1|]; [|done]. cbn [obind]. unfold setitem. destruct (c1 !! k'); [|done].
  destruct (validate _ _ _ _ k' v) as [w|] eqn:Ew; [|done]. intros [= <-].
  destruct (decide (k = k')) as [->|Hne]; [exists w; by rewrite lookup_insert_eq|]. rewrite lookup_insert_ne by done. by apply IH.
Qed.

Definition sample_model : gmap string json :=
  {["append_scylla_args" := JNull; "instance_provision" := JNull; "stress_cmd" := JList [JStr "old"]]}%string.
Definition load_sample := load_layers no_literal no_literal sample_fields (λ _, Ok) (replace_all sample_fields) (λ c e, Ok (c, e)) sample_model.

Definition loaded (k : string) (r : outcome cerr (gmap string json)) : option json := match r with Ok c => c !! k | Err _ => None end.

Lemma layers_in_order_witness :
  let defaults := [("append_scylla_args", JStr "--blocked-reactor 25"); ("instance_provision", JStr "spot")]%string in
  let files := Some [("instance_provision", JStr "on_demand")]%string in
  let env := [("append_scylla_args", JStr "++ --smp 2")]%string in
  loaded "append_scylla_args" (load_sample defaults files env) = Some (JStr "--blocked-reactor 25 --smp 2") ∧
  loaded "instance_provision" (load_sample defaults files env) = Some (JStr "on_demand").
Proof.
  intros defaults files env.
  assert (Happ : loaded "append_scylla_args" (load_sample defaults files env) = Some (JStr "--blocked-reactor 25 --smp 2"))
    by (vm_compute; reflexivity).
  split; [exact Happ|]. destruct (load_sample defaults files env) as [c|] eqn:Hc; [clear Happ|discriminate Happ].
  assert (Hwf : ∀ d : list (string * json), bool_decide (NoDup d.*1) = true → dict_wf d) by (intros d Hd; exact (bool_decide_eq_true_1 _ Hd)).
  destruct (layers_in_order no_literal no_literal sample_fields (λ _, Ok) (replace_all sample_fields) (λ c e, Ok (c, e)))
    with (self := sample_model) (defaults := defaults) (files := files) (env := env) (c := c) (k := "instance_provision"%string)
    as (_ & Hgiven & _); [| |apply Hwf; vm_compute; reflexivity..| | |vm_compute; reflexivity|exact Hc|by right|].
  - intros c0 d c' k Hm Hk. pose proof (replace_all_spec _ _ _ _ k Hm) as Hs. by rewrite Hk in Hs.
  - intros c0 d c' k v Hm Hk _. pose proof (replace_all_spec _ _ _ _ k Hm) as Hs. by rewrite Hk in Hs.
  - intros v w. unfold validate. simpl. unfold _str. destruct v; simpl; try done; by intros [= <-].
  - intros c0 e c' e' [= <- <-]. done.
  - destruct (Hgiven (JStr "on_demand") eq_refl eq_refl) as (w & Hw & Hv). simpl. rewrite Hv. injection Hw as <-. reflexivity.
Defined.

(** Text that is to be appended to a field that holds a list is not: the environment's becomes a
    list of one element, which only marks the append, and a file's is taken apart into letters. *)
Example appended_text_lost :
  _load_environment_variables no_literal no_literal sample_fields [("SCT_STRESS_CMD", "++new")]%string []
    = Ok [("stress_cmd", JList [JStr "++new"])]%string ∧
  loaded "stress_cmd" (load_sample [] None [("stress_cmd", JList [JStr "++new"])]%string) = Some (JList [JStr "old"]) ∧
  loaded "stress_cmd" (load_sample [] (Some [("stress_cmd", JStr "++new")])%string []) = Some (JList [JStr "old"; JStr "n"; JStr "e"; JStr "w"]).
Proof. split; [|split]; vm_compute; reflexivity. Qed.

(** Data of regions ends the loading, for regions that have it too. *)
Example region_data_refused self env : truthy (default JNull (self !! "regions_data"%string)) = true →
  load_region_data self env = Err TypeError.
Proof. unfold load_region_data. by intros ->. Qed.

(** ** Variables that the process exports *)
Definition self_exported (p : process) (n : string) : bool :=
  _is_self_exported_keystore_env (environment p) (_KEYSTORE_ENV_EXPORTED p) n.
Definition env_of (param : string) : string := "SCT_" +:+ upper param.

(** Set by somebody else than a configuration. *)
Definition overridden (p : process) (n : string) : bool := dict_in n (environment p) && negb (self_exported p n).

Definition same_var (n : string) (p p' : process) : Prop :=
  dict_get n (environment p') = dict_get n (environment p) ∧
  dict_get n (_KEYSTORE_ENV_EXPORTED p') = dict_get n (_KEYSTORE_ENV_EXPORTED p).

Lemma same_self_exported n p p' : same_var n p p' → self_exported p' n = self_exported p n.
Proof. intros [He Hx]. unfold self_exported, _is_self_exported_keystore_env. by rewrite He, Hx. Qed.

Lemma propagate_other get p param n : n ≠ env_of param → same_var n p (propagate_param get p param).
Proof.
  intros Hn. destruct p as [env exported]. unfold propagate_param. fold (env_of param).
  destruct (get param) as [[|a t]|]; [done| |done].
  destruct (_ || _); split; cbn [environment _KEYSTORE_ENV_EXPORTED]; rewrite ?dict_get_set, ?dict_get_del, ?decide_False by done; done.
Qed.

Lemma propagate_own get p param : let n := env_of param in let p' := propagate_param get p param in
  if overridden p n then dict_get n (environment p') = dict_get n (environment p) ∧ overridden p' n = true
  else match get param with
       | None | Some EmptyString => p' = p
       | Some value => dict_get n (environment p') = Some value ∧ self_exported p' n = true
       end.
Proof.
  cbv zeta. destruct p as [env exported]. unfold overridden, propagate_param, self_exported. fold (env_of param).
  cbn [environment _KEYSTORE_ENV_EXPORTED]. destruct (dict_in (env_of param) env) eqn:Ein; cbn [negb andb orb].
  - destruct (_is_self_exported_keystore_env env exported (env_of param)) eqn:Es; cbn [negb].
    + destruct (get param) as [[|a t]|]; [done| |done]. cbn [environment _KEYSTORE_ENV_EXPORTED].
      unfold _is_self_exported_keystore_env. rewrite !dict_get_set, !decide_True by done. by rewrite String.eqb_refl.
    + destruct (get param) as [[|a t]|]; cbn [environment _KEYSTORE_ENV_EXPORTED]; rewrite ?Ein, ?Es; [done| |done].
      split; [done|]. unfold _is_self_exported_keystore_env. by rewrite dict_get_del, decide_True.
  - destruct (get param) as [[|a t]|]; [done| |done]. cbn [environment _KEYSTORE_ENV_EXPORTED].
    unfold _is_self_exported_keystore_env. rewrite !dict_get_set, !decide_True by done. by rewrite String.eqb_refl.
Qed.

Lemma propagate_overridden get p param n : overridden p n = true →
  let p' := propagate_param get p param in dict_get n (environment p') = dict_get n (environment p) ∧ overridden p' n = true.
Proof.
  intros Ho p'. destruct (decide (n = env_of param)) as [->|Hn].
  - pose proof (propagate_own get p param) as H. cbv zeta in H. by rewrite Ho in H.
  - destruct (propagate_other get p param n Hn) as [He Hx]. subst p'. split; [done|]. revert Ho. unfold overridden, dict_in.
    rewrite He. by rewrite (same_self_exported n p _ (conj He Hx)).
Qed.

Lemma propagates_overridden get l p n : overridden p n = true →
  let p' := foldl (propagate_param get) p l in dict_get n (environment p') = dict_get n (environment p) ∧ overridden p' n = true.
Proof.
  revert p. induction l as [|param l IH]; intros p Ho; [done|]. cbn [foldl].
  destruct (propagate_overridden get p param n Ho) as [He Ho']. destruct (IH _ Ho') as [He' Ho'']. split; [|done]. cbv zeta. by rewrite He'.
Qed.

Lemma propagates_other get l p n : n ∉ env_of <$> l → same_var n p (foldl (propagate_param get) p l).
Proof.
  revert p. induction l as [|param l IH]; intros p; [done|]. cbn [foldl]. rewrite fmap_cons, not_elem_of_cons. intros [Hn Hl].
  destruct (IH (propagate_param get p param) Hl) as [H1 H2]. destruct (propagate_other get p param n Hn) as [H3 H4].
  split; congruence.
Qed.

Lemma propagates_set get l p param value : NoDup (env_of <$> l) → param ∈ l →
  get param = Some value → value ≠ EmptyString → overridden p (env_of param) = false →
  let p' := foldl (propagate_param get) p l in
  dict_get (env_of param) (environment p') = Some value ∧ self_exported p' (env_of param) = true.
Proof.
  intros Hnd Hin Hget Hv. revert p Hnd Hin. induction l as [|param' l IH]; [by intros ? ? ?%not_elem_of_nil|].
  intros p [Hp Hnd]%NoDup_cons [<-|Hin]%elem_of_cons Ho; cbn [foldl].
  - pose proof (propagate_own get p param) as H. cbv zeta in H. rewrite Ho, Hget in H. destruct value as [|a t]; [done|].
    destruct H as [He Hs]. pose proof (propagates_other get l (propagate_param get p param) _ Hp) as Hsame.
    split; [by rewrite (proj1 Hsame)|by rewrite (same_self_exported _ _ _ Hsame)].
  - assert (Hne : env_of param ≠ env_of param') by (intros E; apply Hp; rewrite <-E; by apply list_elem_of_fmap_2).
    apply IH; [done..|]. pose proof (propagate_other get p param' _ Hne) as Hsame. revert Ho. unfold overridden, dict_in.
    by rewrite (proj1 Hsame), (same_self_exported _ _ _ Hsame).
Qed.

(** The value a configuration gives a parameter, and the latest of a sequence of them. *)
Definition value_of (param : string) (get : string → option string) : option string :=
  v ← get param; if truthy v then Some v else None.
Definition latest (param : string) (configs : list (string → option string)) : option string :=
  last (omap (value_of param) configs).

Lemma latest_snoc param configs get :
  latest param (configs ++ [get]) = match value_of param get with Some v => Some v | None => latest param configs end.
Proof.
  unfold latest. rewrite omap_app. cbn [omap list_omap]. destruct (value_of param get); [by rewrite last_snoc|by rewrite app_nil_r].
Qed.

Lemma propagates_nothing get l p param : (∀ x, x ∈ l → env_of x = env_of param → x = param) → value_of param get = None →
  same_var (env_of param) p (foldl (propagate_param get) p l).
Proof.
  intros Hinj Hv. revert p. induction l as [|x l IH]; intros p; [done|]. cbn [foldl].
  destruct (IH (λ x Hx, Hinj x ltac:(by right)) (propagate_param get p x)) as [H1 H2].
  assert (same_var (env_of param) p (propagate_param get p x)) as [H3 H4]; [|split; congruence].
  destruct (decide (env_of param = env_of x)) as [E|Hne]; [|by apply propagate_other].
  rewrite (Hinj x ltac:(left) (eq_sym E)). unfold propagate_param. destruct p. unfold value_of in Hv.
  destruct (get param) as [[|a t]|]; done.
Qed.

Lemma self_exported_not_overridden p n : self_exported p n = true → overridden p n = false.
Proof. unfold overridden. intros ->. apply andb_false_r. Qed.

Lemma keystore_names : NoDup (env_of <$> keystore_params).
Proof. apply (bool_decide_unpack _). vm_compute. exact I. Qed.
Lemma keystore_names_inj param x : param ∈ keystore_params → x ∈ keystore_params → env_of x = env_of param → x = param.
Proof.
  intros Hp Hx E. apply list_elem_of_lookup in Hp as [i Hi], Hx as [j Hj].
  assert (i = j) as ->; [|congruence]. eapply (NoDup_lookup _ i j (env_of param) keystore_names); rewrite list_lookup_fmap, ?Hi, ?Hj; simpl; congruence.
Qed.

(** What a sequence of configurations makes of a variable that is nobody else's. *)
Lemma propagates_latest p configs param : param ∈ keystore_params → overridden p (env_of param) = false →
  let p' := foldl _propagate_keystore_env p configs in
  overridden p' (env_of param) = false ∧
  match latest param configs with
  | None => same_var (env_of param) p p'
  | Some value => dict_get (env_of param) (environment p') = Some value ∧ self_exported p' (env_of param) = true
  end.
Proof.
  intros Hin Ho. cbv zeta. induction configs as [|get configs [IHo IH]] using rev_ind; [done|].
  rewrite foldl_app, latest_snoc. cbn [foldl]. set (q := foldl _propagate_keystore_env p configs) in *.
  unfold _propagate_keystore_env. destruct (value_of param get) as [value|] eqn:Ev.
  - unfold value_of in Ev. destruct (get param) as [v|] eqn:Eg; [|done]. cbn in Ev. destruct (truthy v) eqn:Et; [|done]. injection Ev as <-.
    destruct (propagates_set get keystore_params q param v keystore_names Hin Eg) as [H1 H2]; [by intros ->|done|].
    split; [by apply self_exported_not_overridden|done].
  - pose proof (propagates_nothing get keystore_params q param (λ x, keystore_names_inj param x Hin) Ev) as Hsame.
    set (q' := foldl (propagate_param get) q keystore_params) in *. split.
    + revert IHo. unfold overridden, dict_in. by rewrite (proj1 Hsame), (same_self_exported _ _ _ Hsame).
    + destruct (latest param configs); [by rewrite (proj1 Hsame), (same_self_exported _ _ _ Hsame)|].
      destruct IH, Hsame. split; congruence.
Qed.

(** C35. Keystore variables in a process that builds any number of configurations. A variable that
    somebody else set keeps its value through all of them, and is read as an override by the next.
    (Set to what a configuration had exported, it is taken for the export:
    [override_with_exported_value].) Any other one has, after all of them, the value of the latest
    configuration that gives it one; it is not read back as if it were an override, so it never
    outranks the file of a later configuration. If none gives it a value it is as it was. *)
Theorem keystore_overrides_kept p (configs : list (string → option string)) :
  let p' := foldl _propagate_keystore_env p configs in
  (∀ n, overridden p n = true → dict_get n (environment p') = dict_get n (environment p) ∧ overridden p' n = true) ∧
  (∀ param, param ∈ keystore_params → overridden p (env_of param) = false →
     match latest param configs with
     | None => same_var (env_of param) p p'
     | Some value =>
       dict_get (env_of param) (environment p') = Some value ∧
       ∀ literal_eval safe_load vars f, field_name f = param →
         load_field literal_eval safe_load (environment p') (_KEYSTORE_ENV_EXPORTED p') vars f = Ok vars
     end).
Proof.
  intros p'. split.
  - intros n. unfold p'. clear p'. revert p. induction configs as [|get configs IH]; intros p Ho; [done|]. cbn [foldl].
    destruct (propagates_overridden get keystore_params p n Ho) as [He Ho']. destruct (IH _ Ho') as [He' Ho''].
    split; [exact (eq_trans He' He)|done].
  - intros param Hin Ho. destruct (propagates_latest p configs param Hin Ho) as [_ H]. fold p' in H.
    destruct (latest param configs) as [value|]; [|done]. destruct H as [He Hs]. split; [exact He|].
    intros le sl vars f <-. unfold load_field. unfold self_exported, env_of in Hs. fold (env_name f) in Hs.
    destruct (exclude f || is_ignored_field f); [done|]. by rewrite Hs.
Qed.

Lemma keystore_overrides_kept_witness :
  let get region k := if String.eqb k "keystore_backend" then Some "s3"%string else region in
  let p := Process [("SCT_KEYSTORE_BACKEND", "vault")]%string [] in
  let p' := foldl _propagate_keystore_env p [get (Some "us"%string); get (Some "eu"%string); get (Some EmptyString); get None] in
  dict_get "SCT_KEYSTORE_BACKEND"%string (environment p') = Some "vault"%string ∧
  dict_get "SCT_KEYSTORE_SM_REGION"%string (environment p') = Some "eu"%string.
Proof.
  intros get p p'.
  destruct (keystore_overrides_kept p [get (Some "us"%string); get (Some "eu"%string); get (Some EmptyString); get None]) as [Hkeep Hset]. split.
  - exact (proj1 (Hkeep "SCT_KEYSTORE_BACKEND"%string eq_refl)).
  - refine (proj1 (Hset "keystore_sm_region"%string _ eq_refl)). by right; right; left.
Defined.

(** An override with the value that was exported is taken for the export. *)
Example override_with_exported_value :
  let p := _propagate_keystore_env (Process [] []) (λ k, if String.eqb k "keystore_backend" then Some "s3"%string else None) in
  let set := Process (dict_set "SCT_KEYSTORE_BACKEND"%string "s3"%string (environment p)) (_KEYSTORE_ENV_EXPORTED p) in
  overridden set "SCT_KEYSTORE_BACKEND" = false.
Proof. vm_compute. reflexivity. Qed.
End ConfigLoading.
