(* ===== verification/KeyStore.v ===== *)
(** * The key store

    Model of [sdcm/keystore.py]: reading files of credentials from Secrets Manager or S3 with the
    cache of the process, their copies on disk, and the temporary file of an SSH key.

    The services are a function from the requests made so far to the next answer, so secrets may
    change in between. Contents are texts; MD5 is an argument. Locks make the operations atomic
    and are left out. *)
From Stdlib Require Import Ascii String ZArith Lia.
From stdpp Require Import base decidable option strings numbers list.
From S2P Require Import Prelude.
From S2P Require Import PyString.
From S2P Require Import PyInt.
From S2P Require Import PyDict.
From S2P Require Import PyLiteral.
From S2P Require Import Effects.
Local Open Scope py_scope.

Module KeyStore.

(** ** Services *)
Inductive kexn : Type := ClientError (code : string) | OtherError.

(** The endpoint that the environment sets is empty for the default one. *)
Inductive request : Type :=
  | GetObject (endpoint file_name : string)
  | GetSecretValue (region endpoint secret_name : string)
  | HeadObject (endpoint file_name : string)
  | DescribeSecret (region endpoint secret_name : string).

Definition _TRANSIENT_S3_ERROR_CODES : list string := ["SlowDown"; "InternalError"; "ServiceUnavailable"]%string.
Definition _TRANSIENT_SM_ERROR_CODES : list string := ["ThrottlingException"; "InternalServiceError"]%string.
Definition _is_transient_error (x : kexn) : bool :=
  match x with
  | ClientError code => existsb (String.eqb code) _TRANSIENT_S3_ERROR_CODES || existsb (String.eqb code) _TRANSIENT_SM_ERROR_CODES
  | OtherError => false
  end.
Definition _NOT_FOUND_ERROR_CODES : list string := ["NoSuchKey"; "404"; "ResourceNotFoundException"]%string.
Definition is_not_found_error (x : kexn) : bool :=
  match x with ClientError code => existsb (String.eqb code) _NOT_FOUND_ERROR_CODES | OtherError => false end.

(** ** State *)
Abbreviation environ := (list (string * string)).
(** Backend, prefix, region, endpoint and name. *)
Abbreviation cache_key := (string * string * string * string * string)%type.
Record file := File { content : string; mode : Z }.
Record world := World { _cache : list (cache_key * string); disk : list (string * file); asked : list request }.

Definition set_cache (c : list (cache_key * string)) (w : world) : world := World c (disk w) (asked w).
Definition set_disk (d : list (string * file)) (w : world) : world := World (_cache w) d (asked w).

(** ** Instances *)
Definition KEYSTORE_SM_REGION : string := "us-east-1".
Definition KEYSTORE_SM_PREFIX : string := "sct/".
Record KeyStore := Store { _backend : string; _sm_prefix : string; _sm_region : string }.

(** [env.get(name) or default] *)
Definition env_or (env : environ) (name default : string) : string :=
  match dict_get name env with None | Some EmptyString => default | Some v => v end.
Definition init (backend : option string) (env : environ) : KeyStore :=
  Store (match backend with None | Some EmptyString => env_or env "SCT_KEYSTORE_BACKEND" "secretsmanager" | Some b => b end)
    (env_or env "SCT_KEYSTORE_SM_PREFIX" KEYSTORE_SM_PREFIX) (env_or env "SCT_KEYSTORE_SM_REGION" KEYSTORE_SM_REGION).

Definition endpoint (env : environ) : string := default EmptyString (dict_get "AWS_ENDPOINT_URL"%string env).
Definition _cache_key (self : KeyStore) (env : environ) (file_name : string) : cache_key :=
  (_backend self, _sm_prefix self, _sm_region self, endpoint env, file_name).

Section Services.
(** Contents and tags, and the versions of a secret with their stages. *)
Context (answer : list request → request → outcome kexn string).
Context (describe : list request → request → outcome kexn (list (string * list string))).

Definition ask {A} (f : list request → request → outcome kexn A) (r : request) : act world kexn A :=
  λ w, (World (_cache w) (disk w) (asked w ++ [r]), f (asked w) r).
(** At most [S more] attempts while the errors are transient. *)
Fixpoint attempts {A} (more : nat) (m : act world kexn A) : act world kexn A :=
  try_except _is_transient_error m (λ x, match more with O => raise x | S more => attempts more m end).
Definition retried {A} (f : list request → request → outcome kexn A) (r : request) : act world kexn A := attempts 2 (ask f r).

Definition _fetch_from_s3 (env : environ) (file_name : string) : act world kexn string := retried answer (GetObject (endpoint env) file_name).
Definition _fetch_from_secrets_manager (self : KeyStore) (env : environ) (file_name : string) : act world kexn string :=
  retried answer (GetSecretValue (_sm_region self) (endpoint env) (_sm_prefix self +:+ file_name)).
Definition _fetch_content (self : KeyStore) (env : environ) (file_name : string) : act world kexn string :=
  if String.eqb (_backend self) "secretsmanager" then _fetch_from_secrets_manager self env file_name else _fetch_from_s3 env file_name.

Definition get_file_contents (self : KeyStore) (env : environ) (file_name : string) (bypass_cache : bool) : act world kexn string :=
  let key := _cache_key self env file_name in
  let! cached := gets (λ w, if bypass_cache then None else dict_get key (_cache w)) in
  match cached with
  | Some result => ret result
  | None =>
    let! result := _fetch_content self env file_name in
    modify (λ w, set_cache (dict_set key result (_cache w)) w) ;;;
    ret result
  end.
Definition clear_cache : act world kexn unit := modify (set_cache []).

(** ** Copies on disk *)

(** [open(path, "wb")]: the file is empty from then on; a new one has the mode of the umask. *)
Context (new_mode : Z).
Definition truncate (path : string) : act world kexn unit :=
  modify (λ w, set_disk (dict_set path (File EmptyString (match dict_get path (disk w) with Some f => mode f | None => new_mode end)) (disk w)) w).
Definition write (path text : string) : act world kexn unit :=
  modify (λ w, set_disk (match dict_get path (disk w) with
                         | Some f => dict_set path (File (content f +:+ text) (mode f)) (disk w)
                         | None => disk w
                         end) w).
Definition chmod (path : string) (permissions : Z) : act world kexn unit :=
  let! f := gets (λ w, dict_get path (disk w)) in
  match f with
  | None => raise OtherError
  | Some f => modify (λ w, set_disk (dict_set path (File (content f) permissions) (disk w)) w)
  end.
Definition unlink (path : string) : act world kexn unit := modify (λ w, set_disk (dict_del path (disk w)) w).

Definition download_file (self : KeyStore) (env : environ) (filename dest_filename : string) : act world kexn unit :=
  truncate dest_filename ;;;
  let! text := _fetch_content self env filename in
  write dest_filename text.

(** MD5 of a text, as bytes and in hexadecimal digits, and the chunks of a file. *)
Context (digest hexdigest : string → string) (chunks : string → list string).
Definition quoted (s : string) : string := String "034" (s +:+ String "034" EmptyString).
Definition calculate_s3_etag (data : string) : string :=
  match chunks data with
  | [one] => quoted (hexdigest one)
  | l => quoted (hexdigest (join EmptyString (digest <$> l)) +:+ "-" +:+ str_Z (Z.of_nat (List.length l)))
  end.

Definition get_object_etag (env : environ) (key : string) : act world kexn string := ask answer (HeadObject (endpoint env) key).
Definition current_version (versions : list (string * list string)) : string :=
  match List.find (λ v, existsb (String.eqb "AWSCURRENT") v.2) versions with Some v => v.1 | None => EmptyString end.
Definition get_sm_version_id (self : KeyStore) (env : environ) (key : string) : act world kexn string :=
  let! versions := retried describe (DescribeSecret (_sm_region self) (endpoint env) (_sm_prefix self +:+ key)) in
  ret (current_version versions).

Definition file_at (path : string) : act world kexn (option string) := gets (λ w, content <$> dict_get path (disk w)).

Definition get_obj_if_needed (self : KeyStore) (env : environ) (key local_path : string) (permissions : Z) : act world kexn unit :=
  let path := local_path +:+ "/" +:+ key in
  let version_path := path +:+ ".version" in
  let! vd :=
    if String.eqb (_backend self) "s3" then
      let! tag := get_object_etag env key in
      let! local := file_at path in
      ret (EmptyString, match local with Some data => negb (String.eqb tag (calculate_s3_etag data)) | None => true end)
    else
      let! remote_version := get_sm_version_id self env key in
      let! local := file_at path in
      let! version := file_at version_path in
      ret (remote_version, match local, version with Some _, Some v => negb (String.eqb (strip v) remote_version) | _, _ => true end)
  in
  let '(remote_version, dl_flag) := vd in
  (if (dl_flag : bool) then
     download_file self env key path ;;;
     chmod path permissions ;;;
     (if String.eqb (_backend self) "secretsmanager" then truncate version_path ;;; write version_path remote_version else ret tt)
   else ret tt) ;;;
  (if String.eqb (_backend self) "secretsmanager" then chmod version_path permissions else ret tt).

(** ** The file of an SSH key *)
Definition get_ssh_key_pair (self : KeyStore) (env : environ) (name : string) : act world kexn (string * string) :=
  let! public_key := get_file_contents self env (name +:+ ".pub") false in
  let! private_key := get_file_contents self env name false in
  ret (public_key, private_key).

(** [path]: the name of the temporary file. *)
Definition materialize_ssh_key {A} (env : environ) (name path : string) (body : act world kexn A) : act world kexn A :=
  modify (λ w, set_disk (dict_set path (File EmptyString 384) (disk w)) w) ;;;
  let! keys := get_ssh_key_pair (init None env) env name in
  write path keys.2 ;;;
  try_finally body (unlink path).
End Services.

(** An action that leaves the disk alone. *)
Definition keeps_disk {A} (m : act world kexn A) : Prop := ∀ w, disk (m w).1 = disk w.

(** ** Whose bytes they are *)

(** The request that reads the file of a key of the cache. *)
Definition source (key : cache_key) : request :=
  let '(backend, prefix, region, endpoint, file_name) := key in
  if String.eqb backend "secretsmanager" then GetSecretValue region endpoint (prefix +:+ file_name) else GetObject endpoint file_name.

Section Cache.
Context (answer : list request → request → outcome kexn string).

(** The bytes were the answer to this request, made after the ones of [start]. *)
Definition answered (start : list request) (w : world) (r : request) (b : string) : Prop :=
  ∃ h later, asked w = start ++ h ++ r :: later ∧ answer (start ++ h) r = Ok b.
Definition cache_sound (start : list request) (w : world) : Prop :=
  (∃ h, asked w = start ++ h) ∧ ∀ key b, dict_get key (_cache w) = Some b → answered start w (source key) b.

(** A request that is repeated: only this one is made, up to three times, and what it returns is the
    last answer. *)
Lemma attempts_spec {A} (f : list request → request → outcome kexn A) more r w :
  let '(w', x) := attempts more (ask f r) w in
  ∃ n, (n <= more)%nat ∧ w' = World (_cache w) (disk w) (asked w ++ replicate n r ++ [r]) ∧ f (asked w ++ replicate n r) r = x.
Proof.
  revert w. induction more as [|more IH]; intros w.
  - cbn. unfold try_except, ask. destruct (f (asked w) r) as [a|x] eqn:E; [|destruct (_is_transient_error x)];
      (exists 0%nat; cbn [replicate app]; rewrite app_nil_r; done).
  - cbn [attempts]. unfold try_except at 1, ask at 1. destruct (f (asked w) r) as [a|x] eqn:E.
    { exists 0%nat. cbn [replicate app]. rewrite app_nil_r. split; [lia|done]. }
    destruct (_is_transient_error x).
    + specialize (IH (World (_cache w) (disk w) (asked w ++ [r]))). destruct (attempts more (ask f r) _) as [w' y].
      destruct IH as (n & Hn & -> & Hy). exists (S n). split; [lia|]. cbn [_cache disk asked replicate app] in *. rewrite <-!app_assoc in *. done.
    + exists 0%nat. cbn [replicate app]. rewrite app_nil_r. split; [lia|done].
Qed.

Lemma fetch_source self env name : _fetch_content answer self env name = retried answer (source (_cache_key self env name)).
Proof. unfold _fetch_content, _cache_key, source. by destruct (String.eqb (_backend self) "secretsmanager"). Qed.

Lemma answered_more start w r b c d more : answered start w r b → answered start (World c d (asked w ++ more)) r b.
Proof. intros (h & later & Hw & Hb). exists h, (later ++ more). cbn [asked]. rewrite Hw, <-!app_assoc. done. Qed.

Lemma get_spec self env name bypass start w : cache_sound start w →
  let key := _cache_key self env name in
  let '(w', x) := get_file_contents answer self env name bypass w in
  cache_sound start w' ∧ disk w' = disk w ∧
  (∀ b, x = Ok b → answered start w' (source key) b ∧ dict_get key (_cache w') = Some b) ∧
  (∃ n, (n <= 3)%nat ∧ asked w' = asked w ++ replicate n (source key) ∧ (bypass = false → is_Some (dict_get key (_cache w)) → n = 0%nat)) ∧
  (∀ x', x = Err x' → _cache w' = _cache w).
Proof.
  intros [[h Hh] Hs] key. unfold get_file_contents. fold key. unfold bind at 1, gets at 1. rewrite fetch_source. fold key.
  destruct (if bypass then None else dict_get key (_cache w)) as [b|] eqn:E.
  { assert (Hb : dict_get key (_cache w) = Some b) by (by destruct bypass). unfold ret.
    split; [split; [by exists h|done]|]. split; [done|]. split; [intros ? [= <-]; auto|]. split; [|done].
    exists 0%nat. split; [lia|]. cbn. by rewrite app_nil_r. }
  unfold bind at 1, retried. pose proof (attempts_spec answer 2 (source key) w) as H.
  destruct (attempts 2 (ask answer (source key)) w) as [w' x]. destruct H as (n & Hn & -> & Hx).
  assert (Hcount : ∃ m, (m <= 3)%nat ∧ asked w ++ replicate n (source key) ++ [source key] = asked w ++ replicate m (source key) ∧
    (bypass = false → is_Some (dict_get key (_cache w)) → m = 0%nat)).
  { exists (S n). split; [lia|]. split; [by rewrite replicate_S_end|]. intros -> [? ?]. congruence. }
  destruct x as [b|x]; unfold bind, modify, ret, set_cache; cbn [_cache disk asked].
  - assert (Hnew : ∀ c d, answered start (World c d (asked w ++ replicate n (source key) ++ [source key])) (source key) b).
    { intros c d. exists (h ++ replicate n (source key)), []. cbn [asked]. rewrite Hh, <-!app_assoc in *. done. }
    split; [|split; [done|split; [intros ? [= <-]; split; [apply Hnew|by rewrite dict_get_set, decide_True]|split; [done|done]]]].
    split; [exists (h ++ replicate n (source key) ++ [source key]); cbn [asked]; by rewrite Hh, <-!app_assoc|].
    intros key' b'. cbn [_cache]. rewrite dict_get_set. case_decide as Ek; [|intros Hk; by apply answered_more, Hs]. intros [= <-]. subst key'. apply Hnew.
  - split; [|split; [done|split; [done|split; [done|done]]]]. split; [exists (h ++ replicate n (source key) ++ [source key]); cbn [asked]; by rewrite Hh, <-!app_assoc|].
    intros key' b' Hk. by apply answered_more, Hs.
Qed.
End Cache.

(** What the instances of a process ask for: instance, environment, name, whether to bypass the cache. *)
Abbreviation lookup := (KeyStore * environ * string * bool)%type.
Definition look_up (answer : list request → request → outcome kexn string) (w : world) (l : lookup) : world :=
  let '(self, env, name, bypass) := l in (get_file_contents answer self env name bypass w).1.

Lemma look_ups_sound answer start ls w : cache_sound answer start w → cache_sound answer start (foldl (look_up answer) w ls).
Proof.
  revert w. induction ls as [|[[[self env] name] bypass] ls IH]; intros w Hw; [done|]. cbn [foldl]. apply IH. unfold look_up.
  pose proof (get_spec answer self env name bypass start w Hw) as H. destruct (get_file_contents _ _ _ _ _ w) as [w' x]. apply H.
Qed.

(** C21. The cache of the process, after it was cleared or at the start, with any lookups by any
    instances and environments, and services that may change or fail at any time. The bytes that a
    lookup returns are an answer of the service, region, endpoint and name that this very
    instance reads, given since the cache was cleared; never those of another backend or endpoint.
    A lookup makes at most three requests, only of its own, none if the bytes are known and it
    does not bypass them; and one that was answered is answered again the same without a request. *)
Theorem cached_bytes_from_own_store answer w (ls : list lookup) self env name bypass :
  _cache w = [] →
  let w1 := foldl (look_up answer) w ls in
  let key := _cache_key self env name in
  let '(w2, x) := get_file_contents answer self env name bypass w1 in
  (∃ n, (n <= 3)%nat ∧ asked w2 = asked w1 ++ replicate n (source key) ∧
     (bypass = false → is_Some (dict_get key (_cache w1)) → n = 0%nat)) ∧
  match x with
  | Ok b => answered answer (asked w) w2 (source key) b ∧ get_file_contents answer self env name false w2 = (w2, Ok b)
  | Err _ => _cache w2 = _cache w1
  end.
Proof.
  intros Hc w1 key. assert (Hw : cache_sound answer (asked w) w).
  { split; [exists []; by rewrite app_nil_r|]. by rewrite Hc. }
  pose proof (get_spec answer self env name bypass _ w1 (look_ups_sound _ _ ls _ Hw)) as H. fold key in H.
  destruct (get_file_contents answer self env name bypass w1) as [w2 x]. destruct H as (_ & _ & Hok & Hn & Herr).
  split; [exact Hn|]. destruct x as [b|x]; [|by eapply Herr]. destruct (Hok b eq_refl) as [Ha Hk]. split; [done|].
  unfold get_file_contents. fold key. unfold bind at 1, gets at 1. by rewrite Hk.
Qed.

Definition sample_answer (h : list request) (r : request) : outcome kexn string :=
  match r with
  | GetSecretValue _ _ "sct/a.json" => if (List.length h =? 0)%nat then Err (ClientError "ThrottlingException") else Ok "secret"%string
  | GetObject _ "a.json" => Ok "object"%string
  | _ => Err OtherError
  end.
Lemma cached_bytes_from_own_store_witness :
  let start := World [] [] [] in
  let w1 := foldl (look_up sample_answer) start [(init None [], [], "a.json", false); (init (Some "s3") [], [], "a.json", false)]%string in
  List.length (asked w1) = 3%nat ∧ get_file_contents sample_answer (init None []) [] "a.json" false w1 = (w1, Ok "secret"%string) ∧
  answered sample_answer [] w1 (GetSecretValue "us-east-1" EmptyString "sct/a.json") "secret".
Proof.
  intros start w1. split; [vm_compute; reflexivity|]. split; [vm_compute; reflexivity|].
  pose proof (cached_bytes_from_own_store sample_answer start [(init None [], [], "a.json", false); (init (Some "s3") [], [], "a.json", false)]%string
    (init None []) [] "a.json" false eq_refl) as H. cbv zeta in H.
  assert (Hg : get_file_contents sample_answer (init None []) [] "a.json" false w1 = (w1, Ok "secret"%string)) by (vm_compute; reflexivity).
  fold w1 in H. rewrite Hg in H. destruct H as (_ & Ha & _). exact Ha.
Defined.

(** ** Copies of secrets *)
Section Sync.
Context (answer : list request → request → outcome kexn string).
Context (describe : list request → request → outcome kexn (list (string * list string))).
Context (new_mode : Z) (digest hexdigest : string → string) (chunks : string → list string).
Context (self : KeyStore) (env : environ) (key local_path : string) (permissions : Z).
Abbreviation sync := (get_obj_if_needed answer describe new_mode digest hexdigest chunks self env key local_path permissions).

Definition path_of : string := local_path +:+ "/" +:+ key.
Definition version_path_of : string := path_of +:+ ".version".

(** The content of each version of the secret. *)
Context (secret : string → string).
(** A copy with a version next to it is of this version. *)
Definition copy_sound (w : world) : Prop := ∀ f v, dict_get path_of (disk w) = Some f → dict_get version_path_of (disk w) = Some v →
  content f = secret (strip (content v)).

Lemma paths_differ : path_of ≠ version_path_of.
Proof.
  unfold version_path_of. intros H. apply (f_equal String.length) in H. rewrite (PyLiteral.str_length_app path_of) in H. change (String.length ".version") with 8%nat in H. lia.
Qed.

Lemma retried_ok {A} (f : list request → request → outcome kexn A) r a w : f (asked w) r = Ok a →
  retried f r w = (World (_cache w) (disk w) (asked w ++ [r]), Ok a).
Proof. intros H. unfold retried. cbn [attempts]. unfold try_except, ask. by rewrite H. Qed.

(** The requests for the secret and for its versions. *)
Definition fetch : request := GetSecretValue (_sm_region self) (endpoint env) (_sm_prefix self +:+ key).
Definition ask_version : request := DescribeSecret (_sm_region self) (endpoint env) (_sm_prefix self +:+ key).

Lemma bind_ok {A B} (m : act world kexn A) (k : A → act world kexn B) w w' a : m w = (w', Ok a) → bind m k w = k a w'.
Proof. unfold bind. by intros ->. Qed.

(** The file at a path after [truncate] and [write]. *)
Definition rewritten (path text : string) (d : list (string * file)) : list (string * file) :=
  dict_set path (File text (match dict_get path d with Some f => mode f | None => new_mode end)) d.
Lemma write_ok path text w c d l : w = World c (rewritten path EmptyString d) l → write path text w = (World c (rewritten path text d) l, Ok tt).
Proof.
  intros ->. unfold write, modify, set_disk, rewritten. cbn [disk _cache asked]. rewrite dict_get_set, decide_True by done. cbn [content mode].
  by rewrite dict_set_set.
Qed.
Lemma chmod_ok path w f : dict_get path (disk w) = Some f →
  chmod path permissions w = (World (_cache w) (dict_set path (File (content f) permissions) (disk w)) (asked w), Ok tt).
Proof. intros H. unfold chmod, bind, gets. by rewrite H. Qed.

Lemma download_ok w text path : _backend self = "secretsmanager"%string → answer (asked w) fetch = Ok text →
  download_file answer new_mode self env key path w = (World (_cache w) (rewritten path text (disk w)) (asked w ++ [fetch]), Ok tt).
Proof.
  intros Hb Ha. unfold download_file. erewrite bind_ok by done. unfold _fetch_content. rewrite Hb, String.eqb_refl.
  erewrite bind_ok by (by apply retried_ok). by apply write_ok.
Qed.

Definition up_to_date (w : world) (v : string) : bool :=
  match dict_get path_of (disk w), dict_get version_path_of (disk w) with
  | Some _, Some f => String.eqb (strip (content f)) v
  | _, _ => false
  end.

Lemma sync_looks w versions : _backend self = "secretsmanager"%string → describe (asked w) ask_version = Ok versions →
  let v := current_version versions in let w1 := World (_cache w) (disk w) (asked w ++ [ask_version]) in
  sync w = ((if up_to_date w v then ret tt
             else download_file answer new_mode self env key path_of ;;; chmod path_of permissions ;;;
                  (truncate new_mode version_path_of ;;; write version_path_of v)) ;;; chmod version_path_of permissions) w1.
Proof.
  intros Hb Hd v w1. unfold get_obj_if_needed, up_to_date. fold path_of. fold version_path_of. rewrite Hb, String.eqb_refl.
  change (String.eqb "secretsmanager" "s3") with false. cbn iota. unfold get_sm_version_id. fold ask_version.
  unfold bind at 1. unfold bind at 1. unfold bind at 1. rewrite (retried_ok _ _ versions) by done. fold w1. fold v.
  unfold ret, file_at, gets, bind. cbn [disk]. change (disk w1) with (disk w).
  destruct (dict_get path_of (disk w)) as [f|], (dict_get version_path_of (disk w)) as [g|]; cbn [fmap option_fmap option_map]; try done.
  by destruct (String.eqb (strip (content g)) v).
Qed.

(** What a copy of a version of the secret is. *)
Definition copy_of (v : string) (w : world) : Prop :=
  ∃ f g, dict_get path_of (disk w) = Some f ∧ dict_get version_path_of (disk w) = Some g ∧
    content f = secret v ∧ strip (content g) = v ∧ mode g = permissions.

Lemma sync_kept w versions : _backend self = "secretsmanager"%string → describe (asked w) ask_version = Ok versions →
  let v := current_version versions in copy_sound w → up_to_date w v = true →
  ∃ w', sync w = (w', Ok tt) ∧ copy_of v w' ∧ asked w' = asked w ++ [ask_version] ∧
    ∀ p, p ≠ version_path_of → dict_get p (disk w') = dict_get p (disk w).
Proof.
  intros Hb Hd v Hs Hu. rewrite (sync_looks _ _ Hb Hd). fold v. rewrite Hu. erewrite bind_ok by done.
  unfold up_to_date in Hu. destruct (dict_get path_of (disk w)) as [f|] eqn:Ef; [|done].
  destruct (dict_get version_path_of (disk w)) as [g|] eqn:Eg; [|done]. apply String.eqb_eq in Hu.
  rewrite (chmod_ok _ _ g) by exact Eg. eexists. split; [done|]. cbn [disk asked]. split; [|split; [done|]].
  - exists f, (File (content g) permissions). cbn [disk content mode].
    split; [by rewrite dict_get_set, decide_False by apply paths_differ|]. split; [by rewrite dict_get_set, decide_True by done|]. split; [|done]. by rewrite (Hs f g Ef Eg), Hu.
  - intros p Hp. by rewrite dict_get_set, decide_False.
Qed.

Lemma sync_copied w versions : _backend self = "secretsmanager"%string → describe (asked w) ask_version = Ok versions →
  let v := current_version versions in strip v = v → up_to_date w v = false → answer (asked w ++ [ask_version]) fetch = Ok (secret v) →
  ∃ w', sync w = (w', Ok tt) ∧ copy_of v w' ∧ asked w' = asked w ++ [ask_version; fetch] ∧
    ∀ p, p ≠ path_of → p ≠ version_path_of → dict_get p (disk w') = dict_get p (disk w).
Proof.
  intros Hb Hd v Hv Hu Ha. rewrite (sync_looks _ _ Hb Hd). fold v. rewrite Hu. pose proof paths_differ as Hne.
  erewrite bind_ok; [|erewrite bind_ok by (by apply download_ok)].
  2: { erewrite bind_ok by (apply chmod_ok; cbn [disk]; unfold rewritten; by rewrite dict_get_set, decide_True by done).
       erewrite bind_ok by done. by apply write_ok. }
  erewrite chmod_ok by (cbn [disk]; unfold rewritten; by rewrite dict_get_set, decide_True by done).
  eexists. split; [done|]. cbn [disk asked content]. split; [|split; [by rewrite <-app_assoc|]].
  - exists (File (secret v) permissions), (File v permissions). cbn [disk content mode]. unfold rewritten.
    split; [|split; [by rewrite dict_get_set, decide_True by done|done]].
    rewrite dict_get_set, decide_False by done. rewrite dict_get_set, decide_False by done. by rewrite dict_get_set, decide_True by done.
  - intros p Hp Hp'. unfold rewritten. by repeat (rewrite dict_get_set; rewrite decide_False by done).
Qed.

(** A copy of a secret on disk with its version next to it, in Secrets Manager: if the versions
    can be read, and the secret where it has to be, a sync leaves a copy of the current version
    with this version next to it under the permissions asked for. It asks for the secret only if
    the copy is missing or of another version, and changes no other file. Copies stay sound: one
    with a version next to it is of this version. *)
Theorem sync_leaves_current_copy w versions : _backend self = "secretsmanager"%string →
  describe (asked w) ask_version = Ok versions →
  let v := current_version versions in strip v = v → copy_sound w →
  (up_to_date w v = false → answer (asked w ++ [ask_version]) fetch = Ok (secret v)) →
  ∃ w', sync w = (w', Ok tt) ∧ copy_of v w' ∧ copy_sound w' ∧
    asked w' = asked w ++ ask_version :: (if up_to_date w v then [] else [fetch]) ∧
    ∀ p, p ≠ path_of → p ≠ version_path_of → dict_get p (disk w') = dict_get p (disk w).
Proof.
  intros Hb Hd v Hv Hs Ha. assert (Hsound : ∀ w', copy_of v w' → copy_sound w').
  { intros w' (f & g & Hf & Hg & Hc & Hcg & _) f' g' Hf' Hg'. rewrite Hf in Hf'. rewrite Hg in Hg'. injection Hf' as <-. injection Hg' as <-. by rewrite Hcg. }
  destruct (up_to_date w v) eqn:Hu.
  - destruct (sync_kept w versions Hb Hd Hs Hu) as (w' & Hw & Hc & Hasked & Hp). exists w'. auto 7.
  - destruct (sync_copied w versions Hb Hd Hv Hu (Ha eq_refl)) as (w' & Hw & Hc & Hasked & Hp). exists w'. auto 7.
Qed.
End Sync.

(** A secret with an old version on disk. *)
Definition sm : KeyStore := init None [].
Definition two_versions (h : list request) (r : request) : outcome kexn (list (string * list string)) :=
  Ok [("v1", ["AWSPREVIOUS"]); ("v2", ["AWSCURRENT"])]%string.
Definition by_version (v : string) : string := "key of " +:+ v.
Definition current_secret (h : list request) (r : request) : outcome kexn string := Ok (by_version "v2").
Definition old_copy : world := World [] [("ssh/id", File "key of v1" 384); ("ssh/id.version", File "v1" 436)]%string [].
Definition sync_id (answer : list request → request → outcome kexn string) : act world kexn unit :=
  get_obj_if_needed answer two_versions 420 id id (λ s, [s]) sm [] "id" "ssh" 384.

Lemma sync_leaves_current_copy_witness :
  let w' := (sync_id current_secret old_copy).1 in
  disk w' = [("ssh/id", File "key of v2" 384); ("ssh/id.version", File "v2" 384)]%string ∧
  copy_sound "id" "ssh" by_version w' ∧ List.length (asked (sync_id current_secret w').1) = 3%nat.
Proof.
  intros w'. split; [vm_compute; reflexivity|]. split; [|vm_compute; reflexivity].
  destruct (sync_leaves_current_copy current_secret two_versions 420 id id (λ s, [s]) sm [] "id" "ssh" 384 by_version old_copy
    [("v1", ["AWSPREVIOUS"]); ("v2", ["AWSCURRENT"])]%string) as (w'' & Hw & _ & Hs & _); [reflexivity..| | |].
  - intros f v [= <-] [= <-]. reflexivity.
  - intros _. reflexivity.
  - unfold w', sync_id. rewrite Hw. exact Hs.
Defined.

(** A download that fails leaves an empty file, with the version of the file that was there. *)
Example failed_download_empties_file :
  let answer (h : list request) (r : request) : outcome kexn string := Err OtherError in
  disk (sync_id answer old_copy).1 = [("ssh/id", File EmptyString 384); ("ssh/id.version", File "v1" 436)]%string.
Proof. vm_compute. reflexivity. Qed.

(** A backend of another name is asked for the version in Secrets Manager and for the file in S3. *)
Example other_backend_mixes_services :
  asked (get_obj_if_needed current_secret two_versions 420 id id (λ s, [s]) (init (Some "S3") []) [] "id" "ssh" 384 (World [] [] [])).1 =
    [DescribeSecret "us-east-1" EmptyString "sct/id"; GetObject EmptyString "id"]%string.
Proof. vm_compute. reflexivity. Qed.

(** ** The file of an SSH key *)
Lemma get_disk answer self env name bypass : keeps_disk (get_file_contents answer self env name bypass).
Proof.
  intros w. unfold get_file_contents, bind at 1, gets at 1. destruct (if bypass then None else _); [done|]. rewrite fetch_source.
  unfold bind, retried. pose proof (attempts_spec answer 2 (source (_cache_key self env name)) w) as H.
  destruct (attempts 2 _ w) as [w' x]. destruct H as (n & _ & -> & _). by destruct x.
Qed.
Lemma pair_disk answer self env name : keeps_disk (get_ssh_key_pair answer self env name).
Proof.
  intros w. unfold get_ssh_key_pair, bind at 1. pose proof (get_disk answer self env (name +:+ ".pub") false w) as H1.
  destruct (get_file_contents _ _ _ (name +:+ ".pub") _ w) as [w1 [pub|x]]; [|done]. unfold bind.
  pose proof (get_disk answer self env name false w1) as H2. destruct (get_file_contents _ _ _ name _ w1) as [w2 [priv|x]]; unfold ret; cbn [fst] in *; by rewrite H2.
Qed.

(** While the body runs, the file holds the private key and only its owner may read it; it is gone
    whatever the body does. If the key cannot be read, an empty file is left behind. *)
Theorem key_file_while_used {A} answer env name path (body : act world kexn A) w :
  let r := materialize_ssh_key answer env name path body w in
  match (get_ssh_key_pair answer (init None env) env name (World (_cache w) (dict_set path (File EmptyString 384) (disk w)) (asked w))).2 with
  | Ok (_, private_key) =>
    dict_get path (disk r.1) = None ∧ ∃ w', dict_get path (disk w') = Some (File private_key 384) ∧ r.2 = (body w').2
  | Err x => r.2 = Err x ∧ dict_get path (disk r.1) = Some (File EmptyString 384)
  end.
Proof.
  cbv zeta. set (w1 := World _ (dict_set path _ _) _).
  change (materialize_ssh_key answer env name path body w) with
    (match get_ssh_key_pair answer (init None env) env name w1 with
     | (s', Ok keys) => (write path keys.2 ;;; try_finally body (unlink path)) s'
     | (s', Err x) => (s', Err x)
     end).
  pose proof (pair_disk answer (init None env) env name w1) as Hd.
  assert (Hp : dict_get path (disk w1) = Some (File EmptyString 384)) by (cbn; by rewrite dict_get_set, decide_True).
  destruct (get_ssh_key_pair answer (init None env) env name w1) as [w2 [[pub priv]|x]]; cbn [fst snd] in *; [|by rewrite Hd].
  unfold bind, write, modify, set_disk. rewrite Hd, Hp. cbn [content mode].
  set (w3 := World _ _ _). assert (H3 : dict_get path (disk w3) = Some (File priv 384)) by (cbn; by rewrite dict_get_set, decide_True).
  unfold try_finally, unlink, modify. destruct (body w3) as [w4 r] eqn:E. cbn [fst snd set_disk disk]. split; [by rewrite dict_get_del, decide_True|].
  exists w3. by rewrite E.
Qed.
End KeyStore.
