(* ===== verification/Bisect.v ===== *)
(** * Bisecting builds, and running tasks in parallel

    Model of [sdcm/utils/bisect_test.py], which looks for the build that made a test worse, and of
    [sdcm/utils/parallel_object.py], which it updates the nodes with.

    S3's listing, the answers to HTTP requests, the update of the cluster to a build and the test
    itself are arguments. A build has the same effect whenever it is installed or tested. *)
From Stdlib Require Import Ascii String ZArith Lia.
From stdpp Require Import base decidable option strings numbers list.
From S2P Require Import Prelude.
From S2P Require Import PyString.
From S2P Require Import PyDate.
From S2P Require Import PyDict.
Local Open Scope py_scope.
Local Open Scope Z_scope.

(** ** Tasks in parallel *)
Module ParallelObject.
Section Run.
Context {T A E : Type}.

(** Exceptions: [concurrent.futures.TimeoutError] is the built-in [TimeoutError], whether the wait
    for a task or the task itself raises it. *)
Inductive texn : Type := TimeoutError | TaskError (e : E).

(** How long to wait for a task: the timeout of all, or 0.001 seconds. *)
Inductive wait_time : Type := Global | Short.

Record ParallelObjectResult := Result { obj : T; result : option A; exc : option texn }.
Inductive pexn : Type := ParallelObjectException (results : list ParallelObjectResult).

(** [future.result(time_out)] of the tasks, in order. *)
Context (future_result : nat → wait_time → outcome texn A).

Fixpoint collect (futures : list T) (i : nat) (time_out : wait_time) : list ParallelObjectResult :=
  match futures with
  | [] => []
  | target_obj :: futures' =>
    match future_result i time_out with
    | Err TimeoutError => Result target_obj None (Some TimeoutError) :: collect futures' (S i) Short
    | Err exception => Result target_obj None (Some exception) :: collect futures' (S i) time_out
    | Ok r => Result target_obj (Some r) None :: collect futures' (S i) time_out
    end
  end.
Definition run (objects : list T) (ignore_exceptions : bool) : outcome pexn (list ParallelObjectResult) :=
  let results := collect objects 0 Global in
  if ignore_exceptions then Ok results
  else if existsb (λ res, match exc res with Some _ => true | None => false end) results
       then Err (ParallelObjectException results) else Ok results.

(** The wait for the task at [i]: short once a task before it ended with a [TimeoutError]. *)
Fixpoint waits (n i : nat) (time_out : wait_time) : list wait_time :=
  match n with
  | O => []
  | S n => time_out :: waits n (S i) (match future_result i time_out with Err TimeoutError => Short | _ => time_out end)
  end.
Definition ended (o : T) (r : outcome texn A) : ParallelObjectResult :=
  match r with Ok a => Result o (Some a) None | Err x => Result o None (Some x) end.

Lemma collect_spec futures i t :
  collect futures i t = zip_with ended futures (imap (λ j w, future_result (i + j) w) (waits (List.length futures) i t)).
Proof.
  revert i t. induction futures as [|o futures IH]; intros i t; [done|]. cbn [collect List.length waits imap zip_with].
  rewrite Nat.add_0_r. assert (Himap : ∀ l, imap (λ j w, future_result (i + S j) w) l = imap (λ j w, future_result (S i + j) w) l)
    by (intros l; apply imap_ext; intros; by rewrite Nat.add_succ_r).
  unfold compose. rewrite Himap. destruct (future_result i t) as [a|[|e]]; cbn [ended]; by rewrite IH.
Qed.
Lemma collect_obj futures i t : obj <$> collect futures i t = futures.
Proof.
  revert i t. induction futures as [|o futures IH]; intros i t; [done|]. cbn [collect].
  destruct (future_result i t) as [a|[|e]]; cbn; by rewrite IH.
Qed.
End Run.
Arguments texn : clear implicits.
Arguments ParallelObjectResult : clear implicits.

(** Running a function on objects in parallel gives one result per object, in the order of the
    objects: what waiting for its task gave, with the global timeout for the tasks up to the first
    that ends with a [TimeoutError] and the short one after it. Unless exceptions are ignored, any
    exception makes the run raise, with all of the results. *)
Theorem one_result_per_object {T A E} (future_result : nat → wait_time → outcome (texn E) A) (objects : list T) ignore_exceptions :
  let results := zip_with ended objects (imap future_result (waits future_result (List.length objects) 0 Global)) in
  obj <$> results = objects ∧
  run future_result objects ignore_exceptions =
    if ignore_exceptions || forallb (λ res, match exc res with Some _ => false | None => true end) results
    then Ok results else Err (ParallelObjectException results).
Proof.
  cbv zeta. pose proof (collect_spec future_result objects 0 Global) as Hc. cbn [Nat.add] in Hc.
  change (imap (λ (j : nat) w, future_result j w)) with (imap future_result) in Hc. rewrite <-Hc. split; [apply collect_obj|].
  unfold run. destruct ignore_exceptions; [done|]. cbn [orb]. generalize (collect future_result objects 0 Global). intros l.
  assert (Hl : existsb (λ res : ParallelObjectResult T A E, match exc res with Some _ => true | None => false end) l =
    negb (forallb (λ res, match exc res with Some _ => false | None => true end) l)).
  { induction l as [|r l IH]; [done|]. cbn. rewrite IH. by destruct (exc r). }
  rewrite Hl. by destruct (forallb _ l).
Qed.

(** [tasks] with the identity of each callable. *)
Definition run_named_tasks_in_parallel {A E} (future_result : nat → wait_time → outcome (texn E) A)
    (tasks : list (string * nat)) (ignore_exceptions : bool)
    : outcome (pexn (T := nat) (A := A) (E := E)) (list (string * ParallelObjectResult nat A E)) :=
  let task_id_map := foldl (λ d t, dict_set t.2 t.1 d) [] tasks in
  try! task_results := run future_result tasks.*2 ignore_exceptions in
  Ok (foldl (λ d res, match dict_get (obj res) task_id_map with Some name => dict_set name res d | None => d end) [] task_results).

(** A task that raises [TimeoutError] itself is taken for one that did not end in time: tasks that
    would end within the timeout are given up. *)
Example own_timeout_gives_up_others :
  let future_result (i : nat) (w : wait_time) : outcome (texn unit) nat :=
    match i, w with O, _ => Err TimeoutError | _, Global => Ok 7%nat | _, Short => Err TimeoutError end in
  run future_result ["a"; "b"]%string true =
    Ok [Result "a" None (Some TimeoutError); Result "b" None (Some TimeoutError)]%string.
Proof. reflexivity. Qed.

(** One callable under two names has a result under the second name only. *)
Example shared_callable_loses_name :
  let future_result (i : nat) (w : wait_time) : outcome (texn unit) nat := Ok i in
  run_named_tasks_in_parallel future_result [("trigger", 5%nat); ("interrupt", 5%nat)]%string false =
    Ok [("interrupt", Result 5%nat (Some 1%nat) None)]%string.
Proof. reflexivity. Qed.
End ParallelObject.

(** ** Bisection *)
Module Bisect.
Import Date.

(** *** The builds of a range of dates *)

(** [datetime.strptime(s, "%Y-%m-%d")] and with [T%H:%M:%SZ] after it. *)
Definition read_date (s : string) : option (Z * Z * Z * string) :=
  '(y, s) ← read_four s; s ← eat "-" s; '(m, s) ← read_two s; s ← eat "-" s; '(d, s) ← read_two s; Some (y, m, d, s).
Definition whole_date (s : string) : option datetime :=
  '(y, m, d, s) ← read_date s;
  let t := DateTime y m d 0 0 0 in if negb (truthy s) && valid t then Some t else None.
Definition build_date (s : string) : option datetime :=
  '(y, m, d, s) ← read_date s;
  s ← eat "T" s; '(h, s) ← read_two s; s ← eat ":" s; '(mi, s) ← read_two s; s ← eat ":" s; '(sec, s) ← read_two s; s ← eat "Z" s;
  let t := DateTime y m d h mi sec in if negb (truthy s) && valid t then Some t else None.

Inductive bexn : Type := ValueError | IndexError | TestFailed.

(** [prefix.rsplit("/", 2)[-2]] of a prefix that ends with a slash. *)
Definition last_folder (p : string) : string := default EmptyString (last (removelast (split_on "/" p))).

Definition bucket : string := "downloads.scylladb.com".
Definition prefix_of (is_enterprise : bool) : string :=
  if is_enterprise then "unstable/scylla-enterprise/enterprise/deb/unified/" else "unstable/scylla/master/deb/unified/".
Definition suffix_of (is_enterprise : bool) : string :=
  if is_enterprise then "scylladb-enterprise/scylla.list" else "scylladb-master/scylla.list".
Definition repo_of (is_enterprise : bool) (date : string) : string :=
  "https://" +:+ bucket +:+ "/" +:+ prefix_of is_enterprise +:+ date +:+ "/" +:+ suffix_of is_enterprise.

Fixpoint in_range (start_date end_date : datetime) (dates : list string) : outcome bexn (list string) :=
  match dates with
  | [] => Ok []
  | date :: dates' =>
    match build_date date with
    | None => Err ValueError
    | Some t =>
      try! rest := in_range start_date end_date dates' in
      Ok (if (timestamp start_date <=? timestamp t) && (timestamp t <=? timestamp end_date) then date :: rest else rest)
    end
  end.
Definition get_repo_urls (common_prefixes : string → list string) (head_ok : string → bool)
    (start_date end_date : datetime) (is_enterprise : bool) : outcome bexn (list string) :=
  let dates := last_folder <$> filter (λ p, endswith "Z/" p = true) (common_prefixes (prefix_of is_enterprise)) in
  try! found := in_range start_date end_date dates in
  Ok (filter (λ repo, head_ok repo = true) (repo_of is_enterprise <$> found)).

(** *** The search *)
Section Search.
(** The version that an update to a build gives, if it succeeds, and the value of the test then. *)
Context (update_binaries : string → option string) (test_func : string → outcome bexn Z) (bisect_ref_value : Z).

(** Versions are unknown until a build of their kind was tested. *)
Record found := Found { last_good_version : option string; first_bad_version : option string; tested : list string }.

(** [None]: out of fuel. *)
Fixpoint search (fuel : nat) (repo_urls : list string) (low high : Z) (f : found) : option (outcome bexn found) :=
  match fuel with
  | O => None
  | S fuel =>
    if negb (low <=? high) then Some (Ok f)
    else
      let mid := (low + high) / 2 in
      match repo_urls !! Z.to_nat mid with
      | None => Some (Err IndexError)
      | Some repo_url =>
        match update_binaries repo_url with
        | None => search fuel (take (Z.to_nat mid) repo_urls ++ drop (S (Z.to_nat mid)) repo_urls) low (high - 1) f
        | Some version =>
          match test_func repo_url with
          | Err x => Some (Err x)
          | Ok bisect_result_value =>
            if bisect_ref_value <=? bisect_result_value
            then search fuel repo_urls (mid + 1) high (Found (Some version) (first_bad_version f) (tested f ++ [repo_url]))
            else search fuel repo_urls low (mid - 1) (Found (last_good_version f) (Some version) (tested f ++ [repo_url]))
          end
        end
      end
  end.

Definition bisect (repo_urls : list string) : option (outcome bexn found) :=
  search (S (List.length repo_urls)) repo_urls 0 (Z.of_nat (List.length repo_urls) - 1) (Found None None []).
End Search.

(** The decorator: a run with the initial binaries sets the reference, then the search. *)
Definition bisect_test (common_prefixes : string → list string) (head_ok : string → bool) (is_enterprise : bool) (today : datetime)
    (update_binaries : string → option string) (initial : outcome bexn Z) (test_func : string → outcome bexn Z)
    (start_date end_date : option string) : option (outcome bexn (option found)) :=
  match initial with
  | Err x => Some (Err x)
  | Ok bisect_ref_value =>
    match start_date with
    | None | Some EmptyString => Some (Ok None)
    | Some start_date =>
      match whole_date start_date,
            match end_date with None | Some EmptyString => Some today | Some e => whole_date e end with
      | Some bisect_start_date, Some bisect_end_date =>
        match get_repo_urls common_prefixes head_ok bisect_start_date bisect_end_date is_enterprise with
        | Err x => Some (Err x)
        | Ok repo_urls =>
          match bisect update_binaries test_func bisect_ref_value repo_urls with
          | None => None
          | Some (Err x) => Some (Err x)
          | Some (Ok f) => Some (Ok (Some f))
          end
        end
      | _, _ => Some (Err ValueError)
      end
    end
  end.

(** ** The search finds where builds change *)
Section Found.
Context (update_binaries : string → option string) (test_func : string → outcome bexn Z) (ref : Z).
Abbreviation search := (search update_binaries test_func ref).

Definition installs (u : string) : Prop := is_Some (update_binaries u).
#[local] Instance installs_dec u : Decision (installs u) := _.
Definition good (u : string) : Prop := ∃ z, test_func u = Ok z ∧ ref <= z.
Definition bad (u : string) : Prop := ∃ z, test_func u = Ok z ∧ z < ref.

(** A version that was found is that of the build at the edge, which was tested. *)
Definition edge (Q : string → Prop) (u : option string) (version : option string) : Prop :=
  match u with
  | None => version = None
  | Some u => Q u ∧ is_Some version ∧ update_binaries u = version
  end.

Definition tests_left (n : nat) : nat := match n with O => O | _ => S (Nat.log2 n) end.

Lemma tests_left_half n m : (m <= n / 2)%nat → n ≠ O → (S (tests_left m) <= tests_left n)%nat.
Proof.
  intros Hm Hn. unfold tests_left. destruct n as [|n]; [done|]. destruct m as [|m]; [lia|].
  rewrite <-(Nat.log2_double (S m)) by lia. apply le_n_S, Nat.log2_le_mono. pose proof (Nat.Div0.mul_div_le (S n) 2). lia.
Qed.
Lemma tests_left_mono n m : (m <= n)%nat → (tests_left m <= tests_left n)%nat.
Proof. intros H. unfold tests_left. destruct m, n; try lia. apply le_n_S, Nat.log2_le_mono. lia. Qed.

(** What a search over [A ++ M ++ B] gives, when [M] is left to look at. *)
Definition outcome_of (urls : list string) (left : nat) (f : found) (r : outcome bexn found) : Prop :=
  match r with
  | Ok f' => ∃ A B more, filter installs urls = filter installs (A ++ B) ∧
      edge good (last A) (last_good_version f') ∧ edge bad (head B) (first_bad_version f') ∧
      tested f' = tested f ++ more ∧ (List.length more <= tests_left left)%nat ∧ Forall (λ u, u ∈ urls) more
  | Err x => ∃ u, u ∈ urls ∧ installs u ∧ test_func u = Err x
  end.

Lemma split_middle (M : list string) : M ≠ [] → ∃ M1 u M2, M = M1 ++ u :: M2 ∧ List.length M1 = ((List.length M - 1) / 2)%nat.
Proof.
  intros HM. set (j := ((List.length M - 1) / 2)%nat).
  assert (Hj : (j < List.length M)%nat) by (destruct M; [done|]; unfold j; cbn [List.length]; pose proof (Nat.Div0.mul_div_le (S (List.length M) - 1) 2); lia).
  destruct (lookup_lt_is_Some_2 M j Hj) as [u Hu]. exists (take j M), u, (drop (S j) M).
  split; [by rewrite take_drop_middle|]. rewrite length_take. lia.
Qed.

Lemma mid_index (a m1 m2 : nat) : m1 = ((m1 + S m2 - 1) / 2)%nat →
  (Z.of_nat a + (Z.of_nat a + Z.of_nat (m1 + S m2) - 1)) / 2 = Z.of_nat (a + m1).
Proof.
  intros H. assert (Hz : Z.of_nat m1 = Z.of_nat (m1 + S m2 - 1) / 2) by (rewrite H at 1; apply Nat2Z.inj_div).
  rewrite Nat2Z.inj_sub in Hz by lia.
  replace (Z.of_nat a + (Z.of_nat a + Z.of_nat (m1 + S m2) - 1)) with (Z.of_nat (m1 + S m2) - 1 + Z.of_nat a * 2) by lia.
  rewrite Z.div_add by lia. lia.
Qed.

Lemma outcome_skip A M1 u M2 B f r : ¬ installs u →
  outcome_of (A ++ (M1 ++ M2) ++ B) (List.length (M1 ++ M2)) f r →
  outcome_of (A ++ (M1 ++ u :: M2) ++ B) (List.length (M1 ++ u :: M2)) f r.
Proof.
  intros Hu. destruct r as [f'|x]; simpl.
  - intros (A' & B' & more & Hf & HA & HB & Ht & Hn & Hm). exists A', B', more. split; [|split; [done|split; [done|split; [done|]]]].
    + rewrite <-Hf, !filter_app, filter_cons. by rewrite decide_False.
    + split; [etrans; [exact Hn|apply tests_left_mono; rewrite !length_app; simpl; lia]|].
      eapply Forall_impl; [exact Hm|]. intros v. rewrite !elem_of_app, elem_of_cons. tauto.
  - intros (v & Hv & H). exists v. split; [|done]. revert Hv. rewrite !elem_of_app, elem_of_cons. tauto.
Qed.

Lemma outcome_tested urls u left left' f g r : u ∈ urls →
  tested g = tested f ++ [u] → outcome_of urls left' g r → (S (tests_left left') <= tests_left left)%nat → outcome_of urls left f r.
Proof.
  intros Hu Hg. destruct r as [f'|x]; simpl; [|done].
  intros (A' & B' & more & Hf & HA & HB & Ht & Hn & Hm) Hl. exists A', B', (u :: more).
  split; [done|]. split; [done|]. split; [done|]. rewrite Ht, Hg, <-app_assoc. split; [done|]. split; [simpl; lia|by constructor].
Qed.

Lemma remove_middle (A M1 : list string) u M2 B : let i := (List.length A + List.length M1)%nat in
  take i (A ++ (M1 ++ u :: M2) ++ B) ++ drop (S i) (A ++ (M1 ++ u :: M2) ++ B) = A ++ (M1 ++ M2) ++ B.
Proof.
  cbv zeta. replace (A ++ (M1 ++ u :: M2) ++ B) with ((A ++ M1) ++ u :: M2 ++ B) by (by rewrite <-!app_assoc).
  rewrite <-length_app, take_app_length, drop_app_ge by lia. replace (S (List.length (A ++ M1)) - List.length (A ++ M1))%nat with 1%nat by lia.
  simpl. by rewrite drop_0, <-!app_assoc.
Qed.

Lemma search_found fuel A M B f :
  (List.length M < fuel)%nat → edge good (last A) (last_good_version f) → edge bad (head B) (first_bad_version f) →
  ∃ r, search fuel (A ++ M ++ B) (Z.of_nat (List.length A)) (Z.of_nat (List.length A) + Z.of_nat (List.length M) - 1) f = Some r ∧
    outcome_of (A ++ M ++ B) (List.length M) f r.
Proof.
  revert A M B f. induction fuel as [|fuel IH]; intros A M B f Hfuel HA HB; [lia|]. cbn [Bisect.search].
  destruct (decide (M = [])) as [->|HM].
  { rewrite (proj2 (Z.leb_gt _ _)) by (simpl; lia). cbn [negb]. eexists. split; [done|]. exists A, B, [].
    rewrite app_nil_r. simpl. split; [done|]. split; [done|]. split; [done|]. split; [done|]. split; [lia|constructor]. }
  destruct (split_middle M HM) as (M1 & u & M2 & -> & HM1).
  assert (Hu : u ∈ A ++ (M1 ++ u :: M2) ++ B) by (rewrite !elem_of_app, elem_of_cons; tauto).
  assert (HL : List.length (M1 ++ u :: M2) = (List.length M1 + S (List.length M2))%nat) by (by rewrite length_app).
  rewrite HL in Hfuel, HM1 |- *.
  assert (Hhalf : ∀ m, (m = List.length M1 ∨ m = List.length M2) → (S (tests_left m) <= tests_left (List.length M1 + S (List.length M2)))%nat).
  { intros m Hm. apply tests_left_half; [|lia].
    pose proof (Nat.div_mod_eq (List.length M1 + S (List.length M2) - 1) 2). pose proof (Nat.mod_upper_bound (List.length M1 + S (List.length M2) - 1) 2).
    apply Nat.div_le_lower_bound; lia. }
  rewrite (proj2 (Z.leb_le _ _)) by lia. cbn [negb]. rewrite (mid_index _ _ _ HM1), Nat2Z.id.
  assert (Hlook : (A ++ (M1 ++ u :: M2) ++ B) !! (List.length A + List.length M1)%nat = Some u).
  { rewrite lookup_app_r by lia. rewrite lookup_app_l by (rewrite HL; lia). apply list_lookup_middle. lia. }
  rewrite Hlook. destruct (update_binaries u) as [version|] eqn:Eu.
  2: { rewrite remove_middle.
       destruct (IH A (M1 ++ M2) B f) as (r & Hr & Ho); [rewrite length_app; lia|done|done|].
       exists r. split; [rewrite <-Hr; f_equal; rewrite length_app; lia|]. rewrite <-HL. apply outcome_skip; [|done].
       unfold installs. rewrite Eu. by intros [? ?]. }
  destruct (test_func u) as [z|x] eqn:Et.
  2: { eexists. split; [done|]. exists u. split; [done|]. split; [by eexists|done]. }
  destruct (Z.leb_spec ref z) as [Hz|Hz].
  - destruct (IH (A ++ M1 ++ [u]) M2 B (Found (Some version) (first_bad_version f) (tested f ++ [u]))) as (r & Hr & Ho); [lia| |done|].
    { rewrite app_assoc, last_snoc. split; [by exists z|]. by split; [eexists|]. }
    exists r. replace ((A ++ M1 ++ [u]) ++ M2 ++ B) with (A ++ (M1 ++ u :: M2) ++ B) in * by (by rewrite <-!app_assoc).
    split; [rewrite <-Hr; f_equal; rewrite !length_app; simpl; lia|]. eapply outcome_tested; [done| |exact Ho|apply Hhalf; by right]. done.
  - destruct (IH A M1 (u :: M2 ++ B) (Found (last_good_version f) (Some version) (tested f ++ [u]))) as (r & Hr & Ho); [lia|done| |].
    { split; [by exists z|]. by split; [eexists|]. }
    exists r. replace (A ++ M1 ++ u :: M2 ++ B) with (A ++ (M1 ++ u :: M2) ++ B) in * by (by rewrite <-!app_assoc).
    split; [rewrite <-Hr; f_equal; lia|]. eapply outcome_tested; [done| |exact Ho|apply Hhalf; by left]. done.
Qed.

Lemma edge_filter_last A version : edge good (last A) version → edge good (last (filter installs A)) version.
Proof.
  destruct A as [|u A _] using rev_ind; [done|]. rewrite last_snoc. intros (Hg & Hv & Hu).
  rewrite filter_app, filter_cons, decide_True, filter_nil by (unfold installs; by rewrite Hu). by rewrite last_snoc.
Qed.
Lemma edge_filter_head B version : edge bad (head B) version → edge bad (head (filter installs B)) version.
Proof.
  destruct B as [|u B]; [done|]. intros (Hb & Hv & Hu).
  by rewrite filter_cons, decide_True by (unfold installs; by rewrite Hu).
Qed.

(** No build below the reference is followed by one that is not. *)
Definition once_bad_always_bad (urls : list string) : Prop :=
  ∀ l1 u l2 w l3, urls = l1 ++ u :: l2 ++ w :: l3 → bad u → ¬ good w.

Lemma good_not_bad u : good u → bad u → False.
Proof. intros (z & Hz & ?) (z' & Hz' & ?). assert (z = z') by congruence. lia. Qed.

Lemma before_not_bad before after version u : once_bad_always_bad (before ++ after) → edge good (last before) version →
  u ∈ before → ¬ bad u.
Proof.
  intros Hm He Hu Hb. destruct before as [|w before _] using rev_ind; [by apply not_elem_of_nil in Hu|].
  rewrite last_snoc in He. destruct He as [Hw _]. apply elem_of_app in Hu as [Hu| ->%list_elem_of_singleton]; [|by eapply good_not_bad].
  apply list_elem_of_split in Hu as (l1 & l2 & ->). eapply (Hm l1 u l2 w after); [by rewrite <-!app_assoc|done|done].
Qed.
Lemma after_not_good before after version u : once_bad_always_bad (before ++ after) → edge bad (head after) version →
  u ∈ after → ¬ good u.
Proof.
  intros Hm He Hu Hg. destruct after as [|w after]; [by apply not_elem_of_nil in Hu|]. destruct He as [Hw _].
  apply elem_of_cons in Hu as [->|Hu]; [by eapply good_not_bad|].
  apply list_elem_of_split in Hu as (l1 & l2 & ->). by eapply (Hm before w l1 u l2).
Qed.
End Found.

(** C11. The bisection ends for every list of builds, whichever of them cannot be installed. It fails
    only if the test raises for a build that was installed. Otherwise the two versions it reports
    are those of neighbours among the builds that can be installed: the test was good with the one
    and bad with the next, or a version is unknown because that side is empty. At most one more
    test than the logarithm of the number of builds is run. If builds that are bad stay bad, none
    of the builds up to the good one is bad and none after it is good. *)
Theorem bisection_finds_neighbours update_binaries test_func ref urls :
  ∃ r, bisect update_binaries test_func ref urls = Some r ∧
  match r with
  | Err x => ∃ u, u ∈ urls ∧ installs update_binaries u ∧ test_func u = Err x
  | Ok f => ∃ before after,
      filter (installs update_binaries) urls = before ++ after ∧
      edge update_binaries (good test_func ref) (last before) (last_good_version f) ∧
      edge update_binaries (bad test_func ref) (head after) (first_bad_version f) ∧
      (List.length (tested f) <= tests_left (List.length urls))%nat ∧
      (once_bad_always_bad test_func ref (before ++ after) →
       (∀ u, u ∈ before → ¬ bad test_func ref u) ∧ (∀ u, u ∈ after → ¬ good test_func ref u))
  end.
Proof.
  destruct (search_found update_binaries test_func ref (S (List.length urls)) [] urls [] (Found None None [])) as (r & Hr & Ho); [lia|done|done|].
  rewrite app_nil_l, app_nil_r in Hr, Ho. exists r. split; [exact Hr|]. destruct r as [f|x]; [|exact Ho].
  destruct Ho as (A & B & more & Hf & HA & HB & Ht & Hn & _).
  exists (filter (installs update_binaries) A), (filter (installs update_binaries) B). rewrite <-filter_app.
  split; [done|]. apply edge_filter_last in HA. apply edge_filter_head in HB. split; [done|]. split; [done|]. split; [by rewrite Ht|].
  rewrite filter_app. intros Hm. split; intros u Hu; [by eapply before_not_bad|by eapply after_not_good].
Qed.

Definition sample_update (u : string) : option string := if String.eqb u "b3" then None else Some ("v" +:+ u).
Definition sample_test (u : string) : outcome bexn Z := Ok (if existsb (String.eqb u) ["b1"; "b2"; "b4"]%string then 10 else 5).
Definition sample_builds : list string := ["b1"; "b2"; "b3"; "b4"; "b5"; "b6"; "b7"]%string.

Lemma bisection_finds_neighbours_witness :
  ∃ f before after, bisect sample_update sample_test 8 sample_builds = Some (Ok f) ∧
    f = Found (Some "vb4") (Some "vb5") ["b4"; "b6"; "b5"]%string ∧
    filter (installs sample_update) sample_builds = before ++ after ∧ edge sample_update (good sample_test 8) (last before) (Some "vb4")%string.
Proof.
  assert (H : bisect sample_update sample_test 8 sample_builds = Some (Ok (Found (Some "vb4") (Some "vb5") ["b4"; "b6"; "b5"]%string)))
    by (vm_compute; reflexivity).
  destruct (bisection_finds_neighbours sample_update sample_test 8 sample_builds) as (r & Hr & Hout).
  rewrite H in Hr. injection Hr as <-. destruct Hout as (before & after & Hf & Hg & _).
  exists (Found (Some "vb4") (Some "vb5") ["b4"; "b6"; "b5"]%string), before, after. auto.
Defined.

(** The end date is midnight at its start: builds of that day are left out. *)
Example end_date_excluded :
  let prefixes _ := ["unstable/scylla/master/deb/unified/2025-03-01T08:00:00Z/"; "unstable/scylla/master/deb/unified/2025-03-02T08:00:00Z/";
                     "unstable/scylla/master/deb/unified/latest/"]%string in
  ∃ start_date end_date, whole_date "2025-03-01" = Some start_date ∧ whole_date "2025-03-02" = Some end_date ∧
    get_repo_urls prefixes (λ _, true) start_date end_date false =
      Ok ["https://downloads.scylladb.com/unstable/scylla/master/deb/unified/2025-03-01T08:00:00Z/scylladb-master/scylla.list"]%string.
Proof. exists (DateTime 2025 3 1 0 0 0), (DateTime 2025 3 2 0 0 0). split; [|split]; vm_compute; reflexivity. Qed.
End Bisect.
