(* ===== verification/Issues.v ===== *)
(** * Issues that skip a test

    Model of [sdcm/utils/issues.py]: references to issues of GitHub and Jira as they are parsed and
    printed, the cache of issues in CSV files, and [SkipPerIssues], which decides by the state and
    the labels of issues whether a test is skipped.

    The files of the key store and the live APIs are arguments that may fail; what the process
    remembers of their answers is not modelled. Texts are read by bytes: letters beyond ASCII are
    not word characters here. *)
From Stdlib Require Import Ascii String ZArith Lia.
From stdpp Require Import base decidable option strings numbers list.
From S2P Require Import Prelude.
From S2P Require Import PyString.
From S2P Require Import PyInt.
From S2P Require Import PyDict.
Local Open Scope py_scope.
Local Open Scope Z_scope.

Module Issues.

(** ** References *)
Inductive reference : Type := GitHubIssue (user repo : string) (number : Z) | JiraIssue (key : string).

Definition normalized (r : reference) : string :=
  match r with
  | GitHubIssue user repo number => user +:+ "/" +:+ repo +:+ "#" +:+ str_Z number
  | JiraIssue key => "jira:" +:+ key
  end.

Definition DEFAULT_GH_USER : string := "scylladb".
Definition DEFAULT_GH_REPO : string := "scylladb".

(** [[\w-]] *)
Definition is_word (c : ascii) : bool :=
  char_in "a" "z" (lower_char c) || is_digit c || Ascii.eqb c "_" || Ascii.eqb c "-".
(** [[\w-]+] and [\d+], taken whole: what may follow them in the patterns is none of theirs. *)
Definition read_word (s : string) : option (string * string) :=
  let '(w, rest) := span_while is_word s in if truthy w then Some (w, rest) else None.
Definition read_number (s : string) : option Z :=
  let '(ds, _) := span_while is_digit s in if truthy ds then Some (int_of_digits ds) else None.
Definition read_char (c : ascii) (s : string) : option string :=
  match s with String d s' => if Ascii.eqb d c then Some s' else None | EmptyString => None end.
(** A literal of a pattern, whatever the case; a dot is any character but a line feed. *)
Fixpoint read_literal (p s : string) : option string :=
  match p, s with
  | EmptyString, _ => Some s
  | String a p', String b s' =>
    if (Ascii.eqb a "." && negb (Ascii.eqb b "010")) || Ascii.eqb (lower_char a) (lower_char b) then read_literal p' s' else None
  | String _ _, EmptyString => None
  end.

(** [((user/)?repo)?#], the parts that are not there being empty. *)
Definition read_short (s : string) : option (string * string * string) :=
  match read_word s with
  | None => rest ← read_char "#" s; Some (EmptyString, EmptyString, rest)
  | Some (w, s') =>
    match read_char "/" s' with
    | Some s'' => '(repo, t) ← read_word s''; rest ← read_char "#" t; Some (w, repo, rest)
    | None => rest ← read_char "#" s'; Some (EmptyString, w, rest)
    end
  end.
(** [http(s?)://github.com/user/repo/(issues|pull)/] *)
Definition read_url (s : string) : option (string * string * string) :=
  s ← read_literal "http" s;
  s ← read_literal "://github.com/" (default s (read_literal "s" s));
  '(user, s) ← read_word s; s ← read_char "/" s; '(repo, s) ← read_word s; s ← read_char "/" s;
  s ← match read_literal "issues" s with Some s' => Some s' | None => read_literal "pull" s end;
  rest ← read_char "/" s; Some (user, repo, rest).

Definition numbered (p : option (string * string * string)) : option (string * string * Z) :=
  '(user, repo, rest) ← p; number ← read_number rest; Some (user, repo, number).
Definition GITHUB_ISSUE_PATTERN (s : string) : option (string * string * Z) :=
  match numbered (read_short s) with
  | Some r => Some r
  | None =>
    match numbered (read_url s) with
    | Some r => Some r
    | None => number ← read_number s; Some (EmptyString, EmptyString, number)
    end
  end.
Definition JIRA_ISSUE_PATTERN (s : string) : option string :=
  rest ← match read_literal "jira:" s with
         | Some rest => Some rest
         | None =>
           s ← read_literal "http" s;
           read_literal "://scylladb.atlassian.net/browse/" (default s (read_literal "s" s))
         end;
  '(key, _) ← read_word rest; Some key.

(** [x or y] *)
Definition or_default (x y : string) : string := if truthy x then x else y.

(** [None] is a [ValueError]. *)
Definition parse_issue (s : string) : option reference :=
  let s := strip s in
  if negb (truthy s) then None
  else
    match JIRA_ISSUE_PATTERN s with
    | Some key => Some (JiraIssue key)
    | None =>
      '(user, repo, number) ← GITHUB_ISSUE_PATTERN s;
      Some (GitHubIssue (or_default user DEFAULT_GH_USER) (or_default repo DEFAULT_GH_REPO) number)
    end.

(** ** The cache *)
Record Issue := MkIssue { state : string; labels : list string; title : option string }.

(** [str.splitlines()] *)
Definition is_line_end (c : ascii) : bool :=
  let n := nat_of_ascii c in ((10 <=? n) && (n <=? 13) || (28 <=? n) && (n <=? 30))%nat.
Fixpoint splitlines (s : string) (line : string) : list string :=
  match s with
  | EmptyString => if truthy line then [line] else []
  | String "013" (String "010" s') => line :: splitlines s' EmptyString
  | String c s' => if is_line_end c then line :: splitlines s' EmptyString else splitlines s' (line +:+ String c EmptyString)
  end.

(** The reader of [csv]: quoted fields, with doubled quotes, may go on over lines. *)
Inductive csv_state : Type := StartField | InField | InQuoted | QuoteInQuoted.
Definition quote : ascii := "034".
Definition csv_char (st : csv_state) (field : string) (done : list string) (c : ascii) : csv_state * string * list string :=
  let push := field +:+ String c EmptyString in
  match st with
  | StartField =>
    if Ascii.eqb c quote then (InQuoted, field, done)
    else if Ascii.eqb c "," then (StartField, EmptyString, done ++ [field])
    else (InField, push, done)
  | InField => if Ascii.eqb c "," then (StartField, EmptyString, done ++ [field]) else (InField, push, done)
  | InQuoted => if Ascii.eqb c quote then (QuoteInQuoted, field, done) else (InQuoted, push, done)
  | QuoteInQuoted =>
    if Ascii.eqb c quote then (InQuoted, push, done)
    else if Ascii.eqb c "," then (StartField, EmptyString, done ++ [field])
    else (InField, push, done)
  end.
Fixpoint csv_line (line : string) (st : csv_state) (field : string) (done : list string) : csv_state * string * list string :=
  match line with
  | EmptyString => (st, field, done)
  | String c line' => let '(st, field, done) := csv_char st field done c in csv_line line' st field done
  end.
(** Rows of lines; an empty line is skipped, and a quoted field that is never closed ends with them. *)
Fixpoint csv_rows (lines : list string) (st : csv_state) (field : string) (done : list string) : list (list string) :=
  match lines with
  | [] => match st with InQuoted => [done ++ [field]] | _ => [] end
  | line :: lines' =>
    match st, done, field, line with
    | StartField, [], EmptyString, EmptyString => csv_rows lines' StartField EmptyString []
    | _, _, _, _ =>
      match csv_line line st field done with
      | (InQuoted, field, done) => csv_rows lines' InQuoted field done
      | (_, field, done) => (done ++ [field]) :: csv_rows lines' StartField EmptyString []
      end
    end
  end.

(** An entry of a file with the columns [number], [state], [labels] and [title]. [None]: a column
    that is read is missing. *)
Definition issue_of (row : list string) : option (string * Issue) :=
  match row with
  | number :: state :: labels :: rest =>
    Some (number, MkIssue (lower state) (filter (λ l, truthy l = true) (split_on "|" (strip labels))) (head rest))
  | _ => None
  end.
Fixpoint read_rows {K} `{EqDecision K} (key : string → option K) (rows : list (list string)) (issues : list (K * Issue))
    : option (list (K * Issue)) :=
  match rows with
  | [] => Some issues
  | row :: rows' => '(number, i) ← issue_of row; k ← key number; read_rows key rows' (dict_set k i issues)
  end.

Section Retrieval.
(** The contents of a file of the key store, and the answers of GitHub and Jira. *)
Context (get_file_contents : string → option string).
Context (live_github : string → string → Z → option Issue) (live_jira : string → option Issue).

Definition get_project (project : string) : option (list (string * Issue)) :=
  issues_csv ← get_file_contents ("issues/jira_scylladb_" +:+ project +:+ ".csv");
  read_rows Some (csv_rows (tail (splitlines (strip issues_csv) EmptyString)) StartField EmptyString []) [].
Definition cached_jira (issue_id : string) : option Issue :=
  issues ← get_project (default EmptyString (head (split_on "-" issue_id))); dict_get issue_id issues.
Definition get_repo (owner repo : string) : option (list (Z * Issue)) :=
  issues_csv ← get_file_contents ("issues/" +:+ owner +:+ "_" +:+ repo +:+ ".csv");
  pull_requests_csv ← get_file_contents ("issues/pull-requests/" +:+ owner +:+ "_" +:+ repo +:+ ".csv");
  read_rows py_int (csv_rows (splitlines (strip issues_csv +:+ strip pull_requests_csv) EmptyString) StartField EmptyString []) [].
Definition cached_github (user repo : string) (number : Z) : option Issue :=
  issues ← get_repo user repo; dict_get number issues.

Definition jira_issue (key : string) : option Issue :=
  match cached_jira key with Some i => Some i | None => live_jira key end.
Definition github_issue (user repo : string) (number : Z) : option Issue :=
  match cached_github user repo number with Some i => Some i | None => live_github user repo number end.

(** ** Whether to skip *)
Definition get_issue_details (issue : string) : option Issue :=
  r ← parse_issue issue;
  match r with GitHubIssue user repo number => github_issue user repo number | JiraIssue key => jira_issue key end.

Definition closed_states : list string := ["closed"; "merged"; "done"; "duplicate"; "deferred"]%string.
Definition issues_opened (issues : list Issue) : bool := existsb (λ i, negb (existsb (String.eqb (state i)) closed_states)) issues.
Definition branch_version (version : string) : string := join "." (take 2 (split_on "." version)).
Definition issues_labeled (artifact_scylla_version : option string) (issues : list Issue) : bool :=
  match artifact_scylla_version with
  | None | Some EmptyString => false
  | Some version =>
    let issues_labels := mjoin (labels <$> issues) in
    existsb (contains ("sct-" +:+ branch_version version +:+ "-skip")) issues_labels ||
    existsb (contains ("dtest/" +:+ branch_version version +:+ "-skip")) issues_labels
  end.
Definition SkipPerIssues (issues : list string) (artifact_scylla_version : option string) : bool :=
  let issues := omap get_issue_details issues in
  issues_opened issues || issues_labeled artifact_scylla_version issues.
End Retrieval.

(** ** Spellings of a reference *)
Definition words (s : string) : Prop := s ≠ EmptyString ∧ all_chars is_word s = true.
Definition stops (f : ascii → bool) (t : string) : Prop := match t with EmptyString => True | String c _ => f c = false end.

Lemma span_word_stop f w t : all_chars f w = true → stops f t → span_while f (w +:+ t) = (w, t).
Proof.
  intros Hw Ht. induction w as [|c w IH]; [destruct t as [|c t]; [done|]; simpl in *; by rewrite Ht|].
  simpl in Hw. apply andb_true_iff in Hw as [Hc Hw]. change (String c w +:+ t) with (String c (w +:+ t)). simpl. by rewrite Hc, IH.
Qed.
Lemma span_chars f s w t : span_while f s = (w, t) → all_chars f w = true.
Proof.
  revert w t. induction s as [|c s IH]; simpl; intros w t; [by intros [= <- <-]|]. destruct (f c) eqn:E; [|by intros [= <- <-]].
  destruct (span_while f s) as [w' t'] eqn:Es. intros [= <- <-]. simpl. rewrite E. by eapply IH.
Qed.
Lemma truthy_text s : truthy s = true ↔ s ≠ EmptyString.
Proof. destruct s; split; done. Qed.

Lemma read_word_at w t : words w → stops is_word t → read_word (w +:+ t) = Some (w, t).
Proof. intros [Hne Hw] Ht. unfold read_word. rewrite span_word_stop by done. by rewrite (proj2 (truthy_text w) Hne). Qed.
Lemma read_word_words s w t : read_word s = Some (w, t) → words w.
Proof.
  unfold read_word. destruct (span_while is_word s) as [w' t'] eqn:E. destruct (truthy w') eqn:Et; [|done]. intros [= <- <-].
  split; [by apply truthy_text|by eapply span_chars].
Qed.
Lemma read_number_str n : 0 <= n → read_number (str_Z n) = Some n.
Proof.
  intros Hn. unfold read_number. pose proof (str_Z_digits n Hn) as Hd. unfold isdigit in Hd. apply andb_true_iff in Hd as [Ht Hd].
  rewrite <-(str_app_nil (str_Z n)), span_word_stop by done. by rewrite Ht, int_of_digits_str.
Qed.
Lemma read_number_nonneg s n : read_number s = Some n → 0 <= n.
Proof.
  unfold read_number. destruct (span_while is_digit s) as [ds t] eqn:E. destruct (truthy ds); [|done]. intros [= <-].
  apply digits_value_nonneg; [done|by eapply span_chars].
Qed.

(** What follows a word in a short reference: nothing, or a character other than a colon. *)
Definition plain_tail (t : string) : Prop := stops is_word t ∧ stops (λ c, Ascii.eqb c ":") t.

Lemma is_word_lower c : is_word (lower_char c) = is_word c.
Proof. by destruct c as [[] [] [] [] [] [] [] []]. Qed.
Lemma literal_step a p b s : Ascii.eqb a "." = false →
  read_literal (String a p) (String b s) = if Ascii.eqb (lower_char a) (lower_char b) then read_literal p s else None.
Proof. intros Ha. cbn [read_literal]. by rewrite Ha. Qed.
Lemma word_not_dot c : is_word c = true → Ascii.eqb c "." = false.
Proof. intros H. destruct (Ascii.eqb_spec c "."); [by subst|done]. Qed.

(** A literal of word characters is read off the word in front of the tail. *)
Lemma literal_in_word p w t r : all_chars is_word p = true → all_chars is_word w = true → plain_tail t →
  read_literal p (w +:+ t) = Some r → ∃ w', all_chars is_word w' = true ∧ r = w' +:+ t.
Proof.
  intros Hp Hw [Ht _]. revert w Hw. induction p as [|a p IH]; intros w Hw; [intros [= <-]; by exists w|].
  cbn [all_chars] in Hp. apply andb_true_iff in Hp as [Ha Hp]. destruct w as [|b w].
  - change (EmptyString +:+ t) with t. destruct t as [|b t]; [done|]. rewrite literal_step by (by apply word_not_dot).
    destruct (Ascii.eqb_spec (lower_char a) (lower_char b)) as [E|]; [|done]. simpl in Ht.
    rewrite <-is_word_lower, E, is_word_lower in Ha. congruence.
  - change (String b w +:+ t) with (String b (w +:+ t)). rewrite literal_step by (by apply word_not_dot).
    cbn [all_chars] in Hw. apply andb_true_iff in Hw as [_ Hw]. destruct (Ascii.eqb _ _); [|done]. by apply IH.
Qed.
Lemma no_colon q w t : all_chars is_word w = true → plain_tail t → read_literal (String ":" q) (w +:+ t) = None.
Proof.
  intros Hw [_ Ht]. destruct w as [|b w].
  - change (EmptyString +:+ t) with t. destruct t as [|b t]; [done|]. rewrite literal_step by done. simpl in Ht.
    destruct (Ascii.eqb_spec (lower_char ":") (lower_char b)) as [E|]; [|done].
    by destruct b as [[] [] [] [] [] [] [] []].
  - change (String b w +:+ t) with (String b (w +:+ t)). rewrite literal_step by done.
    cbn [all_chars] in Hw. apply andb_true_iff in Hw as [Hb _].
    destruct (Ascii.eqb_spec (lower_char ":") (lower_char b)) as [E|]; [|done].
    rewrite <-is_word_lower, <-E in Hb. done.
Qed.
Lemma literal_app p q s : read_literal (p +:+ q) s = (r ← read_literal p s; read_literal q r).
Proof.
  revert s. induction p as [|a p IH]; intros s; [done|]. change (String a p +:+ q) with (String a (p +:+ q)).
  destruct s as [|b s]; [done|]. cbn [read_literal]. destruct (_ || _); [apply IH|done].
Qed.
Lemma no_scheme q w t : all_chars is_word w = true → plain_tail t →
  (s ← read_literal "http" (w +:+ t); read_literal (String ":" q) (default s (read_literal "s" s))) = None.
Proof.
  intros Hw Ht. destruct (read_literal "http" (w +:+ t)) as [r|] eqn:E; [|done].
  destruct (literal_in_word "http" w t r eq_refl Hw Ht E) as (w' & Hw' & ->). cbn [mbind option_bind].
  destruct (read_literal "s" (w' +:+ t)) as [r'|] eqn:E'; cbn [default]; [|by apply no_colon].
  destruct (literal_in_word "s" w' t r' eq_refl Hw' Ht E') as (w'' & Hw'' & ->). by apply no_colon.
Qed.

Lemma short_not_jira w t : all_chars is_word w = true → plain_tail t → JIRA_ISSUE_PATTERN (w +:+ t) = None.
Proof.
  intros Hw Ht. unfold JIRA_ISSUE_PATTERN. change "jira:"%string with ("jira" +:+ ":"). rewrite literal_app.
  destruct (read_literal "jira" (w +:+ t)) as [r|] eqn:E; cbn [mbind option_bind].
  - destruct (literal_in_word "jira" w t r eq_refl Hw Ht E) as (w' & Hw' & ->). rewrite no_colon by done.
    unfold mbind in *. by rewrite (no_scheme _ w t Hw Ht).
  - by rewrite (no_scheme _ w t Hw Ht).
Qed.

Lemma word_chars_no_space w : all_chars is_word w = true → no_space w = true.
Proof.
  unfold no_space. induction w as [|c w IH]; [done|]. cbn [all_chars]. intros [Hc Hw]%andb_true_iff. rewrite (IH Hw), andb_true_r.
  by destruct c as [[] [] [] [] [] [] [] []].
Qed.
Lemma digits_words s : all_chars is_digit s = true → all_chars is_word s = true.
Proof.
  induction s as [|c s IH]; [done|]. cbn [all_chars]. intros [Hc Hs]%andb_true_iff. rewrite (IH Hs), andb_true_r.
  unfold is_word. rewrite Hc. by destruct (char_in _ _ _).
Qed.
Lemma number_word n : 0 <= n → all_chars is_word (str_Z n) = true ∧ str_Z n ≠ EmptyString.
Proof.
  intros Hn. pose proof (str_Z_digits n Hn) as H. unfold isdigit in H. apply andb_true_iff in H as [Ht Hd].
  split; [by apply digits_words|by apply truthy_text].
Qed.

Lemma parse_plain s : s ≠ EmptyString → no_space s = true →
  parse_issue s = match JIRA_ISSUE_PATTERN s with
                  | Some key => Some (JiraIssue key)
                  | None => '(user, repo, number) ← GITHUB_ISSUE_PATTERN s;
                            Some (GitHubIssue (or_default user DEFAULT_GH_USER) (or_default repo DEFAULT_GH_REPO) number)
                  end.
Proof. intros Hs Hn. unfold parse_issue. rewrite strip_no_space by done. by rewrite (proj2 (truthy_text s) Hs). Qed.

Lemma or_default_words w d : words w → or_default w d = w.
Proof. intros [Hw _]. unfold or_default. by rewrite (proj2 (truthy_text w) Hw). Qed.
Lemma no_space_app a b : no_space (a +:+ b) = no_space a && no_space b.
Proof. apply all_chars_app. Qed.

Lemma str_app_cons_ne a c b : a +:+ String c b ≠ EmptyString.
Proof. by destruct a. Qed.

Lemma read_char_at c s : read_char c (String c EmptyString +:+ s) = Some s.
Proof. change (String c EmptyString +:+ s) with (String c s). cbn [read_char]. by rewrite Ascii.eqb_refl. Qed.

Lemma parse_full user repo n : words user → words repo → 0 <= n →
  parse_issue (user +:+ "/" +:+ repo +:+ "#" +:+ str_Z n) = Some (GitHubIssue user repo n).
Proof.
  intros Hu Hr Hn. destruct (number_word n Hn) as [Hw _]. rewrite parse_plain; [|apply str_app_cons_ne|].
  2: { destruct Hu, Hr. rewrite !no_space_app, (word_chars_no_space user), (word_chars_no_space repo), (word_chars_no_space (str_Z n)) by done. done. }
  rewrite short_not_jira by (first [apply Hu|by split]).
  unfold GITHUB_ISSUE_PATTERN, numbered, read_short. rewrite read_word_at by (first [done|by split]). rewrite read_char_at.
  rewrite read_word_at by (first [done|by split]). cbn [mbind option_bind]. rewrite read_char_at. cbn [mbind option_bind]. rewrite read_number_str by done. cbn. by rewrite !or_default_words.
Qed.
Lemma parse_repo repo n : words repo → 0 <= n → parse_issue (repo +:+ "#" +:+ str_Z n) = Some (GitHubIssue DEFAULT_GH_USER repo n).
Proof.
  intros Hr Hn. destruct (number_word n Hn) as [Hw _]. rewrite parse_plain; [|apply str_app_cons_ne|].
  2: { destruct Hr. rewrite !no_space_app, (word_chars_no_space repo), (word_chars_no_space (str_Z n)) by done. done. }
  rewrite short_not_jira by (first [apply Hr|by split]).
  unfold GITHUB_ISSUE_PATTERN, numbered, read_short. rewrite read_word_at by (first [done|by split]). rewrite read_char_at.
  cbn [mbind option_bind]. replace (read_char "/" ("#" +:+ str_Z n)) with (@None string) by done.
  cbn [mbind option_bind]. rewrite read_number_str by done. cbn [mbind option_bind]. by rewrite (or_default_words repo).
Qed.
Lemma parse_hash n : 0 <= n → parse_issue ("#" +:+ str_Z n) = Some (GitHubIssue DEFAULT_GH_USER DEFAULT_GH_REPO n).
Proof.
  intros Hn. destruct (number_word n Hn) as [Hw _]. rewrite parse_plain; [|done|].
  2: { rewrite no_space_app, (word_chars_no_space (str_Z n)) by done. done. }
  change ("#" +:+ str_Z n) with (EmptyString +:+ ("#" +:+ str_Z n)). rewrite short_not_jira by (first [done|by split]).
  assert (Hshort : read_short (EmptyString +:+ ("#" +:+ str_Z n)) = Some (EmptyString, EmptyString, str_Z n)) by done.
  unfold GITHUB_ISSUE_PATTERN, numbered. rewrite Hshort. cbn [mbind option_bind]. by rewrite read_number_str.
Qed.
Lemma short_not_url w t : all_chars is_word w = true → plain_tail t → read_url (w +:+ t) = None.
Proof.
  intros Hw Ht. pose proof (no_scheme "//github.com/" w t Hw Ht) as H. unfold read_url.
  destruct (read_literal "http" (w +:+ t)) as [r|]; [|done]. cbn [mbind option_bind] in *. by rewrite H.
Qed.
Lemma parse_number n : 0 <= n → parse_issue (str_Z n) = Some (GitHubIssue DEFAULT_GH_USER DEFAULT_GH_REPO n).
Proof.
  intros Hn. destruct (number_word n Hn) as [Hw Hne]. rewrite parse_plain by (first [done|by apply word_chars_no_space]).
  unfold GITHUB_ISSUE_PATTERN, numbered. assert (Hs : read_short (str_Z n) = None).
  { unfold read_short. rewrite <-(str_app_nil (str_Z n)), read_word_at by (first [done|by split]). done. }
  rewrite Hs. rewrite <-(str_app_nil (str_Z n)). rewrite short_not_jira, short_not_url by (first [done|by split]). cbn.
  rewrite str_app_nil. by rewrite read_number_str.
Qed.

Lemma literal_refl p s : read_literal p (p +:+ s) = Some s.
Proof.
  induction p as [|c p IH]; [done|]. change (String c p +:+ s) with (String c (p +:+ s)). cbn [read_literal].
  by rewrite Ascii.eqb_refl, orb_true_r.
Qed.

Definition github_url (s kind user repo : string) (n : Z) : string :=
  "http" +:+ s +:+ "://github.com/" +:+ user +:+ "/" +:+ repo +:+ "/" +:+ kind +:+ "/" +:+ str_Z n.

Lemma parse_github_url s kind user repo n : s = EmptyString ∨ s = "s"%string → kind = "issues"%string ∨ kind = "pull"%string →
  words user → words repo → 0 <= n → parse_issue (github_url s kind user repo n) = Some (GitHubIssue user repo n).
Proof.
  intros Hs Hk Hu Hr Hn. destruct (number_word n Hn) as [Hw _]. unfold github_url. rewrite parse_plain; [|done|].
  2: { destruct Hu, Hr. rewrite !no_space_app, (word_chars_no_space user), (word_chars_no_space repo), (word_chars_no_space (str_Z n)) by done.
       by destruct Hs as [->| ->], Hk as [->| ->]. }
  set (rest := user +:+ "/" +:+ repo +:+ "/" +:+ kind +:+ "/" +:+ str_Z n).
  assert (HJ : JIRA_ISSUE_PATTERN ("http" +:+ s +:+ "://github.com/" +:+ rest) = None) by (by destruct Hs as [->| ->]).
  assert (HS : read_short ("http" +:+ s +:+ "://github.com/" +:+ rest) = None) by (by destruct Hs as [->| ->]).
  rewrite HJ. unfold GITHUB_ISSUE_PATTERN, numbered. rewrite HS. cbn [mbind option_bind].
  assert (HU : read_url ("http" +:+ s +:+ "://github.com/" +:+ rest) = Some (user, repo, str_Z n)).
  { unfold read_url. rewrite literal_refl. cbn [mbind option_bind].
    assert (Hd : default (s +:+ "://github.com/" +:+ rest) (read_literal "s" (s +:+ "://github.com/" +:+ rest)) = "://github.com/" +:+ rest)
      by (by destruct Hs as [->| ->]).
    rewrite Hd, literal_refl. cbn [mbind option_bind]. unfold rest. rewrite read_word_at by done. cbn [mbind option_bind].
    rewrite read_char_at. cbn [mbind option_bind]. rewrite read_word_at by done. cbn [mbind option_bind]. rewrite read_char_at.
    cbn [mbind option_bind].
    assert (Hi : match read_literal "issues" (kind +:+ "/" +:+ str_Z n) with Some s' => Some s' | None => read_literal "pull" (kind +:+ "/" +:+ str_Z n) end
      = Some ("/" +:+ str_Z n)) by (by destruct Hk as [->| ->]).
    rewrite Hi. cbn [mbind option_bind]. by rewrite read_char_at. }
  rewrite HU. cbn [mbind option_bind]. rewrite read_number_str by done. cbn [mbind option_bind]. by rewrite !or_default_words.
Qed.

Lemma parse_jira key : words key →
  parse_issue ("jira:" +:+ key) = Some (JiraIssue key) ∧
  parse_issue ("https://scylladb.atlassian.net/browse/" +:+ key) = Some (JiraIssue key).
Proof.
  intros Hk. assert (Hw : read_word key = Some (key, EmptyString)).
  { rewrite <-(str_app_nil key) at 1. by apply read_word_at. }
  split; (rewrite parse_plain; [|done|destruct Hk; by rewrite no_space_app, (word_chars_no_space key)]).
  - unfold JIRA_ISSUE_PATTERN. rewrite literal_refl. cbn [mbind option_bind]. by rewrite Hw.
  - assert (HJ : JIRA_ISSUE_PATTERN ("https://scylladb.atlassian.net/browse/" +:+ key) = ('(k, _) ← read_word key; Some k)) by done.
    by rewrite HJ, Hw.
Qed.

(** A reference as [parse_issue] makes it. *)
Definition proper (r : reference) : Prop :=
  match r with GitHubIssue user repo number => words user ∧ words repo ∧ 0 <= number | JiraIssue key => words key end.

Lemma or_default_proper w d : words d → (w = EmptyString ∨ words w) → words (or_default w d).
Proof. intros Hd [->|Hw]; [done|]. by rewrite or_default_words. Qed.

Lemma read_short_parts s user repo rest : read_short s = Some (user, repo, rest) →
  (user = EmptyString ∨ words user) ∧ (repo = EmptyString ∨ words repo).
Proof.
  unfold read_short. destruct (read_word s) as [[w s']|] eqn:Ew; [apply read_word_words in Ew|].
  - destruct (read_char "/" s') as [s''|].
    + destruct (read_word s'') as [[w' t]|] eqn:Ew'; [apply read_word_words in Ew'|done]. cbn [mbind option_bind].
      destruct (read_char "#" t); [|done]. intros [= <- <- <-]. auto.
    + destruct (read_char "#" s'); [|done]. intros [= <- <- <-]. auto.
  - destruct (read_char "#" s); [|done]. intros [= <- <- <-]. auto.
Qed.
Lemma read_url_parts s user repo rest : read_url s = Some (user, repo, rest) → words user ∧ words repo.
Proof.
  unfold read_url. destruct (read_literal "http" s) as [s1|]; [|done]. cbn [mbind option_bind].
  destruct (read_literal _ (default _ _)) as [s2|]; [|done]. cbn [mbind option_bind].
  destruct (read_word s2) as [[u s3]|] eqn:Eu; [|done]. cbn [mbind option_bind]. destruct (read_char "/" s3) as [s4|]; [|done].
  cbn [mbind option_bind]. destruct (read_word s4) as [[p s5]|] eqn:Ep; [|done]. cbn [mbind option_bind].
  apply read_word_words in Eu, Ep. destruct (read_char "/" s5) as [s6|]; [|done]. cbn [mbind option_bind].
  destruct (read_literal "issues" s6) as [s7|]; [|destruct (read_literal "pull" s6) as [s7|]; [|done]]; cbn [mbind option_bind];
    (destruct (read_char "/" s7); [|done]); cbn [mbind option_bind]; intros [= <- <- <-]; done.
Qed.

Lemma numbered_some p user repo n : numbered p = Some (user, repo, n) → (∃ rest, p = Some (user, repo, rest)) ∧ 0 <= n.
Proof.
  unfold numbered. destruct p as [[[u r] rest]|]; [|done]. cbn [mbind option_bind].
  destruct (read_number rest) as [m|] eqn:Em; [|done]. cbn [mbind option_bind]. intros [= <- <- <-]. apply read_number_nonneg in Em. eauto.
Qed.
Lemma github_parts s user repo n : GITHUB_ISSUE_PATTERN s = Some (user, repo, n) →
  (user = EmptyString ∨ words user) ∧ (repo = EmptyString ∨ words repo) ∧ 0 <= n.
Proof.
  unfold GITHUB_ISSUE_PATTERN. destruct (numbered (read_short s)) as [[[u r] m]|] eqn:Es.
  { intros [= <- <- <-]. apply numbered_some in Es as [[rest Hs] Hn]. apply read_short_parts in Hs. naive_solver. }
  destruct (numbered (read_url s)) as [[[u r] m]|] eqn:Eu.
  { intros [= <- <- <-]. apply numbered_some in Eu as [[rest Hs] Hn]. apply read_url_parts in Hs. naive_solver. }
  destruct (read_number s) as [m|] eqn:Em; [|done]. cbn [mbind option_bind]. intros [= <- <- <-]. apply read_number_nonneg in Em. auto.
Qed.
Lemma jira_key s key : JIRA_ISSUE_PATTERN s = Some key → words key.
Proof.
  unfold JIRA_ISSUE_PATTERN. intros (rest & _ & H)%bind_Some. destruct (read_word rest) as [[k t]|] eqn:Ek; [|done].
  apply read_word_words in Ek. by injection H as <-.
Qed.
Lemma parse_proper s r : parse_issue s = Some r → proper r.
Proof.
  unfold parse_issue. destruct (truthy (strip s)); [|done]. cbn [negb].
  destruct (JIRA_ISSUE_PATTERN (strip s)) as [key|] eqn:EJ; [intros [= <-]; by apply jira_key in EJ|].
  destruct (GITHUB_ISSUE_PATTERN (strip s)) as [[[user repo] n]|] eqn:EG; [|done]. cbn [mbind option_bind]. intros [= <-].
  apply github_parts in EG as (Hu & Hr & Hn). split; [by apply or_default_proper|]. split; [by apply or_default_proper|done].
Qed.

(** C28. References to issues: every reference that a text is parsed to is printed as a text that is
    parsed to the same reference. The spellings of an issue agree: a pull request or an issue by
    its address, by owner and repository, by repository alone or by number alone, and an issue of
    Jira with a prefix or by its address. *)
Theorem issue_spellings_agree :
  (∀ s r, parse_issue s = Some r → parse_issue (normalized r) = Some r) ∧
  (∀ user repo n, words user → words repo → 0 <= n →
     parse_issue (user +:+ "/" +:+ repo +:+ "#" +:+ str_Z n) = Some (GitHubIssue user repo n) ∧
     (∀ s kind, s ∈ [EmptyString; "s"]%string → kind ∈ ["issues"; "pull"]%string →
        parse_issue (github_url s kind user repo n) = Some (GitHubIssue user repo n)) ∧
     parse_issue (repo +:+ "#" +:+ str_Z n) = Some (GitHubIssue DEFAULT_GH_USER repo n) ∧
     parse_issue ("#" +:+ str_Z n) = Some (GitHubIssue DEFAULT_GH_USER DEFAULT_GH_REPO n) ∧
     parse_issue (str_Z n) = Some (GitHubIssue DEFAULT_GH_USER DEFAULT_GH_REPO n)) ∧
  (∀ key, words key →
     parse_issue ("jira:" +:+ key) = Some (JiraIssue key) ∧
     parse_issue ("https://scylladb.atlassian.net/browse/" +:+ key) = Some (JiraIssue key)).
Proof.
  split; [|split].
  - intros s r Hr%parse_proper. destruct r as [user repo n|key]; cbn [normalized].
    + destruct Hr as (Hu & Hp & Hn). exact (parse_full _ _ _ Hu Hp Hn).
    + exact (proj1 (parse_jira key Hr)).
  - intros user repo n Hu Hr Hn. split; [exact (parse_full _ _ _ Hu Hr Hn)|].
    split; [|exact (conj (parse_repo _ _ Hr Hn) (conj (parse_hash _ Hn) (parse_number _ Hn)))].
    intros s kind [->| ->%list_elem_of_singleton]%elem_of_cons [->| ->%list_elem_of_singleton]%elem_of_cons; apply parse_github_url; auto.
  - intros key Hk. exact (parse_jira key Hk).
Qed.

Lemma issue_spellings_agree_witness :
  parse_issue " https://github.com/scylladb/scylla-manager/pull/1234 " = Some (GitHubIssue "scylladb" "scylla-manager" 1234) ∧
  parse_issue (normalized (GitHubIssue "scylladb" "scylla-manager" 1234)) = Some (GitHubIssue "scylladb" "scylla-manager" 1234).
Proof.
  assert (H : parse_issue " https://github.com/scylladb/scylla-manager/pull/1234 " = Some (GitHubIssue "scylladb" "scylla-manager" 1234))
    by (vm_compute; reflexivity).
  split; [exact H|]. exact (proj1 issue_spellings_agree _ _ H).
Defined.

(** ** Skipping *)

(** A test is skipped exactly if one of its issues that is found is in none of the closed states,
    or, for a known version, has a label that contains the skip label of its branch for SCT or for
    dtest. Texts that are no reference and issues that neither the cache nor the service knows do
    not count. *)
Theorem skipped_exactly get_file_contents live_github live_jira issues version :
  SkipPerIssues get_file_contents live_github live_jira issues version = true ↔
  ∃ s i, s ∈ issues ∧ get_issue_details get_file_contents live_github live_jira s = Some i ∧
    (state i ∉ closed_states ∨
     ∃ v l, version = Some v ∧ v ≠ EmptyString ∧ l ∈ labels i ∧
       (contains ("sct-" +:+ branch_version v +:+ "-skip") l = true ∨ contains ("dtest/" +:+ branch_version v +:+ "-skip") l = true)).
Proof.
  unfold SkipPerIssues. set (get := get_issue_details _ _ _).
  assert (Hin : ∀ (P : Issue → Prop), (∃ i, i ∈ omap get issues ∧ P i) ↔ ∃ s i, s ∈ issues ∧ get s = Some i ∧ P i).
  { intros P. setoid_rewrite list_elem_of_omap. naive_solver. }
  rewrite <-Hin. generalize (omap get issues). clear. intros l. rewrite orb_true_iff. unfold issues_opened, issues_labeled.
  assert (Hopen : existsb (λ i, negb (existsb (String.eqb (state i)) closed_states)) l = true ↔ ∃ i, i ∈ l ∧ state i ∉ closed_states).
  { rewrite existsb_exists. setoid_rewrite <-list_elem_of_In. setoid_rewrite negb_true_iff. setoid_rewrite <-not_true_iff_false.
    setoid_rewrite existsb_exists. setoid_rewrite <-list_elem_of_In. setoid_rewrite String.eqb_eq. naive_solver. }
  assert (Hlab : ∀ p, existsb (contains p) (mjoin (labels <$> l)) = true ↔ ∃ i t, i ∈ l ∧ t ∈ labels i ∧ contains p t = true).
  { intros p. rewrite existsb_exists. setoid_rewrite <-list_elem_of_In. setoid_rewrite list_elem_of_join.
    setoid_rewrite list_elem_of_fmap. naive_solver. }
  rewrite Hopen. destruct version as [[|c v]|]; [naive_solver| |naive_solver]. rewrite orb_true_iff, !Hlab. split.
  - intros [(i & Hi & Ho)|[(i & t & Hi & Ht & Hc)|(i & t & Hi & Ht & Hc)]]; exists i; (split; [done|]); [by left|right..];
      exists (String c v), t; auto.
  - intros (i & Hi & [Ho|(v' & t & [= <-] & _ & Ht & [Hc|Hc])]); eauto 10.
Qed.

(** The files of the cache are joined without a line end: the last issue and the first pull request
    become one row. *)
Example first_pull_request_lost :
  let files name := if contains "pull-requests" name then Some "7,open,,Fix it"%string else Some "5,closed,a|b,Broken"%string in
  get_repo files "scylladb" "scylladb" = Some [(5, MkIssue "closed" ["a"; "b"] (Some "Broken7"))]%string.
Proof. vm_compute. reflexivity. Qed.
End Issues.
