(* ===== verification/Timeouts.v ===== *)
(** * Adaptive timeouts

    Model of [sdcm/utils/adaptive_timeouts/__init__.py]: the timeouts of operations by the load of
    a node, the monitor that reports an operation while it runs, and the context manager
    [adaptive_timeout], which gives the operation its timeout, reports when it was exceeded, and
    stores what was measured.

    Whether a node has tablets and what it answers about its load, each of which may raise, the
    operation with its duration, and the times at which the monitor looks are arguments. Amounts and durations are the exact numbers of [PyNum]. *)
From Stdlib Require Import Ascii String ZArith Lia QArith Qcanon Lqa.
From stdpp Require Import base decidable option strings numbers list.
From S2P Require Import Prelude.
From S2P Require Import PyString.
From S2P Require Import PyOrder.
From S2P Require Import PyNum.
From S2P Require Import PyDict.
Local Open Scope py_scope.
Local Open Scope Z_scope.

Module Timeouts.

Inductive texn : Type := KeyError | AttributeError | LoadError | ZeroDivisionError | NodeError.

(** ** What is known about a node *)

(** The properties of [NodeLoadInfoService], each of which may raise; [as_dict] gives names of metrics. *)
Record service := Service {
  node_data_size_mb : outcome texn Z; node_disk_size_mb : outcome texn Z; expected_throughput : outcome texn num;
  shards_count : outcome texn Z; as_dict : outcome texn (list string)
}.
(** The empty dictionary in the place of a service. *)
Definition no_service : service :=
  Service (Err AttributeError) (Err AttributeError) (Err AttributeError) (Err AttributeError) (Err AttributeError).

#[export] Instance truthy_num : Truthy num := λ q, negb (py_le q (num_of_Z 0) && py_le (num_of_Z 0) q).
Definition div (a b : num) : outcome texn num := if truthy b then Ok (a / b)%Qc else Err ZeroDivisionError.
(** [int(q)] *)
Definition trunc (q : num) : Z := Z.quot (Qnum q) (Zpos (Qden q)).
Definition tenths (n : Z) (q : num) : num := num_mul q (Q2Qc (n # 10)).
Definition hundredths (n : Z) (q : num) : num := num_mul q (Q2Qc (n # 100)).

Abbreviation timeout := (option num).
Definition secs (z : Z) : timeout := Some (num_of_Z z).
(** [timeout or d] *)
Definition or_secs (t : timeout) (d : Z) : timeout := if truthy t then t else secs d.

(** ** Timeouts of operations *)
Definition TABLETS_SOFT_TIMEOUT : Z := 3600.
Definition TABLETS_HARD_TIMEOUT : Z := 10800.
Definition _STREAMING_OVERHEAD : Z := 600.

(** The soft and the hard timeout, and the names of the metrics that go with them. *)
Definition limits : Type := timeout * timeout * list string.

Definition streaming (estimated : num) : timeout * timeout :=
  let soft_timeout := trunc estimated * 2 + _STREAMING_OVERHEAD in (secs soft_timeout, secs (soft_timeout * 2)).

Definition _get_decommission_timeout (s : service) (tablets_enabled : bool) : limits :=
  match
    try! node_info := as_dict s in
    if tablets_enabled then
      try! size := node_data_size_mb s in try! throughput := expected_throughput s in
      try! estimated := div (num_of_Z size) throughput in
      Ok (streaming estimated, node_info ++ ["tablets_enabled"]%string)
    else
      try! size := node_data_size_mb s in
      Ok ((secs (Z.max (trunc (hundredths 3 (num_of_Z size))) 7200), None), node_info)
  with
  | Ok r => r
  | Err _ => (secs 21600, None, [])
  end.

Definition _get_new_node_timeout (s : service) (t : timeout) (tablets_enabled : bool) : limits :=
  match as_dict s with
  | Ok node_info =>
    if tablets_enabled then (secs TABLETS_SOFT_TIMEOUT, secs TABLETS_HARD_TIMEOUT, node_info ++ ["tablets_enabled"]%string)
    else (t, None, node_info)
  | Err _ => (t, None, [])
  end.

Definition _get_tablet_migration_timeout (s : service) (t : timeout) (tablets_enabled : bool) : limits :=
  match
    try! node_info := as_dict s in
    if tablets_enabled then
      try! size := node_disk_size_mb s in try! throughput := expected_throughput s in
      try! estimated := div (tenths 9 (num_of_Z size)) throughput in
      Ok (streaming estimated, node_info ++ ["tablets_enabled"]%string)
    else
      try! size := node_disk_size_mb s in
      Ok ((secs (Z.max (trunc (hundredths 3 (tenths 9 (num_of_Z size)))) 7200), None), node_info)
  with
  | Ok r => r
  | Err _ => (or_secs t 21600, None, [])
  end.

Definition _get_soft_timeout (s : service) (t : timeout) : timeout * list string :=
  (t, match as_dict s with Ok d => d | Err _ => [] end).
Definition _get_soft_timeout_no_node_info (s : service) (t : timeout) : timeout * list string := (t, []).
Definition _get_query_timeout (s : service) (t : timeout) : timeout * list string :=
  let '(t, stats) := _get_soft_timeout s t in (t, stats ++ ["query"]%string).
Definition _get_service_level_propagation_timeout (s : service) (t : timeout) : timeout * list string :=
  let '(t, stats) := _get_soft_timeout s t in (t, stats ++ ["service_level_for_test_step"]%string).

Definition _get_refresh_timeout (s : service) (t : timeout) (tablets_enabled : bool) : limits :=
  if tablets_enabled then _get_tablet_migration_timeout s t true
  else let '(soft_timeout, node_info) := _get_soft_timeout s t in (soft_timeout, None, node_info).

(** An exception after the estimate leaves the estimate in place. *)
Definition _get_compaction_timeout (s : service) (t : timeout) : timeout * list string :=
  match (try! data_size := node_data_size_mb s in try! shards := shards_count s in Ok (data_size, shards)) with
  | Err _ => (t, [])
  | Ok (data_size, shards) =>
    let t := if truthy data_size && truthy shards
             then secs ((trunc (num_of_Z data_size / num_of_Z shards / num_of_Z 25)%Qc + 120) * 2) else t in
    (t, match as_dict s with Ok d => d | Err _ => [] end)
  end.

Definition _get_cleanup_timeout (s : service) (t : timeout) : timeout * list string :=
  match (try! data_size_mb := node_data_size_mb s in try! throughput := expected_throughput s in Ok (data_size_mb, throughput)) with
  | Err _ => (or_secs t 120, [])
  | Ok (data_size_mb, throughput) =>
    let t := if truthy data_size_mb && truthy throughput
             then Some (py_max (num_of_Z 120) (num_mul (num_of_Z data_size_mb / throughput)%Qc (num_of_Z 2)))
             else or_secs t 120 in
    match as_dict s with Ok d => (t, d) | Err _ => (or_secs t 120, []) end
  end.

Inductive Operations : Type :=
  | DECOMMISSION | NEW_NODE | CREATE_INDEX | START_SCYLLA | RESTART_SCYLLA | CREATE_MV | MAJOR_COMPACT | REPAIR | MGMT_REPAIR
  | BACKUP | RESTORE | REBUILD | CLEANUP | REMOVE_NODE | SCRUB | SOFT_TIMEOUT | FLUSH | QUERY | SERVICE_LEVEL_PROPAGATION
  | TABLET_MIGRATION | REFRESH | HEALTHCHECK | SSH_CONNECTIVITY.

Definition operation_key (op : Operations) : string :=
  match op with
  | DECOMMISSION => "decommission" | NEW_NODE => "new_node" | CREATE_INDEX => "create_index" | START_SCYLLA => "start_scylla"
  | RESTART_SCYLLA => "restart_scylla" | CREATE_MV => "create_mv" | MAJOR_COMPACT => "major_compact" | REPAIR => "repair"
  | MGMT_REPAIR => "mgmt_repair" | BACKUP => "backup" | RESTORE => "restore" | REBUILD => "rebuild" | CLEANUP => "cleanup"
  | REMOVE_NODE => "remove_node" | SCRUB => "scrub" | SOFT_TIMEOUT => "soft_timeout" | FLUSH => "flush" | QUERY => "query"
  | SERVICE_LEVEL_PROPAGATION => "service_level_propagation" | TABLET_MIGRATION => "tablet_migration" | REFRESH => "refresh"
  | HEALTHCHECK => "healthcheck" | SSH_CONNECTIVITY => "ssh_connectivity"
  end.
Definition required_args (op : Operations) : list string :=
  match op with
  | DECOMMISSION => [] | QUERY => ["timeout"; "query"] | SERVICE_LEVEL_PROPAGATION => ["timeout"; "service_level_for_test_step"]
  | _ => ["timeout"]
  end%string.
Definition tablet_sensitive_op (op : Operations) : bool :=
  match op with DECOMMISSION | NEW_NODE | TABLET_MIGRATION | REFRESH => true | _ => false end.

(** The keyword arguments of a call, and their [timeout]. *)
Record arguments := Args { given : list string; arg_timeout : timeout; node_available : bool }.

Definition timeout_func (op : Operations) (s : service) (t : timeout) (tablets_enabled : bool) : limits :=
  let soft r := let '(t, stats) := r in (t, None, stats) in
  match op with
  | DECOMMISSION => _get_decommission_timeout s tablets_enabled
  | NEW_NODE => _get_new_node_timeout s t tablets_enabled
  | TABLET_MIGRATION => _get_tablet_migration_timeout s t tablets_enabled
  | REFRESH => _get_refresh_timeout s t tablets_enabled
  | MAJOR_COMPACT => soft (_get_compaction_timeout s t)
  | CLEANUP => soft (_get_cleanup_timeout s t)
  | QUERY => soft (_get_query_timeout s t)
  | SERVICE_LEVEL_PROPAGATION => soft (_get_service_level_propagation_timeout s t)
  | SSH_CONNECTIVITY => soft (_get_soft_timeout_no_node_info s t)
  | _ => soft (_get_soft_timeout s t)
  end.

(** ** The monitor *)
Inductive event : Type :=
  | SoftTimeoutEvent (duration soft_timeout : timeout) (still_running : bool)
  | HardTimeoutEvent (duration hard_timeout : timeout).

(** [t and d > t] *)
Definition exceeded (t : timeout) (d : num) : bool := match t with Some q => truthy q && py_lt q d | None => false end.

(** The durations at which it looks, until the operation ends. *)
Fixpoint _monitor_timeouts (soft_timeout hard_timeout : timeout) (soft_timeout_triggered : bool) (looks : list num) : list event :=
  match looks with
  | [] => []
  | duration :: looks' =>
    if exceeded hard_timeout duration then [HardTimeoutEvent (Some duration) hard_timeout]
    else if negb soft_timeout_triggered && exceeded soft_timeout duration
    then SoftTimeoutEvent (Some duration) soft_timeout true :: _monitor_timeouts soft_timeout hard_timeout true looks'
    else _monitor_timeouts soft_timeout hard_timeout soft_timeout_triggered looks'
  end.

(** ** The context manager *)
Record params := Params {
  adaptive_timeout_multipliers : option (list (string * num)); adaptive_timeout_store_metrics : bool }.
Definition _get_operation_timeout_factor (p : params) (op : Operations) : num :=
  match adaptive_timeout_multipliers p with
  | None => num_of_Z 1
  | Some multipliers => default (num_of_Z 1) (dict_get (operation_key op) multipliers)
  end.
Definition scaled (t : timeout) (factor : num) : timeout :=
  match t with Some q => if truthy q then Some (num_mul q factor) else None | None => None end.

(** [is_tablets_feature_enabled(node)], of an available node only. *)
Definition look_at_tablets (a : arguments) (tablets : outcome texn bool) : outcome texn bool :=
  if node_available a then tablets else Ok false.

(** [node]: what [NodeLoadInfoServices().get(node)] gives. *)
Definition compute_limits (p : params) (op : Operations) (a : arguments) (tablets_enabled : bool) (node : outcome texn service)
    : outcome texn limits :=
  if negb (forallb (λ arg, existsb (String.eqb arg) (given a)) (required_args op)) then Err KeyError
  else
    let store_metrics := adaptive_timeout_store_metrics p && node_available a in
    try! metrics := if store_metrics then node else Ok no_service in
    let '(soft_timeout, hard_timeout, load_metrics) := timeout_func op metrics (arg_timeout a) tablets_enabled in
    let factor := _get_operation_timeout_factor p op in
    Ok (scaled soft_timeout factor, scaled hard_timeout factor,
        if store_metrics then load_metrics ++ ["n_db_nodes"]%string else load_metrics).

(** What ends an operation: a value, an exception with the name of its class and its text, or one
    that is not an [Exception]. *)
Inductive ending : Type := Returns | Raises (exc_name exc_text : string) | Exits.

(** What the operation is given, what was published in order, what was stored, and how it ended. *)
Record report := Report { yielded : timeout; events : list event; stored : option (num * timeout * timeout * bool); ended : ending }.

Definition is_timeout (e : ending) : bool :=
  match e with Raises exc_name exc_text => contains "timeout" (lower exc_name) || contains "timed out" exc_text | _ => false end.

(** [looks]: the durations at which a monitor looks at an operation that takes [duration]. Storing
    may fail, which is logged only. *)
Definition adaptive_timeout (p : params) (op : Operations) (a : arguments) (tablets : outcome texn bool) (node : outcome texn service)
    (operation : timeout → num * ending) (looks : list num) (store_fails : bool) : outcome texn report :=
  try! tablets_enabled := look_at_tablets a tablets in
  try! l := compute_limits p op a tablets_enabled node in
  let '(soft_timeout, hard_timeout, load_metrics) := l in
  let yielded := if truthy hard_timeout then hard_timeout else soft_timeout in
  let '(duration, e) := operation yielded in
  let monitored := if tablet_sensitive_op op && tablets_enabled && truthy hard_timeout
                   then _monitor_timeouts soft_timeout hard_timeout false looks else [] in
  let timeout_occurred := is_timeout e || exceeded soft_timeout duration in
  let at_end := if timeout_occurred then [SoftTimeoutEvent (Some duration) soft_timeout false] else [] in
  let store_metrics := adaptive_timeout_store_metrics p && node_available a in
  let stored := if truthy load_metrics && store_metrics && negb store_fails
                then Some (duration, soft_timeout, hard_timeout, timeout_occurred) else None in
  Ok (Report yielded (monitored ++ at_end) stored e).

(** ** Limits *)
Lemma truthy_num_pos q : (0 < this q)%Q → truthy q = true.
Proof.
  intros Hq. unfold truthy, truthy_num. apply negb_true_iff, andb_false_iff. left. apply not_true_iff_false. rewrite num_le_iff.
  pose proof (num_of_Z_this 0). unfold inject_Z in *. lra.
Qed.
Lemma trunc_nonneg q : (0 <= this q)%Q → 0 <= trunc q.
Proof. unfold trunc, Qle. simpl. intros Hq. apply Z.quot_pos; lia. Qed.

Lemma qc_div_pos a b : (0 <= this a)%Q → (0 < this b)%Q → (0 <= this (a / b)%Qc)%Q.
Proof.
  intros Ha Hb. unfold Qcdiv, Qcmult, Qcinv. simpl. rewrite Qred_correct, Qred_correct.
  apply Qmult_le_0_compat; [done|]. apply Qinv_le_0_compat. by apply Qlt_le_weak.
Qed.

(** A soft timeout, and a hard one that is not below it. *)
Definition ordered (l : limits) : Prop :=
  match l.1.2 with
  | None => True
  | Some hard => match l.1.1 with None => False | Some soft => (0 < this soft ∧ this soft <= this hard)%Q end
  end.

Lemma num_of_Z_le a b : a <= b → (this (num_of_Z a) <= this (num_of_Z b))%Q.
Proof. intros H. apply num_le_iff, num_le_of_Z, H. Qed.
Lemma num_of_Z_nonneg z : 0 <= z → (0 <= this (num_of_Z z))%Q.
Proof. intros H. apply num_of_Z_le in H. pose proof (num_of_Z_this 0). unfold inject_Z in *. lra. Qed.

Lemma secs_ordered a b m : 0 < a → a <= b → ordered (secs a, secs b, m).
Proof.
  intros Ha Hb. unfold ordered, secs. split; [|by apply num_of_Z_le].
  assert (H1 : 1 <= a) by lia. apply num_of_Z_le in H1. pose proof (num_of_Z_this 1). unfold inject_Z in *. lra.
Qed.

Lemma streaming_ordered q m : (0 <= this q)%Q → ordered (streaming q, m).
Proof. intros Hq. apply trunc_nonneg in Hq. unfold streaming, _STREAMING_OVERHEAD. apply secs_ordered; lia. Qed.

(** The answers of a node make sense. *)
Definition sensible (s : service) : Prop :=
  (∀ z, node_data_size_mb s = Ok z → 0 <= z) ∧ (∀ z, node_disk_size_mb s = Ok z → 0 <= z) ∧
  (∀ q, expected_throughput s = Ok q → (0 < this q)%Q).

Lemma estimate_ordered (size : outcome texn Z) (scale : num → num) (throughput : outcome texn num) (info : list string) l :
  (∀ z, size = Ok z → (0 <= this (scale (num_of_Z z)))%Q) → (∀ q, throughput = Ok q → (0 < this q)%Q) →
  (try! size := size in try! throughput := throughput in try! estimated := div (scale (num_of_Z size)) throughput in
   Ok (streaming estimated, info)) = Ok l → ordered l.
Proof.
  intros Hs Ht. destruct size as [z|]; [|done]. destruct throughput as [q|]; [|done]. cbn [obind]. unfold div.
  rewrite truthy_num_pos by auto. cbn [obind]. intros [= <-]. apply streaming_ordered, qc_div_pos; auto.
Qed.

Lemma decommission_ordered s b : sensible s → ordered (_get_decommission_timeout s b).
Proof.
  intros (Hd & _ & Ht). unfold _get_decommission_timeout. destruct (as_dict s) as [info|]; [|exact I]. cbn [obind].
  destruct b; [|by destruct (node_data_size_mb s); exact I].
  match goal with |- ordered (match ?e with _ => _ end) => destruct e as [l|] eqn:E; [|exact I] end.
  eapply (estimate_ordered _ (λ q, q) _ _ l _ Ht E). Unshelve. intros z Hz. by apply num_of_Z_nonneg, Hd.
Qed.
Lemma migration_ordered s t b : sensible s → ordered (_get_tablet_migration_timeout s t b).
Proof.
  intros (_ & Hd & Ht). unfold _get_tablet_migration_timeout. destruct (as_dict s) as [info|]; [|exact I]. cbn [obind].
  destruct b; [|by destruct (node_disk_size_mb s); exact I].
  match goal with |- ordered (match ?e with _ => _ end) => destruct e as [l|] eqn:E; [|exact I] end.
  eapply (estimate_ordered _ (tenths 9) _ _ l _ Ht E). Unshelve. intros z Hz. unfold tenths.
  pose proof (num_mul_this (num_of_Z z) (Q2Qc (9 # 10))) as Hm. apply Hd, num_of_Z_nonneg in Hz.
  assert (0 <= this (Q2Qc (9 # 10)))%Q by done. nra.
Qed.

Lemma timeout_func_ordered op s t b : sensible s → ordered (timeout_func op s t b).
Proof.
  intros Hs. unfold timeout_func.
  destruct op; try apply decommission_ordered; try apply migration_ordered; try done;
    try (destruct (_get_soft_timeout s t); exact I); try (destruct (_get_compaction_timeout s t); exact I);
    try (destruct (_get_cleanup_timeout s t); exact I); try exact I.
  - unfold _get_new_node_timeout. destruct (as_dict s); [|exact I]. destruct b; [apply secs_ordered; unfold TABLETS_SOFT_TIMEOUT, TABLETS_HARD_TIMEOUT; lia|exact I].
  - unfold _get_refresh_timeout. destruct b; [by apply migration_ordered|]. destruct (_get_soft_timeout s t). exact I.
Qed.

(** A hard timeout is given for operations that move tablets, if the node tells its load. *)
Lemma timeout_func_hard op s t b h : (timeout_func op s t b).1.2 = Some h → tablet_sensitive_op op = true ∧ b = true ∧ ∃ d, as_dict s = Ok d.
Proof.
  unfold timeout_func. destruct op; simpl; try (by destruct (_get_soft_timeout s t)); try (by destruct (_get_compaction_timeout s t));
    try (by destruct (_get_cleanup_timeout s t)); try done.
  - unfold _get_decommission_timeout. destruct (as_dict s); [|done]. cbn [obind]. destruct b; [eauto|]. by destruct (node_data_size_mb s).
  - unfold _get_new_node_timeout. destruct (as_dict s); [|done]. destruct b; [eauto|done].
  - unfold _get_tablet_migration_timeout. destruct (as_dict s); [|done]. cbn [obind]. destruct b; [eauto|]. by destruct (node_disk_size_mb s).
  - unfold _get_refresh_timeout, _get_tablet_migration_timeout. destruct b; [|done]. destruct (as_dict s); [eauto|done].
Qed.

Lemma no_service_sensible : sensible no_service.
Proof. by split; [|split]. Qed.

Lemma scaled_spec t f r : scaled t f = Some r → ∃ q, t = Some q ∧ r = num_mul q f.
Proof. unfold scaled. destruct t as [q|]; [|done]. destruct (truthy q); [|done]. intros [= <-]. eauto. Qed.

(** The limits of an operation, on a node that tells sizes from 0 and a throughput above 0, with
    factors above 0. A hard timeout is given only for an operation that moves tablets, on an
    available node with tablets whose load is measured; then there is a soft
    timeout too, above 0 and not above the hard one, so the soft one is reported first. *)
Theorem soft_before_hard p op a tablets_enabled node soft hard metrics : (∀ s, node = Ok s → sensible s) →
  (0 < this (_get_operation_timeout_factor p op))%Q →
  compute_limits p op a tablets_enabled node = Ok (soft, Some hard, metrics) →
  tablet_sensitive_op op = true ∧ tablets_enabled = true ∧ node_available a = true ∧ adaptive_timeout_store_metrics p = true ∧
  ∃ s, soft = Some s ∧ (0 < this s ∧ this s <= this hard)%Q.
Proof.
  intros Hs Hf. unfold compute_limits. destruct (forallb _ _); [|done]. cbn [negb].
  set (b := tablets_enabled). set (st := adaptive_timeout_store_metrics p && node_available a).
  destruct (if st then node else Ok no_service) as [sv|] eqn:Esv; [|done]. cbn [obind].
  assert (sensible sv) as Hsv by (destruct st; [by apply Hs|injection Esv as <-; apply no_service_sensible]).
  pose proof (timeout_func_ordered op sv (arg_timeout a) b) as Hord.
  pose proof (timeout_func_hard op sv (arg_timeout a) b) as Hhard.
  destruct (timeout_func _ _ _ _) as [[s0 h0] m0]. cbn [fst snd] in *. intros [= Hsoft Hh _].
  apply scaled_spec in Hh as (h & -> & ->). destruct (Hhard h eq_refl) as (Hop & Hb & d & Hd). clear Hhard.
  destruct st eqn:Est; [|by injection Esv as <-]. unfold st, b in *. apply andb_true_iff in Est as [H1 H2].
  specialize (Hord Hsv). unfold ordered in Hord. cbn [fst snd] in Hord. destruct s0 as [s0|]; [|done]. destruct Hord as [Hpos Hle].
  do 4 (split; [done|]). unfold scaled in Hsoft. rewrite (truthy_num_pos s0 Hpos) in Hsoft. subst soft. eexists. split; [done|].
  pose proof (num_mul_this s0 (_get_operation_timeout_factor p op)). pose proof (num_mul_this h (_get_operation_timeout_factor p op)).
  split; nra.
Qed.

(** ** What is reported *)
Definition is_hard (e : event) : bool := match e with HardTimeoutEvent _ _ => true | _ => false end.

Lemma monitor_spec soft hard trig looks :
  ∃ early late, _monitor_timeouts soft hard trig looks = early ++ late ∧
    (List.length early <= (if trig then 0 else 1))%nat ∧ (List.length late <= 1)%nat ∧
    Forall (λ e, ∃ d, d ∈ looks ∧ exceeded soft d = true ∧ e = SoftTimeoutEvent (Some d) soft true) early ∧
    Forall (λ e, ∃ d, d ∈ looks ∧ exceeded hard d = true ∧ e = HardTimeoutEvent (Some d) hard) late ∧
    (late = [] → Forall (λ d, exceeded hard d = false) looks).
Proof.
  revert trig. induction looks as [|d looks IH]; intros trig; cbn [_monitor_timeouts].
  { exists [], []. repeat split; try constructor; simpl; lia. }
  destruct (exceeded hard d) eqn:Eh.
  { exists [], [HardTimeoutEvent (Some d) hard]. split; [done|]. split; [simpl; lia|]. split; [done|]. split; [constructor|].
    split; [|done]. apply Forall_singleton. exists d. split; [left|done]. }
  assert (Hmono : ∀ (P : num → event → Prop) l, Forall (λ e, ∃ d, d ∈ looks ∧ P d e) l → Forall (λ e, ∃ d', d' ∈ d :: looks ∧ P d' e) l).
  { intros P l Hl. eapply Forall_impl; [exact Hl|]. intros e (d' & Hd & HP). exists d'. split; [by right|done]. }
  destruct (negb trig && exceeded soft d) eqn:Es.
  - apply andb_true_iff in Es as [Ht Es]. destruct trig; [done|].
    destruct (IH true) as (early & late & -> & He & Hl & Fe & Fl & Hno). exists (SoftTimeoutEvent (Some d) soft true :: early), late.
    split; [done|]. split; [simpl in *; lia|]. split; [done|]. split; [|split; [by apply Hmono|intros E; constructor; auto]].
    constructor; [|by apply Hmono]. exists d. split; [left|done].
  - destruct (IH trig) as (early & late & -> & He & Hl & Fe & Fl & Hno). exists early, late.
    split; [done|]. split; [done|]. split; [done|]. split; [by apply Hmono|]. split; [by apply Hmono|intros E; constructor; auto].
Qed.

(** What is reported of an operation that was given limits and ended so. *)
Definition reported (p : params) (op : Operations) (a : arguments) (tablets_enabled : bool) (soft hard : timeout) (metrics : list string)
    (looks : list num) (store_fails : bool) (duration : num) (e : ending) (r : report) : Prop :=
  let late := is_timeout e || exceeded soft duration in
  yielded r = (if truthy hard then hard else soft) ∧ ended r = e ∧
  (∃ early hards, events r = early ++ hards ++ (if late then [SoftTimeoutEvent (Some duration) soft false] else []) ∧
     (List.length early <= 1)%nat ∧ (List.length hards <= 1)%nat ∧
     Forall (λ x, ∃ d, d ∈ looks ∧ exceeded soft d = true ∧ x = SoftTimeoutEvent (Some d) soft true) early ∧
     Forall (λ x, ∃ d, d ∈ looks ∧ exceeded hard d = true ∧ x = HardTimeoutEvent (Some d) hard) hards ∧
     (tablet_sensitive_op op && tablets_enabled && truthy hard = true → hards = [] → Forall (λ d, exceeded hard d = false) looks)) ∧
  stored r = (if truthy metrics && (adaptive_timeout_store_metrics p && node_available a) && negb store_fails
              then Some (duration, soft, hard, late) else None) ∧
  (Forall (λ d, exceeded soft d = false ∧ exceeded hard d = false) (duration :: looks) → is_timeout e = false → events r = []).

Lemma reported_all p op a tablets_enabled soft hard metrics looks store_fails duration e :
  let monitored := if tablet_sensitive_op op && tablets_enabled && truthy hard then _monitor_timeouts soft hard false looks else [] in
  let late := is_timeout e || exceeded soft duration in
  reported p op a tablets_enabled soft hard metrics looks store_fails duration e
    (Report (if truthy hard then hard else soft) (monitored ++ if late then [SoftTimeoutEvent (Some duration) soft false] else [])
       (if truthy metrics && (adaptive_timeout_store_metrics p && node_available a) && negb store_fails
        then Some (duration, soft, hard, late) else None) e).
Proof.
  intros monitored late. split; [done|]. split; [done|].
  destruct (monitor_spec soft hard false looks) as (early & hards & Hm & He & Hh & Fe & Fh & Hno).
  subst monitored. set (on := tablet_sensitive_op op && tablets_enabled && truthy hard). split; [|split; [done|]].
  - destruct on; cbn [events].
    + exists early, hards. rewrite Hm, <-app_assoc. auto 10.
    + exists [], []. simpl. repeat split; try constructor; try lia.
  - intros [[Hs Hhd] Hl]%Forall_cons He'. subst late. rewrite He', Hs. cbn [events orb]. rewrite app_nil_r. destruct on; [|done]. rewrite Hm.
    assert (Hnil : ∀ (t : timeout) (f : num → event) l, (∀ d, d ∈ looks → exceeded t d = false) →
      Forall (λ x, ∃ d, d ∈ looks ∧ exceeded t d = true ∧ x = f d) l → l = []).
    { intros t f [|x l] Hno' Hf; [done|]. apply Forall_cons in Hf as [(d & Hd & Hx & _) _]. rewrite Hno' in Hx; done. }
    rewrite Forall_forall in Hl.
    by rewrite (Hnil soft (λ d, SoftTimeoutEvent (Some d) soft true) early (λ d Hd, proj1 (Hl d Hd)) Fe),
      (Hnil hard (λ d, HardTimeoutEvent (Some d) hard) hards (λ d Hd, proj2 (Hl d Hd)) Fh).
Qed.


(** ** A decommission *)
Definition sample_node : service := Service (Ok 100000) (Ok 500000) (Ok (num_of_Z 100)) (Ok 7) (Ok ["name"]%string).
Definition sample_params : params := Params (Some [("decommission", num_of_Z 2)]%string) true.
Definition sample_args : arguments := Args [] None true.

Lemma soft_before_hard_witness :
  compute_limits sample_params DECOMMISSION sample_args true (Ok sample_node)
    = Ok (secs 5200, secs 10400, ["name"; "tablets_enabled"; "n_db_nodes"]%string) ∧
  ∃ s, secs 5200 = Some s ∧ (0 < this s ∧ this s <= this (num_of_Z 10400))%Q.
Proof.
  assert (H : compute_limits sample_params DECOMMISSION sample_args true (Ok sample_node)
    = Ok (secs 5200, Some (num_of_Z 10400), ["name"; "tablets_enabled"; "n_db_nodes"]%string)) by reflexivity.
  split; [exact H|].
  assert (Hs : sensible sample_node) by (split; [intros z [= <-]; lia|split; [intros z [= <-]; lia|intros q [= <-]; reflexivity]]).
  apply (soft_before_hard sample_params DECOMMISSION sample_args true (Ok sample_node) _ _ _ ltac:(by intros s [= <-]) ltac:(reflexivity) H).
Defined.

Example late_decommission :
  let run := adaptive_timeout sample_params DECOMMISSION sample_args (Ok true) (Ok sample_node) (λ _, (num_of_Z 11000, Returns))
               [num_of_Z 5; num_of_Z 5205; num_of_Z 5210; num_of_Z 10405] false in
  ∃ r, run = Ok r ∧ yielded r = secs 10400 ∧ ended r = Returns ∧
    events r = [SoftTimeoutEvent (secs 5205) (secs 5200) true; HardTimeoutEvent (secs 10405) (secs 10400);
                SoftTimeoutEvent (secs 11000) (secs 5200) false] ∧
    stored r = Some (num_of_Z 11000, secs 5200, secs 10400, true).
Proof. eexists. split; [reflexivity|]. split; [reflexivity|]. split; [reflexivity|]. split; reflexivity. Qed.
End Timeouts.
