(* ===== verification/AwsProvisioner.v ===== *)
(** * Requesting instances from EC2

    Model of [AWSInstanceProvisioner] ([sdcm/provision/aws/provisioner.py]) and of the spot
    request functions of [sdcm/provision/aws/utils.py].

    The EC2 calls are a record of actions on an arbitrary cloud. Tag dictionaries are shared,
    mutable objects: they live in a store, lists of tags hold references, and the list the
    provisioner copies is part of its state, since requests pop from it. An instance is its
    id. The request parameters other than the count and the tags are left out. *)
From Stdlib Require Import Ascii.
From stdpp Require Import base decidable option strings numbers gmap sets list.
From S2P Require Import Prelude.
From S2P Require Import PyInt.
From S2P Require Import PyDict.
From S2P Require Import Effects.
Local Open Scope py_scope.
Local Open Scope Z_scope.

Module AwsProvisioner.

Definition SPOT_CNT_LIMIT : Z := 10.
Definition SPOT_FLEET_LIMIT : Z := 500.
Definition SPOT_REQUEST_TIMEOUT : Z := 300.
Definition SPOT_REQUEST_WAITING_TIME : Z := 5.

Inductive exn : Type :=
  | AssertionError
  | TypeError
  | IndexError
  | KeyError
  | AwsError (code : string)
  | OtherBaseException.

(** [except Exception]. *)
Definition is_exception (x : exn) : bool := match x with OtherBaseException => false | _ => true end.

Notation tags := (list (string * string)) (only parsing).

(** An entry of [describe_spot_instance_requests]; a request without an instance has no
    [InstanceId]. *)
Record spot_request := SpotRequest { status_code : string; request_state : string; instance : option string }.

(** An entry of [describe_spot_fleet_requests]. *)
Record fleet_request := FleetRequest { fleet_id : string; fleet_state : string; activity_status : option string }.

(** The calls to EC2, in one region. *)
Record ec2 (W : Type) := Ec2 {
  describe_spot_instance_requests : list string → act W exn (list spot_request);
  describe_spot_fleet_requests : list string → act W exn (list fleet_request);
  describe_spot_fleet_request_history : string → act W exn (list string);
  describe_spot_fleet_instances : string → act W exn (list string);
  request_spot_fleet : Z → tags → act W exn string;
  request_spot_instances : Z → tags → act W exn (list string);
  create_instances : Z → tags → act W exn (list string);
  cancel_spot_fleet_requests : string → bool → act W exn unit;
  cancel_spot_instance_requests : list string → act W exn unit;
  create_tags : string → tags → act W exn unit;
  sleep : Z → act W exn unit;
  perf_counter : act W exn Z;
}.
Arguments Ec2 {W}.
Arguments describe_spot_instance_requests {W}.
Arguments describe_spot_fleet_requests {W}.
Arguments describe_spot_fleet_request_history {W}.
Arguments describe_spot_fleet_instances {W}.
Arguments request_spot_fleet {W}.
Arguments request_spot_instances {W}.
Arguments create_instances {W}.
Arguments cancel_spot_fleet_requests {W}.
Arguments cancel_spot_instance_requests {W}.
Arguments create_tags {W}.
Arguments sleep {W}.
Arguments perf_counter {W}.

(** ** Waiting for a spot request *)
Section Requests.
Context {W : Type} (aws : ec2 W).

(** The loop over the requests: [None] when one cannot be fulfilled, the empty list when one
    is not fulfilled yet. *)
Fixpoint spot_loop (provisioned : list string) (reqs : list spot_request) : outcome exn (option (list string)) :=
  match reqs with
  | [] => Ok (Some provisioned)
  | req :: reqs' =>
    if negb (String.eqb (status_code req) "fulfilled") || negb (String.eqb (request_state req) "active") then
      if String.eqb (status_code req) "price-too-low" || String.eqb (status_code req) "capacity-not-available"
      then Ok None else Ok (Some [])
    else
      match instance req with
      | None => Err KeyError
      | Some i => spot_loop (provisioned ++ [i]) reqs'
      end
  end.

Definition get_provisioned_spot_instance_ids (request_ids : list string) : act W exn (option (list string)) :=
  let! r := caught (describe_spot_instance_requests aws request_ids) in
  match r with
  | Err x => if is_exception x then ret (Some []) else raise x
  | Ok reqs => match spot_loop [] reqs with Ok l => ret l | Err x => raise x end
  end.

(** The loop over the fleet requests: [None] to go on to the instances, else the answer. *)
Fixpoint fleet_loop (reqs : list fleet_request) : act W exn (option (option (list string))) :=
  match reqs with
  | [] => ret None
  | req :: reqs' =>
    if String.eqb (fleet_state req) "active" && bool_decide (activity_status req = Some "fulfilled")
    then fleet_loop reqs'
    else if bool_decide (activity_status req = Some "error") then
      let! r := caught (describe_spot_fleet_request_history aws (fleet_id req)) in
      match r with
      | Err x => if is_exception x then ret (Some (Some [])) else raise x
      | Ok errors =>
        if bool_decide ("spotInstanceCountLimitExceeded" ∈ errors) || bool_decide ("capacity-not-available" ∈ errors)
        then ret (Some None) else ret (Some (Some []))
      end
    else ret (Some (Some []))
  end.

Fixpoint fleet_instances (request_ids : list string) (provisioned : list string) : act W exn (option (list string)) :=
  match request_ids with
  | [] => ret (Some provisioned)
  | id :: ids =>
    let! r := caught (describe_spot_fleet_instances aws id) in
    match r with
    | Err x => if is_exception x then ret None else raise x
    | Ok l => fleet_instances ids (provisioned ++ l)
    end
  end.

Definition get_provisioned_fleet_instance_ids (request_ids : list string) : act W exn (option (list string)) :=
  let! r := caught (describe_spot_fleet_requests aws request_ids) in
  match r with
  | Err x => if is_exception x then ret (Some []) else raise x
  | Ok reqs =>
    let! answer := fleet_loop reqs in
    match answer with
    | Some a => ret a
    | None => fleet_instances request_ids []
    end
  end.

(** The [while] loop with its counter; [fuel] is more than the rounds the timeout allows. *)
Fixpoint wait_loop (fuel : nat) (poll : act W exn (option (list string))) (timeout wait_interval waiting_time : Z)
    (ids : list string) : act W exn (option (list string)) :=
  match fuel with
  | O => ret (Some ids)
  | S fuel' =>
    if negb (truthy ids) && (waiting_time <? timeout) then
      sleep aws wait_interval ;;;
      let! r := poll in
      match r with
      | None => ret None
      | Some ids' => wait_loop fuel' poll timeout wait_interval (waiting_time + wait_interval) ids'
      end
    else ret (Some ids)
  end.

Definition wait_for_provision_request_done (request_ids : list string) (is_fleet : bool) : act W exn (option (list string)) :=
  wait_loop (S (Z.to_nat SPOT_REQUEST_TIMEOUT))
    (if is_fleet then get_provisioned_fleet_instance_ids request_ids else get_provisioned_spot_instance_ids request_ids)
    SPOT_REQUEST_TIMEOUT SPOT_REQUEST_WAITING_TIME 0 [].

(** [with suppress(ClientError): create_tags(...); return True], until the time is up;
    [attempts] bounds the calls that fit into it. *)
Fixpoint set_tags_loop (attempts : nat) (end_time : Z) (instance_id : string) (t : tags) : act W exn bool :=
  match attempts with
  | O => ret false
  | S attempts' =>
    let! now := perf_counter aws in
    if now <? end_time then
      let! r := caught (create_tags aws instance_id t) in
      match r with
      | Ok _ => ret true
      | Err (AwsError _) => set_tags_loop attempts' end_time instance_id t
      | Err x => raise x
      end
    else ret false
  end.

Definition set_tags_on_instances (attempts : nat) (instance_id : string) (t : tags) : act W exn bool :=
  let! now := perf_counter aws in set_tags_loop attempts (now + 20) instance_id t.
End Requests.

(** ** The provisioner *)
Record state (W : Type) := State { cloud : W; store : gmap nat tags; tag_list : list nat }.
Arguments State {W}.
Arguments cloud {W}.
Arguments store {W}.
Arguments tag_list {W}.

Inductive tags_arg := NoTags | OneDict (l : nat) | TagList (ls : list nat).

Section Provisioner.
Context {W : Type} (aws : ec2 W) (attempts : nat).
Notation action := (act (state W) exn).

Definition lift {A} (m : act W exn A) : action A :=
  λ s, let '(w, r) := m (cloud s) in (State w (store s) (tag_list s), r).

(** [tags[0]] and [tags.pop()], as the dictionaries they refer to. *)
Definition first_tags : action tags :=
  λ s, match tag_list s with [] => (s, Err IndexError) | l :: _ => (s, Ok (default [] (store s !! l))) end.
Definition pop_tags : action tags :=
  λ s, match list.last (tag_list s) with
       | None => (s, Err IndexError)
       | Some l => (State (cloud s) (store s) (take (pred (length (tag_list s))) (tag_list s)),
                    Ok (default [] (store s !! l)))
       end.

(** [a | b]. *)
Definition dict_union (a b : tags) : tags := foldl (λ d p, dict_set p.1 p.2 d) a b.

(** [for ind, instance in enumerate(instances)]. *)
Fixpoint tag_instances (prefix : string) (ind : nat) (ids : list string) : action unit :=
  match ids with
  | [] => ret tt
  | i :: ids' =>
    let! instance_tags := pop_tags in
    let! _ := lift (set_tags_on_instances aws attempts i
        (dict_union [("Name", prefix +:+ i +:+ "_" +:+ str_Z (Z.of_nat ind))] instance_tags)) in
    tag_instances prefix (S ind) ids'
  end.

Definition _is_provision_type_fleet (count : Z) : bool := SPOT_CNT_LIMIT <? count.
Definition _provision_instance_limit (count : Z) : Z :=
  if _is_provision_type_fleet count then SPOT_FLEET_LIMIT else SPOT_CNT_LIMIT.

(** [with suppress(Exception)]. *)
Definition suppress (m : act W exn unit) : action unit := try_except is_exception (lift m) (λ _, ret tt).

Definition _execute_spot_fleet_instance_request (count : Z) : action (list string) :=
  let! t := first_tags in
  let! request_id := lift (request_spot_fleet aws count t) in
  let! r := lift (wait_for_provision_request_done aws [request_id] true) in
  match r with
  | Some (_ :: _ as instance_ids) =>
    tag_instances "spot_fleet_" 0 instance_ids ;;;
    lift (cancel_spot_fleet_requests aws request_id false) ;;;
    ret instance_ids
  | _ => suppress (cancel_spot_fleet_requests aws request_id true) ;;; ret []
  end.

Definition _execute_spot_instance_request (count : Z) : action (list string) :=
  let! t := first_tags in
  let! request_ids := lift (request_spot_instances aws count t) in
  let! r := lift (wait_for_provision_request_done aws request_ids false) in
  match r with
  | Some (_ :: _ as instance_ids) =>
    tag_instances "spot_" 0 instance_ids ;;;
    lift (cancel_spot_instance_requests aws request_ids) ;;;
    ret instance_ids
  | _ => suppress (cancel_spot_instance_requests aws request_ids) ;;; ret []
  end.

Definition _provision_on_demand_instances (count : Z) : action (list string) :=
  let! t := first_tags in
  let! instances := lift (create_instances aws count t) in
  tag_instances "spot_fleet_" 0 instances ;;; ret instances.

(** The [while] loop; [None] when the fuel ran out. *)
Fixpoint spot_chunks (fuel : nat) (count rest_to_provision : Z) (provisioned : list string) : action (option (list string)) :=
  match fuel with
  | O => ret None
  | S fuel' =>
    if truthy rest_to_provision then
      let n := if truthy (rest_to_provision / _provision_instance_limit count)
               then _provision_instance_limit count else rest_to_provision in
      let! new_instances :=
        (if _is_provision_type_fleet count && (1 <? n)
         then _execute_spot_fleet_instance_request n else _execute_spot_instance_request n) in
      spot_chunks fuel' count (rest_to_provision - n) (provisioned ++ new_instances)
    else ret (Some provisioned)
  end.

Definition _provision_spot_instances (fuel : nat) (count : Z) : action (option (list string)) :=
  spot_chunks fuel count count [].

(** [tag["Name"] = name] for every name and the tag at its index. *)
Fixpoint write_names (i : nat) (names : list string) : action unit :=
  match names with
  | [] => ret tt
  | name :: names' =>
    (λ s, match tag_list s !! i with
          | None => (s, Err IndexError)
          | Some l => (State (cloud s) (<[l := dict_set "Name" name (default [] (store s !! l))]> (store s)) (tag_list s),
                       Ok tt)
          end) ;;;
    write_names (S i) names'
  end.

(** The tags as a list of [count] references: a fresh dictionary for [None]. *)
Definition tag_refs (t : tags_arg) (count : Z) (s : state W) : state W :=
  match t with
  | NoTags => let l := fresh (dom (store s)) in
              State (cloud s) (<[l := []]> (store s)) (replicate (Z.to_nat count) l)
  | OneDict l => State (cloud s) (store s) (replicate (Z.to_nat count) l)
  | TagList ls => State (cloud s) (store s) ls
  end.

Definition provision (fuel : nat) (spot : bool) (count : Z) (t : tags_arg) (names : option (list string))
    : action (option (list string)) :=
  modify (tag_refs t count) ;;;
  let! refs := gets tag_list in
  if truthy (from_option length 0%nat names) && negb (Z.of_nat (from_option length 0%nat names) =? count) then raise AssertionError
  else if negb (Z.of_nat (length refs) =? count) then raise AssertionError
  else match names with
  | None => raise TypeError
  | Some ns =>
    write_names 0 ns ;;;
    if spot then _provision_spot_instances fuel count
    else let! l := _provision_on_demand_instances count in ret (Some l)
  end.
End Provisioner.

(** ** Spot requests are all or nothing *)
Definition fulfilled (req : spot_request) (i : string) : Prop :=
  status_code req = "fulfilled" ∧ request_state req = "active" ∧ instance req = Some i.

Lemma spot_loop_all acc reqs l :
  spot_loop acc reqs = Ok (Some l) → l = [] ∨ ∃ ids, l = acc ++ ids ∧ Forall2 fulfilled reqs ids.
Proof.
  revert acc. induction reqs as [|req reqs IH]; intros acc; simpl.
  { intros [= <-]. right. exists []. by rewrite (right_id_L [] (++)). }
  destruct (String.eqb_spec (status_code req) "fulfilled") as [Hs|]; simpl; [|by destruct (_ || _); intros [=]; left].
  destruct (String.eqb_spec (request_state req) "active") as [Ha|]; simpl; [|by destruct (_ || _); intros [=]; left].
  destruct (instance req) as [i|] eqn:Hi; [|done]. intros [?|(ids & -> & Hids)]%IH; [by left|right].
  exists (i :: ids). rewrite <-(assoc_L (++)). split; [done|]. by constructor.
Qed.

(** A spot request is met in full or not at all: when polling answers with instances, EC2
    listed every request of the batch as fulfilled and active, and the answer is the list of
    their instances, one for each. *)
Theorem spot_ids_all_or_nothing {W} (aws : ec2 W) request_ids w w' i l :
  get_provisioned_spot_instance_ids aws request_ids w = (w', Ok (Some (i :: l))) →
  ∃ reqs, describe_spot_instance_requests aws request_ids w = (w', Ok reqs) ∧ Forall2 fulfilled reqs (i :: l).
Proof.
  unfold get_provisioned_spot_instance_ids, bind, caught.
  destruct (describe_spot_instance_requests aws request_ids w) as [w1 [reqs|x]].
  - destruct (spot_loop [] reqs) as [o|x] eqn:E; [|done]. intros [= -> ->].
    exists reqs. split; [done|]. by apply spot_loop_all in E as [|(ids & -> & H)].
  - destruct (is_exception x); [done|]. intros [=].
Qed.

(** ** Waiting is bounded *)
Lemma wait_loop_more {W} (aws : ec2 W) fuel extra poll timeout interval waiting ids s :
  0 < interval → timeout - waiting < interval * Z.of_nat fuel →
  wait_loop aws (fuel + extra) poll timeout interval waiting ids s = wait_loop aws fuel poll timeout interval waiting ids s.
Proof.
  intros Hi. revert waiting ids s. induction fuel as [|fuel IH]; intros waiting ids s Hb.
  { destruct extra as [|extra]; [done|]. cbn [wait_loop Nat.add].
    by rewrite (proj2 (Z.ltb_ge waiting timeout)), andb_false_r by lia. }
  cbn [wait_loop Nat.add]. destruct (_ && _) eqn:Ec; [|done].
  apply andb_true_iff in Ec as [_ Hw%Z.ltb_lt]. unfold bind.
  destruct (sleep aws interval s) as [s1 [[]|x]]; [|done]. destruct (poll s1) as [s2 [[l|]|x]]; [|done|done].
  apply IH. nia.
Qed.

(** The rounds given to a wait are enough for any timeout: more make no difference. *)
Lemma wait_done_enough {W} (aws : ec2 W) extra request_ids (is_fleet : bool) s :
  wait_loop aws (S (Z.to_nat SPOT_REQUEST_TIMEOUT) + extra)%nat
    (if is_fleet then get_provisioned_fleet_instance_ids aws request_ids
     else get_provisioned_spot_instance_ids aws request_ids) SPOT_REQUEST_TIMEOUT SPOT_REQUEST_WAITING_TIME 0 [] s =
  wait_for_provision_request_done aws request_ids is_fleet s.
Proof. apply wait_loop_more; done. Qed.

(** ** The requests of a spot provisioning *)
Section Chunks.
Context {W : Type} (aws : ec2 W) (attempts : nat).

Definition chunk_sizes (count : Z) : list Z :=
  let lim := _provision_instance_limit count in
  replicate (Z.to_nat (count / lim)) lim ++ (if count mod lim =? 0 then [] else [count mod lim]).

Definition request (count n : Z) : act (state W) exn (list string) :=
  if _is_provision_type_fleet count && (1 <? n) then _execute_spot_fleet_instance_request aws attempts n
  else _execute_spot_instance_request aws attempts n.

Fixpoint request_each (count : Z) (ns : list Z) (provisioned : list string) : act (state W) exn (option (list string)) :=
  match ns with
  | [] => ret (Some provisioned)
  | n :: ns' => let! new := request count n in request_each count ns' (provisioned ++ new)
  end.

Lemma limit_pos count : 0 < _provision_instance_limit count.
Proof. unfold _provision_instance_limit. by destruct (_is_provision_type_fleet count). Qed.

Lemma spot_chunks_eq fuel count q r provisioned s :
  0 <= r < _provision_instance_limit count → (S q < fuel)%nat →
  spot_chunks aws attempts fuel count (Z.of_nat q * _provision_instance_limit count + r) provisioned s =
  request_each count (replicate q (_provision_instance_limit count) ++ (if r =? 0 then [] else [r])) provisioned s.
Proof.
  intros Hr. pose proof (limit_pos count) as Hlim. set (lim := _provision_instance_limit count) in *.
  revert fuel provisioned s. induction q as [|q IH]; intros fuel provisioned s Hf; (destruct fuel as [|fuel]; [lia|]).
  - destruct fuel as [|fuel]; [lia|]. cbn [spot_chunks replicate app]. fold lim.
    replace (Z.of_nat 0 * lim + r) with r by lia. unfold truthy, truthy_Z.
    destruct (Z.eqb_spec r 0) as [->|Hne]; [done|]. rewrite (Z.div_small r lim) by lia. cbn [negb Z.eqb request_each].
    unfold bind, request. destruct (_ s) as [s1 [new|x]]; [|done].
    by rewrite Z.sub_diag.
  - cbn [spot_chunks replicate app request_each]. fold lim. unfold truthy, truthy_Z.
    destruct (Z.eqb_spec (Z.of_nat (S q) * lim + r) 0); [nia|].
    replace ((Z.of_nat (S q) * lim + r) / lim) with (Z.of_nat (S q)).
    2:{ rewrite Z.div_add_l, (Z.div_small r lim) by lia. lia. }
    destruct (Z.eqb_spec (Z.of_nat (S q)) 0); [lia|]. cbn [negb]. unfold bind, request.
    destruct (_ s) as [s1 [new|x]]; [|done].
    replace (Z.of_nat (S q) * lim + r - lim) with (Z.of_nat q * lim + r) by lia. apply IH. lia.
Qed.

(** Spot instances are requested in full and within the limits: for any count the loop
    ends, having made exactly the requests of [chunk_sizes], in order; these add up to the
    count, each is positive and within the limit for its kind; and up to five hundred
    instances take a single request, a fleet request when there are more than ten. *)
Theorem spot_requests_cover fuel count s :
  0 <= count → (Z.to_nat count + 1 < fuel)%nat →
  _provision_spot_instances aws attempts fuel count s = request_each count (chunk_sizes count) [] s ∧
  foldr Z.add 0 (chunk_sizes count) = count ∧
  Forall (λ n, 0 < n <= _provision_instance_limit count) (chunk_sizes count) ∧
  (0 < count <= 500 → chunk_sizes count = [count]).
Proof.
  intros Hc Hf. pose proof (limit_pos count) as Hlim. unfold chunk_sizes.
  set (lim := _provision_instance_limit count) in *.
  pose proof (Z.div_mod count lim ltac:(lia)) as Hdm. pose proof (Z.mod_pos_bound count lim Hlim) as Hm.
  assert (0 <= count / lim) as Hq by (apply Z.div_pos; lia).
  assert (count / lim <= count) as Hle by (apply Z.div_le_upper_bound; nia).
  set (q := count / lim) in *. set (r := count mod lim) in *. split_and!.
  - unfold _provision_spot_instances.
    pose proof (spot_chunks_eq fuel count (Z.to_nat q) r [] s) as H. fold lim in H. rewrite <-H by lia. f_equal. lia.
  - rewrite foldr_app. replace (foldr Z.add 0 (if r =? 0 then [] else [r])) with r by (destruct (Z.eqb_spec r 0); simpl; lia).
    assert (∀ m z, foldr Z.add z (replicate m lim) = Z.of_nat m * lim + z) as ->; [|lia].
    intros m z. induction m as [|m IH]; [simpl; lia|]. rewrite replicate_S. simpl foldr. rewrite IH. lia.
  - apply Forall_app; split; [apply Forall_replicate; lia|]. destruct (Z.eqb_spec r 0); repeat constructor; lia.
  - intros Hc5. unfold lim, _provision_instance_limit, _is_provision_type_fleet, SPOT_FLEET_LIMIT, SPOT_CNT_LIMIT in *.
    destruct (Z.ltb_spec 10 count).
    + destruct (decide (count = 500)) as [->|]; [done|].
      assert (q = 0) as -> by (apply Z.div_small; lia). assert (r = count) as -> by lia.
      destruct (Z.eqb_spec count 0); [lia|done].
    + destruct (decide (count = 10)) as [->|]; [done|].
      assert (q = 0) as -> by (apply Z.div_small; lia). assert (r = count) as -> by lia.
      destruct (Z.eqb_spec count 0); [lia|done].
Qed.
End Chunks.

(** ** Names *)
Section Names.
Context {W : Type} (aws : ec2 W) (attempts : nat).
Implicit Type s : state W.

Definition tags_of (st : gmap nat tags) (l : nat) : tags := default [] (st !! l).

(** Writing names through distinct references: each reference gets its name, nothing else
    changes. *)
Lemma write_names_spec i names s :
  NoDup (tag_list s) → (i + length names <= length (tag_list s))%nat →
  ∃ st, write_names (W := W) i names s = (State (cloud s) st (tag_list s), Ok tt) ∧
    (∀ j name l, names !! j = Some name → tag_list s !! (i + j)%nat = Some l → dict_get "Name" (tags_of st l) = Some name) ∧
    (∀ l, (∀ j, (i <= j)%nat → tag_list s !! j ≠ Some l) → st !! l = store s !! l).
Proof.
  revert i s. induction names as [|name names IH]; intros i s Hnd Hlen; cbn [write_names].
  { exists (store s). split; [by destruct s|]. by split. }
  unfold bind at 1. simpl in Hlen. destruct (lookup_lt_is_Some_2 (tag_list s) i) as [l Hl]; [lia|]. rewrite Hl.
  set (s1 := State (cloud s) (<[l := dict_set "Name" name (default [] (store s !! l))]> (store s)) (tag_list s)).
  destruct (IH (S i) s1) as (st & Heq & Hst & Hsame); [done|simpl; lia|]. exists st. rewrite Heq. split; [done|]. split.
  - intros [|j] name' l' Hn Hl'.
    + simpl in Hn. simplify_eq. rewrite Nat.add_0_r in Hl'. rewrite Hl in Hl'. simplify_eq.
      unfold tags_of. rewrite Hsame; [simpl; rewrite lookup_insert_eq; simpl; by rewrite dict_get_set, decide_True|].
      intros j Hj Hlj. simpl in Hlj. pose proof (NoDup_lookup _ _ _ _ Hnd Hl Hlj). lia.
    + apply (Hst j); [done|]. simpl. by rewrite Nat.add_succ_r in Hl'.
  - intros l' Hl'. rewrite Hsame; [|intros j ?; apply Hl'; lia]. simpl. rewrite lookup_insert_ne; [done|].
    intros ->. by apply (Hl' i).
Qed.

(** Each instance with the tags it is given. *)
Fixpoint tag_each (prefix : string) (ind : nat) (pairs : list (string * tags)) : act W exn unit :=
  match pairs with
  | [] => ret tt
  | (i, t) :: ps =>
    let! _ := set_tags_on_instances aws attempts i
                (dict_union [("Name", prefix +:+ i +:+ "_" +:+ str_Z (Z.of_nat ind))] t) in
    tag_each prefix (S ind) ps
  end.

(** Tags are popped from the end: the first instance gets the last tags. *)
Lemma tag_instances_eq prefix ind ids s rest ls s1 r1 :
  tag_list s = rest ++ reverse ls → length ls = length ids →
  tag_instances aws attempts prefix ind ids s = (s1, r1) →
  tag_each prefix ind (zip ids (tags_of (store s) <$> ls)) (cloud s) = (cloud s1, r1).
Proof.
  revert ind s ls. induction ids as [|i ids IH]; intros ind s [|l ls] Hs Hlen; simpl in Hlen; try lia.
  { by intros [= <- <-]. }
  cbn [tag_instances zip_with fmap list_fmap tag_each]. unfold bind, pop_tags, lift.
  rewrite Hs, reverse_cons, (assoc_L (++)), last_snoc. cbn [cloud].
  change (default [] (store s !! l)) with (tags_of (store s) l).
  destruct (set_tags_on_instances _ _ _ _ (cloud s)) as [w [b|x]]; [|by intros [= <- <-]].
  intros H. refine (IH (S ind) _ ls _ _ H); [|lia]. simpl. rewrite length_app. simpl.
  by rewrite Nat.add_1_r, Nat.pred_succ, take_app_length.
Qed.

(** On demand, every instance gets the tags and the name meant for one node, in reverse
    order: with one tag dictionary for each name, all names are written first, whatever the
    tags held before, and when EC2 answers with as many instances, the first instance is
    tagged with the tags of the last name, the second with those before it, and so on, and
    these instances are the result unless tagging fails. *)
Theorem on_demand_names_reversed fuel ls names s w1 ids s' r :
  NoDup ls → length ls = length names → length ids = length names → ids ≠ [] →
  (∀ t, create_instances aws (Z.of_nat (length names)) t (cloud s) = (w1, Ok ids)) →
  provision aws attempts fuel false (Z.of_nat (length names)) (TagList ls) (Some names) s = (s', r) →
  ∃ st, (∀ j name l, names !! j = Some name → ls !! j = Some l → dict_get "Name" (tags_of st l) = Some name) ∧
        tag_each "spot_fleet_" 0 (zip ids (reverse (tags_of st <$> ls))) w1 =
          (cloud s', match r with Ok _ => Ok tt | Err x => Err x end) ∧
        (∀ v, r = Ok v → v = Some ids).
Proof.
  intros Hnd Hl Hi Hne Hc. unfold provision, bind at 1, modify, bind at 1, gets. cbn [tag_refs tag_list from_option].
  rewrite Hl, Z.eqb_refl, andb_false_r. cbn [negb]. unfold bind at 1.
  destruct (write_names_spec 0 names (State (cloud s) (store s) ls)) as (st & Heq & Hst & _); [done|simpl; lia|].
  unfold id. rewrite Heq. cbn [cloud tag_list]. intros H. exists st. split; [by apply Hst|]. revert H.
  destruct ls as [|l0 ls0]; [by destruct ids, names|]. set (ls := l0 :: ls0) in *.
  unfold _provision_on_demand_instances, bind, first_tags, lift. unfold ls at 1. cbn [tag_list cloud store].
  rewrite Hc. cbn [cloud store tag_list].
  destruct (tag_instances aws attempts "spot_fleet_" 0 ids (State w1 st ls)) as [s1 r1] eqn:Ht.
  apply (tag_instances_eq _ _ _ _ [] (reverse ls)) in Ht; [|by rewrite reverse_involutive|rewrite length_reverse; lia].
  cbn [cloud store] in Ht. rewrite fmap_reverse in Ht. rewrite Ht.
  destruct r1 as [[]|x]; intros [= <- <-]; (split; [done|]); by intros v [= <-].
Qed.
End Names.

(** ** A concrete cloud

    Its state is the list of the [create_tags] calls made; every spot request is fulfilled
    with two instances. *)
Definition sample_ec2 : ec2 (list (string * list (string * string))) :=
  Ec2 (λ _, ret [SpotRequest "fulfilled" "active" (Some "i-1"); SpotRequest "fulfilled" "active" (Some "i-2")])
      (λ _, ret []) (λ _, ret []) (λ _, ret []) (λ _ _, ret "sfr-1") (λ _ _, ret ["sir-1"; "sir-2"])
      (λ _ _, ret ["i-1"; "i-2"]) (λ _ _, ret tt) (λ _, ret tt)
      (λ i t, modify (λ w, w ++ [(i, t)])) (λ _, ret tt) (ret 0).

(** Two requests fulfilled: both instances are the answer. *)
Lemma spot_ids_all_or_nothing_witness :
  ∃ reqs, describe_spot_instance_requests sample_ec2 ["sir-1"; "sir-2"] [] = ([], Ok reqs) ∧
          Forall2 fulfilled reqs ["i-1"; "i-2"].
Proof. apply (spot_ids_all_or_nothing sample_ec2 ["sir-1"; "sir-2"] [] [] "i-1" ["i-2"]). reflexivity. Defined.

(** A thousand and one instances: two full fleet requests and a last plain one. *)
Lemma spot_requests_cover_witness :
  chunk_sizes 1001 = [500; 500; 1] ∧
  foldr Z.add 0 (chunk_sizes 1001) = 1001.
Proof.
  split; [reflexivity|].
  apply (spot_requests_cover sample_ec2 1 (Z.to_nat 1003) 1001 (State [] ∅ [])); lia.
Defined.

(** Two nodes on demand: the first instance carries the name of the second node. *)
Lemma on_demand_names_reversed_witness :
  cloud (provision sample_ec2 1 0 false 2 (TagList [0; 1]%nat) (Some ["node-1"; "node-2"])
           (State [] (<[0%nat := [("NodeType", "db")]]> (<[1%nat := [("NodeType", "db")]]> ∅)) [])).1 =
  [("i-1", [("Name", "node-2"); ("NodeType", "db")]); ("i-2", [("Name", "node-1"); ("NodeType", "db")])] ∧
  ∃ st, dict_get "Name" (tags_of st 1) = Some "node-2".
Proof.
  split; [vm_compute; reflexivity|].
  destruct (on_demand_names_reversed sample_ec2 1 0 [0; 1]%nat ["node-1"; "node-2"]
    (State [] (<[0%nat := [("NodeType", "db")]]> (<[1%nat := [("NodeType", "db")]]> ∅)) []) [] ["i-1"; "i-2"]
    _ _ (NoDup_seq 0 2) eq_refl eq_refl ltac:(done) (λ _, eq_refl) (surjective_pairing _)) as (st & Hst & _).
  exists st. apply (Hst 1%nat "node-2" 1%nat); reflexivity.
Defined.
End AwsProvisioner.
