(* ===== verification/AwsCluster.v ===== *)
(** * The nodes of an AWS cluster and their batches

    Model of [ClusterBase] and [DBCluster] of [sdcm/sct_provision/aws/cluster.py]: which nodes
    a cluster consists of, how they are spread over the availability zones, and the batches
    in which they are provisioned, one per region and zone.

    Provisioning a batch is an argument, an action on the cloud; [AwsProvisioner] checks that
    as many names and tags as instances are asked for. Instance parameters are left out. *)
From Stdlib Require Import Ascii.
From stdpp Require Import base decidable option strings numbers gmap sets list.
From S2P Require Import Prelude.
From S2P Require Import PyString.
From S2P Require Import PyInt.
From S2P Require Import PyVal.
From S2P Require Import PyDict.
From S2P Require Import Effects.
From S2P Require Import AwsFallback.
Local Open Scope py_scope.

Module AwsCluster.
Import AwsFallback.

Record cluster := Cluster {
  region_names : list string;
  _azs : list string;
  _node_prefix : string;
  tags : list (string * string);
  data_nodes_param : pyval;
  zero_token_nodes_param : pyval;
  use_zero_nodes : pyval;
}.

(** [int(num)]. *)
Definition int_of (v : pyval) : outcome aexn Z :=
  match v with
  | VInt z => Ok z
  | VBool b => Ok (if b then 1 else 0)%Z
  | VStr s => match py_int s with Some z => Ok z | None => Err ValueError end
  | _ => Err OtherException
  end.

Fixpoint ints_of (l : list pyval) : outcome aexn (list Z) :=
  match l with
  | [] => Ok []
  | v :: l' => try! z := int_of v in try! zs := ints_of l' in Ok (z :: zs)
  end.

(** A parameter that is a list of integers or an integer. *)
Definition node_counts (v : pyval) : outcome aexn (list Z) :=
  match v with
  | VList l => ints_of l
  | VInt z => Ok [z]
  | VBool b => Ok [if b then 1 else 0]%Z
  | _ => Err ValueError
  end.

Definition _get_data_nodes (c : cluster) : outcome aexn (list Z) := node_counts (data_nodes_param c).

Definition _get_zero_token_nodes (c : cluster) : outcome aexn (list Z) :=
  if negb (truthy (use_zero_nodes c)) || negb (truthy (zero_token_nodes_param c)) then Ok []
  else node_counts (zero_token_nodes_param c).

(** [DBCluster._node_nums]. *)
Definition _node_nums (data zero : list Z) : list Z :=
  match zero with
  | [] => data
  | _ => zip_with Z.add data zero
  end.

Definition _active_region_ids (c : cluster) (node_nums : list Z) : list nat :=
  filter (λ r, (0 < default 0 (node_nums !! r))%Z) (seq 0 (length (region_names c))).

Record ClusterNode := Node { region_id : nat; az_id : nat; node_num : nat }.

Definition name (c : cluster) (n : ClusterNode) : string := _node_prefix c +:+ "-" +:+ str_Z (Z.of_nat (node_num n)).

(** [self.parent_cluster.tags | {"NodeIndex": ...}]. *)
Definition node_tags (c : cluster) (n : ClusterNode) : list (string * string) :=
  dict_set "NodeIndex" (str_Z (Z.of_nat (node_num n))) (tags c).

(** [node_nums[region_id]], as a number of iterations. *)
Definition nodes_in (node_nums : list Z) (r : nat) : nat := Z.to_nat (default 0%Z (node_nums !! r)).

(** The nodes of one region, numbered after [from]. *)
Definition region_nodes (c : cluster) (node_nums : list Z) (r from : nat) : list ClusterNode :=
  (λ idx, Node r (idx mod length (_azs c)) (from + S idx)) <$> seq 0 (nodes_in node_nums r).

Fixpoint nodes_from (c : cluster) (node_nums : list Z) (rs : list nat) (from : nat) : list ClusterNode :=
  match rs with
  | [] => []
  | r :: rs' => region_nodes c node_nums r from ++ nodes_from c node_nums rs' (from + nodes_in node_nums r)
  end.

Definition nodes (c : cluster) (node_nums : list Z) : list ClusterNode :=
  nodes_from c node_nums (_active_region_ids c node_nums) 0.

(** [az_nodes = [0] * k], [az_nodes[i % k] += 1] for [i] in [range(n)]. *)
Definition spread (k n : nat) : list nat := foldl (λ l i, alter S (i mod k) l) (replicate k 0) (seq 0 n).

(** [ClusterBase._az_nodes]. *)
Definition _az_nodes (c : cluster) (node_nums : list Z) (r : nat) : list nat :=
  spread (length (_azs c)) (nodes_in node_nums r).

Definition batch_nodes (c : cluster) (node_nums : list Z) (r az : nat) : list ClusterNode :=
  filter (λ n, region_id n = r ∧ az_id n = az) (nodes c node_nums).
Definition _node_names (c : cluster) (node_nums : list Z) (r az : nat) : list string :=
  name c <$> batch_nodes c node_nums r az.
Definition _node_tags (c : cluster) (node_nums : list Z) (r az : nat) : list (list (string * string)) :=
  node_tags c <$> batch_nodes c node_nums r az.

(** What a batch asks for. *)
Record batch := Batch {
  b_region : nat;
  b_az : nat;
  b_zero_token : bool;
  b_tags : list (list (string * string));
  b_names : list string;
  b_count : nat;
}.

(** The batch of [ClusterBase.provision] for one region and zone, if there are nodes in it. *)
Definition base_batch (c : cluster) (node_nums : list Z) (r az : nat) : list batch :=
  let node_count := default 0 (_az_nodes c node_nums r !! az) in
  if negb (truthy node_count) then []
  else [Batch r az false (_node_tags c node_nums r az) (_node_names c node_nums r az) node_count].

Definition base_batches (c : cluster) (node_nums : list Z) : list batch :=
  r ← _active_region_ids c node_nums; az ← seq 0 (length (_azs c)); base_batch c node_nums r az.

(** [DBCluster._az_nodes]. *)
Definition db_az_nodes (c : cluster) (data zero : list Z) (r : nat) : list nat * list nat :=
  (spread (length (_azs c)) (nodes_in data r),
   match zero with
   | [] => replicate (length (_azs c)) 0
   | _ => spread (length (_azs c)) (nodes_in zero r)
   end).

(** The batches of [DBCluster.provision] for one region and zone: the nodes that hold data,
    then the zero-token nodes. *)
Definition db_batch (c : cluster) (data zero : list Z) (r az : nat) : list batch :=
  let node_nums := _node_nums data zero in
  let '(az_nodes, az_zero_nodes) := db_az_nodes c data zero r in
  let node_count := default 0 (az_nodes !! az) in
  let zero_node_count := default 0 (az_zero_nodes !! az) in
  (if negb (truthy node_count) then []
   else [Batch r az false (take node_count (_node_tags c node_nums r az))
           (take node_count (_node_names c node_nums r az)) node_count]) ++
  (if negb (truthy zero_node_count) then []
   else [Batch r az true (dict_set "ZeroTokenNode" "True" <$> drop node_count (_node_tags c node_nums r az))
           (drop node_count (_node_names c node_nums r az)) zero_node_count]).

Definition db_batches (c : cluster) (data zero : list Z) (skip_region_ids : list nat) : list batch :=
  r ← filter (λ r, r ∉ skip_region_ids) (_active_region_ids c (_node_nums data zero));
  az ← seq 0 (length (_azs c)); db_batch c data zero r az.

Section Provisioning.
Context {W I : Type}.
(** The provision plan of a region and zone, run on a batch. *)
Context (provision_instances : string → string → batch → act W aexn (list I)).

Notation action := (act (W * list I) aexn).

Definition lift {A} (m : act W aexn A) : action A := λ s, let '(w, r) := m s.1 in ((w, s.2), r).

(** [except (ClientError, ProvisioningCapacityExhausted)] of [_provision_az_instances]. *)
Definition is_placement_error (x : aexn) : bool :=
  match x with ClientError _ _ _ | ProvisioningCapacityExhausted _ => true | _ => false end.

Definition _provision_az_instances (c : cluster) (b : batch) : action (list I) :=
  let region := default EmptyString (region_names c !! b_region b) in
  try_except is_placement_error
    (let! instances := lift (provision_instances region (default EmptyString (_azs c !! b_az b)) b) in
     match instances with
     | [] => raise (ProvisioningCapacityExhausted None)
     | _ => ret instances
     end)
    (λ x, raise (attach_failed_region (Some region) x)).

Definition provision_batches (c : cluster) (bs : list batch) : action (list I) :=
  for_each bs (λ b,
    let! instances := _provision_az_instances c b in
    modify (λ s, (s.1, s.2 ++ instances))) ;;;
  gets snd.

(** [ClusterBase.provision]. *)
Definition provision (c : cluster) : action (list I) :=
  match _get_data_nodes c with
  | Err x => raise x
  | Ok node_nums =>
    if bool_decide (node_nums = [0%Z]) then ret [] else provision_batches c (base_batches c node_nums)
  end.

(** [DBCluster.provision]. *)
Definition db_provision (c : cluster) (skip_region_ids : list nat) : action (list I) :=
  match _get_data_nodes c, _get_zero_token_nodes c with
  | Ok data, Ok zero =>
    if bool_decide (_node_nums data zero = [0%Z]) then ret []
    else provision_batches c (db_batches c data zero skip_region_ids)
  | Err x, _ | _, Err x => raise x
  end.
End Provisioning.

(** ** Lists by key *)
Lemma filter_fmap_length {A B} (f : A → B) (P : B → Prop) `{∀ x, Decision (P x)} (l : list A) :
  length (filter P (f <$> l)) = length (filter (λ x, P (f x)) l).
Proof.
  induction l as [|x l IH]; [done|]. rewrite fmap_cons, !filter_cons. by destruct (decide (P (f x))); simpl; rewrite IH.
Qed.

Lemma bind_ext {A B} (f g : A → list B) (l : list A) : (∀ x, x ∈ l → f x ≡ₚ g x) → (l ≫= f) ≡ₚ (l ≫= g).
Proof.
  induction l as [|x l IH]; intros H; [done|]. rewrite !bind_cons. rewrite IH.
  - by rewrite (H x) by (by left).
  - intros y ?. apply H. by right.
Qed.

Lemma fmap_bind_list {A B C} (f : B → C) (g : A → list B) (l : list A) : f <$> (l ≫= g) = l ≫= λ x, f <$> g x.
Proof. induction l as [|x l IH]; [done|]. by rewrite !bind_cons, fmap_app, IH. Qed.

(** A list is the concatenation of its parts by key. *)
Lemma bind_filter_key {A B} `{EqDecision B} (f : A → B) (keys : list B) (l : list A) :
  NoDup keys → (∀ x, x ∈ l → f x ∈ keys) → (keys ≫= λ k, filter (λ x, f x = k) l) ≡ₚ l.
Proof.
  revert l. induction keys as [|k ks IH]; intros l Hnd Hin.
  { destruct l as [|x l]; [done|]. destruct (not_elem_of_nil (f x)). apply Hin. by left. }
  apply NoDup_cons in Hnd as [Hk Hks]. rewrite bind_cons.
  rewrite (bind_ext _ (λ k', filter (λ x, f x = k') (filter (λ x, f x ≠ k) l)) ks).
  - rewrite IH; [apply filter_app_complement|done|].
    intros x [Hx Hl]%list_elem_of_filter. apply Hin, elem_of_cons in Hl as [?|?]; done.
  - intros k' Hk'. rewrite list_filter_filter_l; [done|]. intros x -> ->. done.
Qed.

(** ** Spreading nodes over zones *)
Lemma spread_S k n : spread k (S n) = alter S (n mod k) (spread k n).
Proof. unfold spread. by rewrite seq_S, foldl_app. Qed.

Lemma spread_length k n : length (spread k n) = k.
Proof.
  induction n as [|n IH]; [apply length_replicate|]. by rewrite spread_S, length_alter.
Qed.

(** The numbers below [n] that fall into zone [a]. *)
Definition share (k a n : nat) : nat := length (filter (λ i, i mod k = a) (seq 0 n)).

Lemma share_S k a n : share k a (S n) = share k a n + (if decide (n mod k = a) then 1 else 0).
Proof. unfold share. rewrite seq_S, filter_app, length_app. simpl. rewrite filter_cons, filter_nil. by case_decide. Qed.

Lemma spread_share k n a : a < k → spread k n !! a = Some (share k a n).
Proof.
  intros Ha. induction n as [|n IH].
  { unfold spread. simpl. by apply lookup_replicate_2. }
  rewrite spread_S, share_S. destruct (decide (n mod k = a)) as [<-|Hne].
  - rewrite list_lookup_alter_eq, IH. simpl. f_equal. lia.
  - rewrite list_lookup_alter_ne, IH by done. f_equal. lia.
Qed.

(** Two runs of nodes after one another, when the first fills its last round. *)
Lemma share_add k a m n : (∃ q, m = q * k) → 0 < k → share k a (m + n) = share k a m + share k a n.
Proof.
  intros [q ->] Hk. induction n as [|n IH]; [unfold share; rewrite !Nat.add_0_r; simpl; lia|].
  rewrite Nat.add_succ_r, !share_S, IH. rewrite (Nat.add_comm (q * k) n), Nat.Div0.mod_add. lia.
Qed.

(** ** The nodes *)
Section Nodes.
Context (c : cluster) (nums : list Z).
Let k := length (_azs c).

Lemma region_nodes_elem r from n :
  n ∈ region_nodes c nums r from → region_id n = r ∧ (0 < k → az_id n < k).
Proof.
  unfold region_nodes. intros (i & -> & _)%list_elem_of_fmap. split; [done|]. intros. by apply Nat.mod_upper_bound; lia.
Qed.

Lemma nodes_from_elem rs from n :
  n ∈ nodes_from c nums rs from → region_id n ∈ rs ∧ (0 < k → az_id n < k).
Proof.
  revert from. induction rs as [|r rs IH]; intros from; simpl; [by intros ?%not_elem_of_nil|].
  intros [H|H]%elem_of_app.
  - apply region_nodes_elem in H as [-> ?]. split; [by left|done].
  - apply IH in H as [? ?]. split; [by right|done].
Qed.

Lemma nodes_from_numbers rs from :
  ∃ m, node_num <$> nodes_from c nums rs from = seq (S from) m.
Proof.
  revert from. induction rs as [|r rs IH]; intros from; simpl; [by exists 0|].
  destruct (IH (from + nodes_in nums r)) as [m Hm]. exists (nodes_in nums r + m).
  rewrite fmap_app, Hm, seq_app. f_equal. unfold region_nodes. rewrite <-list_fmap_compose.
  assert (seq (S from) (nodes_in nums r) = Nat.add (S from) <$> seq 0 (nodes_in nums r)) as ->.
  { rewrite fmap_add_seq. f_equal. lia. }
  apply list_fmap_ext. intros i x _. simpl. lia.
Qed.

Lemma active_NoDup : NoDup (_active_region_ids c nums).
Proof. apply NoDup_filter, NoDup_seq. Qed.

Lemma nodes_from_region rs from r :
  NoDup rs → r ∈ rs → ∃ f, filter (λ n, region_id n = r) (nodes_from c nums rs from) = region_nodes c nums r f.
Proof.
  revert from. induction rs as [|r' rs IH]; intros from; [by intros _ ?%not_elem_of_nil|].
  intros [Hr' Hnd]%NoDup_cons. simpl. rewrite filter_app. intros [->|Hr]%elem_of_cons.
  - exists from. rewrite (filter_always _ (region_nodes c nums r' from)).
    2:{ by intros n [? _]%region_nodes_elem. }
    rewrite (filter_never _ (nodes_from _ _ _ _)); [by rewrite (right_id_L [] (++))|].
    intros n [Hn _]%nodes_from_elem <-. done.
  - destruct (IH (from + nodes_in nums r') Hnd Hr) as [f Hf]. exists f. rewrite Hf.
    rewrite (filter_never _ (region_nodes _ _ _ _)); [done|].
    intros n [-> _]%region_nodes_elem ->. done.
Qed.

(** The nodes of a batch are as many as the zone's share of the region's nodes. *)
Lemma batch_nodes_share r a :
  r ∈ _active_region_ids c nums → length (batch_nodes c nums r a) = share k a (nodes_in nums r).
Proof.
  intros Hr. unfold batch_nodes, nodes.
  rewrite (list_filter_iff _ (λ n, az_id n = a ∧ region_id n = r)) by tauto. rewrite <-list_filter_filter.
  destruct (nodes_from_region _ 0 r active_NoDup Hr) as [f ->].
  unfold region_nodes. by rewrite filter_fmap_length.
Qed.

Lemma nodes_elem n : n ∈ nodes c nums → region_id n ∈ _active_region_ids c nums ∧ (0 < k → az_id n < k).
Proof. apply nodes_from_elem. Qed.

(** The batches by region and zone hold every node once. *)
Lemma batches_partition :
  0 < k → (r ← _active_region_ids c nums; az ← seq 0 k; batch_nodes c nums r az) ≡ₚ nodes c nums.
Proof.
  intros Hk. rewrite (bind_ext _ (λ r, filter (λ n, region_id n = r) (nodes c nums))).
  - apply bind_filter_key; [apply active_NoDup|]. by intros n [? _]%nodes_elem.
  - intros r Hr. transitivity (seq 0 k ≫= λ a, filter (λ n, az_id n = a) (filter (λ n, region_id n = r) (nodes c nums))).
    + apply bind_ext. intros a _. unfold batch_nodes. rewrite list_filter_filter.
      rewrite (list_filter_iff _ (λ n, az_id n = a ∧ region_id n = r)) by tauto. done.
    + apply bind_filter_key; [apply NoDup_seq|]. intros n [_ [_ Ha]%nodes_elem]%list_elem_of_filter.
      apply elem_of_seq. specialize (Ha Hk). lia.
Qed.

(** No two nodes have the same name. *)
Lemma names_NoDup : NoDup (name c <$> nodes c nums).
Proof.
  destruct (nodes_from_numbers (_active_region_ids c nums) 0) as [m Hm].
  rewrite (list_fmap_ext _ ((λ i, _node_prefix c +:+ "-" +:+ str_Z (Z.of_nat i)) ∘ node_num)) by done.
  rewrite list_fmap_compose. unfold nodes. rewrite Hm. apply NoDup_fmap_2; [|apply NoDup_seq].
  intros i j H. apply (inj (String.append _)) in H. apply (inj (String.append _)) in H.
  apply (inj str_Z) in H. lia.
Qed.
End Nodes.

(** A batch asks for as many instances as it has names and tags for, and for some. *)
Definition fits (b : batch) : Prop :=
  length (b_names b) = b_count b ∧ length (b_tags b) = b_count b ∧ 0 < b_count b.

Lemma concat_names_bind {A} (f : A → list batch) (l : list A) :
  concat (b_names <$> (l ≫= f)) = l ≫= λ x, concat (b_names <$> f x).
Proof.
  induction l as [|x l IH]; [done|]. by rewrite !bind_cons, fmap_app, concat_app, IH.
Qed.

Lemma az_nodes_share c nums r a :
  a < length (_azs c) → default 0 (_az_nodes c nums r !! a) = share (length (_azs c)) a (nodes_in nums r).
Proof. intros Ha. unfold _az_nodes. by rewrite spread_share. Qed.

Lemma base_batch_spec c nums r a :
  r ∈ _active_region_ids c nums → a < length (_azs c) →
  (∀ b, b ∈ base_batch c nums r a → fits b) ∧
  concat (b_names <$> base_batch c nums r a) = name c <$> batch_nodes c nums r a.
Proof.
  intros Hr Ha. unfold base_batch. rewrite az_nodes_share by done. pose proof (batch_nodes_share c nums r a Hr) as Hl.
  generalize dependent (share (length (_azs c)) a (nodes_in nums r)). intros [|n] Hl; simpl.
  - split; [by intros b ?%not_elem_of_nil|]. by apply length_zero_iff_nil in Hl as ->.
  - split; [|by rewrite (right_id_L [] (++))]. intros b ->%list_elem_of_singleton. unfold fits, _node_names, _node_tags.
    cbn [b_names b_tags b_count]. rewrite !length_fmap, Hl. lia.
Qed.

(** Provisioning covers the cluster. The batches of a cluster are never empty, each has
    exactly as many names and tags as the instances it asks for, and together they name every
    node of the cluster exactly once, no two nodes having the same name. *)
Theorem batches_cover_nodes c nums :
  _azs c ≠ [] →
  Forall fits (base_batches c nums) ∧
  concat (b_names <$> base_batches c nums) ≡ₚ name c <$> nodes c nums ∧
  NoDup (name c <$> nodes c nums).
Proof.
  intros Hz. assert (0 < length (_azs c)) as Hk by (destruct (_azs c); [done|simpl; lia]).
  split_and!; [| |apply names_NoDup].
  - apply Forall_forall. unfold base_batches. intros b (r & Hb & Hr)%list_elem_of_bind.
    apply list_elem_of_bind in Hb as (a & Hb & Ha%elem_of_seq).
    by apply (base_batch_spec c nums r a Hr ltac:(lia)).
  - rewrite <-(batches_partition c nums Hk). unfold base_batches. rewrite concat_names_bind, fmap_bind_list.
    apply bind_ext. intros r Hr. rewrite concat_names_bind, fmap_bind_list.
    apply bind_ext. intros a Ha%elem_of_seq. by destruct (base_batch_spec c nums r a Hr ltac:(lia)) as [_ ->].
Qed.

(** ** Clusters with zero-token nodes *)
Definition counts (l : list Z) : Prop := Forall (λ z, (0 <= z)%Z) l.

Lemma node_nums_sum data zero r :
  counts data → counts zero → zero ≠ [] → (0 < default 0 (_node_nums data zero !! r))%Z →
  nodes_in (_node_nums data zero) r = nodes_in data r + nodes_in zero r.
Proof.
  intros Hd Hz Hne Hr. unfold nodes_in. unfold _node_nums in *. destruct zero as [|z0 zs]; [done|].
  set (zero := z0 :: zs) in *. rewrite lookup_zip_with in *. destruct (data !! r) as [d|] eqn:Ed; [|simpl in *; lia].
  destruct (zero !! r) as [z|] eqn:Ez; [|simpl in *; lia]. simpl.
  apply (Forall_lookup_1 _ _ _ _ Hd) in Ed. apply (Forall_lookup_1 _ _ _ _ Hz) in Ez. lia.
Qed.

Lemma active_pos c nums r : r ∈ _active_region_ids c nums → (0 < default 0 (nums !! r))%Z.
Proof. unfold _active_region_ids. by intros [? _]%list_elem_of_filter. Qed.

(** The batches of a zone fit when its nodes are as many as its data and zero-token nodes. *)
Lemma db_batch_fits c data zero r a :
  r ∈ _active_region_ids c (_node_nums data zero) → a < length (_azs c) →
  share (length (_azs c)) a (nodes_in (_node_nums data zero) r) =
    share (length (_azs c)) a (nodes_in data r) +
    (match zero with [] => 0 | _ => share (length (_azs c)) a (nodes_in zero r) end) →
  Forall fits (db_batch c data zero r a).
Proof.
  intros Hr Ha Hs. unfold db_batch, db_az_nodes. cbn beta iota zeta.
  rewrite (spread_share _ (nodes_in data r)) by done.
  assert (default 0 (match zero with [] => replicate (length (_azs c)) 0
                     | _ => spread (length (_azs c)) (nodes_in zero r) end !! a) =
          match zero with [] => 0 | _ => share (length (_azs c)) a (nodes_in zero r) end) as ->.
  { destruct zero; [|by rewrite spread_share]. by destruct (replicate _ _ !! a) eqn:E;
      [apply lookup_replicate in E as [-> _]|]. }
  pose proof (batch_nodes_share c _ r a Hr) as Hl. rewrite Hs in Hl. cbn [default from_option id].
  set (m := share _ a (nodes_in data r)) in *. set (z := match zero with [] => _ | _ => _ end) in *.
  apply Forall_app; split; [destruct m as [|m]|destruct z as [|z]]; simpl; constructor; try done.
  - unfold fits, _node_names, _node_tags. cbn [b_names b_tags b_count].
    rewrite !length_take, !length_fmap, Hl. lia.
  - unfold fits, _node_names, _node_tags. cbn [b_names b_tags b_count].
    rewrite length_fmap, !length_drop, !length_fmap, Hl. lia.
Qed.

(** Zero-token nodes fit when the data nodes fill the zones evenly: if in every region
    the number of data nodes is a multiple of the number of zones, every batch of a DB
    cluster, of data or of zero-token nodes, has as many names and tags as it asks for
    instances. *)
Theorem db_batches_fit_when_even c data zero skip :
  _azs c ≠ [] → counts data → counts zero →
  (∀ r d, data !! r = Some d → ∃ q, Z.to_nat d = q * length (_azs c)) →
  Forall fits (db_batches c data zero skip).
Proof.
  intros Hz Hd Hzero Heven. assert (0 < length (_azs c)) as Hk by (destruct (_azs c); [done|simpl; lia]).
  apply Forall_forall. unfold db_batches. intros b (r & Hb & [_ Hr]%list_elem_of_filter)%list_elem_of_bind.
  apply list_elem_of_bind in Hb as (a & Hb & Ha%elem_of_seq).
  revert b Hb. apply Forall_forall, db_batch_fits; [done|lia|].
  destruct zero as [|z0 zs] eqn:Ez; [simpl; lia|]. rewrite <-Ez in *.
  rewrite node_nums_sum; [|done|done|by subst|by apply (active_pos c)].
  apply share_add; [|done]. unfold nodes_in. destruct (data !! r) eqn:E; [by eapply Heven|by exists 0].
Qed.

(** Otherwise they need not: with one data node, one zero-token node and two zones, the
    first zone is to get both nodes while the second node was named for the second zone, so
    the batch of the zero-token node has neither a name nor a tag. *)
Theorem zero_token_batch_misfit c :
  region_names c = ["eu-west-1"] → length (_azs c) = 2 →
  db_batches c [1%Z] [1%Z] [] =
  [Batch 0 0 false [node_tags c (Node 0 0 1)] [name c (Node 0 0 1)] 1; Batch 0 0 true [] [] 1].
Proof.
  destruct c as [rn az pre tg d z u]. simpl. intros -> Hz. by destruct az as [|a1 [|a2 [|]]].
Qed.

Definition ex_cluster : cluster := Cluster ["eu-west-1"] ["a"; "b"] "db" [] VNone VNone VNone.

Lemma batches_cover_nodes_witness :
  Forall fits (base_batches ex_cluster [3%Z]) ∧ length (base_batches ex_cluster [3%Z]) = 2 ∧
  concat (b_names <$> base_batches ex_cluster [3%Z]) ≡ₚ ["db-1"; "db-2"; "db-3"].
Proof.
  destruct (batches_cover_nodes ex_cluster [3%Z]) as (H1 & H2 & _); [done|]. split; [done|]. split; [done|].
  exact H2.
Defined.

Lemma db_batches_fit_when_even_witness :
  Forall fits (db_batches ex_cluster [2%Z] [1%Z] []) ∧ length (db_batches ex_cluster [2%Z] [1%Z] []) = 3.
Proof.
  split; [|done]. apply (db_batches_fit_when_even ex_cluster [2%Z] [1%Z] []); [done|by repeat constructor..|].
  intros [|r] d; simpl; [intros [= <-]; by exists 1|done].
Defined.

Lemma zero_token_batch_misfit_witness :
  db_batches ex_cluster [1%Z] [1%Z] [] =
  [Batch 0 0 false [[("NodeIndex", "1")]] ["db-1"] 1; Batch 0 0 true [] [] 1].
Proof. rewrite (zero_token_batch_misfit ex_cluster); done. Defined.
End AwsCluster.
