(* ===== verification/InstancesProvider.v ===== *)
(** * Provisioning through a provisioner

    Model of [sdcm/sct_provision/instances_provider.py]: creating the instances of a region
    with retries and the downgrade to on-demand, provisioning a whole test, and on GCE the
    escalation from zones to regions to on-demand instances with the placement handed over
    to the test run. It puts together [Retry], [ProvisionPlan] (the recorded outcome),
    [GceZones], [GceFallback] and [Placement].

    The provisioners, the region definition builder, connecting to an instance and the clock
    are arguments. *)
From Stdlib Require Import Ascii QArith.
From stdpp Require Import base decidable option strings numbers relations gmap sets list.
From S2P Require Import Prelude.
From S2P Require Import PyString.
From S2P Require Import PyVal.
From S2P Require Import PyRepr.
From S2P Require Import PyDict.
From S2P Require Import Effects.
From S2P Require Import Retry.
From S2P Require Import ProvisionPlan.
From S2P Require Import RegionFallback.
From S2P Require Import GceCapacity.
From S2P Require Import GceZones.
From S2P Require Import GceFallback.
From S2P Require Import Placement.
Local Open Scope py_scope.

Module InstancesProvider.
Import GceFallback.

Inductive PricingModel := ON_DEMAND | SPOT | SPOT_FLEET.

Definition value (m : PricingModel) : string :=
  match m with ON_DEMAND => "on_demand" | SPOT => "spot" | SPOT_FLEET => "spot_fleet" end.

Definition is_spot (m : PricingModel) : bool := match m with ON_DEMAND => false | _ => true end.

(** [PricingModel(v)]. *)
Definition pricing_model_of (v : pyval) : option PricingModel :=
  List.find (λ m, is_str v (value m)) [ON_DEMAND; SPOT; SPOT_FLEET].

Record InstanceDefinition := Definition_ { type_ : string; use_public_ip : bool }.

Record VmInstance := Vm {
  public_ip_address : option string;
  private_ip_address : string;
  user_name : string;
  ssh_key_name : string;
}.

Record RegionDefinition := Region {
  backend : string;
  test_id : string;
  region : string;
  availability_zone : string;
  definitions : list InstanceDefinition;
  provisioner_config : option (list (string * pyval));
}.

(** [isinstance(exc, ProvisionUnrecoverableError)]. *)
Definition is_unrecoverable (x : gexn) : bool :=
  match x with
  | Exhausted | ZoneResourcesExhaustedError _ | InstanceConfigurationError _ => true
  | _ => false
  end.

Definition _is_capacity_exhaustion (x : gexn) : bool :=
  match x with
  | InstanceConfigurationError _ => false
  | _ => gce_is_capacity_error x || is_unrecoverable x
  end.

Definition is_provision_error (x : gexn) : bool := match x with ProvisionError _ => true | _ => false end.
Definition is_preempted (x : gexn) : bool := match x with OperationPreemptedError _ => true | _ => false end.

Section Provider.
Context {W : Type}.
Context (time : act W gexn Z) (sleep : Z → act W gexn unit).
Context (is_runtime_error : gexn → bool).
Context (has_main_device : act W gexn bool) (publish_or_dump : ProvisionPlan.outcome_event → act W gexn unit).

Notation state := (ProvisionPlan.state W).
Notation action := (act state gexn).
Notation lift := ProvisionPlan.lift.

(** A provisioner: where it creates instances, and how. *)
Record Provisioner := MkProvisioner {
  p_region : string;
  p_availability_zone : string;
  get_or_create_instances : list InstanceDefinition → PricingModel → act W gexn (list VmInstance);
}.

(** A remoter to [hostname] as [user] with a key, and the wait for cloud-init on it. *)
Context (await_cloud_init : string → string → string → VmInstance → act W gexn unit).

(** [retrying(n=3, sleep_time=5, allowed_exceptions=(ProvisionError,))]; three tries need
    four rounds of the loop. *)
Definition provision_with_retry (p : Provisioner) (ds : list InstanceDefinition) (m : PricingModel)
    : action (option (option (list VmInstance))) :=
  lift (Retry.inner time sleep (Retry.__init__ 3 5 is_provision_error 0 true) (get_or_create_instances p ds m) 4).

(** [counts[t] = counts.get(t, 0) + 1] for every definition. *)
Definition type_counts (ds : list InstanceDefinition) : list (string * Z) :=
  foldl (λ counts d, dict_set (type_ d) (default 0%Z (dict_get (type_ d) counts) + 1)%Z counts) [] ds.

Definition _record_outcome (p : Provisioner) (ds : list InstanceDefinition) (requested : string)
    (realized : option string) : action unit :=
  let counts := match type_counts ds with
                | [] => [(None, 0%Z)]
                | l => (λ q : string * Z, (Some q.1, q.2)) <$> l
                end in
  for_each counts (λ q,
    ProvisionPlan.record_spot_provision_outcome gce_is_exception is_runtime_error has_main_device publish_or_dump
      requested realized (Some (p_region p)) (Some (p_availability_zone p)) q.1 q.2).

Definition ssh_hostname (d : InstanceDefinition) (v : VmInstance) : string :=
  if use_public_ip d
  then if truthy (public_ip_address v) then default EmptyString (public_ip_address v) else private_ip_address v
  else private_ip_address v.

(** The inner [try]: provision, downgrade on preemption; the pricing model in the end. *)
Definition provision_or_downgrade (p : Provisioner) (ds : list InstanceDefinition) (m : PricingModel)
    (fallback_on_demand : bool) : action PricingModel :=
  try_except is_preempted (provision_with_retry p ds m ;;; ret m)
    (λ exc, if is_spot m && fallback_on_demand then provision_with_retry p ds ON_DEMAND ;;; ret ON_DEMAND
            else raise exc).

Definition provision_instances_with_fallback (p : Provisioner) (ds : list InstanceDefinition) (m : PricingModel)
    (fallback_on_demand : bool) : action (list VmInstance) :=
  let requested := value m in
  let! m' := try_except gce_is_exception (provision_or_downgrade p ds m fallback_on_demand)
               (λ exc, _record_outcome p ds requested None ;;; raise exc) in
  _record_outcome p ds requested (Some (value m')) ;;;
  let! provisioned_instances := lift (get_or_create_instances p ds m') in
  for_each (zip ds provisioned_instances) (λ q,
    lift (await_cloud_init (ssh_hostname q.1 q.2) (user_name q.2) ("~/.ssh/" +:+ ssh_key_name q.2) q.2)) ;;;
  ret provisioned_instances.

(** ** A whole test *)
Context (build_all_region_definitions : GceZones.conf → act W gexn (list RegionDefinition)).
Context (create_provisioner : RegionDefinition → list (string * pyval) → act W gexn Provisioner).

(** [backend_config.update(request.provisioner_config)]. *)
Definition backend_config (config : list (string * pyval)) (request : RegionDefinition) : list (string * pyval) :=
  match provisioner_config request with
  | None => config
  | Some c => foldl (λ d q, dict_set q.1 q.2 d) config c
  end.

Definition _provision_sct_resources_once (config : list (string * pyval)) (c : GceZones.conf) : action unit :=
  let! definitions_per_region := lift (build_all_region_definitions c) in
  match pricing_model_of (pget "instance_provision" (GceZones.prm c)) with
  | None => raise ValueError
  | Some m =>
    for_each definitions_per_region (λ request,
      let! p := lift (create_provisioner request (backend_config config request)) in
      provision_instances_with_fallback p (definitions request) m
        (truthy (pget "instance_provision_fallback_on_demand" (GceZones.prm c))) ;;;
      ret tt)
  end.

(** ** GCE *)
Context {content : Type} (safe_dump : Placement.yaml → content) (base_logdir : string).
Context (discover_regions : act W gexn (list provisioner)) (provisioner_cleanup : provisioner → act W gexn unit).
Context (zones_for_region : string → list string) (type_in_zone : string → string → bool).
Context (query : list string → Z → string → string → GceCapacity.zone_answer).

(** The cloud with the recorded outcomes, and the handoff files. *)
Record world := World { events : state; files : gmap string (option content) }.

Notation gact := (act (gstate (W := world)) gexn).

Definition lift_events {A} (m : action A) : gact A :=
  λ g, let '(e, r) := m (events (cloud g)) in (GState (gconf g) (World e (files (cloud g))), r).

Definition provision_once (config : list (string * pyval)) : gact unit :=
  λ g, lift_events (_provision_sct_resources_once config (gconf g)) g.

Definition discover : gact (list provisioner) := lift_events (lift discover_regions).
Definition cleanup (p : provisioner) : gact unit := lift_events (lift (provisioner_cleanup p)).

Definition _provision_with_on_demand_last_resort (provision : gact unit) : gact unit :=
  let! r := caught provision in
  match r with
  | Ok _ => ret tt
  | Err exc =>
    if negb (gce_is_exception exc) then raise exc
    else
      let! p := gets (λ g, GceZones.prm (gconf g)) in
      if is_str (pget "instance_provision" p) (value ON_DEMAND) then raise exc
      else if negb (truthy (pget "instance_provision_fallback_on_demand" p)) || negb (_is_capacity_exhaustion exc)
      then raise exc
      else
        let! dcs := gets (λ g, current_datacenters (gconf g)) in
        for_each (fromkeys dcs []) (λ r, gce_cleanup_region None discover cleanup false (Some r)) ;;;
        on_conf (GceZones.set_param "instance_provision" (VStr (value ON_DEMAND))) ;;;
        provision
  end.

(** The fallback without the record of its calls; the rounds are those of the theorems
    about it. *)
Definition region_fallback (attempt : gact unit) : gact unit :=
  λ g, let fuel := S (length (GceZones.gce_datacenters (gconf g)) * 4) in
       let '(st, r) := provision_with_fallback None discover cleanup zones_for_region type_in_zone query fuel attempt (g, []) in
       (st.1, match r with Ok _ => Ok tt | Err x => Err x end).

Definition provision_everywhere (attempt : gact unit) : gact unit :=
  let! p := gets (λ g, GceZones.prm (gconf g)) in
  if RegionFallback.is_region_fallback_enabled p then region_fallback attempt else attempt.

(** [GceAZResolver(params).resolve()], with the draw [pick]. *)
Definition resolve_zones (pick : nat) : gact unit :=
  λ g, match GceZones.resolve zones_for_region type_in_zone query pick (gconf g) with
       | Ok c => (GState c (cloud g), Ok tt)
       | Err _ => (g, Err NoValidAvailabilityZone)
       end.

Definition write_handoff (tid : string) (region_name : string) (az : pyval) : gact unit :=
  modify (λ g, GState (gconf g) (World (events (cloud g))
    (Placement.write_resolved_placement safe_dump base_logdir tid (VStr region_name) az [] (files (cloud g))))).

Definition handoff_key (config_test_id : string) (p : params) : string :=
  if truthy (pget "reuse_cluster" p) then str_pyval (pget "reuse_cluster" p) else config_test_id.

Definition _provision_gce_resources (pick : nat) (config_test_id : string) (config : list (string * pyval)) : gact unit :=
  let! original_region := gets (λ g, original_datacenters (gconf g)) in
  let! original_az := gets (λ g, pget "availability_zone" (GceZones.prm (gconf g))) in
  resolve_zones pick ;;;
  let! c := gets gconf in
  let provision_attempt :=
    provision_with_az_fallback (provision_once config) None discover cleanup zones_for_region type_in_zone c in
  _provision_with_on_demand_last_resort (provision_everywhere provision_attempt) ;;;
  let! c := gets gconf in
  let az := pget "availability_zone" (GceZones.prm c) in
  match original_datacenters c with
  | Some region_name =>
    if truthy region_name && (negb (bool_decide (Some region_name = original_region)) || negb (py_eq az original_az))
    then write_handoff (handoff_key config_test_id (GceZones.prm c)) region_name az
    else ret tt
  | None => ret tt
  end.

Definition provision_sct_resources (pick : nat) (config_test_id : string) (config : list (string * pyval)) : gact unit :=
  let! p := gets (λ g, GceZones.prm (gconf g)) in
  if is_str (pget "cluster_backend" p) "gce" then _provision_gce_resources pick config_test_id config
  else provision_once config.
End Provider.

(** ** Counting by type *)
Definition of_type (t : string) (ds : list InstanceDefinition) : list InstanceDefinition :=
  filter (λ d, type_ d = t) ds.

Lemma type_counts_snoc ds d :
  type_counts (ds ++ [d]) = dict_set (type_ d) (default 0 (dict_get (type_ d) (type_counts ds)) + 1)%Z (type_counts ds).
Proof. unfold type_counts. by rewrite foldl_snoc. Qed.

Lemma type_counts_get ds t :
  dict_get t (type_counts ds) =
  match of_type t ds with [] => None | l => Some (Z.of_nat (length l)) end.
Proof.
  induction ds as [|d ds IH] using rev_ind; [done|].
  rewrite type_counts_snoc, dict_get_set. unfold of_type in *. rewrite filter_app, filter_cons, filter_nil.
  case_decide as Ht.
  - subst t. rewrite decide_True, IH by done. destruct (filter _ ds) as [|d' l]; [done|]. simpl.
    rewrite length_app. simpl. f_equal. lia.
  - rewrite decide_False by congruence. by rewrite (right_id_L [] (++)).
Qed.

Lemma type_counts_wf ds : dict_wf (type_counts ds).
Proof.
  induction ds as [|d ds IH] using rev_ind; [constructor|]. rewrite type_counts_snoc. by apply dict_set_wf.
Qed.

(** ** What is recorded *)
Section Recorded.
Context {W : Type}.
Context (time : act W gexn Z) (sleep : Z → act W gexn unit) {Hclock : Retry.Clock time sleep}.
Context (is_runtime_error : gexn → bool).
Context (has_main_device : act W gexn bool) (publish_or_dump : ProvisionPlan.outcome_event → act W gexn unit).
Context (device_raises : ∀ w x, (has_main_device w).2 = Err x → gce_is_exception x = true).
Context (publish_raises : ∀ e w x, (publish_or_dump e w).2 = Err x → gce_is_exception x = true).
Context (await_cloud_init : string → string → string → VmInstance → act W gexn unit).

Notation state := (ProvisionPlan.state W).

(** The log line of an outcome. *)
Definition outcome_line (p : Provisioner (W := W)) (rq : string) (rl : option string) (t : option string) (n : Z)
    : bool * ProvisionPlan.outcome_event :=
  let e := ProvisionPlan.spot_provision_outcome_event rq rl (Some (p_region p)) (Some (p_availability_zone p)) t n in
  (ProvisionPlan.downgraded e || bool_decide (rl = None), e).

Definition outcome_lines (p : Provisioner (W := W)) (ds : list InstanceDefinition) (rq : string) (rl : option string)
    : list (bool * ProvisionPlan.outcome_event) :=
  match type_counts ds with
  | [] => [outcome_line p rq rl None 0]
  | l => (λ q : string * Z, outcome_line p rq rl (Some q.1) q.2) <$> l
  end.

Lemma record_outcome_spec p ds rq rl (s : state) :
  ∃ s', _record_outcome is_runtime_error has_main_device publish_or_dump p ds rq rl s = (s', Ok tt) ∧
    ProvisionPlan.log_lines s' = ProvisionPlan.log_lines s ++ outcome_lines p ds rq rl.
Proof using device_raises publish_raises.
  unfold _record_outcome.
  assert (∀ l (s : state), ∃ s', for_each l (λ q : option string * Z,
      ProvisionPlan.record_spot_provision_outcome gce_is_exception is_runtime_error has_main_device publish_or_dump
        rq rl (Some (p_region p)) (Some (p_availability_zone p)) q.1 q.2) s = (s', Ok tt) ∧
    ProvisionPlan.log_lines s' = ProvisionPlan.log_lines s ++ ((λ q, outcome_line p rq rl q.1 q.2) <$> l)) as Hall.
  { induction l as [|q l IH]; intros s0; [exists s0; simpl; by rewrite (right_id_L [] (++))|].
    cbn [for_each]. unfold bind.
    destruct (ProvisionPlan.record_spec gce_is_exception is_runtime_error has_main_device publish_or_dump device_raises
      publish_raises rq rl (Some (p_region p)) (Some (p_availability_zone p)) q.1 q.2 s0) as (w & st & -> & _).
    destruct (IH (ProvisionPlan.State w (ProvisionPlan.log_lines s0 ++ [outcome_line p rq rl q.1 q.2])
       (ProvisionPlan.SPOT_PROVISION_OUTCOMES s0 ++ st))) as (s' & Hs' & Hl).
    exists s'. unfold outcome_line in *. rewrite Hs'. split; [done|]. rewrite Hl. cbn [ProvisionPlan.log_lines fmap list_fmap].
    by rewrite <-(assoc_L (++)). }
  destruct (Hall (match type_counts ds with [] => [(None, 0%Z)] | l => (λ q : string * Z, (Some q.1, q.2)) <$> l end) s)
    as (s' & Hs & Hl).
  exists s'. split; [done|]. rewrite Hl. f_equal. unfold outcome_lines. destruct (type_counts ds) as [|q l]; [done|].
  by rewrite <-list_fmap_compose.
Qed.

(** One line for each type that was asked for, with the number of its definitions. *)
Lemma outcome_lines_by_type p ds rq rl line :
  ds ≠ [] →
  line ∈ outcome_lines p ds rq rl ↔
  ∃ t, of_type t ds ≠ [] ∧ line = outcome_line p rq rl (Some t) (Z.of_nat (length (of_type t ds))).
Proof using Type.
  intros Hne. unfold outcome_lines.
  assert (∀ t n, (t, n) ∈ type_counts ds ↔ of_type t ds ≠ [] ∧ n = Z.of_nat (length (of_type t ds))) as Hin.
  { intros t n. split.
    - intros H%(dict_elem_get _ _ _ (type_counts_wf ds)). rewrite type_counts_get in H.
      destruct (of_type t ds); [done|]. by injection H as <-.
    - intros [Ht ->]. apply dict_get_elem. rewrite type_counts_get. by destruct (of_type t ds). }
  destruct (type_counts ds) as [|q l] eqn:E.
  { destruct ds as [|d ds]; [done|]. exfalso.
    assert ((type_ d, Z.of_nat (length (of_type (type_ d) (d :: ds)))) ∈ ([] : list (string * Z))) as Habs.
    { apply Hin. split; [|done]. unfold of_type. rewrite filter_cons, decide_True by done. done. }
    inversion Habs. }
  rewrite list_elem_of_fmap. split.
  - intros ([t n] & -> & [Ht ->]%Hin). by exists t.
  - intros (t & Ht & ->). exists (t, Z.of_nat (length (of_type t ds))). split; [done|]. by apply Hin.
Qed.

(** Creating instances with up to three tries, each but the last failing with a
    [ProvisionError]: what it returned, or raised. *)
Definition tried (p : Provisioner) (ds : list InstanceDefinition) (m : PricingModel) (w w' : W)
    (r : outcome gexn (list VmInstance)) : Prop :=
  ∃ k w1 w2, nsteps (Retry.failed_attempt sleep (Retry.__init__ 3 5 is_provision_error 0 true)
                       (get_or_create_instances p ds m)) k w w1 ∧ (k < 3)%nat ∧
    get_or_create_instances p ds m w1 = (w2, r) ∧
    match r with
    | Err (ProvisionError _) => k = 2%nat ∧ w' = (sleep 5 w2).1
    | _ => w' = w2
    end.

Lemma retry_spec p ds m (s : state) :
  ∃ w' r, provision_with_retry time sleep p ds m s =
      (ProvisionPlan.set_world w' s, match r with Ok l => Ok (Some (Some l)) | Err x => Err x end) ∧
    tried p ds m (ProvisionPlan.world s) w' r.
Proof using Type*.
  unfold provision_with_retry, ProvisionPlan.lift, Retry.inner.
  set (self := Retry.__init__ 3 5 is_provision_error 0 true).
  change (truthy (Retry.timeout self)) with false. cbn iota. unfold bind at 1, ret at 1.
  change (Retry.n self =? 1)%Z with false. cbn iota.
  destruct (Retry.tries_no_deadline time sleep self (get_or_create_instances p ds m) 4 0 (ProvisionPlan.world s))
    as (k & w1 & Hk & Hlt & Hd); [done|done|].
  change (Retry.n self) with 3%Z in *. unfold Retry.attempt_decides in Hd.
  destruct (get_or_create_instances p ds m w1) as [w2 [l|x]] eqn:Eg.
  - rewrite Hd. exists w2, (Ok l). split; [done|]. exists k, w1, w2. split_and!; [done|lia|done|done].
  - change (Retry.allowed_exceptions self x) with (is_provision_error x) in Hd.
    destruct (is_provision_error x) eqn:Ex.
    + destruct Hd as [Hl ->]. exists (sleep 5 w2).1, (Err x). split; [done|]. exists k, w1, w2.
      apply Z.eqb_eq in Hl. split_and!; [done|lia|done|]. destruct x; try done. split; [lia|done].
    + rewrite Hd. exists w2, (Err x). split; [done|]. exists k, w1, w2. split_and!; [done|lia|done|]. by destruct x.
Qed.

(** The pricing the instances were created at. *)
Definition created_at (p : Provisioner) (ds : list InstanceDefinition) (m m' : PricingModel) (fallback : bool) (w : W) : Prop :=
  ∃ l w1, m' = m ∧ tried p ds m w w1 (Ok l) ∨
  m' = ON_DEMAND ∧ is_spot m = true ∧ fallback = true ∧
    ∃ w0 x, tried p ds m w w0 (Err x) ∧ is_preempted x = true ∧ tried p ds ON_DEMAND w0 w1 (Ok l).

Lemma provision_or_downgrade_spec p ds m fallback (s : state) :
  ∃ w', match (provision_or_downgrade time sleep p ds m fallback s).2 with
        | Ok m' => created_at p ds m m' fallback (ProvisionPlan.world s)
        | Err x => ∃ m' w0, tried p ds m' w0 w' (Err x)
        end ∧
        (provision_or_downgrade time sleep p ds m fallback s).1 = ProvisionPlan.set_world w' s.
Proof using Type*.
  unfold provision_or_downgrade, try_except, bind.
  destruct (retry_spec p ds m s) as (w1 & r1 & -> & H1). destruct r1 as [l|x].
  { exists w1. split; [|done]. simpl. exists l, w1. by left. }
  destruct (is_preempted x) eqn:Ex; [|exists w1; split; [by exists m, (ProvisionPlan.world s)|done]].
  destruct (is_spot m && fallback) eqn:Ef; [|exists w1; split; [by exists m, (ProvisionPlan.world s)|done]].
  apply andb_true_iff in Ef as [Hs Hf].
  destruct (retry_spec p ds ON_DEMAND (ProvisionPlan.set_world w1 s)) as (w2 & r2 & -> & H2).
  exists w2. destruct r2 as [l|y]; (split; [|done]); simpl.
  - exists l, w2. right. split_and!; [done|done|done|]. by exists w1, x.
  - by exists ON_DEMAND, w1.
Qed.

(** After the outcome was recorded nothing more is. *)
Lemma after_record_spec p ds m' (s : state) :
  let '(s', r) := (let! l := ProvisionPlan.lift (get_or_create_instances p ds m') in
                   for_each (zip ds l) (λ q, ProvisionPlan.lift
                     (await_cloud_init (ssh_hostname q.1 q.2) (user_name q.2) ("~/.ssh/" +:+ ssh_key_name q.2) q.2)) ;;;
                   ret l) s in
  ProvisionPlan.log_lines s' = ProvisionPlan.log_lines s ∧
  ∀ l, r = Ok l → ∃ w, (get_or_create_instances p ds m' w).2 = Ok l.
Proof using Type*.
  unfold bind, ProvisionPlan.lift. destruct (get_or_create_instances p ds m' (ProvisionPlan.world s)) as [w [l|x]] eqn:E; [|done].
  assert (∀ (qs : list (InstanceDefinition * VmInstance)) s0,
    ProvisionPlan.log_lines (for_each qs (λ q, ProvisionPlan.lift
      (await_cloud_init (ssh_hostname q.1 q.2) (user_name q.2) ("~/.ssh/" +:+ ssh_key_name q.2) q.2)) s0).1 =
    ProvisionPlan.log_lines s0) as Hl.
  { intros qs s0. apply (keeps_state_for_each (λ s1, ProvisionPlan.log_lines s1 = ProvisionPlan.log_lines s0)); [|done].
    intros q s1 <-. unfold ProvisionPlan.lift. by destruct (await_cloud_init _ _ _ _ _). }
  specialize (Hl (zip ds l) (ProvisionPlan.State w (ProvisionPlan.log_lines s) (ProvisionPlan.SPOT_PROVISION_OUTCOMES s))).
  unfold ProvisionPlan.lift in Hl.
  destruct (for_each _ _ _) as [s1 [[]|x]]; simpl in *; (split; [done|]); intros l' [= <-].
  exists (ProvisionPlan.world s). by rewrite E.
Qed.

(** The price actually paid is recorded, type by type: instances are created at the
    requested pricing or, only after a spot preemption and if the test allows it, on demand,
    each with up to three tries; the log then gets one line for every instance type of the
    region with the number of its definitions, the pricing requested and the pricing
    realised, and the instances returned are those asked for at the realised pricing; when
    creation fails with an [Exception], the lines say that nothing was realised. *)
Theorem downgrade_recorded_by_type p ds m fallback (s : state) :
  let '(s', r) := provision_instances_with_fallback time sleep is_runtime_error has_main_device publish_or_dump
                    await_cloud_init p ds m fallback s in
  let logged ev := ProvisionPlan.log_lines s' = ProvisionPlan.log_lines s ++ ev in
  ((∃ m', created_at p ds m m' fallback (ProvisionPlan.world s) ∧ logged (outcome_lines p ds (value m) (Some (value m'))) ∧
     ∀ l, r = Ok l → ∃ w, (get_or_create_instances p ds m' w).2 = Ok l) ∨
  (∃ x m' w0 w', r = Err x ∧ tried p ds m' w0 w' (Err x) ∧
     logged (if gce_is_exception x then outcome_lines p ds (value m) None else []))) ∧
  (ds ≠ [] → ∀ rl line, line ∈ outcome_lines p ds (value m) rl ↔
     ∃ t, of_type t ds ≠ [] ∧ line = outcome_line p (value m) rl (Some t) (Z.of_nat (length (of_type t ds)))).
Proof using device_raises publish_raises Hclock.
  unfold provision_instances_with_fallback, bind at 1, try_except.
  destruct (provision_or_downgrade_spec p ds m fallback s) as (w' & H & Hs).
  assert (ds ≠ [] → ∀ rl line, line ∈ outcome_lines p ds (value m) rl ↔
     ∃ t, of_type t ds ≠ [] ∧ line = outcome_line p (value m) rl (Some t) (Z.of_nat (length (of_type t ds)))) as Hby.
  { intros Hne rl line. by apply outcome_lines_by_type. }
  destruct (provision_or_downgrade time sleep p ds m fallback s) as [s1 [m'|x]]; simpl in H, Hs; subst s1.
  - unfold bind at 1.
    destruct (record_outcome_spec p ds (value m) (Some (value m')) (ProvisionPlan.set_world w' s)) as (s2 & -> & Hl).
    pose proof (after_record_spec p ds m' s2) as Ha. destruct (bind _ _ s2) as [s3 r]. destruct Ha as [Hl3 Ho].
    split; [|done]. left. exists m'. split; [done|]. split; [|done]. by rewrite Hl3, Hl.
  - destruct H as (m' & w0 & Ht). destruct (gce_is_exception x) eqn:Ex.
    + unfold bind.
      destruct (record_outcome_spec p ds (value m) None (ProvisionPlan.set_world w' s)) as (s2 & -> & Hl).
      split; [|done]. right. exists x, m', w0, w'. split_and!; [done|done|]. by rewrite Ex.
    + split; [|done]. right. exists x, m', w0, w'. split_and!; [done|done|]. by rewrite Ex, (right_id_L [] (++)).
Qed.
End Recorded.

(** ** GCE, end to end *)
Section EndToEnd.
Context {W : Type}.
Context (time : act W gexn Z) (sleep : Z → act W gexn unit).
Context (is_runtime_error : gexn → bool).
Context (has_main_device : act W gexn bool) (publish_or_dump : ProvisionPlan.outcome_event → act W gexn unit).
Context (await_cloud_init : string → string → string → VmInstance → act W gexn unit).
Context (build_all_region_definitions : GceZones.conf → act W gexn (list RegionDefinition)).
Context (create_provisioner : RegionDefinition → list (string * pyval) → act W gexn (Provisioner (W := W))).
Context {content : Type} (safe_dump : Placement.yaml → content) (safe_load : content → option Placement.yaml).
Context (base_logdir : string).
Context (discover_regions : act W gexn (list provisioner)) (provisioner_cleanup : provisioner → act W gexn unit).
Context (zones_for_region : string → list string) (type_in_zone : string → string → bool).
Context (query : list string → Z → string → string → GceCapacity.zone_answer).

Notation gstate := (gstate (W := world (W := W) (content := content))).
Notation gact := (act gstate gexn).
Notation once := (provision_once time sleep is_runtime_error has_main_device publish_or_dump await_cloud_init
                    build_all_region_definitions create_provisioner (content := content)).
Notation discover := (discover (content := content) discover_regions).
Notation cleanup := (cleanup (content := content) provisioner_cleanup).
Notation attempt config c := (provision_with_az_fallback (once config) None discover cleanup zones_for_region type_in_zone c).
Notation everywhere config c :=
  (provision_everywhere discover_regions provisioner_cleanup zones_for_region type_in_zone query (attempt config c)).
Notation last_resort := (_provision_with_on_demand_last_resort (content := content) discover_regions provisioner_cleanup).

Implicit Type g : gstate.

Lemma lift_events_frames {A} (m : act (ProvisionPlan.state W) gexn A) : frames (lift_events (content := content) m).
Proof. intros g. unfold lift_events. by destruct (m _). Qed.

Lemma lift_events_files {A} (m : act (ProvisionPlan.state W) gexn A) fs :
  keeps_cloud (λ w, files w = fs) (lift_events (content := content) m).
Proof. intros g Hg. unfold lift_events. by destruct (m _). Qed.

Lemma once_frames config : frames (once config).
Proof. intros g. apply lift_events_frames. Qed.

Lemma once_files config fs : keeps_cloud (λ w, files w = fs) (once config).
Proof. intros g Hg. by apply lift_events_files. Qed.

Lemma files_invariant (m : gact unit) fs :
  keeps_cloud (λ w, files w = fs) m → cloud_invariant m None discover cleanup (λ w, files w = fs).
Proof. intros Hm. split_and!; [done|apply lift_events_files|intros p; apply lift_events_files|done]. Qed.

(** The configuration names its datacenters consistently, several ones without repetition. *)
Definition proper_dcs (c : GceZones.conf) : Prop :=
  (1 < length (GceZones.gce_datacenters c))%nat →
  current_datacenters c = GceZones.gce_datacenters c ∧ NoDup (GceZones.gce_datacenters c).

(** How an escalation over zones and regions ends. *)
Definition everywhere_end (c : GceZones.conf) (fs : gmap string (option content)) (r : gstate * outcome gexn unit) : Prop :=
  match r.2 with
  | Ok _ => files (cloud r.1) = fs ∧ others_same c (gconf r.1) ∧
            (GceZones.gce_datacenters (gconf r.1) = [] ↔ GceZones.gce_datacenters c = [])
  | Err x => gce_is_exception x = true → placement_restored c (gconf r.1) ∧ files (cloud r.1) = fs
  end.

Lemma placement_restored_refl c : placement_restored c c.
Proof. by repeat split. Qed.

Lemma no_datacenters_fails config c g fuel :
  GceZones.gce_datacenters (gconf g) = [] →
  (provision_with_fallback None discover cleanup zones_for_region type_in_zone query fuel (attempt config c) (g, [])).2 =
  Err ValueError.
Proof.
  intros E. unfold provision_with_fallback, gce_provision_with_region_fallback, enforce_single_region_gate, bind, gets.
  simpl. rewrite E. simpl. rewrite E. done.
Qed.

Lemma everywhere_spec config c g :
  proper_dcs (gconf g) → everywhere_end (gconf g) (files (cloud g)) (everywhere config c g).
Proof.
  intros Hdc. unfold provision_everywhere, bind, gets, everywhere_end.
  pose proof (files_invariant _ _ (once_files config (files (cloud g)))) as Hinv.
  destruct (RegionFallback.is_region_fallback_enabled (GceZones.prm (gconf g))).
  - unfold region_fallback.
    pose proof (gce_fallback_spec (once config) None discover cleanup zones_for_region type_in_zone query
      ltac:(discriminate) (once_frames config) (lift_events_frames _) (λ p, lift_events_frames _)
      (λ w, files w = files (cloud g)) c g Hinv eq_refl Hdc) as H. cbv zeta in H.
    destruct (decide (GceZones.gce_datacenters (gconf g) = [])) as [E|E].
    + pose proof (no_datacenters_fails config c g (S (length (GceZones.gce_datacenters (gconf g)) * 4)) E) as Hf.
      destruct (provision_with_fallback _ _ _ _ _ _ _ _ _) as [st [b|x]]; simpl in *; [done|]. done.
    + destruct (provision_with_fallback _ _ _ _ _ _ _ _ _) as [st [b|x]]; simpl in *; [|done].
      destruct H as (_ & Hf & Ho & Hne & _). by split_and!.
  - pose proof (az_fallback_same_but_az (once config) None discover cleanup zones_for_region type_in_zone
      ltac:(discriminate) (once_frames config) (lift_events_frames _) (λ p, lift_events_frames _) c g) as Hs.
    pose proof (az_fallback_keeps (once config) None discover cleanup zones_for_region type_in_zone _ Hinv c g eq_refl) as Hf.
    destruct (same_but_az_dcs _ _ Hs) as [Hd Hcur].
    assert (∀ x, (attempt config c g).2 = Err x → gce_is_exception x = true →
      pget "availability_zone" (GceZones.prm (gconf (attempt config c g).1)) = pget "availability_zone" (GceZones.prm (gconf g))) as Haz.
    { unfold provision_with_az_fallback. destruct (RegionFallback.is_az_fallback_enabled _).
      - pose proof (zone_retry_spec (once config) None discover cleanup zones_for_region type_in_zone
          ltac:(discriminate) (once_frames config) (lift_events_frames _) (λ p, lift_events_frames _) g) as [_ Hz].
        intros x Hx. by rewrite Hx in Hz.
      - intros x _ _. by rewrite once_frames. }
    destruct (attempt config c g) as [g1 [[]|x]]; simpl in *.
    + split_and!; [done|by eapply same_but_az_others|by rewrite Hd].
    + intros Hx. split; [|done]. split_and!; [by eapply same_but_az_others|done|by eapply Haz| |by rewrite Hcur].
      by destruct Hs as (v & [->| ->]).
Qed.

Lemma others_same_trans c0 c1 c2 : others_same c0 c1 → others_same c1 c2 → others_same c0 c2.
Proof.
  intros (H1 & H2 & H3) (K1 & K2 & K3). split_and!; [|congruence..]. intros k ? ?. rewrite K1, H1 by done. done.
Qed.

Lemma placement_restored_trans c0 c1 c2 : placement_restored c0 c1 → placement_restored c1 c2 → placement_restored c0 c2.
Proof.
  intros (H1 & H2 & H3 & H4 & H5) (K1 & K2 & K3 & K4 & K5). split_and!; [by eapply others_same_trans|congruence..|].
  intros E. rewrite <-H2. apply K5. rewrite H5, H2; done.
Qed.

Lemma set_param_dcs k v c :
  k ≠ "gce_datacenter" →
  GceZones.gce_datacenters (GceZones.set_param k v c) = GceZones.gce_datacenters c ∧
  current_datacenters (GceZones.set_param k v c) = current_datacenters c.
Proof.
  intros Hk. unfold GceZones.gce_datacenters, current_datacenters. simpl. by rewrite pget_insert, decide_False by done.
Qed.

Lemma placement_restored_set k v c0 c :
  k ≠ "gce_datacenter" → k ≠ "availability_zone" → placement_restored c0 c →
  placement_restored (GceZones.set_param k v c0) (GceZones.set_param k v c).
Proof.
  intros Hk1 Hk2 ((H1 & H2 & H3) & Hd & Ha & He & Hc).
  destruct (set_param_dcs k v c0 Hk1) as [Ed0 Ec0], (set_param_dcs k v c Hk1) as [Ed Ec].
  split_and!; [|by rewrite Ed, Ed0| |done|by rewrite Ec0, Ed0, Ec].
  - split_and!; [|done..]. intros k' ? ?. simpl. rewrite !pget_insert. case_decide; [done|]. by apply H1.
  - simpl. by rewrite !pget_insert, !decide_False by done.
Qed.

Lemma placement_restored_proper c0 c : placement_restored c0 c → proper_dcs c0 → proper_dcs c.
Proof.
  intros (_ & Hd & _ & _ & Hc) Hp. unfold proper_dcs. rewrite Hd. intros Hn. destruct (Hp Hn). split; [by apply Hc|done].
Qed.

Lemma everywhere_end_restored c0 c fs r :
  placement_restored c0 c → everywhere_end c fs r → everywhere_end c0 fs r.
Proof.
  intros Hr. unfold everywhere_end. destruct r.2 as [[]|x].
  - intros (Hf & Ho & Hd). split_and!; [done|by eapply others_same_trans; [apply Hr|]|].
    destruct Hr as (_ & <- & _). done.
  - intros H Hx. destruct (H Hx). split; [by eapply placement_restored_trans|done].
Qed.

(** The configuration the cluster was last asked for with: as it is, or on demand when the
    test allows the downgrade. *)
Definition repriced (c p : GceZones.conf) : Prop :=
  p = c ∨
  p = GceZones.set_param "instance_provision" (VStr "on_demand") c ∧
    truthy (pget "instance_provision_fallback_on_demand" (GceZones.prm c)) = true ∧
    is_str (pget "instance_provision" (GceZones.prm c)) "on_demand" = false.

(** Sweeping the regions leaves the configuration and the files, and raises no [Exception]. *)
Lemma sweep_regions_ok dcs g :
  let r := for_each dcs (λ r, gce_cleanup_region None discover cleanup false (Some r)) g in
  gconf r.1 = gconf g ∧ files (cloud r.1) = files (cloud g) ∧ ∀ x, r.2 = Err x → gce_is_exception x = false.
Proof.
  assert (∀ r, frames (gce_cleanup_region None discover cleanup false (Some r)) ∧
               quiet (gce_cleanup_region None discover cleanup false (Some r))) as Hok.
  { intros r. apply (gce_cleanup_region_ok None discover cleanup); [done|apply lift_events_frames|].
    intros p. apply lift_events_frames. }
  split_and!.
  - apply frames_for_each. intros r. apply Hok.
  - apply (keeps_state_for_each (λ g', files (cloud g') = files (cloud g))); [|done]. intros r.
    apply (cleanup_region_keeps_cloud (ret tt) None discover cleanup (λ w, files w = files (cloud g))).
    apply files_invariant, keeps_state_ret.
  - intros x Hx.
    assert (quiet (for_each dcs (λ r, gce_cleanup_region None discover cleanup false (Some r)))) as Hq.
    { apply quiet_for_each. intros r. apply Hok. }
    specialize (Hq g Logic.I). by rewrite Hx in Hq.
Qed.

Lemma last_resort_spec config c g :
  proper_dcs (gconf g) →
  ∃ p, repriced (gconf g) p ∧ everywhere_end p (files (cloud g)) (last_resort (everywhere config c) g).
Proof.
  intros Hdc. pose proof (everywhere_spec config c g Hdc) as H1.
  unfold _provision_with_on_demand_last_resort, bind at 1, caught.
  destruct (everywhere config c g) as [g1 [[]|x]] eqn:E1.
  { exists (gconf g). split; [by left|done]. }
  destruct (gce_is_exception x) eqn:Ex; cbn [negb].
  2:{ exists (gconf g). split; [by left|]. unfold everywhere_end. simpl. congruence. }
  destruct (H1 Ex) as [Hr Hf]. simpl in Hr, Hf.
  assert (∀ k, k ≠ "gce_datacenter" → k ≠ "availability_zone" → pget k (GceZones.prm (gconf g1)) = pget k (GceZones.prm (gconf g)))
    as Hk by (apply Hr).
  unfold bind at 1, gets. rewrite !Hk by done. change (value ON_DEMAND) with "on_demand".
  destruct (is_str (pget "instance_provision" (GceZones.prm (gconf g))) "on_demand") eqn:Eon.
  { exists (gconf g). split; [by left|done]. }
  destruct (truthy (pget "instance_provision_fallback_on_demand" (GceZones.prm (gconf g)))) eqn:Efl; simpl.
  2:{ exists (gconf g). split; [by left|done]. }
  destruct (_is_capacity_exhaustion x); simpl; [|exists (gconf g); split; [by left|done]].
  exists (GceZones.set_param "instance_provision" (VStr "on_demand") (gconf g)). split; [by right|].
  unfold bind at 1 2. destruct (sweep_regions_ok (fromkeys (current_datacenters (gconf g1)) []) g1) as (Hc2 & Hf2 & Hq).
  destruct (for_each _ _ g1) as [g2 [[]|y]]; simpl in Hc2, Hf2, Hq.
  2:{ unfold everywhere_end. simpl. rewrite (Hq y eq_refl). congruence. }
  unfold bind at 1, on_conf, modify.
  set (g3 := GState (GceZones.set_param "instance_provision" (VStr "on_demand") (gconf g2)) (cloud g2)).
  assert (placement_restored (GceZones.set_param "instance_provision" (VStr "on_demand") (gconf g)) (gconf g3)) as H3.
  { subst g3. simpl. rewrite Hc2. by apply placement_restored_set. }
  eapply everywhere_end_restored; [exact H3|]. rewrite <-Hf, <-Hf2. apply (everywhere_spec config c g3).
  apply (placement_restored_proper _ _ H3). unfold proper_dcs.
  by destruct (set_param_dcs "instance_provision" (VStr "on_demand") (gconf g)) as [-> ->].
Qed.

Notation resolve := (GceZones.resolve zones_for_region type_in_zone query).

Lemma resolve_same_but_az pick c c' : resolve pick c = Ok c' → same_but_az c c'.
Proof.
  assert (∀ c v, same_but_az c (GceZones.set_param "availability_zone" v c)) as Hset by (intros c0 v; exists v; by right).
  assert (same_but_az c c) as Hself by (exists VNone; by left).
  unfold GceZones.resolve. repeat case_match; intros; simplify_eq; auto.
Qed.

Notation provision_gce := (_provision_gce_resources time sleep is_runtime_error has_main_device publish_or_dump
  await_cloud_init build_all_region_definitions create_provisioner safe_dump base_logdir discover_regions
  provisioner_cleanup zones_for_region type_in_zone query).

(** The provisioning with the handoff at its end. *)
Lemma provision_gce_spec pick tid config g :
  proper_dcs (gconf g) →
  match resolve pick (gconf g) with
  | Err _ => provision_gce pick tid config g = (g, Err NoValidAvailabilityZone)
  | Ok c => ∃ p g1 r1, repriced c p ∧ everywhere_end p (files (cloud g)) (g1, r1) ∧
      provision_gce pick tid config g =
      match r1 with
      | Err x => (g1, Err x)
      | Ok _ =>
        let az := pget "availability_zone" (GceZones.prm (gconf g1)) in
        match original_datacenters (gconf g1) with
        | Some region_name =>
          if truthy region_name && (negb (bool_decide (Some region_name = original_datacenters (gconf g))) ||
               negb (py_eq az (pget "availability_zone" (GceZones.prm (gconf g)))))
          then write_handoff safe_dump base_logdir (handoff_key tid (GceZones.prm (gconf g1))) region_name az g1
          else (g1, Ok tt)
        | None => (g1, Ok tt)
        end
      end
  end.
Proof.
  intros Hdc.
  assert (provision_gce pick tid config g = match resolve pick (gconf g) with
    | Err _ => (g, Err NoValidAvailabilityZone)
    | Ok c => (last_resort (everywhere config c) ;;;
               let! c := gets gconf in
               let az := pget "availability_zone" (GceZones.prm c) in
               match original_datacenters c with
               | Some region_name =>
                 if truthy region_name && (negb (bool_decide (Some region_name = original_datacenters (gconf g))) ||
                      negb (py_eq az (pget "availability_zone" (GceZones.prm (gconf g)))))
                 then write_handoff safe_dump base_logdir (handoff_key tid (GceZones.prm c)) region_name az else ret tt
               | None => ret tt
               end) (GState c (cloud g)) end) as ->.
  { unfold _provision_gce_resources, bind, gets, resolve_zones. by destruct (resolve pick (gconf g)). }
  destruct (resolve pick (gconf g)) as [c|] eqn:Er; [|done].
  pose proof (resolve_same_but_az _ _ _ Er) as Hs. set (g0 := GState c (cloud g)).
  assert (proper_dcs (gconf g0)) as H0. { unfold proper_dcs. simpl. by destruct (same_but_az_dcs _ _ Hs) as [-> ->]. }
  destruct (last_resort_spec config c g0 H0) as (p & Hp & He). unfold bind at 1.
  destruct (last_resort (everywhere config c) g0) as [g1 r1] eqn:El. exists p, g1, r1. split_and!; [done|done|].
  destruct r1 as [[]|x]; [|done]. unfold bind, gets. cbn zeta.
  by destruct (original_datacenters (gconf g1)) as [rn|]; [destruct (_ && _)|].
Qed.

(** C12. Provisioning on GCE escalates from zones to regions to on-demand instances without
    losing track of the configuration: when it gives up with an [Exception], datacenters,
    zone and environment are those of the upfront zone filter, whatever was tried, and no
    handoff was written; whether it returns or raises, no other parameter has changed but the
    pricing, and this only from spot to on-demand and only if the test allows it. *)
Theorem gce_provisioning_consistent pick tid config g :
  proper_dcs (gconf g) →
  let '(g', r) := provision_gce pick tid config g in
  match resolve pick (gconf g) with
  | Err _ => g' = g ∧ r = Err NoValidAvailabilityZone
  | Ok c => ∃ p, repriced c p ∧
      match r with
      | Ok _ => others_same p (gconf g')
      | Err x => gce_is_exception x = true → placement_restored p (gconf g') ∧ files (cloud g') = files (cloud g)
      end
  end.
Proof.
  intros Hdc. pose proof (provision_gce_spec pick tid config g Hdc) as H.
  destruct (resolve pick (gconf g)) as [c|]; [|by rewrite H].
  destruct H as (p & g1 & r1 & Hp & He & ->). destruct r1 as [[]|x].
  - destruct He as (_ & Ho & _). cbn zeta.
    destruct (original_datacenters (gconf g1)) as [rn|]; [destruct (_ && _)|]; by exists p.
  - by exists p.
Qed.

Hypothesis yaml_roundtrip : ∀ y, safe_load (safe_dump y) = Some y.

Lemma repriced_keeps c p k : repriced c p → k ≠ "instance_provision" → pget k (GceZones.prm p) = pget k (GceZones.prm c).
Proof. intros [->|[-> _]] Hk; [done|]. simpl. by rewrite pget_insert, decide_False. Qed.

Lemma repriced_dcs c p : repriced c p → GceZones.gce_datacenters p = GceZones.gce_datacenters c.
Proof. intros [->|[-> _]]; [done|]. by apply set_param_dcs. Qed.

(** The configuration a process loads is the one the provisioning started from. *)
Definition loads_same (g : gstate) (s : Placement.settings) : Prop :=
  Placement.prm s = GceZones.prm (gconf g) ∧
  Placement.environ s !! "SCT_GCE_DATACENTER" = GceZones.env_dc (gconf g) ∧ Placement.on_gce s = true.

(** C5. Provisioning and test run, two processes, agree on where the cluster is: after a
    provisioning on GCE that returned, whether the cluster stayed, changed zone, moved to
    another region or was downgraded to on-demand, a test run that loads the same
    configuration and applies the handoff of this test has the datacenters the provisioning
    ended with, provided no older handoff of the test was lying around. It has its zones too,
    when the provisioning ended with zones; a handoff without zones leaves the test run the
    zones of the configuration it loaded. *)
Theorem split_pipeline_agrees pick tid config g g' s t :
  proper_dcs (gconf g) → GceZones.gce_datacenters (gconf g) ≠ [] →
  provision_gce pick tid config g = (g', Ok tt) →
  loads_same g s → Placement.takes_handoff t s → handoff_key tid (GceZones.prm (gconf g)) = t →
  Placement.read_resolved_placement safe_load base_logdir t (files (cloud g)) = None →
  text_or_none (pget "availability_zone" (GceZones.prm (gconf g'))) →
  ∃ s', Placement._apply_resolved_placement safe_load base_logdir (files (cloud g')) s = Ok s' ∧
    GceZones.gce_datacenters (Placement.gce_view s') = GceZones.gce_datacenters (gconf g') ∧
    pget "availability_zone" (Placement.prm s') =
      (if truthy (pget "availability_zone" (GceZones.prm (gconf g')))
       then pget "availability_zone" (GceZones.prm (gconf g')) else pget "availability_zone" (Placement.prm s)).
Proof using yaml_roundtrip.
  intros Hdc Hne Hrun (Hprm & Henv & Hgce) Ht Hkey Hno Haz.
  pose proof (provision_gce_spec pick tid config g Hdc) as H.
  destruct (resolve pick (gconf g)) as [c|] eqn:Er; [|congruence].
  pose proof (resolve_same_but_az _ _ _ Er) as Hs. destruct (same_but_az_dcs _ _ Hs) as [Hcd _].
  destruct H as (p & g1 & r1 & Hp & He & Heq). rewrite Heq in Hrun. clear Heq.
  destruct r1 as [[]|x]; [|congruence]. destruct He as (Hf & Ho & Hd). simpl in Hf, Ho, Hd.
  rewrite (repriced_dcs c p Hp), Hcd in Hd.
  assert (pget "reuse_cluster" (GceZones.prm (gconf g1)) = pget "reuse_cluster" (GceZones.prm (gconf g))) as Hre.
  { destruct Ho as [Ho _]. rewrite Ho by done. rewrite (repriced_keeps c) by done.
    destruct Hs as (v & [->| ->]); [done|]. simpl. by rewrite pget_insert, decide_False. }
  unfold handoff_key in Hrun. rewrite Hre in Hrun. fold (handoff_key tid (GceZones.prm (gconf g))) in Hrun. rewrite Hkey in Hrun.
  assert (GceZones.gce_datacenters (gconf g1) ≠ []) as Hne1 by (intros ?%Hd; done).
  assert (GceZones.gce_datacenters (Placement.gce_view s) = GceZones.gce_datacenters (gconf g)) as Hview.
  { unfold GceZones.gce_datacenters, Placement.gce_view. simpl. by rewrite Hprm, Henv. }
  assert (∀ c, GceZones.gce_datacenters c ≠ [] → original_datacenters c = Some (join " " (GceZones.gce_datacenters c))) as Horig.
  { intros c0. unfold original_datacenters. by destruct (GceZones.gce_datacenters c0). }
  rewrite !Horig in Hrun by done. cbn zeta in Hrun.
  rewrite Placement.join_words_truthy in Hrun by (done || apply gce_datacenters_words). simpl in Hrun.
  set (az := pget "availability_zone" (GceZones.prm (gconf g1))) in Hrun.
  destruct (negb _ || negb _) eqn:Eb.
  - injection Hrun as <-. simpl in Haz. fold az in Haz.
    destruct (Placement.apply_written safe_dump safe_load base_logdir yaml_roundtrip (files (cloud g1)) s t
      (GceZones.gce_datacenters (gconf g1)) az [] Ht Hne1 (gce_datacenters_words _) Haz) as (s' & Hs' & Hc & Hz & _);
      [constructor|by apply not_elem_of_nil..|].
    exists s'. rewrite Hgce in Hc. split_and!; [done|done|]. simpl. fold az. destruct (truthy az); [by apply Hz|done].
  - injection Hrun as <-. fold az in Haz |- *. apply orb_false_iff in Eb as [E1 E2]. apply negb_false_iff in E1, E2.
    apply bool_decide_eq_true in E1. injection E1 as E1. apply py_eq_text in E2; [|done].
    assert (GceZones.gce_datacenters (gconf g1) = GceZones.gce_datacenters (gconf g)) as Hsame.
    { rewrite <-(split_ws_join (GceZones.gce_datacenters (gconf g1))), E1 by apply gce_datacenters_words.
      apply split_ws_join, gce_datacenters_words. }
    exists (Placement.Settings (Placement.prm s) (Placement.environ s) None).
    split_and!; [|by rewrite Hsame|simpl; rewrite E2, <-Hprm; by case_match].
    rewrite (Placement.apply_takes safe_load base_logdir t) by done. by rewrite Hf, Hno.
Qed.
End EndToEnd.

(** ** Witnesses

    A cloud that refuses a number of requests, in a clock that moves with every sleep. *)
Record ex_world := ExWorld { refusals : nat; refusal : gexn; ex_clock : Z }.

Definition ex_time : act ex_world gexn Z := gets ex_clock.
Definition ex_sleep (d : Z) : act ex_world gexn unit :=
  modify (λ w, ExWorld (refusals w) (refusal w) (ex_clock w + Z.max 0 d)).

#[local] Program Instance ex_clock_instance : Retry.Clock ex_time ex_sleep := {| Retry.clock := ex_clock |}.
Next Obligation. intros w. exists w. split; [done|lia]. Defined.
Next Obligation. intros d w. eexists. split; [reflexivity|]. simpl. lia. Defined.

Definition ex_provisioner (region_ az_ : string) : Provisioner (W := ex_world) :=
  MkProvisioner region_ az_ (λ ds m w,
    match refusals w, is_spot m with
    | S n, true => (ExWorld n (refusal w) (ex_clock w), Err (refusal w))
    | _, _ => (w, Ok ((λ _, Vm None "10.0.0.1" "scyllaadm" "key") <$> ds))
    end).

Definition ex_defs : list InstanceDefinition :=
  [Definition_ "n2-highmem-8" false; Definition_ "e2-standard-2" true; Definition_ "n2-highmem-8" false].
Definition ex_publish (e : ProvisionPlan.outcome_event) : act ex_world gexn unit := ret tt.
Definition ex_init (h u k : string) (v : VmInstance) : act ex_world gexn unit := ret tt.

(** Preempted once: downgraded to on-demand, with a line for each of the two types. *)
Lemma downgrade_recorded_by_type_witness :
  ∃ m', created_at ex_sleep (ex_provisioner "us-east1" "b") ex_defs SPOT m' true
          (ExWorld 1 (OperationPreemptedError "preempted") 0) ∧ m' = ON_DEMAND.
Proof.
  pose proof (downgrade_recorded_by_type ex_time ex_sleep (λ _, false) (ret false) ex_publish
    ltac:(discriminate) ltac:(discriminate) ex_init
    (ex_provisioner "us-east1" "b") ex_defs SPOT true
    (ProvisionPlan.State (ExWorld 1 (OperationPreemptedError "preempted") 0) [] [])) as H.
  vm_compute (provision_instances_with_fallback _ _ _ _ _ _ _ _ _ _ _) in H.
  destruct H as [[(m' & Hc & Hl & _)|(x & m' & w0 & w' & Hx & _)] _]; [|discriminate].
  exists m'. split; [exact Hc|]. destruct m'; [reflexivity| |]; vm_compute in Hl; discriminate.
Defined.

Definition ex_gce_conf : GceZones.conf :=
  GceZones.Conf (<["cluster_backend" := VStr "gce"]> (<["test_id" := VStr "0f3c"]> (<["instance_provision" := VStr "spot"]>
    (<["fallback_to_next_availability_zone" := VBool true]> (<["fallback_to_next_region" := VBool true]>
    (<["instance_provision_fallback_on_demand" := VBool true]> (GceZones.prm GceZones.ex_conf))))))) None None 0.

Definition ex_build (c : GceZones.conf) : act ex_world gexn (list RegionDefinition) :=
  ret [Region "gce" "0f3c" (join " " (GceZones.gce_datacenters c)) (str_pyval (pget "availability_zone" (GceZones.prm c)))
         ex_defs None].
Definition ex_create (r : RegionDefinition) (c : list (string * pyval)) : act ex_world gexn (Provisioner (W := ex_world)) :=
  ret (ex_provisioner (region r) (availability_zone r)).
Definition ex_discovered : act ex_world gexn (list provisioner) := ret [("us-east1", 0%nat)].
Definition ex_clean (p : provisioner) : act ex_world gexn unit := ret tt.

Definition ex_gce (n : nat) : gstate (W := world (W := ex_world) (content := Placement.yaml)) :=
  GState ex_gce_conf (World (ProvisionPlan.State (ExWorld n (ZoneResourcesExhaustedError "us-east1-b") 0) [] []) ∅).

Definition ex_provision_gce (n : nat) :=
  _provision_gce_resources ex_time ex_sleep (λ _, false) (ret false) ex_publish ex_init ex_build ex_create
    id "/sct" ex_discovered ex_clean GceZones.ex_zones GceZones.ex_offers GceZones.ex_query 0 "0f3c" [] (ex_gce n).

Lemma ex_gce_proper : proper_dcs ex_gce_conf.
Proof. unfold proper_dcs. vm_compute. intros H. exfalso. lia. Defined.

(** Thirty refusals: no region has spot instances, and the cluster is created on demand. *)
Lemma gce_provisioning_consistent_witness :
  ∃ c p, GceZones.resolve GceZones.ex_zones GceZones.ex_offers GceZones.ex_query 0 ex_gce_conf = Ok c ∧ repriced c p ∧
    others_same p (gconf (ex_provision_gce 30).1) ∧ is_str (pget "instance_provision" (GceZones.prm p)) "on_demand" = true.
Proof.
  assert (let '(g', r) := ex_provision_gce 30 in
    match GceZones.resolve GceZones.ex_zones GceZones.ex_offers GceZones.ex_query 0 ex_gce_conf with
    | Err _ => g' = ex_gce 30 ∧ r = Err NoValidAvailabilityZone
    | Ok c => ∃ p, repriced c p ∧
        match r with
        | Ok _ => others_same p (gconf g')
        | Err x => gce_is_exception x = true → placement_restored p (gconf g') ∧ files (cloud g') = ∅
        end
    end) as H.
  { exact (gce_provisioning_consistent ex_time ex_sleep (λ _, false) (ret false) ex_publish ex_init ex_build ex_create
      id "/sct" ex_discovered ex_clean GceZones.ex_zones GceZones.ex_offers GceZones.ex_query
      0 "0f3c" [] (ex_gce 30) ex_gce_proper). }
  assert ((ex_provision_gce 30).2 = Ok tt) as Hok by (vm_compute; reflexivity).
  assert (is_str (pget "instance_provision" (GceZones.prm (gconf (ex_provision_gce 30).1))) "on_demand" = true) as Hod
    by (vm_compute; reflexivity).
  destruct (ex_provision_gce 30) as [g' r]. cbn [fst snd] in Hok, Hod |- *. subst r.
  destruct (GceZones.resolve _ _ _ _ _) as [c|x] eqn:Er; [|destruct H; discriminate].
  destruct H as (p & Hp & Ho). exists c, p. split; [reflexivity|]. split; [exact Hp|]. split; [exact Ho|].
  destruct Ho as [Ho _]. rewrite <-(Ho "instance_provision") by discriminate. exact Hod.
Defined.

Definition ex_loaded : Placement.settings := Placement.Settings (GceZones.prm ex_gce_conf) ∅ None.

(** The cluster moved to another region; the run that loads the old configuration follows. *)
Lemma split_pipeline_agrees_witness :
  ∃ s', Placement._apply_resolved_placement Placement.ex_load "/sct" (files (cloud (ex_provision_gce 2).1)) ex_loaded = Ok s' ∧
    GceZones.gce_datacenters (Placement.gce_view s') = ["us-west1"].
Proof.
  destruct (split_pipeline_agrees ex_time ex_sleep (λ _, false) (ret false) ex_publish ex_init ex_build ex_create
    id Placement.ex_load "/sct" ex_discovered ex_clean GceZones.ex_zones GceZones.ex_offers GceZones.ex_query
    (λ _, eq_refl) 0 "0f3c" [] (ex_gce 2) (ex_provision_gce 2).1 ex_loaded "0f3c" ex_gce_proper) as (s' & Hs & Hd & _).
  - vm_compute. discriminate.
  - vm_compute. reflexivity.
  - repeat split.
  - repeat split; discriminate.
  - vm_compute. reflexivity.
  - reflexivity.
  - right. exists "b,d". vm_compute. reflexivity.
  - exists s'. split; [exact Hs|]. rewrite Hd. vm_compute. reflexivity.
Defined.
End InstancesProvider.
